(* ===== verification/_CoqProject ===== *)
-Q . S2P
Prelude.v
EmulatorTypes.v
ExecutionContext.v
Samples.v
GuestMemory.v
Decoder.v
OperandFields.v
AluInstructions.v
DataMovementInstructions.v
StackInstructions.v
ControlFlowInstructions.v
SystemInstructions.v
SimdInstructions.v
Flags.v
OperandDecoders.v
DecoderSpec.v
InstructionSpecs.v
Interpreter.v
AddressSpace.v
UserMemory.v
KernelObjectPool.v
RuntimeTypes.v
UserRuntime.v
Rpc.v
Syscalls.v
RuntimeInvariant.v
KernelSafety.v
RpcSafety.v
SyscallSafety.v
RuntimeStart.v
KernelSamples.v
RpcSpecs.v
KernelSpecs.v
KernelFindings.v
PeImage.v
X64PeImage.v
Win32Emulation.v
ImportStub.v
Win32Samples.v
LibcString.v
LibcStdlib.v
UserSdk.v
LibcStdio.v
LibcStdioSpecs.v
UserProcess.v
TerminalService.v
LoadStatus.v
PlatformMemory.v
X64Platform.v
X64PageTables.v
X64Samples.v
KernelFrames.v
SystemStart.v
X64System.v
Arm64Platform.v
Arm64PageTables.v
Arm64Emulation.v
Arm64EmulationSafety.v
Arm64System.v
Arm64EmulationSpecs.v
Arm64Cpu.v
Arm64Samples.v
KernelView.v
KernelSteps.v
KernelRefinement.v
SyscallRefinement.v
Confinement.v
ViewInvariant.v
Accounting.v
X64Refinement.v
Arm64Refinement.v
BlockedThreads.v
Boot.v
EmulatorTests.v
Win32LoaderTests.v
UserPrograms.v
