(* ===== verification/Prelude.v ===== *)
(** * A verification library for ringos-ng

    ringos-ng is a small operating system in C++.  Its kernel ([src/kernel],
    [src/arch]) runs on x86-64 and arm64; its user processes talk to each other
    through synchronous remote procedure calls; an interpreter of x86-64 machine
    code ([src/emulator]) lets an arm64 machine run x64 programs; a loader
    ([src/win32]) puts PE images and their imports in place; and a C library, an
    SDK, start-up code and a terminal service ([src/user], [src/kernelsdk],
    [src/services]) are what programs are built on.  This library models all of
    these, from the entry point of the kernel to a sample program that prints a
    line, proves them correct where they are, and exhibits where they are not.

    The main theorems, in the files that end each part:
    - [Interpreter.run_x64_emulator_safe]: no guest makes the emulator leave its
      arrays or fail to return;
    - [Boot.x64_boots], [Boot.arm64_boots]: the boot ends in user mode on x86-64,
      in the loop that enters threads on arm64;
    - [X64System.x64_system_safe], [Arm64System.arm64_system_safe]: no sequence of
      system calls by any programs makes the kernel dereference a null or dangling
      pointer, leave an array or loop (an emulated guest can bring the arm64 kernel
      to the signed overflow of the emulator's address computation, or use its
      budget up, which panics);
    - [X64System.x64_system_isolated], [Arm64System.arm64_system_isolated]: a
      process reaches its own memory only;
    - [SyscallRefinement.dispatch_syscall_refines]: every system call is a step of
      an abstract specification, and two consequences of it:
      [Confinement.dispatch_syscall_confined], what a call cannot do to others, and
      [BlockedThreads.x64_blocked_threads_wait], [arm64_blocked_threads_wait]: who
      is blocked waits for an answer.

    ** Conventions

    An unsigned C++ integer is a [Z] in its range, with the wrap-around written
    out ([u8], [u32], [u64] in this file); a signed one is a [Z] with the modular
    conversions [s8], [s32], [s64].  A function with side effects is a function
    [M S A] from the state to an [outcome]: it returns, it has undefined
    behaviour (which kind is recorded), or the fuel of one of its loops is used
    up.  [wp] is partial with respect to signed overflow only, [twp] is total
    correctness.  A panic is a value ([may_panic]); what the code would do
    afterwards is an empty loop.  Memory of the host is a function from addresses
    to bytes.  Function and record field names are those of the source; the
    comment of each definition that groups or splits code says so.

    ** The emulator ([src/emulator/x64], [src/emulator/include])

    - [EmulatorTypes]: enumerations and structures of [x64_emulator.h],
      [x64_instruction.h]; the guest is a byte list, the callback a function of
      the guest state, its memory and a world of its own (a parameter [W]).
    - [ExecutionContext]: [x64_execution_context.cpp], registers, the
      bounds-checked guest window, flags, the stack; with the safety of each
      method.
    - [Decoder]: [x64_decoder.cpp].  The prefix loop has fuel the size of the
      window plus one: each iteration reads the next byte of the window.
    - [OperandFields], [AluInstructions], [DataMovementInstructions],
      [StackInstructions], [ControlFlowInstructions], [SystemInstructions],
      [SimdInstructions]: the handlers, file by file; each with the lemma that it
      keeps the context well formed.
    - [Interpreter]: the two dispatch tables ([x64_instruction_dispatch.cpp]), the
      run loop ([x64_interpreter.cpp]; fuel the instruction budget plus one) and
      the entry point ([x64_emulator.cpp]).  [run_x64_emulator_safe] also says how
      far the world of the callback may have moved: one call per retired
      instruction at most, which is how the arm64 kernel survives its guests.
    - [GuestMemory], [Flags], [OperandDecoders], [DecoderSpec],
      [InstructionSpecs]: functional specifications: memory round trips, flags
      against the arithmetic they describe, the three operand decoders against
      one another, the prefix decoder, and the effect of single instructions and
      of pairs of them (compare and branch, call and return).  [Samples] holds
      the concrete contexts the instances use.
    - [EmulatorTests]: the unit tests of [emulator/tests], harness and guest
      programs byte for byte, run on the model ([unit_tests_pass]).

    ** The kernel ([src/kernel], [src/arch/x64/user_runtime.cpp])

    - [AddressSpace]: [address_space.cpp].  The validation loop has fuel one more
      than the mappings: every iteration but the last ends at the limit of a
      mapping that no later one meets.  [byte_host] is the specification, the
      translation of a single byte.
    - [UserMemory]: the copy functions of [user_runtime.cpp]; each is shown to
      refine a loop over single bytes.
    - [KernelObjectPool]: [kernel_object.cpp] and [kernel_object_pool.inl].  The
      class [KernelObject] is the base class of the pooled objects.
    - [RuntimeTypes]: processes, threads, memory objects, endpoints and channels,
      the runtime, and the kernel state [kernel]: runtime, host memory, and the
      log of the calls into the architecture layer.  A pointer to a pooled object
      is the index of its slot; dereferencing a null pointer or an empty slot is
      undefined behaviour.
    - [UserRuntime]: the lower half of [user_runtime.cpp]; the class
      [RuntimePool] gives the operations on a pool inside the runtime, once for
      the five pools.
    - [Rpc]: [rpc.cpp], with both branches ([Target]) of [prepare_server_thread].
    - [Syscalls]: the upper half of [user_runtime.cpp] ([dispatch_syscall],
      [terminate_current_thread], [run_initial_user_runtime]) and
      [x64_handle_syscall].
    - [RuntimeInvariant], [KernelSafety], [RpcSafety], [SyscallSafety],
      [RuntimeStart]: the invariant [runtime_wf], and that every operation
      returns and keeps it.  The invariant has handles unique in each pool, every
      pointer live, one running thread, distinct endpoint names, endpoints owned
      by live threads of their process or unused, channels bound to an endpoint
      and a client, and the three threads of a pending call.  It assumes fewer
      than 2^63 system calls since the start, so that the 64-bit handle counter
      does not wrap.
    - [RpcSpecs], [KernelSpecs]: what a call delivers to the server, that its
      completion gives the client its status and the server its state back, the
      registers with which a callback starts, thread exit, and the scheduler's
      order.  [KernelSamples] builds the concrete kernel the instances use by
      running the start code; [KernelFindings] runs it into three states the
      design does not mean to allow.

    ** The abstract kernel

    - [KernelView], [KernelSteps]: the specification.  A view is three finite maps
      (states of threads, services, sessions), the running thread and the handles
      of other objects; a step says
      with which status a request is answered and what becomes of the view, and
      leaves open what no client may rely on.
    - [KernelRefinement], [SyscallRefinement]: the proof that the handlers
      implement it, from the operations of the runtime up to [dispatch_syscall].
    - [Confinement]: what a step leaves of the sessions of other processes and of
      the services and states of other threads.
    - [ViewInvariant]: an invariant of the specification, by cases on its steps.
    - [Accounting], [X64Refinement], [Arm64Refinement], [BlockedThreads]: both
      systems keep it, emulated guests included, and what it says of threads,
      channels and endpoints.

    ** The loaders ([src/win32])

    - [PeImage]: [pe_image.cpp].  The state is the bytes of the buffer the image is
      loaded into; file and buffer accesses outside the arrays are undefined
      behaviour.  The specification [image_byte] gives every byte of a loaded
      image; [load_pe32_plus_image_overruns] is the case the loader's checks miss.
    - [X64PeImage]: [x64_pe64_image.cpp].  The thunk loop has fuel the size of the
      image over eight plus two, the descriptor loop the size of the directory over
      twenty plus one: the entries they read lie one after the other inside.  The
      class [ImportResolver] is what the loader asks of a resolver;
      [descriptors_bound] says which imports an image lists and how they are bound.
    - [Win32Emulation]: [x64_win32_emulation.cpp] and the table of
      [generated/x64_win32_dll_exports.cpp]; an instance of [ImportResolver].
    - [LoadStatus]: the messages of the status codes.
    - [ImportStub]: a bound import run by the emulator, to its return or, when the
      system call ends the thread or yields, to the end of the run.  [Win32Samples] holds the
      images the instances use.
    - [Win32LoaderTests]: the unit tests of [win32/tests]: they end for every image
      ([main_ends]), and pass on the image of [test_app_pe64.S], which, loaded and
      run, makes the two system calls it imports ([win32_program_logs_and_exits]).

    ** The platforms ([src/arch])

    - [PlatformMemory]: translation tables in host memory, and what else the two
      platforms share.
    - [X64Platform], [X64PageTables], [X64Samples]: page tables, images, bootstrap
      record and model-specific registers of [arch/x64]; the four-level walk of the
      processor is the reference.
    - [Arm64Platform], [Arm64PageTables]: the same for [arch/arm64], with the
      processor's walk for a 4 KB granule and 39-bit addresses.
    - [Arm64Emulation], [Arm64EmulationSafety], [Arm64EmulationSpecs]: threads run
      by the emulator, whose callback is the kernel's own [dispatch_syscall] and
      whose window is the process's memory; the entry of native system calls
      ([arm64_handle_syscall]); the loop that enters the current thread.  The
      budget of a turn is the source's, 512 instructions.
    - [Arm64Cpu]: the translation registers of the processor as the kernel calls
      the architecture layer.
    - [KernelFrames], [SystemStart]: what the kernel never changes, the processes
      it starts with, and the owner of the first thread.
    - [X64System], [Arm64System]: the whole system as a step relation: the boot,
      then stores of user mode wherever the page tables permit them, and system
      calls with any registers, in any order.  [Arm64Samples] holds the instances,
      and a guest that brings its turn to a signed overflow
      ([guest_overflows_kernel]).  The hypothesis [platform_ok] says where the
      platform object lies, and that the data of every section of an embedded
      image with acceptable headers ends within the region given to the loader.
      The loaders do not check the latter ([load_pe32_plus_image_overruns]).
    - [Boot]: from [x64_entry] and [arm64_entry] through [kernel_main] to the
      runtime, on x86-64 to the registers with which the first thread enters user
      mode: the machine descriptor, debug output, panic, the global
      constructors.  The functions the linker collects in .init_array are an
      argument; [constructed] says that they return, write nothing and leave the
      kernel in its initial state.  The debug channel is the list of port writes
      and semihosting calls, and [console] what QEMU shows of it; the lines the
      kernel's model logs as events come out there ([on_kernel]).

    ** User programs ([src/user], [src/kernelsdk], [src/services])

    - [LibcString], [LibcStdlib], [LibcStdio], [LibcStdioSpecs]: the C library.
      [vsnprintf_correct] compares the formatting loop with a reference that reads
      the format once, for any fuel above the length of the format and of the
      strings it prints.  A list of arguments is the list of the 64-bit slots the
      targets pass them in.
    - [UserSdk], [UserProcess]: the functions in front of the trap, and what the
      kernel answers them.  The trap is an argument ([ringos_syscall]).
    - [TerminalService]: [srv_terminal_main.cpp] and the lines of a stream as its
      specification; the class [TerminalLog] is what it asks of the kernel.
    - [UserPrograms]: start-up ([crt0.c]), the compiler's support functions, and
      the sample programs; the class [TerminalConnection] is what a client asks of
      the kernel and the service.  [exit] has fuel one more than the functions
      that are registered.

    ** Not modelled

    The assembly (entry code, context switch, system call stubs) is the frames
    and registers the C++ code gets and gives; what the processor does with page
    tables is the reference walk.  Functions that only return a field, forward a
    pointer or declare a type ([stdint.h], accessors, the singletons of the
    platforms) have no definition: a field of a record stands for its accessor.
    [crt/entry.c] and [libc/stdio.c] are not part of the build.  Scripts,
    patches and the configuration of the third-party C++ library are not C++ code
    of the system. *)
From Stdlib Require Export ZArith Lia.
From Stdlib Require Ascii String.
From stdpp Require Export base list option.

#[export] Set Default Goal Selector "!".

Declare Scope word_scope.
Delimit Scope word_scope with word.
#[global] Open Scope Z_scope.

(** * Fixed-width integers

    A C++ unsigned integer is a [Z] in [[0, 2^w)]; every operation that can
    leave that interval is followed by [u8], [u32] or [u64], the conversion the
    language performs.  A signed integer is a [Z] in its two's complement
    range; [s8], [s32] and [s64] are the (C++20, modular) conversions. *)

Definition u8 (z : Z) : Z := z mod 2 ^ 8.
Definition u16 (z : Z) : Z := z mod 2 ^ 16.
Definition u32 (z : Z) : Z := z mod 2 ^ 32.
Definition u64 (z : Z) : Z := z mod 2 ^ 64.

Definition signed (w z : Z) : Z :=
  let m := z mod 2 ^ w in if m <? 2 ^ (w - 1) then m else m - 2 ^ w.

Definition s8 (z : Z) : Z := signed 8 z.
Definition s32 (z : Z) : Z := signed 32 z.
Definition s64 (z : Z) : Z := signed 64 z.

Definition u8_ok (z : Z) : Prop := 0 <= z < 256.
Definition u32_ok (z : Z) : Prop := 0 <= z < 2 ^ 32.
Definition u64_ok (z : Z) : Prop := 0 <= z < 2 ^ 64.
Definition s32_ok (z : Z) : Prop := - 2 ^ 31 <= z < 2 ^ 31.
Definition s64_ok (z : Z) : Prop := - 2 ^ 63 <= z < 2 ^ 63.

(** Bitwise complement of a 64-bit word ([~x] on [uint64_t]). *)
Definition not64 (z : Z) : Z := Z.lxor z (Z.ones 64).

Definition UINT64_MAX : Z := 18446744073709551615.
Definition UINT32_MAX : Z := 4294967295.

(** [b ? x : 0] with [b] a flag, as an integer. *)
Definition bool_to_Z (b : bool) : Z := if b then 1 else 0.

(** Bit [n] as a mask: [1ULL << n]. *)
Definition bit (n : Z) : Z := Z.shiftl 1 n.

Ltac unfold_words :=
  unfold u8_ok, u32_ok, u64_ok, s32_ok, s64_ok, u8, u16, u32, u64, s8, s32, s64, signed, UINT64_MAX,
    UINT32_MAX, bool_to_Z in *.

(** [lia] after the width predicates have been unfolded and the powers of two
    computed; [Z.to_euclidean_division_equations] handles the [mod]s. *)
Ltac words :=
  unfold_words;
  repeat match goal with
    | |- context [2 ^ ?n] =>
        match n with Zpos _ => let v := eval vm_compute in (2 ^ n) in change (2 ^ n) with v end
    | H : context [2 ^ ?n] |- _ =>
        match n with Zpos _ => let v := eval vm_compute in (2 ^ n) in change (2 ^ n) with v in H end
    end;
  try lia.

Create HintDb words.
#[export] Hint Extern 5 (u8_ok _) => solve [assumption | words] : words.
#[export] Hint Extern 5 (u32_ok _) => solve [assumption | words] : words.
#[export] Hint Extern 5 (u64_ok _) => solve [assumption | words] : words.

Lemma u8_range z : u8_ok (u8 z).
Proof. unfold u8_ok, u8. apply (Z.mod_pos_bound z (2 ^ 8)). lia. Qed.

Lemma u32_range z : u32_ok (u32 z).
Proof. unfold u32_ok, u32. apply Z.mod_pos_bound. lia. Qed.

Lemma u64_range z : u64_ok (u64 z).
Proof. unfold u64_ok, u64. apply Z.mod_pos_bound. lia. Qed.

Lemma u8_id z : u8_ok z -> u8 z = z.
Proof. unfold u8_ok, u8. intros. apply Z.mod_small. words. Qed.

Lemma u32_id z : u32_ok z -> u32 z = z.
Proof. unfold u32_ok, u32. intros. by apply Z.mod_small. Qed.

Lemma u64_id z : u64_ok z -> u64 z = z.
Proof. unfold u64_ok, u64. intros. by apply Z.mod_small. Qed.

Lemma u8_u64_ok z : u8_ok z -> u64_ok z.
Proof. words. Qed.

Lemma u8_u32_ok z : u8_ok z -> u32_ok z.
Proof. words. Qed.

Lemma u32_u64_ok z : u32_ok z -> u64_ok z.
Proof. words. Qed.

Lemma bool_to_Z_u8 b : u8_ok (bool_to_Z b).
Proof. destruct b; words. Qed.

#[export] Hint Resolve bool_to_Z_u8 u8_range u32_range u64_range : words.
#[export] Hint Resolve u8_u64_ok u8_u32_ok u32_u64_ok : words.

Lemma signed_range w z : 0 < w -> - 2 ^ (w - 1) <= signed w z < 2 ^ (w - 1).
Proof.
  intros Hw. unfold signed. cbv zeta.
  assert (2 ^ w = 2 * 2 ^ (w - 1)) as E by (rewrite <- Z.pow_succ_r by lia; f_equal; lia).
  assert (0 < 2 ^ (w - 1)) by (apply Z.pow_pos_nonneg; lia).
  pose proof (Z.mod_pos_bound z (2 ^ w) ltac:(lia)).
  destruct (Z.ltb_spec (z mod 2 ^ w) (2 ^ (w - 1))); lia.
Qed.

Lemma signed_id w z : 0 < w -> - 2 ^ (w - 1) <= z < 2 ^ (w - 1) -> signed w z = z.
Proof.
  intros Hw Hz. unfold signed. cbv zeta.
  assert (2 ^ w = 2 * 2 ^ (w - 1)) as E by (rewrite <- Z.pow_succ_r by lia; f_equal; lia).
  destruct (Z.le_gt_cases 0 z).
  - rewrite Z.mod_small by lia. by rewrite (proj2 (Z.ltb_lt _ _)) by lia.
  - rewrite <- (Z.mod_add z 1), Z.mod_small by lia. rewrite (proj2 (Z.ltb_ge _ _)) by lia. lia.
Qed.

(** A signed conversion followed by the unsigned one of the same width is the
    unsigned one: only the residue is seen. *)
Lemma signed_mod w z : 0 < w -> (signed w z) mod 2 ^ w = z mod 2 ^ w.
Proof.
  intros Hw. unfold signed. cbv zeta. case_match.
  - apply Z.mod_mod, Z.pow_nonzero; lia.
  - rewrite Zminus_mod, Z_mod_same_full, Z.sub_0_r, Z.mod_mod by (apply Z.pow_nonzero; lia).
    apply Z.mod_mod, Z.pow_nonzero; lia.
Qed.

Lemma u64_add_s64 a z : u64 (a + s64 z) = u64 (a + z).
Proof.
  unfold u64, s64.
  rewrite <- (Z.add_mod_idemp_r a (signed 64 z)), signed_mod, Z.add_mod_idemp_r by lia. reflexivity.
Qed.

Lemma u64_s64_add a z : u64 (s64 a + z) = u64 (a + z).
Proof. rewrite Z.add_comm, u64_add_s64, Z.add_comm. reflexivity. Qed.

Lemma u64_u64_add_l a z : u64 (u64 a + z) = u64 (a + z).
Proof. unfold u64. apply Z.add_mod_idemp_l. lia. Qed.

Lemma u64_u64_add_r a z : u64 (a + u64 z) = u64 (a + z).
Proof. unfold u64. apply Z.add_mod_idemp_r. lia. Qed.

(** ** Bit-level facts *)

Lemma testbit_high w z i : 0 <= w -> 0 <= z < 2 ^ w -> w <= i -> Z.testbit z i = false.
Proof.
  intros Hw Hz Hi. destruct (decide (z = 0)) as [->|]; [apply Z.bits_0|].
  apply Z.bits_above_log2; [lia|].
  apply Z.lt_le_trans with w; [|done]. apply Z.log2_lt_pow2; lia.
Qed.

Lemma word_of_testbit w z :
  0 <= w -> 0 <= z -> (forall i, w <= i -> Z.testbit z i = false) -> 0 <= z < 2 ^ w.
Proof.
  intros Hw Hz Hb. split; [done|].
  destruct (decide (z = 0)) as [->|]; [apply Z.pow_pos_nonneg; lia|].
  apply Z.log2_lt_pow2; [lia|].
  destruct (Z.lt_ge_cases (Z.log2 z) w) as [|Hge]; [done|].
  specialize (Hb (Z.log2 z) Hge). rewrite Z.bit_log2 in Hb by lia. done.
Qed.

Lemma land_word w a b : 0 <= w -> 0 <= a < 2 ^ w -> 0 <= b -> 0 <= Z.land a b < 2 ^ w.
Proof.
  intros Hw Ha Hb. apply word_of_testbit; [done|apply Z.land_nonneg; lia|].
  intros i Hi. by rewrite Z.land_spec, (testbit_high w a i).
Qed.

Lemma lor_word w a b : 0 <= w -> 0 <= a < 2 ^ w -> 0 <= b < 2 ^ w -> 0 <= Z.lor a b < 2 ^ w.
Proof.
  intros Hw Ha Hb. apply word_of_testbit; [done|apply Z.lor_nonneg; lia|].
  intros i Hi. by rewrite Z.lor_spec, (testbit_high w a i), (testbit_high w b i).
Qed.

Lemma lxor_word w a b : 0 <= w -> 0 <= a < 2 ^ w -> 0 <= b < 2 ^ w -> 0 <= Z.lxor a b < 2 ^ w.
Proof.
  intros Hw Ha Hb. apply word_of_testbit; [done|apply Z.lxor_nonneg; lia|].
  intros i Hi. by rewrite Z.lxor_spec, (testbit_high w a i), (testbit_high w b i).
Qed.

Lemma u64_lor a b : u64_ok a -> u64_ok b -> u64_ok (Z.lor a b).
Proof. apply (lor_word 64); lia. Qed.

Lemma u64_land a b : u64_ok a -> u64_ok b -> u64_ok (Z.land a b).
Proof. intros ? [? ?]. by apply (land_word 64). Qed.

Lemma u32_lor a b : u32_ok a -> u32_ok b -> u32_ok (Z.lor a b).
Proof. apply (lor_word 32); lia. Qed.

Lemma u32_land a b : u32_ok a -> u32_ok b -> u32_ok (Z.land a b).
Proof. intros ? [? ?]. by apply (land_word 32). Qed.

Lemma u32_lxor a b : u32_ok a -> u32_ok b -> u32_ok (Z.lxor a b).
Proof. apply (lxor_word 32); lia. Qed.

Lemma u8_lxor a b : u8_ok a -> u8_ok b -> u8_ok (Z.lxor a b).
Proof. apply (lxor_word 8); lia. Qed.

Lemma u8_lor a b : u8_ok a -> u8_ok b -> u8_ok (Z.lor a b).
Proof. apply (lor_word 8); lia. Qed.

Lemma u64_not64 a : u64_ok a -> u64_ok (not64 a).
Proof. intros. apply (lxor_word 64); [lia|done|]. vm_compute; split; congruence. Qed.

#[export] Hint Extern 3 (u64_ok (if ?b then _ else _)) => destruct b : words.
#[export] Hint Extern 3 (u32_ok (if ?b then _ else _)) => destruct b : words.
#[export] Hint Resolve u64_lor u64_land u32_lor u32_land u32_lxor u8_lxor u8_lor u64_not64 : words.

Lemma testbit_not64 a i : 0 <= i < 64 -> Z.testbit (not64 a) i = negb (Z.testbit a i).
Proof. intros. unfold not64. rewrite Z.lxor_spec, Z.ones_spec_low by lia. by destruct (Z.testbit a i). Qed.

Lemma testbit_bit n i : 0 <= n -> Z.testbit (bit n) i = (n =? i).
Proof.
  intros. unfold bit. rewrite Z.shiftl_1_l. destruct (Z.eqb_spec n i) as [<-|].
  - by apply Z.pow2_bits_true.
  - by apply Z.pow2_bits_false.
Qed.

(** [(x & (1 << n)) != 0] is bit [n] of [x]. *)
Lemma land_bit_nonzero x n : 0 <= n -> negb (Z.land x (bit n) =? 0) = Z.testbit x n.
Proof.
  intros Hn. destruct (Z.testbit x n) eqn:E.
  - destruct (Z.eqb_spec (Z.land x (bit n)) 0) as [H|]; [|done].
    assert (Z.testbit (Z.land x (bit n)) n = false) as H0 by (rewrite H; apply Z.bits_0).
    rewrite Z.land_spec, E, testbit_bit, Z.eqb_refl in H0 by lia. done.
  - rewrite (proj2 (Z.eqb_eq _ _)); [done|]. apply Z.bits_inj'. intros i Hi.
    rewrite Z.land_spec, Z.bits_0, testbit_bit by lia.
    destruct (Z.eqb_spec n i) as [<-|]; [by rewrite E|apply andb_false_r].
Qed.

(** The top bit of a [w]-bit word says which half of the range it is in. *)
Lemma testbit_top w z : 0 < w -> 0 <= z < 2 ^ w -> Z.testbit z (w - 1) = (2 ^ (w - 1) <=? z).
Proof.
  intros Hw Hz.
  assert (2 ^ w = 2 * 2 ^ (w - 1)) as E by (rewrite <- Z.pow_succ_r by lia; f_equal; lia).
  assert (0 < 2 ^ (w - 1)) as Hp by (apply Z.pow_pos_nonneg; lia).
  rewrite Z.testbit_odd, Z.shiftr_div_pow2 by lia.
  destruct (Z.leb_spec (2 ^ (w - 1)) z) as [Hle|Hlt].
  - replace (z / 2 ^ (w - 1)) with 1; [done|]. apply Z.div_unique with (z - 2 ^ (w - 1)); lia.
  - by rewrite Z.div_small by lia.
Qed.

(** * Bytes

    Memory is a list of bytes; a multi-byte object is stored little-endian, as
    both hosts of the program (x64 and arm64) store it. *)

Fixpoint le_encode (n : nat) (z : Z) : list Z :=
  match n with
  | O => []
  | S n => z mod 256 :: le_encode n (z / 256)
  end.

Fixpoint le_decode (bs : list Z) : Z :=
  match bs with
  | [] => 0
  | b :: bs => b + 256 * le_decode bs
  end.

Lemma length_le_encode n z : length (le_encode n z) = n.
Proof. revert z. induction n; intros; simpl; [done|by rewrite IHn]. Qed.

Lemma le_encode_bytes n z : Forall u8_ok (le_encode n z).
Proof.
  revert z. induction n; intros z; simpl; constructor; [|done].
  unfold u8_ok. apply Z.mod_pos_bound. lia.
Qed.

Lemma pow256_succ n : 256 ^ Z.of_nat (S n) = 256 * 256 ^ Z.of_nat n.
Proof. rewrite Nat2Z.inj_succ, Z.pow_succ_r by lia. reflexivity. Qed.

Lemma le_decode_encode n z : le_decode (le_encode n z) = z mod 256 ^ Z.of_nat n.
Proof.
  revert z. induction n; intros z; cbn [le_encode le_decode].
  - by rewrite Z.mod_1_r.
  - rewrite IHn, pow256_succ, Z.rem_mul_r by (try lia; apply Z.pow_pos_nonneg; lia). reflexivity.
Qed.

Lemma le_decode_range bs : Forall u8_ok bs -> 0 <= le_decode bs < 256 ^ Z.of_nat (length bs).
Proof.
  induction 1 as [|b bs Hb Hbs IH]; cbn [le_decode length]; [lia|].
  rewrite pow256_succ. unfold u8_ok in Hb. lia.
Qed.

Lemma le_encode_decode bs : Forall u8_ok bs -> le_encode (length bs) (le_decode bs) = bs.
Proof.
  induction 1 as [|b bs Hb Hbs IH]; cbn [le_decode length le_encode]; [done|].
  unfold u8_ok in Hb. f_equal.
  - rewrite Z.mul_comm, Z.mod_add, Z.mod_small by lia. done.
  - rewrite Z.mul_comm, Z.div_add, Z.div_small, Z.add_0_l by lia. done.
Qed.

Lemma le_decode_u32 bs : length bs = 4%nat -> Forall u8_ok bs -> u32_ok (le_decode bs).
Proof. intros Hl Hb. pose proof (le_decode_range bs Hb). rewrite Hl in *. words. Qed.

Lemma le_decode_u64 bs : length bs = 8%nat -> Forall u8_ok bs -> u64_ok (le_decode bs).
Proof. intros Hl Hb. pose proof (le_decode_range bs Hb). rewrite Hl in *. words. Qed.

#[export] Hint Resolve le_encode_bytes le_decode_u32 le_decode_u64 : words.

(** * Slices of a byte buffer *)

Definition slice (off len : nat) (l : list Z) : list Z := take len (drop off l).

Definition splice (off : nat) (bs l : list Z) : list Z := take off l ++ bs ++ drop (off + length bs) l.

Lemma length_slice off len l : (off + len <= length l)%nat -> length (slice off len l) = len.
Proof. intros. unfold slice. rewrite length_take, length_drop. lia. Qed.

Lemma Forall_slice (P : Z -> Prop) off len l : Forall P l -> Forall P (slice off len l).
Proof. intros. by apply Forall_take, Forall_drop. Qed.

Lemma length_splice off bs l : (off + length bs <= length l)%nat -> length (splice off bs l) = length l.
Proof. intros. unfold splice. rewrite !length_app, length_take, length_drop. lia. Qed.

Lemma Forall_splice (P : Z -> Prop) off bs l : Forall P bs -> Forall P l -> Forall P (splice off bs l).
Proof.
  intros Hb Hl. unfold splice. apply Forall_app; split; [by apply Forall_take|].
  apply Forall_app; split; [done|by apply Forall_drop].
Qed.

Lemma slice_splice_same off bs l :
  (off + length bs <= length l)%nat -> slice off (length bs) (splice off bs l) = bs.
Proof.
  intros. unfold slice, splice. rewrite drop_app_length' by (rewrite length_take; lia).
  by rewrite take_app_length.
Qed.

Lemma lookup_splice_ne off bs l i :
  (off + length bs <= length l)%nat -> (i < off \/ off + length bs <= i)%nat -> splice off bs l !! i = l !! i.
Proof.
  intros Hlen Hi. unfold splice. destruct (decide (i < off)%nat).
  - rewrite lookup_app_l by (rewrite length_take; lia). by apply lookup_take_lt.
  - rewrite lookup_app_r by (rewrite length_take; lia). rewrite length_take, Nat.min_l by lia.
    rewrite lookup_app_r by lia. rewrite lookup_drop. f_equal. lia.
Qed.

Lemma lookup_slice off len l i : (i < len)%nat -> slice off len l !! i = l !! (off + i)%nat.
Proof. intros. unfold slice. rewrite lookup_take_lt by done. apply lookup_drop. Qed.

Lemma slice_ext off len l l' :
  (forall i, (off <= i < off + len)%nat -> l !! i = l' !! i) -> slice off len l = slice off len l'.
Proof.
  intros H. apply list_eq. intros i. destruct (decide (i < len)%nat).
  - rewrite !lookup_slice by done. apply H. lia.
  - unfold slice. rewrite !lookup_take_ge by lia. done.
Qed.

Lemma slice_splice_disjoint off len off' bs l :
  (off' + length bs <= length l)%nat -> (off + len <= off' \/ off' + length bs <= off)%nat ->
  slice off len (splice off' bs l) = slice off len l.
Proof. intros. apply slice_ext. intros. apply lookup_splice_ne; lia. Qed.

Lemma slice_cons off n l b bs :
  slice off (S n) l = b :: bs -> slice off 1 l = [b] /\ slice (S off) n l = bs.
Proof.
  unfold slice. rewrite <- (Nat.add_1_r off), <- drop_drop. destruct (drop off l); [done|].
  intros H. injection H as -> <-. done.
Qed.

(** Splits a conjunction of booleans and turns boolean comparisons in the
    hypotheses into propositions. *)
Ltac bool_hyps :=
  repeat match goal with
    | H : (_ && _) = true |- _ => apply andb_prop in H as [? ?]
    | H : (_ || _) = false |- _ => apply orb_false_elim in H as [? ?]
    | H : negb _ = true |- _ => apply negb_true_iff in H
    | H : negb _ = false |- _ => apply negb_false_iff in H
    | H : (_ =? _) = true |- _ => apply Z.eqb_eq in H
    | H : (_ =? _) = false |- _ => apply Z.eqb_neq in H
    | H : (_ <? _) = true |- _ => apply Z.ltb_lt in H
    | H : (_ <? _) = false |- _ => apply Z.ltb_ge in H
    | H : (_ <=? _) = true |- _ => apply Z.leb_le in H
    | H : (_ <=? _) = false |- _ => apply Z.leb_gt in H
    end.

(** The characters of a string literal, without its terminator. *)
Definition characters (s : String.string) : list Z :=
  (fun a => Z.of_nat (Ascii.nat_of_ascii a)) <$> String.list_ascii_of_string s.

(** * Effects

    Stateful C++ code is a function from the state it works on to an outcome:
    it returns a value and a new state, it runs into undefined behaviour, or
    the fuel given to one of its loops is used up.  The last one is not a
    behaviour of the program: every loop is shown to have enough fuel. *)

Inductive undefined_behaviour :=
  | out_of_bounds       (** an array or heap access outside its object *)
  | null_dereference    (** a null pointer is dereferenced or called *)
  | dangling_pointer    (** an object that is not alive is accessed *)
  | signed_overflow     (** a signed operation leaves the type's range *)
  | division_by_zero.   (** an integer is divided by zero *)

#[export] Instance undefined_behaviour_eq_dec : EqDecision undefined_behaviour.
Proof. solve_decision. Defined.

Inductive outcome (S A : Type) :=
  | Returned (a : A) (s : S)
  | Undefined (u : undefined_behaviour)
  | OutOfFuel.
Arguments Returned {S A} a s.
Arguments Undefined {S A} u.
Arguments OutOfFuel {S A}.

Definition M (S A : Type) : Type := S -> outcome S A.

#[export] Instance M_ret {S} : MRet (M S) := fun A a s => Returned a s.

#[export] Instance M_bind {S} : MBind (M S) := fun A B f m s =>
  match m s with
  | Returned a s' => f a s'
  | Undefined u => Undefined u
  | OutOfFuel => OutOfFuel
  end.

Definition get {S} : M S S := fun s => Returned s s.
Definition gets {S A} (f : S -> A) : M S A := fun s => Returned (f s) s.
Definition modify {S} (f : S -> S) : M S unit := fun s => Returned tt (f s).
Definition undefined {S A} (u : undefined_behaviour) : M S A := fun _ => Undefined u.
Definition out_of_fuel {S A} : M S A := fun _ => OutOfFuel.

(** Array element access: an index outside the array is undefined. *)
Definition index_get {S A} (l : list A) (i : Z) : M S A :=
  match l !! Z.to_nat i with Some a => mret a | None => undefined out_of_bounds end.

(** Signed 64-bit addition: undefined when the sum does not fit. *)
Definition signed_add64 {S} (a b : Z) : M S Z :=
  if (- 2 ^ 63 <=? a + b) && (a + b <? 2 ^ 63) then mret (a + b) else undefined signed_overflow.

(** ** Weakest preconditions

    [wp m Q s]: started in [s], [m] never accesses memory out of bounds, never
    dereferences null and never runs out of fuel; when it returns, [Q] holds.
    The only undefined behaviour it leaves open is signed overflow, which is
    tracked separately (see [no_overflow] of the operand decoders). *)

Definition tolerated (u : undefined_behaviour) : Prop := u = signed_overflow.

Definition wp {S A} (m : M S A) (Q : A -> S -> Prop) (s : S) : Prop :=
  match m s with
  | Returned a s' => Q a s'
  | Undefined u => tolerated u
  | OutOfFuel => False
  end.

Section wp_rules.
Context {S A B : Type}.
Implicit Types (s : S).

Lemma wp_ret (a : A) (Q : A -> S -> Prop) s : Q a s -> wp (mret a) Q s.
Proof. done. Qed.

Lemma wp_bind (m : M S A) (f : A -> M S B) Q s : wp m (fun a => wp (f a) Q) s -> wp (m ≫= f) Q s.
Proof. unfold wp, mbind, M_bind. by destruct (m s). Qed.

Lemma wp_mono (m : M S A) (Q R : A -> S -> Prop) s :
  wp m Q s -> (forall a s', Q a s' -> R a s') -> wp m R s.
Proof. unfold wp. destruct (m s); naive_solver. Qed.

Lemma wp_modify (f : S -> S) (Q : unit -> S -> Prop) s : Q tt (f s) -> wp (modify f) Q s.
Proof. done. Qed.

Lemma wp_gets (f : S -> A) (Q : A -> S -> Prop) s : Q (f s) s -> wp (gets f) Q s.
Proof. done. Qed.

Lemma wp_index_get (l : list A) i (Q : A -> S -> Prop) s a :
  l !! Z.to_nat i = Some a -> Q a s -> wp (index_get l i) Q s.
Proof. intros H ?. unfold index_get. by rewrite H. Qed.

Lemma wp_signed_add64 a b (Q : Z -> S -> Prop) s :
  (s64_ok (a + b) -> Q (a + b) s) -> wp (signed_add64 a b) Q s.
Proof.
  intros H. unfold signed_add64.
  destruct ((- 2 ^ 63 <=? a + b) && (a + b <? 2 ^ 63)) eqn:E; [|reflexivity].
  apply H. bool_hyps. words.
Qed.
End wp_rules.

(** A run that returned is a run of both halves of a sequence. *)
Lemma bind_returned {S A B} (m : M S A) (f : A -> M S B) s b s' :
  (m ≫= f) s = Returned b s' -> exists a s1, m s = Returned a s1 /\ f a s1 = Returned b s'.
Proof. unfold mbind, M_bind. destruct (m s); naive_solver. Qed.

Lemma bind_eq {S A B} (m : M S A) (f : A -> M S B) s a s' :
  m s = Returned a s' -> (m ≫= f) s = f a s'.
Proof. intros H. unfold mbind, M_bind. by rewrite H. Qed.

(** ** Total correctness

    [twp m Q s]: started in [s], [m] returns, and [Q] holds of what it returns. *)

Definition twp {S A} (m : M S A) (Q : A -> S -> Prop) (s : S) : Prop :=
  match m s with Returned a s' => Q a s' | Undefined _ | OutOfFuel => False end.

Section twp_rules.
Context {S A B : Type}.
Implicit Types (s : S).

Lemma twp_ret (a : A) (Q : A -> S -> Prop) s : Q a s -> twp (mret a) Q s.
Proof. done. Qed.

Lemma twp_bind (m : M S A) (f : A -> M S B) Q s : twp m (fun a => twp (f a) Q) s -> twp (m ≫= f) Q s.
Proof. unfold twp, mbind, M_bind. by destruct (m s). Qed.

Lemma twp_mono (m : M S A) (Q R : A -> S -> Prop) s :
  twp m Q s -> (forall a s', Q a s' -> R a s') -> twp m R s.
Proof. unfold twp. destruct (m s); [|done..]. intros HQ HR. by apply HR. Qed.

Lemma twp_modify (f : S -> S) (Q : unit -> S -> Prop) s : Q tt (f s) -> twp (modify f) Q s.
Proof. done. Qed.

Lemma twp_gets (f : S -> A) (Q : A -> S -> Prop) s : Q (f s) s -> twp (gets f) Q s.
Proof. done. Qed.

Lemma twp_returned (m : M S A) Q s : twp m Q s <-> exists a s', m s = Returned a s' /\ Q a s'.
Proof.
  unfold twp. destruct (m s) as [a s'| |]; split; try done.
  - intros HQ. by exists a, s'.
  - intros (? & ? & [= -> ->] & HQ). done.
  - by intros (? & ? & ? & _).
  - by intros (? & ? & ? & _).
Qed.
End twp_rules.
