(* ===== verification/EmulatorTypes.v ===== *)
(** The data model of the x64 emulator: the enumerations and structures of
    [emulator/include/x64_emulator.h] and [emulator/x64/x64_instruction.h], and
    the object [x64_execution_context] holds references to
    ([emulator/x64/x64_execution_context.h]). *)
From S2P Require Import Prelude.

Inductive x64_general_register :=
  | X64_GENERAL_REGISTER_RAX
  | X64_GENERAL_REGISTER_RCX
  | X64_GENERAL_REGISTER_RDX
  | X64_GENERAL_REGISTER_RBX
  | X64_GENERAL_REGISTER_RSP
  | X64_GENERAL_REGISTER_RBP
  | X64_GENERAL_REGISTER_RSI
  | X64_GENERAL_REGISTER_RDI
  | X64_GENERAL_REGISTER_R8
  | X64_GENERAL_REGISTER_R9
  | X64_GENERAL_REGISTER_R10
  | X64_GENERAL_REGISTER_R11
  | X64_GENERAL_REGISTER_R12
  | X64_GENERAL_REGISTER_R13
  | X64_GENERAL_REGISTER_R14
  | X64_GENERAL_REGISTER_R15.

(** [static_cast<uint32_t>(register)]: the enumerator's value. *)
Definition register_index (r : x64_general_register) : Z :=
  match r with
  | X64_GENERAL_REGISTER_RAX => 0
  | X64_GENERAL_REGISTER_RCX => 1
  | X64_GENERAL_REGISTER_RDX => 2
  | X64_GENERAL_REGISTER_RBX => 3
  | X64_GENERAL_REGISTER_RSP => 4
  | X64_GENERAL_REGISTER_RBP => 5
  | X64_GENERAL_REGISTER_RSI => 6
  | X64_GENERAL_REGISTER_RDI => 7
  | X64_GENERAL_REGISTER_R8 => 8
  | X64_GENERAL_REGISTER_R9 => 9
  | X64_GENERAL_REGISTER_R10 => 10
  | X64_GENERAL_REGISTER_R11 => 11
  | X64_GENERAL_REGISTER_R12 => 12
  | X64_GENERAL_REGISTER_R13 => 13
  | X64_GENERAL_REGISTER_R14 => 14
  | X64_GENERAL_REGISTER_R15 => 15
  end.

Inductive x64_emulator_engine :=
  | X64_EMULATOR_ENGINE_INTERPRETER
  | X64_EMULATOR_ENGINE_JIT.

Inductive x64_emulator_completion :=
  | X64_EMULATOR_COMPLETION_THREAD_EXITED
  | X64_EMULATOR_COMPLETION_YIELDED
  | X64_EMULATOR_COMPLETION_INSTRUCTION_LIMIT_REACHED
  | X64_EMULATOR_COMPLETION_INVALID_MEMORY_ACCESS
  | X64_EMULATOR_COMPLETION_UNSUPPORTED_INSTRUCTION
  | X64_EMULATOR_COMPLETION_INVALID_ARGUMENT
  | X64_EMULATOR_COMPLETION_UNSUPPORTED_ENGINE.

Inductive x64_emulator_guest_stop_reason :=
  | X64_EMULATOR_GUEST_STOP_REASON_NONE
  | X64_EMULATOR_GUEST_STOP_REASON_THREAD_EXITED
  | X64_EMULATOR_GUEST_STOP_REASON_YIELDED
  | X64_EMULATOR_GUEST_STOP_REASON_INVALID_MEMORY_ACCESS
  | X64_EMULATOR_GUEST_STOP_REASON_UNSUPPORTED_INSTRUCTION.

Inductive x64_emulator_syscall_action :=
  | X64_EMULATOR_SYSCALL_ACTION_CONTINUE
  | X64_EMULATOR_SYSCALL_ACTION_YIELD
  | X64_EMULATOR_SYSCALL_ACTION_EXIT_THREAD.

Record x64_emulator_syscall_result := {
  status : Z;   (* int32_t *)
  action : x64_emulator_syscall_action;
}.

Inductive x64_emulator_backend_failure :=
  | X64_EMULATOR_BACKEND_FAILURE_NONE
  | X64_EMULATOR_BACKEND_FAILURE_INSTRUCTION_LIMIT_REACHED
  | X64_EMULATOR_BACKEND_FAILURE_INVALID_ARGUMENT
  | X64_EMULATOR_BACKEND_FAILURE_UNSUPPORTED_ENGINE.

#[export] Instance x64_emulator_engine_eq_dec : EqDecision x64_emulator_engine.
Proof. solve_decision. Defined.
#[export] Instance x64_emulator_completion_eq_dec : EqDecision x64_emulator_completion.
Proof. solve_decision. Defined.
#[export] Instance x64_emulator_guest_stop_reason_eq_dec : EqDecision x64_emulator_guest_stop_reason.
Proof. solve_decision. Defined.
#[export] Instance x64_emulator_syscall_action_eq_dec : EqDecision x64_emulator_syscall_action.
Proof. solve_decision. Defined.
#[export] Instance x64_emulator_backend_failure_eq_dec : EqDecision x64_emulator_backend_failure.
Proof. solve_decision. Defined.

(** [struct x64_simd_register { uint8_t bytes[16]; }] *)
Definition x64_simd_register : Type := list Z.

Record x64_emulator_state := {
  general_registers : list Z;                (* uint64_t[16] *)
  simd_registers : list x64_simd_register;   (* x64_simd_register[16] *)
  instruction_pointer : Z;                   (* uintptr_t *)
  flags : Z;                                 (* uint64_t *)
}.

(** The guest memory window.  [bytes = None] is the null pointer; otherwise the
    list is the host buffer the pointer designates. *)
Record x64_emulator_memory := {
  base_address : Z;            (* uintptr_t *)
  bytes : option (list Z);     (* uint8_t* *)
  size : Z;                    (* size_t *)
}.

(** The system-call callback and its [context] pointer.  [W] is the type of the
    object behind that pointer.  The callback sees the guest registers through
    a const reference; it may also write guest memory, because the kernel that
    implements it reaches the same host buffer through the process's address
    space. *)
Record x64_emulator_callbacks (W : Type) := {
  handle_syscall :
    option (W -> x64_emulator_state -> option (list Z) -> x64_emulator_syscall_result * W * option (list Z));
}.
Arguments handle_syscall {W} _.

Record x64_emulator_options := {
  engine : x64_emulator_engine;
  instruction_budget : Z;   (* uint64_t *)
}.

Record x64_emulator_fault := {
  fault_instruction_pointer : Z;
  memory_address : Z;
  fault_record_opcode : Z;
}.

Record x64_emulator_result := {
  completion : x64_emulator_completion;
  guest_stop_reason : x64_emulator_guest_stop_reason;
  backend_failure : x64_emulator_backend_failure;
  retired_instructions : Z;   (* uint64_t *)
  fault_address : Z;
  fault_opcode : Z;
  fault : x64_emulator_fault;
}.

Inductive x64_instruction_outcome :=
  | X64_INSTRUCTION_OUTCOME_CONTINUE_RUNNING
  | X64_INSTRUCTION_OUTCOME_RETIRE_AND_STOP
  | X64_INSTRUCTION_OUTCOME_STOP_RUNNING.

#[export] Instance x64_instruction_outcome_eq_dec : EqDecision x64_instruction_outcome.
Proof. solve_decision. Defined.

Record x64_decoded_instruction := {
  address : Z;
  opcode_address : Z;
  next_address : Z;
  opcode : Z;
  prefix_66 : bool;
  prefix_f2 : bool;
  prefix_f3 : bool;
  rex_w : bool;
  rex_r : bool;
  rex_x : bool;
  rex_b : bool;
}.

(** The members of [class x64_execution_context], with what they refer to. *)
Record x64_execution_context (W : Type) := {
  m_state : x64_emulator_state;
  m_memory : x64_emulator_memory;
  m_callbacks : x64_emulator_callbacks W;
  m_options : x64_emulator_options;
  m_result : x64_emulator_result;
  m_world : W;   (* the object behind [m_callbacks.context] *)
}.
Arguments m_state {W} _.
Arguments m_memory {W} _.
Arguments m_callbacks {W} _.
Arguments m_options {W} _.
Arguments m_result {W} _.
Arguments m_world {W} _.

(** The effects of the emulator: stateful code over an execution context. *)
Abbreviation X W := (M (x64_execution_context W)).

Section updates.
Context {W : Type}.
Implicit Types c : x64_execution_context W.

Definition with_state c (s : x64_emulator_state) : x64_execution_context W :=
  {| m_state := s; m_memory := m_memory c; m_callbacks := m_callbacks c; m_options := m_options c;
     m_result := m_result c; m_world := m_world c |}.

Definition with_result c (r : x64_emulator_result) : x64_execution_context W :=
  {| m_state := m_state c; m_memory := m_memory c; m_callbacks := m_callbacks c; m_options := m_options c;
     m_result := r; m_world := m_world c |}.

Definition with_world c (w : W) : x64_execution_context W :=
  {| m_state := m_state c; m_memory := m_memory c; m_callbacks := m_callbacks c; m_options := m_options c;
     m_result := m_result c; m_world := w |}.

(** Writing through [m_memory.bytes]: base address and size stay. *)
Definition with_bytes c (b : option (list Z)) : x64_execution_context W :=
  {| m_state := m_state c;
     m_memory := {| base_address := base_address (m_memory c); bytes := b; size := size (m_memory c) |};
     m_callbacks := m_callbacks c; m_options := m_options c; m_result := m_result c; m_world := m_world c |}.
End updates.

Definition set_general_registers (s : x64_emulator_state) (l : list Z) : x64_emulator_state :=
  {| general_registers := l; simd_registers := simd_registers s;
     instruction_pointer := instruction_pointer s; flags := flags s |}.

Definition set_simd_registers (s : x64_emulator_state) (l : list x64_simd_register) : x64_emulator_state :=
  {| general_registers := general_registers s; simd_registers := l;
     instruction_pointer := instruction_pointer s; flags := flags s |}.

Definition set_ip (s : x64_emulator_state) (ip : Z) : x64_emulator_state :=
  {| general_registers := general_registers s; simd_registers := simd_registers s;
     instruction_pointer := ip; flags := flags s |}.

Definition set_flags (s : x64_emulator_state) (f : Z) : x64_emulator_state :=
  {| general_registers := general_registers s; simd_registers := simd_registers s;
     instruction_pointer := instruction_pointer s; flags := f |}.

Definition set_retired (r : x64_emulator_result) (n : Z) : x64_emulator_result :=
  {| completion := completion r; guest_stop_reason := guest_stop_reason r; backend_failure := backend_failure r;
     retired_instructions := n; fault_address := fault_address r; fault_opcode := fault_opcode r;
     fault := fault r |}.
