(* ===== verification/ExecutionContext.v ===== *)
(** [emulator/x64/x64_execution_context.cpp]: the registers, flags and fault
    record of the guest, and every access to guest memory. *)
From S2P Require Import Prelude EmulatorTypes.

Definition RFLAGS_CARRY : Z := bit 0.
Definition RFLAGS_RESERVED : Z := bit 1.
Definition RFLAGS_ZERO : Z := bit 6.
Definition RFLAGS_SIGN : Z := bit 7.
Definition RFLAGS_OVERFLOW : Z := bit 11.

(** [RFLAGS_CARRY | RFLAGS_ZERO | RFLAGS_SIGN | RFLAGS_OVERFLOW] *)
Definition RFLAGS_ARITHMETIC : Z :=
  Z.lor (Z.lor (Z.lor RFLAGS_CARRY RFLAGS_ZERO) RFLAGS_SIGN) RFLAGS_OVERFLOW.

(** [if (condition) flags |= mask;] *)
Definition or_if (condition : bool) (mask flags : Z) : Z := if condition then Z.lor flags mask else flags.

Section x64_execution_context.
Context {W : Type}.
Implicit Types c : x64_execution_context W.

Definition modify_state (f : x64_emulator_state -> x64_emulator_state) : X W unit :=
  modify (fun c => with_state c (f (m_state c))).

Definition modify_result (f : x64_emulator_result -> x64_emulator_result) : X W unit :=
  modify (fun c => with_result c (f (m_result c))).

Definition set_instruction_pointer (ip : Z) : X W unit := modify_state (fun s => set_ip s ip).

Definition initialize_result : X W unit :=
  modify_state (fun s => set_flags s (Z.lor (flags s) RFLAGS_RESERVED)) ;;
  modify (fun c => with_result c
    {| completion := X64_EMULATOR_COMPLETION_INSTRUCTION_LIMIT_REACHED;
       guest_stop_reason := X64_EMULATOR_GUEST_STOP_REASON_NONE;
       backend_failure := X64_EMULATOR_BACKEND_FAILURE_INSTRUCTION_LIMIT_REACHED;
       retired_instructions := 0;
       fault_address := instruction_pointer (m_state c);
       fault_opcode := 0;
       fault := {| fault_instruction_pointer := instruction_pointer (m_state c);
                   memory_address := 0; fault_record_opcode := 0 |} |}).

Definition is_valid_invocation c : bool :=
  match handle_syscall (m_callbacks c), bytes (m_memory c) with
  | Some _, Some _ => negb (instruction_budget (m_options c) =? 0)
  | _, _ => false
  end.

(** ** The result record *)

Definition set_fault (i : x64_decoded_instruction) : X W unit :=
  modify_result (fun r =>
    {| completion := completion r; guest_stop_reason := guest_stop_reason r;
       backend_failure := backend_failure r; retired_instructions := retired_instructions r;
       fault_address := address i; fault_opcode := opcode i;
       fault := {| fault_instruction_pointer := address i; memory_address := 0;
                   fault_record_opcode := opcode i |} |}).

Definition set_fault_opcode (op : Z) : X W unit :=
  modify_result (fun r =>
    {| completion := completion r; guest_stop_reason := guest_stop_reason r;
       backend_failure := backend_failure r; retired_instructions := retired_instructions r;
       fault_address := fault_address r; fault_opcode := op;
       fault := {| fault_instruction_pointer := fault_instruction_pointer (fault r);
                   memory_address := memory_address (fault r); fault_record_opcode := op |} |}).

Definition set_invalid_memory_access (addr op : Z) : X W unit :=
  modify_result (fun r =>
    {| completion := X64_EMULATOR_COMPLETION_INVALID_MEMORY_ACCESS;
       guest_stop_reason := X64_EMULATOR_GUEST_STOP_REASON_INVALID_MEMORY_ACCESS;
       backend_failure := X64_EMULATOR_BACKEND_FAILURE_NONE;
       retired_instructions := retired_instructions r;
       fault_address := addr; fault_opcode := op;
       fault := {| fault_instruction_pointer := fault_instruction_pointer (fault r);
                   memory_address := addr; fault_record_opcode := op |} |}).

Definition set_unsupported_instruction (op : Z) : X W unit :=
  modify_result (fun r =>
    {| completion := X64_EMULATOR_COMPLETION_UNSUPPORTED_INSTRUCTION;
       guest_stop_reason := X64_EMULATOR_GUEST_STOP_REASON_UNSUPPORTED_INSTRUCTION;
       backend_failure := X64_EMULATOR_BACKEND_FAILURE_NONE;
       retired_instructions := retired_instructions r;
       fault_address := fault_address r; fault_opcode := op;
       fault := {| fault_instruction_pointer := fault_instruction_pointer (fault r);
                   memory_address := 0; fault_record_opcode := op |} |}).

Definition set_status (cmp : x64_emulator_completion) (why : x64_emulator_guest_stop_reason)
    (bf : x64_emulator_backend_failure) (r : x64_emulator_result) : x64_emulator_result :=
  {| completion := cmp; guest_stop_reason := why; backend_failure := bf;
     retired_instructions := retired_instructions r; fault_address := fault_address r;
     fault_opcode := fault_opcode r; fault := fault r |}.

Definition set_thread_exited : X W unit :=
  modify_result (set_status X64_EMULATOR_COMPLETION_THREAD_EXITED
    X64_EMULATOR_GUEST_STOP_REASON_THREAD_EXITED X64_EMULATOR_BACKEND_FAILURE_NONE).

Definition set_yielded : X W unit :=
  modify_result (set_status X64_EMULATOR_COMPLETION_YIELDED
    X64_EMULATOR_GUEST_STOP_REASON_YIELDED X64_EMULATOR_BACKEND_FAILURE_NONE).

Definition set_backend_failure (failure : x64_emulator_backend_failure) : X W unit :=
  modify_result (fun r =>
    let cmp := match failure with
      | X64_EMULATOR_BACKEND_FAILURE_INSTRUCTION_LIMIT_REACHED =>
          X64_EMULATOR_COMPLETION_INSTRUCTION_LIMIT_REACHED
      | X64_EMULATOR_BACKEND_FAILURE_INVALID_ARGUMENT => X64_EMULATOR_COMPLETION_INVALID_ARGUMENT
      | X64_EMULATOR_BACKEND_FAILURE_UNSUPPORTED_ENGINE => X64_EMULATOR_COMPLETION_UNSUPPORTED_ENGINE
      | X64_EMULATOR_BACKEND_FAILURE_NONE => completion r
      end in
    set_status cmp X64_EMULATOR_GUEST_STOP_REASON_NONE failure r).

(** [context.get_result().completion = X64_EMULATOR_COMPLETION_INVALID_MEMORY_ACCESS;] *)
Definition set_completion_invalid_memory_access : X W unit :=
  modify_result (fun r => set_status X64_EMULATOR_COMPLETION_INVALID_MEMORY_ACCESS
                            (guest_stop_reason r) (backend_failure r) r).

(** The two statements that end a handler whose memory access failed: the
    assignment above and [return X64_INSTRUCTION_OUTCOME_STOP_RUNNING;]. *)
Definition stop_invalid_memory_access : X W x64_instruction_outcome :=
  set_completion_invalid_memory_access ;;
  mret X64_INSTRUCTION_OUTCOME_STOP_RUNNING.

(** [context.set_unsupported_instruction(op); return X64_INSTRUCTION_OUTCOME_STOP_RUNNING;] *)
Definition stop_unsupported (op : Z) : X W x64_instruction_outcome :=
  set_unsupported_instruction op ;;
  mret X64_INSTRUCTION_OUTCOME_STOP_RUNNING.

(** [context.get_state().instruction_pointer = ip; return X64_INSTRUCTION_OUTCOME_CONTINUE_RUNNING;] *)
Definition continue_at (ip : Z) : X W x64_instruction_outcome :=
  set_instruction_pointer ip ;;
  mret X64_INSTRUCTION_OUTCOME_CONTINUE_RUNNING.

(** ** Registers *)

Definition get_register64 (index : Z) : X W Z :=
  c ← get; index_get (general_registers (m_state c)) index.

(** Assignment through the reference [get_register64] returns. *)
Definition set_register64 (index value : Z) : X W unit :=
  get_register64 index ;;
  modify_state (fun s => set_general_registers s (<[Z.to_nat index := value]> (general_registers s))).

Definition get_register32 (index : Z) : X W Z :=
  r ← get_register64 index; mret (u32 r).

Definition get_register8_low (index : Z) : X W Z :=
  r ← get_register64 index; mret (u8 (Z.land r 0xFF)).

Definition set_register8_low (index value : Z) : X W unit :=
  r ← get_register64 index; set_register64 index (Z.lor (Z.land r (not64 0xFF)) value).

Definition set_register32 (index value : Z) : X W unit := set_register64 index value.

Definition get_simd_register (index : Z) : X W x64_simd_register :=
  c ← get; index_get (simd_registers (m_state c)) index.

Definition set_simd_register (index : Z) (value : x64_simd_register) : X W unit :=
  get_simd_register index ;;
  modify_state (fun s => set_simd_registers s (<[Z.to_nat index := value]> (simd_registers s))).

(** ** Guest memory *)

(** [*out_pointer = m_memory.bytes + guest_offset]: the pointer is returned
    as its offset into the host buffer. *)
Definition translate_guest_pointer (guest_address length : Z) : X W (option Z) :=
  c ← get;
  match bytes (m_memory c) with
  | None => mret None
  | Some _ =>
      if guest_address <? base_address (m_memory c) then
        set_invalid_memory_access guest_address (fault_record_opcode (fault (m_result c))) ;; mret None
      else
        let guest_offset := u64 (guest_address - base_address (m_memory c)) in
        if size (m_memory c) <? guest_offset then
          set_invalid_memory_access guest_address (fault_record_opcode (fault (m_result c))) ;; mret None
        else if u64 (size (m_memory c) - guest_offset) <? length then
          set_invalid_memory_access guest_address (fault_record_opcode (fault (m_result c))) ;; mret None
        else mret (Some guest_offset)
  end.

(** [memcpy(destination, m_memory.bytes + offset, length)] *)
Definition host_load (offset : Z) (length : nat) : X W (list Z) :=
  c ← get;
  match bytes (m_memory c) with
  | None => undefined null_dereference
  | Some b =>
      if (0 <=? offset) && (offset + Z.of_nat length <=? Z.of_nat (List.length b))
      then mret (slice (Z.to_nat offset) length b)
      else undefined out_of_bounds
  end.

(** [memcpy(m_memory.bytes + offset, source, length)] *)
Definition host_store (offset : Z) (source : list Z) : X W unit :=
  c ← get;
  match bytes (m_memory c) with
  | None => undefined null_dereference
  | Some b =>
      if (0 <=? offset) && (offset + Z.of_nat (List.length source) <=? Z.of_nat (List.length b))
      then modify (fun c => with_bytes c (Some (splice (Z.to_nat offset) source b)))
      else undefined out_of_bounds
  end.

(** A read of [length] bytes, as each [read_*] performs it. *)
Definition read_bytes (guest_address : Z) (length : nat) : X W (option (list Z)) :=
  source ← translate_guest_pointer guest_address (Z.of_nat length);
  match source with
  | None => mret None
  | Some offset => b ← host_load offset length; mret (Some b)
  end.

Definition write_bytes (guest_address : Z) (value : list Z) : X W bool :=
  destination ← translate_guest_pointer guest_address (Z.of_nat (length value));
  match destination with
  | None => mret false
  | Some offset => host_store offset value ;; mret true
  end.

Definition read_u8 (guest_address : Z) : X W (option Z) :=
  b ← read_bytes guest_address 1; mret (le_decode <$> b).

Definition read_i8 (guest_address : Z) : X W (option Z) :=
  byte_value ← read_u8 guest_address; mret (s8 <$> byte_value).

Definition read_u32 (guest_address : Z) : X W (option Z) :=
  b ← read_bytes guest_address 4; mret (le_decode <$> b).

Definition read_i32 (guest_address : Z) : X W (option Z) :=
  word_value ← read_u32 guest_address; mret (s32 <$> word_value).

Definition read_u64 (guest_address : Z) : X W (option Z) :=
  b ← read_bytes guest_address 8; mret (le_decode <$> b).

Definition read_u128 (guest_address : Z) : X W (option x64_simd_register) :=
  read_bytes guest_address 16.

Definition write_u32 (guest_address value : Z) : X W bool :=
  write_bytes guest_address (le_encode 4 value).

Definition write_u64 (guest_address value : Z) : X W bool :=
  write_bytes guest_address (le_encode 8 value).

Definition write_u8 (guest_address value : Z) : X W bool :=
  write_bytes guest_address (le_encode 1 value).

Definition write_u128 (guest_address : Z) (value : x64_simd_register) : X W bool :=
  write_bytes guest_address value.

(** ** Flags *)

Definition logic_flags (old value : Z) (is_64_bit : bool) : Z :=
  let sign_mask := if is_64_bit then bit 63 else bit 31 in
  let masked_value := if is_64_bit then value else u32 value in
  let f := Z.lor (Z.land old (not64 RFLAGS_ARITHMETIC)) RFLAGS_RESERVED in
  let f := or_if (masked_value =? 0) RFLAGS_ZERO f in
  or_if (negb (Z.land masked_value sign_mask =? 0)) RFLAGS_SIGN f.

Definition set_logic_flags (value : Z) (is_64_bit : bool) : X W unit :=
  modify_state (fun s => set_flags s (logic_flags (flags s) value is_64_bit)).

Definition compare_flags (old lhs rhs result : Z) (is_64_bit : bool) : Z :=
  let sign_mask := if is_64_bit then bit 63 else bit 31 in
  let width_mask := if is_64_bit then UINT64_MAX else UINT32_MAX in
  let masked_lhs := Z.land lhs width_mask in
  let masked_rhs := Z.land rhs width_mask in
  let masked_result := Z.land result width_mask in
  let f := Z.lor (Z.land old (not64 RFLAGS_ARITHMETIC)) RFLAGS_RESERVED in
  let f := or_if (masked_result =? 0) RFLAGS_ZERO f in
  let f := or_if (negb (Z.land masked_result sign_mask =? 0)) RFLAGS_SIGN f in
  let f := or_if (masked_lhs <? masked_rhs) RFLAGS_CARRY f in
  let lhs_sign := negb (Z.land masked_lhs sign_mask =? 0) in
  let rhs_sign := negb (Z.land masked_rhs sign_mask =? 0) in
  let result_sign := negb (Z.land masked_result sign_mask =? 0) in
  or_if (negb (eqb lhs_sign rhs_sign) && negb (eqb lhs_sign result_sign)) RFLAGS_OVERFLOW f.

Definition set_compare_flags (lhs rhs result : Z) (is_64_bit : bool) : X W unit :=
  modify_state (fun s => set_flags s (compare_flags (flags s) lhs rhs result is_64_bit)).

Definition add_flags (old lhs rhs result : Z) (is_64_bit : bool) : Z :=
  let sign_mask := if is_64_bit then bit 63 else bit 31 in
  let width_mask := if is_64_bit then UINT64_MAX else UINT32_MAX in
  let masked_lhs := Z.land lhs width_mask in
  let masked_rhs := Z.land rhs width_mask in
  let masked_result := Z.land result width_mask in
  let f := Z.lor (Z.land old (not64 RFLAGS_ARITHMETIC)) RFLAGS_RESERVED in
  let f := or_if (masked_result =? 0) RFLAGS_ZERO f in
  let f := or_if (negb (Z.land masked_result sign_mask =? 0)) RFLAGS_SIGN f in
  let f := or_if (masked_result <? masked_lhs) RFLAGS_CARRY f in
  let lhs_sign := negb (Z.land masked_lhs sign_mask =? 0) in
  let rhs_sign := negb (Z.land masked_rhs sign_mask =? 0) in
  let result_sign := negb (Z.land masked_result sign_mask =? 0) in
  or_if (eqb lhs_sign rhs_sign && negb (eqb lhs_sign result_sign)) RFLAGS_OVERFLOW f.

Definition set_add_flags (lhs rhs result : Z) (is_64_bit : bool) : X W unit :=
  modify_state (fun s => set_flags s (add_flags (flags s) lhs rhs result is_64_bit)).

(** ** The guest stack *)

Definition push_u64 (value : Z) : X W bool :=
  stack_pointer ← get_register64 (register_index X64_GENERAL_REGISTER_RSP);
  c ← get;
  if stack_pointer <? u64 (base_address (m_memory c) + 8) then
    set_invalid_memory_access stack_pointer (fault_record_opcode (fault (m_result c))) ;;
    mret false
  else
    set_register64 (register_index X64_GENERAL_REGISTER_RSP) (u64 (stack_pointer - 8)) ;;
    write_u64 (u64 (stack_pointer - 8)) value.

Definition pop_u64 : X W (option Z) :=
  stack_pointer ← get_register64 (register_index X64_GENERAL_REGISTER_RSP);
  value ← read_u64 stack_pointer;
  match value with
  | None => mret None
  | Some v =>
      set_register64 (register_index X64_GENERAL_REGISTER_RSP) (u64 (stack_pointer + 8)) ;;
      mret (Some v)
  end.
End x64_execution_context.

(** * Invariants

    What C++'s types guarantee of the guest state, what a valid invocation
    guarantees of the context, and the three conditions a run goes through. *)

Definition simd_register_ok (r : x64_simd_register) : Prop := length r = 16%nat /\ Forall u8_ok r.

Record state_wf (s : x64_emulator_state) : Prop := {
  wf_general_length : length (general_registers s) = 16%nat;
  wf_general : Forall u64_ok (general_registers s);
  wf_simd_length : length (simd_registers s) = 16%nat;
  wf_simd : Forall simd_register_ok (simd_registers s);
  wf_ip : u64_ok (instruction_pointer s);
  wf_flags : u64_ok (flags s);
}.

(** The host buffer has the declared size and holds bytes. *)
Definition buffer_wf (sz : Z) (b : option (list Z)) : Prop :=
  exists l, b = Some l /\ Z.of_nat (length l) = sz /\ Forall u8_ok l.

Record memory_wf (m : x64_emulator_memory) : Prop := {
  wf_base : u64_ok (base_address m);
  wf_size : u64_ok (size m);
  wf_buffer : buffer_wf (size m) (bytes m);
}.

(** The callback exists, returns an [int32_t] status, and whatever it stores
    in the guest buffer leaves it a buffer of bytes of the same size. *)
Definition callbacks_wf {W} (cb : x64_emulator_callbacks W) (sz : Z) : Prop :=
  exists handler, handle_syscall cb = Some handler /\
    forall w s b, state_wf s -> buffer_wf sz b ->
      s32_ok (status (handler w s b).1.1) /\ buffer_wf sz (handler w s b).2.

Record context_wf {W} (c : x64_execution_context W) : Prop := {
  wf_state : state_wf (m_state c);
  wf_memory : memory_wf (m_memory c);
  wf_callbacks : callbacks_wf (m_callbacks c) (size (m_memory c));
  wf_budget : u64_ok (instruction_budget (m_options c));
}.

(** What a run does not change of the arguments it was given. *)
Record same_arguments {W} (c c' : x64_execution_context W) : Prop := {
  run_base : base_address (m_memory c') = base_address (m_memory c);
  run_size : size (m_memory c') = size (m_memory c);
  run_callbacks : m_callbacks c' = m_callbacks c;
  run_options : m_options c' = m_options c;
}.

#[export] Instance same_arguments_preorder {W} : PreOrder (@same_arguments W).
Proof. split; [intros c; by constructor|]. intros ??? [] []. constructor; congruence. Qed.

(** What no instruction but SYSCALL changes. *)
Record same_env {W} (c c' : x64_execution_context W) : Prop := {
  same_base : base_address (m_memory c') = base_address (m_memory c);
  same_size : size (m_memory c') = size (m_memory c);
  same_callbacks : m_callbacks c' = m_callbacks c;
  same_options : m_options c' = m_options c;
  same_retired : retired_instructions (m_result c') = retired_instructions (m_result c);
  same_world : m_world c' = m_world c;
}.

#[export] Instance same_env_preorder {W} : PreOrder (@same_env W).
Proof.
  split; [intros c; by constructor|].
  intros ??? [] []. constructor; congruence.
Qed.

Lemma same_env_arguments {W} (c c' : x64_execution_context W) : same_env c c' -> same_arguments c c'.
Proof. intros []. by constructor. Qed.

(** A system call of a well-formed guest takes the world [w] to [w'] and asks
    for [a]. *)
Definition world_step {W} (cb : x64_emulator_callbacks W) (sz : Z) (a : x64_emulator_syscall_action) (w w' : W) : Prop :=
  exists handler s b, handle_syscall cb = Some handler /\ state_wf s /\ buffer_wf sz b /\
    action (handler w s b).1.1 = a /\ (handler w s b).1.2 = w'.

(** The completion, stop reason and failure of a context that has not stopped
    ([initialize_result] sets them), and of one whose guest stopped. *)
Definition running_status (r : x64_emulator_result) : Prop :=
  completion r = X64_EMULATOR_COMPLETION_INSTRUCTION_LIMIT_REACHED /\
  guest_stop_reason r = X64_EMULATOR_GUEST_STOP_REASON_NONE /\
  backend_failure r = X64_EMULATOR_BACKEND_FAILURE_INSTRUCTION_LIMIT_REACHED.

Definition completion_of_reason (why : x64_emulator_guest_stop_reason) : x64_emulator_completion :=
  match why with
  | X64_EMULATOR_GUEST_STOP_REASON_NONE => X64_EMULATOR_COMPLETION_INSTRUCTION_LIMIT_REACHED
  | X64_EMULATOR_GUEST_STOP_REASON_THREAD_EXITED => X64_EMULATOR_COMPLETION_THREAD_EXITED
  | X64_EMULATOR_GUEST_STOP_REASON_YIELDED => X64_EMULATOR_COMPLETION_YIELDED
  | X64_EMULATOR_GUEST_STOP_REASON_INVALID_MEMORY_ACCESS => X64_EMULATOR_COMPLETION_INVALID_MEMORY_ACCESS
  | X64_EMULATOR_GUEST_STOP_REASON_UNSUPPORTED_INSTRUCTION => X64_EMULATOR_COMPLETION_UNSUPPORTED_INSTRUCTION
  end.

Definition stopped_because (r : x64_emulator_result) (why : x64_emulator_guest_stop_reason) : Prop :=
  guest_stop_reason r = why /\ completion r = completion_of_reason why /\
  backend_failure r = X64_EMULATOR_BACKEND_FAILURE_NONE.

Section conditions.
Context {W : Type}.
Implicit Types c : x64_execution_context W.

Definition env_ok (c0 c : x64_execution_context W) : Prop := context_wf c /\ same_env c0 c.
Definition live (c0 c : x64_execution_context W) : Prop := env_ok c0 c /\ running_status (m_result c).
Definition faulted (c0 c : x64_execution_context W) : Prop :=
  env_ok c0 c /\ stopped_because (m_result c) X64_EMULATOR_GUEST_STOP_REASON_INVALID_MEMORY_ACCESS.

Definition guest_fault (r : x64_emulator_result) : Prop :=
  stopped_because r X64_EMULATOR_GUEST_STOP_REASON_INVALID_MEMORY_ACCESS \/
  stopped_because r X64_EMULATOR_GUEST_STOP_REASON_UNSUPPORTED_INSTRUCTION.

Definition guest_left (r : x64_emulator_result) : Prop :=
  stopped_because r X64_EMULATOR_GUEST_STOP_REASON_THREAD_EXITED \/
  stopped_because r X64_EMULATOR_GUEST_STOP_REASON_YIELDED.

(** The guest's registers are set for a system call and the callback has
    returned. *)
Record called (c0 : x64_execution_context W) (a : x64_emulator_syscall_action) (c : x64_execution_context W) : Prop := {
  called_arguments : same_arguments c0 c;
  called_retired : retired_instructions (m_result c) = retired_instructions (m_result c0);
  called_world : world_step (m_callbacks c0) (size (m_memory c0)) a (m_world c0) (m_world c);
}.

(** How a guest stops when its system call asks for it. *)
Definition stop_reason_of (a : x64_emulator_syscall_action) : x64_emulator_guest_stop_reason :=
  match a with
  | X64_EMULATOR_SYSCALL_ACTION_CONTINUE => X64_EMULATOR_GUEST_STOP_REASON_NONE
  | X64_EMULATOR_SYSCALL_ACTION_EXIT_THREAD => X64_EMULATOR_GUEST_STOP_REASON_THREAD_EXITED
  | X64_EMULATOR_SYSCALL_ACTION_YIELD => X64_EMULATOR_GUEST_STOP_REASON_YIELDED
  end.

(** What every instruction handler guarantees of its outcome. *)
Definition handler_post (c0 : x64_execution_context W) (o : x64_instruction_outcome) c : Prop :=
  match o with
  | X64_INSTRUCTION_OUTCOME_CONTINUE_RUNNING =>
      live c0 c \/ exists c1, called c0 X64_EMULATOR_SYSCALL_ACTION_CONTINUE c1 /\ live c1 c
  | X64_INSTRUCTION_OUTCOME_RETIRE_AND_STOP =>
      exists c1 a, a <> X64_EMULATOR_SYSCALL_ACTION_CONTINUE /\ called c0 a c1 /\ env_ok c1 c /\
        stopped_because (m_result c) (stop_reason_of a)
  | X64_INSTRUCTION_OUTCOME_STOP_RUNNING => env_ok c0 c /\ guest_fault (m_result c)
  end.

Lemma live_env c0 c : live c0 c -> env_ok c0 c.
Proof. by intros []. Qed.

Lemma faulted_env c0 c : faulted c0 c -> env_ok c0 c.
Proof. by intros []. Qed.

Lemma live_self c : context_wf c -> running_status (m_result c) -> live c c.
Proof. intros. split; [split|]; [done|reflexivity|done]. Qed.

Lemma env_ok_with_state c0 c s : env_ok c0 c -> state_wf s -> env_ok c0 (with_state c s).
Proof. intros [[] []] ?. split; constructor; done. Qed.

Lemma live_with_state c0 c s : live c0 c -> state_wf s -> live c0 (with_state c s).
Proof. intros [? ?] ?. split; [by apply env_ok_with_state|done]. Qed.

Lemma env_ok_with_result c0 c r :
  env_ok c0 c -> retired_instructions r = retired_instructions (m_result c) -> env_ok c0 (with_result c r).
Proof. intros [[] []] ?. split; constructor; simpl; congruence. Qed.

Lemma live_with_result c0 c r :
  live c0 c -> retired_instructions r = retired_instructions (m_result c) -> running_status r ->
  live c0 (with_result c r).
Proof. intros [? ?] ??. split; [by apply env_ok_with_result|done]. Qed.

Lemma live_with_bytes c0 c b :
  live c0 c -> buffer_wf (size (m_memory c)) b -> live c0 (with_bytes c b).
Proof.
  intros [[[? [] ? ?] []] ?] ?. split; [split; [|by constructor]|done].
  constructor; [done|by constructor|done|done].
Qed.
End conditions.

Lemma state_wf_set_register s i v : state_wf s -> u64_ok v -> state_wf (set_general_registers s (<[i := v]> (general_registers s))).
Proof.
  intros [] ?. constructor; simpl; [by rewrite length_insert|by apply Forall_insert|done..].
Qed.

Lemma state_wf_set_simd s i v :
  state_wf s -> simd_register_ok v -> state_wf (set_simd_registers s (<[i := v]> (simd_registers s))).
Proof.
  intros [] ?. constructor; simpl; [done|done|by rewrite length_insert|by apply Forall_insert|done|done].
Qed.

Lemma state_wf_set_ip s v : state_wf s -> u64_ok v -> state_wf (set_ip s v).
Proof. intros [] ?. by constructor. Qed.

Lemma state_wf_set_flags s v : state_wf s -> u64_ok v -> state_wf (set_flags s v).
Proof. intros [] ?. by constructor. Qed.

Lemma register_lookup s i : state_wf s -> 0 <= i < 16 -> exists v, general_registers s !! Z.to_nat i = Some v /\ u64_ok v.
Proof.
  intros [Hl Hf] Hi. destruct (lookup_lt_is_Some_2 (general_registers s) (Z.to_nat i)) as [v Hv]; [lia|].
  exists v. split; [done|]. by eapply Forall_lookup_1 in Hf.
Qed.

Lemma simd_lookup s i : state_wf s -> 0 <= i < 16 -> exists v, simd_registers s !! Z.to_nat i = Some v /\ simd_register_ok v.
Proof.
  intros [_ _ Hl Hf] Hi. destruct (lookup_lt_is_Some_2 (simd_registers s) (Z.to_nat i)) as [v Hv]; [lia|].
  exists v. split; [done|]. by eapply Forall_lookup_1 in Hf.
Qed.

Lemma register_index_range r : 0 <= register_index r < 16.
Proof. destruct r; simpl; lia. Qed.

Lemma bit_u64 n : 0 <= n < 64 -> u64_ok (bit n).
Proof. intros. unfold bit, u64_ok. rewrite Z.shiftl_1_l. split; [lia|]. apply Z.pow_lt_mono_r; lia. Qed.

Lemma or_if_u64 b m f : u64_ok m -> u64_ok f -> u64_ok (or_if b m f).
Proof. unfold or_if. destruct b; auto with words. Qed.

Lemma base_flags_u64 old : u64_ok old -> u64_ok (Z.lor (Z.land old (not64 RFLAGS_ARITHMETIC)) RFLAGS_RESERVED).
Proof. intros. apply u64_lor; [apply u64_land; [done|]|]; vm_compute; split; congruence. Qed.

#[export] Hint Resolve register_index_range or_if_u64 base_flags_u64 : words.
#[export] Hint Extern 2 (u64_ok RFLAGS_ZERO) => exact (bit_u64 6 ltac:(lia)) : words.
#[export] Hint Extern 2 (u64_ok RFLAGS_SIGN) => exact (bit_u64 7 ltac:(lia)) : words.
#[export] Hint Extern 2 (u64_ok RFLAGS_CARRY) => exact (bit_u64 0 ltac:(lia)) : words.
#[export] Hint Extern 2 (u64_ok RFLAGS_OVERFLOW) => exact (bit_u64 11 ltac:(lia)) : words.
#[export] Hint Extern 2 (u64_ok RFLAGS_RESERVED) => exact (bit_u64 1 ltac:(lia)) : words.

Lemma logic_flags_u64 old v b : u64_ok old -> u64_ok (logic_flags old v b).
Proof. intros. unfold logic_flags. cbv zeta. auto with words. Qed.

Lemma compare_flags_u64 old l r v b : u64_ok old -> u64_ok (compare_flags old l r v b).
Proof. intros. unfold compare_flags. cbv zeta. auto 7 with words. Qed.

Lemma add_flags_u64 old l r v b : u64_ok old -> u64_ok (add_flags old l r v b).
Proof. intros. unfold add_flags. cbv zeta. auto 7 with words. Qed.

#[export] Hint Resolve logic_flags_u64 compare_flags_u64 add_flags_u64 : words.

(** * Proof rules of the context's operations

    Each rule is in continuation form: the operation establishes [Q] if [Q]
    holds of every result the operation can have. *)

Section rules.
Context {W : Type}.
Implicit Types c : x64_execution_context W.

Lemma wp_get (Q : x64_execution_context W -> x64_execution_context W -> Prop) c : Q c c -> wp get Q c.
Proof. done. Qed.

Lemma wp_get_register64 c0 c i Q :
  live c0 c -> 0 <= i < 16 -> (forall v, u64_ok v -> Q v c) -> wp (get_register64 i) Q c.
Proof.
  intros [[[Hs] ?] ?] Hi HQ. destruct (register_lookup _ i Hs Hi) as (v & Hv & Hok).
  unfold get_register64. apply wp_bind, wp_get, (wp_index_get _ _ _ _ v); auto.
Qed.

Lemma wp_set_register64 c0 c i v Q :
  live c0 c -> 0 <= i < 16 -> u64_ok v -> (forall c', live c0 c' -> Q tt c') -> wp (set_register64 i v) Q c.
Proof.
  intros Hl Hi Hv HQ. unfold set_register64. apply wp_bind. eapply wp_get_register64; [done..|].
  intros _ _. apply wp_modify, HQ. pose proof Hl as [[[Hs] ?] ?].
  apply live_with_state; [done|]. by apply state_wf_set_register.
Qed.

Lemma wp_get_register32 c0 c i Q :
  live c0 c -> 0 <= i < 16 -> (forall v, u32_ok v -> Q v c) -> wp (get_register32 i) Q c.
Proof.
  intros. unfold get_register32. apply wp_bind. eapply wp_get_register64; [done..|].
  intros. apply wp_ret. auto with words.
Qed.

Lemma wp_set_register32 c0 c i v Q :
  live c0 c -> 0 <= i < 16 -> u32_ok v -> (forall c', live c0 c' -> Q tt c') -> wp (set_register32 i v) Q c.
Proof. intros. unfold set_register32. eapply wp_set_register64; eauto with words. Qed.

Lemma wp_get_register8_low c0 c i Q :
  live c0 c -> 0 <= i < 16 -> (forall v, u8_ok v -> Q v c) -> wp (get_register8_low i) Q c.
Proof.
  intros. unfold get_register8_low. apply wp_bind. eapply wp_get_register64; [done..|].
  intros. apply wp_ret. auto with words.
Qed.

Lemma wp_set_register8_low c0 c i v Q :
  live c0 c -> 0 <= i < 16 -> u8_ok v -> (forall c', live c0 c' -> Q tt c') ->
  wp (set_register8_low i v) Q c.
Proof.
  intros. unfold set_register8_low. apply wp_bind. eapply wp_get_register64; [done..|].
  intros. eapply wp_set_register64; [done..| |done]. apply u64_lor; [|auto with words].
  apply u64_land; [done|]. vm_compute. split; congruence.
Qed.

Lemma wp_get_simd_register c0 c i Q :
  live c0 c -> 0 <= i < 16 -> (forall v, simd_register_ok v -> Q v c) -> wp (get_simd_register i) Q c.
Proof.
  intros [[[Hs] ?] ?] Hi HQ. destruct (simd_lookup _ i Hs Hi) as (v & Hv & Hok).
  unfold get_simd_register. apply wp_bind, wp_get, (wp_index_get _ _ _ _ v); auto.
Qed.

Lemma wp_set_simd_register c0 c i v Q :
  live c0 c -> 0 <= i < 16 -> simd_register_ok v -> (forall c', live c0 c' -> Q tt c') ->
  wp (set_simd_register i v) Q c.
Proof.
  intros Hl Hi Hv HQ. unfold set_simd_register. apply wp_bind. eapply wp_get_simd_register; [done..|].
  intros _ _. apply wp_modify, HQ. pose proof Hl as [[[Hs] ?] ?].
  apply live_with_state; [done|]. by apply state_wf_set_simd.
Qed.

Lemma wp_set_flags c0 c (f : Z -> Z) Q :
  live c0 c -> (forall old, u64_ok old -> u64_ok (f old)) -> (forall c', live c0 c' -> Q tt c') ->
  wp (modify_state (fun s => set_flags s (f (flags s)))) Q c.
Proof.
  intros Hl Hf HQ. apply wp_modify, HQ. pose proof Hl as [[[Hs] ?] ?].
  apply live_with_state; [done|]. apply state_wf_set_flags; [done|]. apply Hf, Hs.
Qed.

Lemma wp_set_logic_flags c0 c v b Q :
  live c0 c -> (forall c', live c0 c' -> Q tt c') -> wp (set_logic_flags v b) Q c.
Proof. intros. eapply (wp_set_flags c0 c (fun o => logic_flags o v b)); auto with words. Qed.

Lemma wp_set_compare_flags c0 c l r v b Q :
  live c0 c -> (forall c', live c0 c' -> Q tt c') -> wp (set_compare_flags l r v b) Q c.
Proof. intros. eapply (wp_set_flags c0 c (fun o => compare_flags o l r v b)); auto with words. Qed.

Lemma wp_set_add_flags c0 c l r v b Q :
  live c0 c -> (forall c', live c0 c' -> Q tt c') -> wp (set_add_flags l r v b) Q c.
Proof. intros. eapply (wp_set_flags c0 c (fun o => add_flags o l r v b)); auto with words. Qed.

Lemma wp_set_invalid_memory_access c0 c addr op Q :
  env_ok c0 c -> (forall c', faulted c0 c' -> Q tt c') -> wp (set_invalid_memory_access addr op) Q c.
Proof. intros H HQ. apply wp_modify, HQ. split; [by apply env_ok_with_result|done]. Qed.

(** Translation succeeds exactly inside the window, and then the host access
    of the translated offset is inside the buffer. *)
Lemma wp_translate_guest_pointer c0 c addr len Q :
  live c0 c -> u64_ok addr -> u64_ok len ->
  (base_address (m_memory c) <= addr ->
   addr - base_address (m_memory c) + len <= size (m_memory c) ->
   Q (Some (addr - base_address (m_memory c))) c) ->
  (forall c', faulted c0 c' -> Q None c') ->
  wp (translate_guest_pointer addr len) Q c.
Proof.
  intros Hl Ha Hlen HS HN. pose proof Hl as [[[_ [Hb Hsz (l & Hbuf & Hlb & _)]] _] _].
  unfold translate_guest_pointer. apply wp_bind, wp_get. rewrite Hbuf.
  assert (wp (set_invalid_memory_access addr (fault_record_opcode (fault (m_result c))) ;; mret None) Q c) as Hfail.
  { apply wp_bind. eapply wp_set_invalid_memory_access; [by apply live_env|]. auto using wp_ret. }
  destruct (Z.ltb_spec addr (base_address (m_memory c))); [done|].
  rewrite (u64_id (addr - _)) by words.
  destruct (Z.ltb_spec (size (m_memory c)) (addr - base_address (m_memory c))); [done|].
  rewrite u64_id by words.
  destruct (Z.ltb_spec (size (m_memory c) - (addr - base_address (m_memory c))) len); [done|].
  apply wp_ret, HS; lia.
Qed.

Lemma wp_read_bytes c0 c addr (n : nat) Q :
  live c0 c -> u64_ok addr -> u64_ok (Z.of_nat n) ->
  (forall bs, length bs = n -> Forall u8_ok bs -> Q (Some bs) c) ->
  (forall c', faulted c0 c' -> Q None c') -> wp (read_bytes addr n) Q c.
Proof.
  intros Hl Ha Hn HS HN. unfold read_bytes. apply wp_bind.
  eapply wp_translate_guest_pointer; [done..| |intros; by apply wp_ret, HN].
  intros Hge Hle. pose proof Hl as [[[_ [Hb Hsz (l & Hbuf & Hlb & Hbytes)]] _] _].
  apply wp_bind. unfold host_load. apply wp_bind, wp_get. rewrite Hbuf.
  rewrite (proj2 (andb_true_iff _ _)) by (split; apply Z.leb_le; lia).
  apply wp_ret, wp_ret, HS; [|by apply Forall_slice]. apply length_slice. lia.
Qed.

Lemma wp_write_bytes c0 c addr v Q :
  live c0 c -> u64_ok addr -> u64_ok (Z.of_nat (length v)) -> Forall u8_ok v ->
  (forall c', live c0 c' -> Q true c') ->
  (forall c', faulted c0 c' -> Q false c') -> wp (write_bytes addr v) Q c.
Proof.
  intros Hl Ha Hn Hv HS HN. unfold write_bytes. apply wp_bind.
  eapply wp_translate_guest_pointer; [done..| |intros; by apply wp_ret, HN].
  intros Hge Hle. pose proof Hl as [[[_ [Hb Hsz (l & Hbuf & Hlb & Hbytes)]] _] _].
  apply wp_bind. unfold host_store. apply wp_bind, wp_get. rewrite Hbuf.
  rewrite (proj2 (andb_true_iff _ _)) by (split; apply Z.leb_le; lia).
  apply wp_modify, wp_ret, HS, live_with_bytes; [done|].
  eexists. split; [done|]. split; [|by apply Forall_splice]. rewrite length_splice; lia.
Qed.

Lemma wp_read_u8 c0 c addr Q :
  live c0 c -> u64_ok addr -> (forall v, u8_ok v -> Q (Some v) c) ->
  (forall c', faulted c0 c' -> Q None c') -> wp (read_u8 addr) Q c.
Proof.
  intros Hl Ha HS HN. unfold read_u8. apply wp_bind. eapply wp_read_bytes; [done..| | |].
  - words.
  - intros bs Hlen Hb. apply wp_ret, HS. pose proof (le_decode_range bs Hb). rewrite Hlen in *. done.
  - intros. by apply wp_ret, HN.
Qed.

Lemma wp_read_i8 c0 c addr Q :
  live c0 c -> u64_ok addr -> (forall v, -128 <= v < 128 -> Q (Some v) c) ->
  (forall c', faulted c0 c' -> Q None c') -> wp (read_i8 addr) Q c.
Proof.
  intros Hl Ha HS HN. unfold read_i8. apply wp_bind. eapply wp_read_u8; [done..| |].
  - intros. apply wp_ret, HS, (signed_range 8). lia.
  - intros. by apply wp_ret, HN.
Qed.

Lemma wp_read_u32 c0 c addr Q :
  live c0 c -> u64_ok addr -> (forall v, u32_ok v -> Q (Some v) c) ->
  (forall c', faulted c0 c' -> Q None c') -> wp (read_u32 addr) Q c.
Proof.
  intros Hl Ha HS HN. unfold read_u32. apply wp_bind. eapply wp_read_bytes; [done..| | |].
  - words.
  - intros. apply wp_ret, HS. auto with words.
  - intros. by apply wp_ret, HN.
Qed.

Lemma wp_read_i32 c0 c addr Q :
  live c0 c -> u64_ok addr -> (forall v, s32_ok v -> Q (Some v) c) ->
  (forall c', faulted c0 c' -> Q None c') -> wp (read_i32 addr) Q c.
Proof.
  intros Hl Ha HS HN. unfold read_i32. apply wp_bind. eapply wp_read_u32; [done..| |].
  - intros. apply wp_ret, HS, (signed_range 32). lia.
  - intros. by apply wp_ret, HN.
Qed.

Lemma wp_read_u64 c0 c addr Q :
  live c0 c -> u64_ok addr -> (forall v, u64_ok v -> Q (Some v) c) ->
  (forall c', faulted c0 c' -> Q None c') -> wp (read_u64 addr) Q c.
Proof.
  intros Hl Ha HS HN. unfold read_u64. apply wp_bind. eapply wp_read_bytes; [done..| | |].
  - words.
  - intros. apply wp_ret, HS. auto with words.
  - intros. by apply wp_ret, HN.
Qed.

Lemma wp_read_u128 c0 c addr Q :
  live c0 c -> u64_ok addr -> (forall v, simd_register_ok v -> Q (Some v) c) ->
  (forall c', faulted c0 c' -> Q None c') -> wp (read_u128 addr) Q c.
Proof.
  intros Hl Ha HS HN. eapply wp_read_bytes; [done..| | |done]; [words|]. intros. by apply HS.
Qed.

Lemma wp_write_u32 c0 c addr v Q :
  live c0 c -> u64_ok addr -> (forall c', live c0 c' -> Q true c') ->
  (forall c', faulted c0 c' -> Q false c') -> wp (write_u32 addr v) Q c.
Proof. intros. eapply wp_write_bytes; eauto with words. rewrite length_le_encode. words. Qed.

Lemma wp_write_u64 c0 c addr v Q :
  live c0 c -> u64_ok addr -> (forall c', live c0 c' -> Q true c') ->
  (forall c', faulted c0 c' -> Q false c') -> wp (write_u64 addr v) Q c.
Proof. intros. eapply wp_write_bytes; eauto with words. rewrite length_le_encode. words. Qed.

Lemma wp_write_u128 c0 c addr v Q :
  live c0 c -> u64_ok addr -> simd_register_ok v -> (forall c', live c0 c' -> Q true c') ->
  (forall c', faulted c0 c' -> Q false c') -> wp (write_u128 addr v) Q c.
Proof. intros ?? [Hl ?] ??. eapply wp_write_bytes; eauto with words. Qed.

Lemma wp_push_u64 c0 c v Q :
  live c0 c -> (forall c', live c0 c' -> Q true c') ->
  (forall c', faulted c0 c' -> Q false c') -> wp (push_u64 v) Q c.
Proof.
  intros Hl HS HN. unfold push_u64. apply wp_bind.
  eapply wp_get_register64; [done|auto with words|]. intros sp Hsp. apply wp_bind, wp_get. case_match.
  - apply wp_bind. eapply wp_set_invalid_memory_access; [by apply live_env|]. intros. by apply wp_ret, HN.
  - apply wp_bind. eapply wp_set_register64; [done|auto with words..|].
    intros. eapply wp_write_u64; eauto with words.
Qed.

Lemma wp_pop_u64 c0 c Q :
  live c0 c -> (forall v c', u64_ok v -> live c0 c' -> Q (Some v) c') ->
  (forall c', faulted c0 c' -> Q None c') -> wp pop_u64 Q c.
Proof.
  intros Hl HS HN. unfold pop_u64. apply wp_bind.
  eapply wp_get_register64; [done|auto with words|]. intros sp Hsp. apply wp_bind.
  eapply wp_read_u64; [done..| |intros; by apply wp_ret, HN]. intros v Hv.
  apply wp_bind. eapply wp_set_register64; [done|auto with words..|].
  intros. apply wp_ret. by apply HS.
Qed.

(** ** Ways a handler ends *)

Lemma wp_stop_invalid c0 c Q :
  faulted c0 c -> (forall c', handler_post c0 X64_INSTRUCTION_OUTCOME_STOP_RUNNING c' ->
                              Q X64_INSTRUCTION_OUTCOME_STOP_RUNNING c') ->
  wp stop_invalid_memory_access Q c.
Proof.
  intros [He (? & ? & ?)] HQ. unfold stop_invalid_memory_access. apply wp_bind, wp_modify, wp_ret, HQ.
  split; [by apply env_ok_with_result|]. left. by split_and!.
Qed.

Lemma wp_set_unsupported_instruction c0 c op Q :
  env_ok c0 c -> (forall c', handler_post c0 X64_INSTRUCTION_OUTCOME_STOP_RUNNING c' -> Q tt c') ->
  wp (set_unsupported_instruction op) Q c.
Proof.
  intros He HQ. apply wp_modify, HQ.
  split; [by apply env_ok_with_result|]. right. by split_and!.
Qed.

Lemma wp_stop_unsupported c0 c op Q :
  env_ok c0 c -> (forall c', handler_post c0 X64_INSTRUCTION_OUTCOME_STOP_RUNNING c' ->
                             Q X64_INSTRUCTION_OUTCOME_STOP_RUNNING c') ->
  wp (stop_unsupported op) Q c.
Proof.
  intros He HQ. apply wp_bind. eapply wp_set_unsupported_instruction; [done|].
  intros. by apply wp_ret, HQ.
Qed.

Lemma wp_continue_at c0 c ip Q :
  live c0 c -> u64_ok ip -> (forall c', handler_post c0 X64_INSTRUCTION_OUTCOME_CONTINUE_RUNNING c' ->
                             Q X64_INSTRUCTION_OUTCOME_CONTINUE_RUNNING c') ->
  wp (continue_at ip) Q c.
Proof.
  intros Hl Hip HQ. unfold continue_at. apply wp_bind, wp_modify, wp_ret, HQ. left.
  apply live_with_state; [done|]. apply state_wf_set_ip; [|done]. apply Hl.
Qed.
End rules.

(** Symbolic execution of a handler: [wp_step] applies the rule of the next
    operation and splits on its results; [wp_solve] iterates it and discharges
    the side conditions (register numbers and word ranges). *)
Ltac wp_side := first [eassumption | solve [eauto using live_env, faulted_env with words] | words].

Ltac wp_operation :=
  lazymatch goal with
  | |- wp (get_register64 _) _ _ => eapply wp_get_register64; [wp_side|wp_side|]; intros ? ?
  | |- wp (get_register32 _) _ _ => eapply wp_get_register32; [wp_side|wp_side|]; intros ? ?
  | |- wp (get_register8_low _) _ _ => eapply wp_get_register8_low; [wp_side|wp_side|]; intros ? ?
  | |- wp (get_simd_register _) _ _ => eapply wp_get_simd_register; [wp_side|wp_side|]; intros ? ?
  | |- wp (set_register64 _ _) _ _ => eapply wp_set_register64; [wp_side|wp_side|wp_side|]; intros ? ?
  | |- wp (set_register32 _ _) _ _ => eapply wp_set_register32; [wp_side|wp_side|wp_side|]; intros ? ?
  | |- wp (set_register8_low _ _) _ _ => eapply wp_set_register8_low; [wp_side|wp_side|wp_side|]; intros ? ?
  | |- wp (set_simd_register _ _) _ _ => eapply wp_set_simd_register; [wp_side|wp_side|wp_side|]; intros ? ?
  | |- wp (set_logic_flags _ _) _ _ => eapply wp_set_logic_flags; [wp_side|]; intros ? ?
  | |- wp (set_compare_flags _ _ _ _) _ _ => eapply wp_set_compare_flags; [wp_side|]; intros ? ?
  | |- wp (set_add_flags _ _ _ _) _ _ => eapply wp_set_add_flags; [wp_side|]; intros ? ?
  | |- wp (read_u8 _) _ _ => eapply wp_read_u8; [wp_side|wp_side|intros ? ?|intros ? ?]
  | |- wp (read_i8 _) _ _ => eapply wp_read_i8; [wp_side|wp_side|intros ? ?|intros ? ?]
  | |- wp (read_u32 _) _ _ => eapply wp_read_u32; [wp_side|wp_side|intros ? ?|intros ? ?]
  | |- wp (read_i32 _) _ _ => eapply wp_read_i32; [wp_side|wp_side|intros ? ?|intros ? ?]
  | |- wp (read_u64 _) _ _ => eapply wp_read_u64; [wp_side|wp_side|intros ? ?|intros ? ?]
  | |- wp (read_u128 _) _ _ => eapply wp_read_u128; [wp_side|wp_side|intros ? ?|intros ? ?]
  | |- wp (write_u32 _ _) _ _ => eapply wp_write_u32; [wp_side|wp_side|intros ? ?|intros ? ?]
  | |- wp (write_u64 _ _) _ _ => eapply wp_write_u64; [wp_side|wp_side|intros ? ?|intros ? ?]
  | |- wp (write_u128 _ _) _ _ => eapply wp_write_u128; [wp_side|wp_side|wp_side|intros ? ?|intros ? ?]
  | |- wp (push_u64 _) _ _ => eapply wp_push_u64; [wp_side|intros ? ?|intros ? ?]
  | |- wp pop_u64 _ _ => eapply wp_pop_u64; [wp_side|intros ? ? ? ?|intros ? ?]
  | |- wp stop_invalid_memory_access _ _ => eapply wp_stop_invalid; [wp_side|]; intros ? ?
  | |- wp (set_unsupported_instruction _) _ _ => eapply wp_set_unsupported_instruction; [wp_side|]; intros ? ?
  | |- wp (stop_unsupported _) _ _ => eapply wp_stop_unsupported; [wp_side|]; intros ? ?
  | |- wp (continue_at _) _ _ => eapply wp_continue_at; [wp_side|wp_side|]; intros ? ?
  | |- wp (signed_add64 _ _) _ _ => eapply wp_signed_add64; intros ?
  | |- wp (mret _) _ _ => apply wp_ret
  | |- wp get _ _ => apply wp_get
  end.

(** Rules of the operations of later files are added by redefinition. *)
Ltac wp_component := fail.

Ltac wp_step :=
  cbv beta iota zeta delta [negb fmap option_fmap option_map];
  lazymatch goal with
  | |- wp (_ ≫= _) _ _ => apply wp_bind
  | |- wp (if ?b then _ else _) _ _ => destruct b eqn:?
  | |- wp (match ?p with (_, _) => _ end) _ _ => destruct p
  | |- wp _ _ _ => first [wp_operation | wp_component]
  | |- handler_post _ _ _ => assumption
  end.

Ltac wp_solve := repeat wp_step.
