(* ===== verification/Samples.v ===== *)
(** Concrete contexts: a guest with a 256-byte window at 0x1000, its stack
    pointer inside the window and a callback that counts the calls.  The
    theorems about the emulator are instantiated on them. *)
From S2P Require Import Prelude EmulatorTypes ExecutionContext.

Definition sample_registers : list Z :=
  [1; 2; 3; 4; 0x10F0; 6; 7; 8; 9; 10; 11; 12; 13; 14; 15; 16].

Definition sample_state : x64_emulator_state :=
  {| general_registers := sample_registers; simd_registers := replicate 16 (replicate 16 0);
     instruction_pointer := 0x1000; flags := 0 |}.

(** System call 60 ends the thread, 24 yields, any other continues with status 7. *)
Definition sample_handler (w : Z) (s : x64_emulator_state) (b : option (list Z))
    : x64_emulator_syscall_result * Z * option (list Z) :=
  let number := default 0 (general_registers s !! 0%nat) in
  ({| status := 7;
      action := if number =? 60 then X64_EMULATOR_SYSCALL_ACTION_EXIT_THREAD
                else if number =? 24 then X64_EMULATOR_SYSCALL_ACTION_YIELD
                else X64_EMULATOR_SYSCALL_ACTION_CONTINUE |}, w + 1, b).

Definition sample_result : x64_emulator_result :=
  {| completion := X64_EMULATOR_COMPLETION_INSTRUCTION_LIMIT_REACHED;
     guest_stop_reason := X64_EMULATOR_GUEST_STOP_REASON_NONE;
     backend_failure := X64_EMULATOR_BACKEND_FAILURE_INSTRUCTION_LIMIT_REACHED;
     retired_instructions := 0; fault_address := 0; fault_opcode := 0;
     fault := {| fault_instruction_pointer := 0; memory_address := 0; fault_record_opcode := 0 |} |}.

(** The code at the start of the window, zeros after it. *)
Definition sample_bytes (code : list Z) : list Z := take 256 (code ++ replicate 256 0).

Definition sample_with (s : x64_emulator_state) (code : list Z) : x64_execution_context Z :=
  {| m_state := s;
     m_memory := {| base_address := 0x1000; bytes := Some (sample_bytes code); size := 256 |};
     m_callbacks := {| handle_syscall := Some sample_handler |};
     m_options := {| engine := X64_EMULATOR_ENGINE_INTERPRETER; instruction_budget := 16 |};
     m_result := sample_result;
     m_world := 0 |}.

Definition sample (code : list Z) : x64_execution_context Z := sample_with sample_state code.

Definition is_byte (b : Z) : bool := (0 <=? b) && (b <? 256).

Lemma is_byte_ok l : forallb is_byte l = true -> Forall u8_ok l.
Proof.
  intros H. rewrite forallb_forall in H. apply Forall_forall. intros b Hb.
  apply H in Hb. unfold is_byte in Hb. bool_hyps. unfold u8_ok. lia.
Qed.

Lemma sample_state_wf : state_wf sample_state.
Proof.
  constructor; [done| |done| |vm_compute; split; congruence|vm_compute; split; congruence].
  - repeat constructor; vm_compute; congruence.
  - apply Forall_replicate. split; [done|]. apply Forall_replicate. vm_compute. split; congruence.
Qed.

Lemma sample_memory_wf s code : forallb is_byte code = true -> memory_wf (m_memory (sample_with s code)).
Proof.
  intros Hc. constructor; [vm_compute; split; congruence..|]. eexists. split; [done|]. split.
  - unfold sample_bytes. rewrite length_take, length_app, length_replicate. cbn [size m_memory sample_with]. lia.
  - apply Forall_take, Forall_app. split; [by apply is_byte_ok|].
    apply Forall_replicate. vm_compute. split; congruence.
Qed.

Lemma sample_wf code : forallb is_byte code = true -> context_wf (sample code).
Proof.
  intros Hc. constructor; [exact sample_state_wf|by apply sample_memory_wf| |vm_compute; split; congruence].
  exists sample_handler. split; [done|]. intros w s b Hs Hb. split; [|done]. vm_compute. split; congruence.
Qed.

(** The context a computation that returned ends in. *)
Definition final {S A} (o : outcome S A) (default : S) : S := match o with Returned _ s => s | _ => default end.
