(* ===== verification/GuestMemory.v ===== *)
(** Equations for the context's operations: every access to guest memory, to
    the registers and to the stack, as a function of the window and of the
    register file, on every branch. *)
From S2P Require Import Prelude EmulatorTypes ExecutionContext Samples.

Section window.
Context {W : Type}.
Implicit Types c : x64_execution_context W.

(** The guest's view of its memory: a window of bytes at [base_address]. *)
Definition guest_bytes c : list Z := default [] (bytes (m_memory c)).

Definition in_window c (a n : Z) : bool :=
  (base_address (m_memory c) <=? a) && (a - base_address (m_memory c) + n <=? size (m_memory c)).

Definition window_offset c (a : Z) : nat := Z.to_nat (a - base_address (m_memory c)).

(** Reading and writing [n] bytes, specified directly on the window. *)
Definition guest_read c (a : Z) (n : nat) : option (list Z) :=
  if in_window c a (Z.of_nat n) then Some (slice (window_offset c a) n (guest_bytes c)) else None.

Definition guest_write c (a : Z) (v : list Z) : option (x64_execution_context W) :=
  if in_window c a (Z.of_nat (length v))
  then Some (with_bytes c (Some (splice (window_offset c a) v (guest_bytes c)))) else None.

(** The context after a failed access at [a]. *)
Definition memory_fault c (a : Z) : x64_execution_context W :=
  let op := fault_record_opcode (fault (m_result c)) in
  with_result c
    {| completion := X64_EMULATOR_COMPLETION_INVALID_MEMORY_ACCESS;
       guest_stop_reason := X64_EMULATOR_GUEST_STOP_REASON_INVALID_MEMORY_ACCESS;
       backend_failure := X64_EMULATOR_BACKEND_FAILURE_NONE;
       retired_instructions := retired_instructions (m_result c);
       fault_address := a; fault_opcode := op;
       fault := {| fault_instruction_pointer := fault_instruction_pointer (fault (m_result c));
                   memory_address := a; fault_record_opcode := op |} |}.

Lemma guest_bytes_wf c :
  memory_wf (m_memory c) ->
  bytes (m_memory c) = Some (guest_bytes c) /\ Z.of_nat (length (guest_bytes c)) = size (m_memory c) /\
  Forall u8_ok (guest_bytes c).
Proof. intros [_ _ (l & Hb & ? & ?)]. unfold guest_bytes. rewrite Hb. done. Qed.

Lemma translate_spec c a n :
  memory_wf (m_memory c) -> u64_ok a -> u64_ok n ->
  translate_guest_pointer a n c =
    if in_window c a n then Returned (Some (a - base_address (m_memory c))) c
    else Returned None (memory_fault c a).
Proof.
  intros Hm Ha Hn. pose proof (guest_bytes_wf c Hm) as (Hb & _ & _). destruct Hm as [Hbase Hsize _].
  unfold translate_guest_pointer, in_window, mbind, M_bind, get. cbn. rewrite Hb.
  destruct (Z.ltb_spec a (base_address (m_memory c))), (Z.leb_spec (base_address (m_memory c)) a);
    cbn [andb]; [lia|reflexivity| |lia].
  rewrite (u64_id (a - _)) by words.
  destruct (Z.ltb_spec (size (m_memory c)) (a - base_address (m_memory c))).
  - destruct (Z.leb_spec (a - base_address (m_memory c) + n) (size (m_memory c))); [words|reflexivity].
  - rewrite u64_id by words.
    destruct (Z.ltb_spec (size (m_memory c) - (a - base_address (m_memory c))) n),
      (Z.leb_spec (a - base_address (m_memory c) + n) (size (m_memory c))); (lia || reflexivity).
Qed.

Lemma in_window_host c a n :
  memory_wf (m_memory c) -> 0 <= n -> in_window c a n = true ->
  (0 <=? a - base_address (m_memory c)) && (a - base_address (m_memory c) + n <=? Z.of_nat (length (guest_bytes c))) = true.
Proof.
  intros Hm Hn Hw. pose proof (guest_bytes_wf c Hm) as (_ & Hl & _). unfold in_window in Hw. bool_hyps.
  apply andb_true_iff. split; apply Z.leb_le; lia.
Qed.

Lemma in_window_nat c a n :
  memory_wf (m_memory c) -> in_window c a (Z.of_nat n) = true ->
  (window_offset c a + n <= length (guest_bytes c))%nat.
Proof.
  intros Hm Hw. pose proof (guest_bytes_wf c Hm) as (_ & Hl & _). unfold in_window in Hw. bool_hyps.
  unfold window_offset. lia.
Qed.

Lemma read_bytes_spec c a n :
  memory_wf (m_memory c) -> u64_ok a -> u64_ok (Z.of_nat n) ->
  read_bytes a n c =
    match guest_read c a n with
    | Some bs => Returned (Some bs) c
    | None => Returned None (memory_fault c a)
    end.
Proof.
  intros Hm Ha Hn. unfold read_bytes, guest_read.
  pose proof (translate_spec c a _ Hm Ha Hn) as Ht. destruct (in_window c a (Z.of_nat n)) eqn:Ew.
  - erewrite bind_eq by exact Ht. cbv beta iota. unfold host_load.
    unfold mbind, M_bind, get. cbn. rewrite (proj1 (guest_bytes_wf c Hm)).
    rewrite in_window_host by (done || lia). reflexivity.
  - by erewrite bind_eq by exact Ht.
Qed.

Lemma write_bytes_spec c a v :
  memory_wf (m_memory c) -> u64_ok a -> u64_ok (Z.of_nat (length v)) ->
  write_bytes a v c =
    match guest_write c a v with
    | Some c' => Returned true c'
    | None => Returned false (memory_fault c a)
    end.
Proof.
  intros Hm Ha Hn. unfold write_bytes, guest_write.
  pose proof (translate_spec c a _ Hm Ha Hn) as Ht. destruct (in_window c a (Z.of_nat (length v))) eqn:Ew.
  - erewrite bind_eq by exact Ht. cbv beta iota. unfold host_store.
    unfold mbind, M_bind, get. cbn. rewrite (proj1 (guest_bytes_wf c Hm)).
    rewrite in_window_host by (done || lia). reflexivity.
  - by erewrite bind_eq by exact Ht.
Qed.

(** ** Reads after writes *)

Lemma guest_write_bytes c c' a v :
  memory_wf (m_memory c) -> guest_write c a v = Some c' ->
  in_window c a (Z.of_nat (length v)) = true /\
  c' = with_bytes c (Some (splice (window_offset c a) v (guest_bytes c))) /\
  length (guest_bytes c') = length (guest_bytes c).
Proof.
  intros Hm H. unfold guest_write in H. destruct (in_window c a (Z.of_nat (length v))) eqn:Ew; [|done].
  injection H as <-. split_and!; [done|done|]. by apply length_splice, in_window_nat.
Qed.

Lemma guest_write_memory_wf c c' a v :
  memory_wf (m_memory c) -> Forall u8_ok v -> guest_write c a v = Some c' -> memory_wf (m_memory c').
Proof.
  intros Hm Hv (Hw & -> & Hl)%guest_write_bytes; [|done].
  pose proof (guest_bytes_wf c Hm) as (Hb & Hlen & Hby). destruct Hm as [? ? _].
  constructor; [done|done|]. eexists. split; [done|]. split; [cbn in *; lia|by apply Forall_splice].
Qed.

Lemma guest_read_write_same c c' a v :
  memory_wf (m_memory c) -> guest_write c a v = Some c' -> guest_read c' a (length v) = Some v.
Proof.
  intros Hm (Hw & -> & _)%guest_write_bytes; [|done]. unfold guest_read.
  change (in_window (with_bytes c _) a (Z.of_nat (length v))) with (in_window c a (Z.of_nat (length v))).
  rewrite Hw. f_equal. by apply slice_splice_same, in_window_nat.
Qed.

Lemma guest_read_write_disjoint c c' a v a' n :
  memory_wf (m_memory c) -> guest_write c a v = Some c' ->
  a' + Z.of_nat n <= a \/ a + Z.of_nat (length v) <= a' -> guest_read c' a' n = guest_read c a' n.
Proof.
  intros Hm (Hw & -> & _)%guest_write_bytes Hd; [|done]. unfold guest_read.
  change (in_window (with_bytes c _) a' (Z.of_nat n)) with (in_window c a' (Z.of_nat n)).
  destruct (in_window c a' (Z.of_nat n)) eqn:Ew; [|done]. f_equal.
  apply slice_splice_disjoint; [by apply in_window_nat|].
  unfold in_window, window_offset in *. bool_hyps. cbn. lia.
Qed.

Lemma read_u64_spec c a :
  memory_wf (m_memory c) -> u64_ok a ->
  read_u64 a c = match guest_read c a 8 with
                 | Some bs => Returned (Some (le_decode bs)) c
                 | None => Returned None (memory_fault c a) end.
Proof.
  intros Hm Ha. unfold read_u64, mbind, M_bind. rewrite read_bytes_spec by (done || words).
  by destruct (guest_read c a 8).
Qed.

(** The other widths, each a decoding of the window's bytes. *)
Lemma read_u8_spec c a :
  memory_wf (m_memory c) -> u64_ok a ->
  read_u8 a c = match guest_read c a 1 with
                | Some bs => Returned (Some (le_decode bs)) c
                | None => Returned None (memory_fault c a) end.
Proof.
  intros Hm Ha. unfold read_u8, mbind, M_bind. rewrite read_bytes_spec by (done || words).
  by destruct (guest_read c a 1).
Qed.

Lemma read_i8_spec c a :
  memory_wf (m_memory c) -> u64_ok a ->
  read_i8 a c = match guest_read c a 1 with
                | Some bs => Returned (Some (s8 (le_decode bs))) c
                | None => Returned None (memory_fault c a) end.
Proof.
  intros Hm Ha. unfold read_i8, mbind, M_bind. rewrite read_u8_spec by done. by destruct (guest_read c a 1).
Qed.

Lemma read_u32_spec c a :
  memory_wf (m_memory c) -> u64_ok a ->
  read_u32 a c = match guest_read c a 4 with
                 | Some bs => Returned (Some (le_decode bs)) c
                 | None => Returned None (memory_fault c a) end.
Proof.
  intros Hm Ha. unfold read_u32, mbind, M_bind. rewrite read_bytes_spec by (done || words).
  by destruct (guest_read c a 4).
Qed.

Lemma read_i32_spec c a :
  memory_wf (m_memory c) -> u64_ok a ->
  read_i32 a c = match guest_read c a 4 with
                 | Some bs => Returned (Some (s32 (le_decode bs))) c
                 | None => Returned None (memory_fault c a) end.
Proof.
  intros Hm Ha. unfold read_i32, mbind, M_bind. rewrite read_u32_spec by done. by destruct (guest_read c a 4).
Qed.

Lemma write_u64_spec c a v :
  memory_wf (m_memory c) -> u64_ok a ->
  write_u64 a v c = match guest_write c a (le_encode 8 v) with
                    | Some c' => Returned true c'
                    | None => Returned false (memory_fault c a) end.
Proof.
  intros Hm Ha. unfold write_u64. apply write_bytes_spec; [done|done|]. rewrite length_le_encode. words.
Qed.

(** ** Registers *)

Definition register c (r : Z) : Z := general_registers (m_state c) !!! Z.to_nat r.

Definition put_register c (r v : Z) : x64_execution_context W :=
  with_state c (set_general_registers (m_state c) (<[Z.to_nat r := v]> (general_registers (m_state c)))).

Lemma get_register64_spec c r :
  state_wf (m_state c) -> 0 <= r < 16 -> get_register64 r c = Returned (register c r) c.
Proof.
  intros Hs Hr. destruct (register_lookup _ r Hs Hr) as (v & Hv & _).
  unfold get_register64, register, mbind, M_bind, get, index_get.
  rewrite Hv. by rewrite (list_lookup_total_correct _ _ _ Hv).
Qed.

Lemma register_ok c r : state_wf (m_state c) -> 0 <= r < 16 -> u64_ok (register c r).
Proof.
  intros Hs Hr. destruct (register_lookup _ r Hs Hr) as (v & Hv & Hok). unfold register.
  by rewrite (list_lookup_total_correct _ _ _ Hv).
Qed.

Lemma set_register64_spec c r v :
  state_wf (m_state c) -> 0 <= r < 16 -> set_register64 r v c = Returned tt (put_register c r v).
Proof. intros Hs Hr. unfold set_register64. by erewrite bind_eq by (by apply get_register64_spec). Qed.

Lemma register_put_same c r v : state_wf (m_state c) -> 0 <= r < 16 -> register (put_register c r v) r = v.
Proof. intros [Hl _ _ _ _ _] Hr. unfold register. cbn. apply list_lookup_total_insert_eq. lia. Qed.

Lemma register_put_other c r r' v : 0 <= r -> 0 <= r' -> r <> r' -> register (put_register c r v) r' = register c r'.
Proof. intros. unfold register. cbn. apply list_lookup_total_insert_ne. lia. Qed.

Lemma put_register_state_wf c r v : state_wf (m_state c) -> u64_ok v -> state_wf (m_state (put_register c r v)).
Proof. apply state_wf_set_register. Qed.

Lemma put_put_register c r v v' : put_register (put_register c r v) r v' = put_register c r v'.
Proof. unfold put_register, with_state, set_general_registers. cbn. by rewrite list_insert_insert_eq. Qed.

Lemma put_register_id c r : state_wf (m_state c) -> 0 <= r < 16 -> put_register c r (register c r) = c.
Proof.
  intros Hs Hr. destruct (register_lookup _ r Hs Hr) as (v & Hv & _). unfold put_register, register.
  rewrite (list_lookup_total_correct _ _ _ Hv), list_insert_id by done. by destruct c as [[] ? ? ? ? ?].
Qed.
End window.

Section stack.
Context {W : Type}.
Implicit Types c : x64_execution_context W.

Definition RSP : Z := register_index X64_GENERAL_REGISTER_RSP.

Lemma rsp_range : 0 <= RSP < 16.
Proof. unfold RSP. simpl. lia. Qed.

Lemma push_u64_spec c v :
  state_wf (m_state c) -> memory_wf (m_memory c) ->
  push_u64 v c =
    let rsp := register c RSP in
    let pushed := put_register c RSP (u64 (rsp - 8)) in
    if rsp <? u64 (base_address (m_memory c) + 8) then Returned false (memory_fault c rsp)
    else match guest_write pushed (u64 (rsp - 8)) (le_encode 8 v) with
         | Some c' => Returned true c'
         | None => Returned false (memory_fault pushed (u64 (rsp - 8)))
         end.
Proof.
  intros Hs Hm. unfold push_u64. change (register_index X64_GENERAL_REGISTER_RSP) with RSP.
  erewrite bind_eq by (apply get_register64_spec; [done|apply rsp_range]).
  erewrite bind_eq by reflexivity. cbv zeta.
  destruct (register c RSP <? u64 (base_address (m_memory c) + 8)); [reflexivity|].
  erewrite bind_eq by (apply set_register64_spec; [done|apply rsp_range]).
  apply write_u64_spec; [done|apply u64_range].
Qed.

Lemma pop_u64_spec c :
  state_wf (m_state c) -> memory_wf (m_memory c) ->
  pop_u64 c =
    match guest_read c (register c RSP) 8 with
    | Some bs => Returned (Some (le_decode bs)) (put_register c RSP (u64 (register c RSP + 8)))
    | None => Returned None (memory_fault c (register c RSP))
    end.
Proof.
  intros Hs Hm. unfold pop_u64. change (register_index X64_GENERAL_REGISTER_RSP) with RSP.
  erewrite bind_eq by (apply get_register64_spec; [done|apply rsp_range]).
  pose proof (read_u64_spec c _ Hm (register_ok c RSP Hs rsp_range)) as Hr.
  destruct (guest_read c (register c RSP) 8) as [bs|]; (erewrite bind_eq by exact Hr); [|done].
  cbv beta iota. by erewrite bind_eq by (apply set_register64_spec; [done|apply rsp_range]).
Qed.

Lemma le_decode_encode_u64 v : u64_ok v -> le_decode (le_encode 8 v) = v.
Proof. intros. rewrite le_decode_encode. by apply Z.mod_small. Qed.

Lemma put_guest_write c r x a v :
  guest_write (put_register c r x) a v = (fun c' => put_register c' r x) <$> guest_write c a v.
Proof.
  unfold guest_write.
  change (in_window (put_register c r x) a (Z.of_nat (length v))) with (in_window c a (Z.of_nat (length v))).
  by destruct (in_window c a (Z.of_nat (length v))).
Qed.

(** What a successful push does to the context. *)
Lemma push_u64_returned c c1 v :
  state_wf (m_state c) -> memory_wf (m_memory c) -> push_u64 v c = Returned true c1 ->
  exists cw, guest_write c (u64 (register c RSP - 8)) (le_encode 8 v) = Some cw /\
    c1 = put_register cw RSP (u64 (register c RSP - 8)) /\ m_state cw = m_state c.
Proof.
  intros Hs Hm Hp. rewrite push_u64_spec in Hp by done. cbv zeta in Hp. rewrite put_guest_write in Hp.
  destruct (_ <? _) in Hp; [done|]. destruct (guest_write c _ _) as [cw|] eqn:Ew; [|done].
  exists cw. split_and!; [done|by injection Hp|].
  apply guest_write_bytes in Ew as (_ & -> & _); done.
Qed.

(** A successful pop of what was just pushed. *)
Lemma pop_after_push c c1 v :
  state_wf (m_state c) -> memory_wf (m_memory c) -> u64_ok v -> push_u64 v c = Returned true c1 ->
  exists cw, guest_write c (u64 (register c RSP - 8)) (le_encode 8 v) = Some cw /\
    m_state cw = m_state c /\ pop_u64 c1 = Returned (Some v) cw.
Proof.
  intros Hs Hm Hv Hp. destruct (push_u64_returned c c1 v Hs Hm Hp) as (cw & Ew & -> & Hst).
  pose proof (register_ok c RSP Hs rsp_range) as Hrsp.
  assert (state_wf (m_state cw)) as Hsw by congruence.
  assert (memory_wf (m_memory cw)) as Hmw by (eapply guest_write_memory_wf; [done|apply le_encode_bytes|done]).
  exists cw. split_and!; [done|done|].
  rewrite pop_u64_spec; [|apply put_register_state_wf; [done|apply u64_range]|done].
  rewrite register_put_same by (done || apply rsp_range).
  change (guest_read (put_register cw RSP ?x)) with (guest_read cw).
  pose proof (guest_read_write_same _ _ _ _ Hm Ew) as Hr. rewrite length_le_encode in Hr. rewrite Hr.
  rewrite le_decode_encode_u64, put_put_register by done. do 2 f_equal.
  rewrite u64_u64_add_l, Z.sub_add, u64_id by done.
  replace (register c RSP) with (register cw RSP) by (unfold register; by rewrite Hst).
  apply put_register_id; [done|apply rsp_range].
Qed.

(** A successful push followed by a pop returns the pushed value, restores every register,
    and leaves guest memory unchanged outside the eight bytes below the stack pointer. *)
Lemma push_pop_roundtrip c c1 v :
  state_wf (m_state c) -> memory_wf (m_memory c) -> u64_ok v -> push_u64 v c = Returned true c1 ->
  exists c2, pop_u64 c1 = Returned (Some v) c2 /\ m_state c2 = m_state c /\
    forall a n, a + Z.of_nat n <= u64 (register c RSP - 8) \/ u64 (register c RSP - 8) + 8 <= a ->
      guest_read c2 a n = guest_read c a n.
Proof.
  intros Hs Hm Hv Hp. destruct (pop_after_push c c1 v Hs Hm Hv Hp) as (cw & Ew & Hst & Hpop).
  exists cw. split_and!; [done|done|]. intros a n Hd.
  eapply guest_read_write_disjoint; [done|done|]. rewrite length_le_encode. lia.
Qed.



(** A 64-bit write to the guest succeeds exactly when its eight bytes lie in the window; a
    read of the same address then returns the value and every disjoint read is unchanged;
    outside the window both record the fault and change nothing else. *)
Lemma write_read_u64_roundtrip c a v :
  memory_wf (m_memory c) -> u64_ok a -> u64_ok v ->
  (in_window c a 8 = true /\ exists c', write_u64 a v c = Returned true c' /\
     read_u64 a c' = Returned (Some v) c' /\ m_state c' = m_state c /\
     forall a' n, a' + Z.of_nat n <= a \/ a + 8 <= a' -> guest_read c' a' n = guest_read c a' n) \/
  (in_window c a 8 = false /\ write_u64 a v c = Returned false (memory_fault c a) /\
     read_u64 a c = Returned None (memory_fault c a)).
Proof.
  intros Hm Ha Hv. rewrite write_u64_spec, read_u64_spec by done. unfold guest_write at 1 2, guest_read at 3.
  rewrite length_le_encode. change (Z.of_nat 8) with 8. destruct (in_window c a 8) eqn:Ew; [left|by right].
  split; [done|]. eexists. split; [done|].
  assert (guest_write c a (le_encode 8 v) = Some (with_bytes c (Some (splice (window_offset c a) (le_encode 8 v) (guest_bytes c))))) as Hw.
  { unfold guest_write. rewrite length_le_encode. change (Z.of_nat 8) with 8. by rewrite Ew. }
  pose proof (guest_read_write_same _ _ _ _ Hm Hw) as Hr. rewrite length_le_encode in Hr.
  pose proof (guest_write_memory_wf _ _ _ _ Hm (le_encode_bytes 8 v) Hw).
  rewrite read_u64_spec, Hr, le_decode_encode_u64 by done. split_and!; [done|done|].
  intros a' n Hd. eapply guest_read_write_disjoint; [done|done|]. rewrite length_le_encode. lia.
Qed.


End stack.

Lemma write_read_u64_roundtrip_witness :
  (in_window (sample []) 0x1010 8 = true /\ exists c', write_u64 0x1010 9 (sample []) = Returned true c' /\
     read_u64 0x1010 c' = Returned (Some 9) c' /\ m_state c' = m_state (sample []) /\
     forall a' n, a' + Z.of_nat n <= 0x1010 \/ 0x1010 + 8 <= a' -> guest_read c' a' n = guest_read (sample []) a' n) \/
  (in_window (sample []) 0x1010 8 = false /\
     write_u64 0x1010 9 (sample []) = Returned false (memory_fault (sample []) 0x1010) /\
     read_u64 0x1010 (sample []) = Returned None (memory_fault (sample []) 0x1010)).
Proof.
  apply (write_read_u64_roundtrip (sample []) 0x1010 9); [by apply sample_memory_wf|words|words].
Defined.

Lemma push_pop_roundtrip_witness :
  let c1 := final (push_u64 5 (sample [])) (sample []) in
  exists c2, pop_u64 c1 = Returned (Some 5) c2 /\ m_state c2 = m_state (sample []) /\
    forall a n, a + Z.of_nat n <= u64 (register (sample []) RSP - 8) \/ u64 (register (sample []) RSP - 8) + 8 <= a ->
      guest_read c2 a n = guest_read (sample []) a n.
Proof.
  intros c1. apply (push_pop_roundtrip (sample []) c1 5);
    [exact sample_state_wf|by apply sample_memory_wf|words|vm_compute; reflexivity].
Defined.

(** ** Symbolic execution

    [exec] rewrites the leading operation of a handler by its equation; reads
    of guest memory are decided by the hypotheses about [guest_read]. *)
Ltac exec_side := first [assumption | solve [auto with words] | apply u64_range | words].

Ltac exec_op :=
  lazymatch goal with
  | |- get ?c = _ => reflexivity
  | |- mret _ ?c = _ => reflexivity
  | |- get_register64 _ _ = _ => apply get_register64_spec; exec_side
  | |- set_register64 _ _ _ = _ => apply set_register64_spec; exec_side
  | |- read_u8 _ _ = _ => rewrite read_u8_spec by exec_side
  | |- read_i8 _ _ = _ => rewrite read_i8_spec by exec_side
  | |- read_u32 _ _ = _ => rewrite read_u32_spec by exec_side
  | |- read_i32 _ _ = _ => rewrite read_i32_spec by exec_side
  | |- read_u64 _ _ = _ => rewrite read_u64_spec by exec_side
  | |- _ => eassumption
  end;
  repeat match goal with H : guest_read ?c ?a ?n = _ |- context [guest_read ?c ?a ?n] => rewrite H end;
  try reflexivity.

Ltac exec :=
  repeat (cbv beta iota zeta delta [negb fmap option_fmap option_map];
          match goal with
          | |- context [(?m ≫= ?f) ?c] =>
              lazymatch m with
              | (_ ≫= _) => fail
              | _ => erewrite (bind_eq m f c) by exec_op
              end
          end).
