(* ===== verification/Decoder.v ===== *)
(** [emulator/x64/x64_decoder.cpp]: the prefix loop that turns the bytes at the
    instruction pointer into an [x64_decoded_instruction]. *)
From S2P Require Import Prelude EmulatorTypes ExecutionContext.

(** The all-clear instruction the decoder starts from. *)
Definition initial_instruction (ip : Z) : x64_decoded_instruction :=
  {| address := ip; opcode_address := ip; next_address := ip; opcode := 0;
     prefix_66 := false; prefix_f2 := false; prefix_f3 := false;
     rex_w := false; rex_r := false; rex_x := false; rex_b := false |}.

Definition set_opcode (i : x64_decoded_instruction) (op : Z) : x64_decoded_instruction :=
  {| address := address i; opcode_address := opcode_address i; next_address := next_address i; opcode := op;
     prefix_66 := prefix_66 i; prefix_f2 := prefix_f2 i; prefix_f3 := prefix_f3 i;
     rex_w := rex_w i; rex_r := rex_r i; rex_x := rex_x i; rex_b := rex_b i |}.

Definition set_opcode_address (i : x64_decoded_instruction) (a : Z) : x64_decoded_instruction :=
  {| address := address i; opcode_address := a; next_address := next_address i; opcode := opcode i;
     prefix_66 := prefix_66 i; prefix_f2 := prefix_f2 i; prefix_f3 := prefix_f3 i;
     rex_w := rex_w i; rex_r := rex_r i; rex_x := rex_x i; rex_b := rex_b i |}.

Definition set_next_address (i : x64_decoded_instruction) (a : Z) : x64_decoded_instruction :=
  {| address := address i; opcode_address := opcode_address i; next_address := a; opcode := opcode i;
     prefix_66 := prefix_66 i; prefix_f2 := prefix_f2 i; prefix_f3 := prefix_f3 i;
     rex_w := rex_w i; rex_r := rex_r i; rex_x := rex_x i; rex_b := rex_b i |}.

Definition set_prefixes (i : x64_decoded_instruction) (p66 pf2 pf3 : bool) : x64_decoded_instruction :=
  {| address := address i; opcode_address := opcode_address i; next_address := next_address i; opcode := opcode i;
     prefix_66 := p66; prefix_f2 := pf2; prefix_f3 := pf3;
     rex_w := rex_w i; rex_r := rex_r i; rex_x := rex_x i; rex_b := rex_b i |}.

Definition set_rex (i : x64_decoded_instruction) (w r x b : bool) : x64_decoded_instruction :=
  {| address := address i; opcode_address := opcode_address i; next_address := next_address i; opcode := opcode i;
     prefix_66 := prefix_66 i; prefix_f2 := prefix_f2 i; prefix_f3 := prefix_f3 i;
     rex_w := w; rex_r := r; rex_x := x; rex_b := b |}.

(** The chain of [if]s of the loop body: [None] is the [break]. *)
Definition apply_prefix (i : x64_decoded_instruction) : option x64_decoded_instruction :=
  let op := opcode i in
  if op =? 0x66 then Some (set_prefixes i true (prefix_f2 i) (prefix_f3 i))
  else if op =? 0xF2 then Some (set_prefixes i (prefix_66 i) true (prefix_f3 i))
  else if op =? 0xF3 then Some (set_prefixes i (prefix_66 i) (prefix_f2 i) true)
  else if op =? 0x2E then Some i
  else if Z.land op 0xF0 =? 0x40 then
    Some (set_rex i (negb (Z.land op 0x08 =? 0)) (negb (Z.land op 0x04 =? 0))
                    (negb (Z.land op 0x02 =? 0)) (negb (Z.land op 0x01 =? 0)))
  else None.

Section decoder.
Context {W : Type}.

(** [while (true) { ... }]: [None] is [return false]. *)
Fixpoint decode_prefixes (fuel : nat) (i : x64_decoded_instruction) : X W (option x64_decoded_instruction) :=
  match fuel with
  | O => out_of_fuel
  | S fuel =>
      match apply_prefix i with
      | None => mret (Some i)
      | Some i =>
          let i := set_opcode_address i (u64 (opcode_address i + 1)) in
          op ← read_u8 (opcode_address i);
          match op with
          | None => set_invalid_memory_access (opcode_address i) 0 ;; mret None
          | Some op => decode_prefixes fuel (set_opcode i op)
          end
      end
  end.

(** Every iteration consumes a byte of the guest window, so its size (plus
    one) bounds the iterations: see [decode_safe]. *)
Definition decode_fuel (c : x64_execution_context W) : nat := S (Z.to_nat (size (m_memory c))).

Definition decode_x64_instruction : X W (option x64_decoded_instruction) :=
  c ← get;
  let i := initial_instruction (instruction_pointer (m_state c)) in
  op ← read_u8 (opcode_address i);
  match op with
  | None => set_invalid_memory_access (opcode_address i) 0 ;; mret None
  | Some op =>
      decoded ← decode_prefixes (decode_fuel c) (set_opcode i op);
      match decoded with
      | None => mret None
      | Some i => mret (Some (set_next_address i (u64 (opcode_address i + 1))))
      end
  end.
End decoder.

Section safety.
Context {W : Type}.
Implicit Types c : x64_execution_context W.

(** A byte read succeeds exactly inside the window. *)
Lemma wp_read_u8_window c0 c a Q :
  live c0 c -> u64_ok a ->
  (forall v, u8_ok v -> base_address (m_memory c) <= a < base_address (m_memory c) + size (m_memory c) -> Q (Some v) c) ->
  (forall c', faulted c0 c' -> Q None c') -> wp (read_u8 a) Q c.
Proof.
  intros Hl Ha HS HN. unfold read_u8, read_bytes. apply wp_bind, wp_bind.
  eapply wp_translate_guest_pointer; [done|done|words| |intros; by apply wp_ret, wp_ret, HN].
  intros Hge Hle. pose proof Hl as [[[_ [_ _ (l & Hbuf & Hlb & Hbytes)]] _] _].
  apply wp_bind. unfold host_load. apply wp_bind, wp_get. rewrite Hbuf.
  rewrite (proj2 (andb_true_iff _ _)) by (split; apply Z.leb_le; lia).
  apply wp_ret, wp_ret, wp_ret, HS; [|lia].
  pose proof (le_decode_range _ (Forall_slice u8_ok (Z.to_nat (a - base_address (m_memory c))) 1 l Hbytes)) as Hr.
  rewrite length_slice in Hr by lia. done.
Qed.

Lemma apply_prefix_opcode_address i i' : apply_prefix i = Some i' -> opcode_address i' = opcode_address i.
Proof. unfold apply_prefix. repeat case_match; naive_solver. Qed.

Lemma wp_decode_fail c0 c a (Q : option x64_decoded_instruction -> x64_execution_context W -> Prop) :
  faulted c0 c -> (forall c', faulted c0 c' -> Q None c') ->
  wp (set_invalid_memory_access a 0 ;; mret None) Q c.
Proof.
  intros Hf HN. apply wp_bind. eapply wp_set_invalid_memory_access; [by apply faulted_env|].
  intros. by apply wp_ret, HN.
Qed.

(** The loop consumes a byte of the window per iteration: an address that
    wraps around is below the window's base, so the read fails. *)
Lemma wp_decode_prefixes c0 c fuel i Q :
  live c0 c -> u8_ok (opcode i) -> u64_ok (opcode_address i) ->
  base_address (m_memory c) <= opcode_address i < base_address (m_memory c) + size (m_memory c) ->
  base_address (m_memory c) + size (m_memory c) - opcode_address i < Z.of_nat fuel ->
  (forall i', u8_ok (opcode i') -> u64_ok (opcode_address i') -> Q (Some i') c) ->
  (forall c', faulted c0 c' -> Q None c') -> wp (decode_prefixes fuel i) Q c.
Proof.
  intros Hl Hop Hoa Hw Hfuel HS HN. revert i Hop Hoa Hw Hfuel.
  induction fuel as [|fuel IH]; intros i Hop Hoa Hw Hfuel; [lia|]. cbn [decode_prefixes].
  destruct (apply_prefix i) as [i1|] eqn:E; [|apply wp_ret, HS; done].
  cbv zeta. cbn [set_opcode_address opcode_address]. rewrite (apply_prefix_opcode_address i i1 E).
  apply wp_bind. eapply wp_read_u8_window; [done|auto with words| |intros; by eapply wp_decode_fail].
  intros v Hv Hw'. assert (u64 (opcode_address i + 1) = opcode_address i + 1) as Ea.
  { destruct (decide (opcode_address i + 1 = 2 ^ 64)) as [Eq|]; [|apply u64_id; words].
    rewrite Eq in Hw'. change (u64 (2 ^ 64)) with 0 in Hw'.
    pose proof Hl as [[[_ [Hb Hs _]] _] _]. words. }
  apply IH; cbn [set_opcode set_opcode_address opcode opcode_address]; [done|auto with words|lia|lia].
Qed.

Lemma wp_decode_x64_instruction c0 c Q :
  live c0 c ->
  (forall i, u8_ok (opcode i) -> u64_ok (next_address i) -> Q (Some i) c) ->
  (forall c', faulted c0 c' -> Q None c') -> wp decode_x64_instruction Q c.
Proof.
  intros Hl HS HN. unfold decode_x64_instruction. apply wp_bind, wp_get. cbv zeta. apply wp_bind.
  cbn [initial_instruction opcode_address]. pose proof Hl as [[[[] _ _ _] _] _].
  eapply wp_read_u8_window; [done|done| |intros; by eapply wp_decode_fail].
  intros v Hv Hw. apply wp_bind. eapply wp_decode_prefixes; [done|done|done|done| |..].
  - unfold decode_fuel. cbn. lia.
  - intros i Hop Hoa. apply wp_ret, HS; [done|]. apply u64_range.
  - intros. by apply wp_ret, HN.
Qed.
End safety.
