(* ===== verification/OperandFields.v ===== *)
(** The bit fields of a ModRM and a SIB byte, as the handlers extract them, and
    the register number a field and a REX bit designate. *)
From S2P Require Import Prelude.

Definition field_mod (modrm : Z) : Z := Z.land (Z.shiftr modrm 6) 0x3.
Definition field_reg (modrm : Z) : Z := Z.land (Z.shiftr modrm 3) 0x7.
Definition field_rm (modrm : Z) : Z := Z.land modrm 0x7.

(** [field + (rex ? 8U : 0U)] *)
Definition extend (field : Z) (rex : bool) : Z := field + (if rex then 8 else 0).

Lemma field_mod_range b : 0 <= field_mod b < 4.
Proof. unfold field_mod. rewrite (Z.land_ones _ 2) by lia. apply Z.mod_pos_bound. lia. Qed.

Lemma field_reg_range b : 0 <= field_reg b < 8.
Proof. unfold field_reg. rewrite (Z.land_ones _ 3) by lia. apply Z.mod_pos_bound. lia. Qed.

Lemma field_rm_range b : 0 <= field_rm b < 8.
Proof. unfold field_rm. rewrite (Z.land_ones _ 3) by lia. apply Z.mod_pos_bound. lia. Qed.

Lemma extend_range f rex : 0 <= f < 8 -> 0 <= extend f rex < 16.
Proof. unfold extend. destruct rex; lia. Qed.

Lemma extend_reg b rex : 0 <= extend (field_reg b) rex < 16.
Proof. apply extend_range, field_reg_range. Qed.

Lemma extend_rm b rex : 0 <= extend (field_rm b) rex < 16.
Proof. apply extend_range, field_rm_range. Qed.

#[export] Hint Resolve field_mod_range field_reg_range field_rm_range extend_range extend_reg extend_rm : words.
#[export] Hint Extern 6 (_ <= _ < 8) => lia : words.
