(* ===== verification/AluInstructions.v ===== *)
(** [emulator/x64/x64_alu_instructions.cpp]: the arithmetic and logic handlers
    and their ModRM operand decoder. *)
From S2P Require Import Prelude EmulatorTypes ExecutionContext OperandFields.

Record x64_decoded_rm_operand := {
  mod_field : Z;
  operation : Z;
  rm_index : Z;
  rm_is_register : bool;
  rm_address : Z;
  next_instruction : Z;
}.

(** Filling in [rm_address] and [next_instruction] once they are known. *)
Definition with_address (o : x64_decoded_rm_operand) (addr next : Z) : x64_decoded_rm_operand :=
  {| mod_field := mod_field o; operation := operation o; rm_index := rm_index o;
     rm_is_register := rm_is_register o; rm_address := addr; next_instruction := next |}.

Section alu.
Context {W : Type}.

(** Returns the values of [out_address] and [out_next_instruction]. *)
Definition try_read_sib_operand_address (i : x64_decoded_instruction) (modrm_address md : Z)
    : X W (option (Z * Z)) :=
  sib ← read_u8 (u64 (modrm_address + 1));
  match sib with
  | None => mret None
  | Some sib =>
      let scale_shift := field_mod sib in
      let index_field := field_reg sib in
      let base_field := field_rm sib in
      let displacement_address := u64 (modrm_address + 2) in
      let scale := Z.shiftl 1 scale_shift in
      index_value ← (if negb (index_field =? 4) || rex_x i
                     then get_register64 (extend index_field (rex_x i)) else mret 0);
      if md =? 0 then
        if (base_field =? 5) && negb (rex_b i) then
          displacement32 ← read_i32 displacement_address;
          match displacement32 with
          | None => mret None
          | Some d => mret (Some (u64 (u64 (index_value * scale) + d), u64 (displacement_address + 4)))
          end
        else
          base_value ← get_register64 (extend base_field (rex_b i));
          mret (Some (u64 (base_value + u64 (index_value * scale)), displacement_address))
      else
        displacement ←
          (if md =? 1 then
             displacement8 ← read_i8 displacement_address;
             mret ((fun d => (d, u64 (displacement_address + 1))) <$> displacement8)
           else if md =? 2 then
             displacement32 ← read_i32 displacement_address;
             mret ((fun d => (d, u64 (displacement_address + 4))) <$> displacement32)
           else mret None);
        match displacement with
        | None => mret None
        | Some (d, next) =>
            base_value ← get_register64 (extend base_field (rex_b i));
            mret (Some (u64 (u64 (base_value + u64 (index_value * scale)) + d), next))
        end
  end.

Definition try_decode_rm_operand (i : x64_decoded_instruction) (modrm_address : Z)
    : X W (option x64_decoded_rm_operand) :=
  modrm ← read_u8 modrm_address;
  match modrm with
  | None => mret None
  | Some modrm =>
      let md := field_mod modrm in
      let rm := field_rm modrm in
      let index := extend rm (rex_b i) in
      let operand := {| mod_field := md; operation := field_reg modrm; rm_index := index;
                        rm_is_register := md =? 3; rm_address := 0;
                        next_instruction := u64 (modrm_address + 1) |} in
      if md =? 3 then mret (Some operand)
      else if rm =? 4 then
        a ← try_read_sib_operand_address i modrm_address md;
        mret ((fun '(addr, next) => with_address operand addr next) <$> a)
      else if md =? 0 then
        if (rm =? 5) && negb (rex_b i) then
          displacement ← read_i32 (u64 (modrm_address + 1));
          match displacement with
          | None => mret None
          | Some d =>
              mret (Some (with_address operand (u64 (u64 (modrm_address + 5) + d)) (u64 (modrm_address + 5))))
          end
        else
          r ← get_register64 index;
          mret (Some (with_address operand r (next_instruction operand)))
      else if md =? 1 then
        displacement ← read_i8 (u64 (modrm_address + 1));
        match displacement with
        | None => mret None
        | Some d =>
            r ← get_register64 index;
            addr ← signed_add64 (s64 r) d;
            mret (Some (with_address operand (u64 addr) (u64 (modrm_address + 2))))
        end
      else if md =? 2 then
        displacement ← read_i32 (u64 (modrm_address + 1));
        match displacement with
        | None => mret None
        | Some d =>
            r ← get_register64 index;
            addr ← signed_add64 (s64 r) d;
            mret (Some (with_address operand (u64 addr) (u64 (modrm_address + 5))))
        end
      else mret None
  end.

(** The recurring
    [if (operand.rm_is_register) x = get_registerN(rm_index);
     else if (!read_uN(rm_address, &x)) ...] *)
Definition load_rm64 (operand : x64_decoded_rm_operand) : X W (option Z) :=
  if rm_is_register operand then r ← get_register64 (rm_index operand); mret (Some r)
  else read_u64 (rm_address operand).

Definition load_rm32 (operand : x64_decoded_rm_operand) : X W (option Z) :=
  if rm_is_register operand then r ← get_register32 (rm_index operand); mret (Some r)
  else read_u32 (rm_address operand).

(** The recurring
    [if (operand.rm_is_register) set_registerN(rm_index, value);
     else if (!write_uN(rm_address, value)) ...] *)
Definition store_rm64 (operand : x64_decoded_rm_operand) (value : Z) : X W bool :=
  if rm_is_register operand then set_register64 (rm_index operand) value ;; mret true
  else write_u64 (rm_address operand) value.

Definition store_rm32 (operand : x64_decoded_rm_operand) (value : Z) : X W bool :=
  if rm_is_register operand then set_register32 (rm_index operand) value ;; mret true
  else write_u32 (rm_address operand) value.

Definition execute_x64_xor_register (i : x64_decoded_instruction) : X W x64_instruction_outcome :=
  if rex_w i then stop_unsupported (opcode i)
  else
    modrm ← read_u8 (next_address i);
    match modrm with
    | None => stop_invalid_memory_access
    | Some modrm =>
        let md := field_mod modrm in
        let source_register := extend (field_reg modrm) (rex_r i) in
        let destination_register := extend (field_rm modrm) (rex_b i) in
        if negb (md =? 3) then stop_unsupported (opcode i)
        else
          d ← get_register32 destination_register;
          s ← get_register32 source_register;
          let result_value := Z.lxor d s in
          set_register32 destination_register result_value ;;
          set_logic_flags result_value false ;;
          continue_at (u64 (next_address i + 1))
    end.

Definition execute_x64_or_register_byte (i : x64_decoded_instruction) : X W x64_instruction_outcome :=
  modrm ← read_u8 (next_address i);
  match modrm with
  | None => stop_invalid_memory_access
  | Some modrm =>
      let md := field_mod modrm in
      let source_register := extend (field_reg modrm) (rex_r i) in
      let destination_register := extend (field_rm modrm) (rex_b i) in
      if negb (md =? 3) then stop_unsupported (opcode i)
      else
        d ← get_register8_low destination_register;
        s ← get_register8_low source_register;
        let result_value := u8 (Z.lor d s) in
        set_register8_low destination_register result_value ;;
        set_logic_flags result_value false ;;
        continue_at (u64 (next_address i + 1))
  end.

Definition execute_x64_or_rm_to_register (i : x64_decoded_instruction) : X W x64_instruction_outcome :=
  modrm ← read_u8 (next_address i);
  match modrm with
  | None => stop_invalid_memory_access
  | Some modrm =>
      operand ← try_decode_rm_operand i (next_address i);
      match operand with
      | None => stop_invalid_memory_access
      | Some operand =>
          let destination_register := extend (field_reg modrm) (rex_r i) in
          if rex_w i then
            rhs ← load_rm64 operand;
            match rhs with
            | None => stop_invalid_memory_access
            | Some rhs =>
                d ← get_register64 destination_register;
                let result_value := Z.lor d rhs in
                set_register64 destination_register result_value ;;
                set_logic_flags result_value true ;;
                continue_at (next_instruction operand)
            end
          else
            rhs ← load_rm32 operand;
            match rhs with
            | None => stop_invalid_memory_access
            | Some rhs =>
                d ← get_register32 destination_register;
                let result_value := Z.lor d rhs in
                set_register32 destination_register result_value ;;
                set_logic_flags result_value false ;;
                continue_at (next_instruction operand)
            end
      end
  end.

Definition execute_x64_test_register (i : x64_decoded_instruction) : X W x64_instruction_outcome :=
  modrm ← read_u8 (next_address i);
  match modrm with
  | None => stop_invalid_memory_access
  | Some modrm =>
      let md := field_mod modrm in
      let source_register := extend (field_reg modrm) (rex_r i) in
      let destination_register := extend (field_rm modrm) (rex_b i) in
      if negb (md =? 3) then stop_unsupported (opcode i)
      else
        (if rex_w i then
           d ← get_register64 destination_register;
           s ← get_register64 source_register;
           set_logic_flags (Z.land d s) true
         else
           d ← get_register32 destination_register;
           s ← get_register32 source_register;
           set_logic_flags (Z.land d s) false) ;;
        continue_at (u64 (next_address i + 1))
  end.

Definition execute_x64_test_accumulator_immediate (i : x64_decoded_instruction) : X W x64_instruction_outcome :=
  immediate ← read_u32 (next_address i);
  match immediate with
  | None => stop_invalid_memory_access
  | Some immediate =>
      (if rex_w i then
         value ← get_register64 (register_index X64_GENERAL_REGISTER_RAX);
         let mask := u64 (s32 immediate) in
         set_logic_flags (Z.land value mask) true
       else
         value ← get_register32 (register_index X64_GENERAL_REGISTER_RAX);
         set_logic_flags (Z.land value immediate) false) ;;
      continue_at (u64 (next_address i + 4))
  end.

Definition execute_x64_group_f6 (i : x64_decoded_instruction) : X W x64_instruction_outcome :=
  operand ← try_decode_rm_operand i (next_address i);
  match operand with
  | None => stop_invalid_memory_access
  | Some operand =>
      immediate ← read_u8 (next_instruction operand);
      match immediate with
      | None => stop_invalid_memory_access
      | Some immediate =>
          if negb (operation operand =? 0) then stop_unsupported (opcode i)
          else
            lhs ← (if rm_is_register operand then r ← get_register8_low (rm_index operand); mret (Some r)
                   else read_u8 (rm_address operand));
            match lhs with
            | None => stop_invalid_memory_access
            | Some lhs =>
                set_logic_flags (u8 (Z.land lhs immediate)) false ;;
                continue_at (u64 (next_instruction operand + 1))
            end
      end
  end.

Definition execute_x64_group_f7 (i : x64_decoded_instruction) : X W x64_instruction_outcome :=
  operand ← try_decode_rm_operand i (next_address i);
  match operand with
  | None => stop_invalid_memory_access
  | Some operand =>
      if negb (operation operand =? 3) then stop_unsupported (opcode i)
      else if rex_w i then
        rhs ← load_rm64 operand;
        match rhs with
        | None => stop_invalid_memory_access
        | Some rhs =>
            let result_value := u64 (0 - rhs) in
            stored ← store_rm64 operand result_value;
            if negb stored then stop_invalid_memory_access
            else
              set_compare_flags 0 rhs result_value true ;;
              continue_at (next_instruction operand)
        end
      else
        rhs ← load_rm32 operand;
        match rhs with
        | None => stop_invalid_memory_access
        | Some rhs =>
            let result_value := u32 (0 - rhs) in
            stored ← store_rm32 operand result_value;
            if negb stored then stop_invalid_memory_access
            else
              set_compare_flags 0 rhs result_value false ;;
              continue_at (next_instruction operand)
        end
  end.

Definition execute_x64_group83 (i : x64_decoded_instruction) : X W x64_instruction_outcome :=
  operand ← try_decode_rm_operand i (next_address i);
  match operand with
  | None => stop_invalid_memory_access
  | Some operand =>
      immediate ← read_i8 (next_instruction operand);
      match immediate with
      | None => stop_invalid_memory_access
      | Some immediate =>
          if rex_w i then
            let rhs := u64 immediate in
            lhs ← load_rm64 operand;
            match lhs with
            | None => stop_invalid_memory_access
            | Some lhs =>
                if operation operand =? 0 then
                  let sum := u64 (lhs + rhs) in
                  stored ← store_rm64 operand sum;
                  if negb stored then stop_invalid_memory_access
                  else
                    set_add_flags lhs rhs sum true ;;
                    continue_at (u64 (next_instruction operand + 1))
                else if operation operand =? 5 then
                  let difference := u64 (lhs - rhs) in
                  stored ← store_rm64 operand difference;
                  if negb stored then stop_invalid_memory_access
                  else
                    set_compare_flags lhs rhs difference true ;;
                    continue_at (u64 (next_instruction operand + 1))
                else if operation operand =? 7 then
                  let difference := u64 (lhs - rhs) in
                  set_compare_flags lhs rhs difference true ;;
                  continue_at (u64 (next_instruction operand + 1))
                else stop_unsupported (opcode i)
            end
          else
            let rhs := u32 immediate in
            lhs ← load_rm32 operand;
            match lhs with
            | None => stop_invalid_memory_access
            | Some lhs =>
                if operation operand =? 0 then
                  let sum := u32 (lhs + rhs) in
                  stored ← store_rm32 operand sum;
                  if negb stored then stop_invalid_memory_access
                  else
                    set_add_flags lhs rhs sum false ;;
                    continue_at (u64 (next_instruction operand + 1))
                else if operation operand =? 5 then
                  let difference := u32 (lhs - rhs) in
                  stored ← store_rm32 operand difference;
                  if negb stored then stop_invalid_memory_access
                  else
                    set_compare_flags lhs rhs difference false ;;
                    continue_at (u64 (next_instruction operand + 1))
                else if operation operand =? 7 then
                  let difference := u32 (lhs - rhs) in
                  set_compare_flags lhs rhs difference false ;;
                  continue_at (u64 (next_instruction operand + 1))
                else stop_unsupported (opcode i)
            end
      end
  end.

Definition execute_x64_compare_rm_with_register (i : x64_decoded_instruction) : X W x64_instruction_outcome :=
  modrm ← read_u8 (next_address i);
  match modrm with
  | None => stop_invalid_memory_access
  | Some modrm =>
      operand ← try_decode_rm_operand i (next_address i);
      match operand with
      | None => stop_invalid_memory_access
      | Some operand =>
          let source_register := extend (field_reg modrm) (rex_r i) in
          if rex_w i then
            rhs ← get_register64 source_register;
            lhs ← load_rm64 operand;
            match lhs with
            | None => stop_invalid_memory_access
            | Some lhs =>
                set_compare_flags lhs rhs (u64 (lhs - rhs)) true ;;
                continue_at (next_instruction operand)
            end
          else
            rhs ← get_register32 source_register;
            lhs ← load_rm32 operand;
            match lhs with
            | None => stop_invalid_memory_access
            | Some lhs =>
                set_compare_flags lhs rhs (u32 (lhs - rhs)) false ;;
                continue_at (next_instruction operand)
            end
      end
  end.

Definition execute_x64_group81 (i : x64_decoded_instruction) : X W x64_instruction_outcome :=
  operand ← try_decode_rm_operand i (next_address i);
  match operand with
  | None => stop_invalid_memory_access
  | Some operand =>
      immediate ← read_i32 (next_instruction operand);
      match immediate with
      | None => stop_invalid_memory_access
      | Some immediate =>
          if rex_w i then
            let rhs := u64 immediate in
            lhs ← load_rm64 operand;
            match lhs with
            | None => stop_invalid_memory_access
            | Some lhs =>
                if operation operand =? 0 then
                  let sum := u64 (lhs + rhs) in
                  stored ← store_rm64 operand sum;
                  if negb stored then stop_invalid_memory_access
                  else
                    set_add_flags lhs rhs sum true ;;
                    continue_at (u64 (next_instruction operand + 4))
                else if operation operand =? 5 then
                  let difference := u64 (lhs - rhs) in
                  stored ← store_rm64 operand difference;
                  if negb stored then stop_invalid_memory_access
                  else
                    set_compare_flags lhs rhs difference true ;;
                    continue_at (u64 (next_instruction operand + 4))
                else if operation operand =? 7 then
                  let difference := u64 (lhs - rhs) in
                  set_compare_flags lhs rhs difference true ;;
                  continue_at (u64 (next_instruction operand + 4))
                else stop_unsupported (opcode i)
            end
          else
            let rhs := u32 immediate in
            lhs ← load_rm32 operand;
            match lhs with
            | None => stop_invalid_memory_access
            | Some lhs =>
                if operation operand =? 0 then
                  let sum := u32 (lhs + rhs) in
                  stored ← store_rm32 operand sum;
                  if negb stored then stop_invalid_memory_access
                  else
                    set_add_flags lhs rhs sum false ;;
                    continue_at (u64 (next_instruction operand + 4))
                else if operation operand =? 5 then
                  let difference := u32 (lhs - rhs) in
                  stored ← store_rm32 operand difference;
                  if negb stored then stop_invalid_memory_access
                  else
                    set_compare_flags lhs rhs difference false ;;
                    continue_at (u64 (next_instruction operand + 4))
                else if operation operand =? 7 then
                  let difference := u32 (lhs - rhs) in
                  set_compare_flags lhs rhs difference false ;;
                  continue_at (u64 (next_instruction operand + 4))
                else stop_unsupported (opcode i)
            end
      end
  end.
End alu.

(** * Safety

    The operand decoder yields a register number or an address and the address
    of the byte after the operand; a failure has been recorded as a memory
    fault. *)

Definition operand_ok (o : x64_decoded_rm_operand) : Prop :=
  0 <= rm_index o < 16 /\ u64_ok (rm_address o) /\ u64_ok (next_instruction o).

Section safety.
Context {W : Type}.
Implicit Types c : x64_execution_context W.

(** A ModRM byte's [mod] field is one of the values the cascade of [if]s tests. *)
Ltac mod_cases := bool_hyps; match goal with b : Z |- _ => pose proof (field_mod_range b); lia end.

Lemma wp_try_read_sib_operand_address c0 c i a md Q :
  live c0 c -> u64_ok a -> 0 <= md < 3 -> (forall addr n, u64_ok addr -> u64_ok n -> Q (Some (addr, n)) c) ->
  (forall c', faulted c0 c' -> Q None c') -> wp (try_read_sib_operand_address i a md) Q c.
Proof.
  intros Hl Ha Hmd HS HN. unfold try_read_sib_operand_address. wp_solve.
  all: first [by apply HN | apply HS; by auto with words | exfalso; bool_hyps; lia].
Qed.

Ltac wp_component ::=
  eapply wp_try_read_sib_operand_address; [wp_side|wp_side|bool_hyps|intros ? ? ? ?|intros ? ?].

Lemma wp_try_decode_rm_operand c0 c i a Q :
  live c0 c -> u64_ok a -> (forall o, operand_ok o -> Q (Some o) c) -> (forall c', faulted c0 c' -> Q None c') ->
  wp (try_decode_rm_operand i a) Q c.
Proof.
  intros Hl Ha HS HN. unfold try_decode_rm_operand. wp_solve.
  all: first [by apply HN | apply HS; refine (conj _ (conj _ _)); cbn; auto with words
             | pose proof (field_mod_range v); bool_hyps; lia].
Qed.

Lemma wp_load_rm64 c0 c o Q :
  live c0 c -> operand_ok o -> (forall v, u64_ok v -> Q (Some v) c) -> (forall c', faulted c0 c' -> Q None c') ->
  wp (load_rm64 o) Q c.
Proof. intros ? (? & ? & ?) ? ?. unfold load_rm64. wp_solve. all: auto. Qed.

Lemma wp_load_rm32 c0 c o Q :
  live c0 c -> operand_ok o -> (forall v, u32_ok v -> Q (Some v) c) -> (forall c', faulted c0 c' -> Q None c') ->
  wp (load_rm32 o) Q c.
Proof. intros ? (? & ? & ?) ? ?. unfold load_rm32. wp_solve. all: auto. Qed.

Lemma wp_store_rm64 c0 c o v Q :
  live c0 c -> operand_ok o -> u64_ok v -> (forall c', live c0 c' -> Q true c') ->
  (forall c', faulted c0 c' -> Q false c') -> wp (store_rm64 o v) Q c.
Proof. intros ? (? & ? & ?) ? ? ?. unfold store_rm64. wp_solve. all: auto. Qed.

Lemma wp_store_rm32 c0 c o v Q :
  live c0 c -> operand_ok o -> u32_ok v -> (forall c', live c0 c' -> Q true c') ->
  (forall c', faulted c0 c' -> Q false c') -> wp (store_rm32 o v) Q c.
Proof. intros ? (? & ? & ?) ? ? ?. unfold store_rm32. wp_solve. all: auto. Qed.

Ltac wp_component ::=
  lazymatch goal with
  | |- wp (try_decode_rm_operand _ _) _ _ => eapply wp_try_decode_rm_operand; [wp_side|wp_side|intros ? ?|intros ? ?]
  | |- wp (load_rm64 _) _ _ => eapply wp_load_rm64; [wp_side|wp_side|intros ? ?|intros ? ?]
  | |- wp (load_rm32 _) _ _ => eapply wp_load_rm32; [wp_side|wp_side|intros ? ?|intros ? ?]
  | |- wp (store_rm64 _ _) _ _ => eapply wp_store_rm64; [wp_side|wp_side|wp_side|intros ? ?|intros ? ?]
  | |- wp (store_rm32 _ _) _ _ => eapply wp_store_rm32; [wp_side|wp_side|wp_side|intros ? ?|intros ? ?]
  end.

Lemma operand_index_ok o : operand_ok o -> 0 <= rm_index o < 16.
Proof. by intros []. Qed.

Lemma operand_address_ok o : operand_ok o -> u64_ok (rm_address o).
Proof. by intros (? & ? & ?). Qed.

Lemma operand_next_ok o : operand_ok o -> u64_ok (next_instruction o).
Proof. by intros (? & ? & ?). Qed.

#[local] Hint Resolve operand_index_ok operand_address_ok operand_next_ok : words.

Lemma xor_register_safe c0 c i :
  live c0 c -> u64_ok (next_address i) -> wp (execute_x64_xor_register i) (handler_post c0) c.
Proof. intros. unfold execute_x64_xor_register. wp_solve. Qed.

Lemma or_register_byte_safe c0 c i :
  live c0 c -> u64_ok (next_address i) -> wp (execute_x64_or_register_byte i) (handler_post c0) c.
Proof. intros. unfold execute_x64_or_register_byte. wp_solve. Qed.

Lemma or_rm_to_register_safe c0 c i :
  live c0 c -> u64_ok (next_address i) -> wp (execute_x64_or_rm_to_register i) (handler_post c0) c.
Proof. intros. unfold execute_x64_or_rm_to_register. wp_solve. Qed.

Lemma test_register_safe c0 c i :
  live c0 c -> u64_ok (next_address i) -> wp (execute_x64_test_register i) (handler_post c0) c.
Proof. intros. unfold execute_x64_test_register. wp_solve. Qed.

Lemma test_accumulator_immediate_safe c0 c i :
  live c0 c -> u64_ok (next_address i) -> wp (execute_x64_test_accumulator_immediate i) (handler_post c0) c.
Proof. intros. unfold execute_x64_test_accumulator_immediate. wp_solve. Qed.

Lemma group_f6_safe c0 c i :
  live c0 c -> u64_ok (next_address i) -> wp (execute_x64_group_f6 i) (handler_post c0) c.
Proof. intros. unfold execute_x64_group_f6. wp_solve. Qed.

Lemma group_f7_safe c0 c i :
  live c0 c -> u64_ok (next_address i) -> wp (execute_x64_group_f7 i) (handler_post c0) c.
Proof. intros. unfold execute_x64_group_f7. wp_solve. Qed.

Lemma group83_safe c0 c i :
  live c0 c -> u64_ok (next_address i) -> wp (execute_x64_group83 i) (handler_post c0) c.
Proof. intros. unfold execute_x64_group83. wp_solve. Qed.

Lemma compare_rm_with_register_safe c0 c i :
  live c0 c -> u64_ok (next_address i) -> wp (execute_x64_compare_rm_with_register i) (handler_post c0) c.
Proof. intros. unfold execute_x64_compare_rm_with_register. wp_solve. Qed.

Lemma group81_safe c0 c i :
  live c0 c -> u64_ok (next_address i) -> wp (execute_x64_group81 i) (handler_post c0) c.
Proof. intros. unfold execute_x64_group81. wp_solve. Qed.

End safety.
