(* ===== verification/DataMovementInstructions.v ===== *)
(** [emulator/x64/x64_data_movement_instructions.cpp]: moves, address
    computation, byte compare and the conditional byte set, with the file's own
    memory-operand decoder (the one that records the failure itself). *)
From S2P Require Import Prelude EmulatorTypes ExecutionContext OperandFields.

Section data_movement.
Context {W : Type}.

(** [completion = INVALID_MEMORY_ACCESS; return false;] *)
Definition fail_invalid_memory_access {A} : X W (option A) :=
  set_completion_invalid_memory_access ;; mret None.

Definition try_read_sib_address (i : x64_decoded_instruction) (modrm_address md : Z) : X W (option (Z * Z)) :=
  sib ← read_u8 (u64 (modrm_address + 1));
  match sib with
  | None => fail_invalid_memory_access
  | Some sib =>
      let scale_shift := field_mod sib in
      let index_field := field_reg sib in
      let base_field := field_rm sib in
      let displacement_address := u64 (modrm_address + 2) in
      let scale := Z.shiftl 1 scale_shift in
      index_value ← (if negb (index_field =? 4) || rex_x i
                     then get_register64 (extend index_field (rex_x i)) else mret 0);
      if md =? 0 then
        if (base_field =? 5) && negb (rex_b i) then
          displacement32 ← read_i32 displacement_address;
          match displacement32 with
          | None => fail_invalid_memory_access
          | Some d => mret (Some (u64 (u64 (index_value * scale) + d), u64 (displacement_address + 4)))
          end
        else
          base_value ← get_register64 (extend base_field (rex_b i));
          mret (Some (u64 (base_value + u64 (index_value * scale)), displacement_address))
      else
        displacement ←
          (if md =? 1 then
             displacement8 ← read_i8 displacement_address;
             match displacement8 with
             | None => fail_invalid_memory_access
             | Some d => mret (Some (d, u64 (displacement_address + 1)))
             end
           else if md =? 2 then
             displacement32 ← read_i32 displacement_address;
             match displacement32 with
             | None => fail_invalid_memory_access
             | Some d => mret (Some (d, u64 (displacement_address + 4)))
             end
           else mret None);
        match displacement with
        | None => mret None
        | Some (d, next) =>
            base_value ← get_register64 (extend base_field (rex_b i));
            mret (Some (u64 (u64 (base_value + u64 (index_value * scale)) + d), next))
        end
  end.

(** Returns the values of [out_address] and [out_next_instruction]. *)
Definition try_get_memory_operand_address (i : x64_decoded_instruction) (modrm_address modrm : Z)
    : X W (option (Z * Z)) :=
  let md := field_mod modrm in
  let rm := field_rm modrm in
  let base_register_index := extend rm (rex_b i) in
  if md =? 0 then
    if rm =? 4 then try_read_sib_address i modrm_address md
    else if (rm =? 5) && negb (rex_b i) then
      displacement ← read_i32 (u64 (modrm_address + 1));
      match displacement with
      | None => fail_invalid_memory_access
      | Some d => mret (Some (u64 (u64 (modrm_address + 5) + d), u64 (modrm_address + 5)))
      end
    else
      r ← get_register64 base_register_index;
      mret (Some (r, u64 (modrm_address + 1)))
  else if md =? 1 then
    if rm =? 4 then try_read_sib_address i modrm_address md
    else
      displacement ← read_i8 (u64 (modrm_address + 1));
      match displacement with
      | None => fail_invalid_memory_access
      | Some d =>
          r ← get_register64 base_register_index;
          addr ← signed_add64 (s64 r) d;
          mret (Some (u64 addr, u64 (modrm_address + 2)))
      end
  else if md =? 2 then
    if rm =? 4 then try_read_sib_address i modrm_address md
    else
      displacement ← read_i32 (u64 (modrm_address + 1));
      match displacement with
      | None => fail_invalid_memory_access
      | Some d =>
          r ← get_register64 base_register_index;
          addr ← signed_add64 (s64 r) d;
          mret (Some (u64 addr, u64 (modrm_address + 5)))
      end
  else mret None.

Definition reject_rex_w (i : x64_decoded_instruction) : X W bool :=
  if negb (rex_w i) then mret false
  else set_unsupported_instruction (opcode i) ;; mret true.

(** What every handler does when its memory operand could not be decoded: a
    recorded memory failure stops the instruction, anything else makes it
    unsupported with the given opcode. *)
Definition stop_undecoded_operand (op : Z) : X W x64_instruction_outcome :=
  c ← get;
  if decide (completion (m_result c) = X64_EMULATOR_COMPLETION_INVALID_MEMORY_ACCESS)
  then mret X64_INSTRUCTION_OUTCOME_STOP_RUNNING
  else stop_unsupported op.

Definition execute_x64_mov_immediate32 (i : x64_decoded_instruction) : X W x64_instruction_outcome :=
  rejected ← reject_rex_w i;
  if (rejected : bool) then mret X64_INSTRUCTION_OUTCOME_STOP_RUNNING
  else
    let register_index := extend (opcode i - 0xB8) (rex_b i) in
    immediate ← read_u32 (next_address i);
    match immediate with
    | None => stop_invalid_memory_access
    | Some immediate =>
        set_register32 register_index immediate ;;
        continue_at (u64 (next_address i + 4))
    end.

Definition execute_x64_mov_immediate_to_rm (i : x64_decoded_instruction) : X W x64_instruction_outcome :=
  modrm ← read_u8 (next_address i);
  match modrm with
  | None => stop_invalid_memory_access
  | Some modrm =>
      let md := field_mod modrm in
      let operation := field_reg modrm in
      let rm_register_index := extend (field_rm modrm) (rex_b i) in
      if negb (operation =? 0) then stop_unsupported (opcode i)
      else if md =? 3 then
        immediate ← read_u32 (u64 (next_address i + 1));
        match immediate with
        | None => stop_invalid_memory_access
        | Some immediate =>
            (if rex_w i then set_register64 rm_register_index (u64 (s32 immediate))
             else set_register32 rm_register_index immediate) ;;
            continue_at (u64 (next_address i + 1 + 4))
        end
      else
        operand ← try_get_memory_operand_address i (next_address i) modrm;
        match operand with
        | None => stop_undecoded_operand (opcode i)
        | Some (memory_address, next_instruction) =>
            immediate ← read_u32 next_instruction;
            match immediate with
            | None => stop_invalid_memory_access
            | Some immediate =>
                stored ← (if rex_w i then write_u64 memory_address (u64 (s32 immediate))
                          else write_u32 memory_address immediate);
                if negb stored then stop_invalid_memory_access
                else continue_at (u64 (next_instruction + 4))
            end
        end
  end.

Definition execute_x64_mov_register (i : x64_decoded_instruction) : X W x64_instruction_outcome :=
  modrm ← read_u8 (next_address i);
  match modrm with
  | None => stop_invalid_memory_access
  | Some modrm =>
      let md := field_mod modrm in
      let register_index := extend (field_reg modrm) (rex_r i) in
      let rm_register_index := extend (field_rm modrm) (rex_b i) in
      if md =? 3 then
        if opcode i =? 0x89 then
          (if rex_w i then
             v ← get_register64 register_index; set_register64 rm_register_index v
           else
             v ← get_register32 register_index; set_register32 rm_register_index v) ;;
          continue_at (u64 (next_address i + 1))
        else if opcode i =? 0x8B then
          (if rex_w i then
             v ← get_register64 rm_register_index; set_register64 register_index v
           else
             v ← get_register32 rm_register_index; set_register32 register_index v) ;;
          continue_at (u64 (next_address i + 1))
        else stop_unsupported (opcode i)
      else
        operand ← try_get_memory_operand_address i (next_address i) modrm;
        match operand with
        | None => stop_undecoded_operand (opcode i)
        | Some (memory_address, next_instruction) =>
            if rex_w i then
              if opcode i =? 0x89 then
                v ← get_register64 register_index;
                stored ← write_u64 memory_address v;
                if negb stored then stop_invalid_memory_access else continue_at next_instruction
              else if opcode i =? 0x8B then
                value ← read_u64 memory_address;
                match value with
                | None => stop_invalid_memory_access
                | Some value => set_register64 register_index value ;; continue_at next_instruction
                end
              else stop_unsupported (opcode i)
            else
              if opcode i =? 0x89 then
                v ← get_register32 register_index;
                stored ← write_u32 memory_address v;
                if negb stored then stop_invalid_memory_access else continue_at next_instruction
              else if opcode i =? 0x8B then
                value ← read_u32 memory_address;
                match value with
                | None => stop_invalid_memory_access
                | Some value => set_register32 register_index value ;; continue_at next_instruction
                end
              else stop_unsupported (opcode i)
        end
  end.

Definition execute_x64_lea (i : x64_decoded_instruction) : X W x64_instruction_outcome :=
  modrm ← read_u8 (next_address i);
  match modrm with
  | None => stop_invalid_memory_access
  | Some modrm =>
      let md := field_mod modrm in
      let register_index := extend (field_reg modrm) (rex_r i) in
      if md =? 3 then stop_unsupported (opcode i)
      else
        operand ← try_get_memory_operand_address i (next_address i) modrm;
        match operand with
        | None => stop_undecoded_operand (opcode i)
        | Some (memory_address, next_instruction) =>
            (if rex_w i then set_register64 register_index memory_address
             else set_register32 register_index (u32 memory_address)) ;;
            continue_at next_instruction
        end
  end.

Definition execute_x64_group80 (i : x64_decoded_instruction) : X W x64_instruction_outcome :=
  modrm ← read_u8 (next_address i);
  match modrm with
  | None => stop_invalid_memory_access
  | Some modrm =>
      let md := field_mod modrm in
      let operation := field_reg modrm in
      let register_index := extend (field_rm modrm) (rex_b i) in
      let compare_with_immediate (lhs next_instruction : Z) : X W x64_instruction_outcome :=
        immediate ← read_u8 next_instruction;
        match immediate with
        | None => stop_invalid_memory_access
        | Some immediate =>
            let result_value := u8 (lhs - immediate) in
            set_compare_flags lhs immediate result_value false ;;
            continue_at (u64 (next_instruction + 1))
        end in
      if negb (operation =? 7) then stop_unsupported (opcode i)
      else if md =? 3 then
        lhs ← get_register8_low register_index;
        compare_with_immediate lhs (u64 (next_address i + 1))
      else
        operand ← try_get_memory_operand_address i (next_address i) modrm;
        match operand with
        | None => stop_undecoded_operand (opcode i)
        | Some (memory_address, next_instruction) =>
            lhs ← read_u8 memory_address;
            match lhs with
            | None => stop_invalid_memory_access
            | Some lhs => compare_with_immediate lhs next_instruction
            end
        end
  end.

Definition execute_x64_secondary_setcc (i : x64_decoded_instruction) : X W x64_instruction_outcome :=
  secondary_opcode ← read_u8 (next_address i);
  match secondary_opcode with
  | None => stop_invalid_memory_access
  | Some secondary_opcode =>
      modrm ← read_u8 (u64 (next_address i + 1));
      match modrm with
      | None => stop_invalid_memory_access
      | Some modrm =>
          let md := field_mod modrm in
          let destination_register := extend (field_rm modrm) (rex_b i) in
          if negb (md =? 3) || (negb (secondary_opcode =? 0x94) && negb (secondary_opcode =? 0x95)) then
            stop_unsupported secondary_opcode
          else
            c ← get;
            let zero_flag_set := negb (Z.land (flags (m_state c)) (bit 6) =? 0) in
            let set_condition := if secondary_opcode =? 0x94 then zero_flag_set else negb zero_flag_set in
            set_register8_low destination_register (bool_to_Z set_condition) ;;
            continue_at (u64 (next_address i + 2))
      end
  end.

Definition execute_x64_secondary_movzx_byte (i : x64_decoded_instruction) : X W x64_instruction_outcome :=
  modrm ← read_u8 (u64 (next_address i + 1));
  match modrm with
  | None => stop_invalid_memory_access
  | Some modrm =>
      let md := field_mod modrm in
      let destination_register := extend (field_reg modrm) (rex_r i) in
      let source_register := extend (field_rm modrm) (rex_b i) in
      if md =? 3 then
        value ← get_register8_low source_register;
        set_register32 destination_register value ;;
        continue_at (u64 (next_address i + 2))
      else
        operand ← try_get_memory_operand_address i (u64 (next_address i + 1)) modrm;
        match operand with
        | None => stop_undecoded_operand 0xB6
        | Some (memory_address, next_instruction) =>
            value ← read_u8 memory_address;
            match value with
            | None => stop_invalid_memory_access
            | Some value =>
                set_register32 destination_register value ;;
                continue_at next_instruction
            end
        end
  end.

Definition execute_x64_nop (i : x64_decoded_instruction) : X W x64_instruction_outcome :=
  rejected ← reject_rex_w i;
  if (rejected : bool) then mret X64_INSTRUCTION_OUTCOME_STOP_RUNNING
  else continue_at (next_address i).
End data_movement.

(** * Safety *)

Section safety.
Context {W : Type}.
Implicit Types c : x64_execution_context W.

Lemma wp_fail_invalid_memory_access {A} c0 c (Q : option A -> x64_execution_context W -> Prop) :
  faulted c0 c -> (forall c', faulted c0 c' -> Q None c') -> wp fail_invalid_memory_access Q c.
Proof.
  intros [He (Hr & Hc & Hf)] HQ. apply wp_bind, wp_modify, wp_ret, HQ.
  split; [by apply env_ok_with_result|by split_and!].
Qed.

(** A decoding failure always comes with a recorded fault, so the handlers'
    test of the completion field takes the first branch. *)
Lemma wp_stop_undecoded_operand c0 c op Q :
  faulted c0 c -> (forall c', handler_post c0 X64_INSTRUCTION_OUTCOME_STOP_RUNNING c' ->
                              Q X64_INSTRUCTION_OUTCOME_STOP_RUNNING c') ->
  wp (stop_undecoded_operand op) Q c.
Proof.
  intros [He (Hr & Hc & Hf)] HQ. unfold stop_undecoded_operand. apply wp_bind, wp_get.
  rewrite decide_True by done. apply wp_ret, HQ. split; [done|]. left. by split_and!.
Qed.

Ltac wp_component ::=
  lazymatch goal with
  | |- wp fail_invalid_memory_access _ _ => eapply wp_fail_invalid_memory_access; [wp_side|]; intros ? ?
  end.

Lemma wp_try_read_sib_address c0 c i a md Q :
  live c0 c -> u64_ok a -> 0 <= md < 3 -> (forall addr n, u64_ok addr -> u64_ok n -> Q (Some (addr, n)) c) ->
  (forall c', faulted c0 c' -> Q None c') -> wp (try_read_sib_address i a md) Q c.
Proof.
  intros Hl Ha Hmd HS HN. unfold try_read_sib_address. wp_solve.
  all: first [by apply HN | apply HS; by auto with words | bool_hyps; lia].
Qed.

Ltac wp_component ::=
  lazymatch goal with
  | |- wp fail_invalid_memory_access _ _ => eapply wp_fail_invalid_memory_access; [wp_side|]; intros ? ?
  | |- wp (try_read_sib_address _ _ _) _ _ =>
      eapply wp_try_read_sib_address; [wp_side|wp_side|bool_hyps; lia|intros ? ? ? ?|intros ? ?]
  end.

Lemma wp_try_get_memory_operand_address c0 c i a modrm Q :
  live c0 c -> u64_ok a -> (field_mod modrm =? 3) = false ->
  (forall addr n, u64_ok addr -> u64_ok n -> Q (Some (addr, n)) c) ->
  (forall c', faulted c0 c' -> Q None c') -> wp (try_get_memory_operand_address i a modrm) Q c.
Proof.
  intros Hl Ha Hmd HS HN. unfold try_get_memory_operand_address. wp_solve.
  all: first [by apply HN | apply HS; by auto with words
             | pose proof (field_mod_range modrm); bool_hyps; lia].
Qed.

Ltac wp_component ::=
  lazymatch goal with
  | |- wp (try_get_memory_operand_address _ _ _) _ _ =>
      eapply wp_try_get_memory_operand_address; [wp_side|wp_side|wp_side|intros ? ? ? ?|intros ? ?]
  | |- wp (stop_undecoded_operand _) _ _ => eapply wp_stop_undecoded_operand; [wp_side|]; intros ? ?
  | |- _ => progress unfold reject_rex_w
  end.

Lemma mov_immediate32_safe c0 c i :
  live c0 c -> u64_ok (next_address i) -> 0xB8 <= opcode i <= 0xBF -> wp (execute_x64_mov_immediate32 i) (handler_post c0) c.
Proof. intros. unfold execute_x64_mov_immediate32. wp_solve. Qed.

Lemma mov_immediate_to_rm_safe c0 c i :
  live c0 c -> u64_ok (next_address i) -> wp (execute_x64_mov_immediate_to_rm i) (handler_post c0) c.
Proof. intros. unfold execute_x64_mov_immediate_to_rm. wp_solve. Qed.

Lemma mov_register_safe c0 c i :
  live c0 c -> u64_ok (next_address i) -> wp (execute_x64_mov_register i) (handler_post c0) c.
Proof. intros. unfold execute_x64_mov_register. wp_solve. Qed.

Lemma lea_safe c0 c i :
  live c0 c -> u64_ok (next_address i) -> wp (execute_x64_lea i) (handler_post c0) c.
Proof. intros. unfold execute_x64_lea. wp_solve. Qed.

Lemma group80_safe c0 c i :
  live c0 c -> u64_ok (next_address i) -> wp (execute_x64_group80 i) (handler_post c0) c.
Proof. intros. unfold execute_x64_group80. wp_solve. Qed.

Lemma secondary_setcc_safe c0 c i :
  live c0 c -> u64_ok (next_address i) -> wp (execute_x64_secondary_setcc i) (handler_post c0) c.
Proof. intros. unfold execute_x64_secondary_setcc. wp_solve. Qed.

Lemma secondary_movzx_byte_safe c0 c i :
  live c0 c -> u64_ok (next_address i) -> wp (execute_x64_secondary_movzx_byte i) (handler_post c0) c.
Proof. intros. unfold execute_x64_secondary_movzx_byte. wp_solve. Qed.

Lemma nop_safe c0 c i :
  live c0 c -> u64_ok (next_address i) -> wp (execute_x64_nop i) (handler_post c0) c.
Proof. intros. unfold execute_x64_nop. wp_solve. Qed.

End safety.
