(* ===== verification/StackInstructions.v ===== *)
(** [emulator/x64/x64_stack_instructions.cpp]: PUSH and POP of a register. *)
From S2P Require Import Prelude EmulatorTypes ExecutionContext OperandFields.

Section stack.
Context {W : Type}.

Definition reject_rex_w (i : x64_decoded_instruction) : X W bool :=
  if negb (rex_w i) then mret false
  else set_unsupported_instruction (opcode i) ;; mret true.

Definition execute_x64_push_register (i : x64_decoded_instruction) : X W x64_instruction_outcome :=
  rejected ← reject_rex_w i;
  if (rejected : bool) then mret X64_INSTRUCTION_OUTCOME_STOP_RUNNING
  else
    let register_index := extend (opcode i - 0x50) (rex_b i) in
    value ← get_register64 register_index;
    pushed ← push_u64 value;
    if negb pushed then stop_invalid_memory_access
    else continue_at (next_address i).

Definition execute_x64_pop_register (i : x64_decoded_instruction) : X W x64_instruction_outcome :=
  rejected ← reject_rex_w i;
  if (rejected : bool) then mret X64_INSTRUCTION_OUTCOME_STOP_RUNNING
  else
    let register_index := extend (opcode i - 0x58) (rex_b i) in
    value ← pop_u64;
    match value with
    | None => stop_invalid_memory_access
    | Some value =>
        set_register64 register_index value ;;
        continue_at (next_address i)
    end.
End stack.

(** The handlers never leave the guest's registers or memory window, and end in
    one of the three conditions of [handler_post]. *)
Section safety.
Context {W : Type}.
Implicit Types c : x64_execution_context W.

Ltac wp_component ::= unfold reject_rex_w.

Lemma push_register_safe c0 c i :
  live c0 c -> u64_ok (next_address i) -> 0x50 <= opcode i <= 0x57 ->
  wp (execute_x64_push_register i) (handler_post c0) c.
Proof. intros. unfold execute_x64_push_register. wp_solve. Qed.

Lemma pop_register_safe c0 c i :
  live c0 c -> u64_ok (next_address i) -> 0x58 <= opcode i <= 0x5F ->
  wp (execute_x64_pop_register i) (handler_post c0) c.
Proof. intros. unfold execute_x64_pop_register. wp_solve. Qed.
End safety.
