(* ===== verification/ControlFlowInstructions.v ===== *)
(** [emulator/x64/x64_control_flow_instructions.cpp]: returns, calls, jumps and
    the increment / decrement / indirect-call group. *)
From S2P Require Import Prelude EmulatorTypes ExecutionContext OperandFields.

Definition inc_dec_flags (old lhs result : Z) (is_decrement is_64_bit : bool) : Z :=
  let width_mask := if is_64_bit then UINT64_MAX else UINT32_MAX in
  let sign_mask := if is_64_bit then bit 63 else bit 31 in
  let masked_lhs := Z.land lhs width_mask in
  let masked_result := Z.land result width_mask in
  let f := Z.lor (Z.land old RFLAGS_CARRY) RFLAGS_RESERVED in
  let f := or_if (masked_result =? 0) RFLAGS_ZERO f in
  let f := or_if (negb (Z.land masked_result sign_mask =? 0)) RFLAGS_SIGN f in
  let lhs_sign := negb (Z.land masked_lhs sign_mask =? 0) in
  let result_sign := negb (Z.land masked_result sign_mask =? 0) in
  let overflow := if is_decrement then lhs_sign && negb result_sign else negb lhs_sign && result_sign in
  or_if overflow RFLAGS_OVERFLOW f.

Section control_flow.
Context {W : Type}.

Definition set_inc_dec_flags (lhs result : Z) (is_decrement is_64_bit : bool) : X W unit :=
  modify_state (fun s => set_flags s (inc_dec_flags (flags s) lhs result is_decrement is_64_bit)).

Definition reject_rex_w (i : x64_decoded_instruction) : X W bool :=
  if negb (rex_w i) then mret false
  else set_unsupported_instruction (opcode i) ;; mret true.

Definition execute_x64_return (i : x64_decoded_instruction) : X W x64_instruction_outcome :=
  rejected ← reject_rex_w i;
  if (rejected : bool) then mret X64_INSTRUCTION_OUTCOME_STOP_RUNNING
  else
    return_address ← pop_u64;
    match return_address with
    | None => stop_invalid_memory_access
    | Some return_address => continue_at return_address
    end.

Definition execute_x64_call_relative (i : x64_decoded_instruction) : X W x64_instruction_outcome :=
  rejected ← reject_rex_w i;
  if (rejected : bool) then mret X64_INSTRUCTION_OUTCOME_STOP_RUNNING
  else
    displacement ← read_i32 (next_address i);
    match displacement with
    | None => stop_invalid_memory_access
    | Some displacement =>
        let return_address := u64 (next_address i + 4) in
        pushed ← push_u64 return_address;
        if negb pushed then stop_invalid_memory_access
        else continue_at (u64 (return_address + displacement))
    end.

Definition execute_x64_group_ff (i : x64_decoded_instruction) : X W x64_instruction_outcome :=
  modrm ← read_u8 (next_address i);
  match modrm with
  | None => stop_invalid_memory_access
  | Some modrm =>
      let md := field_mod modrm in
      let operation := field_reg modrm in
      let rm := field_rm modrm in
      let rm_register_index := extend rm (rex_b i) in
      let call_target (target_address return_address : Z) : X W x64_instruction_outcome :=
        pushed ← push_u64 return_address;
        if negb pushed then stop_invalid_memory_access
        else continue_at target_address in
      if (operation =? 0) || (operation =? 1) then
        if negb (md =? 3) then stop_unsupported (opcode i)
        else
          (if rex_w i then
             lhs ← get_register64 rm_register_index;
             let result := if operation =? 0 then u64 (lhs + 1) else u64 (lhs - 1) in
             set_register64 rm_register_index result ;;
             set_inc_dec_flags lhs result (operation =? 1) true
           else
             lhs ← get_register32 rm_register_index;
             let result := if operation =? 0 then u32 (lhs + 1) else u32 (lhs - 1) in
             set_register32 rm_register_index result ;;
             set_inc_dec_flags lhs result (operation =? 1) false) ;;
          continue_at (u64 (next_address i + 1))
      else if negb (operation =? 2) then stop_unsupported (opcode i)
      else if md =? 3 then
        target_address ← get_register64 rm_register_index;
        call_target target_address (u64 (next_address i + 1))
      else if (md =? 0) && (rm =? 5) && negb (rex_b i) then
        displacement ← read_i32 (u64 (next_address i + 1));
        match displacement with
        | None => stop_invalid_memory_access
        | Some displacement =>
            let memory_address := u64 (u64 (next_address i + 5) + displacement) in
            loaded_target ← read_u64 memory_address;
            match loaded_target with
            | None => stop_invalid_memory_access
            | Some loaded_target => call_target loaded_target (u64 (next_address i + 5))
            end
        end
      else stop_unsupported (opcode i)
  end.

Definition execute_x64_jump_relative_near (i : x64_decoded_instruction) : X W x64_instruction_outcome :=
  rejected ← reject_rex_w i;
  if (rejected : bool) then mret X64_INSTRUCTION_OUTCOME_STOP_RUNNING
  else
    displacement ← read_i32 (next_address i);
    match displacement with
    | None => stop_invalid_memory_access
    | Some displacement => continue_at (u64 (next_address i + 4 + displacement))
    end.

Definition execute_x64_jump_relative_short (i : x64_decoded_instruction) : X W x64_instruction_outcome :=
  rejected ← reject_rex_w i;
  if (rejected : bool) then mret X64_INSTRUCTION_OUTCOME_STOP_RUNNING
  else
    displacement ← read_i8 (next_address i);
    match displacement with
    | None => stop_invalid_memory_access
    | Some displacement => continue_at (u64 (next_address i + 1 + displacement))
    end.

Definition execute_x64_jump_short_condition (i : x64_decoded_instruction) : X W x64_instruction_outcome :=
  rejected ← reject_rex_w i;
  if (rejected : bool) then mret X64_INSTRUCTION_OUTCOME_STOP_RUNNING
  else
    displacement ← read_i8 (next_address i);
    match displacement with
    | None => stop_invalid_memory_access
    | Some displacement =>
        c ← get;
        let zero_flag_set := negb (Z.land (flags (m_state c)) RFLAGS_ZERO =? 0) in
        let take_branch := if opcode i =? 0x74 then zero_flag_set else negb zero_flag_set in
        continue_at (if take_branch then u64 (next_address i + 1 + displacement) else u64 (next_address i + 1))
    end.

Definition execute_x64_jump_near_condition (i : x64_decoded_instruction) : X W x64_instruction_outcome :=
  secondary_opcode ← read_u8 (next_address i);
  match secondary_opcode with
  | None => stop_invalid_memory_access
  | Some secondary_opcode =>
      displacement ← read_i32 (u64 (next_address i + 1));
      match displacement with
      | None => stop_invalid_memory_access
      | Some displacement =>
          c ← get;
          let zero_flag_set := negb (Z.land (flags (m_state c)) RFLAGS_ZERO =? 0) in
          let take_branch := if secondary_opcode =? 0x84 then zero_flag_set else negb zero_flag_set in
          continue_at (if take_branch then u64 (next_address i + 1 + 4 + displacement)
                       else u64 (next_address i + 1 + 4))
      end
  end.
End control_flow.

Lemma inc_dec_flags_u64 old lhs result d b : u64_ok old -> u64_ok (inc_dec_flags old lhs result d b).
Proof.
  intros. unfold inc_dec_flags. cbv zeta.
  assert (u64_ok (Z.lor (Z.land old RFLAGS_CARRY) RFLAGS_RESERVED)) by (apply u64_lor; [apply u64_land|]; auto with words).
  auto 7 with words.
Qed.

Section safety.
Context {W : Type}.
Implicit Types c : x64_execution_context W.

Lemma wp_set_inc_dec_flags c0 c l r d b Q :
  live c0 c -> (forall c', live c0 c' -> Q tt c') -> wp (set_inc_dec_flags l r d b) Q c.
Proof. intros. eapply (wp_set_flags c0 c (fun o => inc_dec_flags o l r d b)); auto using inc_dec_flags_u64. Qed.

Ltac wp_component ::=
  first [ progress unfold reject_rex_w
        | eapply wp_set_inc_dec_flags; [wp_side|]; intros ? ? ].

Lemma return_safe c0 c i :
  live c0 c -> u64_ok (next_address i) -> wp (execute_x64_return i) (handler_post c0) c.
Proof. intros. unfold execute_x64_return. wp_solve. Qed.

Lemma call_relative_safe c0 c i :
  live c0 c -> u64_ok (next_address i) -> wp (execute_x64_call_relative i) (handler_post c0) c.
Proof. intros. unfold execute_x64_call_relative. wp_solve. Qed.

Lemma group_ff_safe c0 c i :
  live c0 c -> u64_ok (next_address i) -> wp (execute_x64_group_ff i) (handler_post c0) c.
Proof. intros. unfold execute_x64_group_ff. wp_solve. Qed.

Lemma jump_relative_near_safe c0 c i :
  live c0 c -> u64_ok (next_address i) -> wp (execute_x64_jump_relative_near i) (handler_post c0) c.
Proof. intros. unfold execute_x64_jump_relative_near. wp_solve. Qed.

Lemma jump_relative_short_safe c0 c i :
  live c0 c -> u64_ok (next_address i) -> wp (execute_x64_jump_relative_short i) (handler_post c0) c.
Proof. intros. unfold execute_x64_jump_relative_short. wp_solve. Qed.

Lemma jump_short_condition_safe c0 c i :
  live c0 c -> u64_ok (next_address i) -> wp (execute_x64_jump_short_condition i) (handler_post c0) c.
Proof. intros. unfold execute_x64_jump_short_condition. wp_solve. Qed.

Lemma jump_near_condition_safe c0 c i :
  live c0 c -> u64_ok (next_address i) -> wp (execute_x64_jump_near_condition i) (handler_post c0) c.
Proof. intros. unfold execute_x64_jump_near_condition. wp_solve. Qed.
End safety.
