(* ===== verification/SystemInstructions.v ===== *)
(** [emulator/x64/x64_system_instructions.cpp]: SYSCALL, the multi-byte NOP and
    the handler of every opcode without one. *)
From S2P Require Import Prelude EmulatorTypes ExecutionContext OperandFields.

Section system.
Context {W : Type}.

(** Returns the value of [out_next_instruction]. *)
Definition try_skip_modrm_operand (i : x64_decoded_instruction) (modrm_address : Z) : X W (option Z) :=
  modrm ← read_u8 modrm_address;
  match modrm with
  | None => mret None
  | Some modrm =>
      let md := field_mod modrm in
      let operation := field_reg modrm in
      let rm := field_rm modrm in
      let next_instruction := u64 (modrm_address + 1) in
      let skip_displacement (next_instruction : Z) : X W (option Z) :=
        if md =? 1 then
          displacement ← read_u8 next_instruction;
          match displacement with
          | None => mret None
          | Some _ => mret (Some (u64 (next_instruction + 1)))
          end
        else if md =? 2 then
          displacement ← read_u32 next_instruction;
          match displacement with
          | None => mret None
          | Some _ => mret (Some (u64 (next_instruction + 4)))
          end
        else mret (Some next_instruction) in
      if negb (operation =? 0) then mret None
      else if md =? 3 then mret (Some next_instruction)
      else if rm =? 4 then
        sib ← read_u8 next_instruction;
        match sib with
        | None => mret None
        | Some sib =>
            let next_instruction := u64 (next_instruction + 1) in
            let base := field_rm sib in
            if (md =? 0) && (base =? 5) && negb (rex_b i) then
              displacement ← read_u32 next_instruction;
              match displacement with
              | None => mret None
              | Some _ => skip_displacement (u64 (next_instruction + 4))
              end
            else skip_displacement next_instruction
        end
      else if (md =? 0) && (rm =? 5) && negb (rex_b i) then
        displacement ← read_u32 next_instruction;
        match displacement with
        | None => mret None
        | Some _ => skip_displacement (u64 (next_instruction + 4))
        end
      else skip_displacement next_instruction
  end.

Definition execute_x64_unsupported (i : x64_decoded_instruction) : X W x64_instruction_outcome :=
  stop_unsupported (opcode i).

(** [handle_syscall(callbacks.context, state)]: calls through the pointer, with
    the world and the guest buffer the callee can reach. *)
Definition call_handle_syscall : X W x64_emulator_syscall_result :=
  c ← get;
  match handle_syscall (m_callbacks c) with
  | None => undefined null_dereference
  | Some handler =>
      let '(result, w, b) := handler (m_world c) (m_state c) (bytes (m_memory c)) in
      modify (fun c => with_bytes (with_world c w) b) ;;
      mret result
  end.

Definition execute_x64_syscall (i : x64_decoded_instruction) : X W x64_instruction_outcome :=
  set_instruction_pointer (u64 (next_address i + 1)) ;;
  syscall_result ← call_handle_syscall;
  set_register64 (register_index X64_GENERAL_REGISTER_RAX) (u64 (status syscall_result)) ;;
  if decide (action syscall_result = X64_EMULATOR_SYSCALL_ACTION_EXIT_THREAD) then
    set_thread_exited ;; mret X64_INSTRUCTION_OUTCOME_RETIRE_AND_STOP
  else if decide (action syscall_result = X64_EMULATOR_SYSCALL_ACTION_YIELD) then
    set_yielded ;; mret X64_INSTRUCTION_OUTCOME_RETIRE_AND_STOP
  else mret X64_INSTRUCTION_OUTCOME_CONTINUE_RUNNING.

Definition execute_x64_secondary_nop (i : x64_decoded_instruction) : X W x64_instruction_outcome :=
  next_instruction ← try_skip_modrm_operand i (u64 (next_address i + 1));
  match next_instruction with
  | None => stop_unsupported 0x1F
  | Some next_instruction => continue_at next_instruction
  end.
End system.

Section safety.
Context {W : Type}.
Implicit Types c : x64_execution_context W.

Lemma wp_try_skip_modrm_operand c0 c i a Q :
  live c0 c -> u64_ok a -> (forall n, u64_ok n -> Q (Some n) c) -> (forall c', env_ok c0 c' -> Q None c') ->
  wp (try_skip_modrm_operand i a) Q c.
Proof.
  intros Hl Ha HS HN. unfold try_skip_modrm_operand. wp_solve.
  all: first [apply HN; by eauto using live_env, faulted_env | apply HS; auto with words].
Qed.

Lemma wp_set_ip c0 c ip Q :
  live c0 c -> u64_ok ip -> (forall c', live c0 c' -> Q tt c') -> wp (set_instruction_pointer ip) Q c.
Proof.
  intros Hl Hip HQ. apply wp_modify, HQ, live_with_state; [done|]. apply state_wf_set_ip; [|done]. apply Hl.
Qed.

(** The callback may replace the window's bytes and the world, and nothing else. *)
Lemma wp_call_handle_syscall c0 c Q :
  live c0 c -> (forall r c', called c0 (action r) c' -> live c' c' -> s32_ok (status r) -> Q r c') -> wp call_handle_syscall Q c.
Proof.
  intros Hl HQ. pose proof Hl as [[[Hs [_ _ Hb] (handler & Hh & Hpost) _] _] _].
  unfold call_handle_syscall. apply wp_bind, wp_get. rewrite Hh.
  specialize (Hpost (m_world c) _ _ Hs Hb).
  destruct (handler (m_world c) (m_state c) (bytes (m_memory c))) as [[r w] b] eqn:E.
  destruct Hpost as [Hst Hbuf]. destruct Hl as [[[H1 [] H3 H4] Hsame] Hrun].
  apply wp_bind, wp_modify, wp_ret, HQ; [| |done].
  - pose proof Hsame as [? Hsz Hcb ? ? Hw]. constructor; [by constructor|done|].
    exists handler, (m_state c), (bytes (m_memory c)). rewrite <- Hw, E, <- Hcb, <- Hsz. by split_and!.
  - apply live_self; [|done]. constructor; [done|by constructor|done|done].
Qed.

Lemma wp_set_thread_exited c0 c1 c (Q : unit -> _ -> Prop) :
  called c0 X64_EMULATOR_SYSCALL_ACTION_EXIT_THREAD c1 -> live c1 c ->
  (forall c', handler_post c0 X64_INSTRUCTION_OUTCOME_RETIRE_AND_STOP c' -> Q tt c') ->
  wp set_thread_exited Q c.
Proof.
  intros Hc Hl HQ. apply wp_modify, HQ. exists c1, X64_EMULATOR_SYSCALL_ACTION_EXIT_THREAD.
  split_and!; [done|done|by apply env_ok_with_result; [apply Hl|]|by split_and!].
Qed.

Lemma wp_set_yielded c0 c1 c (Q : unit -> _ -> Prop) :
  called c0 X64_EMULATOR_SYSCALL_ACTION_YIELD c1 -> live c1 c ->
  (forall c', handler_post c0 X64_INSTRUCTION_OUTCOME_RETIRE_AND_STOP c' -> Q tt c') ->
  wp set_yielded Q c.
Proof.
  intros Hc Hl HQ. apply wp_modify, HQ. exists c1, X64_EMULATOR_SYSCALL_ACTION_YIELD.
  split_and!; [done|done|by apply env_ok_with_result; [apply Hl|]|by split_and!].
Qed.

Ltac wp_component ::=
  lazymatch goal with
  | |- wp (try_skip_modrm_operand _ _) _ _ => eapply wp_try_skip_modrm_operand; [wp_side|wp_side|intros ? ?|intros ? ?]
  | |- wp (set_instruction_pointer _) _ _ => eapply wp_set_ip; [wp_side|wp_side|]; intros ? ?
  | |- wp call_handle_syscall _ _ => eapply wp_call_handle_syscall; [wp_side|]; intros ? ? ? ? ?
  end.

Lemma unsupported_safe c0 c i : live c0 c -> wp (execute_x64_unsupported i) (handler_post c0) c.
Proof. intros. unfold execute_x64_unsupported. wp_solve. Qed.

Lemma syscall_safe c0 c i :
  live c0 c -> u64_ok (next_address i) -> wp (execute_x64_syscall i) (handler_post c0) c.
Proof.
  intros Hl Hi. unfold execute_x64_syscall. wp_step. wp_step. wp_step. wp_step.
  match goal with Hc : called c0 (action ?r) ?c1, Hl1 : live ?c1 ?c1 |- _ => rename Hc into Hcalled, Hl1 into Hlive end.
  wp_step. eapply wp_set_register64; [exact Hlive|wp_side|wp_side|]. intros c3 Hl3.
  destruct (action _) eqn:Ha.
  - rewrite !decide_False by done. apply wp_ret. right. by eexists.
  - rewrite decide_False, decide_True by done. wp_step. eapply wp_set_yielded; [done|done|]. intros c4 Hpost. by apply wp_ret.
  - rewrite decide_True by done. wp_step. eapply wp_set_thread_exited; [done|done|]. intros c4 Hpost. by apply wp_ret.
Qed.

Lemma secondary_nop_safe c0 c i :
  live c0 c -> u64_ok (next_address i) -> wp (execute_x64_secondary_nop i) (handler_post c0) c.
Proof. intros. unfold execute_x64_secondary_nop. wp_solve. Qed.
End safety.
