(* ===== verification/SimdInstructions.v ===== *)
(** [emulator/x64/x64_simd_instructions.cpp]: the SSE subset and its ModRM
    operand decoder. *)
From S2P Require Import Prelude EmulatorTypes ExecutionContext OperandFields.

Record x64_decoded_modrm_operand := {
  mod_field : Z;
  reg_index : Z;
  rm_index : Z;
  rm_is_register : bool;
  rm_address : Z;
  next_instruction : Z;
}.

Definition with_address (o : x64_decoded_modrm_operand) (addr next : Z) : x64_decoded_modrm_operand :=
  {| mod_field := mod_field o; reg_index := reg_index o; rm_index := rm_index o;
     rm_is_register := rm_is_register o; rm_address := addr; next_instruction := next |}.

(** The loops over the bytes of a register.  [indices n] are the values the loop
    counter takes. *)
Definition indices (n : nat) : list nat := seq 0 n.

Definition xor_bytes (destination source : x64_simd_register) : x64_simd_register :=
  foldl (fun d index => <[index := Z.lxor (d !!! index) (source !!! index)]> d) destination (indices 16).

Definition zero_simd_register (value : x64_simd_register) : x64_simd_register :=
  foldl (fun v index => <[index := 0]> v) value (indices 16).

Definition unpack_low_bytes (original_destination source : x64_simd_register) : x64_simd_register :=
  foldl (fun r index => <[(index * 2 + 1)%nat := source !!! index]>
                          (<[(index * 2)%nat := original_destination !!! index]> r))
        (replicate 16 0) (indices 8).

(** The two shuffle loops: four groups of [width] bytes each. *)
Definition shuffle_groups (width : nat) (immediate : Z) (source : x64_simd_register) : x64_simd_register :=
  foldl (fun r index =>
           let source_index := Z.to_nat (Z.land (Z.shiftr immediate (Z.of_nat index * 2)) 0x3) in
           splice (index * width) (slice (source_index * width) width source) r)
        source (indices 4).

Section simd.
Context {W : Type}.

(** Returns the values of [out_address] and [out_next_instruction]. *)
Definition try_read_sib_operand_address (i : x64_decoded_instruction) (modrm_address md : Z)
    : X W (option (Z * Z)) :=
  sib ← read_u8 (u64 (modrm_address + 1));
  match sib with
  | None => mret None
  | Some sib =>
      let scale_shift := field_mod sib in
      let index_field := field_reg sib in
      let base_field := field_rm sib in
      let displacement_address := u64 (modrm_address + 2) in
      let scale := Z.shiftl 1 scale_shift in
      index_value ← (if negb (index_field =? 4) || rex_x i
                     then get_register64 (extend index_field (rex_x i)) else mret 0);
      if md =? 0 then
        if (base_field =? 5) && negb (rex_b i) then
          displacement32 ← read_i32 displacement_address;
          match displacement32 with
          | None => mret None
          | Some d => mret (Some (u64 (u64 (index_value * scale) + d), u64 (displacement_address + 4)))
          end
        else
          base_value ← get_register64 (extend base_field (rex_b i));
          mret (Some (u64 (base_value + u64 (index_value * scale)), displacement_address))
      else
        displacement ←
          (if md =? 1 then
             displacement8 ← read_i8 displacement_address;
             mret ((fun d => (d, u64 (displacement_address + 1))) <$> displacement8)
           else if md =? 2 then
             displacement32 ← read_i32 displacement_address;
             mret ((fun d => (d, u64 (displacement_address + 4))) <$> displacement32)
           else mret None);
        match displacement with
        | None => mret None
        | Some (d, next) =>
            base_value ← get_register64 (extend base_field (rex_b i));
            mret (Some (u64 (u64 (base_value + u64 (index_value * scale)) + d), next))
        end
  end.

Definition try_decode_modrm_operand (i : x64_decoded_instruction) (modrm_address : Z)
    : X W (option x64_decoded_modrm_operand) :=
  modrm ← read_u8 modrm_address;
  match modrm with
  | None => mret None
  | Some modrm =>
      let md := field_mod modrm in
      let rm := field_rm modrm in
      let index := extend rm (rex_b i) in
      let operand := {| mod_field := md; reg_index := extend (field_reg modrm) (rex_r i); rm_index := index;
                        rm_is_register := md =? 3; rm_address := 0;
                        next_instruction := u64 (modrm_address + 1) |} in
      if md =? 3 then mret (Some operand)
      else if rm =? 4 then
        a ← try_read_sib_operand_address i modrm_address md;
        mret ((fun '(addr, next) => with_address operand addr next) <$> a)
      else if md =? 0 then
        if (rm =? 5) && negb (rex_b i) then
          displacement ← read_i32 (u64 (modrm_address + 1));
          match displacement with
          | None => mret None
          | Some d =>
              mret (Some (with_address operand (u64 (u64 (modrm_address + 5) + d)) (u64 (modrm_address + 5))))
          end
        else
          r ← get_register64 index;
          mret (Some (with_address operand r (next_instruction operand)))
      else if md =? 1 then
        displacement ← read_i8 (u64 (modrm_address + 1));
        match displacement with
        | None => mret None
        | Some d =>
            r ← get_register64 index;
            addr ← signed_add64 (s64 r) d;
            mret (Some (with_address operand (u64 addr) (u64 (modrm_address + 2))))
        end
      else if md =? 2 then
        displacement ← read_i32 (u64 (modrm_address + 1));
        match displacement with
        | None => mret None
        | Some d =>
            r ← get_register64 index;
            addr ← signed_add64 (s64 r) d;
            mret (Some (with_address operand (u64 addr) (u64 (modrm_address + 5))))
        end
      else mret None
  end.

Definition try_read_simd_operand (operand : x64_decoded_modrm_operand) : X W (option x64_simd_register) :=
  if rm_is_register operand then r ← get_simd_register (rm_index operand); mret (Some r)
  else read_u128 (rm_address operand).

Definition try_read_rm32_operand (operand : x64_decoded_modrm_operand) : X W (option Z) :=
  if rm_is_register operand then r ← get_register32 (rm_index operand); mret (Some r)
  else read_u32 (rm_address operand).

Definition fail_invalid_memory : X W x64_instruction_outcome :=
  set_completion_invalid_memory_access ;;
  mret X64_INSTRUCTION_OUTCOME_STOP_RUNNING.

Definition try_read_secondary_opcode (i : x64_decoded_instruction) : X W (option Z) :=
  read_u8 (next_address i).

Definition execute_x64_secondary_mov_xmm (i : x64_decoded_instruction) : X W x64_instruction_outcome :=
  if prefix_66 i || prefix_f2 i || prefix_f3 i then stop_unsupported 0x10
  else
    operand ← try_decode_modrm_operand i (u64 (next_address i + 1));
    match operand with
    | None => fail_invalid_memory
    | Some operand =>
        source ← try_read_simd_operand operand;
        match source with
        | None => fail_invalid_memory
        | Some source =>
            set_simd_register (reg_index operand) source ;;
            continue_at (next_instruction operand)
        end
    end.

Definition execute_x64_secondary_store_xmm (i : x64_decoded_instruction) : X W x64_instruction_outcome :=
  secondary_opcode ← try_read_secondary_opcode i;
  match secondary_opcode with
  | None => fail_invalid_memory
  | Some secondary_opcode =>
      let is_movups := (secondary_opcode =? 0x11) && negb (prefix_66 i) && negb (prefix_f2 i) && negb (prefix_f3 i) in
      let is_movaps := (secondary_opcode =? 0x29) && negb (prefix_66 i) && negb (prefix_f2 i) && negb (prefix_f3 i) in
      let is_movdqu := (secondary_opcode =? 0x7F) && prefix_f3 i && negb (prefix_66 i) && negb (prefix_f2 i) in
      if negb is_movups && negb is_movaps && negb is_movdqu then stop_unsupported secondary_opcode
      else
        operand ← try_decode_modrm_operand i (u64 (next_address i + 1));
        match operand with
        | None => fail_invalid_memory
        | Some operand =>
            value ← get_simd_register (reg_index operand);
            stored ← (if rm_is_register operand then set_simd_register (rm_index operand) value ;; mret true
                      else write_u128 (rm_address operand) value);
            if negb stored then fail_invalid_memory
            else continue_at (next_instruction operand)
        end
  end.

Definition execute_x64_secondary_xorps (i : x64_decoded_instruction) : X W x64_instruction_outcome :=
  if prefix_66 i || prefix_f2 i || prefix_f3 i then stop_unsupported 0x57
  else
    operand ← try_decode_modrm_operand i (u64 (next_address i + 1));
    match operand with
    | None => fail_invalid_memory
    | Some operand =>
        source ← try_read_simd_operand operand;
        match source with
        | None => fail_invalid_memory
        | Some source =>
            destination ← get_simd_register (reg_index operand);
            set_simd_register (reg_index operand) (xor_bytes destination source) ;;
            continue_at (next_instruction operand)
        end
    end.

Definition execute_x64_secondary_movd (i : x64_decoded_instruction) : X W x64_instruction_outcome :=
  if negb (prefix_66 i) || prefix_f2 i || prefix_f3 i then stop_unsupported 0x6E
  else
    operand ← try_decode_modrm_operand i (u64 (next_address i + 1));
    match operand with
    | None => fail_invalid_memory
    | Some operand =>
        source ← try_read_rm32_operand operand;
        match source with
        | None => fail_invalid_memory
        | Some source =>
            destination ← get_simd_register (reg_index operand);
            set_simd_register (reg_index operand) (splice 0 (le_encode 4 source) (zero_simd_register destination)) ;;
            continue_at (next_instruction operand)
        end
    end.

Definition execute_x64_secondary_punpcklbw (i : x64_decoded_instruction) : X W x64_instruction_outcome :=
  if negb (prefix_66 i) || prefix_f2 i || prefix_f3 i then stop_unsupported 0x60
  else
    operand ← try_decode_modrm_operand i (u64 (next_address i + 1));
    match operand with
    | None => fail_invalid_memory
    | Some operand =>
        source ← try_read_simd_operand operand;
        match source with
        | None => fail_invalid_memory
        | Some source =>
            original_destination ← get_simd_register (reg_index operand);
            set_simd_register (reg_index operand) (unpack_low_bytes original_destination source) ;;
            continue_at (next_instruction operand)
        end
    end.

Definition execute_x64_secondary_shuffle (i : x64_decoded_instruction) : X W x64_instruction_outcome :=
  let is_pshufd := prefix_66 i && negb (prefix_f2 i) && negb (prefix_f3 i) in
  let is_pshuflw := prefix_f2 i && negb (prefix_66 i) && negb (prefix_f3 i) in
  if negb is_pshufd && negb is_pshuflw then stop_unsupported 0x70
  else
    operand ← try_decode_modrm_operand i (u64 (next_address i + 1));
    match operand with
    | None => fail_invalid_memory
    | Some operand =>
        immediate ← read_u8 (next_instruction operand);
        match immediate with
        | None => fail_invalid_memory
        | Some immediate =>
            source ← try_read_simd_operand operand;
            match source with
            | None => fail_invalid_memory
            | Some source =>
                let result := if is_pshufd then shuffle_groups 4 immediate source
                              else shuffle_groups 2 immediate source in
                set_simd_register (reg_index operand) result ;;
                continue_at (u64 (next_instruction operand + 1))
            end
        end
    end.

Definition execute_x64_secondary_movq_store (i : x64_decoded_instruction) : X W x64_instruction_outcome :=
  if negb (prefix_66 i) || prefix_f2 i || prefix_f3 i then stop_unsupported 0xD6
  else
    operand ← try_decode_modrm_operand i (u64 (next_address i + 1));
    match operand with
    | None => fail_invalid_memory
    | Some operand =>
        if rm_is_register operand then stop_unsupported 0xD6
        else
          value ← get_simd_register (reg_index operand);
          let low_qword := le_decode (take 8 value) in
          stored ← write_u64 (rm_address operand) low_qword;
          if negb stored then fail_invalid_memory
          else continue_at (next_instruction operand)
    end.
End simd.

(** * Safety *)

Lemma foldl_invariant {A B} (P : A -> Prop) (f : A -> B -> A) l a :
  P a -> (forall a x, P a -> P (f a x)) -> P (foldl f a l).
Proof. intros Ha Hf. revert a Ha. induction l; simpl; auto. Qed.

Lemma simd_byte_ok v k : simd_register_ok v -> u8_ok (v !!! k).
Proof.
  intros [_ Hv]. unfold x64_simd_register in *. rewrite list_lookup_total_alt.
  destruct (v !! k) eqn:E; simpl; [by eapply Forall_lookup_1 in Hv|words].
Qed.

Lemma simd_insert_ok v k b : simd_register_ok v -> u8_ok b -> simd_register_ok (<[k := b]> v).
Proof.
  unfold simd_register_ok, x64_simd_register in *. intros [Hl Hv] Hb.
  split; [by rewrite length_insert|by apply Forall_insert].
Qed.

Lemma simd_zero_ok : simd_register_ok (replicate 16 0).
Proof. split; [done|]. apply Forall_replicate. words. Qed.

#[export] Hint Resolve simd_byte_ok simd_insert_ok simd_zero_ok : words.

Lemma xor_bytes_ok d v : simd_register_ok d -> simd_register_ok v -> simd_register_ok (xor_bytes d v).
Proof. intros. apply (foldl_invariant simd_register_ok); auto with words. Qed.

Lemma zero_simd_register_ok d : simd_register_ok d -> simd_register_ok (zero_simd_register d).
Proof. intros. apply (foldl_invariant simd_register_ok); [done|]. intros. apply simd_insert_ok; [done|words]. Qed.

Lemma unpack_low_bytes_ok d v : simd_register_ok d -> simd_register_ok v -> simd_register_ok (unpack_low_bytes d v).
Proof. intros. apply (foldl_invariant simd_register_ok); auto with words. Qed.

Lemma splice_ok off bs v :
  simd_register_ok v -> Forall u8_ok bs -> (off + length bs <= 16)%nat -> simd_register_ok (splice off bs v).
Proof.
  intros [Hl Hv] Hb Hle. split; [|by apply Forall_splice]. rewrite length_splice; lia.
Qed.

Lemma shuffle_groups_ok width imm v :
  (0 < width <= 4)%nat -> simd_register_ok v -> simd_register_ok (shuffle_groups width imm v).
Proof.
  intros Hw Hv. unfold shuffle_groups.
  enough (forall l r, Forall (fun k => (k < 4)%nat) l -> simd_register_ok r ->
    simd_register_ok (foldl (fun r index =>
      splice (index * width)
        (slice (Z.to_nat (Z.land (Z.shiftr imm (Z.of_nat index * 2)) 3) * width) width v) r) r l)) as H.
  { apply H; [|done]. repeat constructor. }
  intros l r Hl. revert r. induction Hl as [|k l Hk Hl IH]; intros r Hr; simpl; [done|]. apply IH, splice_ok; [done| |].
  - apply Forall_slice, Hv.
  - rewrite length_slice; [nia|]. destruct Hv as [-> _].
    assert (0 <= Z.land (Z.shiftr imm (Z.of_nat k * 2)) 3 < 4); [|nia].
    rewrite (Z.land_ones _ 2) by lia. apply Z.mod_pos_bound. lia.
Qed.

Lemma movd_value_ok v d : simd_register_ok d -> simd_register_ok (splice 0 (le_encode 4 v) (zero_simd_register d)).
Proof. intros. apply splice_ok; [by apply zero_simd_register_ok|auto with words|rewrite length_le_encode; lia]. Qed.

Lemma pshufd_value_ok imm v : simd_register_ok v -> simd_register_ok (shuffle_groups 4 imm v).
Proof. apply shuffle_groups_ok. lia. Qed.

Lemma pshuflw_value_ok imm v : simd_register_ok v -> simd_register_ok (shuffle_groups 2 imm v).
Proof. apply shuffle_groups_ok. lia. Qed.

#[export] Hint Resolve xor_bytes_ok unpack_low_bytes_ok movd_value_ok pshufd_value_ok pshuflw_value_ok : words.
#[export] Hint Extern 3 (simd_register_ok (if ?b then _ else _)) => destruct b : words.

Definition operand_ok (o : x64_decoded_modrm_operand) : Prop :=
  0 <= reg_index o < 16 /\ 0 <= rm_index o < 16 /\ u64_ok (rm_address o) /\ u64_ok (next_instruction o).

Section operand_ok.
Context (o : x64_decoded_modrm_operand).

Lemma simd_operand_reg_ok : operand_ok o -> 0 <= reg_index o < 16.
Proof. by intros []. Qed.

Lemma simd_operand_index_ok : operand_ok o -> 0 <= rm_index o < 16.
Proof. by intros (? & ? & ?). Qed.

Lemma simd_operand_address_ok : operand_ok o -> u64_ok (rm_address o).
Proof. by intros (? & ? & ? & ?). Qed.

Lemma simd_operand_next_ok : operand_ok o -> u64_ok (next_instruction o).
Proof. by intros (? & ? & ? & ?). Qed.
End operand_ok.

Section safety.
Context {W : Type}.
Implicit Types c : x64_execution_context W.

#[local] Hint Resolve simd_operand_reg_ok simd_operand_index_ok simd_operand_address_ok simd_operand_next_ok : words.

Lemma wp_simd_try_read_sib_operand_address c0 c i a md Q :
  live c0 c -> u64_ok a -> 0 <= md < 3 -> (forall addr n, u64_ok addr -> u64_ok n -> Q (Some (addr, n)) c) ->
  (forall c', faulted c0 c' -> Q None c') -> wp (try_read_sib_operand_address i a md) Q c.
Proof.
  intros Hl Ha Hmd HS HN. unfold try_read_sib_operand_address. wp_solve.
  all: first [by apply HN | apply HS; by auto with words | bool_hyps; lia].
Qed.

Ltac wp_component ::=
  eapply wp_simd_try_read_sib_operand_address; [wp_side|wp_side|bool_hyps|intros ? ? ? ?|intros ? ?].

Lemma wp_try_decode_modrm_operand c0 c i a Q :
  live c0 c -> u64_ok a -> (forall o, operand_ok o -> Q (Some o) c) -> (forall c', faulted c0 c' -> Q None c') ->
  wp (try_decode_modrm_operand i a) Q c.
Proof.
  intros Hl Ha HS HN. unfold try_decode_modrm_operand. wp_solve.
  all: first [by apply HN | apply HS; refine (conj _ (conj _ (conj _ _))); cbn; auto with words
             | pose proof (field_mod_range v); bool_hyps; lia].
Qed.

Lemma wp_fail_invalid_memory c0 c Q :
  faulted c0 c -> (forall c', handler_post c0 X64_INSTRUCTION_OUTCOME_STOP_RUNNING c' ->
                              Q X64_INSTRUCTION_OUTCOME_STOP_RUNNING c') ->
  wp fail_invalid_memory Q c.
Proof. apply wp_stop_invalid. Qed.

Ltac wp_component ::=
  lazymatch goal with
  | |- wp (try_decode_modrm_operand _ _) _ _ =>
      eapply wp_try_decode_modrm_operand; [wp_side|wp_side|intros ? ?|intros ? ?]
  | |- wp fail_invalid_memory _ _ => eapply wp_fail_invalid_memory; [wp_side|]; intros ? ?
  | |- wp (try_read_simd_operand _) _ _ => unfold try_read_simd_operand
  | |- wp (try_read_secondary_opcode _) _ _ => unfold try_read_secondary_opcode
  | |- wp (try_read_rm32_operand _) _ _ => unfold try_read_rm32_operand
  end.

Lemma secondary_mov_xmm_safe c0 c i :
  live c0 c -> u64_ok (next_address i) -> wp (execute_x64_secondary_mov_xmm i) (handler_post c0) c.
Proof. intros. unfold execute_x64_secondary_mov_xmm. wp_solve. Qed.

Lemma secondary_store_xmm_safe c0 c i :
  live c0 c -> u64_ok (next_address i) -> wp (execute_x64_secondary_store_xmm i) (handler_post c0) c.
Proof. intros. unfold execute_x64_secondary_store_xmm. wp_solve. Qed.

Lemma secondary_xorps_safe c0 c i :
  live c0 c -> u64_ok (next_address i) -> wp (execute_x64_secondary_xorps i) (handler_post c0) c.
Proof. intros. unfold execute_x64_secondary_xorps. wp_solve. Qed.

Lemma secondary_movd_safe c0 c i :
  live c0 c -> u64_ok (next_address i) -> wp (execute_x64_secondary_movd i) (handler_post c0) c.
Proof. intros. unfold execute_x64_secondary_movd. wp_solve. Qed.

Lemma secondary_punpcklbw_safe c0 c i :
  live c0 c -> u64_ok (next_address i) -> wp (execute_x64_secondary_punpcklbw i) (handler_post c0) c.
Proof. intros. unfold execute_x64_secondary_punpcklbw. wp_solve. Qed.

Lemma secondary_shuffle_safe c0 c i :
  live c0 c -> u64_ok (next_address i) -> wp (execute_x64_secondary_shuffle i) (handler_post c0) c.
Proof. intros. unfold execute_x64_secondary_shuffle. wp_solve. Qed.

Lemma secondary_movq_store_safe c0 c i :
  live c0 c -> u64_ok (next_address i) -> wp (execute_x64_secondary_movq_store i) (handler_post c0) c.
Proof. intros. unfold execute_x64_secondary_movq_store. wp_solve. Qed.

End safety.
