(* ===== verification/Flags.v ===== *)
(** The status flags: what [set_compare_flags], [set_add_flags],
    [set_logic_flags] and [set_inc_dec_flags] compute, bit by bit, against the
    arithmetic meaning of carry, zero, sign and overflow. *)
From S2P Require Import Prelude EmulatorTypes ExecutionContext ControlFlowInstructions.

(** The bits of a flags register the program reads or writes. *)
Record flag_bits := { CF : bool; ZF : bool; SF : bool; OF : bool; reserved : bool }.

Definition flag_bits_of (f : Z) : flag_bits :=
  {| CF := Z.testbit f 0; ZF := Z.testbit f 6; SF := Z.testbit f 7; OF := Z.testbit f 11;
     reserved := Z.testbit f 1 |}.

(** A [w]-bit two's complement word represents [z]. *)
Definition fits_signed (w z : Z) : bool := (- 2 ^ (w - 1) <=? z) && (z <? 2 ^ (w - 1)).

(** Operand width of a handler: [is_64_bit ? 64 : 32]. *)
Definition width (is_64_bit : bool) : Z := if is_64_bit then 64 else 32.

Definition other_bit (i : Z) : Prop := 0 <= i < 64 /\ i <> 0 /\ i <> 1 /\ i <> 6 /\ i <> 7 /\ i <> 11.

(** The bits outside [mask] of two flags registers agree. *)
Definition same_other_bits (f old : Z) : Prop := forall i, other_bit i -> Z.testbit f i = Z.testbit old i.

Lemma testbit_or_if b n f i : 0 <= n -> Z.testbit (or_if b (bit n) f) i = (b && (n =? i)) || Z.testbit f i.
Proof.
  intros. unfold or_if. destruct b; [|done]. rewrite Z.lor_spec, testbit_bit by done.
  rewrite orb_comm. done.
Qed.

Lemma arithmetic_bits : RFLAGS_ARITHMETIC = 2241.
Proof. reflexivity. Qed.

Lemma testbit_kept_flags old i :
  0 <= i < 64 ->
  Z.testbit (Z.lor (Z.land old (not64 RFLAGS_ARITHMETIC)) RFLAGS_RESERVED) i
  = (Z.testbit old i && negb (Z.testbit RFLAGS_ARITHMETIC i)) || (1 =? i).
Proof.
  intros. rewrite Z.lor_spec, Z.land_spec, testbit_not64 by done. unfold RFLAGS_RESERVED.
  by rewrite testbit_bit by lia.
Qed.

Lemma testbit_arithmetic i : 0 <= i -> Z.testbit RFLAGS_ARITHMETIC i = (0 =? i) || (6 =? i) || (7 =? i) || (11 =? i).
Proof.
  intros. unfold RFLAGS_ARITHMETIC, RFLAGS_CARRY, RFLAGS_ZERO, RFLAGS_SIGN, RFLAGS_OVERFLOW.
  by rewrite !Z.lor_spec, !testbit_bit by lia.
Qed.

(** The four conditions a handler computes, written into the kept flags. *)
Definition written_flags (old : Z) (zero sign carry overflow : bool) : Z :=
  or_if overflow RFLAGS_OVERFLOW (or_if carry RFLAGS_CARRY (or_if sign RFLAGS_SIGN (or_if zero RFLAGS_ZERO
    (Z.lor (Z.land old (not64 RFLAGS_ARITHMETIC)) RFLAGS_RESERVED)))).

Lemma testbit_written_flags old z s c o i :
  0 <= i < 64 ->
  Z.testbit (written_flags old z s c o) i
  = (o && (11 =? i)) || ((c && (0 =? i)) || ((s && (7 =? i)) || ((z && (6 =? i)) ||
    ((Z.testbit old i && negb ((0 =? i) || (6 =? i) || (7 =? i) || (11 =? i))) || (1 =? i))))).
Proof.
  intros. unfold written_flags, RFLAGS_OVERFLOW, RFLAGS_CARRY, RFLAGS_SIGN, RFLAGS_ZERO.
  rewrite !testbit_or_if by lia. by rewrite testbit_kept_flags, testbit_arithmetic by lia.
Qed.

Lemma written_flags_bits old z s c o :
  flag_bits_of (written_flags old z s c o) = {| CF := c; ZF := z; SF := s; OF := o; reserved := true |}.
Proof.
  unfold flag_bits_of. rewrite !testbit_written_flags by lia. cbn -[Z.testbit].
  rewrite !andb_false_r. by destruct z, s, c, o; rewrite ?orb_true_r.
Qed.

Lemma written_flags_others old z s c o : same_other_bits (written_flags old z s c o) old.
Proof.
  intros i (? & ? & ? & ? & ? & ?). rewrite testbit_written_flags by done.
  repeat match goal with |- context [?n =? i] => rewrite (proj2 (Z.eqb_neq n i)) by lia end.
  by rewrite !andb_false_r, !andb_true_r, orb_false_r.
Qed.

(** ** Masks of a width *)

Lemma mask_width b x : 0 <= x < 2 ^ width b -> Z.land x (if b then UINT64_MAX else UINT32_MAX) = x.
Proof.
  intros. destruct b; [change UINT64_MAX with (Z.ones 64)|change UINT32_MAX with (Z.ones 32)];
    rewrite Z.land_ones by lia; by apply Z.mod_small.
Qed.

Lemma sign_width b x :
  0 <= x < 2 ^ width b -> negb (Z.land x (if b then bit 63 else bit 31) =? 0) = (2 ^ (width b - 1) <=? x).
Proof.
  intros. replace (if b then bit 63 else bit 31) with (bit (width b - 1)) by (by destruct b).
  rewrite land_bit_nonzero by (destruct b; simpl; lia). apply testbit_top; [destruct b; simpl; lia|done].
Qed.

Lemma width_pow b : 2 ^ width b = 2 * 2 ^ (width b - 1) /\ 0 < 2 ^ (width b - 1).
Proof. destruct b; simpl width; split; reflexivity. Qed.

(** Decides an equation between boolean combinations of comparisons. *)
Ltac no_if x := lazymatch x with context [if _ then _ else _] => fail | _ => idtac end.

Ltac compare_cases :=
  repeat match goal with
    | |- context [?x <? ?y] => no_if x; destruct (Z.ltb_spec x y)
    | |- context [?x <=? ?y] => no_if x; no_if y; destruct (Z.leb_spec x y)
    | |- context [?x =? ?y] => no_if x; destruct (Z.eqb_spec x y)
    end; simpl; (reflexivity || lia).

(** The same for the value of a reduced sum given by cases. *)
Ltac compare_cases_mod :=
  repeat match goal with
    | |- context [if ?x <? ?y then _ else _] => destruct (Z.ltb_spec x y)
    | |- context [if ?x <=? ?y then _ else _] => destruct (Z.leb_spec x y)
    end;
  first [apply Z.mod_small; lia | symmetry; apply Z.mod_unique with 1; lia
        | symmetry; apply Z.mod_unique with (-1); lia].

(** The conditions of the source, on operands within the width. *)
Lemma compare_flags_conditions old lhs rhs r b :
  0 <= lhs < 2 ^ width b -> 0 <= rhs < 2 ^ width b -> 0 <= r < 2 ^ width b ->
  let m := 2 ^ (width b - 1) in
  compare_flags old lhs rhs r b
  = written_flags old (r =? 0) (m <=? r) (lhs <? rhs)
      (negb (eqb (m <=? lhs) (m <=? rhs)) && negb (eqb (m <=? lhs) (m <=? r))).
Proof.
  intros Hl Hr Hres m. unfold compare_flags. cbv zeta. rewrite !mask_width, !sign_width by done. reflexivity.
Qed.

Lemma add_flags_conditions old lhs rhs r b :
  0 <= lhs < 2 ^ width b -> 0 <= rhs < 2 ^ width b -> 0 <= r < 2 ^ width b ->
  let m := 2 ^ (width b - 1) in
  add_flags old lhs rhs r b
  = written_flags old (r =? 0) (m <=? r) (r <? lhs)
      (eqb (m <=? lhs) (m <=? rhs) && negb (eqb (m <=? lhs) (m <=? r))).
Proof.
  intros Hl Hr Hres m. unfold add_flags. cbv zeta. rewrite !mask_width, !sign_width by done. reflexivity.
Qed.

Lemma compare_flags_written old lhs rhs b :
  0 <= lhs < 2 ^ width b -> 0 <= rhs < 2 ^ width b ->
  compare_flags old lhs rhs ((lhs - rhs) mod 2 ^ width b) b
  = written_flags old (lhs =? rhs) (signed (width b) (lhs - rhs) <? 0) (lhs <? rhs)
      (negb (fits_signed (width b) (signed (width b) lhs - signed (width b) rhs))).
Proof.
  intros Hl Hr. destruct (width_pow b) as [E Hpos].
  pose proof (Z.mod_pos_bound (lhs - rhs) (2 ^ width b) ltac:(lia)) as Hm.
  rewrite compare_flags_conditions by done. cbv zeta. unfold fits_signed, signed. cbv zeta.
  rewrite (Z.mod_small lhs), (Z.mod_small rhs) by done.
  assert ((lhs - rhs) mod 2 ^ width b = if lhs <? rhs then lhs - rhs + 2 ^ width b else lhs - rhs) as ->.
  { destruct (Z.ltb_spec lhs rhs); [symmetry; apply Z.mod_unique with (-1); lia|apply Z.mod_small; lia]. }
  set (m := 2 ^ (width b - 1)) in *. rewrite !E. destruct (Z.ltb_spec lhs rhs); f_equal; compare_cases.
Qed.

Lemma add_flags_written old lhs rhs b :
  0 <= lhs < 2 ^ width b -> 0 <= rhs < 2 ^ width b ->
  add_flags old lhs rhs ((lhs + rhs) mod 2 ^ width b) b
  = written_flags old ((lhs + rhs) mod 2 ^ width b =? 0) (signed (width b) (lhs + rhs) <? 0)
      (2 ^ width b <=? lhs + rhs)
      (negb (fits_signed (width b) (signed (width b) lhs + signed (width b) rhs))).
Proof.
  intros Hl Hr. destruct (width_pow b) as [E Hpos].
  pose proof (Z.mod_pos_bound (lhs + rhs) (2 ^ width b) ltac:(lia)) as Hm.
  rewrite add_flags_conditions by done. cbv zeta. unfold fits_signed, signed. cbv zeta.
  rewrite (Z.mod_small lhs), (Z.mod_small rhs) by done.
  assert ((lhs + rhs) mod 2 ^ width b
          = if 2 ^ width b <=? lhs + rhs then lhs + rhs - 2 ^ width b else lhs + rhs) as ->.
  { destruct (Z.leb_spec (2 ^ width b) (lhs + rhs)); [symmetry; apply Z.mod_unique with 1; lia|apply Z.mod_small; lia]. }
  set (m := 2 ^ (width b - 1)) in *. rewrite !E.
  destruct (Z.leb_spec (2 * m) (lhs + rhs)); f_equal; compare_cases.
Qed.

Lemma logic_flags_written old v b :
  0 <= v < 2 ^ width b ->
  logic_flags old v b = written_flags old (v =? 0) (signed (width b) v <? 0) false false.
Proof.
  intros Hv. destruct (width_pow b) as [E Hpos]. unfold logic_flags. cbv zeta.
  replace (if b then v else u32 v) with v by (destruct b; [done|symmetry; by apply u32_id]).
  rewrite sign_width by done. unfold written_flags, signed. cbv zeta. rewrite (Z.mod_small v) by done.
  set (m := 2 ^ (width b - 1)) in *. cbn [or_if]. f_equal. compare_cases.
Qed.

(** INC and DEC keep the carry flag and clear every other flag the program does
    not compute, where the other three functions keep them. *)
Definition inc_dec_written (old : Z) (zero sign overflow : bool) : Z :=
  or_if overflow RFLAGS_OVERFLOW (or_if sign RFLAGS_SIGN (or_if zero RFLAGS_ZERO
    (Z.lor (Z.land old RFLAGS_CARRY) RFLAGS_RESERVED))).

Lemma testbit_inc_dec_written old z s o i :
  0 <= i ->
  Z.testbit (inc_dec_written old z s o) i
  = (o && (11 =? i)) || ((s && (7 =? i)) || ((z && (6 =? i)) || ((Z.testbit old i && (0 =? i)) || (1 =? i)))).
Proof.
  intros. unfold inc_dec_written, RFLAGS_OVERFLOW, RFLAGS_SIGN, RFLAGS_ZERO, RFLAGS_RESERVED, RFLAGS_CARRY.
  rewrite !testbit_or_if by lia. by rewrite Z.lor_spec, Z.land_spec, !testbit_bit by lia.
Qed.

Lemma inc_dec_written_bits old z s o :
  flag_bits_of (inc_dec_written old z s o)
  = {| CF := Z.testbit old 0; ZF := z; SF := s; OF := o; reserved := true |}.
Proof.
  unfold flag_bits_of. rewrite !testbit_inc_dec_written by lia. cbn -[Z.testbit].
  rewrite !andb_false_r, !andb_true_r. by destruct (Z.testbit old 0), z, s, o; rewrite ?orb_true_r.
Qed.

Lemma inc_dec_written_others old z s o i : other_bit i -> Z.testbit (inc_dec_written old z s o) i = false.
Proof.
  intros (? & ? & ? & ? & ? & ?). rewrite testbit_inc_dec_written by lia.
  repeat match goal with |- context [?n =? i] => rewrite (proj2 (Z.eqb_neq n i)) by lia end.
  by rewrite !andb_false_r.
Qed.

Lemma inc_dec_flags_written old lhs (d b : bool) :
  0 <= lhs < 2 ^ width b ->
  let delta := if d then -1 else 1 in
  inc_dec_flags old lhs ((lhs + delta) mod 2 ^ width b) d b
  = inc_dec_written old ((lhs + delta) mod 2 ^ width b =? 0) (signed (width b) (lhs + delta) <? 0)
      (negb (fits_signed (width b) (signed (width b) lhs + delta))).
Proof.
  intros Hl delta. destruct (width_pow b) as [E Hpos].
  assert (2 <= 2 ^ (width b - 1)) as Hm2 by (destruct b; simpl width; vm_compute; congruence).
  pose proof (Z.mod_pos_bound (lhs + delta) (2 ^ width b) ltac:(lia)) as Hm.
  unfold inc_dec_flags. cbv zeta. rewrite !mask_width, !sign_width by done.
  change (inc_dec_written old ((lhs + delta) mod 2 ^ width b =? 0) (2 ^ (width b - 1) <=? (lhs + delta) mod 2 ^ width b)
    (if d then (2 ^ (width b - 1) <=? lhs) && negb (2 ^ (width b - 1) <=? (lhs + delta) mod 2 ^ width b)
     else negb (2 ^ (width b - 1) <=? lhs) && (2 ^ (width b - 1) <=? (lhs + delta) mod 2 ^ width b))
  = inc_dec_written old ((lhs + delta) mod 2 ^ width b =? 0) (signed (width b) (lhs + delta) <? 0)
      (negb (fits_signed (width b) (signed (width b) lhs + delta)))).
  unfold fits_signed, signed. cbv zeta. rewrite (Z.mod_small lhs) by done.
  assert ((lhs + delta) mod 2 ^ width b
          = if lhs + delta <? 0 then lhs + delta + 2 ^ width b
            else if 2 ^ width b <=? lhs + delta then lhs + delta - 2 ^ width b else lhs + delta) as ->.
  { subst delta. destruct d; compare_cases_mod. }
  set (m := 2 ^ (width b - 1)) in *. rewrite !E.
  subst delta; destruct d; f_equal; compare_cases.
Qed.

(** The flags of a subtraction that leaves the bits [f] in the register. *)
Definition subtraction_bits (b : bool) (lhs rhs : Z) : flag_bits :=
  {| CF := lhs <? rhs;
     ZF := lhs =? rhs;
     SF := signed (width b) (lhs - rhs) <? 0;
     OF := negb (fits_signed (width b) (signed (width b) lhs - signed (width b) rhs));
     reserved := true |}.

Definition addition_bits (b : bool) (lhs rhs : Z) : flag_bits :=
  {| CF := 2 ^ width b <=? lhs + rhs;
     ZF := (lhs + rhs) mod 2 ^ width b =? 0;
     SF := signed (width b) (lhs + rhs) <? 0;
     OF := negb (fits_signed (width b) (signed (width b) lhs + signed (width b) rhs));
     reserved := true |}.

(** After a comparison of 32- or 64-bit operands CF is the unsigned borrow, ZF equality, SF
    the sign of the difference, OF its signed overflow, the reserved bit is set and every other
    flag is unchanged. *)
Lemma compare_flags_correct old lhs rhs b :
  0 <= lhs < 2 ^ width b -> 0 <= rhs < 2 ^ width b ->
  let f := compare_flags old lhs rhs ((lhs - rhs) mod 2 ^ width b) b in
  flag_bits_of f = subtraction_bits b lhs rhs /\ same_other_bits f old.
Proof.
  intros Hl Hr f. subst f. rewrite compare_flags_written by done.
  split; [apply written_flags_bits|apply written_flags_others].
Qed.

Lemma compare_flags_correct_witness :
  let f := compare_flags 0 3 5 ((3 - 5) mod 2 ^ width true) true in
  flag_bits_of f = subtraction_bits true 3 5 /\ same_other_bits f 0.
Proof. apply (compare_flags_correct 0 3 5 true); simpl width; lia. Defined.


(** After an addition of 32- or 64-bit operands CF is the unsigned carry, ZF and SF
    describe the wrapped sum, OF its signed overflow, the reserved bit is set and every other
    flag is unchanged. *)
Lemma add_flags_correct old lhs rhs b :
  0 <= lhs < 2 ^ width b -> 0 <= rhs < 2 ^ width b ->
  let f := add_flags old lhs rhs ((lhs + rhs) mod 2 ^ width b) b in
  flag_bits_of f = addition_bits b lhs rhs /\ same_other_bits f old.
Proof.
  intros Hl Hr f. subst f. rewrite add_flags_written by done.
  split; [apply written_flags_bits|apply written_flags_others].
Qed.

Lemma add_flags_correct_witness :
  let f := add_flags 0 0xFFFFFFFF 1 ((0xFFFFFFFF + 1) mod 2 ^ width false) false in
  flag_bits_of f = addition_bits false 0xFFFFFFFF 1 /\ same_other_bits f 0.
Proof. apply (add_flags_correct 0 0xFFFFFFFF 1 false); simpl width; lia. Defined.


(** After a logic operation CF and OF are clear, ZF and SF describe the result at the
    operand width, and every other flag is unchanged. *)
Lemma logic_flags_correct old v b :
  0 <= v < 2 ^ width b ->
  let f := logic_flags old v b in
  flag_bits_of f = {| CF := false; ZF := v =? 0; SF := signed (width b) v <? 0; OF := false; reserved := true |}
  /\ same_other_bits f old.
Proof.
  intros Hv f. subst f. rewrite logic_flags_written by done.
  split; [apply written_flags_bits|apply written_flags_others].
Qed.

Lemma logic_flags_correct_witness :
  let f := logic_flags 0x200 0x80000000 false in
  flag_bits_of f = {| CF := false; ZF := 0x80000000 =? 0; SF := signed (width false) 0x80000000 <? 0; OF := false;
                      reserved := true |}
  /\ same_other_bits f 0x200.
Proof. apply (logic_flags_correct 0x200 0x80000000 false); simpl width; lia. Defined.


(** INC and DEC keep CF and compute ZF, SF and OF of the wrapped result at the operand
    width, but clear every other bit of the flags register, which the other flag computations
    keep. *)
Lemma inc_dec_flags_clear_others old lhs (d b : bool) :
  0 <= lhs < 2 ^ width b ->
  let delta := if d then -1 else 1 in
  let f := inc_dec_flags old lhs ((lhs + delta) mod 2 ^ width b) d b in
  flag_bits_of f =
    {| CF := Z.testbit old 0;
       ZF := (lhs + delta) mod 2 ^ width b =? 0;
       SF := signed (width b) (lhs + delta) <? 0;
       OF := negb (fits_signed (width b) (signed (width b) lhs + delta));
       reserved := true |} /\
  forall i, other_bit i -> Z.testbit f i = false.
Proof.
  intros Hl delta f. subst f delta. rewrite inc_dec_flags_written by done.
  split; [apply inc_dec_written_bits|apply inc_dec_written_others].
Qed.

Lemma inc_dec_flags_clear_others_witness :
  let f := inc_dec_flags 0x200 7 ((7 + 1) mod 2 ^ width true) false true in
  flag_bits_of f =
    {| CF := Z.testbit 0x200 0;
       ZF := (7 + 1) mod 2 ^ width true =? 0;
       SF := signed (width true) (7 + 1) <? 0;
       OF := negb (fits_signed (width true) (signed (width true) 7 + 1));
       reserved := true |} /\
  forall i, other_bit i -> Z.testbit f i = false.
Proof. apply (inc_dec_flags_clear_others 0x200 7 false true); simpl width; lia. Defined.

