(* ===== verification/OperandDecoders.v ===== *)
(** The program has three ModRM operand decoders, one per handler file.  They
    are equivalent. *)
From S2P Require Import Prelude EmulatorTypes ExecutionContext GuestMemory OperandFields Samples.
From S2P Require Import AluInstructions DataMovementInstructions SimdInstructions.

(** ** Displacements

    The 8-bit displacement of an operand without a SIB byte. *)
Section displacement.
Context {W : Type}.
Implicit Types c : x64_execution_context W.
Import AluInstructions.

Definition displacement8_operand (i : x64_decoded_instruction) (a modrm addr : Z) : x64_decoded_rm_operand :=
  {| mod_field := 1; operation := field_reg modrm; rm_index := extend (field_rm modrm) (rex_b i);
     rm_is_register := false; rm_address := addr; next_instruction := u64 (a + 2) |}.

(** C26: An operand of the form [register + disp8] without SIB byte decodes to the address
    (register + disp8) mod 2^64 exactly when the signed 64-bit sum does not overflow; otherwise
    the C++ addition is undefined behaviour. *)
Theorem displacement8_address_or_overflow c i a modrm d :
  state_wf (m_state c) -> memory_wf (m_memory c) -> u64_ok a ->
  guest_read c a 1 = Some [modrm] -> field_mod modrm = 1 -> field_rm modrm <> 4 ->
  guest_read c (u64 (a + 1)) 1 = Some [d] ->
  let base := register c (extend (field_rm modrm) (rex_b i)) in
  try_decode_rm_operand i a c =
    (if (- 2 ^ 63 <=? s64 base + s8 d) && (s64 base + s8 d <? 2 ^ 63)
     then Returned (Some (displacement8_operand i a modrm (u64 (base + s8 d)))) c
     else Undefined signed_overflow).
Proof.
  intros Hs Hm Ha Hmodrm Hmod Hrm Hd base. unfold try_decode_rm_operand.
  erewrite bind_eq by (rewrite read_u8_spec, Hmodrm by done; reflexivity). cbv beta iota zeta.
  replace (le_decode [modrm]) with modrm by (cbn; lia). rewrite Hmod. cbn [Z.eqb Pos.eqb].
  rewrite (proj2 (Z.eqb_neq _ _) Hrm).
  erewrite bind_eq by (rewrite read_i8_spec, Hd by (done || apply u64_range); reflexivity). cbv beta iota.
  replace (le_decode [d]) with d by (cbn; lia).
  erewrite bind_eq by (apply get_register64_spec; [done|apply extend_rm]). fold base.
  unfold signed_add64 at 1.
  destruct (_ && _); [|reflexivity]. erewrite bind_eq by reflexivity. by rewrite u64_s64_add.
Qed.


End displacement.

(** [mov rax, [rbx + 1]] with the largest signed address in RBX. *)
Definition overflow_sample : x64_execution_context Z :=
  sample_with (set_general_registers sample_state (<[3%nat := 2 ^ 63 - 1]> sample_registers)) [0x48; 0x8B; 0x43; 0x01].

Definition overflow_instruction : x64_decoded_instruction :=
  {| address := 0x1000; opcode_address := 0x1001; next_address := 0x1002; opcode := 0x8B;
     prefix_66 := false; prefix_f2 := false; prefix_f3 := false;
     rex_w := true; rex_r := false; rex_x := false; rex_b := false |}.

Lemma overflow_sample_wf : state_wf (m_state overflow_sample).
Proof. apply state_wf_set_register; [exact sample_state_wf|vm_compute; split; congruence]. Qed.

Lemma displacement8_address_or_overflow_witness :
  AluInstructions.try_decode_rm_operand overflow_instruction 0x1002 overflow_sample = Undefined signed_overflow.
Proof.
  apply (displacement8_address_or_overflow overflow_sample overflow_instruction 0x1002 0x43 1);
    [exact overflow_sample_wf|by apply sample_memory_wf|words|vm_compute; reflexivity|
     vm_compute; reflexivity|vm_compute; congruence|vm_compute; reflexivity].
Defined.

(** The value of an outcome, through a function. *)
Definition outcome_map {S A B} (f : A -> B) (o : outcome S A) : outcome S B :=
  match o with
  | Returned a s => Returned (f a) s
  | Undefined u => Undefined u
  | OutOfFuel => OutOfFuel
  end.

(** What the decoders of the ALU and of the SIMD file have in common. *)
Record rm_operand := {
  operand_mod : Z;
  operand_rm : Z;
  operand_is_register : bool;
  operand_address : Z;
  operand_next : Z;
}.

Definition of_alu (o : AluInstructions.x64_decoded_rm_operand) : rm_operand :=
  {| operand_mod := AluInstructions.mod_field o; operand_rm := AluInstructions.rm_index o;
     operand_is_register := AluInstructions.rm_is_register o;
     operand_address := AluInstructions.rm_address o; operand_next := AluInstructions.next_instruction o |}.

Definition of_simd (o : SimdInstructions.x64_decoded_modrm_operand) : rm_operand :=
  {| operand_mod := SimdInstructions.mod_field o; operand_rm := SimdInstructions.rm_index o;
     operand_is_register := SimdInstructions.rm_is_register o;
     operand_address := SimdInstructions.rm_address o; operand_next := SimdInstructions.next_instruction o |}.

Section equivalence.
Context {W : Type}.
Implicit Types c : x64_execution_context W.

Lemma outcome_map_bind {A B C} (f : B -> C) (m : X W A) (k : A -> X W B) c :
  outcome_map f ((m ≫= k) c) = (m ≫= (fun a c => outcome_map f (k a c))) c.
Proof. unfold mbind, M_bind. by destruct (m c). Qed.

Lemma bind_ext {A B} (m : X W A) (k k' : A -> X W B) c :
  (forall a c', m c = Returned a c' -> k a c' = k' a c') -> (m ≫= k) c = (m ≫= k') c.
Proof. intros H. unfold mbind, M_bind. destruct (m c) eqn:E; auto. Qed.

(** Walks down two computations that perform the same operations. *)
Ltac same_steps :=
  repeat (cbv zeta; first
    [ reflexivity
    | rewrite !outcome_map_bind; apply bind_ext; intros ? ? _
    | match goal with
      | |- context [if ?b then _ else _] => destruct b
      | |- context [match ?o with Some _ => _ | None => _ end] => is_var o; destruct o
      | o : option (Z * Z) |- _ => destruct o as [[? ?]|]
      end ]).

(** C27: The ModRM operand decoders of the ALU and the SIMD handlers compute the same operand,
    the same final context and the same failures for every instruction and context. *)
Theorem alu_simd_decoders_agree i a c :
  outcome_map (fmap of_alu) (AluInstructions.try_decode_rm_operand i a c)
  = outcome_map (fmap of_simd) (SimdInstructions.try_decode_modrm_operand i a c).
Proof.
  unfold AluInstructions.try_decode_rm_operand, SimdInstructions.try_decode_modrm_operand. same_steps.
Qed.

(** A read that succeeds changes nothing; after one that fails, recording the
    failure again (as the data movement decoder does) changes nothing. *)
Definition plain_read {A} (m : X W (option A)) : Prop := forall c c' r,
  memory_wf (m_memory c) -> m c = Returned r c' ->
  match r with Some _ => c' = c | None => set_completion_invalid_memory_access c' = Returned tt c' end.

Lemma plain_read_u8 a : u64_ok a -> plain_read (read_u8 a).
Proof. intros Ha c c' r Hm H. rewrite read_u8_spec in H by done. destruct (guest_read c a 1); simplify_eq; reflexivity. Qed.

Lemma plain_read_i8 a : u64_ok a -> plain_read (read_i8 a).
Proof. intros Ha c c' r Hm H. rewrite read_i8_spec in H by done. destruct (guest_read c a 1); simplify_eq; reflexivity. Qed.

Lemma plain_read_i32 a : u64_ok a -> plain_read (read_i32 a).
Proof. intros Ha c c' r Hm H. rewrite read_i32_spec in H by done. destruct (guest_read c a 4); simplify_eq; reflexivity. Qed.

(** Both decoders read the same thing and go on from the same context. *)
Lemma read_or_fail {A B} (m : X W (option A)) (k k' : A -> X W (option B)) c :
  plain_read m -> memory_wf (m_memory c) -> (forall v, k v c = k' v c) ->
  (r ← m; match r with None => DataMovementInstructions.fail_invalid_memory_access | Some v => k v end) c
  = (r ← m; match r with None => mret None | Some v => k' v end) c.
Proof.
  intros Hp Hm Hk. apply bind_ext. intros [v|] c' H; apply (Hp c c' _ Hm) in H; [rewrite H; apply Hk|].
  unfold DataMovementInstructions.fail_invalid_memory_access. by rewrite (bind_eq _ _ _ _ _ H).
Qed.

Lemma read_or_fail_map {A B} (m : X W (option A)) (f : A -> B) c :
  plain_read m -> memory_wf (m_memory c) ->
  (r ← m; match r with None => DataMovementInstructions.fail_invalid_memory_access | Some v => mret (Some (f v)) end) c
  = (r ← m; mret (f <$> r)) c.
Proof.
  intros Hp Hm. apply bind_ext. intros [v|] c' H; apply (Hp c c' _ Hm) in H; [done|].
  unfold DataMovementInstructions.fail_invalid_memory_access. by rewrite (bind_eq _ _ _ _ _ H).
Qed.

Lemma bind_congr {A B} (m m' : X W A) (k : A -> X W B) c : m c = m' c -> (m ≫= k) c = (m' ≫= k) c.
Proof. intros H. unfold mbind, M_bind. by rewrite H. Qed.

Lemma get_register64_same c c' r v : get_register64 r c = Returned v c' -> c' = c.
Proof.
  unfold get_register64, index_get. intros H. change (get c) with (Returned c c) in H.
  cbv [mbind M_bind get] in H. destruct (_ !! _) in H; [by injection H|done].
Qed.

Lemma sib_decoders_agree i a md c :
  memory_wf (m_memory c) ->
  DataMovementInstructions.try_read_sib_address i a md c = AluInstructions.try_read_sib_operand_address i a md c.
Proof.
  intros Hm. unfold DataMovementInstructions.try_read_sib_address, AluInstructions.try_read_sib_operand_address.
  apply read_or_fail; [apply plain_read_u8, u64_range|done|]. intros sib. cbv zeta.
  apply bind_ext. intros index c' Hc.
  assert (c' = c) as -> by (destruct (_ || _) in Hc; [by eapply get_register64_same|by injection Hc]).
  destruct (md =? 0); [destruct (_ && _)|].
  - by apply read_or_fail; [apply plain_read_i32, u64_range|..].
  - reflexivity.
  - apply bind_congr. destruct (md =? 1); [|destruct (md =? 2); [|reflexivity]].
    + by apply read_or_fail_map; [apply plain_read_i8, u64_range|].
    + by apply read_or_fail_map; [apply plain_read_i32, u64_range|].
Qed.

(** The address and the next instruction of a decoded memory operand. *)
Definition location (o : AluInstructions.x64_decoded_rm_operand) : Z * Z :=
  (AluInstructions.rm_address o, AluInstructions.next_instruction o).

Lemma location_of_sib o (r : outcome (x64_execution_context W) (option (Z * Z))) :
  outcome_map (fmap location) (outcome_map (fmap (fun '(addr, next) => AluInstructions.with_address o addr next)) r) = r.
Proof. by destruct r as [[[]|]| |]. Qed.

Lemma outcome_map_fmap {A B} (f : A -> B) (m : X W (option A)) c :
  (r ← m; mret (f <$> r)) c = outcome_map (fmap f) (m c).
Proof. unfold mbind, M_bind. by destruct (m c). Qed.

(** A failed displacement read ends both decoders in the same context. *)
Lemma read_or_fail_location {A} (m : X W (option A)) k k' c :
  plain_read m -> memory_wf (m_memory c) -> (forall v, k v c = outcome_map (fmap location) (k' v c)) ->
  (r ← m; match r with None => DataMovementInstructions.fail_invalid_memory_access | Some v => k v end) c
  = outcome_map (fmap location) ((r ← m; match r with None => mret None | Some v => k' v end) c).
Proof.
  intros Hp Hm Hk. rewrite (read_or_fail m k (fun v c => outcome_map (fmap location) (k' v c))) by done.
  rewrite outcome_map_bind. apply bind_ext. by intros [].
Qed.

Lemma data_movement_alu i a modrm c :
  memory_wf (m_memory c) -> read_u8 a c = Returned (Some modrm) c -> field_mod modrm <> 3 ->
  DataMovementInstructions.try_get_memory_operand_address i a modrm c
  = outcome_map (fmap location) (AluInstructions.try_decode_rm_operand i a c).
Proof.
  intros Hm Hr Hmod. unfold AluInstructions.try_decode_rm_operand.
  erewrite bind_eq by exact Hr. unfold DataMovementInstructions.try_get_memory_operand_address. cbv zeta.
  rewrite (proj2 (Z.eqb_neq (field_mod modrm) 3)) by done.
  pose proof (field_mod_range modrm) as Hrange.
  destruct (field_rm modrm =? 4).
  - rewrite outcome_map_fmap, location_of_sib, <- sib_decoders_agree by done.
    destruct (Z.eqb_spec (field_mod modrm) 0), (Z.eqb_spec (field_mod modrm) 1),
      (Z.eqb_spec (field_mod modrm) 2); (reflexivity || lia).
  - repeat match goal with |- context [if ?b then _ else _] => destruct b end.
    all: first [reflexivity | apply read_or_fail_location; [apply plain_read_i8, u64_range|done|]
               | apply read_or_fail_location; [apply plain_read_i32, u64_range|done|] | idtac].
    all: intros; same_steps.
Qed.

(** For a memory operand, the decoder of the data movement handlers computes the address
    and the next instruction the ALU decoder computes, with the same recorded failure. *)
Lemma data_movement_decoder_agrees i a modrm c :
  memory_wf (m_memory c) -> read_u8 a c = Returned (Some modrm) c -> field_mod modrm <> 3 ->
  DataMovementInstructions.try_get_memory_operand_address i a modrm c
  = outcome_map (fmap location) (AluInstructions.try_decode_rm_operand i a c).
Proof. apply data_movement_alu. Qed.


End equivalence.

Lemma data_movement_decoder_agrees_witness :
  DataMovementInstructions.try_get_memory_operand_address overflow_instruction 0x1002 0x43 (sample [0x48; 0x8B; 0x43; 1])
  = outcome_map (fmap location)
      (AluInstructions.try_decode_rm_operand overflow_instruction 0x1002 (sample [0x48; 0x8B; 0x43; 1])).
Proof.
  apply (data_movement_decoder_agrees overflow_instruction 0x1002 0x43 (sample [0x48; 0x8B; 0x43; 1]));
    [by apply sample_memory_wf|vm_compute; reflexivity|vm_compute; congruence].
Defined.
