(* ===== verification/DecoderSpec.v ===== *)
(** What the decoder yields for a run of prefix bytes and an opcode. *)
From S2P Require Import Prelude EmulatorTypes ExecutionContext GuestMemory Decoder Samples.

Definition is_rex (b : Z) : bool := Z.land b 0xF0 =? 0x40.

Definition is_prefix (b : Z) : bool :=
  (b =? 0x66) || (b =? 0xF2) || (b =? 0xF3) || (b =? 0x2E) || is_rex b.

(** The REX byte in force: the last one, wherever it stands among the prefixes. *)
Fixpoint last_rex (ps : list Z) : option Z :=
  match ps with
  | [] => None
  | p :: ps => match last_rex ps with
               | Some r => Some r
               | None => if is_rex p then Some p else None
               end
  end.

Definition rex_bit (ps : list Z) (mask : Z) (default : bool) : bool :=
  match last_rex ps with Some r => negb (Z.land r mask =? 0) | None => default end.

Definition seen (b : Z) (ps : list Z) : bool := existsb (fun p => p =? b) ps.

(** The instruction a decoder in state [i] ends with after [ps] and [op]. *)
Definition decoded (i : x64_decoded_instruction) (ps : list Z) (op : Z) : x64_decoded_instruction :=
  {| address := address i; opcode_address := opcode_address i + Z.of_nat (length ps);
     next_address := next_address i; opcode := op;
     prefix_66 := seen 0x66 ps || prefix_66 i; prefix_f2 := seen 0xF2 ps || prefix_f2 i;
     prefix_f3 := seen 0xF3 ps || prefix_f3 i;
     rex_w := rex_bit ps 8 (rex_w i); rex_r := rex_bit ps 4 (rex_r i);
     rex_x := rex_bit ps 2 (rex_x i); rex_b := rex_bit ps 1 (rex_b i) |}.

Section spec.
Context {W : Type}.
Implicit Types c : x64_execution_context W.

Lemma guest_read_cons c a n b bs :
  memory_wf (m_memory c) -> guest_read c a (S n) = Some (b :: bs) ->
  guest_read c a 1 = Some [b] /\ guest_read c (a + 1) n = Some bs.
Proof.
  intros Hm H. unfold guest_read in *. destruct (in_window c a (Z.of_nat (S n))) eqn:Ew; [|done].
  pose proof (in_window_nat c a (S n) Hm Ew) as Hn. injection H as H.
  unfold in_window in *. bool_hyps.
  rewrite (proj2 (andb_true_iff _ _)) by (split; apply Z.leb_le; lia).
  rewrite (proj2 (andb_true_iff _ _)) by (split; apply Z.leb_le; lia).
  unfold window_offset in *. replace (Z.to_nat (a + 1 - base_address (m_memory c)))
    with (S (Z.to_nat (a - base_address (m_memory c)))) by lia.
  by apply slice_cons in H as [-> ->].
Qed.

(** One prefix byte. *)
Lemma apply_prefix_spec i p :
  apply_prefix (set_opcode i p) =
    if is_prefix p then Some (set_opcode_address (decoded i [p] p) (opcode_address i)) else None.
Proof.
  unfold apply_prefix, is_prefix, decoded, rex_bit. cbn [last_rex seen existsb opcode set_opcode].
  destruct (Z.eqb_spec p 0x66) as [->|]; [by destruct i|].
  destruct (Z.eqb_spec p 0xF2) as [->|]; [by destruct i|].
  destruct (Z.eqb_spec p 0xF3) as [->|]; [by destruct i|].
  destruct (Z.eqb_spec p 0x2E) as [->|]; [by destruct i|].
  unfold is_rex. destruct (Z.land p 0xF0 =? 0x40); by destruct i.
Qed.

Lemma decoded_cons i p ps op :
  decoded (set_opcode (decoded i [p] p) p) ps op = decoded i (p :: ps) op.
Proof.
  unfold decoded, rex_bit, seen. cbn [last_rex existsb address opcode_address next_address opcode
    prefix_66 prefix_f2 prefix_f3 rex_w rex_r rex_x rex_b set_opcode length].
  f_equal; [lia|..].
  all: try (by rewrite orb_false_r, orb_assoc, (orb_comm (existsb _ _))).
  all: destruct (last_rex ps); [done|]; by destruct (is_rex p).
Qed.

(** The loop on a run of prefixes that ends with an opcode. *)
Lemma decode_prefixes_spec c ps op : forall fuel i,
  memory_wf (m_memory c) -> 0 <= opcode_address i -> opcode_address i + Z.of_nat (length ps) < 2 ^ 64 ->
  Forall (fun q => is_prefix q = true) ps -> is_prefix op = false ->
  guest_read c (opcode_address i) (S (length ps)) = Some (ps ++ [op]) -> (length ps < fuel)%nat ->
  decode_prefixes fuel (set_opcode i (default op (head ps))) c = Returned (Some (decoded i ps op)) c.
Proof.
  induction ps as [|p ps IH]; intros [|fuel] i Hm Ha1 Ha2 Hps Hop Hread Hfuel; simpl in Hfuel; try lia.
  - cbn [decode_prefixes default head]. rewrite apply_prefix_spec, Hop. unfold decoded. cbn [length].
    rewrite Z.add_0_r. by destruct i.
  - inversion Hps as [|? ? Hp Hps']; subst. cbn [decode_prefixes length] in *.
    change (default op (head (p :: ps))) with p.
    rewrite apply_prefix_spec, Hp. cbv zeta.
    cbn [set_opcode_address opcode_address decoded length].
    destruct (guest_read_cons c _ _ _ _ Hm Hread) as [_ Hrest].
    assert (u64 (opcode_address i + 1) = opcode_address i + 1) as Ea by (apply u64_id; words).
    assert (exists bs, ps ++ [op] = default op (head ps) :: bs) as [bs Hbs] by (destruct ps; eauto).
    destruct (guest_read_cons c _ _ (default op (head ps)) bs Hm ltac:(by rewrite <- Hbs)) as [Hfirst _].
    erewrite bind_eq by (rewrite Ea, read_u8_spec, Hfirst by (done || words); reflexivity).
    cbv beta iota. rewrite Ea.
    replace (le_decode [default op (head ps)]) with (default op (head ps)) by (cbn; lia).
    rewrite IH; [by rewrite <- (decoded_cons i p ps op)|done|cbn; lia..|done|done|exact Hrest|lia].
Qed.

Lemma decode_prefixes_eq c ps op :
  state_wf (m_state c) -> memory_wf (m_memory c) ->
  let ip := instruction_pointer (m_state c) in
  ip + Z.of_nat (length ps) < 2 ^ 64 ->
  Forall (fun p => is_prefix p = true) ps -> is_prefix op = false ->
  guest_read c ip (S (length ps)) = Some (ps ++ [op]) ->
  decode_x64_instruction c =
    Returned (Some {| address := ip; opcode_address := ip + Z.of_nat (length ps);
                      next_address := u64 (ip + Z.of_nat (length ps) + 1); opcode := op;
                      prefix_66 := seen 0x66 ps; prefix_f2 := seen 0xF2 ps; prefix_f3 := seen 0xF3 ps;
                      rex_w := rex_bit ps 8 false; rex_r := rex_bit ps 4 false;
                      rex_x := rex_bit ps 2 false; rex_b := rex_bit ps 1 false |}) c.
Proof.
  intros Hs Hm ip Hip Hps Hop Hread. subst ip. pose proof (wf_ip _ Hs) as Hok.
  assert (exists bs, ps ++ [op] = default op (head ps) :: bs) as [bs Hbs] by (destruct ps; eauto).
  destruct (guest_read_cons c _ _ (default op (head ps)) bs Hm ltac:(by rewrite <- Hbs)) as [Hfirst _].
  unfold decode_x64_instruction. erewrite bind_eq by reflexivity. cbv zeta.
  cbn [opcode_address initial_instruction].
  erewrite bind_eq by (rewrite read_u8_spec, Hfirst by done; reflexivity). cbv beta iota.
  replace (le_decode [default op (head ps)]) with (default op (head ps)) by (cbn; lia).
  erewrite bind_eq; [|apply (decode_prefixes_spec c ps op)]; [|done|apply Hok|done..|].
  - cbn [opcode_address decoded initial_instruction set_next_address]. unfold decoded.
    cbn [address opcode_address next_address opcode prefix_66 prefix_f2 prefix_f3 rex_w rex_r rex_x rex_b initial_instruction].
    by rewrite !orb_false_r.
  - unfold guest_read, in_window in Hread. destruct (_ && _) eqn:Ew in Hread; [|done]. bool_hyps.
    unfold decode_fuel. lia.
Qed.

(** C28: On any run of prefix bytes followed by an opcode the decoder returns that opcode, the
    address after it, a flag for each legacy prefix present anywhere in the run, and the bits of
    the last REX byte of the run. *)
Theorem decode_prefixes_and_opcode c ps op :
  state_wf (m_state c) -> memory_wf (m_memory c) ->
  let ip := instruction_pointer (m_state c) in
  ip + Z.of_nat (length ps) < 2 ^ 64 ->
  Forall (fun p => is_prefix p = true) ps -> is_prefix op = false ->
  guest_read c ip (S (length ps)) = Some (ps ++ [op]) ->
  decode_x64_instruction c =
    Returned (Some {| address := ip; opcode_address := ip + Z.of_nat (length ps);
                      next_address := u64 (ip + Z.of_nat (length ps) + 1); opcode := op;
                      prefix_66 := seen 0x66 ps; prefix_f2 := seen 0xF2 ps; prefix_f3 := seen 0xF3 ps;
                      rex_w := rex_bit ps 8 false; rex_r := rex_bit ps 4 false;
                      rex_x := rex_bit ps 2 false; rex_b := rex_bit ps 1 false |}) c.
Proof. apply decode_prefixes_eq. Qed.
End spec.

Lemma decode_prefixes_and_opcode_witness :
  decode_x64_instruction (sample [0x66; 0x48; 0x89]) =
    Returned (Some {| address := 0x1000; opcode_address := 0x1000 + Z.of_nat 2;
                      next_address := u64 (0x1000 + Z.of_nat 2 + 1); opcode := 0x89;
                      prefix_66 := seen 0x66 [0x66; 0x48]; prefix_f2 := seen 0xF2 [0x66; 0x48];
                      prefix_f3 := seen 0xF3 [0x66; 0x48];
                      rex_w := rex_bit [0x66; 0x48] 8 false; rex_r := rex_bit [0x66; 0x48] 4 false;
                      rex_x := rex_bit [0x66; 0x48] 2 false; rex_b := rex_bit [0x66; 0x48] 1 false |})
      (sample [0x66; 0x48; 0x89]).
Proof.
  apply (decode_prefixes_and_opcode (sample [0x66; 0x48; 0x89]) [0x66; 0x48] 0x89);
    [exact sample_state_wf|by apply sample_memory_wf|vm_compute; reflexivity|
     repeat constructor|vm_compute; reflexivity|vm_compute; reflexivity].
Defined.

