(* ===== verification/InstructionSpecs.v ===== *)
(** What whole instructions do to the guest: calls and returns, conditional
    jumps after a comparison, arithmetic on registers, system calls, and the
    rejection of every opcode without a handler. *)
From S2P Require Import Prelude EmulatorTypes ExecutionContext GuestMemory OperandFields Decoder Flags Samples.
From S2P Require Import AluInstructions DataMovementInstructions StackInstructions ControlFlowInstructions SystemInstructions.

Section control_flow.
Context {W : Type}.
Implicit Types c : x64_execution_context W.
Import ControlFlowInstructions.

Definition move_ip c (ip : Z) : x64_execution_context W := with_state c (set_ip (m_state c) ip).

Lemma continue_at_spec c ip :
  continue_at ip c = Returned X64_INSTRUCTION_OUTCOME_CONTINUE_RUNNING (move_ip c ip).
Proof. reflexivity. Qed.

Lemma reject_rex_w_spec i c : rex_w i = false -> reject_rex_w i c = Returned false c.
Proof. unfold reject_rex_w. by intros ->. Qed.

(** A call that continues: the displacement, the pushed return address and the target. *)
Lemma call_relative_continues c c1 i :
  memory_wf (m_memory c) -> u64_ok (next_address i) -> rex_w i = false ->
  execute_x64_call_relative i c = Returned X64_INSTRUCTION_OUTCOME_CONTINUE_RUNNING c1 ->
  exists bs cp, guest_read c (next_address i) 4 = Some bs /\
    push_u64 (u64 (next_address i + 4)) c = Returned true cp /\
    c1 = move_ip cp (u64 (u64 (next_address i + 4) + s32 (le_decode bs))).
Proof.
  intros Hm Hi Hw H. unfold execute_x64_call_relative in H.
  rewrite (bind_eq _ _ _ _ _ (reject_rex_w_spec i c Hw)) in H. cbv beta iota in H.
  pose proof (read_i32_spec c _ Hm Hi) as Hr.
  destruct (guest_read c (next_address i) 4) as [bs|]; rewrite (bind_eq _ _ _ _ _ Hr) in H; [|done].
  cbv beta iota zeta in H. apply bind_returned in H as ([] & cp & Hp & H); [|done].
  exists bs, cp. split_and!; [done|done|by injection H].
Qed.

(** The instruction pointer plays no part in a pop. *)
Lemma pop_move_ip c c2 ip v :
  state_wf (m_state c) -> memory_wf (m_memory c) -> u64_ok ip ->
  pop_u64 c = Returned (Some v) c2 -> pop_u64 (move_ip c ip) = Returned (Some v) (move_ip c2 ip).
Proof.
  intros Hs Hm Hip H. rewrite pop_u64_spec in H by done.
  rewrite pop_u64_spec by (done || by apply state_wf_set_ip).
  change (guest_read (move_ip c ip) (register (move_ip c ip) RSP) 8) with (guest_read c (register c RSP) 8).
  destruct (guest_read c (register c RSP) 8); [|done]. by injection H as <- <-.
Qed.

(** C29: A relative call that continues sets the instruction pointer to the next instruction
    plus the displacement, and a return executed then comes back to the instruction after the
    call with every register and flag restored and no byte changed outside the eight below the
    stack pointer. *)
Theorem call_return_roundtrip c c1 i i' :
  state_wf (m_state c) -> memory_wf (m_memory c) -> u64_ok (next_address i) ->
  rex_w i = false -> rex_w i' = false ->
  execute_x64_call_relative i c = Returned X64_INSTRUCTION_OUTCOME_CONTINUE_RUNNING c1 ->
  exists bs c2, guest_read c (next_address i) 4 = Some bs /\
    instruction_pointer (m_state c1) = u64 (next_address i + 4 + s32 (le_decode bs)) /\
    execute_x64_return i' c1 = Returned X64_INSTRUCTION_OUTCOME_CONTINUE_RUNNING c2 /\
    m_state c2 = m_state (move_ip c (u64 (next_address i + 4))) /\
    forall a n, a + Z.of_nat n <= u64 (register c RSP - 8) \/ u64 (register c RSP - 8) + 8 <= a ->
      guest_read c2 a n = guest_read c a n.
Proof.
  intros Hs Hm Hi Hw Hw' Hcall.
  destruct (call_relative_continues c c1 i Hm Hi Hw Hcall) as (bs & cp & Hbs & Hp & ->).
  pose proof (push_u64_returned c cp _ Hs Hm Hp) as (cw & Hcw & -> & Hst).
  destruct (pop_after_push c _ _ Hs Hm (u64_range _) Hp) as (cw' & Hcw' & _ & Hpop).
  rewrite Hcw in Hcw'. injection Hcw' as <-.
  assert (state_wf (m_state (put_register cw RSP (u64 (register c RSP - 8))))) as Hsp
    by (apply put_register_state_wf; [by rewrite Hst|apply u64_range]).
  assert (memory_wf (m_memory (put_register cw RSP (u64 (register c RSP - 8))))) as Hmp
    by exact (guest_write_memory_wf _ _ _ _ Hm (le_encode_bytes 8 _) Hcw).
  exists bs. eexists. split_and!; [done|by cbn; rewrite u64_u64_add_l| | |].
  - unfold execute_x64_return. rewrite (bind_eq _ _ _ _ _ (reject_rex_w_spec i' _ Hw')). cbv beta iota.
    rewrite (bind_eq _ _ _ _ _ (pop_move_ip _ _ _ _ Hsp Hmp (u64_range _) Hpop)). reflexivity.
  - cbn. by rewrite Hst.
  - intros a n Hd. refine (guest_read_write_disjoint c cw _ _ a n Hm Hcw _).
    rewrite length_le_encode. exact Hd.
Qed.

(** The context after the flags of a comparison have been set. *)
Definition with_compare_flags c (lhs rhs : Z) (b : bool) : x64_execution_context W :=
  with_state c (set_flags (m_state c) (compare_flags (flags (m_state c)) lhs rhs ((lhs - rhs) mod 2 ^ width b) b)).

Lemma zero_flag_after_compare c lhs rhs b :
  0 <= lhs < 2 ^ width b -> 0 <= rhs < 2 ^ width b ->
  negb (Z.land (flags (m_state (with_compare_flags c lhs rhs b))) RFLAGS_ZERO =? 0) = (lhs =? rhs).
Proof.
  intros Hl Hr. unfold RFLAGS_ZERO. rewrite land_bit_nonzero by lia. cbn.
  rewrite compare_flags_written by done. exact (f_equal ZF (written_flags_bits _ _ _ _ _)).
Qed.

(** After a comparison, the short jump 0x74 is taken exactly when the operands were equal
    and 0x75 exactly when they differed, to the next instruction plus the sign-extended
    displacement. *)
Lemma compare_then_short_branch c i lhs rhs b d :
  memory_wf (m_memory c) -> u64_ok (next_address i) -> rex_w i = false ->
  opcode i = 0x74 \/ opcode i = 0x75 -> guest_read c (next_address i) 1 = Some [d] ->
  0 <= lhs < 2 ^ width b -> 0 <= rhs < 2 ^ width b ->
  (set_compare_flags lhs rhs ((lhs - rhs) mod 2 ^ width b) b ;; execute_x64_jump_short_condition i) c
  = Returned X64_INSTRUCTION_OUTCOME_CONTINUE_RUNNING
      (move_ip (with_compare_flags c lhs rhs b)
         (if eqb (opcode i =? 0x74) (lhs =? rhs) then u64 (next_address i + 1 + s8 d)
          else u64 (next_address i + 1))).
Proof.
  intros Hm Hi Hw Hop Hd Hl Hr. erewrite bind_eq by reflexivity. fold (with_compare_flags c lhs rhs b).
  unfold execute_x64_jump_short_condition.
  rewrite (bind_eq _ _ _ _ _ (reject_rex_w_spec i _ Hw)). cbv beta iota.
  assert (read_i8 (next_address i) (with_compare_flags c lhs rhs b)
          = Returned (Some (s8 d)) (with_compare_flags c lhs rhs b)) as Hread.
  { rewrite read_i8_spec by done. change (guest_read (with_compare_flags c lhs rhs b)) with (guest_read c).
    rewrite Hd. cbn [le_decode]. by rewrite Z.mul_0_r, Z.add_0_r. }
  rewrite (bind_eq _ _ _ _ _ Hread). cbv beta iota. erewrite bind_eq by reflexivity. cbv zeta.
  rewrite zero_flag_after_compare, continue_at_spec by done.
  by destruct Hop as [-> | ->], (lhs =? rhs).
Qed.

(** After a comparison, the near jump 0F 84 is taken exactly when the operands were equal
    and 0F 85 exactly when they differed, to the next instruction plus the sign-extended
    displacement. *)
Lemma compare_then_near_branch c i lhs rhs b op bs :
  memory_wf (m_memory c) -> u64_ok (next_address i) ->
  op = 0x84 \/ op = 0x85 -> guest_read c (next_address i) 1 = Some [op] ->
  guest_read c (u64 (next_address i + 1)) 4 = Some bs ->
  0 <= lhs < 2 ^ width b -> 0 <= rhs < 2 ^ width b ->
  (set_compare_flags lhs rhs ((lhs - rhs) mod 2 ^ width b) b ;; execute_x64_jump_near_condition i) c
  = Returned X64_INSTRUCTION_OUTCOME_CONTINUE_RUNNING
      (move_ip (with_compare_flags c lhs rhs b)
         (if eqb (op =? 0x84) (lhs =? rhs) then u64 (next_address i + 5 + s32 (le_decode bs))
          else u64 (next_address i + 5))).
Proof.
  intros Hm Hi Hop Hsec Hd Hl Hr. erewrite bind_eq by reflexivity. fold (with_compare_flags c lhs rhs b).
  unfold execute_x64_jump_near_condition. set (c' := with_compare_flags c lhs rhs b).
  assert (read_u8 (next_address i) c' = Returned (Some op) c') as Hread.
  { rewrite read_u8_spec by done. change (guest_read c') with (guest_read c).
    rewrite Hsec. cbn [le_decode]. by rewrite Z.mul_0_r, Z.add_0_r. }
  assert (read_i32 (u64 (next_address i + 1)) c' = Returned (Some (s32 (le_decode bs))) c') as Hread32.
  { rewrite read_i32_spec by (done || apply u64_range). change (guest_read c') with (guest_read c). by rewrite Hd. }
  rewrite (bind_eq _ _ _ _ _ Hread). cbv beta iota.
  rewrite (bind_eq _ _ _ _ _ Hread32). cbv beta iota. erewrite bind_eq by reflexivity. cbv zeta.
  subst c'. rewrite zero_flag_after_compare, continue_at_spec by done.
  replace (next_address i + 1 + 4) with (next_address i + 5) by lia. by destruct Hop as [-> | ->], (lhs =? rhs).
Qed.
End control_flow.

Definition plain_instruction (op : Z) : x64_decoded_instruction :=
  {| address := 0x1000; opcode_address := 0x1000; next_address := 0x1001; opcode := op;
     prefix_66 := false; prefix_f2 := false; prefix_f3 := false;
     rex_w := false; rex_r := false; rex_x := false; rex_b := false |}.

Lemma call_return_roundtrip_witness :
  let c := sample [0xE8; 0x10; 0; 0; 0] in
  let c1 := final (ControlFlowInstructions.execute_x64_call_relative (plain_instruction 0xE8) c) c in
  exists bs c2, guest_read c 0x1001 4 = Some bs /\
    instruction_pointer (m_state c1) = u64 (0x1001 + 4 + s32 (le_decode bs)) /\
    ControlFlowInstructions.execute_x64_return (plain_instruction 0xC3) c1
    = Returned X64_INSTRUCTION_OUTCOME_CONTINUE_RUNNING c2 /\
    m_state c2 = m_state (move_ip c (u64 (0x1001 + 4))) /\
    forall a n, a + Z.of_nat n <= u64 (register c RSP - 8) \/ u64 (register c RSP - 8) + 8 <= a ->
      guest_read c2 a n = guest_read c a n.
Proof.
  intros c c1. apply (call_return_roundtrip c c1 (plain_instruction 0xE8) (plain_instruction 0xC3));
    [exact sample_state_wf|by apply sample_memory_wf|vm_compute; split; congruence|reflexivity|reflexivity|
     vm_compute; reflexivity].
Defined.

Lemma compare_then_short_branch_witness :
  let c := sample [0x74; 0x10] in
  (set_compare_flags 4 4 ((4 - 4) mod 2 ^ width true) true ;;
   ControlFlowInstructions.execute_x64_jump_short_condition (plain_instruction 0x74)) c
  = Returned X64_INSTRUCTION_OUTCOME_CONTINUE_RUNNING
      (move_ip (with_compare_flags c 4 4 true)
         (if eqb (0x74 =? 0x74) (4 =? 4) then u64 (0x1001 + 1 + s8 0x10) else u64 (0x1001 + 1))).
Proof.
  intros c. apply (compare_then_short_branch c (plain_instruction 0x74) 4 4 true 0x10);
    [by apply sample_memory_wf|vm_compute; split; congruence|reflexivity|by left|vm_compute; reflexivity|
     simpl width; lia|simpl width; lia].
Defined.

Lemma compare_then_near_branch_witness :
  let c := sample [0x0F; 0x85; 1; 0; 0; 0] in
  (set_compare_flags 4 5 ((4 - 5) mod 2 ^ width false) false ;;
   ControlFlowInstructions.execute_x64_jump_near_condition (plain_instruction 0x0F)) c
  = Returned X64_INSTRUCTION_OUTCOME_CONTINUE_RUNNING
      (move_ip (with_compare_flags c 4 5 false)
         (if eqb (0x85 =? 0x84) (4 =? 5) then u64 (0x1001 + 5 + s32 (le_decode [1; 0; 0; 0]))
          else u64 (0x1001 + 5))).
Proof.
  intros c. apply (compare_then_near_branch c (plain_instruction 0x0F) 4 5 false 0x85 [1; 0; 0; 0]);
    [by apply sample_memory_wf|vm_compute; split; congruence|by right|vm_compute; reflexivity|
     vm_compute; reflexivity|simpl width; lia|simpl width; lia].
Defined.


Section system.
Context {W : Type}.
Implicit Types c : x64_execution_context W.
Import SystemInstructions.

Definition outcome_of_action (a : x64_emulator_syscall_action) : x64_instruction_outcome :=
  match a with
  | X64_EMULATOR_SYSCALL_ACTION_CONTINUE => X64_INSTRUCTION_OUTCOME_CONTINUE_RUNNING
  | X64_EMULATOR_SYSCALL_ACTION_YIELD | X64_EMULATOR_SYSCALL_ACTION_EXIT_THREAD =>
      X64_INSTRUCTION_OUTCOME_RETIRE_AND_STOP
  end.

Definition result_of_action (a : x64_emulator_syscall_action) (r : x64_emulator_result) : x64_emulator_result :=
  match a with
  | X64_EMULATOR_SYSCALL_ACTION_CONTINUE => r
  | X64_EMULATOR_SYSCALL_ACTION_YIELD =>
      set_status X64_EMULATOR_COMPLETION_YIELDED X64_EMULATOR_GUEST_STOP_REASON_YIELDED
        X64_EMULATOR_BACKEND_FAILURE_NONE r
  | X64_EMULATOR_SYSCALL_ACTION_EXIT_THREAD =>
      set_status X64_EMULATOR_COMPLETION_THREAD_EXITED X64_EMULATOR_GUEST_STOP_REASON_THREAD_EXITED
        X64_EMULATOR_BACKEND_FAILURE_NONE r
  end.

Lemma syscall_returns_status_eq c i handler :
  state_wf (m_state c) -> handle_syscall (m_callbacks c) = Some handler ->
  let entered := set_ip (m_state c) (u64 (next_address i + 1)) in
  let '(r, w, b) := handler (m_world c) entered (bytes (m_memory c)) in
  exists c', execute_x64_syscall i c = Returned (outcome_of_action (action r)) c' /\
    m_state c' = set_general_registers entered
      (<[Z.to_nat (register_index X64_GENERAL_REGISTER_RAX) := u64 (status r)]> (general_registers entered)) /\
    m_world c' = w /\ m_memory c' = m_memory (with_bytes c b) /\ m_result c' = result_of_action (action r) (m_result c) /\
    m_callbacks c' = m_callbacks c /\ m_options c' = m_options c.
Proof.
  intros Hs Hh entered. destruct (handler _ _ _) as [[r w] b] eqn:E.
  unfold execute_x64_syscall. erewrite bind_eq by reflexivity. fold entered.
  set (c1 := with_bytes (with_world (with_state c entered) w) b).
  assert (call_handle_syscall (with_state c entered) = Returned r c1) as Hcall.
  { unfold call_handle_syscall. erewrite bind_eq by reflexivity. cbn [m_callbacks with_state]. rewrite Hh.
    cbn [m_world m_state m_memory with_state]. by rewrite E. }
  rewrite (bind_eq _ _ _ _ _ Hcall). cbv beta.
  erewrite bind_eq by (apply set_register64_spec; [|simpl; lia]; apply state_wf_set_ip, u64_range; done).
  destruct (action r); eexists; split_and!; reflexivity.
Qed.

(** SYSCALL hands the callback the registers with the instruction pointer already past the
    instruction, stores the sign-extended status in RAX, keeps whatever the callback did to
    memory and the world, and ends as the callback's action says. *)
Lemma syscall_returns_status c i handler :
  state_wf (m_state c) -> handle_syscall (m_callbacks c) = Some handler ->
  let entered := set_ip (m_state c) (u64 (next_address i + 1)) in
  let '(r, w, b) := handler (m_world c) entered (bytes (m_memory c)) in
  exists c', execute_x64_syscall i c = Returned (outcome_of_action (action r)) c' /\
    m_state c' = set_general_registers entered
      (<[Z.to_nat (register_index X64_GENERAL_REGISTER_RAX) := u64 (status r)]> (general_registers entered)) /\
    m_world c' = w /\ bytes (m_memory c') = b /\ m_result c' = result_of_action (action r) (m_result c).
Proof.
  intros Hs Hh entered. pose proof (syscall_returns_status_eq c i handler Hs Hh) as H. fold entered in H. cbv zeta in H.
  destruct (handler _ _ _) as [[r w] b]. destruct H as (c' & Hx & Hst & Hw & Hm & Hr & _). exists c'.
  split_and!; try done. by rewrite Hm.
Qed.
End system.

Lemma syscall_returns_status_witness :
  let c := sample [0x0F; 0x05] in
  exists c', SystemInstructions.execute_x64_syscall (plain_instruction 0x0F) c
      = Returned X64_INSTRUCTION_OUTCOME_CONTINUE_RUNNING c' /\
    m_state c' = set_general_registers (set_ip sample_state (u64 (0x1001 + 1))) (<[0%nat := u64 7]> sample_registers) /\
    m_world c' = 1 /\ bytes (m_memory c') = bytes (m_memory c) /\ m_result c' = sample_result.
Proof.
  intros c. exact (syscall_returns_status c (plain_instruction 0x0F) sample_handler sample_state_wf eq_refl).
Defined.


(** ** Arithmetic on a register operand *)

Inductive alu_operation := Add | Subtract | Compare.

(** The operations the handlers of 0x81 and 0x83 implement, by the [reg] field. *)
Definition alu_operation_of (field : Z) : option alu_operation :=
  if field =? 0 then Some Add else if field =? 5 then Some Subtract else if field =? 7 then Some Compare else None.

(** The value and the flags of an operation, on operands of a width. *)
Definition alu_value (op : alu_operation) (b : bool) (lhs rhs : Z) : Z :=
  match op with
  | Add => (lhs + rhs) mod 2 ^ width b
  | Subtract | Compare => (lhs - rhs) mod 2 ^ width b
  end.

Definition alu_flags (op : alu_operation) (old : Z) (b : bool) (lhs rhs : Z) : Z :=
  match op with
  | Add => add_flags old lhs rhs (alu_value op b lhs rhs) b
  | Subtract | Compare => compare_flags old lhs rhs (alu_value op b lhs rhs) b
  end.

Section arithmetic.
Context {W : Type}.
Implicit Types c : x64_execution_context W.
Import AluInstructions.

(** The context after [op] between register [r] and an immediate. *)
Definition alu_context c (op : alu_operation) (b : bool) (r rhs : Z) : x64_execution_context W :=
  let lhs := register c r mod 2 ^ width b in
  let written := match op with Compare => c | _ => put_register c r (alu_value op b lhs rhs) end in
  with_state written (set_flags (m_state written) (alu_flags op (flags (m_state c)) b lhs rhs)).

Definition register_operand (i : x64_decoded_instruction) (a modrm : Z) : x64_decoded_rm_operand :=
  {| mod_field := 3; operation := field_reg modrm; rm_index := extend (field_rm modrm) (rex_b i);
     rm_is_register := true; rm_address := 0; next_instruction := u64 (a + 1) |}.

Lemma le_decode_byte v : le_decode [v] = v.
Proof. cbn. lia. Qed.

Lemma decode_register_operand c i a modrm :
  memory_wf (m_memory c) -> u64_ok a -> guest_read c a 1 = Some [modrm] -> field_mod modrm = 3 ->
  try_decode_rm_operand i a c = Returned (Some (register_operand i a modrm)) c.
Proof.
  intros Hm Ha Hr Hmod. unfold try_decode_rm_operand.
  erewrite bind_eq by (rewrite read_u8_spec, Hr by done; reflexivity).
  cbv beta iota zeta. rewrite le_decode_byte, Hmod. reflexivity.
Qed.

Lemma load_register64 c i a modrm :
  state_wf (m_state c) ->
  load_rm64 (register_operand i a modrm) c = Returned (Some (register c (extend (field_rm modrm) (rex_b i)))) c.
Proof.
  intros Hs. unfold load_rm64, register_operand. cbn [rm_is_register rm_index].
  by erewrite bind_eq by (apply get_register64_spec; [done|apply extend_rm]).
Qed.

Lemma get_register32_spec c r :
  state_wf (m_state c) -> 0 <= r < 16 -> get_register32 r c = Returned (u32 (register c r)) c.
Proof. intros. unfold get_register32. by erewrite bind_eq by (by apply get_register64_spec). Qed.

Lemma load_register32 c i a modrm :
  state_wf (m_state c) ->
  load_rm32 (register_operand i a modrm) c = Returned (Some (u32 (register c (extend (field_rm modrm) (rex_b i))))) c.
Proof.
  intros Hs. unfold load_rm32, register_operand. cbn [rm_is_register rm_index].
  by erewrite bind_eq by (apply get_register32_spec; [done|apply extend_rm]).
Qed.

Lemma store_register64 c i a modrm v :
  state_wf (m_state c) ->
  store_rm64 (register_operand i a modrm) v c = Returned true (put_register c (extend (field_rm modrm) (rex_b i)) v).
Proof.
  intros Hs. unfold store_rm64, register_operand. cbn [rm_is_register rm_index].
  by erewrite bind_eq by (apply set_register64_spec; [done|apply extend_rm]).
Qed.

Lemma store_register32 c i a modrm v :
  state_wf (m_state c) ->
  store_rm32 (register_operand i a modrm) v c = Returned true (put_register c (extend (field_rm modrm) (rex_b i)) v).
Proof. apply store_register64. Qed.

(** What both handlers do once the operand and the immediate are known. *)
Definition arithmetic_result c (i : x64_decoded_instruction) (modrm rhs next : Z)
    : outcome (x64_execution_context W) x64_instruction_outcome :=
  match alu_operation_of (field_reg modrm) with
  | Some op =>
      Returned X64_INSTRUCTION_OUTCOME_CONTINUE_RUNNING
        (move_ip (alu_context c op (rex_w i) (extend (field_rm modrm) (rex_b i)) (rhs mod 2 ^ width (rex_w i))) next)
  | None => stop_unsupported (opcode i) c
  end.

Ltac alu_steps :=
  unfold arithmetic_result, alu_operation_of;
  repeat match goal with |- context [if field_reg ?m =? ?n then _ else _] => destruct (field_reg m =? n) end;
  repeat (first [ erewrite bind_eq by (by apply store_register64)
                | erewrite bind_eq by (by apply store_register32)
                | erewrite bind_eq by reflexivity ]; cbv beta iota delta [negb]);
  try reflexivity.

(** A 64-bit operand is not truncated. *)
Lemma register_mod64 c r : state_wf (m_state c) -> 0 <= r < 16 -> register c r mod 2 ^ width true = register c r.
Proof. intros Hs Hr. apply Z.mod_small. exact (register_ok c r Hs Hr). Qed.

Ltac alu_close Hs Ew :=
  rewrite continue_at_spec; unfold alu_context; rewrite Ew;
  rewrite ?(register_mod64 _ _ Hs (extend_rm _ _)); reflexivity.

(** On a register operand, opcode 0x83 adds, subtracts or compares the sign-extended 8-bit
    immediate at the operand width (the 32-bit form clears the upper half), sets the flags of
    that operation, and rejects every other operation of the group. *)
Lemma group83_register c i modrm imm :
  state_wf (m_state c) -> memory_wf (m_memory c) -> u64_ok (next_address i) ->
  guest_read c (next_address i) 1 = Some [modrm] -> field_mod modrm = 3 ->
  guest_read c (u64 (next_address i + 1)) 1 = Some [imm] ->
  execute_x64_group83 i c = arithmetic_result c i modrm (s8 imm) (u64 (u64 (next_address i + 1) + 1)).
Proof.
  intros Hs Hm Hi Hmodrm Hmod Himm. unfold execute_x64_group83.
  rewrite (bind_eq _ _ _ _ _ (decode_register_operand c i _ _ Hm Hi Hmodrm Hmod)). cbv beta iota.
  erewrite bind_eq by (cbn [next_instruction register_operand]; rewrite read_i8_spec, Himm by (done || apply u64_range); reflexivity).
  cbv beta iota zeta. rewrite le_decode_byte. destruct (rex_w i) eqn:Ew.
  - rewrite (bind_eq _ _ _ _ _ (load_register64 c i _ _ Hs)). cbv beta iota zeta.
    cbn [operation next_instruction register_operand]. alu_steps; alu_close Hs Ew.
  - rewrite (bind_eq _ _ _ _ _ (load_register32 c i _ _ Hs)). cbv beta iota zeta.
    cbn [operation next_instruction register_operand]. alu_steps; alu_close Hs Ew.
Qed.

(** On a register operand, opcode 0x81 adds, subtracts or compares the sign-extended 32-bit
    immediate at the operand width, sets the flags of that operation, and rejects every other
    operation of the group. *)
Lemma group81_register c i modrm bs :
  state_wf (m_state c) -> memory_wf (m_memory c) -> u64_ok (next_address i) ->
  guest_read c (next_address i) 1 = Some [modrm] -> field_mod modrm = 3 ->
  guest_read c (u64 (next_address i + 1)) 4 = Some bs ->
  execute_x64_group81 i c = arithmetic_result c i modrm (s32 (le_decode bs)) (u64 (u64 (next_address i + 1) + 4)).
Proof.
  intros Hs Hm Hi Hmodrm Hmod Himm. unfold execute_x64_group81.
  rewrite (bind_eq _ _ _ _ _ (decode_register_operand c i _ _ Hm Hi Hmodrm Hmod)). cbv beta iota.
  erewrite bind_eq by (cbn [next_instruction register_operand]; rewrite read_i32_spec, Himm by (done || apply u64_range); reflexivity).
  cbv beta iota zeta. destruct (rex_w i) eqn:Ew.
  - rewrite (bind_eq _ _ _ _ _ (load_register64 c i _ _ Hs)). cbv beta iota zeta.
    cbn [operation next_instruction register_operand]. alu_steps; alu_close Hs Ew.
  - rewrite (bind_eq _ _ _ _ _ (load_register32 c i _ _ Hs)). cbv beta iota zeta.
    cbn [operation next_instruction register_operand]. alu_steps; alu_close Hs Ew.
Qed.
End arithmetic.

Lemma group83_register_witness :
  let c := sample [0x83; 0xC3; 0xFF] in
  AluInstructions.execute_x64_group83 (plain_instruction 0x83) c
  = arithmetic_result c (plain_instruction 0x83) 0xC3 (s8 0xFF) (u64 (u64 (0x1001 + 1) + 1)).
Proof.
  intros c. apply (group83_register c (plain_instruction 0x83) 0xC3 0xFF);
    [exact sample_state_wf|by apply sample_memory_wf|vm_compute; split; congruence|vm_compute; reflexivity..].
Defined.

Lemma group81_register_witness :
  let c := sample [0x81; 0xEB; 1; 2; 0; 0] in
  AluInstructions.execute_x64_group81 (plain_instruction 0x81) c
  = arithmetic_result c (plain_instruction 0x81) 0xEB (s32 (le_decode [1; 2; 0; 0])) (u64 (u64 (0x1001 + 1) + 4)).
Proof.
  intros c. apply (group81_register c (plain_instruction 0x81) 0xEB [1; 2; 0; 0]);
    [exact sample_state_wf|by apply sample_memory_wf|vm_compute; split; congruence|vm_compute; reflexivity..].
Defined.

