(* ===== verification/Interpreter.v ===== *)
(** The dispatch tables ([emulator/x64/x64_instruction_dispatch.cpp]), the run
    loop ([emulator/x64/x64_interpreter.cpp]) and the entry point
    ([emulator/x64/x64_emulator.cpp]). *)
From stdpp Require Import strings.
From S2P Require Import Prelude EmulatorTypes ExecutionContext GuestMemory Decoder Samples.
From S2P Require Import AluInstructions DataMovementInstructions SimdInstructions.
From S2P Require Import ControlFlowInstructions StackInstructions SystemInstructions.

Section dispatch.
Context {W : Type}.

Definition x64_instruction_handler : Type := x64_decoded_instruction -> X W x64_instruction_outcome.

(** A dispatch table is the list of the assignments made to it (each index at
    most once); an index none of them names holds the initial handler. *)
Definition handler_table : Type := list (Z * x64_instruction_handler).

Definition lookup_handler (table : handler_table) (index : Z) : x64_instruction_handler :=
  match list_find (fun e => e.1 = index) table with
  | Some (_, (_, handler)) => handler
  | None => SystemInstructions.execute_x64_unsupported
  end.

(** [for (opcode = first; opcode <= last; ++opcode) table[opcode] = handler;] *)
Definition fill_range (first last : Z) (handler : x64_instruction_handler) : handler_table :=
  (fun k => (first + Z.of_nat k, handler)) <$> seq 0 (Z.to_nat (last - first + 1)).

(** The assignments of [initialize_opcode_handlers] to
    [m_primary_opcode_handlers], in the order of the source; no index is
    assigned twice. *)
Definition m_primary_opcode_handlers : handler_table :=
  [ (0x80, DataMovementInstructions.execute_x64_group80);
    (0x81, AluInstructions.execute_x64_group81);
    (0x08, AluInstructions.execute_x64_or_register_byte);
    (0x0B, AluInstructions.execute_x64_or_rm_to_register);
    (0x89, DataMovementInstructions.execute_x64_mov_register);
    (0x8B, DataMovementInstructions.execute_x64_mov_register);
    (0x39, AluInstructions.execute_x64_compare_rm_with_register);
    (0x31, AluInstructions.execute_x64_xor_register);
    (0x85, AluInstructions.execute_x64_test_register);
    (0xA9, AluInstructions.execute_x64_test_accumulator_immediate);
    (0x83, AluInstructions.execute_x64_group83);
    (0x8D, DataMovementInstructions.execute_x64_lea);
    (0x90, DataMovementInstructions.execute_x64_nop);
    (0xC7, DataMovementInstructions.execute_x64_mov_immediate_to_rm);
    (0xF6, AluInstructions.execute_x64_group_f6);
    (0xF7, AluInstructions.execute_x64_group_f7);
    (0xC3, ControlFlowInstructions.execute_x64_return);
    (0xE8, ControlFlowInstructions.execute_x64_call_relative);
    (0xE9, ControlFlowInstructions.execute_x64_jump_relative_near);
    (0xEB, ControlFlowInstructions.execute_x64_jump_relative_short);
    (0x74, ControlFlowInstructions.execute_x64_jump_short_condition);
    (0x75, ControlFlowInstructions.execute_x64_jump_short_condition);
    (0xFF, ControlFlowInstructions.execute_x64_group_ff) ]
  ++ fill_range 0x50 0x57 StackInstructions.execute_x64_push_register
  ++ fill_range 0x58 0x5F StackInstructions.execute_x64_pop_register
  ++ fill_range 0xB8 0xBF DataMovementInstructions.execute_x64_mov_immediate32.

Definition m_secondary_opcode_handlers : handler_table :=
  [ (0x10, SimdInstructions.execute_x64_secondary_mov_xmm);
    (0x11, SimdInstructions.execute_x64_secondary_store_xmm);
    (0x05, SystemInstructions.execute_x64_syscall);
    (0x29, SimdInstructions.execute_x64_secondary_store_xmm);
    (0x84, ControlFlowInstructions.execute_x64_jump_near_condition);
    (0x85, ControlFlowInstructions.execute_x64_jump_near_condition);
    (0x94, DataMovementInstructions.execute_x64_secondary_setcc);
    (0x95, DataMovementInstructions.execute_x64_secondary_setcc);
    (0xB6, DataMovementInstructions.execute_x64_secondary_movzx_byte);
    (0x57, SimdInstructions.execute_x64_secondary_xorps);
    (0x60, SimdInstructions.execute_x64_secondary_punpcklbw);
    (0x6E, SimdInstructions.execute_x64_secondary_movd);
    (0x70, SimdInstructions.execute_x64_secondary_shuffle);
    (0x7F, SimdInstructions.execute_x64_secondary_store_xmm);
    (0xD6, SimdInstructions.execute_x64_secondary_movq_store);
    (0x1F, SystemInstructions.execute_x64_secondary_nop) ].

Definition dispatch_secondary_opcode (i : x64_decoded_instruction) : X W x64_instruction_outcome :=
  if rex_w i then stop_unsupported (opcode i)
  else
    secondary_opcode ← read_u8 (next_address i);
    match secondary_opcode with
    | None =>
        set_invalid_memory_access (next_address i) 0 ;;
        mret X64_INSTRUCTION_OUTCOME_STOP_RUNNING
    | Some secondary_opcode =>
        set_fault_opcode secondary_opcode ;;
        lookup_handler m_secondary_opcode_handlers secondary_opcode i
    end.

Definition dispatch (i : x64_decoded_instruction) : X W x64_instruction_outcome :=
  set_fault i ;;
  if opcode i =? 0x0F then dispatch_secondary_opcode i
  else lookup_handler m_primary_opcode_handlers (opcode i) i.
End dispatch.

Section interpreter.
Context {W : Type}.

(** [++m_context.get_result().retired_instructions;] *)
Definition retire_instruction : X W unit :=
  modify_result (fun r => set_retired r (u64 (retired_instructions r + 1))).

(** The [while] loop; each iteration that does not leave it retires an
    instruction, so the budget bounds the iterations. *)
Fixpoint run_loop (fuel : nat) : X W bool :=
  match fuel with
  | O => out_of_fuel
  | S fuel =>
      c ← get;
      if retired_instructions (m_result c) <? instruction_budget (m_options c) then
        instruction ← decode_x64_instruction;
        match instruction with
        | None => mret true
        | Some instruction =>
            outcome ← dispatch instruction;
            (if decide (outcome = X64_INSTRUCTION_OUTCOME_CONTINUE_RUNNING
                        \/ outcome = X64_INSTRUCTION_OUTCOME_RETIRE_AND_STOP)
             then retire_instruction else mret tt) ;;
            if decide (outcome = X64_INSTRUCTION_OUTCOME_CONTINUE_RUNNING) then run_loop fuel
            else mret true
        end
      else
        set_backend_failure X64_EMULATOR_BACKEND_FAILURE_INSTRUCTION_LIMIT_REACHED ;;
        mret true
  end.

Definition run : X W bool :=
  initialize_result ;;
  c ← get;
  if negb (is_valid_invocation c) then
    set_backend_failure X64_EMULATOR_BACKEND_FAILURE_INVALID_ARGUMENT ;;
    mret true
  else run_loop (S (Z.to_nat (instruction_budget (m_options c)))).
End interpreter.

Definition initialize_backend_failure_result (s : x64_emulator_state) (failure : x64_emulator_backend_failure)
    : x64_emulator_result :=
  let cmp := match failure with
    | X64_EMULATOR_BACKEND_FAILURE_INSTRUCTION_LIMIT_REACHED => X64_EMULATOR_COMPLETION_INSTRUCTION_LIMIT_REACHED
    | X64_EMULATOR_BACKEND_FAILURE_INVALID_ARGUMENT => X64_EMULATOR_COMPLETION_INVALID_ARGUMENT
    | X64_EMULATOR_BACKEND_FAILURE_UNSUPPORTED_ENGINE => X64_EMULATOR_COMPLETION_UNSUPPORTED_ENGINE
    | X64_EMULATOR_BACKEND_FAILURE_NONE => X64_EMULATOR_COMPLETION_THREAD_EXITED
    end in
  {| completion := cmp; guest_stop_reason := X64_EMULATOR_GUEST_STOP_REASON_NONE; backend_failure := failure;
     retired_instructions := 0; fault_address := instruction_pointer s; fault_opcode := 0;
     fault := {| fault_instruction_pointer := instruction_pointer s; memory_address := 0;
                 fault_record_opcode := 0 |} |}.

Section emulator.
Context {W : Type}.

(** The arguments of [run_x64_emulator] are the context; a null [out_result]
    is [has_result = false]. *)
Definition run_x64_emulator (has_result : bool) : X W bool :=
  if negb has_result then mret false
  else
    c ← get;
    if decide (engine (m_options c) <> X64_EMULATOR_ENGINE_INTERPRETER) then
      modify (fun c => with_result c
        (initialize_backend_failure_result (m_state c) X64_EMULATOR_BACKEND_FAILURE_UNSUPPORTED_ENGINE)) ;;
      mret true
    else run.
End emulator.

(** * Safety of dispatch and of the run loop *)

Create HintDb handlers.
#[export] Hint Resolve
  DataMovementInstructions.group80_safe AluInstructions.group81_safe AluInstructions.or_register_byte_safe
  AluInstructions.or_rm_to_register_safe DataMovementInstructions.mov_register_safe
  AluInstructions.compare_rm_with_register_safe AluInstructions.xor_register_safe
  AluInstructions.test_register_safe AluInstructions.test_accumulator_immediate_safe AluInstructions.group83_safe
  DataMovementInstructions.lea_safe DataMovementInstructions.nop_safe
  DataMovementInstructions.mov_immediate_to_rm_safe AluInstructions.group_f6_safe AluInstructions.group_f7_safe
  ControlFlowInstructions.return_safe ControlFlowInstructions.call_relative_safe
  ControlFlowInstructions.jump_relative_near_safe ControlFlowInstructions.jump_relative_short_safe
  ControlFlowInstructions.jump_short_condition_safe ControlFlowInstructions.group_ff_safe
  StackInstructions.push_register_safe StackInstructions.pop_register_safe
  DataMovementInstructions.mov_immediate32_safe SimdInstructions.secondary_mov_xmm_safe
  SimdInstructions.secondary_store_xmm_safe SystemInstructions.syscall_safe
  ControlFlowInstructions.jump_near_condition_safe DataMovementInstructions.secondary_setcc_safe
  DataMovementInstructions.secondary_movzx_byte_safe SimdInstructions.secondary_xorps_safe
  SimdInstructions.secondary_punpcklbw_safe SimdInstructions.secondary_movd_safe
  SimdInstructions.secondary_shuffle_safe SimdInstructions.secondary_movq_store_safe
  SystemInstructions.secondary_nop_safe SystemInstructions.unsupported_safe : handlers.

Section safety.
Context {W : Type}.
Implicit Types c : x64_execution_context W.

(** The handler a table holds at an index can be run on any instruction with
    that (primary or secondary) opcode. *)
Definition handler_safe (c0 : x64_execution_context W) (selected : x64_decoded_instruction -> Z -> Prop)
    (e : Z * x64_instruction_handler) : Prop :=
  forall c i, live c0 c -> u64_ok (next_address i) -> selected i e.1 -> wp (e.2 i) (handler_post c0) c.

Lemma lookup_handler_safe c0 selected table c i k :
  Forall (handler_safe c0 selected) table -> live c0 c -> u64_ok (next_address i) -> selected i k ->
  wp (lookup_handler table k i) (handler_post c0) c.
Proof.
  intros Ht Hl Hi Hk. unfold lookup_handler.
  destruct (list_find _ table) as [[n [k' h]]|] eqn:E; [|by apply SystemInstructions.unsupported_safe].
  apply list_find_Some in E as (Hn & ? & _). simpl in *. subst.
  eapply Forall_lookup_1 in Hn; [|done]. by apply Hn.
Qed.

Lemma fill_range_safe c0 selected first last h :
  (forall k c i, first <= k <= last -> live c0 c -> u64_ok (next_address i) -> selected i k ->
     wp (h i) (handler_post c0) c) ->
  Forall (handler_safe c0 selected) (fill_range first last h).
Proof.
  intros H. unfold fill_range. apply Forall_fmap, Forall_forall. intros k Hk%list_elem_of_In%elem_of_seq c i Hl Hi Hs.
  eapply H; [|done..]. simpl. lia.
Qed.

Lemma primary_handlers_safe c0 :
  Forall (handler_safe c0 (fun i k => opcode i = k)) m_primary_opcode_handlers.
Proof.
  unfold m_primary_opcode_handlers. repeat apply Forall_app_2.
  - repeat constructor; intros c i Hl Hi _; simpl; auto with handlers.
  - apply fill_range_safe. intros. subst. auto with handlers.
  - apply fill_range_safe. intros. subst. auto with handlers.
  - apply fill_range_safe. intros. subst. auto with handlers.
Qed.

Lemma secondary_handlers_safe c0 :
  Forall (handler_safe c0 (fun _ _ => True)) m_secondary_opcode_handlers.
Proof. repeat constructor; intros c i Hl Hi _; simpl; auto with handlers. Qed.

Lemma wp_modify_result c0 c f (Q : unit -> _ -> Prop) :
  live c0 c -> (forall r, retired_instructions (f r) = retired_instructions r /\ (running_status r -> running_status (f r))) ->
  (forall c', live c0 c' -> Q tt c') -> wp (modify_result f) Q c.
Proof.
  intros Hl Hf HQ. apply wp_modify, HQ. destruct (Hf (m_result c)) as [? ?].
  apply live_with_result; [done..|]. destruct Hl; auto.
Qed.

(** Every instruction the decoder can produce is executed safely, whatever
    its opcode. *)
Lemma wp_dispatch c0 c i :
  live c0 c -> u64_ok (next_address i) -> wp (dispatch i) (handler_post c0) c.
Proof.
  intros Hl Hi. unfold dispatch. apply wp_bind. eapply wp_modify_result; [done|done|]. intros c1 Hl1.
  destruct (opcode i =? 0x0F); [|by eapply lookup_handler_safe; [apply primary_handlers_safe|..]].
  unfold dispatch_secondary_opcode. destruct (rex_w i).
  { eapply wp_stop_unsupported; [by apply live_env|done]. }
  apply wp_bind. eapply wp_read_u8; [done|done| |].
  - intros v Hv. apply wp_bind. eapply wp_modify_result; [done|done|]. intros c2 Hl2.
    eapply lookup_handler_safe; [apply secondary_handlers_safe|done..].
  - intros c2 Hf. apply wp_bind. eapply wp_set_invalid_memory_access; [by apply faulted_env|].
    intros c3 [He Hs]. apply wp_ret. split; [done|by left].
Qed.
End safety.

(** * The run loop *)

Definition completion_of_failure (failure : x64_emulator_backend_failure) : x64_emulator_completion :=
  match failure with
  | X64_EMULATOR_BACKEND_FAILURE_NONE => X64_EMULATOR_COMPLETION_THREAD_EXITED
  | X64_EMULATOR_BACKEND_FAILURE_INSTRUCTION_LIMIT_REACHED => X64_EMULATOR_COMPLETION_INSTRUCTION_LIMIT_REACHED
  | X64_EMULATOR_BACKEND_FAILURE_INVALID_ARGUMENT => X64_EMULATOR_COMPLETION_INVALID_ARGUMENT
  | X64_EMULATOR_BACKEND_FAILURE_UNSUPPORTED_ENGINE => X64_EMULATOR_COMPLETION_UNSUPPORTED_ENGINE
  end.

Definition failed_because (r : x64_emulator_result) (failure : x64_emulator_backend_failure) : Prop :=
  backend_failure r = failure /\ completion r = completion_of_failure failure /\
  guest_stop_reason r = X64_EMULATOR_GUEST_STOP_REASON_NONE.

(** The contract of a finished run: the three status fields agree, and the
    count of retired instructions fits the way the run ended. *)
Definition run_result_ok (budget : Z) (r : x64_emulator_result) : Prop :=
  (guest_fault r /\ 0 <= retired_instructions r < budget) \/
  (guest_left r /\ 0 < retired_instructions r <= budget) \/
  (failed_because r X64_EMULATOR_BACKEND_FAILURE_INSTRUCTION_LIMIT_REACHED /\ retired_instructions r = budget).

Section run_safety.
Context {W : Type}.
Implicit Types c : x64_execution_context W.

(** [n] system calls that let the guest continue. *)
Fixpoint worlds c0 (n : nat) (w w' : W) : Prop :=
  match n with
  | O => w' = w
  | S n => exists w1, world_step (m_callbacks c0) (size (m_memory c0)) X64_EMULATOR_SYSCALL_ACTION_CONTINUE w w1 /\ worlds c0 n w1 w'
  end.

(** The world has changed by system calls only, no more than instructions
    retired, and all but the last let the guest continue; the last did not
    exactly when the guest left as it asked. *)
Definition run_world c0 c (w : W) (retired : Z) : Prop :=
  exists n w1, worlds c0 n w w1 /\
    ((~ guest_left (m_result c) /\ Z.of_nat n <= retired /\ m_world c = w1) \/
     exists a, a <> X64_EMULATOR_SYSCALL_ACTION_CONTINUE /\ guest_stop_reason (m_result c) = stop_reason_of a /\
       Z.of_nat (S n) <= retired /\ world_step (m_callbacks c0) (size (m_memory c0)) a w1 (m_world c)).

Definition run_post (c0 : x64_execution_context W) (ok : bool) c : Prop :=
  ok = true /\ context_wf c /\ same_arguments c0 c /\
  run_result_ok (instruction_budget (m_options c0)) (m_result c) /\
  run_world c0 c (m_world c0) (retired_instructions (m_result c)).

(** Retiring keeps everything but the count. *)
Lemma wp_retire_instruction c0 c (Q : unit -> _ -> Prop) :
  context_wf c -> same_arguments c0 c -> retired_instructions (m_result c) = retired_instructions (m_result c0) ->
  (forall c', context_wf c' -> same_arguments c0 c' -> m_world c' = m_world c ->
    m_result c' = set_retired (m_result c) (u64 (retired_instructions (m_result c0) + 1)) -> Q tt c') ->
  wp retire_instruction Q c.
Proof.
  intros [] [] Hr HQ. apply wp_modify, HQ; [by constructor|by constructor|done|simpl; congruence].
Qed.

Lemma worlds_same c0 c1 n w w' : same_arguments c0 c1 -> worlds c1 n w w' -> worlds c0 n w w'.
Proof. intros [_ Hs Hc _]. revert w. induction n as [|n IH]; intros w; cbn; [done|]. rewrite Hs, Hc. intros (w1 & ? & ?). eauto. Qed.

(** After one more instruction, which may have been a system call. *)
Lemma run_world_same c0 c1 c w r r' : same_arguments c0 c1 -> run_world c1 c w r -> r <= r' -> run_world c0 c w r'.
Proof.
  intros Ha (n & w1 & Hw & H) Hr. exists n, w1. split; [by eapply worlds_same|]. destruct Ha as [_ Hs Hc _]. rewrite Hs, Hc in H.
  destruct H as [(? & ? & ?)|(a & ? & ? & ? & ?)]; [left; split_and!; [done|lia|done]|right; exists a; split_and!; [done|done|lia|done]].
Qed.

Lemma run_world_call c0 c1 c w w1 r r' :
  same_arguments c0 c1 -> world_step (m_callbacks c0) (size (m_memory c0)) X64_EMULATOR_SYSCALL_ACTION_CONTINUE w w1 ->
  run_world c1 c w1 r -> r + 1 <= r' -> run_world c0 c w r'.
Proof.
  intros Ha Hstep H Hr. apply (run_world_same c0 c1 c w1 r r Ha) in H as (n & w2 & Hw & H); [|lia]. exists (S n), w2.
  split; [by exists w1|].
  destruct H as [(? & ? & ?)|(a & ? & ? & ? & ?)]; [left; split_and!; [done|lia|done]|right; exists a; split_and!; [done|done|lia|done]].
Qed.

Lemma run_world_stays c0 c r : ~ guest_left (m_result c) -> 0 <= r -> run_world c0 c (m_world c) r.
Proof. intros Hn Hr. exists 0%nat, (m_world c). split; [done|]. left. by split_and!. Qed.

(** The loop from a context that has retired some instructions. *)
Definition loop_post (c0 : x64_execution_context W) (ok : bool) c : Prop :=
  ok = true /\ context_wf c /\ same_arguments c0 c /\
  run_result_ok (instruction_budget (m_options c0)) (m_result c) /\
  run_world c0 c (m_world c0) (retired_instructions (m_result c) - retired_instructions (m_result c0)).

(** What follows an instruction that lets the loop go on. *)
Lemma loop_post_next c c2 ok c3 :
  same_arguments c c2 -> retired_instructions (m_result c2) = retired_instructions (m_result c) + 1 ->
  m_world c2 = m_world c \/
    world_step (m_callbacks c) (size (m_memory c)) X64_EMULATOR_SYSCALL_ACTION_CONTINUE (m_world c) (m_world c2) ->
  loop_post c2 ok c3 -> loop_post c ok c3.
Proof.
  intros Hsame Hr Hw (? & ? & ? & Hres & Hworld). pose proof (run_options _ _ Hsame) as Ho. rewrite Ho in Hres. rewrite Hr in Hworld.
  split_and!; [done|done|by etransitivity|done|]. destruct Hw as [Hw|Hw].
  - rewrite Hw in Hworld. eapply run_world_same; [exact Hsame|exact Hworld|lia].
  - eapply run_world_call; [exact Hsame|exact Hw|exact Hworld|lia].
Qed.

Lemma not_left_fault r : guest_fault r -> ~ guest_left r.
Proof. intros [[E _]|[E _]] [[E' _]|[E' _]]; congruence. Qed.

(** One turn of the loop body after decoding. *)
Lemma wp_run_loop fuel c :
  context_wf c -> running_status (m_result c) ->
  0 <= retired_instructions (m_result c) <= instruction_budget (m_options c) ->
  instruction_budget (m_options c) - retired_instructions (m_result c) < Z.of_nat fuel ->
  wp (run_loop fuel) (loop_post c) c.
Proof.
  revert c. induction fuel as [|fuel IH]; intros c Hwf Hrun Hret Hfuel; [lia|]. cbn [run_loop].
  pose proof (wf_budget c Hwf) as Hbudget.
  apply wp_bind, wp_get. destruct (Z.ltb_spec (retired_instructions (m_result c)) (instruction_budget (m_options c))).
  2: { apply wp_bind, wp_modify, wp_ret. destruct Hwf. split_and!; [done|by constructor|by constructor| |].
       - right; right. split; [by split_and!|simpl; lia].
       - apply (run_world_stays c (with_result c _)); [by intros [[? _]|[? _]]|simpl; lia]. }
  apply wp_bind. eapply wp_decode_x64_instruction; [by apply live_self| |].
  2: { intros c' [[? [? ? ? ? Hr Hw]] ?]. apply wp_ret. split_and!; [done|done|by constructor| |].
       - left. split; [by left|lia].
       - rewrite <- Hw. apply run_world_stays; [apply not_left_fault; by left|lia]. }
  intros i Hop Hi. apply wp_bind. eapply wp_mono; [eapply wp_dispatch; [by apply live_self|done]|].
  assert (u64 (retired_instructions (m_result c) + 1) = retired_instructions (m_result c) + 1) as Hu
    by (apply u64_id; words).
  intros [] c' Hpost; cbn [handler_post] in Hpost; apply wp_bind.
  - rewrite decide_True by auto.
    assert (exists w, context_wf c' /\ same_arguments c c' /\ running_status (m_result c') /\
              retired_instructions (m_result c') = retired_instructions (m_result c) /\ m_world c' = w /\
              (w = m_world c \/ world_step (m_callbacks c) (size (m_memory c)) X64_EMULATOR_SYSCALL_ACTION_CONTINUE (m_world c) w))
      as (w & Hwf' & Hsame' & Hs & Hr' & Hw & Hstep).
    { destruct Hpost as [[[? Henv] ?]|(c1 & [Ha Hr Hw] & [[? Henv] ?])].
      - exists (m_world c'). split_and!; [done|by apply same_env_arguments|done|apply Henv|done|left; apply Henv].
      - exists (m_world c'). split_and!; [done|etransitivity; [exact Ha|by apply same_env_arguments]|done| |done|].
        + rewrite <- Hr. apply Henv.
        + right. by rewrite (same_world _ _ Henv). }
    eapply (wp_retire_instruction c); [done|done|done|]. intros c2 Hwf2 Hsame Hw2 Hr. rewrite decide_True by done.
    pose proof (run_options _ _ Hsame) as Ho. rewrite Hu in Hr.
    eapply wp_mono; [apply IH; [done|by rewrite Hr|rewrite Hr, Ho; simpl; lia..]|].
    intros ok c3. apply loop_post_next; [done|by rewrite Hr|]. by rewrite Hw2, Hw.
  - rewrite decide_True by auto. destruct Hpost as (c1 & a & Ha & [Hsame1 Hr1 Hw1] & [Hwf' Henv] & Hs).
    pose proof (same_env_arguments _ _ Henv) as Hsame2.
    eapply (wp_retire_instruction c); [done|by etransitivity|rewrite (same_retired _ _ Henv); exact Hr1|].
    intros c2 Hwf2 Hsame Hw2 Hr. rewrite decide_False by done. apply wp_ret. rewrite Hu in Hr.
    assert (guest_left (m_result c2)) as Hleft by (rewrite Hr; destruct a; [done|by right|by left]).
    split_and!; [done..| |].
    + right; left. split; [done|]. rewrite Hr. simpl. lia.
    + exists 0%nat, (m_world c). split; [done|]. right. exists a. rewrite Hw2, (same_world _ _ Henv). rewrite Hr. simpl.
      split_and!; [done|apply Hs|lia|done].
  - rewrite decide_False by (intros [|]; congruence). apply wp_ret. rewrite decide_False by done. apply wp_ret.
    destruct Hpost as [[? Hsame] Hs]. split_and!; [done|done|by apply same_env_arguments| |].
    + left. rewrite (same_retired _ _ Hsame). split; [done|lia].
    + rewrite <- (same_world _ _ Hsame), (same_retired _ _ Hsame). apply run_world_stays; [by apply not_left_fault|lia].
Qed.

Lemma wp_initialize_result c (Q : unit -> _ -> Prop) :
  context_wf c ->
  (forall c', context_wf c' -> same_arguments c c' -> running_status (m_result c') ->
     retired_instructions (m_result c') = 0 -> m_world c' = m_world c -> Q tt c') ->
  wp initialize_result Q c.
Proof.
  intros [Hs ???] HQ. unfold initialize_result. apply wp_bind, wp_modify, wp_modify, HQ; [|by constructor|done|done|done].
  constructor; [|done..]. apply state_wf_set_flags; [done|]. apply u64_lor; [apply Hs|auto with words].
Qed.

Lemma valid_invocation c : context_wf c -> instruction_budget (m_options c) <> 0 -> is_valid_invocation c = true.
Proof.
  intros [_ [_ _ (l & Hb & _)] (h & Hh & _) _] Hn. unfold is_valid_invocation. rewrite Hh, Hb.
  by apply negb_true_iff, Z.eqb_neq.
Qed.

Lemma wp_run c :
  context_wf c -> instruction_budget (m_options c) <> 0 -> wp run (run_post c) c.
Proof.
  intros Hwf Hn. unfold run. apply wp_bind. eapply wp_initialize_result; [done|].
  intros c1 Hwf1 Hsame Hrun Hret Hw. pose proof (run_options _ _ Hsame) as Ho.
  apply wp_bind, wp_get. rewrite valid_invocation by congruence. cbn [negb].
  pose proof (wf_budget _ Hwf1). rewrite <- Ho in *.
  eapply wp_mono; [apply wp_run_loop; [done|done|rewrite Hret; words|rewrite Hret; words]|].
  intros ok c3 (? & ? & ? & Hres & Hworld). rewrite Hret, Hw in Hworld.
  split_and!; [done|done|by etransitivity|congruence|]. eapply run_world_same; [exact Hsame|exact Hworld|lia].
Qed.
End run_safety.

(** * Properties of the entry point *)

Section properties.
Context {W : Type}.
Implicit Types c : x64_execution_context W.

Lemma run_x64_emulator_returns c :
  context_wf c -> instruction_budget (m_options c) <> 0 -> engine (m_options c) = X64_EMULATOR_ENGINE_INTERPRETER ->
  wp (run_x64_emulator true) (run_post c) c.
Proof.
  intros Hwf Hn He. unfold run_x64_emulator. apply wp_bind, wp_get. rewrite decide_False by congruence.
  by apply wp_run.
Qed.

(** C1: A valid run of the emulator always returns true with a consistent result, whatever bytes
    the guest executes: no access outside the register arrays or the guest window, no null
    callback, no loop that exhausts its fuel (the only undefined behaviour left is the signed
    overflow of the address computation); registers, memory and options stay well formed, the
    three status fields agree, the count of retired instructions fits the way the run ended, and
    the world the callback acts on has changed by at most as many system calls as instructions
    retired, each of which let the guest continue but for a last one when the guest left, for
    the reason that call gave. *)
Theorem run_x64_emulator_safe c :
  context_wf c -> instruction_budget (m_options c) <> 0 -> engine (m_options c) = X64_EMULATOR_ENGINE_INTERPRETER ->
  wp (run_x64_emulator true) (run_post c) c.
Proof. apply run_x64_emulator_returns. Qed.

(** The result [run_x64_emulator] leaves when it refuses to run. *)
Definition refused_result c (failure : x64_emulator_backend_failure) : x64_emulator_result :=
  initialize_backend_failure_result (m_state c) failure.

(** run_x64_emulator does nothing without a result record, reports the JIT engine as
    unsupported without touching the guest, and reports a null callback, a null window or a zero
    budget as an invalid argument after setting only the reserved flag. *)
Lemma run_x64_emulator_refuses c :
  run_x64_emulator false c = Returned false c /\
  (engine (m_options c) = X64_EMULATOR_ENGINE_JIT ->
   run_x64_emulator true c
   = Returned true (with_result c (refused_result c X64_EMULATOR_BACKEND_FAILURE_UNSUPPORTED_ENGINE))) /\
  (engine (m_options c) = X64_EMULATOR_ENGINE_INTERPRETER ->
   handle_syscall (m_callbacks c) = None \/ bytes (m_memory c) = None \/ instruction_budget (m_options c) = 0 ->
   run_x64_emulator true c
   = Returned true
       (with_result (with_state c (set_flags (m_state c) (Z.lor (flags (m_state c)) RFLAGS_RESERVED)))
          (refused_result c X64_EMULATOR_BACKEND_FAILURE_INVALID_ARGUMENT))).
Proof.
  split_and!; [done| |].
  - intros He. unfold run_x64_emulator. cbn [negb]. erewrite bind_eq by reflexivity.
    by rewrite decide_True by congruence.
  - intros He Hbad. unfold run_x64_emulator. cbn [negb]. erewrite bind_eq by reflexivity.
    rewrite decide_False by congruence. unfold run. erewrite bind_eq by reflexivity.
    erewrite bind_eq by reflexivity.
    assert (is_valid_invocation c = false) as Hv.
    { unfold is_valid_invocation. destruct Hbad as [-> | [-> | ->]]; [done| |]; by repeat case_match. }
    match goal with |- context [is_valid_invocation ?x] => change (is_valid_invocation x) with (is_valid_invocation c) end.
    by rewrite Hv.
Qed.

Lemma lookup_handler_unsupported (table : handler_table (W := W)) k :
  k ∉ table.*1 -> lookup_handler table k = SystemInstructions.execute_x64_unsupported.
Proof.
  intros Hk. unfold lookup_handler. destruct (list_find _ table) as [[n [k' h]]|] eqn:E; [|done].
  apply list_find_Some in E as (Hn & Hk' & _). simpl in Hk'. subst.
  exfalso. apply Hk, list_elem_of_fmap. exists (k, h). split; [done|]. by eapply list_elem_of_lookup_2.
Qed.

(** What remains of a context when an instruction is rejected: the guest's
    registers, memory and world are untouched, and the result names the
    opcode. *)
Record rejected (c c' : x64_execution_context W) (op : Z) : Prop := {
  rejected_state : m_state c' = m_state c;
  rejected_memory : m_memory c' = m_memory c;
  rejected_world : m_world c' = m_world c;
  rejected_status : stopped_because (m_result c') X64_EMULATOR_GUEST_STOP_REASON_UNSUPPORTED_INSTRUCTION;
  rejected_opcode : fault_opcode (m_result c') = op;
  rejected_retired : retired_instructions (m_result c') = retired_instructions (m_result c);
}.

(** Dispatching an opcode (or a secondary opcode after 0x0F) that no table entry names
    leaves registers, memory and world unchanged and reports an unsupported instruction at its
    address; the opcode reported for a secondary one is 0x0F. *)
Lemma unsupported_opcodes_rejected c i op :
  memory_wf (m_memory c) -> u64_ok (next_address i) ->
  (opcode i <> 0x0F /\ opcode i ∉ (m_primary_opcode_handlers (W := W)).*1) \/
  (opcode i = 0x0F /\ rex_w i = false /\ guest_read c (next_address i) 1 = Some [op] /\
   op ∉ (m_secondary_opcode_handlers (W := W)).*1) ->
  exists c', dispatch i c = Returned X64_INSTRUCTION_OUTCOME_STOP_RUNNING c' /\ rejected c c' (opcode i) /\
    fault_address (m_result c') = address i.
Proof.
  intros Hm Hi [(Hne & Hop) | (He & Hw & Hr & Hop)]; unfold dispatch; erewrite bind_eq by reflexivity.
  - rewrite (proj2 (Z.eqb_neq _ _) Hne), lookup_handler_unsupported by done.
    eexists. split; [reflexivity|]. split; [by constructor|done].
  - rewrite He, Z.eqb_refl. unfold dispatch_secondary_opcode. rewrite Hw.
    erewrite bind_eq by (rewrite read_u8_spec by done;
      match goal with |- context [guest_read (with_result ?c ?r) ?a ?n] =>
        change (guest_read (with_result c r) a n) with (guest_read c a n) end;
      rewrite Hr; reflexivity).
    cbv beta iota. erewrite bind_eq by reflexivity.
    replace (le_decode [op]) with op by (cbn; lia). rewrite lookup_handler_unsupported by done.
    eexists. split; [reflexivity|]. split; [by constructor|done].
Qed.
End properties.

(** mov edi, 7; mov eax, 60; syscall *)
Definition exit_program : list Z := [0xBF; 7; 0; 0; 0; 0xB8; 60; 0; 0; 0; 0x0F; 0x05].

Lemma run_x64_emulator_safe_witness :
  wp (run_x64_emulator true) (run_post (sample exit_program)) (sample exit_program).
Proof.
  apply run_x64_emulator_safe; [by apply sample_wf|vm_compute; congruence|reflexivity].
Defined.

Lemma unsupported_opcodes_rejected_witness :
  let i := {| address := 0x1000; opcode_address := 0x1000; next_address := 0x1001; opcode := 0xF4;
              prefix_66 := false; prefix_f2 := false; prefix_f3 := false;
              rex_w := false; rex_r := false; rex_x := false; rex_b := false |} in
  exists c', dispatch i (sample [0xF4]) = Returned X64_INSTRUCTION_OUTCOME_STOP_RUNNING c' /\
    rejected (sample [0xF4]) c' 0xF4 /\ fault_address (m_result c') = 0x1000.
Proof.
  intros i. apply (unsupported_opcodes_rejected (sample [0xF4]) i 0);
    [by apply sample_memory_wf|vm_compute; split; congruence|].
  left. split; [vm_compute; congruence|]. refine (bool_decide_unpack _ _). vm_compute. exact I.
Defined.

(** The program runs to its end: two moves and the system call that ends the thread. *)
Example exit_program_runs :
  match run_x64_emulator true (sample exit_program) with
  | Returned ok c => ok = true /\ stopped_because (m_result c) X64_EMULATOR_GUEST_STOP_REASON_THREAD_EXITED /\
                     retired_instructions (m_result c) = 3 /\ m_world c = 1
  | _ => False
  end.
Proof. vm_compute. repeat split. Qed.


Definition describe_x64_emulator_completion (c : x64_emulator_completion) : string :=
  match c with
  | X64_EMULATOR_COMPLETION_THREAD_EXITED => "x64 emulator thread exited cleanly"
  | X64_EMULATOR_COMPLETION_YIELDED => "x64 emulator yielded to the kernel scheduler"
  | X64_EMULATOR_COMPLETION_INSTRUCTION_LIMIT_REACHED => "x64 emulator hit the instruction budget"
  | X64_EMULATOR_COMPLETION_INVALID_MEMORY_ACCESS => "x64 emulator touched unmapped guest memory"
  | X64_EMULATOR_COMPLETION_UNSUPPORTED_INSTRUCTION => "x64 emulator hit an unsupported instruction"
  | X64_EMULATOR_COMPLETION_INVALID_ARGUMENT => "x64 emulator received an invalid argument"
  | X64_EMULATOR_COMPLETION_UNSUPPORTED_ENGINE => "x64 emulator backend is not implemented"
  end.

Definition describe_x64_emulator_guest_stop_reason (r : x64_emulator_guest_stop_reason) : string :=
  match r with
  | X64_EMULATOR_GUEST_STOP_REASON_NONE => "x64 emulator stopped without a guest event"
  | X64_EMULATOR_GUEST_STOP_REASON_THREAD_EXITED => "x64 emulator thread exited cleanly"
  | X64_EMULATOR_GUEST_STOP_REASON_YIELDED => "x64 emulator yielded to the kernel scheduler"
  | X64_EMULATOR_GUEST_STOP_REASON_INVALID_MEMORY_ACCESS => "x64 emulator touched unmapped guest memory"
  | X64_EMULATOR_GUEST_STOP_REASON_UNSUPPORTED_INSTRUCTION => "x64 emulator hit an unsupported instruction"
  end.

Definition describe_x64_emulator_backend_failure (f : x64_emulator_backend_failure) : string :=
  match f with
  | X64_EMULATOR_BACKEND_FAILURE_NONE => "x64 emulator backend did not fail"
  | X64_EMULATOR_BACKEND_FAILURE_INSTRUCTION_LIMIT_REACHED => "x64 emulator hit the instruction budget"
  | X64_EMULATOR_BACKEND_FAILURE_INVALID_ARGUMENT => "x64 emulator received an invalid argument"
  | X64_EMULATOR_BACKEND_FAILURE_UNSUPPORTED_ENGINE => "x64 emulator backend is not implemented"
  end.
