(* ===== verification/AddressSpace.v ===== *)
(** [kernel/address_space.cpp]: the table of mappings of a process, its
    validity, and the translation of user addresses to host addresses. *)
From S2P Require Import Prelude.

Definition USER_RUNTIME_MAX_ADDRESS_SPACE_MAPPINGS : Z := 8.

(** [UINTPTR_MAX] of the two 64-bit targets. *)
Definition UINTPTR_MAX : Z := UINT64_MAX.

Record address_space_mapping := {
  user_address : Z;   (* uintptr_t *)
  host_address : Z;   (* uintptr_t *)
  mapping_size : Z;   (* size_t *)
}.

#[export] Instance address_space_mapping_eq_dec : EqDecision address_space_mapping.
Proof. solve_decision. Defined.

Record address_space := {
  arch_root_table : Z;                   (* uintptr_t *)
  mapping_count : Z;                     (* uint32_t *)
  mappings : list address_space_mapping; (* address_space_mapping[8] *)
}.

(** The elements the loops [for (index = 0; index < mapping_count; ++index)] visit. *)
Definition active (a : address_space) : list address_space_mapping :=
  take (Z.to_nat (mapping_count a)) (mappings a).

Definition is_valid_address_range (base_address size : Z) : bool :=
  negb (size =? 0) && (size <=? u64 (UINTPTR_MAX - base_address)).

Definition ranges_overlap (left_address left_size right_address right_size : Z) : bool :=
  let left_limit := u64 (left_address + left_size) in
  let right_limit := u64 (right_address + right_size) in
  (left_address <? right_limit) && (right_address <? left_limit).

(** The condition under which the loop of [find_address_space_mapping] returns a mapping. *)
Definition mapping_matches (address : Z) (allow_mapping_limit : bool) (m : address_space_mapping) : bool :=
  if mapping_size m =? 0 then false
  else
    let mapping_limit := u64 (user_address m + mapping_size m) in
    if address <? user_address m then false
    else (address <? mapping_limit) || (allow_mapping_limit && (address =? mapping_limit)).

Definition find_address_space_mapping (a : address_space) (address : Z) (allow_mapping_limit : bool)
    : option address_space_mapping :=
  snd <$> list_find (fun m => mapping_matches address allow_mapping_limit m = true) (active a).

(** Returns the value and the address space after the call. *)
Definition add_address_space_mapping (a : address_space) (user host size : Z) : bool * address_space :=
  if negb (is_valid_address_range user size) || negb (is_valid_address_range host size) then (false, a)
  else if USER_RUNTIME_MAX_ADDRESS_SPACE_MAPPINGS <=? mapping_count a then (false, a)
  else if existsb (fun m => ranges_overlap user size (user_address m) (mapping_size m)) (active a) then (false, a)
  else
    (true,
     {| arch_root_table := arch_root_table a;
        mapping_count := u32 (mapping_count a + 1);
        mappings := <[Z.to_nat (mapping_count a) :=
                        {| user_address := user; host_address := host; mapping_size := size |}]> (mappings a) |}).

(** Returns [*out_host_address] and [*out_translated_length]. *)
Definition try_translate_address_space_chunk (a : address_space) (address requested_length : Z)
    : option (Z * Z) :=
  match find_address_space_mapping a address (requested_length =? 0) with
  | None => None
  | Some m =>
      let translated_offset := u64 (address - user_address m) in
      if (host_address m =? 0) || (u64 (UINTPTR_MAX - host_address m) <? translated_offset) then None
      else
        let available_length := u64 (mapping_size m - translated_offset) in
        if negb (requested_length =? 0) && (available_length =? 0) then None
        else
          Some (u64 (host_address m + translated_offset),
                if (requested_length =? 0) || (requested_length <=? available_length)
                then requested_length else available_length)
  end.

(** The [while] loop of [validate_address_space_range]; [None] is fuel used up. *)
Fixpoint validate_loop (fuel : nat) (a : address_space) (current_address remaining_length : Z) : option bool :=
  if remaining_length =? 0 then Some true
  else
    match fuel with
    | O => None
    | S fuel =>
        match try_translate_address_space_chunk a current_address remaining_length with
        | None => Some false
        | Some (_, translated_length) =>
            if (translated_length =? 0) || (remaining_length <? translated_length) then Some false
            else if u64 (UINTPTR_MAX - current_address) <? translated_length then Some false
            else validate_loop fuel a (u64 (current_address + translated_length))
                   (u64 (remaining_length - translated_length))
        end
    end.

(** Every iteration but the last ends at the limit of a mapping that later
    iterations do not meet again, so one more than the mappings is enough. *)
Definition validate_fuel (a : address_space) : nat := S (length (active a)).

Definition validate_address_space_range (a : address_space) (address len : Z) : option bool :=
  if len =? 0 then Some (if find_address_space_mapping a address true is Some _ then true else false)
  else validate_loop (validate_fuel a) a address len.

Definition try_translate_address_space_address (a : address_space) (address len : Z) : option (option Z) :=
  valid ← validate_address_space_range a address len;
  Some (if negb valid then None
        else match try_translate_address_space_chunk a address len with
             | Some (host, translated_length) => if translated_length =? len then Some host else None
             | None => None
             end).

(** * Well-formed address spaces *)

Record mapping_wf (m : address_space_mapping) : Prop := {
  mapping_user : 0 <= user_address m;
  mapping_host : 0 <= host_address m;
  mapping_nonempty : 0 < mapping_size m;
  mapping_user_limit : user_address m + mapping_size m <= UINTPTR_MAX;
  mapping_host_limit : host_address m + mapping_size m <= UINTPTR_MAX;
}.

(** A byte address lies in a mapping. *)
Definition covers (m : address_space_mapping) (x : Z) : Prop :=
  user_address m <= x < user_address m + mapping_size m.

#[export] Instance covers_dec m x : Decision (covers m x).
Proof. unfold covers. solve_decision. Defined.

Definition disjoint_mappings (m m' : address_space_mapping) : Prop := forall x, covers m x -> covers m' x -> False.

Record address_space_wf (a : address_space) : Prop := {
  as_length : length (mappings a) = 8%nat;
  as_count : 0 <= mapping_count a <= USER_RUNTIME_MAX_ADDRESS_SPACE_MAPPINGS;
  as_mappings : Forall mapping_wf (active a);
  as_disjoint : forall i j m m', active a !! i = Some m -> active a !! j = Some m' -> i <> j -> disjoint_mappings m m';
}.

Lemma UINTPTR_MAX_value : UINTPTR_MAX = 2 ^ 64 - 1.
Proof. reflexivity. Qed.

Lemma valid_range_spec base size :
  u64_ok base -> u64_ok size ->
  is_valid_address_range base size = true <-> 0 < size /\ base + size <= UINTPTR_MAX.
Proof.
  intros Hb Hs. unfold is_valid_address_range. rewrite u64_id by (unfold UINTPTR_MAX; words).
  rewrite andb_true_iff, negb_true_iff, Z.eqb_neq, Z.leb_le. unfold u64_ok in *. lia.
Qed.

Lemma mapping_limit_eq m : mapping_wf m -> u64 (user_address m + mapping_size m) = user_address m + mapping_size m.
Proof. intros []. apply u64_id. rewrite UINTPTR_MAX_value in *. words. Qed.

Lemma mapping_matches_spec m x b :
  mapping_wf m ->
  mapping_matches x b m = true <-> covers m x \/ (b = true /\ x = user_address m + mapping_size m).
Proof.
  intros Hm. pose proof (mapping_limit_eq m Hm) as E. destruct Hm. unfold mapping_matches, covers. rewrite E.
  rewrite (proj2 (Z.eqb_neq (mapping_size m) 0)) by lia. cbv zeta.
  destruct (Z.ltb_spec x (user_address m)); [split; [done|lia]|].
  rewrite orb_true_iff, Z.ltb_lt, andb_true_iff, Z.eqb_eq. intuition lia.
Qed.

Lemma ranges_overlap_spec user size m :
  mapping_wf m -> 0 <= user -> 0 < size -> user + size <= UINTPTR_MAX ->
  ranges_overlap user size (user_address m) (mapping_size m) = false <->
  disjoint_mappings {| user_address := user; host_address := 0; mapping_size := size |} m.
Proof.
  intros Hm Hu Hs Hl. pose proof (mapping_limit_eq m Hm) as E. unfold ranges_overlap, disjoint_mappings, covers.
  rewrite E, (u64_id (user + size)) by (rewrite UINTPTR_MAX_value in *; words). destruct Hm. cbv zeta. cbn.
  rewrite andb_false_iff, !Z.ltb_ge. split; [lia|]. intros H.
  destruct (Z.le_gt_cases (user_address m + mapping_size m) user); [by left|].
  destruct (Z.le_gt_cases (user + size) (user_address m)); [by right|].
  exfalso. apply (H (Z.max user (user_address m))); lia.
Qed.

(** * The reference: translation of one byte *)

(** The mapping that holds an address, and the host address of the byte. *)
Definition byte_host (a : address_space) (x : Z) : option Z :=
  m ← snd <$> list_find (fun m => covers m x) (active a);
  if decide (host_address m = 0) then None else Some (host_address m + (x - user_address m)).

Definition accessible (a : address_space) (x : Z) : Prop := is_Some (byte_host a x).

Lemma list_find_ext' {A} (P Q : A -> Prop) `{!forall x, Decision (P x), !forall x, Decision (Q x)} l :
  Forall (fun x => P x <-> Q x) l -> list_find P l = list_find Q l.
Proof.
  induction 1 as [|x l Hx Hl IH]; [done|]. cbn. rewrite IH.
  destruct (decide (P x)), (decide (Q x)); (reflexivity || tauto).
Qed.

Section translation.
Context (a : address_space) (Hwf : address_space_wf a).

Lemma active_wf m : m ∈ active a -> mapping_wf m.
Proof. intros Hm. pose proof (as_mappings a Hwf) as H. rewrite Forall_forall in H. by apply H, list_elem_of_In. Qed.

Lemma find_mapping_covers x :
  find_address_space_mapping a x false = snd <$> list_find (fun m => covers m x) (active a).
Proof.
  unfold find_address_space_mapping. f_equal. apply list_find_ext', Forall_forall. intros m Hm%list_elem_of_In.
  rewrite mapping_matches_spec by (by apply active_wf).
  split; [by intros [|[? _]]|by left].
Qed.

Lemma find_mapping_Some x m :
  find_address_space_mapping a x false = Some m -> m ∈ active a /\ covers m x.
Proof.
  rewrite find_mapping_covers. intros H. destruct (list_find _ _) as [[i m']|] eqn:E; [|done].
  injection H as ->. apply list_find_Some in E as (Hi & Hc & _). split; [by eapply list_elem_of_lookup_2|done].
Qed.

Lemma find_mapping_complete x m :
  m ∈ active a -> covers m x -> find_address_space_mapping a x false = Some m.
Proof.
  intros [i Hi]%list_elem_of_lookup_1 Hc. rewrite find_mapping_covers.
  destruct (list_find _ _) as [[j m']|] eqn:E.
  - apply list_find_Some in E as (Hj & Hc' & _). cbn. f_equal.
    destruct (decide (j = i)) as [->|Hne]; [congruence|].
    exfalso. by eapply (as_disjoint a Hwf j i m' m).
  - exfalso. eapply list_find_None, Forall_lookup_1 in E; [|done]. by apply E.
Qed.

Lemma byte_host_Some x h :
  byte_host a x = Some h <->
  exists m, m ∈ active a /\ covers m x /\ host_address m <> 0 /\ h = host_address m + (x - user_address m).
Proof.
  unfold byte_host. rewrite <- find_mapping_covers. split.
  - intros (m & Hm & H)%bind_Some. apply find_mapping_Some in Hm as [? ?].
    destruct (decide (host_address m = 0)); [done|]. injection H as <-. eauto.
  - intros (m & Hm & Hc & Hh & ->). rewrite (find_mapping_complete x m) by done. cbn. by rewrite decide_False.
Qed.

(** The chunk: the rest of the mapping, or the request if that is shorter. *)
Lemma chunk_spec x n :
  0 < n ->
  try_translate_address_space_chunk a x n =
    match find_address_space_mapping a x false with
    | Some m => if host_address m =? 0 then None
                else Some (host_address m + (x - user_address m), Z.min n (user_address m + mapping_size m - x))
    | None => None
    end.
Proof.
  intros Hn. unfold try_translate_address_space_chunk. rewrite (proj2 (Z.eqb_neq n 0)) by lia.
  destruct (find_address_space_mapping a x false) as [m|] eqn:E; [|done].
  apply find_mapping_Some in E as [Hm Hc]. pose proof (active_wf m Hm) as []. unfold covers in Hc. cbv zeta.
  rewrite UINTPTR_MAX_value in *.
  rewrite (u64_id (x - _)), (u64_id (2 ^ 64 - 1 - _)), (u64_id (mapping_size m - _)) by words.
  destruct (host_address m =? 0); [done|].
  rewrite (proj2 (Z.ltb_ge _ _)) by lia. rewrite (proj2 (Z.eqb_neq (mapping_size m - _) 0)) by lia. cbn [negb andb orb].
  rewrite u64_id by words. f_equal. f_equal. destruct (Z.leb_spec n (mapping_size m - (x - user_address m))); lia.
Qed.

(** A chunk is a run of bytes translated one by one. *)
Lemma chunk_bytes x n h k :
  0 < n -> try_translate_address_space_chunk a x n = Some (h, k) ->
  0 < k <= n /\ x + k <= UINTPTR_MAX /\ h + k <= UINTPTR_MAX /\ 0 <= h /\ 0 <= x /\
  (forall j, 0 <= j < k -> byte_host a (x + j) = Some (h + j)) /\
  (k = n \/ exists m, m ∈ active a /\ x + k = user_address m + mapping_size m).
Proof.
  intros Hn. rewrite chunk_spec by done. destruct (find_address_space_mapping a x false) as [m|] eqn:E; [|done].
  destruct (Z.eqb_spec (host_address m) 0); [done|]. injection 1 as <- <-.
  apply find_mapping_Some in E as [Hm Hc]. pose proof (active_wf m Hm) as []. unfold covers in Hc.
  split_and!; [lia..| |].
  - intros j Hj. apply byte_host_Some. exists m. split_and!; [done|unfold covers; lia|done|lia].
  - destruct (Z.le_gt_cases n (user_address m + mapping_size m - x)); [left; lia|right].
    exists m. split; [done|lia].
Qed.

Lemma chunk_None x n : 0 < n -> try_translate_address_space_chunk a x n = None -> byte_host a x = None.
Proof.
  intros Hn. rewrite chunk_spec by done. unfold byte_host. rewrite <- find_mapping_covers.
  destruct (find_address_space_mapping a x false) as [m|]; [|done]. cbn.
  destruct (Z.eqb_spec (host_address m) 0); [|done]. by rewrite decide_True.
Qed.

(** ** Termination: the mappings a walk from [x] can still meet *)

Definition ahead (x : Z) : nat := length (filter (fun m => x < user_address m + mapping_size m) (active a)).

Lemma filter_length_lt {A} (P Q : A -> Prop) `{!forall x, Decision (P x), !forall x, Decision (Q x)} l y :
  (forall x, P x -> Q x) -> y ∈ l -> Q y -> ~ P y -> (length (filter P l) < length (filter Q l))%nat.
Proof.
  intros HPQ Hy HQ HP.
  assert (forall l, (length (filter P l) <= length (filter Q l))%nat) as Hle.
  { clear -HPQ. induction l as [|x l IHl]; [done|]. rewrite !filter_cons. pose proof (HPQ x).
    destruct (decide (P x)), (decide (Q x)); cbn; (lia || tauto). }
  induction l as [|x l IH]; [by apply not_elem_of_nil in Hy|]. rewrite !filter_cons. pose proof (HPQ x) as Hx.
  specialize (Hle l). apply elem_of_cons in Hy as [<-|Hy].
  - rewrite (decide_False (P := P y)), (decide_True (P := Q y)) by done. cbn. lia.
  - specialize (IH Hy). destruct (decide (P x)), (decide (Q x)); cbn; (lia || tauto).
Qed.

Lemma ahead_decreases x y m :
  m ∈ active a -> x < user_address m + mapping_size m <= y -> (ahead y < ahead x)%nat.
Proof. intros Hm Hx. unfold ahead. apply (filter_length_lt _ _ _ m); [intros; lia|done|lia|lia]. Qed.

Lemma ahead_fuel x : (ahead x < validate_fuel a)%nat.
Proof. unfold ahead, validate_fuel. pose proof (length_filter (fun m => x < user_address m + mapping_size m) (active a)). lia. Qed.

Lemma validate_loop_spec fuel x n :
  0 <= n -> u64_ok n -> (ahead x < fuel)%nat ->
  exists b, validate_loop fuel a x n = Some b /\
    (b = true <-> forall j, 0 <= j < n -> accessible a (x + j)).
Proof.
  revert x n. induction fuel as [|fuel IH]; intros x n Hn Hok Hf; [lia|]. cbn [validate_loop].
  destruct (Z.eqb_spec n 0) as [->|Hne]; [exists true; split; [done|split; [lia|done]]|].
  destruct (try_translate_address_space_chunk a x n) as [[h k]|] eqn:E.
  - apply chunk_bytes in E as (Hk & Hx & Hh & Hh0 & Hx0 & Hbytes & Hend); [|lia].
    rewrite (proj2 (orb_false_iff _ _)) by (split; [apply Z.eqb_neq|apply Z.ltb_ge]; lia).
    rewrite UINTPTR_MAX_value in *. rewrite (u64_id (2 ^ 64 - 1 - x)) by words.
    rewrite (proj2 (Z.ltb_ge _ _)) by lia. rewrite (u64_id (x + k)), (u64_id (n - k)) by words.
    assert (exists b, validate_loop fuel a (x + k) (n - k) = Some b /\
              (b = true <-> forall j, 0 <= j < n - k -> accessible a (x + k + j))) as (b & Hb & Hiff).
    { destruct Hend as [->|(m & Hm & Hlim)].
      - exists true. rewrite Z.sub_diag. split; [by destruct fuel|]. split; [lia|done].
      - apply IH; [lia|words|]. pose proof (ahead_decreases x (x + k) m Hm ltac:(lia)). lia. }
    exists b. split; [done|]. rewrite Hiff. split.
    + intros Hrest j Hj. destruct (Z.lt_ge_cases j k); [eexists; apply Hbytes; lia|].
      replace (x + j) with (x + k + (j - k)) by lia. apply Hrest. lia.
    + intros Hall j Hj. replace (x + k + j) with (x + (k + j)) by lia. apply Hall. lia.
  - apply chunk_None in E; [|lia]. exists false. split; [done|]. split; [done|].
    intros H. destruct (H 0 ltac:(lia)) as [h Hh]. rewrite Z.add_0_r in Hh. congruence.
Qed.

Lemma validate_spec x n :
  0 < n -> u64_ok n ->
  exists b, validate_address_space_range a x n = Some b /\ (b = true <-> forall j, 0 <= j < n -> accessible a (x + j)).
Proof.
  intros Hn Hok. unfold validate_address_space_range. rewrite (proj2 (Z.eqb_neq n 0)) by lia.
  apply validate_loop_spec; [lia|done|apply ahead_fuel].
Qed.
End translation.

(** * Building an address space *)

Section building.
Context (a : address_space) (Hwf : address_space_wf a).

Definition new_mapping (user host size : Z) : address_space_mapping :=
  {| user_address := user; host_address := host; mapping_size := size |}.

(** What [add_address_space_mapping] requires of a new mapping. *)
Definition mapping_acceptable (user host size : Z) : Prop :=
  0 < size /\ user + size <= UINTPTR_MAX /\ host + size <= UINTPTR_MAX /\
  mapping_count a < USER_RUNTIME_MAX_ADDRESS_SPACE_MAPPINGS /\
  Forall (disjoint_mappings (new_mapping user host size)) (active a).

Lemma overlap_any user host size :
  u64_ok user -> 0 < size -> user + size <= UINTPTR_MAX ->
  existsb (fun m => ranges_overlap user size (user_address m) (mapping_size m)) (active a) = false <->
  Forall (disjoint_mappings (new_mapping user host size)) (active a).
Proof.
  intros Hu Hs Hl. pose proof (as_mappings a Hwf) as Hm. induction Hm as [|m l Hm Hl' IH]; [split; [constructor|done]|].
  cbn [existsb]. rewrite orb_false_iff, Forall_cons_iff, IH. rewrite ranges_overlap_spec by (done || apply Hu). done.
Qed.

Lemma active_length : length (active a) = Z.to_nat (mapping_count a).
Proof.
  destruct Hwf as [Hl Hc _ _]. unfold active. rewrite length_take. unfold USER_RUNTIME_MAX_ADDRESS_SPACE_MAPPINGS in Hc. lia.
Qed.

Lemma active_extend m :
  mapping_count a < USER_RUNTIME_MAX_ADDRESS_SPACE_MAPPINGS ->
  take (S (Z.to_nat (mapping_count a))) (<[Z.to_nat (mapping_count a) := m]> (mappings a)) = active a ++ [m].
Proof.
  intros Hc. destruct Hwf as [Hl Hc' _ _]. unfold USER_RUNTIME_MAX_ADDRESS_SPACE_MAPPINGS in *.
  rewrite (take_S_r _ _ m) by (apply list_lookup_insert_eq; lia). f_equal. apply take_insert_ge. lia.
Qed.

Lemma extended_wf a' m :
  length (mappings a') = 8%nat -> 0 <= mapping_count a' <= USER_RUNTIME_MAX_ADDRESS_SPACE_MAPPINGS ->
  active a' = active a ++ [m] -> mapping_wf m -> Forall (disjoint_mappings m) (active a) -> address_space_wf a'.
Proof.
  intros Hl Hc Ha Hm Hd. constructor; [done|done| |].
  - rewrite Ha. apply Forall_app. split; [apply Hwf|by constructor].
  - rewrite Ha. intros i j m1 m2 Hi Hj Hne. rewrite Forall_forall in Hd.
    assert (forall k m', (active a ++ [m]) !! k = Some m' -> (k < length (active a))%nat \/ (k = length (active a) /\ m' = m)) as Hk.
    { intros k m' H. apply lookup_app_Some in H as [H|[H1 H2]]; [left; by eapply lookup_lt_Some|].
      right. apply list_lookup_singleton_Some in H2 as [? <-]. split; [lia|done]. }
    assert (forall k m', (active a ++ [m]) !! k = Some m' -> (k < length (active a))%nat -> active a !! k = Some m' /\ In m' (active a)) as Hin.
    { intros k m' H Hlt. rewrite lookup_app_l in H by done. split; [done|].
      by apply list_elem_of_In, (list_elem_of_lookup_2 _ k). }
    destruct (Hk i m1 Hi) as [Hi'|[Hi' ->]], (Hk j m2 Hj) as [Hj'|[Hj' ->]]; [| | |lia].
    + destruct (Hin i m1 Hi Hi'), (Hin j m2 Hj Hj'). by eapply (as_disjoint a Hwf i j).
    + destruct (Hin i m1 Hi Hi'). intros x H1 H2. by eapply (Hd m1).
    + destruct (Hin j m2 Hj Hj'). intros x H1 H2. by eapply (Hd m2).
Qed.

Lemma add_mapping_spec user host size :
  u64_ok user -> u64_ok host -> u64_ok size ->
  let '(ok, a') := add_address_space_mapping a user host size in
  (ok = true <-> mapping_acceptable user host size) /\
  address_space_wf a' /\
  (if ok then active a' = active a ++ [new_mapping user host size] else a' = a).
Proof.
  intros Hu Hh Hs. unfold add_address_space_mapping, mapping_acceptable.
  pose proof (valid_range_spec user size Hu Hs) as Vu. pose proof (valid_range_spec host size Hh Hs) as Vh.
  destruct (is_valid_address_range user size); cbn [negb orb].
  2: { split_and!; [|done|done]. split; [done|]. intros (? & ? & _). exfalso. cut (false = true); [done|tauto]. }
  destruct (is_valid_address_range host size); cbn [negb].
  2: { split_and!; [|done|done]. split; [done|]. intros (? & _ & ? & _). exfalso. cut (false = true); [done|tauto]. }
  destruct (proj1 Vu eq_refl) as [Hpos Hul]. destruct (proj1 Vh eq_refl) as [_ Hhl].
  destruct (Z.leb_spec USER_RUNTIME_MAX_ADDRESS_SPACE_MAPPINGS (mapping_count a)) as [Hfull|Hroom].
  { split_and!; [|done|done]. split; [done|]. intros (_ & _ & _ & ? & _). lia. }
  pose proof (overlap_any user host size Hu Hpos Hul) as Ho.
  destruct (existsb _ (active a)).
  { split_and!; [|done|done]. split; [done|]. intros (_ & _ & _ & _ & H). by apply Ho in H. }
  pose proof (proj1 Ho eq_refl) as Hd.
  assert (0 <= mapping_count a <= 8) as Hc by apply Hwf. pose proof (as_length a Hwf) as Hl8.
  unfold USER_RUNTIME_MAX_ADDRESS_SPACE_MAPPINGS in *.
  match goal with |- context [address_space_wf ?x] => set (a' := x) end.
  assert (active a' = active a ++ [new_mapping user host size]) as Ha.
  { unfold active at 1, a'. cbn [mapping_count mappings]. rewrite u32_id by words.
    rewrite Z2Nat.inj_add by lia. change (Z.to_nat 1) with 1%nat. rewrite Nat.add_1_r. by apply active_extend. }
  split_and!; [done| |done]. eapply extended_wf; [| |exact Ha| |done].
  - unfold a'. cbn [mappings]. by rewrite length_insert.
  - unfold a'. cbn [mapping_count]. rewrite u32_id by words. unfold USER_RUNTIME_MAX_ADDRESS_SPACE_MAPPINGS. lia.
  - unfold u64_ok in *. constructor; cbn; lia.
Qed.

(** A mapping is added exactly when its user and host ranges are non-empty and do not wrap,
    there is room for it and it overlaps no mapping present; the address space stays well formed
    (pairwise disjoint, in range), and a refused mapping changes nothing. *)
Lemma add_address_space_mapping_spec user host size :
  u64_ok user -> u64_ok host -> u64_ok size ->
  let '(ok, a') := add_address_space_mapping a user host size in
  (ok = true <-> mapping_acceptable user host size) /\
  address_space_wf a' /\
  (if ok then active a' = active a ++ [new_mapping user host size] else a' = a).
Proof. apply add_mapping_spec. Qed.

(** C30: Validation of a non-empty range terminates and succeeds exactly when every byte of it
    is translated by some mapping, also across adjacent mappings. *)
Theorem validate_address_space_range_correct x n :
  0 < n -> u64_ok n ->
  exists b, validate_address_space_range a x n = Some b /\
    (b = true <-> forall j, 0 <= j < n -> accessible a (x + j)).
Proof. apply validate_spec, Hwf. Qed.

(** A range has a translation exactly when one mapping with a host address covers it whole,
    and the translation is that mapping's host address plus the offset; a valid range that spans
    two adjacent mappings has none. *)
Lemma try_translate_address_space_address_correct x n :
  0 < n -> u64_ok n ->
  exists r, try_translate_address_space_address a x n = Some r /\
    forall h, r = Some h <->
      exists m, m ∈ active a /\ covers m x /\ x + n <= user_address m + mapping_size m /\
        host_address m <> 0 /\ h = host_address m + (x - user_address m).
Proof.
  intros Hn Hok. destruct (validate_spec a Hwf x n Hn Hok) as (b & Hb & Hiff).
  unfold try_translate_address_space_address. rewrite Hb. cbn [mbind option_bind].
  eexists. split; [done|]. intros h. rewrite chunk_spec by done. split.
  - destruct b; [|done]. cbn [negb]. destruct (find_address_space_mapping a x false) as [m|] eqn:E; [|done].
    destruct (Z.eqb_spec (host_address m) 0); [done|]. apply find_mapping_Some in E as [Hm Hc]; [|done].
    destruct (Z.eqb_spec (Z.min n (user_address m + mapping_size m - x)) n); [|done]. injection 1 as <-.
    exists m. split_and!; [done|done|lia|done|done].
  - intros (m & Hm & Hc & Hl & Hh & ->). unfold covers in Hc.
    rewrite (proj2 Hiff).
    + cbn [negb]. rewrite (find_mapping_complete a Hwf x m Hm Hc), (proj2 (Z.eqb_neq _ 0)) by done.
      rewrite Z.min_l by lia. by rewrite Z.eqb_refl.
    + intros j Hj. eexists. apply byte_host_Some; [done|]. exists m.
      split_and!; [done|unfold covers; lia|done|reflexivity].
Qed.
End building.

(** * An example: two adjacent mappings *)

Definition empty_address_space : address_space :=
  {| arch_root_table := 0; mapping_count := 0; mappings := replicate 8 (new_mapping 0 0 0) |}.

Lemma empty_address_space_wf : address_space_wf empty_address_space.
Proof. constructor; [done|unfold USER_RUNTIME_MAX_ADDRESS_SPACE_MAPPINGS; cbn; lia|constructor|done]. Qed.

Definition two_mappings : address_space :=
  (add_address_space_mapping (add_address_space_mapping empty_address_space 0x1000 0x8000 0x10).2 0x1010 0x9000 0x10).2.

Lemma two_mappings_wf : address_space_wf two_mappings.
Proof.
  unfold two_mappings.
  pose proof (add_mapping_spec empty_address_space empty_address_space_wf 0x1000 0x8000 0x10
    ltac:(words) ltac:(words) ltac:(words)) as H1.
  destruct (add_address_space_mapping _ 0x1000 0x8000 0x10) as [ok1 a1]. destruct H1 as (_ & H1 & _).
  pose proof (add_mapping_spec a1 H1 0x1010 0x9000 0x10 ltac:(words) ltac:(words) ltac:(words)) as H2.
  destruct (add_address_space_mapping _ 0x1010 0x9000 0x10) as [ok2 a2]. by destruct H2 as (_ & H2 & _).
Qed.

(** ** Instances *)

Lemma add_address_space_mapping_spec_witness :
  let '(ok, a') := add_address_space_mapping two_mappings 0x1008 0xA000 0x10 in
  (ok = true <-> mapping_acceptable two_mappings 0x1008 0xA000 0x10) /\
  address_space_wf a' /\
  (if ok then active a' = active two_mappings ++ [new_mapping 0x1008 0xA000 0x10] else a' = two_mappings).
Proof.
  apply (add_address_space_mapping_spec two_mappings two_mappings_wf 0x1008 0xA000 0x10); words.
Defined.

(** The two mappings are adjacent, so a range across them is valid ... *)
Lemma validate_address_space_range_correct_witness :
  exists b, validate_address_space_range two_mappings 0x1008 0x10 = Some b /\
    (b = true <-> forall j, 0 <= j < 0x10 -> accessible two_mappings (0x1008 + j)).
Proof. apply (validate_address_space_range_correct two_mappings two_mappings_wf 0x1008 0x10); words. Defined.

(** ... but has no single translation. *)
Lemma try_translate_address_space_address_correct_witness :
  exists r, try_translate_address_space_address two_mappings 0x1008 0x10 = Some r /\
    forall h, r = Some h <->
      exists m, m ∈ active two_mappings /\ covers m 0x1008 /\ 0x1008 + 0x10 <= user_address m + mapping_size m /\
        host_address m <> 0 /\ h = host_address m + (0x1008 - user_address m).
Proof. apply (try_translate_address_space_address_correct two_mappings two_mappings_wf 0x1008 0x10); words. Defined.

Example adjacent_range :
  validate_address_space_range two_mappings 0x1008 0x10 = Some true /\
  try_translate_address_space_address two_mappings 0x1008 0x10 = Some None.
Proof. split; reflexivity. Qed.
