(* ===== verification/UserMemory.v ===== *)
(** The kernel's accesses to user memory ([kernel/user_runtime.cpp]: the three
    copy loops and the string copy; [kernel/klibc/memory.cpp]: [memcpy]) on a
    host memory that is a function from addresses to bytes. *)
From S2P Require Import Prelude AddressSpace.

Definition STATUS_OK : Z := 0.
Definition STATUS_INVALID_ARGUMENT : Z := -1.
Definition STATUS_BAD_HANDLE : Z := -2.
Definition STATUS_WRONG_TYPE : Z := -3.
Definition STATUS_BUFFER_TOO_SMALL : Z := -4.
Definition STATUS_PEER_CLOSED : Z := -5.
Definition STATUS_WOULD_BLOCK : Z := -6.
Definition STATUS_TIMED_OUT : Z := -7.
Definition STATUS_NO_MEMORY : Z := -8.
Definition STATUS_FAULT : Z := -9.
Definition STATUS_NOT_SUPPORTED : Z := -10.
Definition STATUS_BAD_STATE : Z := -11.
Definition STATUS_NOT_FOUND : Z := -12.

Definition host_memory : Type := Z -> Z.

Definition poke (m : host_memory) (x v : Z) : host_memory := fun y => if y =? x then v else m y.

(** [memcpy] from host memory to host memory: the forward byte loop, [index]
    bytes done and [n] to go. *)
Fixpoint memcpy_loop (n : nat) (m : host_memory) (destination source index : Z) : host_memory :=
  match n with
  | O => m
  | S n => memcpy_loop n (poke m (destination + index) (m (source + index))) destination source (index + 1)
  end.

Definition memcpy (m : host_memory) (destination source length : Z) : host_memory :=
  memcpy_loop (Z.to_nat length) m destination source 0.

(** [memcpy] out of host memory into a kernel buffer, and back. *)
Definition host_bytes (m : host_memory) (x : Z) (n : nat) : list Z := (fun k => m (x + Z.of_nat k)) <$> seq 0 n.

Fixpoint store_bytes (m : host_memory) (x : Z) (bs : list Z) : host_memory :=
  match bs with
  | [] => m
  | b :: bs => store_bytes (poke m x b) (x + 1) bs
  end.

(** ** The copy loops

    A kernel buffer is a list: the bytes copied so far, or the bytes left to
    write.  [None] is fuel used up; every iteration but the last ends at the
    limit of a mapping, so one more than the mappings involved is enough. *)

Fixpoint copy_user_loop (fuel : nat) (a : address_space) (m : host_memory) (current remaining : Z) (buffer : list Z)
    : option (Z * list Z) :=
  if remaining =? 0 then Some (STATUS_OK, buffer)
  else
    match fuel with
    | O => None
    | S fuel =>
        match try_translate_address_space_chunk a current remaining with
        | None => Some (STATUS_FAULT, buffer)
        | Some (host, translated_length) =>
            if translated_length =? 0 then Some (STATUS_FAULT, buffer)
            else copy_user_loop fuel a m (u64 (current + translated_length)) (u64 (remaining - translated_length))
                   (buffer ++ host_bytes m host (Z.to_nat translated_length))
        end
    end.

Definition copy_user_bytes (a : address_space) (m : host_memory) (address : Z) (buffer_size : Z) (has_buffer : bool)
    : option (Z * list Z) :=
  if negb has_buffer then Some (STATUS_INVALID_ARGUMENT, [])
  else if buffer_size =? 0 then Some (STATUS_OK, [])
  else copy_user_loop (validate_fuel a) a m address buffer_size [].

Fixpoint write_user_loop (fuel : nat) (a : address_space) (m : host_memory) (current : Z) (buffer : list Z)
    : option (Z * host_memory) :=
  let remaining := Z.of_nat (length buffer) in
  if remaining =? 0 then Some (STATUS_OK, m)
  else
    match fuel with
    | O => None
    | S fuel =>
        match try_translate_address_space_chunk a current remaining with
        | None => Some (STATUS_FAULT, m)
        | Some (host, translated_length) =>
            if translated_length =? 0 then Some (STATUS_FAULT, m)
            else write_user_loop fuel a (store_bytes m host (take (Z.to_nat translated_length) buffer))
                   (u64 (current + translated_length)) (drop (Z.to_nat translated_length) buffer)
        end
    end.

(** [buffer = None] is the null pointer. *)
Definition write_user_bytes (a : address_space) (m : host_memory) (address : Z) (buffer : option (list Z))
    : option (Z * host_memory) :=
  match buffer with
  | None => Some (STATUS_INVALID_ARGUMENT, m)
  | Some bs => if (length bs =? 0)%nat then Some (STATUS_OK, m) else write_user_loop (validate_fuel a) a m address bs
  end.

Fixpoint copy_between_loop (fuel : nat) (src dst : address_space) (m : host_memory)
    (current_source current_destination remaining : Z) : option (Z * host_memory) :=
  if remaining =? 0 then Some (STATUS_OK, m)
  else
    match fuel with
    | O => None
    | S fuel =>
        match try_translate_address_space_chunk src current_source remaining with
        | None => Some (STATUS_FAULT, m)
        | Some (source_host, source_length) =>
            if source_length =? 0 then Some (STATUS_FAULT, m)
            else
              match try_translate_address_space_chunk dst current_destination source_length with
              | None => Some (STATUS_FAULT, m)
              | Some (destination_host, n) =>
                  if n =? 0 then Some (STATUS_FAULT, m)
                  else copy_between_loop fuel src dst (memcpy m destination_host source_host n)
                         (u64 (current_source + n)) (u64 (current_destination + n)) (u64 (remaining - n))
              end
        end
    end.

Definition copy_between_user_processes (src : address_space) (dst : address_space) (m : host_memory)
    (source_address destination_address size : Z) : option (Z * host_memory) :=
  if size =? 0 then Some (STATUS_OK, m)
  else copy_between_loop (S (length (active src) + length (active dst))) src dst m source_address destination_address size.

(** The [for] loop over the buffer, [n] places to go: the status and the bytes
    stored, the terminating one included. *)
Fixpoint copy_string_loop (n : nat) (a : address_space) (m : host_memory) (address index : Z) (buffer : list Z)
    : option (Z * list Z) :=
  match n with
  | O => Some (STATUS_BUFFER_TOO_SMALL, take (length buffer - 1) buffer ++ [0])
  | S n =>
      host ← try_translate_address_space_address a (u64 (address + index)) 1;
      match host with
      | None => Some (STATUS_FAULT, buffer)
      | Some host =>
          let current_byte := m host in
          if current_byte =? 0 then Some (STATUS_OK, buffer ++ [current_byte])
          else copy_string_loop n a m address (index + 1) (buffer ++ [current_byte])
      end
  end.

(** [owner = None] is a thread without a process, [has_buffer = false] a null buffer. *)
Definition copy_user_string (owner : option address_space) (m : host_memory) (address : Z) (has_buffer : bool)
    (buffer_size : Z) : option (Z * list Z) :=
  match owner with
  | None => Some (STATUS_BAD_STATE, [])
  | Some a =>
      if negb has_buffer || (buffer_size =? 0) then Some (STATUS_INVALID_ARGUMENT, [])
      else copy_string_loop (Z.to_nat buffer_size) a m address 0 []
  end.

(** ** What [store_bytes] leaves *)

Lemma store_bytes_snoc m x l c : store_bytes m x (l ++ [c]) = poke (store_bytes m x l) (x + Z.of_nat (length l)) c.
Proof.
  revert m x. induction l as [|b l IH]; intros m x; cbn [app store_bytes length].
  - by rewrite Z.add_0_r.
  - rewrite IH. f_equal. lia.
Qed.

Lemma store_bytes_outside m x l y : y < x \/ x + Z.of_nat (length l) <= y -> store_bytes m x l y = m y.
Proof.
  revert m x. induction l as [|b l IH]; intros m x Hy; [done|]. cbn [store_bytes length] in *.
  rewrite IH by lia. unfold poke. by rewrite (proj2 (Z.eqb_neq y x)) by lia.
Qed.

Lemma store_bytes_inside m x l y c :
  x <= y -> l !! Z.to_nat (y - x) = Some c -> store_bytes m x l y = c.
Proof.
  revert m x. induction l as [|b l IH]; intros m x Hy Hl; [done|]. cbn [store_bytes].
  destruct (Z.eqb_spec y x) as [->|Hne].
  - rewrite Z.sub_diag in Hl. injection Hl as ->. rewrite store_bytes_outside by lia.
    unfold poke. by rewrite Z.eqb_refl.
  - apply IH; [lia|]. rewrite <- Hl. by replace (Z.to_nat (y - x)) with (S (Z.to_nat (y - (x + 1)))) by lia.
Qed.

(** The memory after a list is stored in a window it fits in. *)
Lemma stored_lookup m x l size y :
  Z.of_nat (length l) <= size ->
  store_bytes m x l y
  = if (x <=? y) && (y <? x + size)
    then match l !! Z.to_nat (y - x) with Some c => c | None => m y end
    else m y.
Proof.
  intros Hl. destruct (l !! Z.to_nat (y - x)) as [c|] eqn:E.
  - pose proof (lookup_lt_Some _ _ _ E). destruct (Z.leb_spec x y); cbn [andb].
    + rewrite (proj2 (Z.ltb_lt _ _)) by lia. by apply store_bytes_inside.
    + apply store_bytes_outside. lia.
  - apply lookup_ge_None in E. rewrite store_bytes_outside by lia. by case_match.
Qed.

(** * The reference: one byte at a time

    Each copy loop does what a loop over single bytes would do, each byte
    translated by [byte_host]; it stops at the first byte that has no
    translation. *)

Fixpoint copy_reference (n : nat) (a : address_space) (m : host_memory) (x : Z) (buffer : list Z) : Z * list Z :=
  match n with
  | O => (STATUS_OK, buffer)
  | S n => match byte_host a x with
           | None => (STATUS_FAULT, buffer)
           | Some h => copy_reference n a m (x + 1) (buffer ++ [m h])
           end
  end.

Fixpoint write_reference (a : address_space) (m : host_memory) (x : Z) (bs : list Z) : Z * host_memory :=
  match bs with
  | [] => (STATUS_OK, m)
  | b :: bs => match byte_host a x with
               | None => (STATUS_FAULT, m)
               | Some h => write_reference a (poke m h b) (x + 1) bs
               end
  end.

Fixpoint copy_between_reference (n : nat) (src dst : address_space) (m : host_memory) (x y : Z) : Z * host_memory :=
  match n with
  | O => (STATUS_OK, m)
  | S n => match byte_host src x, byte_host dst y with
           | Some h, Some h' => copy_between_reference n src dst (poke m h' (m h)) (x + 1) (y + 1)
           | _, _ => (STATUS_FAULT, m)
           end
  end.

(** A run of [k] bytes translated to consecutive host addresses. *)
Definition run_of (a : address_space) (x h : Z) (k : nat) : Prop :=
  forall j, 0 <= j < Z.of_nat k -> byte_host a (x + j) = Some (h + j).

Lemma run_of_cons a x h k : run_of a x h (S k) -> byte_host a x = Some h /\ run_of a (x + 1) (h + 1) k.
Proof.
  intros H. split.
  - specialize (H 0 ltac:(lia)). by rewrite !Z.add_0_r in H.
  - intros j Hj. specialize (H (1 + j) ltac:(lia)). by rewrite !Z.add_assoc in H.
Qed.

Lemma host_bytes_cons m h k : host_bytes m h (S k) = m h :: host_bytes m (h + 1) k.
Proof.
  unfold host_bytes. cbn [seq fmap list_fmap]. rewrite Z.add_0_r. f_equal.
  rewrite <- seq_shift, <- list_fmap_compose. apply list_fmap_ext. intros i k' _. cbn. f_equal. lia.
Qed.

Lemma copy_reference_run k n a m x h buffer :
  run_of a x h k ->
  copy_reference (k + n) a m x buffer = copy_reference n a m (x + Z.of_nat k) (buffer ++ host_bytes m h k).
Proof.
  revert x h buffer. induction k as [|k IH]; intros x h buffer Hr.
  - cbn. by rewrite Z.add_0_r, app_nil_r.
  - apply run_of_cons in Hr as [Hx Hr]. cbn [copy_reference Nat.add]. rewrite Hx, (IH _ _ _ Hr), host_bytes_cons.
    rewrite <- app_assoc. f_equal. lia.
Qed.

Lemma write_reference_run k a m x h bs :
  run_of a x h k -> (k <= length bs)%nat ->
  write_reference a m x bs = write_reference a (store_bytes m h (take k bs)) (x + Z.of_nat k) (drop k bs).
Proof.
  revert m x h bs. induction k as [|k IH]; intros m x h bs Hr Hl.
  - cbn. by rewrite Z.add_0_r.
  - destruct bs as [|b bs]; [cbn in Hl; lia|]. apply run_of_cons in Hr as [Hx Hr].
    cbn [write_reference take drop store_bytes]. rewrite Hx, (IH _ _ _ bs Hr) by (cbn in Hl; lia). f_equal. lia.
Qed.

Lemma copy_between_reference_run k n src dst m x y h h' i :
  run_of src x (h + i) k -> run_of dst y (h' + i) k ->
  copy_between_reference (k + n) src dst m x y
  = copy_between_reference n src dst (memcpy_loop k m h' h i) (x + Z.of_nat k) (y + Z.of_nat k).
Proof.
  revert m x y i. induction k as [|k IH]; intros m x y i Hs Hd.
  - cbn. by rewrite !Z.add_0_r.
  - apply run_of_cons in Hs as [Hx Hs], Hd as [Hy Hd]. cbn [copy_between_reference Nat.add memcpy_loop].
    rewrite Hx, Hy, (IH _ _ _ (i + 1)) by (by rewrite Z.add_assoc). f_equal; lia.
Qed.

(** Where a loop stands after a chunk. *)
Lemma chunk_run a x n h k :
  address_space_wf a -> 0 < n -> u64_ok n -> try_translate_address_space_chunk a x n = Some (h, k) ->
  0 < k <= n /\ run_of a x h (Z.to_nat k) /\ u64 (x + k) = x + k /\ u64 (n - k) = n - k /\
  (k < n -> (ahead a (x + k) < ahead a x)%nat).
Proof.
  intros Hwf Hn Hok Hc. destruct (chunk_bytes a Hwf x n h k Hn Hc) as (Hk & Hx & _ & _ & Hx0 & Hb & Hend).
  rewrite UINTPTR_MAX_value in Hx. split_and!; [lia|lia| |apply u64_id; words|apply u64_id; words|].
  - intros j Hj. apply Hb. lia.
  - intros Hlt. destruct Hend as [->|(m & Hm & Hl)]; [lia|]. apply (ahead_decreases a x (x + k) m Hm). lia.
Qed.

Lemma copy_user_loop_refines fuel a m x n buffer :
  address_space_wf a -> u64_ok n -> (ahead a x < fuel)%nat ->
  copy_user_loop fuel a m x n buffer = Some (copy_reference (Z.to_nat n) a m x buffer).
Proof.
  intros Hwf. revert x n buffer. induction fuel as [|fuel IH]; intros x n buffer Hok Hf; [lia|].
  cbn [copy_user_loop]. destruct (Z.eqb_spec n 0) as [->|Hne]; [done|].
  assert (0 < n) as Hn by (unfold u64_ok in Hok; lia).
  destruct (try_translate_address_space_chunk a x n) as [[h k]|] eqn:E.
  - apply chunk_run in E as (Hk & Hr & Hx & Hnk & Hd); [|done..]. rewrite (proj2 (Z.eqb_neq k 0)), Hx, Hnk by lia.
    replace (Z.to_nat n) with (Z.to_nat k + Z.to_nat (n - k))%nat by lia.
    rewrite (copy_reference_run _ _ _ _ _ h) by done. rewrite Z2Nat.id by lia.
    destruct (decide (k = n)) as [->|Hkn].
    + rewrite Z.sub_diag. by destruct fuel.
    + apply IH; [unfold u64_ok in *; lia|]. specialize (Hd ltac:(lia)). lia.
  - apply chunk_None in E; [|done..]. destruct (Z.to_nat n) eqn:En; [lia|]. cbn. by rewrite E.
Qed.

Lemma write_user_loop_refines fuel a m x bs :
  address_space_wf a -> u64_ok (Z.of_nat (length bs)) -> (ahead a x < fuel)%nat ->
  write_user_loop fuel a m x bs = Some (write_reference a m x bs).
Proof.
  intros Hwf. revert m x bs. induction fuel as [|fuel IH]; intros m x bs Hok Hf; [lia|].
  cbn [write_user_loop]. cbv zeta. destruct (Z.eqb_spec (Z.of_nat (length bs)) 0) as [E0|Hne].
  { destruct bs; [done|cbn in E0; lia]. }
  assert (0 < Z.of_nat (length bs)) as Hn by lia.
  destruct (try_translate_address_space_chunk a x (Z.of_nat (length bs))) as [[h k]|] eqn:E.
  - apply chunk_run in E as (Hk & Hr & Hx & Hnk & Hd); [|done..]. rewrite (proj2 (Z.eqb_neq k 0)), Hx by lia.
    rewrite (write_reference_run (Z.to_nat k) a m x h) by (done || lia). rewrite Z2Nat.id by lia.
    destruct (decide (k = Z.of_nat (length bs))) as [->|Hkn].
    + rewrite drop_ge by lia. by destruct fuel.
    + apply IH; [rewrite length_drop; unfold u64_ok in *; lia|]. specialize (Hd ltac:(lia)). lia.
  - apply chunk_None in E; [|done..]. destruct bs; [done|]. cbn. by rewrite E.
Qed.

Lemma ahead_mono a x y : x <= y -> (ahead a y <= ahead a x)%nat.
Proof.
  intros Hxy. unfold ahead. induction (active a) as [|m l IH]; [done|]. rewrite !filter_cons.
  repeat destruct (decide _); cbn; lia.
Qed.

Lemma copy_between_loop_refines fuel src dst m x y n :
  address_space_wf src -> address_space_wf dst -> u64_ok n -> (ahead src x + ahead dst y < fuel)%nat ->
  copy_between_loop fuel src dst m x y n = Some (copy_between_reference (Z.to_nat n) src dst m x y).
Proof.
  intros Hs Hd. revert m x y n. induction fuel as [|fuel IH]; intros m x y n Hok Hf; [lia|].
  cbn [copy_between_loop]. destruct (Z.eqb_spec n 0) as [->|Hne]; [done|].
  assert (0 < n) as Hn by (unfold u64_ok in Hok; lia).
  destruct (Z.to_nat n) as [|n'] eqn:En; [lia|].
  destruct (try_translate_address_space_chunk src x n) as [[h k]|] eqn:E1.
  2: { apply chunk_None in E1; [|done..]. cbn. by rewrite E1. }
  apply chunk_run in E1 as (Hk & Hr1 & _ & _ & Hd1); [|done..]. rewrite (proj2 (Z.eqb_neq k 0)) by lia.
  assert (byte_host src x = Some h) as Hh.
  { specialize (Hr1 0 ltac:(lia)). by rewrite !Z.add_0_r in Hr1. }
  assert (u64_ok k) as Hkok by (unfold u64_ok in *; lia).
  destruct (try_translate_address_space_chunk dst y k) as [[h' j]|] eqn:E2.
  2: { apply chunk_None in E2; [|done|lia]. cbn. by rewrite Hh, E2. }
  apply chunk_run in E2 as (Hj & Hr2 & Hy & _ & Hd2); [|done|lia|done]. rewrite (proj2 (Z.eqb_neq j 0)), Hy by lia.
  assert (run_of src x h (Z.to_nat j)) as Hr1' by (intros i Hi; apply Hr1; lia).
  rewrite <- En. replace (Z.to_nat n) with (Z.to_nat j + Z.to_nat (n - j))%nat by lia.
  rewrite (copy_between_reference_run _ _ _ _ _ _ _ h h' 0) by (by rewrite Z.add_0_r).
  rewrite Z2Nat.id by lia. unfold memcpy. rewrite (u64_id (n - j)) by (unfold u64_ok in *; lia).
  destruct (decide (j = n)) as [->|Hjn]; [rewrite Z.sub_diag; by destruct fuel|].
  pose proof (ahead_mono src x (x + j) ltac:(lia)). pose proof (ahead_mono dst y (y + j) ltac:(lia)).
  assert (u64 (x + j) = x + j) as ->.
  { specialize (Hr1' (j - 1) ltac:(lia)). apply byte_host_Some in Hr1' as (mp & Hmp & Hc & _); [|done].
    pose proof (active_wf src Hs mp Hmp) as []. unfold covers in Hc. rewrite UINTPTR_MAX_value in *. apply u64_id. unfold u64_ok.
    specialize (Hr1 0 ltac:(lia)). apply byte_host_Some in Hr1 as (mp' & Hmp' & Hc' & _); [|done].
    pose proof (active_wf src Hs mp' Hmp') as []. unfold covers in Hc'. lia. }
  apply IH; [unfold u64_ok in *; lia|]. destruct (decide (j = k)) as [->|].
  - specialize (Hd1 ltac:(lia)). lia.
  - specialize (Hd2 ltac:(lia)). lia.
Qed.

(** copy_user_bytes terminates and returns the status and bytes of a loop that reads one
    byte at a time and stops at the first byte without translation. *)
Lemma copy_user_bytes_refines a m x n :
  address_space_wf a -> u64_ok n ->
  copy_user_bytes a m x n true = Some (copy_reference (Z.to_nat n) a m x []).
Proof.
  intros Hwf Hok. unfold copy_user_bytes. cbn [negb]. destruct (Z.eqb_spec n 0) as [->|]; [done|].
  apply copy_user_loop_refines; [done|done|apply ahead_fuel].
Qed.

Lemma write_user_bytes_eq a m x bs :
  address_space_wf a -> u64_ok (Z.of_nat (length bs)) ->
  write_user_bytes a m x (Some bs) = Some (write_reference a m x bs).
Proof.
  intros Hwf Hok. unfold write_user_bytes. destruct bs as [|b bs]; [done|].
  apply (write_user_loop_refines _ _ _ _ (b :: bs)); [done|done|apply ahead_fuel].
Qed.

(** C25: write_user_bytes terminates and has the status and memory of a loop that writes one
    byte at a time and stops at the first byte without translation. *)
Theorem write_user_bytes_refines a m x bs :
  address_space_wf a -> u64_ok (Z.of_nat (length bs)) ->
  write_user_bytes a m x (Some bs) = Some (write_reference a m x bs).
Proof. apply write_user_bytes_eq. Qed.

Lemma copy_between_user_processes_eq src dst m x y n :
  address_space_wf src -> address_space_wf dst -> u64_ok n ->
  copy_between_user_processes src dst m x y n = Some (copy_between_reference (Z.to_nat n) src dst m x y).
Proof.
  intros Hs Hd Hok. unfold copy_between_user_processes. destruct (Z.eqb_spec n 0) as [->|]; [done|].
  apply copy_between_loop_refines; [done|done|done|].
  pose proof (ahead_fuel src x). pose proof (ahead_fuel dst y). unfold validate_fuel in *. lia.
Qed.

(** C24: copy_between_user_processes, which copies chunk by chunk through the mappings of two
    address spaces, terminates and has the status and memory of a loop that copies one byte at a
    time and stops at the first byte without translation. *)
Theorem copy_between_user_processes_refines src dst m x y n :
  address_space_wf src -> address_space_wf dst -> u64_ok n ->
  copy_between_user_processes src dst m x y n = Some (copy_between_reference (Z.to_nat n) src dst m x y).
Proof. apply copy_between_user_processes_eq. Qed.

(** ** Consequences *)

Lemma copy_reference_ok n a m x buffer :
  (forall j, 0 <= j < Z.of_nat n -> accessible a (x + j)) ->
  exists bs, copy_reference n a m x buffer = (STATUS_OK, buffer ++ bs) /\ length bs = n /\
    forall j, (j < n)%nat -> exists h, byte_host a (x + Z.of_nat j) = Some h /\ bs !! j = Some (m h).
Proof.
  revert x buffer. induction n as [|n IH]; intros x buffer Hacc.
  - exists []. rewrite app_nil_r. split_and!; [done|done|lia].
  - destruct (Hacc 0 ltac:(lia)) as [h Hh]. rewrite Z.add_0_r in Hh. cbn [copy_reference]. rewrite Hh.
    destruct (IH (x + 1) (buffer ++ [m h])) as (bs & -> & Hl & Hbs).
    { intros j Hj. replace (x + 1 + j) with (x + (1 + j)) by lia. apply Hacc. lia. }
    exists (m h :: bs). rewrite <- app_assoc. split_and!; [done|cbn; lia|].
    intros [|j] Hj; [exists h; by rewrite Z.add_0_r|]. destruct (Hbs j ltac:(lia)) as (h' & Hh' & Hj').
    exists h'. split; [|done]. replace (x + Z.of_nat (S j)) with (x + 1 + Z.of_nat j) by lia. done.
Qed.

(** A failed write is not a write that did nothing: the translated prefix stays
    written, and the frame of any write is the translated bytes. *)
Lemma write_reference_frame a m x bs h :
  (forall j, 0 <= j < Z.of_nat (length bs) -> byte_host a (x + j) <> Some h) ->
  (write_reference a m x bs).2 h = m h.
Proof.
  revert m x. induction bs as [|b bs IH]; intros m x Hne; [done|]. cbn [write_reference].
  destruct (byte_host a x) as [h0|] eqn:E; [|done]. rewrite IH.
  - unfold poke. destruct (Z.eqb_spec h h0) as [->|]; [|done]. exfalso. apply (Hne 0); [cbn [length]; lia|by rewrite Z.add_0_r].
  - intros j Hj. replace (x + 1 + j) with (x + (1 + j)) by lia. apply Hne. cbn [length]. lia.
Qed.

(** Distinct user addresses are distinct host bytes. *)
Definition host_injective (a : address_space) : Prop :=
  forall x y h, byte_host a x = Some h -> byte_host a y = Some h -> x = y.

Lemma write_reference_read a m x bs j :
  host_injective a -> (write_reference a m x bs).1 = STATUS_OK -> (j < length bs)%nat ->
  exists h, byte_host a (x + Z.of_nat j) = Some h /\ Some ((write_reference a m x bs).2 h) = bs !! j.
Proof.
  intros Hinj. revert m x j. induction bs as [|b bs IH]; intros m x j Hok Hj; [cbn in Hj; lia|].
  cbn [write_reference] in *. destruct (byte_host a x) as [h0|] eqn:E; [|done].
  destruct j as [|j].
  - exists h0. rewrite Z.add_0_r. split; [done|]. cbn. f_equal. rewrite write_reference_frame.
    + unfold poke. by rewrite Z.eqb_refl.
    + intros k Hk H. pose proof (Hinj _ _ _ E H). lia.
  - cbn in Hj. destruct (IH _ _ j Hok ltac:(lia)) as (h & Hh & Hv). exists h. split; [|done].
    replace (x + Z.of_nat (S j)) with (x + 1 + Z.of_nat j) by lia. done.
Qed.

Lemma write_reference_accessible a m x bs j :
  (write_reference a m x bs).1 = STATUS_OK -> 0 <= j < Z.of_nat (length bs) -> accessible a (x + j).
Proof.
  revert m x j. induction bs as [|b bs IH]; intros m x j Hok Hj; [cbn in Hj; lia|].
  cbn [write_reference] in Hok. destruct (byte_host a x) as [h0|] eqn:E; [|done].
  destruct (decide (j = 0)) as [->|]; [rewrite Z.add_0_r; by eexists|].
  replace (x + j) with (x + 1 + (j - 1)) by lia. eapply IH; [done|]. cbn [length] in Hj. lia.
Qed.

Lemma write_then_copy a m x bs m' :
  address_space_wf a -> host_injective a -> u64_ok (Z.of_nat (length bs)) ->
  write_user_bytes a m x (Some bs) = Some (STATUS_OK, m') ->
  copy_user_bytes a m' x (Z.of_nat (length bs)) true = Some (STATUS_OK, bs) /\
  forall h, (forall j, 0 <= j < Z.of_nat (length bs) -> byte_host a (x + j) <> Some h) -> m' h = m h.
Proof.
  intros Hwf Hinj Hok Hw. unfold write_user_bytes in Hw.
  assert (Some (write_reference a m x bs) = Some (STATUS_OK, m')) as Hr.
  { destruct bs as [|b bs]; [done|]. cbn [length Nat.eqb] in Hw.
    by rewrite <- (write_user_loop_refines (validate_fuel a) a m x (b :: bs) Hwf Hok (ahead_fuel a x)). }
  injection Hr as Hr. split.
  - unfold copy_user_bytes. cbn [negb].
    destruct (Z.eqb_spec (Z.of_nat (length bs)) 0) as [E0|]; [by destruct bs|].
    rewrite copy_user_loop_refines by (done || apply ahead_fuel). rewrite Nat2Z.id.
    destruct (copy_reference_ok (length bs) a m' x []) as (bs' & -> & Hl & Hbs').
    { intros j Hj. apply (write_reference_accessible a m x bs); [by rewrite Hr|done]. }
    do 2 f_equal. cbn. apply list_eq_same_length with (length bs); [done|done|].
    intros j y y' Hj Hy Hy'. destruct (Hbs' j Hj) as (h & Hh & Hj').
    destruct (write_reference_read a m x bs j Hinj ltac:(by rewrite Hr) Hj) as (h' & Hh' & Hv).
    rewrite Hr in Hv. cbn in Hv. congruence.
  - intros h Hne. pose proof (write_reference_frame a m x bs h Hne) as H. by rewrite Hr in H.
Qed.

(** Bytes written to user memory are read back from the same address when no two user bytes
    of the address space share a host byte. *)
Lemma write_then_copy_roundtrip a m x bs m' :
  address_space_wf a -> host_injective a -> u64_ok (Z.of_nat (length bs)) ->
  write_user_bytes a m x (Some bs) = Some (STATUS_OK, m') ->
  copy_user_bytes a m' x (Z.of_nat (length bs)) true = Some (STATUS_OK, bs) /\
  forall h, (forall j, 0 <= j < Z.of_nat (length bs) -> byte_host a (x + j) <> Some h) -> m' h = m h.
Proof. apply write_then_copy. Qed.

Lemma write_reference_app a m x bs bs' m' :
  write_reference a m x bs = (STATUS_OK, m') ->
  write_reference a m x (bs ++ bs') = write_reference a m' (x + Z.of_nat (length bs)) bs'.
Proof.
  revert m x. induction bs as [|b bs IH]; intros m x H; cbn in *.
  - injection H as ->. by rewrite Z.add_0_r.
  - destruct (byte_host a x); [|done]. rewrite (IH _ _ H). f_equal. lia.
Qed.

(** A write that fails because a later byte has no translation has already written the
    bytes before it. *)
Lemma failed_write_keeps_prefix a m x bs b bs' m' :
  address_space_wf a -> u64_ok (Z.of_nat (length (bs ++ b :: bs'))) ->
  write_user_bytes a m x (Some bs) = Some (STATUS_OK, m') ->
  ~ accessible a (x + Z.of_nat (length bs)) ->
  write_user_bytes a m x (Some (bs ++ b :: bs')) = Some (STATUS_FAULT, m').
Proof.
  intros Hwf Hok Hw Hno.
  assert (u64_ok (Z.of_nat (length bs))) as Hok1 by (rewrite length_app in Hok; unfold u64_ok in *; lia).
  assert (write_reference a m x bs = (STATUS_OK, m')) as Hr.
  { destruct bs as [|b0 bs0]; [by injection Hw as ->|]. unfold write_user_bytes in Hw. cbn [length Nat.eqb] in Hw.
    rewrite write_user_loop_refines in Hw by (done || apply ahead_fuel). by injection Hw. }
  unfold write_user_bytes. destruct (bs ++ b :: bs') as [|b1 l] eqn:El; [by destruct bs|].
  cbn [length Nat.eqb]. rewrite write_user_loop_refines by (done || apply ahead_fuel).
  rewrite <- El, (write_reference_app _ _ _ _ _ _ Hr). cbn [write_reference].
  destruct (byte_host a (x + Z.of_nat (length bs))) eqn:E; [|done]. exfalso. apply Hno. by eexists.
Qed.

(** ** The string copy *)

(** The bytes of user memory up to and including the first zero, at most [n]. *)
Fixpoint copy_string_reference (n : nat) (a : address_space) (m : host_memory) (x : Z) : option (list Z * bool) :=
  match n with
  | O => Some ([], false)
  | S n =>
      h ← byte_host a x;
      if m h =? 0 then Some ([0], true)
      else '(bs, terminated) ← copy_string_reference n a m (x + 1); Some (m h :: bs, terminated)
  end.

Lemma translate_byte a x :
  address_space_wf a -> try_translate_address_space_address a x 1 = Some (byte_host a x).
Proof.
  intros Hwf. destruct (validate_spec a Hwf x 1 ltac:(lia) ltac:(words)) as (b & Hb & Hiff).
  unfold try_translate_address_space_address. rewrite Hb. cbn [mbind option_bind].
  rewrite chunk_spec by (done || lia). unfold byte_host, accessible in *.
  rewrite <- find_mapping_covers in * by done. f_equal.
  destruct (find_address_space_mapping a x false) as [m|] eqn:E.
  - destruct (find_mapping_Some a Hwf x m E) as [Hm Hc]. unfold covers in Hc. cbn [mbind option_bind].
    rewrite Z.min_l by lia. destruct (Z.eqb_spec (host_address m) 0) as [E0|E0].
    + rewrite decide_True by done. by destruct b.
    + rewrite decide_False by done. rewrite (proj2 Hiff); [done|].
      intros j Hj. replace (x + j) with x by lia. unfold byte_host. rewrite <- find_mapping_covers, E by done. cbn.
      rewrite decide_False by done. by eexists.
  - by destruct b.
Qed.

Lemma byte_host_range a x h : address_space_wf a -> byte_host a x = Some h -> 0 <= x /\ x + 1 < 2 ^ 64.
Proof.
  intros Hwf (m & Hm & Hc & _)%byte_host_Some; [|done]. pose proof (active_wf a Hwf m Hm) as [].
  unfold covers in Hc. rewrite UINTPTR_MAX_value in *. lia.
Qed.

Lemma copy_string_loop_spec n a m x i buffer :
  address_space_wf a -> 0 <= i -> u64_ok (x + i) ->
  match copy_string_reference n a m (x + i) with
  | None => exists bs, copy_string_loop n a m x i buffer = Some (STATUS_FAULT, buffer ++ bs)
  | Some (bs, true) => copy_string_loop n a m x i buffer = Some (STATUS_OK, buffer ++ bs)
  | Some (bs, false) =>
      length bs = n /\
      copy_string_loop n a m x i buffer =
        Some (STATUS_BUFFER_TOO_SMALL, take (length (buffer ++ bs) - 1) (buffer ++ bs) ++ [0])
  end.
Proof.
  intros Hwf. revert i buffer. induction n as [|n IH]; intros i buffer Hi Hx; cbn [copy_string_reference copy_string_loop].
  - by rewrite app_nil_r.
  - rewrite u64_id, translate_byte by done. cbn [mbind option_bind].
    destruct (byte_host a (x + i)) as [h|] eqn:E; cbn [mbind option_bind]; [|exists []; by rewrite app_nil_r].
    destruct (Z.eqb_spec (m h) 0) as [->|Hne]; [done|].
    apply byte_host_range in E; [|done]. specialize (IH (i + 1) (buffer ++ [m h]) ltac:(lia) ltac:(unfold u64_ok; lia)).
    rewrite Z.add_assoc in IH. destruct (copy_string_reference n a m (x + i + 1)) as [[bs []]|]; cbn.
    + by rewrite IH, <- app_assoc.
    + destruct IH as [<- ->]. split; [done|]. rewrite <- app_assoc. done.
    + destruct IH as [bs ->]. exists (m h :: bs). by rewrite <- app_assoc.
Qed.

(** What every call of [copy_user_string] with a buffer leaves in it. *)
Lemma copy_user_string_shape a m x n :
  address_space_wf a -> u64_ok x -> (0 < n)%nat ->
  exists status bs, copy_user_string (Some a) m x true (Z.of_nat n) = Some (status, bs) /\
    (status = STATUS_OK -> 0 ∈ bs /\ copy_string_reference n a m x = Some (bs, true) /\ (length bs <= n)%nat).
Proof.
  intros Hwf Hx Hn. pose proof (copy_string_loop_spec n a m x 0 [] Hwf) as H.
  rewrite Z.add_0_r in H. specialize (H ltac:(lia) Hx). unfold copy_user_string. cbn [negb orb].
  rewrite (proj2 (Z.eqb_neq (Z.of_nat n) 0)), Nat2Z.id by lia.
  destruct (copy_string_reference n a m x) as [[bs []]|] eqn:E.
  - exists STATUS_OK, bs. split; [done|]. intros _. clear H.
    assert (0 ∈ bs /\ (length bs <= n)%nat) as []; [|done]. revert x bs Hx E.
    induction n as [|n IH]; [lia|]. intros x bs Hx E. cbn in E.
    destruct (byte_host a x) as [h|] eqn:Eb; [|done]. cbn in E. destruct (Z.eqb_spec (m h) 0).
    { injection E as <-. cbn. split; [by apply list_elem_of_here|lia]. }
    destruct n as [|n]; [by destruct bs|]. apply byte_host_range in Eb; [|done].
    destruct (copy_string_reference (S n) a m (x + 1)) as [[cs []]|] eqn:E'; [|done|done].
    injection E as <-. destruct (IH ltac:(lia) (x + 1) cs ltac:(unfold u64_ok; lia) E') as [Hin Hl].
    cbn [length]. split; [by apply list_elem_of_further|lia].
  - destruct H as [_ ->]. by eexists _, _.
  - destruct H as [cs ->]. by eexists _, _.
Qed.

(** copy_user_string stores the bytes up to and including the first zero and succeeds when
    one is found in the accessible memory within the buffer, fails with a fault at the first
    inaccessible byte, and otherwise reports a short buffer whose last byte it has set to zero.
    *)
Lemma copy_user_string_correct a m x n :
  address_space_wf a -> u64_ok x -> 0 < n ->
  match copy_string_reference (Z.to_nat n) a m x with
  | None => exists bs, copy_user_string (Some a) m x true n = Some (STATUS_FAULT, bs)
  | Some (bs, true) => copy_user_string (Some a) m x true n = Some (STATUS_OK, bs)
  | Some (bs, false) =>
      Z.of_nat (length bs) = n /\
      copy_user_string (Some a) m x true n = Some (STATUS_BUFFER_TOO_SMALL, take (length bs - 1) bs ++ [0])
  end.
Proof.
  intros Hwf Hx Hn. pose proof (copy_string_loop_spec (Z.to_nat n) a m x 0 [] Hwf) as H.
  rewrite Z.add_0_r in H. specialize (H ltac:(lia) Hx). unfold copy_user_string. cbn [negb orb].
  rewrite (proj2 (Z.eqb_neq n 0)) by lia.
  destruct (copy_string_reference (Z.to_nat n) a m x) as [[bs []]|]; [done| |done].
  destruct H as [Hl H]. split; [lia|done].
Qed.

(** * Instances *)

Definition sample_memory : host_memory := fun x => x mod 251.

Lemma copy_user_bytes_refines_witness :
  copy_user_bytes two_mappings sample_memory 0x1008 16 true
  = Some (copy_reference (Z.to_nat 16) two_mappings sample_memory 0x1008 []).
Proof. apply (copy_user_bytes_refines two_mappings sample_memory 0x1008 16); [exact two_mappings_wf|vm_compute; split; congruence]. Defined.

Lemma write_user_bytes_refines_witness :
  write_user_bytes two_mappings sample_memory 0x100E (Some [1; 2; 3; 4])
  = Some (write_reference two_mappings sample_memory 0x100E [1; 2; 3; 4]).
Proof. apply (write_user_bytes_refines two_mappings sample_memory 0x100E [1; 2; 3; 4]); [exact two_mappings_wf|vm_compute; split; congruence]. Defined.

Lemma copy_between_user_processes_refines_witness :
  copy_between_user_processes two_mappings two_mappings sample_memory 0x1008 0x1000 16
  = Some (copy_between_reference (Z.to_nat 16) two_mappings two_mappings sample_memory 0x1008 0x1000).
Proof.
  apply (copy_between_user_processes_refines two_mappings two_mappings sample_memory 0x1008 0x1000 16);
    [exact two_mappings_wf|exact two_mappings_wf|vm_compute; split; congruence].
Defined.

Lemma two_mappings_injective : host_injective two_mappings.
Proof.
  assert (active two_mappings = [new_mapping 0x1000 0x8000 0x10; new_mapping 0x1010 0x9000 0x10]) as Ha by reflexivity.
  intros x y h (m1 & Hm1 & Hc1 & _ & E1)%byte_host_Some (m2 & Hm2 & Hc2 & _ & E2)%byte_host_Some; [|exact two_mappings_wf..].
  rewrite Ha in Hm1, Hm2. unfold covers in *. apply list_elem_of_In in Hm1, Hm2.
  destruct Hm1 as [<-|[<-|[]]], Hm2 as [<-|[<-|[]]];
    cbn [user_address mapping_size host_address new_mapping] in *; clear -Hc1 Hc2 E1 E2; lia.
Qed.

Lemma write_then_copy_roundtrip_witness :
  let m' := (write_reference two_mappings sample_memory 0x100E [1; 2; 3; 4]).2 in
  copy_user_bytes two_mappings m' 0x100E 4 true = Some (STATUS_OK, [1; 2; 3; 4]) /\
  forall h, (forall j, 0 <= j < 4 -> byte_host two_mappings (0x100E + j) <> Some h) -> m' h = sample_memory h.
Proof.
  intros m'. apply (write_then_copy_roundtrip two_mappings sample_memory 0x100E [1; 2; 3; 4]);
    [exact two_mappings_wf|exact two_mappings_injective|vm_compute; split; congruence|].
  unfold write_user_bytes. cbn [length Nat.eqb].
  rewrite write_user_loop_refines; [reflexivity|exact two_mappings_wf|vm_compute; split; congruence|apply ahead_fuel].
Defined.

Lemma failed_write_keeps_prefix_witness :
  write_user_bytes two_mappings sample_memory 0x101E (Some ([7; 8] ++ 9 :: []))
  = Some (STATUS_FAULT, poke (poke sample_memory 0x900E 7) 0x900F 8).
Proof.
  apply (failed_write_keeps_prefix two_mappings sample_memory 0x101E [7; 8] 9 []);
    [exact two_mappings_wf|vm_compute; split; congruence|reflexivity|].
  intros [h Hh]. vm_compute in Hh. discriminate.
Defined.

Lemma copy_user_string_correct_witness :
  copy_user_string (Some two_mappings) sample_memory 0x1000 true 4
  = Some (STATUS_BUFFER_TOO_SMALL, take 3 [138; 139; 140; 141] ++ [0]).
Proof.
  exact (proj2 (copy_user_string_correct two_mappings sample_memory 0x1000 4 two_mappings_wf
    ltac:(words) ltac:(lia))).
Defined.
