(* ===== verification/KernelObjectPool.v ===== *)
(** [kernel/kernel_object.cpp] and [kernel/kernel_object_pool.inl]: reference
    counted kernel objects named by handles, in pools of a fixed capacity that
    share one handle counter. *)
From S2P Require Import Prelude.

Record kernel_object := {
  m_id : Z;                        (* uint32_t *)
  m_handle_value : Z;              (* handle_t *)
  m_process_reference_count : Z;   (* uint32_t *)
}.

Definition make_kernel_object (object_id handle_value : Z) : kernel_object :=
  {| m_id := object_id; m_handle_value := handle_value; m_process_reference_count := 0 |}.

Definition acquire_process_reference (o : kernel_object) : kernel_object :=
  {| m_id := m_id o; m_handle_value := m_handle_value o;
     m_process_reference_count := u32 (m_process_reference_count o + 1) |}.

(** The base class: what a pool needs of the objects it holds. *)
Class KernelObject (A : Type) := {
  object_of : A -> kernel_object;
  with_object : A -> kernel_object -> A;
  object_of_with_object : forall x o, object_of (with_object x o) = o;
}.

Definition get_handle {A} `{KernelObject A} (x : A) : Z := m_handle_value (object_of x).

(** A slot is occupied when it is not [None].  [m_next_handle_value], a pointer
    to the counter shared by the pools, is null until [reset]. *)
Record kernel_object_pool (A : Type) := {
  m_items : list (option A);
  m_next_object_id : Z;
  m_has_next_handle_value : bool;
}.
Arguments m_items {A} _.
Arguments m_next_object_id {A} _.
Arguments m_has_next_handle_value {A} _.

Section pool.
Context {A : Type} `{KernelObject A}.
Implicit Types p : kernel_object_pool A.

Definition with_items p (l : list (option A)) : kernel_object_pool A :=
  {| m_items := l; m_next_object_id := m_next_object_id p; m_has_next_handle_value := m_has_next_handle_value p |}.

Definition capacity p : nat := length (m_items p).

(** Every slot is free afterwards; the destructors of the objects are empty. *)
Definition destroy_occupied_items p : kernel_object_pool A := with_items p (replicate (capacity p) None).

Definition reset p : kernel_object_pool A :=
  let p := destroy_occupied_items p in
  {| m_items := m_items p; m_next_object_id := 1; m_has_next_handle_value := true |}.

(** [__atomic_fetch_add]: the value and the counter after it. *)
Definition allocate_handle_value (next : Z) : Z * Z := (next, u64 (next + 1)).

(** The index of the first free slot. *)
Definition first_free p : option nat := fst <$> list_find (fun s => s = None) (m_items p).

(** [emplace(args...)]: [construct id handle] is the constructor applied to
    [args].  Returns the index of the new object, the pool and the counter. *)
Definition emplace p (next : Z) (construct : Z -> Z -> A) : option nat * kernel_object_pool A * Z :=
  if negb (m_has_next_handle_value p) then (None, p, next)
  else
    match first_free p with
    | None => (None, p, next)
    | Some index =>
        let '(handle, next') := allocate_handle_value next in
        (Some index,
         {| m_items := <[index := Some (construct (m_next_object_id p) handle)]> (m_items p);
            m_next_object_id := u32 (m_next_object_id p + 1);
            m_has_next_handle_value := m_has_next_handle_value p |},
         next')
    end.

(** The loop of [has_free_items] over the slots left. *)
Fixpoint has_free_loop (slots : list (option A)) (free_count required_count : Z) : bool :=
  match slots with
  | [] => required_count =? 0
  | Some _ :: slots => has_free_loop slots free_count required_count
  | None :: slots =>
      if required_count <=? u32 (free_count + 1) then true
      else has_free_loop slots (u32 (free_count + 1)) required_count
  end.

Definition has_free_items p (required_count : Z) : bool := has_free_loop (m_items p) 0 required_count.

Definition slot_has_handle (handle : Z) (s : option A) : Prop :=
  match s with Some x => get_handle x = handle | None => False end.

#[export] Instance slot_has_handle_dec handle s : Decision (slot_has_handle handle s).
Proof. unfold slot_has_handle. destruct s; apply _. Defined.

Definition find_by_handle p (handle : Z) : option nat := fst <$> list_find (slot_has_handle handle) (m_items p).

Definition get_by_index p (index : nat) : option A := mjoin (m_items p !! index).

Definition erase_by_handle p (handle : Z) : bool * kernel_object_pool A :=
  match find_by_handle p handle with
  | None => (false, p)
  | Some index => (true, with_items p (<[index := None]> (m_items p)))
  end.

(** Assignment to an object in place. *)
Definition update_at p (index : nat) (x : A) : kernel_object_pool A :=
  with_items p (<[index := Some x]> (m_items p)).

(** * Invariants *)

(** The handles of the objects in a pool are distinct and already issued. *)
Definition handles p : list Z := get_handle <$> omap id (m_items p).

Definition free_slots p : nat := length (filter (fun s => s = None) (m_items p)).

Record pool_wf p (next : Z) : Prop := {
  pool_ready : m_has_next_handle_value p = true;
  pool_unique : forall i j x y, get_by_index p i = Some x -> get_by_index p j = Some y ->
    get_handle x = get_handle y -> i = j;
  pool_issued : forall i x, get_by_index p i = Some x -> 1 <= get_handle x < next;
}.

Lemma get_by_index_lookup p i x : get_by_index p i = Some x <-> m_items p !! i = Some (Some x).
Proof. unfold get_by_index. destruct (m_items p !! i) as [[]|]; cbn; naive_solver. Qed.

Lemma get_by_index_lt p i x : get_by_index p i = Some x -> (i < capacity p)%nat.
Proof. intros E%get_by_index_lookup. by eapply lookup_lt_Some. Qed.

Lemma find_by_handle_spec p next handle i :
  pool_wf p next ->
  find_by_handle p handle = Some i <-> exists x, get_by_index p i = Some x /\ get_handle x = handle.
Proof.
  intros Hwf. unfold find_by_handle. split.
  - destruct (list_find _ _) as [[j s]|] eqn:E; [|done]. injection 1 as ->.
    apply list_find_Some in E as (Hj & Hs & _). destruct s as [x|]; [|done].
    exists x. split; [by apply get_by_index_lookup|done].
  - intros (x & Hx & Hh). destruct (list_find _ _) as [[j s]|] eqn:E.
    + apply list_find_Some in E as (Hj & Hs & _). destruct s as [y|]; [|done]. cbn. f_equal.
      apply (pool_unique p next Hwf j i y x); [by apply get_by_index_lookup|done|]. cbn in Hs. congruence.
    + apply get_by_index_lookup in Hx. exfalso. eapply list_find_None, Forall_lookup_1 in E; [|done]. by apply E.
Qed.

Lemma find_by_handle_None p handle :
  find_by_handle p handle = None <-> forall i x, get_by_index p i = Some x -> get_handle x <> handle.
Proof.
  unfold find_by_handle. split.
  - destruct (list_find _ _) as [[]|] eqn:E; [done|]. intros _ i x Hx%get_by_index_lookup Hh.
    eapply list_find_None, Forall_lookup_1 in E; [|done]. by apply E.
  - intros Hn. destruct (list_find _ _) as [[j s]|] eqn:E; [|done].
    apply list_find_Some in E as (Hj & Hs & _). destruct s as [x|]; [|done].
    exfalso. apply (Hn j x); [by apply get_by_index_lookup|done].
Qed.

Lemma get_by_index_insert p i j s :
  (i < capacity p)%nat ->
  get_by_index (with_items p (<[i := s]> (m_items p))) j = if decide (i = j) then s else get_by_index p j.
Proof.
  intros Hi. unfold get_by_index. cbn. destruct (decide (i = j)) as [<-|].
  - by rewrite list_lookup_insert_eq.
  - by rewrite list_lookup_insert_ne.
Qed.

Lemma first_free_spec p i : first_free p = Some i -> m_items p !! i = Some None /\ forall j, (j < i)%nat -> is_Some (get_by_index p j).
Proof.
  unfold first_free. destruct (list_find _ _) as [[k s]|] eqn:E; [|done]. injection 1 as ->.
  apply list_find_Some in E as (Hi & -> & Hbefore). split; [done|]. intros j Hj.
  destruct (m_items p !! j) as [[x|]|] eqn:Ej.
  - exists x. by apply get_by_index_lookup.
  - exfalso. by eapply (Hbefore j None).
  - apply lookup_ge_None_1 in Ej. apply lookup_lt_Some in Hi. lia.
Qed.

Lemma first_free_None p : first_free p = None <-> free_slots p = 0%nat.
Proof.
  unfold first_free, free_slots. destruct (list_find _ _) as [[k s]|] eqn:E; cbn.
  - split; [done|]. intros Hf. apply nil_length_inv in Hf. apply list_find_Some in E as (Hk & -> & _).
    exfalso. apply list_elem_of_lookup_2 in Hk.
    assert (None ∈ filter (fun s : option A => s = None) (m_items p)) as Hin by (by apply list_elem_of_filter).
    rewrite Hf in Hin. by apply not_elem_of_nil in Hin.
  - split; [|done]. intros _. apply list_find_None in E. induction E as [|s l Hs Hl IH]; [done|].
    by rewrite filter_cons_False.
Qed.

Lemma has_free_loop_spec slots free required :
  0 <= free -> 0 <= required -> free + Z.of_nat (length slots) < 2 ^ 32 -> (free < required \/ required = 0) ->
  has_free_loop slots free required = (required <=? free + Z.of_nat (length (filter (fun s => s = None) slots))).
Proof.
  revert free. induction slots as [|[x|] slots IH]; intros free Hf Hr Hlen Hlt; cbn [has_free_loop].
  - rewrite filter_nil. cbn [length Z.of_nat]. rewrite Z.add_0_r.
    destruct (Z.eqb_spec required 0), (Z.leb_spec required free); (reflexivity || lia).
  - rewrite filter_cons_False by done. apply IH; [done|done|cbn [length] in Hlen; lia|done].
  - rewrite filter_cons_True by done. cbn [length] in *. rewrite u32_id by words.
    destruct (Z.leb_spec required (free + 1)).
    + symmetry. apply Z.leb_le. lia.
    + rewrite IH by lia. f_equal. lia.
Qed.
End pool.

Section operations.
Context {A : Type} `{KernelObject A}.
Implicit Types p : kernel_object_pool A.

Lemma pool_wf_mono p next next' : pool_wf p next -> next <= next' -> pool_wf p next'.
Proof. intros [] Hle. constructor; [done|done|]. intros i x Hx. specialize (pool_issued0 i x Hx). lia. Qed.

(** Erasing a slot, and replacing an object by one with the same handle. *)
Lemma pool_wf_erase p next i : pool_wf p next -> (i < capacity p)%nat -> pool_wf (with_items p (<[i := None]> (m_items p))) next.
Proof.
  intros [Hr Hu Hi] Hlt. constructor; [done| |].
  - intros j k x y. rewrite !get_by_index_insert by done.
    destruct (decide (i = j)), (decide (i = k)); [done..|]. apply Hu.
  - intros j x. rewrite get_by_index_insert by done. destruct (decide (i = j)); [done|]. apply Hi.
Qed.

Lemma pool_wf_update p next i x y :
  pool_wf p next -> get_by_index p i = Some x -> get_handle y = get_handle x -> pool_wf (update_at p i y) next.
Proof.
  intros [Hr Hu Hi] Hx Hh. pose proof (get_by_index_lt p i x Hx) as Hlt. unfold update_at. constructor; [done| |].
  - intros j k x1 x2. rewrite !get_by_index_insert by done.
    destruct (decide (i = j)) as [<-|], (decide (i = k)) as [<-|]; [done| | |apply Hu].
    + intros [= <-] H2 E. apply (Hu i k x x2); congruence.
    + intros H1 [= <-] E. apply (Hu j i x1 x); congruence.
  - intros j z. rewrite get_by_index_insert by done. destruct (decide (i = j)) as [<-|]; [|apply Hi].
    intros [= <-]. rewrite Hh. by apply (Hi i).
Qed.

(** What [emplace] does when it succeeds and when it fails. *)
Record emplaced (p p' : kernel_object_pool A) (next next' : Z) (construct : Z -> Z -> A) (i : nat) : Prop := {
  emplaced_free : get_by_index p i = None;
  emplaced_object : get_by_index p' i = Some (construct (m_next_object_id p) next);
  emplaced_find : find_by_handle p' next = Some i;
  emplaced_next : next' = next + 1;
  emplaced_others : forall j, j <> i -> get_by_index p' j = get_by_index p j;
  emplaced_first : forall j, (j < i)%nat -> is_Some (get_by_index p j);
  emplaced_capacity : capacity p' = capacity p;
}.

Lemma emplace_wf p next construct :
  pool_wf p next -> (forall id h, get_handle (construct id h) = h) -> 1 <= next < 2 ^ 64 - 1 ->
  let '(r, p', next') := emplace p next construct in
  pool_wf p' next' /\
  match r with
  | Some i => emplaced p p' next next' construct i
  | None => free_slots p = 0%nat /\ p' = p /\ next' = next
  end.
Proof.
  intros Hwf Hc Hn. unfold emplace. rewrite (pool_ready p next Hwf). cbn [negb].
  destruct (first_free p) as [i|] eqn:E; [|split; [done|]; split; [by apply first_free_None|done]].
  apply first_free_spec in E as [Hi Hbefore]. pose proof (lookup_lt_Some _ _ _ Hi) as Hlt.
  cbn [allocate_handle_value]. rewrite u64_id by words.
  set (p' := {| m_items := _ |}).
  assert (forall j, get_by_index p' j = if decide (i = j) then Some (construct (m_next_object_id p) next) else get_by_index p j) as Hget.
  { intros j. exact (get_by_index_insert p i j (Some (construct (m_next_object_id p) next)) Hlt). }
  assert (pool_wf p' (next + 1)) as Hwf'.
  { destruct Hwf as [Hr Hu His]. constructor; [done| |].
    - intros j k x y. rewrite !Hget. destruct (decide (i = j)) as [<-|], (decide (i = k)) as [<-|]; [done| | |apply Hu].
      + intros [= <-] Hy Eh. rewrite Hc in Eh. apply His in Hy. lia.
      + intros Hx [= <-] Eh. rewrite Hc in Eh. apply His in Hx. lia.
    - intros j x. rewrite Hget. destruct (decide (i = j)); [intros [= <-]; rewrite Hc; lia|].
      intros Hx%His. lia. }
  split; [done|]. constructor.
  - unfold get_by_index. by rewrite Hi.
  - rewrite Hget. by rewrite decide_True.
  - apply (find_by_handle_spec p' (next + 1)); [done|]. eexists. rewrite Hget, decide_True by done. split; [done|apply Hc].
  - done.
  - intros j Hj. rewrite Hget. by rewrite decide_False.
  - done.
  - unfold capacity, p'. cbn. apply length_insert.
Qed.

Lemma erase_wf p next handle : pool_wf p next -> pool_wf (erase_by_handle p handle).2 next.
Proof.
  intros Hwf. unfold erase_by_handle. destruct (find_by_handle p handle) as [i|] eqn:E; [|done].
  apply (find_by_handle_spec p next) in E as (x & Hx & _); [|done].
  apply pool_wf_erase; [done|]. by eapply get_by_index_lt.
Qed.

Lemma erase_capacity p handle : capacity (erase_by_handle p handle).2 = capacity p.
Proof. unfold erase_by_handle, capacity. destruct (find_by_handle p handle); [|done]. apply length_insert. Qed.

(** C31: emplace on a pool with distinct, issued handles uses the first free slot, gives the
    object the next handle, by which it is then found, leaves every other slot alone and keeps
    the handles distinct; it fails only when no slot is free, changing nothing. *)
Theorem emplace_spec p next construct :
  pool_wf p next -> (forall id h, get_handle (construct id h) = h) -> 1 <= next < 2 ^ 64 - 1 ->
  let '(r, p', next') := emplace p next construct in
  pool_wf p' next' /\
  match r with
  | Some i => emplaced p p' next next' construct i
  | None => free_slots p = 0%nat /\ p' = p /\ next' = next
  end.
Proof. apply emplace_wf. Qed.

(** erase_by_handle succeeds exactly when the handle names an object, which it then no
    longer does, while every other handle names what it named before. *)
Lemma erase_by_handle_spec p next handle :
  pool_wf p next ->
  let '(ok, p') := erase_by_handle p handle in
  pool_wf p' next /\
  (ok = true <-> is_Some (find_by_handle p handle)) /\
  find_by_handle p' handle = None /\
  forall h, h <> handle -> find_by_handle p' h = find_by_handle p h.
Proof.
  intros Hwf. pose proof (erase_wf p next handle Hwf) as Hwf'. unfold erase_by_handle in *.
  destruct (find_by_handle p handle) as [i|] eqn:E; cbn [snd] in Hwf'.
  2: { split_and!; [done| |done|done]. split; [done|by intros []]. }
  apply (find_by_handle_spec p next) in E as (x & Hx & Hh); [|done]. pose proof (get_by_index_lt p i x Hx) as Hlt.
  split_and!; [done|by split| |].
  - apply find_by_handle_None. intros j y. rewrite get_by_index_insert by done.
    destruct (decide (i = j)); [done|]. intros Hy Eh. apply (pool_unique p next Hwf i j x y) in Hx; congruence.
  - intros h Hne. destruct (find_by_handle p h) as [j|] eqn:Ej.
    + apply (find_by_handle_spec p next) in Ej as (y & Hy & Ey); [|done].
      apply (find_by_handle_spec _ next); [done|]. exists y. split; [|done].
      rewrite get_by_index_insert by done. destruct (decide (i = j)) as [->|]; [congruence|done].
    + apply find_by_handle_None. intros j y. rewrite get_by_index_insert by done.
      destruct (decide (i = j)); [done|]. intros Hy. by apply (proj1 (find_by_handle_None p h) Ej j).
Qed.

(** has_free_items tells whether at least the required number of slots is free. *)
Lemma has_free_items_spec p n :
  Z.of_nat (capacity p) < 2 ^ 32 -> 0 <= n -> has_free_items p n = (n <=? Z.of_nat (free_slots p)).
Proof.
  intros Hc Hn. unfold has_free_items, free_slots. rewrite has_free_loop_spec; [f_equal; lia|lia|lia|exact Hc|lia].
Qed.

Lemma reset_wf p next : pool_wf (reset p) next.
Proof.
  assert (forall i, get_by_index (reset p) i = None) as Hn.
  { intros i. unfold get_by_index, reset. cbn. destruct (replicate (capacity p) None !! i) as [[]|] eqn:E; [|done..].
    apply lookup_replicate in E as [E _]. done. }
  constructor; [done| |]; intros ?; [intros ????|intros ?]; rewrite Hn; done.
Qed.
End operations.

(** ** Instances *)

(** A pool of two plain objects, the first slot taken by handle 4. *)
Definition plain_object : KernelObject kernel_object :=
  {| object_of := fun x => x; with_object := fun _ o => o; object_of_with_object := fun _ _ => eq_refl |}.

Definition sample_pool : kernel_object_pool kernel_object :=
  {| m_items := [Some (make_kernel_object 1 4); None]; m_next_object_id := 2; m_has_next_handle_value := true |}.

Lemma sample_pool_wf : @pool_wf _ plain_object sample_pool 5.
Proof.
  assert (forall i x, get_by_index sample_pool i = Some x -> i = 0%nat /\ m_handle_value x = 4) as Hs.
  { intros [|[|i]] x Hx; cbn in Hx; simplify_eq/=; done. }
  constructor; [done| |].
  - intros i j x y Hx%Hs Hy%Hs _. destruct Hx, Hy. congruence.
  - intros i x Hx%Hs. destruct Hx as [_ Hx]. unfold get_handle. cbn. lia.
Qed.

Lemma emplace_spec_witness :
  let '(r, p', next') := @emplace _ sample_pool 5 make_kernel_object in
  @pool_wf _ plain_object p' next' /\
  match r with
  | Some i => @emplaced _ plain_object sample_pool p' 5 next' make_kernel_object i
  | None => free_slots sample_pool = 0%nat /\ p' = sample_pool /\ next' = 5
  end.
Proof.
  apply (@emplace_spec _ plain_object sample_pool 5 make_kernel_object); [exact sample_pool_wf|done|lia].
Defined.

Lemma erase_by_handle_spec_witness :
  let '(ok, p') := @erase_by_handle _ plain_object sample_pool 4 in
  @pool_wf _ plain_object p' 5 /\
  (ok = true <-> is_Some (@find_by_handle _ plain_object sample_pool 4)) /\
  @find_by_handle _ plain_object p' 4 = None /\
  forall h, h <> 4 -> @find_by_handle _ plain_object p' h = @find_by_handle _ plain_object sample_pool h.
Proof. apply (@erase_by_handle_spec _ plain_object sample_pool 5 4). exact sample_pool_wf. Defined.

Lemma has_free_items_spec_witness : has_free_items sample_pool 1 = (1 <=? Z.of_nat (free_slots sample_pool)).
Proof. apply (has_free_items_spec sample_pool 1); [cbn; lia|lia]. Defined.
