(* ===== verification/RuntimeTypes.v ===== *)
(** The kernel's objects: [kernel/user_runtime_types.h], [kernel/process.cpp],
    [kernel/thread.cpp], [kernel/shared_memory_object.cpp],
    [kernel/device_memory_object.cpp], and the data of [kernel/rpc.h] and
    [kernel/user_runtime.h].

    A pointer to an object of a pool is the index of its slot; a null pointer
    is [None]. *)
From S2P Require Import Prelude AddressSpace UserMemory KernelObjectPool.

Definition USER_RUNTIME_MAX_PROCESSES : nat := 4.
Definition USER_RUNTIME_MAX_THREADS : nat := 4.
Definition USER_RUNTIME_MAX_DEVICE_MEMORY_OBJECTS : nat := 4.
Definition USER_RUNTIME_MAX_RPC_ENDPOINTS : nat := 8.
Definition USER_RUNTIME_MAX_RPC_CHANNELS : nat := 8.
Definition USER_RUNTIME_MAX_SHARED_MEMORY_OBJECTS : nat := 4.
Definition USER_RUNTIME_MAX_INITIAL_PROCESSES : Z := 2.
Definition USER_THREAD_ARCH_PRESERVED_REGISTER_COUNT : nat := 12.
Definition USER_THREAD_ARCH_PRESERVED_SIMD_QWORD_COUNT : nat := 20.

(** The two targets the kernel is compiled for ([__x86_64__], [__aarch64__]). *)
Inductive architecture := x86_64 | aarch64.
Class Target := target : architecture.

Inductive user_thread_state :=
  | USER_THREAD_STATE_EMPTY
  | USER_THREAD_STATE_READY
  | USER_THREAD_STATE_RUNNING
  | USER_THREAD_STATE_BLOCKED
  | USER_THREAD_STATE_EXITED.

Inductive user_thread_resume_kind :=
  | USER_THREAD_RESUME_KIND_SYSCALL
  | USER_THREAD_RESUME_KIND_RPC.

Inductive process_guest_architecture :=
  | PROCESS_GUEST_ARCHITECTURE_UNKNOWN
  | PROCESS_GUEST_ARCHITECTURE_X64
  | PROCESS_GUEST_ARCHITECTURE_ARM64.

Inductive process_personality :=
  | PROCESS_PERSONALITY_UNKNOWN
  | PROCESS_PERSONALITY_RINGOS
  | PROCESS_PERSONALITY_WINDOWS.

Inductive process_execution_backend :=
  | PROCESS_EXECUTION_BACKEND_UNKNOWN
  | PROCESS_EXECUTION_BACKEND_NATIVE
  | PROCESS_EXECUTION_BACKEND_X64_EMULATOR.

Inductive device_memory_type :=
  | DEVICE_MEMORY_TYPE_NONE
  | DEVICE_MEMORY_TYPE_VIRTUAL_CONSOLE_BUFFER
  | DEVICE_MEMORY_TYPE_MMIO.

#[export] Instance user_thread_state_eq_dec : EqDecision user_thread_state.
Proof. solve_decision. Defined.
#[export] Instance user_thread_resume_kind_eq_dec : EqDecision user_thread_resume_kind.
Proof. solve_decision. Defined.

Record process_metadata := {
  guest_architecture : process_guest_architecture;
  personality : process_personality;
  execution_backend : process_execution_backend;
}.

Record thread_context := {
  context_instruction_pointer : Z;
  context_stack_pointer : Z;
  context_flags : Z;
  context_argument0 : Z;
}.

Record user_thread_resume := {
  resume_kind : user_thread_resume_kind;
  resume_instruction_pointer : Z;
  resume_stack_pointer : Z;
  resume_flags : Z;
  resume_argument0 : Z;
  resume_argument1 : Z;
  resume_status_code : Z;            (* int32_t *)
  resume_rpc_completion_address : Z;
}.

Record user_syscall_context := {
  syscall_number : Z;
  trap_instruction_pointer : Z;
  trap_stack_pointer : Z;
  trap_flags : Z;
  argument0 : Z;
  argument1 : Z;
  argument2 : Z;
  argument3 : Z;
  argument4 : Z;
  argument5 : Z;
}.

Definition make_user_syscall_context (number ip sp fl a0 a1 a2 a3 a4 a5 : Z) : user_syscall_context :=
  {| syscall_number := number; trap_instruction_pointer := ip; trap_stack_pointer := sp; trap_flags := fl;
     argument0 := a0; argument1 := a1; argument2 := a2; argument3 := a3; argument4 := a4; argument5 := a5 |}.

Definition make_thread_context_from_syscall (s : user_syscall_context) : thread_context :=
  {| context_instruction_pointer := trap_instruction_pointer s; context_stack_pointer := trap_stack_pointer s;
     context_flags := trap_flags s; context_argument0 := argument0 s |}.

Record initial_process_configuration := {
  initial_metadata : process_metadata;
  initial_address_space : address_space;
  initial_thread_context : thread_context;
}.

Record initial_user_runtime_bootstrap := {
  process_count : Z;             (* uint32_t *)
  initial_process_index : Z;     (* uint32_t *)
  initial_processes : list initial_process_configuration;   (* [2] *)
}.

(** ** Processes and memory objects *)

Record process := {
  process_object : kernel_object;
  m_metadata : process_metadata;
  m_address_space : address_space;
}.

Definition make_process (metadata : process_metadata) (a : address_space) (id handle : Z) : process :=
  {| process_object := make_kernel_object id handle; m_metadata := metadata; m_address_space := a |}.

Record shared_memory_object := {
  shared_object : kernel_object;
  shared_user_address : Z;
  shared_size : Z;
}.

Definition make_shared_memory_object (user size : Z) (id handle : Z) : shared_memory_object :=
  {| shared_object := make_kernel_object id handle; shared_user_address := user; shared_size := size |}.

Record device_memory_object := {
  device_object : kernel_object;
  device_type : device_memory_type;
  device_user_address : Z;
  device_host_address : Z;
  device_size : Z;
}.

Definition make_device_memory_object (type : device_memory_type) (user host size : Z) (id handle : Z) : device_memory_object :=
  {| device_object := make_kernel_object id handle; device_type := type; device_user_address := user;
     device_host_address := host; device_size := size |}.

(** ** Threads *)

Record thread := {
  thread_object : kernel_object;
  m_process : option nat;                  (* process* *)
  m_state : user_thread_state;
  m_user_context : thread_context;
  m_resume_state : user_thread_resume;
  m_exit_status : Z;
  m_initial_argument0 : Z;
  m_should_deliver_initial_argument : bool;
  m_pending_syscall_status : Z;            (* int32_t *)
  m_arch_preserved_registers : list Z;
  m_arch_preserved_simd_qwords : list Z;
}.

Section thread_fields.
Implicit Types t : thread.

Definition with_state t (s : user_thread_state) : thread :=
  {| thread_object := thread_object t; m_process := m_process t; m_state := s; m_user_context := m_user_context t;
     m_resume_state := m_resume_state t; m_exit_status := m_exit_status t;
     m_initial_argument0 := m_initial_argument0 t;
     m_should_deliver_initial_argument := m_should_deliver_initial_argument t;
     m_pending_syscall_status := m_pending_syscall_status t;
     m_arch_preserved_registers := m_arch_preserved_registers t;
     m_arch_preserved_simd_qwords := m_arch_preserved_simd_qwords t |}.

Definition with_context t (c : thread_context) : thread :=
  {| thread_object := thread_object t; m_process := m_process t; m_state := m_state t; m_user_context := c;
     m_resume_state := m_resume_state t; m_exit_status := m_exit_status t;
     m_initial_argument0 := m_initial_argument0 t;
     m_should_deliver_initial_argument := m_should_deliver_initial_argument t;
     m_pending_syscall_status := m_pending_syscall_status t;
     m_arch_preserved_registers := m_arch_preserved_registers t;
     m_arch_preserved_simd_qwords := m_arch_preserved_simd_qwords t |}.

Definition with_resume t (r : user_thread_resume) : thread :=
  {| thread_object := thread_object t; m_process := m_process t; m_state := m_state t;
     m_user_context := m_user_context t; m_resume_state := r; m_exit_status := m_exit_status t;
     m_initial_argument0 := m_initial_argument0 t;
     m_should_deliver_initial_argument := m_should_deliver_initial_argument t;
     m_pending_syscall_status := m_pending_syscall_status t;
     m_arch_preserved_registers := m_arch_preserved_registers t;
     m_arch_preserved_simd_qwords := m_arch_preserved_simd_qwords t |}.

Definition with_exit t (s : Z) : thread :=
  {| thread_object := thread_object t; m_process := m_process t; m_state := m_state t;
     m_user_context := m_user_context t; m_resume_state := m_resume_state t; m_exit_status := s;
     m_initial_argument0 := m_initial_argument0 t;
     m_should_deliver_initial_argument := m_should_deliver_initial_argument t;
     m_pending_syscall_status := m_pending_syscall_status t;
     m_arch_preserved_registers := m_arch_preserved_registers t;
     m_arch_preserved_simd_qwords := m_arch_preserved_simd_qwords t |}.

Definition with_pending t (s : Z) : thread :=
  {| thread_object := thread_object t; m_process := m_process t; m_state := m_state t;
     m_user_context := m_user_context t; m_resume_state := m_resume_state t; m_exit_status := m_exit_status t;
     m_initial_argument0 := m_initial_argument0 t;
     m_should_deliver_initial_argument := m_should_deliver_initial_argument t;
     m_pending_syscall_status := s;
     m_arch_preserved_registers := m_arch_preserved_registers t;
     m_arch_preserved_simd_qwords := m_arch_preserved_simd_qwords t |}.

Definition with_preserved t (regs simd : list Z) : thread :=
  {| thread_object := thread_object t; m_process := m_process t; m_state := m_state t;
     m_user_context := m_user_context t; m_resume_state := m_resume_state t; m_exit_status := m_exit_status t;
     m_initial_argument0 := m_initial_argument0 t;
     m_should_deliver_initial_argument := m_should_deliver_initial_argument t;
     m_pending_syscall_status := m_pending_syscall_status t;
     m_arch_preserved_registers := regs; m_arch_preserved_simd_qwords := simd |}.
End thread_fields.

Definition make_thread (process_context : nat) (initial_context : thread_context) (id handle : Z) : thread :=
  {| thread_object := make_kernel_object id handle;
     m_process := Some process_context;
     m_state := USER_THREAD_STATE_READY;
     m_user_context := initial_context;
     m_resume_state :=
       {| resume_kind := USER_THREAD_RESUME_KIND_SYSCALL;
          resume_instruction_pointer := context_instruction_pointer initial_context;
          resume_stack_pointer := context_stack_pointer initial_context;
          resume_flags := context_flags initial_context;
          resume_argument0 := context_argument0 initial_context;
          resume_argument1 := STATUS_OK;
          resume_status_code := 0;
          resume_rpc_completion_address := 0 |};
     m_exit_status := 0;
     m_initial_argument0 := context_argument0 initial_context;
     m_should_deliver_initial_argument := true;
     m_pending_syscall_status := STATUS_OK;
     m_arch_preserved_registers := replicate USER_THREAD_ARCH_PRESERVED_REGISTER_COUNT 0;
     m_arch_preserved_simd_qwords := replicate USER_THREAD_ARCH_PRESERVED_SIMD_QWORD_COUNT 0 |}.

Definition sync_resume_to_user_context (t : thread) : thread :=
  with_resume t
    {| resume_kind := USER_THREAD_RESUME_KIND_SYSCALL;
       resume_instruction_pointer := context_instruction_pointer (m_user_context t);
       resume_stack_pointer := context_stack_pointer (m_user_context t);
       resume_flags := context_flags (m_user_context t);
       resume_argument0 := context_argument0 (m_user_context t);
       resume_argument1 := 0;
       resume_status_code := m_pending_syscall_status t;
       resume_rpc_completion_address := 0 |}.

Definition set_user_context (t : thread) (c : thread_context) : thread :=
  sync_resume_to_user_context (with_context t c).

Definition set_status_code (r : user_thread_resume) (status : Z) : user_thread_resume :=
  {| resume_kind := resume_kind r; resume_instruction_pointer := resume_instruction_pointer r;
     resume_stack_pointer := resume_stack_pointer r; resume_flags := resume_flags r;
     resume_argument0 := resume_argument0 r; resume_argument1 := resume_argument1 r;
     resume_status_code := status; resume_rpc_completion_address := resume_rpc_completion_address r |}.

Definition set_resume_argument0 (r : user_thread_resume) (a : Z) : user_thread_resume :=
  {| resume_kind := resume_kind r; resume_instruction_pointer := resume_instruction_pointer r;
     resume_stack_pointer := resume_stack_pointer r; resume_flags := resume_flags r;
     resume_argument0 := a; resume_argument1 := resume_argument1 r;
     resume_status_code := resume_status_code r; resume_rpc_completion_address := resume_rpc_completion_address r |}.

Definition set_pending_syscall_status (t : thread) (status : Z) : thread :=
  let t := with_pending t status in with_resume t (set_status_code (m_resume_state t) status).

Definition clear_initial_argument (t : thread) : thread :=
  {| thread_object := thread_object t; m_process := m_process t; m_state := m_state t; m_user_context := m_user_context t;
     m_resume_state := m_resume_state t; m_exit_status := m_exit_status t;
     m_initial_argument0 := m_initial_argument0 t; m_should_deliver_initial_argument := false;
     m_pending_syscall_status := m_pending_syscall_status t;
     m_arch_preserved_registers := m_arch_preserved_registers t;
     m_arch_preserved_simd_qwords := m_arch_preserved_simd_qwords t |}.

Definition prepare_syscall_resume `{Target} (t : thread) (status : Z) : thread :=
  let t := sync_resume_to_user_context (with_pending t status) in
  let t := with_resume t (set_status_code (m_resume_state t) status) in
  match target with
  | aarch64 => with_resume t (set_resume_argument0 (m_resume_state t) (u64 (s64 status)))
  | x86_64 => t
  end.

Definition prepare_rpc_resume (t : thread) (callback completion a0 a1 sp : Z) : thread :=
  with_resume t
    {| resume_kind := USER_THREAD_RESUME_KIND_RPC;
       resume_instruction_pointer := callback;
       resume_stack_pointer := sp;
       resume_flags := context_flags (m_user_context t);
       resume_argument0 := a0;
       resume_argument1 := a1;
       resume_status_code := 0;
       resume_rpc_completion_address := completion |}.

(** ** RPC endpoints and channels *)

Definition RINGOS_RPC_ENDPOINT_NAME_MAX_LENGTH : Z := 31.
Definition RINGOS_RPC_MAX_REQUEST_SIZE : Z := 256.
Definition NAME_CAPACITY : nat := 32.

Record rpc_endpoint := {
  m_is_in_use : bool;
  m_is_busy : bool;
  m_name : list Z;               (* char[32] *)
  m_owner_process : option nat;
  m_owner_thread : option nat;
  m_callback_address : Z;
  m_completion_address : Z;
}.

Record rpc_channel := {
  channel_object : kernel_object;
  m_client_process : option nat;
  m_endpoint : option nat;                   (* rpc_endpoint* into m_endpoints *)
  m_pending_client_thread : option nat;
  m_pending_server_thread : option nat;
  m_saved_server_state : user_thread_state;
  m_saved_server_context : thread_context;
  m_saved_server_registers : list Z;
  m_saved_server_simd_qwords : list Z;
}.

Definition zero_context : thread_context :=
  {| context_instruction_pointer := 0; context_stack_pointer := 0; context_flags := 0; context_argument0 := 0 |}.

Definition make_rpc_channel (client_process endpoint : nat) (id handle : Z) : rpc_channel :=
  {| channel_object := make_kernel_object id handle;
     m_client_process := Some client_process;
     m_endpoint := Some endpoint;
     m_pending_client_thread := None;
     m_pending_server_thread := None;
     m_saved_server_state := USER_THREAD_STATE_EMPTY;
     m_saved_server_context := zero_context;
     m_saved_server_registers := replicate USER_THREAD_ARCH_PRESERVED_REGISTER_COUNT 0;
     m_saved_server_simd_qwords := replicate USER_THREAD_ARCH_PRESERVED_SIMD_QWORD_COUNT 0 |}.

(** ** The base class of each pooled object *)

#[export] Instance process_KernelObject : KernelObject process.
Proof.
  refine {| object_of := process_object;
            with_object := fun p o => {| process_object := o; m_metadata := m_metadata p; m_address_space := m_address_space p |} |}.
  reflexivity.
Defined.

#[export] Instance thread_KernelObject : KernelObject thread.
Proof.
  refine {| object_of := thread_object;
            with_object := fun t o =>
              {| thread_object := o; m_process := m_process t; m_state := m_state t; m_user_context := m_user_context t;
                 m_resume_state := m_resume_state t; m_exit_status := m_exit_status t;
                 m_initial_argument0 := m_initial_argument0 t;
                 m_should_deliver_initial_argument := m_should_deliver_initial_argument t;
                 m_pending_syscall_status := m_pending_syscall_status t;
                 m_arch_preserved_registers := m_arch_preserved_registers t;
                 m_arch_preserved_simd_qwords := m_arch_preserved_simd_qwords t |} |}.
  reflexivity.
Defined.

#[export] Instance shared_memory_object_KernelObject : KernelObject shared_memory_object.
Proof.
  refine {| object_of := shared_object;
            with_object := fun s o => {| shared_object := o; shared_user_address := shared_user_address s; shared_size := shared_size s |} |}.
  reflexivity.
Defined.

#[export] Instance device_memory_object_KernelObject : KernelObject device_memory_object.
Proof.
  refine {| object_of := device_object;
            with_object := fun d o =>
              {| device_object := o; device_type := device_type d; device_user_address := device_user_address d;
                 device_host_address := device_host_address d; device_size := device_size d |} |}.
  reflexivity.
Defined.

#[export] Instance rpc_channel_KernelObject : KernelObject rpc_channel.
Proof.
  refine {| object_of := channel_object;
            with_object := fun c o =>
              {| channel_object := o; m_client_process := m_client_process c; m_endpoint := m_endpoint c;
                 m_pending_client_thread := m_pending_client_thread c; m_pending_server_thread := m_pending_server_thread c;
                 m_saved_server_state := m_saved_server_state c; m_saved_server_context := m_saved_server_context c;
                 m_saved_server_registers := m_saved_server_registers c;
                 m_saved_server_simd_qwords := m_saved_server_simd_qwords c |} |}.
  reflexivity.
Defined.

(** ** The runtime and the rest of the kernel's world *)

Record user_runtime := {
  m_processes : kernel_object_pool process;
  m_threads : kernel_object_pool thread;
  m_device_memory_objects : kernel_object_pool device_memory_object;
  m_endpoints : list rpc_endpoint;               (* m_rpc_runtime.m_endpoints *)
  m_channels : kernel_object_pool rpc_channel;   (* m_rpc_runtime.m_channels *)
  m_shared_memory_objects : kernel_object_pool shared_memory_object;
  m_current_thread : option nat;
  m_next_handle_value : Z;
}.

(** What the kernel asks of the architecture layer and of the debugger, in order. *)
Inductive kernel_event :=
  | arch_activate_process_address_space (active_process : option nat)
  | arch_prepare_user_thread (current_thread : option nat)
  | debug_log (message : list Z)
  | prepare_thread_launch (initial_process initial_thread : nat).

Record kernel := {
  runtime : user_runtime;
  host : host_memory;
  events : list kernel_event;
}.

Abbreviation K := (M kernel).
