(* ===== verification/UserRuntime.v ===== *)
(** [kernel/user_runtime.cpp], the part below the system calls: the pools and
    the pointers into them, creation and lookup of objects, user memory, and
    the scheduler. *)
From S2P Require Import Prelude AddressSpace UserMemory KernelObjectPool RuntimeTypes.

(** ** The state of the runtime *)

Section fields.
Implicit Types r : user_runtime.

Definition with_processes r (p : kernel_object_pool process) : user_runtime :=
  {| m_processes := p; m_threads := m_threads r; m_device_memory_objects := m_device_memory_objects r;
     m_endpoints := m_endpoints r; m_channels := m_channels r; m_shared_memory_objects := m_shared_memory_objects r;
     m_current_thread := m_current_thread r; m_next_handle_value := m_next_handle_value r |}.

Definition with_threads r (p : kernel_object_pool thread) : user_runtime :=
  {| m_processes := m_processes r; m_threads := p; m_device_memory_objects := m_device_memory_objects r;
     m_endpoints := m_endpoints r; m_channels := m_channels r; m_shared_memory_objects := m_shared_memory_objects r;
     m_current_thread := m_current_thread r; m_next_handle_value := m_next_handle_value r |}.

Definition with_device_memory_objects r (p : kernel_object_pool device_memory_object) : user_runtime :=
  {| m_processes := m_processes r; m_threads := m_threads r; m_device_memory_objects := p;
     m_endpoints := m_endpoints r; m_channels := m_channels r; m_shared_memory_objects := m_shared_memory_objects r;
     m_current_thread := m_current_thread r; m_next_handle_value := m_next_handle_value r |}.

Definition with_endpoints r (e : list rpc_endpoint) : user_runtime :=
  {| m_processes := m_processes r; m_threads := m_threads r; m_device_memory_objects := m_device_memory_objects r;
     m_endpoints := e; m_channels := m_channels r; m_shared_memory_objects := m_shared_memory_objects r;
     m_current_thread := m_current_thread r; m_next_handle_value := m_next_handle_value r |}.

Definition with_channels r (p : kernel_object_pool rpc_channel) : user_runtime :=
  {| m_processes := m_processes r; m_threads := m_threads r; m_device_memory_objects := m_device_memory_objects r;
     m_endpoints := m_endpoints r; m_channels := p; m_shared_memory_objects := m_shared_memory_objects r;
     m_current_thread := m_current_thread r; m_next_handle_value := m_next_handle_value r |}.

Definition with_shared_memory_objects r (p : kernel_object_pool shared_memory_object) : user_runtime :=
  {| m_processes := m_processes r; m_threads := m_threads r; m_device_memory_objects := m_device_memory_objects r;
     m_endpoints := m_endpoints r; m_channels := m_channels r; m_shared_memory_objects := p;
     m_current_thread := m_current_thread r; m_next_handle_value := m_next_handle_value r |}.

Definition with_current_thread r (t : option nat) : user_runtime :=
  {| m_processes := m_processes r; m_threads := m_threads r; m_device_memory_objects := m_device_memory_objects r;
     m_endpoints := m_endpoints r; m_channels := m_channels r; m_shared_memory_objects := m_shared_memory_objects r;
     m_current_thread := t; m_next_handle_value := m_next_handle_value r |}.

Definition with_next_handle_value r (n : Z) : user_runtime :=
  {| m_processes := m_processes r; m_threads := m_threads r; m_device_memory_objects := m_device_memory_objects r;
     m_endpoints := m_endpoints r; m_channels := m_channels r; m_shared_memory_objects := m_shared_memory_objects r;
     m_current_thread := m_current_thread r; m_next_handle_value := n |}.
End fields.

Definition with_runtime (k : kernel) (r : user_runtime) : kernel :=
  {| runtime := r; host := host k; events := events k |}.

Definition set_runtime (f : user_runtime -> user_runtime) : K unit := modify (fun k => with_runtime k (f (runtime k))).

Definition set_host (m : host_memory) : K unit :=
  modify (fun k => {| runtime := runtime k; host := m; events := events k |}).

Definition emit (e : kernel_event) : K unit :=
  modify (fun k => {| runtime := runtime k; host := host k; events := events k ++ [e] |}).

(** A copy loop that does not use its fuel up returns. *)
Definition lift {A} (o : option A) : K A := match o with Some a => mret a | None => out_of_fuel end.

(** ** Pools in the runtime, and pointers into them *)

Class RuntimePool (A : Type) `{KernelObject A} := {
  pool : user_runtime -> kernel_object_pool A;
  with_pool : user_runtime -> kernel_object_pool A -> user_runtime;
  pool_with_pool : forall r p, pool (with_pool r p) = p;
  next_with_pool : forall r p, m_next_handle_value (with_pool r p) = m_next_handle_value r;
}.

#[export] Instance process_pool : RuntimePool process.
Proof. refine {| pool := m_processes; with_pool := with_processes |}; reflexivity. Defined.
#[export] Instance thread_pool : RuntimePool thread.
Proof. refine {| pool := m_threads; with_pool := with_threads |}; reflexivity. Defined.
#[export] Instance device_memory_object_pool : RuntimePool device_memory_object.
Proof. refine {| pool := m_device_memory_objects; with_pool := with_device_memory_objects |}; reflexivity. Defined.
#[export] Instance rpc_channel_pool : RuntimePool rpc_channel.
Proof. refine {| pool := m_channels; with_pool := with_channels |}; reflexivity. Defined.
#[export] Instance shared_memory_object_pool : RuntimePool shared_memory_object.
Proof. refine {| pool := m_shared_memory_objects; with_pool := with_shared_memory_objects |}; reflexivity. Defined.

(** A pointer is dereferenced: it must not be null. *)
Definition not_null (p : option nat) : K nat := match p with Some i => mret i | None => undefined null_dereference end.

Section pool_access.
Context {A : Type} `{RuntimePool A}.

(** Reading and writing the object at a slot, which must hold one. *)
Definition read_at (i : nat) : K A :=
  k ← get; match get_by_index (pool (runtime k)) i with Some x => mret x | None => undefined dangling_pointer end.

Definition write_at (i : nat) (x : A) : K unit := set_runtime (fun r => with_pool r (update_at (pool r) i x)).

Definition update (i : nat) (f : A -> A) : K unit := x ← read_at i; write_at i (f x).

(** [emplace] on one of the runtime's pools: they share [m_next_handle_value]. *)
Definition emplace_in (construct : Z -> Z -> A) : K (option nat) :=
  k ← get;
  let r := runtime k in
  let '(i, p, next) := emplace (pool r) (m_next_handle_value r) construct in
  set_runtime (fun r => with_next_handle_value (with_pool r p) next);;
  mret i.

Definition find_in (handle : Z) : K (option nat) := gets (fun k => find_by_handle (pool (runtime k)) handle).

Definition erase_in (handle : Z) : K bool :=
  k ← get;
  let '(ok, p) := erase_by_handle (pool (runtime k)) handle in
  set_runtime (fun r => with_pool r p);;
  mret ok.

(** [object.acquire_process_reference()]. *)
Definition grant_process_access (i : nat) : K unit :=
  update i (fun x => with_object x (acquire_process_reference (object_of x))).

(** The body the four [create_...] members share. *)
Definition create_in (construct : Z -> Z -> A) : K (option nat) :=
  current ← emplace_in construct;
  match current with
  | None => mret None
  | Some i => grant_process_access i;; mret (Some i)
  end.
End pool_access.

(** ** Creation *)

Definition create_process (metadata : process_metadata) (a : address_space) : K (option nat) :=
  create_in (make_process metadata a).

(** The functions below return the object and [*out_handle]; [has_out = false]
    is a null [out_handle]. *)
Definition with_handle {A} `{RuntimePool A} (has_out : bool) (create : K (option nat)) : K (option (nat * Z)) :=
  if negb has_out then mret None
  else
    current ← create;
    match current with
    | None => mret None
    | Some i => x ← read_at i; mret (Some (i, get_handle (x : A)))
    end.

Definition create_thread (process_context : nat) (initial_context : thread_context) (has_out : bool)
    : K (option (nat * Z)) :=
  with_handle (A := thread) has_out (create_in (make_thread process_context initial_context)).

Definition create_device_memory_object (type : device_memory_type) (user host size : Z) (has_out : bool)
    : K (option (nat * Z)) :=
  with_handle (A := device_memory_object) has_out (create_in (make_device_memory_object type user host size)).

Definition create_shared_memory_object (user size : Z) (has_out : bool) : K (option (nat * Z)) :=
  with_handle (A := shared_memory_object) has_out (create_in (make_shared_memory_object user size)).

(** ** Lookup *)

Definition find_process_by_handle : Z -> K (option nat) := find_in (A := process).
Definition find_thread_by_handle : Z -> K (option nat) := find_in (A := thread).
Definition find_device_memory_object_by_handle : Z -> K (option nat) := find_in (A := device_memory_object).
Definition find_shared_memory_object_by_handle : Z -> K (option nat) := find_in (A := shared_memory_object).

(** A [kernel_object*], with the pool it points into. *)
Inductive kernel_object_pointer :=
  | process_object_at (i : nat)
  | thread_object_at (i : nat)
  | device_memory_object_at (i : nat)
  | shared_memory_object_at (i : nat).

Definition find_object_by_handle (handle : Z) : K (option kernel_object_pointer) :=
  process_object ← find_process_by_handle handle;
  match process_object with
  | Some i => mret (Some (process_object_at i))
  | None =>
      thread_object ← find_thread_by_handle handle;
      match thread_object with
      | Some i => mret (Some (thread_object_at i))
      | None =>
          device_memory ← find_device_memory_object_by_handle handle;
          match device_memory with
          | Some i => mret (Some (device_memory_object_at i))
          | None =>
              shared ← find_shared_memory_object_by_handle handle;
              mret (shared_memory_object_at <$> shared)
          end
      end
  end.

(** ** User memory *)

Definition validate_user_range (owner_process : nat) (user_address len : Z) : K bool :=
  p ← read_at owner_process;
  lift (validate_address_space_range (m_address_space p) user_address len).

Definition write_user_bytes_to (owner_process : nat) (user_address : Z) (buffer : list Z) : K Z :=
  p ← read_at owner_process;
  k ← get;
  r ← lift (write_user_bytes (m_address_space p) (host k) user_address (Some buffer));
  set_host (snd r);;
  mret (fst r).

Definition copy_between (source_process : nat) (source_user_address : Z) (destination_process : nat)
    (destination_user_address size : Z) : K Z :=
  s ← read_at source_process;
  d ← read_at destination_process;
  k ← get;
  r ← lift (copy_between_user_processes (m_address_space s) (m_address_space d) (host k)
              source_user_address destination_user_address size);
  set_host (snd r);;
  mret (fst r).

(** [char buffer[n]; memset(buffer, 0, n); copy_user_string(thread, address, buffer, n)]:
    the status and the buffer. *)
Definition copy_user_string_to_buffer (owner_thread : nat) (user_address : Z) (n : nat) : K (Z * list Z) :=
  t ← read_at owner_thread;
  owner ← (match m_process t with
           | None => mret None
           | Some p => x ← read_at p; mret (Some (m_address_space x))
           end : K (option address_space));
  k ← get;
  r ← lift (copy_user_string owner (host k) user_address true (Z.of_nat n));
  mret (fst r, snd r ++ replicate (n - length (snd r)) 0).

(** ** The scheduler *)

Definition get_current_thread : K (option nat) := gets (fun k => m_current_thread (runtime k)).

Definition is_ready (t : thread) : bool := bool_decide (m_state t = USER_THREAD_STATE_READY).

(** The candidates of [get_by_index(index)] for the [n] indices from [index]. *)
Fixpoint find_ready_between (p : kernel_object_pool thread) (index n : nat) : option nat :=
  match n with
  | O => None
  | S n =>
      match get_by_index p index with
      | Some candidate => if is_ready candidate then Some index else find_ready_between p (S index) n
      | None => find_ready_between p (S index) n
      end
  end.

(** The first loop: the slot after the one [after_thread] points to. *)
Definition start_index (p : kernel_object_pool thread) (after_thread : option nat) : nat :=
  match after_thread with
  | None => 0
  | Some a => if bool_decide (a < USER_RUNTIME_MAX_THREADS)%nat && (if get_by_index p a is Some _ then true else false) then S a else 0
  end.

Definition next_ready (p : kernel_object_pool thread) (after_thread : option nat) : option nat :=
  let start := start_index p after_thread in
  match find_ready_between p start (USER_RUNTIME_MAX_THREADS - start) with
  | Some i => Some i
  | None => find_ready_between p 0 start
  end.

Definition find_next_ready_thread (after_thread : option nat) : K (option nat) :=
  gets (fun k => next_ready (m_threads (runtime k)) after_thread).

Definition get_state (i : nat) : K user_thread_state := t ← read_at i; mret (m_state t).

Definition set_state (i : nat) (s : user_thread_state) : K unit := update i (fun t => with_state t s).

Definition set_current_thread (current_thread : option nat) : K unit :=
  previous ← get_current_thread;
  (match previous with
   | Some c =>
       if bool_decide (previous <> current_thread) then
         s ← get_state c;
         if bool_decide (s = USER_THREAD_STATE_RUNNING) then set_state c USER_THREAD_STATE_READY else mret tt
       else mret tt
   | None => mret tt
   end : K unit);;
  set_runtime (fun r => with_current_thread r current_thread);;
  active_process ← (match current_thread with
                    | Some c => t ← read_at c; mret (m_process t)
                    | None => mret None
                    end : K (option nat));
  emit (arch_activate_process_address_space active_process);;
  emit (arch_prepare_user_thread current_thread);;
  match current_thread with
  | Some c =>
      s ← get_state c;
      if bool_decide (s = USER_THREAD_STATE_READY) then set_state c USER_THREAD_STATE_RUNNING else mret tt
  | None => mret tt
  end.

Definition schedule_next_ready_thread : K bool :=
  current ← get_current_thread;
  next_thread ← find_next_ready_thread current;
  match next_thread with
  | None => set_runtime (fun r => with_current_thread r None);; mret false
  | Some _ => set_current_thread next_thread;; mret true
  end.

Definition has_runnable_thread : K bool :=
  current ← get_current_thread;
  match current with
  | None => mret false
  | Some c =>
      s ← get_state c;
      if bool_decide (s <> USER_THREAD_STATE_BLOCKED) then
        s ← get_state c; mret (bool_decide (s <> USER_THREAD_STATE_EXITED))
      else mret false
  end.
