(* ===== verification/Rpc.v ===== *)
(** [kernel/rpc.cpp]: endpoints, channels, and the system calls on them. *)
From S2P Require Import Prelude AddressSpace UserMemory KernelObjectPool RuntimeTypes UserRuntime.

Definition SYSCALL_RPC_REGISTER : Z := 3.
Definition SYSCALL_RPC_OPEN : Z := 4.
Definition SYSCALL_RPC_CALL : Z := 5.
Definition SYSCALL_RPC_CLOSE : Z := 7.
Definition SYSCALL_RPC_COMPLETE : Z := 8.

(** ** Strings *)

(** The loop of [strings_equal] from some index on; [None] is a read past the
    end of an array. *)
Fixpoint strings_equal (left right : list Z) : option bool :=
  match left, right with
  | x :: left', y :: right' =>
      if negb (x =? y) then Some false
      else if x =? 0 then Some true
      else strings_equal left' right'
  | _, _ => None
  end.

(** The loop of [copy_string], [index] bytes already in [destination]; then the
    terminating byte.  [None] is an access past the end of an array. *)
Fixpoint copy_string_from (destination source : list Z) (capacity index : nat) : option (list Z) :=
  match source with
  | [] => None
  | c :: source' =>
      if bool_decide (length destination <= index)%nat then None
      else if negb (c =? 0) && bool_decide (index + 1 < capacity)%nat
      then copy_string_from (<[index := c]> destination) source' capacity (S index)
      else Some (<[index := 0]> destination)
  end.

Definition copy_string (destination : list Z) (capacity : nat) (source : list Z) : option (list Z) :=
  if (capacity =? 0)%nat then Some destination else copy_string_from destination source capacity 0.

Definition align_down (value alignment : Z) : Z :=
  if alignment =? 0 then value else Z.land value (not64 (u64 (alignment - 1))).

Definition in_bounds {A} (o : option A) : K A := match o with Some a => mret a | None => undefined out_of_bounds end.

(** ** Endpoints *)

Definition clear_endpoint : rpc_endpoint :=
  {| m_is_in_use := false; m_is_busy := false; m_name := replicate NAME_CAPACITY 0;
     m_owner_process := None; m_owner_thread := None; m_callback_address := 0; m_completion_address := 0 |}.

Definition set_busy (b : bool) (e : rpc_endpoint) : rpc_endpoint :=
  {| m_is_in_use := m_is_in_use e; m_is_busy := b; m_name := m_name e; m_owner_process := m_owner_process e;
     m_owner_thread := m_owner_thread e; m_callback_address := m_callback_address e;
     m_completion_address := m_completion_address e |}.

(** [clear] has zeroed [m_name] before [copy_string] writes it. *)
Definition initialize_endpoint (owner_process owner_thread : nat) (name : list Z) (callback completion : Z)
    : option rpc_endpoint :=
  n ← copy_string (m_name clear_endpoint) NAME_CAPACITY name;
  Some {| m_is_in_use := true; m_is_busy := false; m_name := n; m_owner_process := Some owner_process;
          m_owner_thread := Some owner_thread; m_callback_address := callback; m_completion_address := completion |}.

Definition matches_name (e : rpc_endpoint) (name : list Z) : option bool :=
  if m_is_in_use e then strings_equal (m_name e) name else Some false.

Definition read_endpoint (e : nat) : K rpc_endpoint :=
  k ← get; match m_endpoints (runtime k) !! e with Some x => mret x | None => undefined out_of_bounds end.

Definition write_endpoint (e : nat) (x : rpc_endpoint) : K unit :=
  set_runtime (fun r => with_endpoints r (<[e := x]> (m_endpoints r))).

Definition update_endpoint (e : nat) (f : rpc_endpoint -> rpc_endpoint) : K unit :=
  x ← read_endpoint e; write_endpoint e (f x).

(** The loops over [m_endpoints] from [index] on. *)
Fixpoint find_name_loop (l : list rpc_endpoint) (index : nat) (name : list Z) : option (option nat) :=
  match l with
  | [] => Some None
  | e :: l =>
      b ← matches_name e name;
      if (b : bool) then Some (Some index) else find_name_loop l (S index) name
  end.

Definition find_endpoint_by_name (name : list Z) : K (option nat) :=
  k ← get; in_bounds (find_name_loop (m_endpoints (runtime k)) 0 name).

Definition find_free_endpoint : K (option nat) :=
  gets (fun k => fst <$> list_find (fun e => m_is_in_use e = false) (m_endpoints (runtime k))).

Definition clear_endpoints_owned_by (owner_thread : nat) : K unit :=
  set_runtime (fun r => with_endpoints r
    ((fun e => if bool_decide (m_owner_thread e = Some owner_thread) then clear_endpoint else e) <$> m_endpoints r)).

(** ** Channels *)

Definition channel_is_busy (c : rpc_channel) : bool :=
  bool_decide (m_pending_client_thread c <> None) || bool_decide (m_pending_server_thread c <> None).

Definition is_owned_by (c : rpc_channel) (process_context : nat) : bool :=
  bool_decide (m_client_process c = Some process_context).

Definition pending_channel (c : rpc_channel) (client_thread server_thread : nat) (server : thread) : rpc_channel :=
  {| channel_object := channel_object c; m_client_process := m_client_process c; m_endpoint := m_endpoint c;
     m_pending_client_thread := Some client_thread; m_pending_server_thread := Some server_thread;
     m_saved_server_state := m_state server; m_saved_server_context := m_user_context server;
     m_saved_server_registers := m_arch_preserved_registers server;
     m_saved_server_simd_qwords := m_arch_preserved_simd_qwords server |}.

Definition idle_channel (c : rpc_channel) : rpc_channel :=
  {| channel_object := channel_object c; m_client_process := m_client_process c; m_endpoint := m_endpoint c;
     m_pending_client_thread := None; m_pending_server_thread := None;
     m_saved_server_state := USER_THREAD_STATE_EMPTY; m_saved_server_context := zero_context;
     m_saved_server_registers := replicate USER_THREAD_ARCH_PRESERVED_REGISTER_COUNT 0;
     m_saved_server_simd_qwords := replicate USER_THREAD_ARCH_PRESERVED_SIMD_QWORD_COUNT 0 |}.

(** [if (m_endpoint != nullptr) m_endpoint->set_busy(busy)]. *)
Definition set_endpoint_busy (c : rpc_channel) (busy : bool) : K unit :=
  match m_endpoint c with Some e => update_endpoint e (set_busy busy) | None => mret tt end.

Definition begin_call (channel client_thread server_thread : nat) : K unit :=
  server ← read_at server_thread;
  update channel (fun c => pending_channel c client_thread server_thread server);;
  c ← read_at channel;
  set_endpoint_busy c true.

Definition cancel_call (channel : nat) : K unit :=
  c ← read_at channel;
  set_endpoint_busy c false;;
  update channel idle_channel.

Definition restore_server (c : rpc_channel) (server : thread) : thread :=
  let server := with_state (set_user_context server (m_saved_server_context c)) (m_saved_server_state c) in
  with_preserved server (m_saved_server_registers c) (m_saved_server_simd_qwords c).

Definition finish_call (channel : nat) : K unit :=
  c ← read_at channel;
  (match m_pending_server_thread c with
   | Some s => update s (restore_server c)
   | None => mret tt
   end : K unit);;
  cancel_call channel.

Definition find_channel_by_handle : Z -> K (option nat) := find_in (A := rpc_channel).

Definition has_pending_server (server_thread : option nat) (c : option rpc_channel) : Prop :=
  match c with Some c => m_pending_server_thread c = server_thread | None => False end.

#[export] Instance has_pending_server_dec server_thread c : Decision (has_pending_server server_thread c).
Proof. unfold has_pending_server. destruct c; apply _. Defined.

Definition pending_channel_of (p : kernel_object_pool rpc_channel) (server_thread : option nat) : option nat :=
  if bool_decide (server_thread = None) then None
  else fst <$> list_find (has_pending_server server_thread) (m_items p).

Definition find_pending_channel_by_server_thread (server_thread : option nat) : K (option nat) :=
  gets (fun k => pending_channel_of (m_channels (runtime k)) server_thread).

(** [client_thread->set_state(READY); client_thread->prepare_syscall_resume(status)]. *)
Definition wake_client `{Target} (client_thread : nat) (status : Z) : K unit :=
  set_state client_thread USER_THREAD_STATE_READY;;
  update client_thread (fun t => prepare_syscall_resume t status).

Definition complete_call `{Target} (server_thread : nat) (callback_status : Z) : K Z :=
  channel ← find_pending_channel_by_server_thread (Some server_thread);
  match channel with
  | None => mret STATUS_BAD_STATE
  | Some channel =>
      c ← read_at channel;
      let client_thread := m_pending_client_thread c in
      let is_same_thread_call := bool_decide (client_thread = Some server_thread) in
      finish_call channel;;
      if is_same_thread_call then mret callback_status
      else
        match client_thread with
        | None => mret STATUS_BAD_STATE
        | Some client => wake_client client callback_status;; set_current_thread (Some client);; mret STATUS_OK
        end
  end.

Definition fail_pending_call `{Target} (server_thread : nat) (failure_status : Z) : K Z :=
  channel ← find_pending_channel_by_server_thread (Some server_thread);
  match channel with
  | None => mret STATUS_OK
  | Some channel =>
      c ← read_at channel;
      let client_thread := m_pending_client_thread c in
      let is_same_thread_call := bool_decide (client_thread = Some server_thread) in
      cancel_call channel;;
      (match client_thread with
       | Some client => if negb is_same_thread_call then wake_client client failure_status else mret tt
       | None => mret tt
       end : K unit);;
      mret failure_status
  end.

Definition handle_thread_exit `{Target} (active_thread : nat) (failure_status : Z) : K unit :=
  fail_pending_call active_thread failure_status;;
  clear_endpoints_owned_by active_thread.

(** ** The system calls *)

(** The request is copied below the server's stack pointer; on x86-64 the
    address of the completion stub is pushed below it as a return address. *)
Definition prepare_server_thread `{Target} (endpoint : rpc_endpoint) (server_thread client_process : nat)
    (client_request_address request_size : Z) : K Z :=
  match m_owner_process endpoint with
  | None => mret STATUS_BAD_STATE
  | Some server_process =>
      if (client_request_address =? 0) || (request_size =? 0) || (RINGOS_RPC_MAX_REQUEST_SIZE <? request_size)
      then mret STATUS_INVALID_ARGUMENT
      else
        let callback_address := m_callback_address endpoint in
        let completion_address := m_completion_address endpoint in
        if (callback_address =? 0) || (completion_address =? 0) then mret STATUS_FAULT
        else
          callback_ok ← validate_user_range server_process callback_address 1;
          if negb callback_ok then mret STATUS_FAULT
          else
            completion_ok ← validate_user_range server_process completion_address 1;
            if negb completion_ok then mret STATUS_FAULT
            else
              server ← read_at server_thread;
              let saved_stack_pointer := context_stack_pointer (m_user_context server) in
              if saved_stack_pointer =? 0 then mret STATUS_BAD_STATE
              else
                match target with
                | x86_64 =>
                    if saved_stack_pointer <=? u64 (request_size + 8) then mret STATUS_FAULT
                    else
                      let request_address := align_down (u64 (saved_stack_pointer - request_size)) 16 in
                      if request_address <=? 8 then mret STATUS_FAULT
                      else
                        let return_address := u64 (request_address - 8) in
                        request_status ← copy_between client_process client_request_address server_process
                                           request_address request_size;
                        if negb (request_status =? STATUS_OK) then mret request_status
                        else
                          return_status ← write_user_bytes_to server_process return_address
                                            (le_encode 8 completion_address);
                          if negb (return_status =? STATUS_OK) then mret return_status
                          else
                            update server_thread (fun t => prepare_rpc_resume t callback_address completion_address
                                                             request_address request_size return_address);;
                            mret STATUS_OK
                | aarch64 =>
                    if saved_stack_pointer <=? request_size then mret STATUS_FAULT
                    else
                      let request_address := align_down (u64 (saved_stack_pointer - request_size)) 16 in
                      request_status ← copy_between client_process client_request_address server_process
                                         request_address request_size;
                      if negb (request_status =? STATUS_OK) then mret request_status
                      else
                        update server_thread (fun t => prepare_rpc_resume t callback_address completion_address
                                                         request_address request_size request_address);;
                        mret STATUS_OK
                end
  end.

Definition rpc_register `{Target} (active_thread owner_process : nat) (c : user_syscall_context) : K Z :=
  if (argument0 c =? 0) || (argument1 c =? 0) || (argument2 c =? 0) then mret STATUS_INVALID_ARGUMENT
  else
    callback_ok ← validate_user_range owner_process (argument1 c) 1;
    if negb callback_ok then mret STATUS_FAULT
    else
      completion_ok ← validate_user_range owner_process (argument2 c) 1;
      if negb completion_ok then mret STATUS_FAULT
      else
        name ← copy_user_string_to_buffer active_thread (argument0 c) NAME_CAPACITY;
        let '(name_status, endpoint_name) := name in
        if negb (name_status =? STATUS_OK) then mret name_status
        else
          existing ← find_endpoint_by_name endpoint_name;
          match existing with
          | Some _ => mret STATUS_BAD_STATE
          | None =>
              free ← find_free_endpoint;
              match free with
              | None => mret STATUS_NO_MEMORY
              | Some e =>
                  x ← in_bounds (initialize_endpoint owner_process active_thread endpoint_name (argument1 c) (argument2 c));
                  write_endpoint e x;;
                  next_thread ← find_next_ready_thread (Some active_thread);
                  match next_thread with
                  | None => mret STATUS_OK
                  | Some next =>
                      pending ← find_pending_channel_by_server_thread (Some active_thread);
                      match pending with
                      | Some _ => mret STATUS_OK
                      | None =>
                          update active_thread (fun t => prepare_syscall_resume t STATUS_OK);;
                          set_current_thread (Some next);;
                          mret STATUS_OK
                      end
                  end
              end
          end.

Definition rpc_open (active_thread owner_process : nat) (c : user_syscall_context) : K Z :=
  if (argument0 c =? 0) || (argument1 c =? 0) then mret STATUS_INVALID_ARGUMENT
  else
    name ← copy_user_string_to_buffer active_thread (argument0 c) NAME_CAPACITY;
    let '(name_status, endpoint_name) := name in
    if negb (name_status =? STATUS_OK) then mret name_status
    else
      endpoint ← find_endpoint_by_name endpoint_name;
      match endpoint with
      | None => mret STATUS_NOT_FOUND
      | Some e =>
          x ← read_endpoint e;
          match m_owner_thread x with
          | None => mret STATUS_PEER_CLOSED
          | Some server_thread =>
              s ← get_state server_thread;
              if bool_decide (s = USER_THREAD_STATE_EXITED) then mret STATUS_PEER_CLOSED
              else
                channel ← emplace_in (make_rpc_channel owner_process e);
                match channel with
                | None => mret STATUS_NO_MEMORY
                | Some i =>
                    grant_process_access (A := rpc_channel) i;;
                    channel ← read_at i;
                    let channel_handle := get_handle (channel : rpc_channel) in
                    write_status ← write_user_bytes_to owner_process (argument1 c) (le_encode 8 channel_handle);
                    if negb (write_status =? STATUS_OK) then
                      erase_in (A := rpc_channel) channel_handle;;
                      mret write_status
                    else mret STATUS_OK
                end
          end
      end.

(** [find_object_by_handle(handle) == nullptr ? STATUS_BAD_HANDLE : STATUS_WRONG_TYPE]. *)
Definition not_a_channel (handle : Z) : K Z :=
  object ← find_object_by_handle handle;
  mret (if object is Some _ then STATUS_WRONG_TYPE else STATUS_BAD_HANDLE).

Definition rpc_call `{Target} (active_thread owner_process : nat) (c : user_syscall_context) : K Z :=
  if (argument0 c =? 0) || (argument1 c =? 0) || (argument2 c =? 0) then mret STATUS_INVALID_ARGUMENT
  else
    let request_size := argument2 c in
    if RINGOS_RPC_MAX_REQUEST_SIZE <? request_size then mret STATUS_INVALID_ARGUMENT
    else
      let channel_handle := argument0 c in
      channel ← find_channel_by_handle channel_handle;
      match channel with
      | None => not_a_channel channel_handle
      | Some i =>
          channel ← read_at i;
          if negb (is_owned_by channel owner_process) then mret STATUS_BAD_HANDLE
          else
            match m_endpoint channel with
            | None => mret STATUS_PEER_CLOSED
            | Some e =>
                endpoint ← read_endpoint e;
                match m_owner_thread endpoint with
                | None => mret STATUS_PEER_CLOSED
                | Some server_thread =>
                    s ← get_state server_thread;
                    if bool_decide (s = USER_THREAD_STATE_EXITED) then mret STATUS_PEER_CLOSED
                    else if negb (m_is_in_use endpoint) || m_is_busy endpoint || channel_is_busy channel
                    then mret STATUS_WOULD_BLOCK
                    else
                      prepare_status ← prepare_server_thread endpoint server_thread owner_process
                                         (argument1 c) request_size;
                      if negb (prepare_status =? STATUS_OK) then mret prepare_status
                      else
                        begin_call i active_thread server_thread;;
                        (if bool_decide (server_thread <> active_thread) then
                           set_state active_thread USER_THREAD_STATE_BLOCKED;;
                           set_current_thread (Some server_thread)
                         else mret tt);;
                        mret STATUS_OK
                end
            end
      end.

Definition rpc_close (owner_process : nat) (c : user_syscall_context) : K Z :=
  if argument0 c =? 0 then mret STATUS_INVALID_ARGUMENT
  else
    let channel_handle := argument0 c in
    channel ← find_channel_by_handle channel_handle;
    match channel with
    | None => not_a_channel channel_handle
    | Some i =>
        channel ← read_at i;
        if negb (is_owned_by channel owner_process) then mret STATUS_BAD_HANDLE
        else if channel_is_busy channel then mret STATUS_BAD_STATE
        else
          erased ← erase_in (A := rpc_channel) channel_handle;
          mret (if (erased : bool) then STATUS_OK else STATUS_BAD_STATE)
    end.

Definition rpc_dispatch_syscall `{Target} (active_thread : nat) (c : user_syscall_context) : K Z :=
  t ← read_at active_thread;
  match m_process t with
  | None => mret STATUS_BAD_STATE
  | Some owner_process =>
      if syscall_number c =? SYSCALL_RPC_REGISTER then rpc_register active_thread owner_process c
      else if syscall_number c =? SYSCALL_RPC_OPEN then rpc_open active_thread owner_process c
      else if syscall_number c =? SYSCALL_RPC_CALL then rpc_call active_thread owner_process c
      else if syscall_number c =? SYSCALL_RPC_CLOSE then rpc_close owner_process c
      else if syscall_number c =? SYSCALL_RPC_COMPLETE then complete_call active_thread (s32 (argument0 c))
      else mret STATUS_NOT_SUPPORTED
  end.

(** [rpc_runtime::reset]. *)
Definition rpc_reset (r : user_runtime) : user_runtime :=
  let r := with_channels r (reset (m_channels r)) in
  with_endpoints r (replicate USER_RUNTIME_MAX_RPC_ENDPOINTS clear_endpoint).
