(* ===== verification/Syscalls.v ===== *)
(** The top of [kernel/user_runtime.cpp]: termination, the system call
    dispatcher and the start of the runtime; and [arch/x64/user_runtime.cpp],
    the system call entry on x86-64. *)
From Stdlib Require Import String.
From S2P Require Import Prelude AddressSpace UserMemory KernelObjectPool RuntimeTypes UserRuntime Rpc.
#[local] Open Scope Z_scope.

Definition SYSCALL_DEBUG_LOG : Z := 1.
Definition SYSCALL_THREAD_EXIT : Z := 2.
Definition SYSCALL_DEVICE_MEMORY_MAP : Z := 6.

(** [user_runtime::reset]. *)
Definition reset_runtime (r : user_runtime) : user_runtime :=
  let r := with_current_thread r None in
  let r := with_next_handle_value r 1 in
  let r := with_processes r (reset (m_processes r)) in
  let r := with_threads r (reset (m_threads r)) in
  let r := with_device_memory_objects r (reset (m_device_memory_objects r)) in
  let r := rpc_reset r in
  with_shared_memory_objects r (reset (m_shared_memory_objects r)).

Definition terminate_current_thread `{Target} (exit_status peer_failure_status : Z) : K bool :=
  active_thread ← get_current_thread;
  match active_thread with
  | None => mret false
  | Some active =>
      handle_thread_exit active peer_failure_status;;
      set_state active USER_THREAD_STATE_EXITED;;
      update active (fun t => with_exit t exit_status);;
      schedule_next_ready_thread
  end.

(** [char message_buffer[96]]. *)
Definition message_buffer_size : nat := 96.

Definition dispatch_syscall `{Target} (c : user_syscall_context) : K Z :=
  active_thread ← get_current_thread;
  match active_thread with
  | None => mret STATUS_BAD_STATE
  | Some active =>
      t ← read_at active;
      match m_process t with
      | None => mret STATUS_BAD_STATE
      | Some owner_process =>
          update active (fun t => set_user_context t (make_thread_context_from_syscall c));;
          if syscall_number c =? SYSCALL_DEBUG_LOG then
            if argument0 c =? 0 then mret STATUS_INVALID_ARGUMENT
            else
              message ← copy_user_string_to_buffer active (argument0 c) message_buffer_size;
              let '(copy_status, message_buffer) := message in
              if negb (copy_status =? STATUS_OK) then mret copy_status
              else emit (debug_log message_buffer);; mret STATUS_OK
          else if syscall_number c =? SYSCALL_THREAD_EXIT then
            terminate_current_thread (argument0 c) STATUS_PEER_CLOSED;; mret STATUS_OK
          else if bool_decide (syscall_number c ∈ [SYSCALL_RPC_REGISTER; SYSCALL_RPC_OPEN; SYSCALL_RPC_CALL;
                                                  SYSCALL_RPC_CLOSE; SYSCALL_RPC_COMPLETE]) then
            rpc_dispatch_syscall active c
          else if syscall_number c =? SYSCALL_DEVICE_MEMORY_MAP then
            if (argument0 c =? 0) || (argument1 c =? 0) then mret STATUS_INVALID_ARGUMENT else mret STATUS_NOT_FOUND
          else mret STATUS_NOT_SUPPORTED
      end
  end.

(** ** Start *)

(** [panic] logs its message and never returns. *)
Inductive may_panic (A : Type) :=
  | panics (message : string)
  | continues (a : A).
Arguments panics {A} message.
Arguments continues {A} a.

(** The body of the [for] loop for one initial process. *)
Definition create_initial (p : initial_process_configuration) : K (may_panic (nat * nat)) :=
  process_context ← create_process (initial_metadata p) (initial_address_space p);
  match process_context with
  | None => mret (panics "failed to create initial process")
  | Some i =>
      t ← create_thread i (initial_thread_context p) true;
      match t with
      | Some (j, thread_handle) =>
          if thread_handle =? 0 then mret (panics "failed to create initial thread") else mret (continues (i, j))
      | None => mret (panics "failed to create initial thread")
      end
  end.

Fixpoint create_initials (l : list initial_process_configuration) : K (may_panic (list (nat * nat))) :=
  match l with
  | [] => mret (continues [])
  | p :: l =>
      x ← create_initial p;
      match x with
      | panics m => mret (panics m)
      | continues x =>
          xs ← create_initials l;
          mret (match xs with continues xs => continues (x :: xs) | panics m => panics m end)
      end
  end.

(** What [run_initial_user_runtime] does with the bootstrap record. *)
Definition run_bootstrap (bootstrap : initial_user_runtime_bootstrap) : K (may_panic (nat * nat)) :=
  if (process_count bootstrap =? 0) || (USER_RUNTIME_MAX_INITIAL_PROCESSES <? process_count bootstrap)
  then mret (panics "invalid initial process count")
  else if process_count bootstrap <=? initial_process_index bootstrap
  then mret (panics "invalid initial process index")
  else
    created ← create_initials (take (Z.to_nat (process_count bootstrap)) (initial_processes bootstrap));
    match created with
    | panics m => mret (panics m)
    | continues created =>
        initial ← in_bounds (created !! Z.to_nat (initial_process_index bootstrap));
        let '(initial_process, initial_thread) := initial in
        set_current_thread (Some initial_thread);;
        emit (prepare_thread_launch initial_process initial_thread);;
        mret (continues (initial_process, initial_thread))
    end.

(** [run_initial_user_runtime] up to [platform.enter_user_thread], which does
    not return: the process and thread it enters.  [initialize] is the
    platform's callback. *)
Definition run_initial_user_runtime (initialize : K (may_panic initial_user_runtime_bootstrap)) : K (may_panic (nat * nat)) :=
  set_runtime reset_runtime;;
  initialized ← initialize;
  match initialized with
  | panics m => mret (panics m)
  | continues bootstrap => run_bootstrap bootstrap
  end.

(** ** System call entry on x86-64 *)

Definition X64_PRESERVED_REGISTER_RSI_INDEX : nat := 0.
Definition X64_PRESERVED_REGISTER_RDI_INDEX : nat := 1.
Definition X64_PRESERVED_REGISTER_RBX_INDEX : nat := 2.
Definition X64_PRESERVED_REGISTER_RBP_INDEX : nat := 3.
Definition X64_PRESERVED_REGISTER_R12_INDEX : nat := 4.
Definition X64_PRESERVED_REGISTER_R13_INDEX : nat := 5.
Definition X64_PRESERVED_REGISTER_R14_INDEX : nat := 6.
Definition X64_PRESERVED_REGISTER_R15_INDEX : nat := 7.

Record x64_syscall_frame := {
  r9 : Z; r8 : Z; r10 : Z; rdx : Z; rsi : Z; rdi : Z; rax : Z; rcx : Z; r11 : Z; user_rsp : Z;
  r15 : Z; r14 : Z; r13 : Z; r12 : Z; rbp : Z; rbx : Z;
  preserved_xmm_qwords : list Z;   (* uint64_t[20] *)
}.

(** The arguments that are not restored are the zeros of [memset]. *)
Definition load_user_thread_frame (t : thread) : K x64_syscall_frame :=
  let resume := m_resume_state t in
  let preserved (i : nat) : K Z := in_bounds (m_arch_preserved_registers t !! i) in
  let is_rpc := bool_decide (resume_kind resume = USER_THREAD_RESUME_KIND_RPC) in
  v_rsi ← (if is_rpc then mret (resume_argument1 resume) else preserved X64_PRESERVED_REGISTER_RSI_INDEX);
  v_rdi ← (if is_rpc then mret (resume_argument0 resume) else preserved X64_PRESERVED_REGISTER_RDI_INDEX);
  v_rbx ← preserved X64_PRESERVED_REGISTER_RBX_INDEX;
  v_rbp ← preserved X64_PRESERVED_REGISTER_RBP_INDEX;
  v_r12 ← preserved X64_PRESERVED_REGISTER_R12_INDEX;
  v_r13 ← preserved X64_PRESERVED_REGISTER_R13_INDEX;
  v_r14 ← preserved X64_PRESERVED_REGISTER_R14_INDEX;
  v_r15 ← preserved X64_PRESERVED_REGISTER_R15_INDEX;
  mret {| r9 := 0; r8 := 0; r10 := 0; rdx := 0; rsi := v_rsi; rdi := v_rdi;
          rax := u64 (s64 (resume_status_code resume)); rcx := resume_instruction_pointer resume;
          r11 := resume_flags resume; user_rsp := resume_stack_pointer resume;
          r15 := v_r15; r14 := v_r14; r13 := v_r13; r12 := v_r12; rbp := v_rbp; rbx := v_rbx;
          preserved_xmm_qwords := m_arch_preserved_simd_qwords t |}.

(** The callee-saved registers of the frame, stored in the thread. *)
Definition save_preserved (f : x64_syscall_frame) (t : thread) : thread :=
  let regs := m_arch_preserved_registers t in
  let regs := <[X64_PRESERVED_REGISTER_RSI_INDEX := rsi f]> regs in
  let regs := <[X64_PRESERVED_REGISTER_RDI_INDEX := rdi f]> regs in
  let regs := <[X64_PRESERVED_REGISTER_RBX_INDEX := rbx f]> regs in
  let regs := <[X64_PRESERVED_REGISTER_RBP_INDEX := rbp f]> regs in
  let regs := <[X64_PRESERVED_REGISTER_R12_INDEX := r12 f]> regs in
  let regs := <[X64_PRESERVED_REGISTER_R13_INDEX := r13 f]> regs in
  let regs := <[X64_PRESERVED_REGISTER_R14_INDEX := r14 f]> regs in
  let regs := <[X64_PRESERVED_REGISTER_R15_INDEX := r15 f]> regs in
  with_preserved t regs (preserved_xmm_qwords f).

Section x64.
#[local] Instance x64_target : Target := x86_64.

(** Returns the value and [*frame] after the call; [frame = None] is a null pointer. *)
Definition x64_handle_syscall (frame : option x64_syscall_frame) : K (may_panic (bool * x64_syscall_frame)) :=
  match frame with
  | None => mret (panics "x64 syscall frame was null")
  | Some f =>
      current ← get_current_thread;
      match current with
      | None => mret (panics "x64 syscall without current thread")
      | Some current_thread =>
          update current_thread (save_preserved f);;
          syscall_status ← dispatch_syscall
            (make_user_syscall_context (rax f) (rcx f) (user_rsp f) (r11 f)
               (rdi f) (rsi f) (rdx f) (r10 f) (r8 f) (r9 f));
          runnable ← has_runnable_thread;
          if negb runnable then mret (continues (false, f))
          else
            resume ← get_current_thread;
            match resume with
            | None => mret (continues (false, f))
            | Some resume_thread =>
                (if bool_decide (resume_thread = current_thread)
                 then update resume_thread (fun t => prepare_syscall_resume t syscall_status)
                 else mret tt);;
                t ← read_at resume_thread;
                f' ← load_user_thread_frame t;
                runnable ← has_runnable_thread;
                mret (continues (runnable, f'))
            end
      end
  end.
End x64.
