(* ===== verification/RuntimeInvariant.v ===== *)
(** The invariant of the runtime: every pointer the kernel keeps points at a
    live object, handles are unique in each pool, only the current thread runs,
    and the endpoints in use have different names.  The pure steps the kernel
    takes are shown to keep it. *)
From S2P Require Import Prelude AddressSpace UserMemory KernelObjectPool RuntimeTypes UserRuntime Rpc.

(** ** C strings *)

(** The characters before the first NUL. *)
Fixpoint c_string (l : list Z) : list Z :=
  match l with
  | [] => []
  | c :: l => if c =? 0 then [] else c :: c_string l
  end.

Lemma c_string_not_zero l : 0 ∉ c_string l.
Proof.
  induction l as [|c l IH]; cbn; [apply not_elem_of_nil|]. destruct (Z.eqb_spec c 0) as [|Hc]; [apply not_elem_of_nil|].
  intros [E|E]%elem_of_cons; [congruence|done].
Qed.

Lemma c_string_app s l : 0 ∉ s -> c_string (s ++ 0 :: l) = s.
Proof.
  induction s as [|c s IH]; intros Hs; cbn; [done|]. apply not_elem_of_cons in Hs as [Hc Hs].
  rewrite (proj2 (Z.eqb_neq c 0)) by done. f_equal. by apply IH.
Qed.

Lemma c_string_length l : 0 ∈ l -> (length (c_string l) < length l)%nat.
Proof.
  induction l as [|c l IH]; cbn; [by intros ?%not_elem_of_nil|]. intros H. destruct (Z.eqb_spec c 0); cbn; [lia|].
  apply elem_of_cons in H as [|H]; [congruence|]. specialize (IH H). lia.
Qed.

Lemma strings_equal_spec a b :
  0 ∈ a -> 0 ∈ b -> strings_equal a b = Some (bool_decide (c_string a = c_string b)).
Proof.
  revert b. induction a as [|x a IH]; intros b Ha Hb; [by apply not_elem_of_nil in Ha|].
  destruct b as [|y b]; [by apply not_elem_of_nil in Hb|]. cbn.
  destruct (Z.eqb_spec x y) as [<-|Hxy]; cbn.
  - destruct (Z.eqb_spec x 0) as [->|Hx]; cbn; [by rewrite bool_decide_eq_true_2|].
    apply elem_of_cons in Ha as [|Ha]; [congruence|]. apply elem_of_cons in Hb as [|Hb]; [congruence|].
    rewrite IH by done. f_equal. apply bool_decide_ext. split; [by intros ->|by injection 1].
  - rewrite bool_decide_eq_false_2; [done|].
    destruct (Z.eqb_spec x 0), (Z.eqb_spec y 0); congruence.
Qed.

Lemma copy_string_from_spec d source capacity index :
  length d = capacity -> 0 ∈ source -> (index + length (c_string source) < capacity)%nat ->
  exists rest, copy_string_from d source capacity index = Some (take index d ++ c_string source ++ 0 :: rest) /\
    length (take index d ++ c_string source ++ 0 :: rest) = capacity.
Proof.
  revert d index. induction source as [|c source IH]; intros d index Hd Hs Hlt; [by apply not_elem_of_nil in Hs|].
  cbn [copy_string_from]. cbn [c_string] in *. destruct (Z.eqb_spec c 0) as [->|Hc].
  - cbn [length] in Hlt. rewrite bool_decide_eq_false_2 by lia. cbn [negb andb app].
    exists (drop (S index) d). rewrite insert_take_drop by lia. split; [done|].
    rewrite length_app. cbn. rewrite length_take, length_drop. lia.
  - cbn [length] in Hlt. rewrite (bool_decide_eq_false_2 (length d <= index)%nat), bool_decide_eq_true_2 by lia.
    cbn [negb andb]. apply elem_of_cons in Hs as [|Hs]; [congruence|].
    destruct (IH (<[index := c]> d) (S index)) as (rest & -> & Hl); [by rewrite length_insert|done|lia|].
    exists rest. rewrite (take_S_r _ _ c) in * by (apply list_lookup_insert_eq; lia).
    rewrite take_insert_ge in * by lia. rewrite <- app_assoc in *. done.
Qed.

Lemma initialize_endpoint_spec p t name callback completion :
  0 ∈ name -> length name = NAME_CAPACITY ->
  exists n, initialize_endpoint p t name callback completion =
    Some {| m_is_in_use := true; m_is_busy := false; m_name := n; m_owner_process := Some p;
            m_owner_thread := Some t; m_callback_address := callback; m_completion_address := completion |} /\
    length n = NAME_CAPACITY /\ 0 ∈ n /\ c_string n = c_string name.
Proof.
  intros Hz Hl. pose proof (c_string_length name Hz) as Hlt.
  destruct (copy_string_from_spec (m_name clear_endpoint) name NAME_CAPACITY 0) as (rest & E & El);
    [done|done|cbn; lia|].
  unfold initialize_endpoint, copy_string. cbn [Nat.eqb NAME_CAPACITY] in *. rewrite E. cbn [mbind option_bind].
  eexists. split; [done|]. split_and!; [done| |].
  - cbn. apply elem_of_app. right. apply list_elem_of_here.
  - cbn. apply c_string_app, c_string_not_zero.
Qed.

(** ** The invariant *)

Section well_formed.
Implicit Types r : user_runtime.

Definition live_process r (i : nat) : Prop := is_Some (get_by_index (m_processes r) i).
Definition live_thread r (i : nat) : Prop := is_Some (get_by_index (m_threads r) i).

Definition points_to (live : nat -> Prop) (p : option nat) : Prop := forall i, p = Some i -> live i.

Record thread_wf (processes : nat -> Prop) (current : option nat) (i : nat) (t : thread) : Prop := {
  thread_process : exists p, m_process t = Some p /\ processes p;
  thread_registers : length (m_arch_preserved_registers t) = USER_THREAD_ARCH_PRESERVED_REGISTER_COUNT;
  thread_simd : length (m_arch_preserved_simd_qwords t) = USER_THREAD_ARCH_PRESERVED_SIMD_QWORD_COUNT;
  thread_running : m_state t = USER_THREAD_STATE_RUNNING -> current = Some i;
}.

Record endpoint_wf (processes threads : nat -> Prop) (e : rpc_endpoint) : Prop := {
  endpoint_name : length (m_name e) = NAME_CAPACITY;
  endpoint_terminated : 0 ∈ m_name e;
  endpoint_process : points_to processes (m_owner_process e);
  endpoint_thread : points_to threads (m_owner_thread e);
  endpoint_owned : m_is_in_use e = true -> is_Some (m_owner_process e) /\ is_Some (m_owner_thread e);
  endpoint_unused : m_is_in_use e = false -> m_owner_thread e = None;
}.

Record channel_wf (processes threads : nat -> Prop) (c : rpc_channel) : Prop := {
  channel_process : points_to processes (m_client_process c);
  channel_endpoint : points_to (fun e => e < USER_RUNTIME_MAX_RPC_ENDPOINTS)%nat (m_endpoint c);
  channel_client : points_to threads (m_pending_client_thread c);
  channel_server : points_to threads (m_pending_server_thread c);
  channel_registers : length (m_saved_server_registers c) = USER_THREAD_ARCH_PRESERVED_REGISTER_COUNT;
  channel_simd : length (m_saved_server_simd_qwords c) = USER_THREAD_ARCH_PRESERVED_SIMD_QWORD_COUNT;
  channel_owned : is_Some (m_client_process c);
  channel_bound : is_Some (m_endpoint c);
  channel_call : is_Some (m_pending_client_thread c) <-> is_Some (m_pending_server_thread c);
}.

Definition distinct_names (l : list rpc_endpoint) : Prop := forall i j e e',
  l !! i = Some e -> l !! j = Some e' -> m_is_in_use e = true -> m_is_in_use e' = true ->
  c_string (m_name e) = c_string (m_name e') -> i = j.

Record runtime_wf r : Prop := {
  wf_processes : pool_wf (m_processes r) (m_next_handle_value r);
  wf_threads : pool_wf (m_threads r) (m_next_handle_value r);
  wf_device_memory_objects : pool_wf (m_device_memory_objects r) (m_next_handle_value r);
  wf_channels : pool_wf (m_channels r) (m_next_handle_value r);
  wf_shared_memory_objects : pool_wf (m_shared_memory_objects r) (m_next_handle_value r);
  wf_thread_capacity : capacity (m_threads r) = USER_RUNTIME_MAX_THREADS;
  wf_channel_capacity : capacity (m_channels r) = USER_RUNTIME_MAX_RPC_CHANNELS;
  wf_endpoint_count : length (m_endpoints r) = USER_RUNTIME_MAX_RPC_ENDPOINTS;
  wf_next : 1 <= m_next_handle_value r;
  wf_process i p : get_by_index (m_processes r) i = Some p -> address_space_wf (m_address_space p);
  wf_thread i t : get_by_index (m_threads r) i = Some t -> thread_wf (live_process r) (m_current_thread r) i t;
  wf_endpoint i e : m_endpoints r !! i = Some e -> endpoint_wf (live_process r) (live_thread r) e;
  wf_names : distinct_names (m_endpoints r);
  wf_channel i c : get_by_index (m_channels r) i = Some c -> channel_wf (live_process r) (live_thread r) c;
  wf_current : points_to (live_thread r) (m_current_thread r);
}.
End well_formed.

(** ** Steps that keep it *)

Lemma points_to_Some (live : nat -> Prop) i : live i -> points_to live (Some i).
Proof. by intros ? ? [= <-]. Qed.

Lemma points_to_None (live : nat -> Prop) : points_to live None.
Proof. by intros ? ?. Qed.

Lemma points_to_mono (P Q : nat -> Prop) p : (forall i, P i -> Q i) -> points_to P p -> points_to Q p.
Proof. intros H Hp i E. apply H, Hp, E. Qed.

#[export] Hint Resolve points_to_Some points_to_None : core.

Lemma endpoint_wf_mono P Q Q' e : (forall i, Q i -> Q' i) -> endpoint_wf P Q e -> endpoint_wf P Q' e.
Proof. intros H []. constructor; try done; by eapply points_to_mono. Qed.

Lemma channel_wf_mono P Q Q' c : (forall i, Q i -> Q' i) -> channel_wf P Q c -> channel_wf P Q' c.
Proof. intros H []. constructor; try done; by eapply points_to_mono. Qed.

Lemma get_update_at {A} `{KernelObject A} (p : kernel_object_pool A) i j x y :
  get_by_index p i = Some y -> get_by_index (update_at p i x) j = if decide (i = j) then Some x else get_by_index p j.
Proof. intros Hy. apply get_by_index_insert. by eapply get_by_index_lt. Qed.

Lemma live_update (r : user_runtime) i t t' j :
  get_by_index (m_threads r) i = Some t ->
  live_thread (with_threads r (update_at (m_threads r) i t')) j <-> live_thread r j.
Proof.
  intros Ht. unfold live_thread. cbn. rewrite (get_update_at _ _ _ _ t) by done.
  destruct (decide (i = j)) as [<-|]; [|done]. rewrite Ht. by split; eexists.
Qed.

Section steps.
Context (r : user_runtime) (Hr : runtime_wf r).

Lemma update_thread_wf i t t' :
  get_by_index (m_threads r) i = Some t -> get_handle t' = get_handle t ->
  thread_wf (live_process r) (m_current_thread r) i t' ->
  runtime_wf (with_threads r (update_at (m_threads r) i t')).
Proof.
  intros Ht Hh Hwf. pose proof (fun j => live_update r i t t' j Ht) as Hlive. destruct Hr. constructor; cbn; try done.
  - by eapply pool_wf_update.
  - unfold capacity, update_at. cbn. by rewrite length_insert.
  - intros j u. rewrite (get_update_at _ _ _ _ t) by done. destruct (decide (i = j)) as [<-|]; [by intros [= <-]|].
    apply wf_thread0.
  - intros j e He. eapply endpoint_wf_mono; [|by apply (wf_endpoint0 j)]. intros k. apply Hlive.
  - intros j c Hc. eapply channel_wf_mono; [|by apply (wf_channel0 j)]. intros k. apply Hlive.
  - intros j Hj. by apply Hlive, wf_current0.
Qed.

Lemma set_current_wf c :
  points_to (live_thread r) c ->
  (forall i t, get_by_index (m_threads r) i = Some t -> m_state t = USER_THREAD_STATE_RUNNING -> c = Some i) ->
  runtime_wf (with_current_thread r c).
Proof.
  intros Hc Hrun. destruct Hr. constructor; cbn; try done.
  intros i t Ht. destruct (wf_thread0 i t Ht). constructor; [done..|]. by eapply Hrun.
Qed.

Lemma write_endpoint_wf i e :
  (i < length (m_endpoints r))%nat -> endpoint_wf (live_process r) (live_thread r) e ->
  (m_is_in_use e = true -> forall j e', m_endpoints r !! j = Some e' -> m_is_in_use e' = true ->
     c_string (m_name e') = c_string (m_name e) -> j = i) ->
  runtime_wf (with_endpoints r (<[i := e]> (m_endpoints r))).
Proof.
  intros Hi He Hn. destruct Hr. constructor; cbn; try done.
  - by rewrite length_insert.
  - intros j e'. destruct (decide (i = j)) as [<-|].
    + rewrite list_lookup_insert_eq by done. by intros [= <-].
    + rewrite list_lookup_insert_ne by done. apply wf_endpoint0.
  - intros j k e1 e2. destruct (decide (i = j)) as [<-|], (decide (i = k)) as [<-|]; [done| | |];
      rewrite ?list_lookup_insert_eq, ?list_lookup_insert_ne by done; [| |apply wf_names0].
    + intros [= <-] H2 U1 U2 E. symmetry. by eapply Hn.
    + intros H1 [= <-] U1 U2 E. by eapply Hn.
Qed.

Lemma clear_endpoints_wf t :
  runtime_wf (with_endpoints r
    ((fun e => if bool_decide (m_owner_thread e = Some t) then clear_endpoint else e) <$> m_endpoints r)).
Proof.
  destruct Hr. constructor; cbn; try done.
  - by rewrite length_fmap.
  - intros i e. rewrite list_lookup_fmap. destruct (m_endpoints r !! i) as [x|] eqn:E; [|done]. intros [= <-].
    case_bool_decide; [|by apply (wf_endpoint0 i)]. constructor; cbn; auto; [|done].
    apply list_elem_of_here.
  - intros i j e e'. rewrite !list_lookup_fmap.
    destruct (m_endpoints r !! i) as [x|] eqn:Ei; [|done]. destruct (m_endpoints r !! j) as [y|] eqn:Ej; [|done].
    intros [= <-] [= <-]. do 2 (case_bool_decide; [done|]). by apply wf_names0.
Qed.

Lemma update_channel_wf i c c' :
  get_by_index (m_channels r) i = Some c -> get_handle c' = get_handle c ->
  channel_wf (live_process r) (live_thread r) c' ->
  runtime_wf (with_channels r (update_at (m_channels r) i c')).
Proof.
  intros Hc Hh Hwf. destruct Hr. constructor; cbn; try done.
  - by eapply pool_wf_update.
  - unfold capacity, update_at. cbn. by rewrite length_insert.
  - intros j x. rewrite (get_update_at _ _ _ _ c) by done. destruct (decide (i = j)) as [<-|]; [by intros [= <-]|].
    apply wf_channel0.
Qed.

Lemma erase_channel_wf h : runtime_wf (with_channels r (snd (erase_by_handle (m_channels r) h))).
Proof.
  destruct Hr. constructor; cbn; try done; [by apply erase_wf|by rewrite erase_capacity|].
  intros j x. unfold erase_by_handle. destruct (find_by_handle (m_channels r) h) as [i|] eqn:E; [|apply wf_channel0].
  eapply find_by_handle_spec in E as (y & Hy & _); [|done]. cbn [snd].
  rewrite get_by_index_insert by (by eapply get_by_index_lt). destruct (decide (i = j)); [done|apply wf_channel0].
Qed.
End steps.
