(* ===== verification/KernelSafety.v ===== *)
(** Every kernel operation, run on a well-formed runtime, returns (no null or
    dangling pointer is dereferenced, no array is overrun, no loop runs out of
    fuel) and leaves the runtime well formed. *)
From S2P Require Import Prelude AddressSpace UserMemory KernelObjectPool RuntimeTypes UserRuntime Rpc RuntimeInvariant.

(** ** Total correctness of the primitive operations *)

Section primitives.
Context {A : Type} `{RuntimePool A}.

Lemma twp_read_at i x (Q : A -> kernel -> Prop) k :
  get_by_index (pool (runtime k)) i = Some x -> Q x k -> twp (read_at i) Q k.
Proof. intros E HQ. unfold read_at, twp, mbind, M_bind. cbn. by rewrite E. Qed.

Lemma twp_update i x f (Q : unit -> kernel -> Prop) k :
  get_by_index (pool (runtime k)) i = Some x ->
  Q tt (with_runtime k (with_pool (runtime k) (update_at (pool (runtime k)) i (f x)))) ->
  twp (update i f) Q k.
Proof. intros E HQ. unfold update. apply twp_bind. by eapply twp_read_at. Qed.
End primitives.

Lemma twp_set_runtime f (Q : unit -> kernel -> Prop) k : Q tt (with_runtime k (f (runtime k))) -> twp (set_runtime f) Q k.
Proof. done. Qed.

Lemma twp_read_endpoint i e (Q : rpc_endpoint -> kernel -> Prop) k :
  m_endpoints (runtime k) !! i = Some e -> Q e k -> twp (read_endpoint i) Q k.
Proof. intros E HQ. unfold read_endpoint, twp, mbind, M_bind. cbn. by rewrite E. Qed.

Lemma twp_lift {A} (o : option A) a (Q : A -> kernel -> Prop) k : o = Some a -> Q a k -> twp (lift o) Q k.
Proof. by intros ->. Qed.

Lemma twp_in_bounds {A} (o : option A) a (Q : A -> kernel -> Prop) k : o = Some a -> Q a k -> twp (in_bounds o) Q k.
Proof. by intros ->. Qed.

(** ** What an operation that creates and destroys nothing leaves alone *)

Definition live_channel (r : user_runtime) (i : nat) : Prop := is_Some (get_by_index (m_channels r) i).

Record frame (r r' : user_runtime) : Prop := {
  frame_processes : m_processes r' = m_processes r;
  frame_threads i : live_thread r' i <-> live_thread r i;
  frame_channels i : live_channel r' i <-> live_channel r i;
  frame_next : m_next_handle_value r' = m_next_handle_value r;
}.

#[export] Instance frame_preorder : PreOrder frame.
Proof.
  split.
  - intros r. by constructor.
  - intros r1 r2 r3 [P1 T1 C1 N1] [P2 T2 C2 N2]. constructor; [congruence| | |congruence].
    + intros i. by rewrite T2.
    + intros i. by rewrite C2.
Qed.

Definition keeps (k k' : kernel) : Prop := runtime_wf (runtime k') /\ frame (runtime k) (runtime k').

Definition keeps_current (k k' : kernel) : Prop :=
  keeps k k' /\ m_current_thread (runtime k') = m_current_thread (runtime k).

Lemma keeps_refl k : runtime_wf (runtime k) -> keeps k k.
Proof. by split. Qed.

Lemma keeps_trans k1 k2 k3 : keeps k1 k2 -> keeps k2 k3 -> keeps k1 k3.
Proof. intros [_ F1] [W F2]. split; [done|]. by etrans. Qed.

Lemma keeps_current_refl k : runtime_wf (runtime k) -> keeps_current k k.
Proof. by split; [apply keeps_refl|]. Qed.

Lemma keeps_current_trans k1 k2 k3 : keeps_current k1 k2 -> keeps_current k2 k3 -> keeps_current k1 k3.
Proof. intros [F1 C1] [F2 C2]. split; [by eapply keeps_trans|congruence]. Qed.

Lemma keeps_current_keeps k k' : keeps_current k k' -> keeps k k'.
Proof. by intros []. Qed.

Create HintDb kernel.
#[export] Hint Resolve keeps_refl keeps_current_refl keeps_trans keeps_current_trans keeps_current_keeps : kernel.

Lemma live_process_keeps k k' i : keeps k k' -> live_process (runtime k) i -> live_process (runtime k') i.
Proof. intros [_ []]. unfold live_process. by rewrite frame_processes0. Qed.

Lemma live_thread_keeps k k' i : keeps k k' -> live_thread (runtime k) i -> live_thread (runtime k') i.
Proof. intros [_ []]. by rewrite frame_threads0. Qed.

Lemma live_channel_keeps k k' i : keeps k k' -> live_channel (runtime k) i -> live_channel (runtime k') i.
Proof. intros [_ []]. by rewrite frame_channels0. Qed.

#[export] Hint Resolve live_process_keeps live_thread_keeps live_channel_keeps : kernel.

(** The postcondition "the invariant holds and the pointers stay valid". *)
Abbreviation ok k := (fun _ k' => keeps k k').
Abbreviation ok_current k := (fun _ k' => keeps_current k k').

(** Sequencing two operations that keep the runtime. *)
Lemma twp_seq {A B} (m : K A) (f : A -> K B) k R Q :
  twp m R k -> (forall a k', R a k' -> twp (f a) Q k') -> twp (m ≫= f) Q k.
Proof. intros Hm Hf. apply twp_bind. by eapply twp_mono. Qed.

Lemma twp_host m (k : kernel) : runtime_wf (runtime k) -> twp (set_host m) (ok_current k) k.
Proof. intros. cbn. split; [|done]. by split. Qed.

Lemma twp_emit e (k : kernel) : runtime_wf (runtime k) -> twp (emit e) (ok_current k) k.
Proof. intros. cbn. split; [|done]. by split. Qed.

(** ** Threads *)

Lemma keeps_update_thread i f k :
  runtime_wf (runtime k) -> live_thread (runtime k) i ->
  (forall t, get_by_index (m_threads (runtime k)) i = Some t ->
     thread_wf (live_process (runtime k)) (m_current_thread (runtime k)) i t ->
     get_handle (f t) = get_handle t /\
     thread_wf (live_process (runtime k)) (m_current_thread (runtime k)) i (f t)) ->
  twp (update i f) (ok_current k) k.
Proof.
  intros Hr [t Ht] Hf. destruct (Hf t Ht (wf_thread _ Hr i t Ht)) as [Hh Hwf].
  eapply twp_update; [exact Ht|]. split; [|done]. split.
  - by eapply update_thread_wf.
  - constructor; [done| |done|done]. intros j. by eapply live_update.
Qed.

Lemma set_state_safe i s k :
  runtime_wf (runtime k) -> live_thread (runtime k) i ->
  (s = USER_THREAD_STATE_RUNNING -> m_current_thread (runtime k) = Some i) ->
  twp (set_state i s) (ok_current k) k.
Proof. intros Hr Hl Hs. apply keeps_update_thread; [done..|]. intros t Ht []. split; [done|]. by constructor. Qed.

Lemma get_state_safe i k Q :
  live_thread (runtime k) i ->
  (forall t, get_by_index (m_threads (runtime k)) i = Some t -> Q (m_state t) k) -> twp (get_state i) Q k.
Proof. intros [t Ht] HQ. apply twp_bind. eapply twp_read_at; [exact Ht|]. by apply HQ. Qed.

(** No thread but [p] runs. *)
Definition only_runs (p : option nat) (k : kernel) : Prop :=
  forall i t, get_by_index (m_threads (runtime k)) i = Some t -> m_state t = USER_THREAD_STATE_RUNNING -> p = Some i.

Lemma only_current_runs k : runtime_wf (runtime k) -> only_runs (m_current_thread (runtime k)) k.
Proof. intros Hr i t Ht. apply (thread_running _ _ _ _ (wf_thread _ Hr i t Ht)). Qed.

(** The current thread stops running before it is replaced. *)
Lemma preempt_safe c (p : option nat) k :
  runtime_wf (runtime k) -> m_current_thread (runtime k) = Some c -> Some c <> p ->
  twp (s ← get_state c;
       if bool_decide (s = USER_THREAD_STATE_RUNNING) then set_state c USER_THREAD_STATE_READY else mret tt)
    (fun _ k' => keeps_current k k' /\ only_runs p k') k.
Proof.
  intros Hr Hc Hne. pose proof (only_current_runs k Hr) as Hrun. rewrite Hc in Hrun.
  apply twp_bind, get_state_safe; [by apply (wf_current _ Hr)|]. intros u Hu. case_bool_decide as Hs.
  - unfold set_state. eapply twp_update; [exact Hu|]. split.
    + split; [|done]. split.
      * eapply update_thread_wf; [done|exact Hu|done|]. destruct (wf_thread _ Hr c u Hu). by constructor.
      * constructor; [done| |done|done]. intros j. by eapply live_update.
    + intros i t. cbn. rewrite (get_update_at _ _ _ _ u) by done. destruct (decide (c = i)) as [<-|Hci].
      { by intros [= <-]. }
      intros Ht HR. pose proof (Hrun i t Ht HR). congruence.
  - split; [by apply keeps_current_refl|]. intros i t Ht HR.
    pose proof (Hrun i t Ht HR) as E. injection E as <-. congruence.
Qed.

Lemma set_current_thread_safe p k :
  runtime_wf (runtime k) -> points_to (live_thread (runtime k)) p ->
  twp (set_current_thread p) (fun _ k' => keeps k k' /\ m_current_thread (runtime k') = p) k.
Proof.
  intros Hr Hp. unfold set_current_thread. apply twp_bind, twp_gets.
  apply (twp_seq _ _ _ (fun _ k' => keeps_current k k' /\ only_runs p k')).
  - pose proof (only_current_runs k Hr) as Hrun. pose proof (keeps_current_refl k Hr) as Hk.
    destruct (m_current_thread (runtime k)) as [c|] eqn:Ec.
    + case_bool_decide as Hne; [by apply preempt_safe|]. split; [done|]. by rewrite <- Hne.
    + split; [done|]. intros i t Ht HR. by specialize (Hrun i t Ht HR).
  - intros [] k1 [[[Hr1 F1] _] Hrun]. apply twp_bind, twp_set_runtime.
    assert (points_to (live_thread (runtime k1)) p) as Hp1.
    { eapply points_to_mono; [|exact Hp]. intros i. apply F1. }
    set (k2 := with_runtime k1 _).
    assert (keeps k k2) as K2.
    { split; [by apply set_current_wf|]. etrans; [exact F1|]. by constructor. }
    assert (m_current_thread (runtime k2) = p) as E2 by done. clearbody k2.
    apply (twp_seq _ _ _ (fun _ k' => k' = k2)).
    + destruct p as [c|]; [|done]. destruct (live_thread_keeps k k2 c K2 (Hp c eq_refl)) as [t Ht].
      apply twp_bind. eapply twp_read_at; [exact Ht|done].
    + intros q k3 ->. eapply twp_seq; [apply twp_emit, K2|]. intros [] k3 [K3 E3].
      eapply twp_seq; [apply twp_emit, K3|]. intros [] k4 [K4 E4].
      assert (keeps k k4) as K5 by eauto with kernel. assert (m_current_thread (runtime k4) = p) as E5 by congruence.
      destruct p as [c|]; [|done]. pose proof (live_thread_keeps k k4 c K5 (Hp c eq_refl)) as Hl.
      apply twp_bind, get_state_safe; [done|]. intros t Ht. case_bool_decide; [|done].
      eapply twp_mono; [apply set_state_safe; [apply K5|done|done]|]. intros [] k6 [K6 E6].
      split; [eauto with kernel|congruence].
Qed.

Lemma find_ready_between_Some p index n i :
  find_ready_between p index n = Some i ->
  (index <= i < index + n)%nat /\ (exists t, get_by_index p i = Some t /\ m_state t = USER_THREAD_STATE_READY) /\
  forall j t, (index <= j < i)%nat -> get_by_index p j = Some t -> m_state t <> USER_THREAD_STATE_READY.
Proof.
  revert index. induction n as [|n IH]; intros index; cbn; [done|].
  assert (forall t, get_by_index p index = Some t -> m_state t = USER_THREAD_STATE_READY -> Some index = Some i ->
    (index <= i < index + S n)%nat /\ (exists t, get_by_index p i = Some t /\ m_state t = USER_THREAD_STATE_READY) /\
    forall j t, (index <= j < i)%nat -> get_by_index p j = Some t -> m_state t <> USER_THREAD_STATE_READY) as Hhere.
  { intros t Ht Hs [= <-]. split_and!; [lia|lia|by exists t|]. intros j ? ?. lia. }
  assert ((forall t, get_by_index p index = Some t -> m_state t <> USER_THREAD_STATE_READY) ->
    find_ready_between p (S index) n = Some i ->
    (index <= i < index + S n)%nat /\ (exists t, get_by_index p i = Some t /\ m_state t = USER_THREAD_STATE_READY) /\
    forall j t, (index <= j < i)%nat -> get_by_index p j = Some t -> m_state t <> USER_THREAD_STATE_READY) as Hlater.
  { intros Hno (? & ? & Hb)%IH. split_and!; [lia|lia|done|]. intros j t Hj Ht.
    destruct (decide (j = index)) as [->|]; [by apply Hno|]. apply (Hb j); [lia|done]. }
  destruct (get_by_index p index) as [t|] eqn:E; [|by apply Hlater].
  unfold is_ready. case_bool_decide as Hs; [by apply (Hhere t)|]. apply Hlater. by intros ? [= <-].
Qed.

Lemma find_ready_between_None p index n :
  find_ready_between p index n = None <->
  forall j t, (index <= j < index + n)%nat -> get_by_index p j = Some t -> m_state t <> USER_THREAD_STATE_READY.
Proof.
  revert index. induction n as [|n IH]; intros index; cbn; [split; [lia|done]|].
  pose proof (IH (S index)) as H. unfold is_ready.
  destruct (get_by_index p index) as [t|] eqn:E; [case_bool_decide as Hs|].
  - split; [done|]. intros Hn. exfalso. apply (Hn index t); [lia|done|done].
  - rewrite H. split; intros Hn j u Hj Hu; [|apply (Hn j); [lia|done]].
    destruct (decide (j = index)) as [->|]; [congruence|]. apply (Hn j); [lia|done].
  - rewrite H. split; intros Hn j u Hj Hu; [|apply (Hn j); [lia|done]].
    destruct (decide (j = index)) as [->|]; [congruence|]. apply (Hn j); [lia|done].
Qed.

Lemma next_ready_Some p after i :
  next_ready p after = Some i -> exists t, get_by_index p i = Some t /\ m_state t = USER_THREAD_STATE_READY.
Proof.
  unfold next_ready. destruct (find_ready_between p (start_index p after) _) as [j|] eqn:E.
  - intros [= <-]. apply find_ready_between_Some in E. tauto.
  - intros E2%find_ready_between_Some. tauto.
Qed.

Lemma next_ready_live r after : points_to (live_thread r) (next_ready (m_threads r) after).
Proof. intros i (t & Ht & _)%next_ready_Some. by exists t. Qed.

Lemma schedule_next_ready_thread_safe k :
  runtime_wf (runtime k) -> (forall i t, get_by_index (m_threads (runtime k)) i = Some t -> m_state t <> USER_THREAD_STATE_RUNNING) ->
  twp schedule_next_ready_thread (ok k) k.
Proof.
  intros Hr Hrun. unfold schedule_next_ready_thread. apply twp_bind, twp_gets, twp_bind, twp_gets.
  pose proof (next_ready_live (runtime k) (m_current_thread (runtime k))) as Hl.
  destruct (next_ready _ _) as [n|] eqn:E.
  - eapply twp_seq; [by apply set_current_thread_safe|]. intros [] k1 [K1 _]. by apply twp_ret.
  - apply twp_bind, twp_set_runtime, twp_ret. split.
    + apply set_current_wf; [done|done|]. intros i t Ht HR. by apply Hrun in Ht.
    + by constructor.
Qed.

Lemma has_runnable_thread_safe k : runtime_wf (runtime k) -> twp has_runnable_thread (fun _ k' => k' = k) k.
Proof.
  intros Hr. unfold has_runnable_thread. apply twp_bind, twp_gets.
  pose proof (wf_current _ Hr) as Hc. destruct (m_current_thread (runtime k)) as [c|]; [|done].
  apply twp_bind, get_state_safe; [by apply Hc|]. intros t Ht. case_bool_decide; [|done].
  apply twp_bind, get_state_safe; [by apply Hc|]. done.
Qed.

(** ** User memory *)

Lemma validate_user_range_safe p x n k :
  runtime_wf (runtime k) -> live_process (runtime k) p -> 0 < n -> u64_ok n ->
  twp (validate_user_range p x n) (fun _ k' => k' = k) k.
Proof.
  intros Hr [q Hq] Hn Hok. apply twp_bind. eapply twp_read_at; [exact Hq|].
  destruct (validate_spec _ (wf_process _ Hr p q Hq) x n Hn Hok) as (b & Hb & _). by eapply twp_lift.
Qed.

Lemma write_user_bytes_safe p x bs k :
  runtime_wf (runtime k) -> live_process (runtime k) p -> u64_ok (Z.of_nat (length bs)) ->
  twp (write_user_bytes_to p x bs) (ok_current k) k.
Proof.
  intros Hr [q Hq] Hok. apply twp_bind. eapply twp_read_at; [exact Hq|]. apply twp_bind. cbn.
  apply twp_bind. eapply twp_lift; [apply write_user_bytes_eq; [by eapply wf_process|done]|].
  eapply twp_seq; [by apply twp_host|]. done.
Qed.

Lemma copy_between_safe s x d y n k :
  runtime_wf (runtime k) -> live_process (runtime k) s -> live_process (runtime k) d -> u64_ok n ->
  twp (copy_between s x d y n) (ok_current k) k.
Proof.
  intros Hr [p Hp] [q Hq] Hok. apply twp_bind. eapply twp_read_at; [exact Hp|].
  apply twp_bind. eapply twp_read_at; [exact Hq|]. apply twp_bind. cbn.
  apply twp_bind. eapply twp_lift; [apply copy_between_user_processes_eq; [by eapply wf_process..|done]|].
  eapply twp_seq; [by apply twp_host|]. done.
Qed.

Lemma copy_user_string_safe t x n k :
  runtime_wf (runtime k) -> live_thread (runtime k) t -> u64_ok x -> (0 < n)%nat ->
  twp (copy_user_string_to_buffer t x n)
    (fun r k' => k' = k /\ (fst r = STATUS_OK -> 0 ∈ snd r /\ length (snd r) = n)) k.
Proof.
  intros Hr [u Hu] Hx Hn. apply twp_bind. eapply twp_read_at; [exact Hu|].
  destruct (thread_process _ _ _ _ (wf_thread _ Hr t u Hu)) as (p & -> & q & Hq).
  apply twp_bind, twp_bind. eapply twp_read_at; [exact Hq|]. apply twp_ret, twp_bind. cbn.
  destruct (copy_user_string_shape _ (host k) x n (wf_process _ Hr p q Hq) Hx Hn) as (st & bs & E & Hs).
  apply twp_bind. eapply twp_lift; [exact E|]. apply twp_ret. split; [done|]. cbn. intros Hst.
  destruct (Hs Hst) as (Hz & _ & Hl). split; [by apply elem_of_app; left|].
  rewrite length_app, length_replicate. lia.
Qed.
