(* ===== verification/RpcSafety.v ===== *)
(** The system calls of [kernel/rpc.cpp] keep the runtime well formed. *)
From S2P Require Import Prelude AddressSpace UserMemory KernelObjectPool RuntimeTypes UserRuntime Rpc RuntimeInvariant KernelSafety.

(** ** Endpoints *)

Lemma keeps_write_endpoint i e k :
  runtime_wf (runtime k) -> (i < length (m_endpoints (runtime k)))%nat ->
  endpoint_wf (live_process (runtime k)) (live_thread (runtime k)) e ->
  (m_is_in_use e = true -> forall j e', m_endpoints (runtime k) !! j = Some e' -> m_is_in_use e' = true ->
     c_string (m_name e') = c_string (m_name e) -> j = i) ->
  twp (write_endpoint i e) (ok_current k) k.
Proof.
  intros Hr Hi He Hn. apply twp_set_runtime. split; [|done]. split; [by apply write_endpoint_wf|by constructor].
Qed.

Lemma endpoint_lookup r i : runtime_wf r -> (i < USER_RUNTIME_MAX_RPC_ENDPOINTS)%nat -> is_Some (m_endpoints r !! i).
Proof. intros Hr Hi. apply lookup_lt_is_Some_2. by rewrite (wf_endpoint_count _ Hr). Qed.

Lemma set_busy_safe e b k :
  runtime_wf (runtime k) -> (e < USER_RUNTIME_MAX_RPC_ENDPOINTS)%nat ->
  twp (update_endpoint e (set_busy b)) (ok_current k) k.
Proof.
  intros Hr He. destruct (endpoint_lookup _ e Hr He) as [x Hx]. apply twp_bind. eapply twp_read_endpoint; [exact Hx|].
  apply keeps_write_endpoint; [done|by eapply lookup_lt_Some| |].
  - destruct (wf_endpoint _ Hr e x Hx). by constructor.
  - intros Hu j e' Hj Hu' E. by eapply (wf_names _ Hr j e).
Qed.

Lemma find_name_loop_spec l index name :
  0 ∈ name -> Forall (fun e => 0 ∈ m_name e) l ->
  exists r, find_name_loop l index name = Some r /\
    match r with
    | Some i => exists e, (index <= i)%nat /\ l !! (i - index)%nat = Some e /\ m_is_in_use e = true /\ c_string (m_name e) = c_string name
    | None => forall i e, l !! i = Some e -> m_is_in_use e = true -> c_string (m_name e) <> c_string name
    end.
Proof.
  intros Hn Hl. revert index. induction Hl as [|e l He Hl IH]; intros index; cbn [find_name_loop].
  { exists None. split; [done|]. done. }
  assert (matches_name e name = Some (m_is_in_use e && bool_decide (c_string (m_name e) = c_string name))) as ->.
  { unfold matches_name. destruct (m_is_in_use e); [by rewrite strings_equal_spec|done]. }
  cbn [mbind option_bind]. destruct (m_is_in_use e) eqn:U; [case_bool_decide as En|]; cbn [andb].
  1: { exists (Some index). split; [done|]. exists e. rewrite Nat.sub_diag. done. }
  all: destruct (IH (S index)) as ([i|] & -> & Hi); eexists; (split; [done|]).
  1,3: destruct Hi as (x & Hle & Hx & Hu & Ex); exists x; split_and!; [lia| |done..];
    by replace (i - index)%nat with (S (i - S index)) by lia.
  all: intros [|j] x Hx Hu; [cbn in Hx; congruence|by eapply Hi].
Qed.

Definition found_by_name (r : user_runtime) (name : list Z) (i : option nat) : Prop :=
  match i with
  | Some i => exists e, m_endpoints r !! i = Some e /\ m_is_in_use e = true /\ c_string (m_name e) = c_string name
  | None => forall i e, m_endpoints r !! i = Some e -> m_is_in_use e = true -> c_string (m_name e) <> c_string name
  end.

Lemma find_endpoint_by_name_safe name k :
  runtime_wf (runtime k) -> 0 ∈ name ->
  twp (find_endpoint_by_name name) (fun i k' => k' = k /\ found_by_name (runtime k) name i) k.
Proof.
  intros Hr Hn. apply twp_bind. cbn.
  destruct (find_name_loop_spec (m_endpoints (runtime k)) 0 name Hn) as (i & E & Hi).
  { apply Forall_lookup. intros i e He. by eapply endpoint_terminated, wf_endpoint. }
  eapply twp_in_bounds; [exact E|]. split; [done|]. destruct i as [i|]; [|done].
  destruct Hi as (e & _ & He & Hu & Ee). rewrite Nat.sub_0_r in He. by exists e.
Qed.

Lemma find_free_endpoint_safe k Q :
  (forall i, (forall j, i = Some j -> exists e, m_endpoints (runtime k) !! j = Some e /\ m_is_in_use e = false) -> Q i k) ->
  twp find_free_endpoint Q k.
Proof.
  intros HQ. apply twp_gets, HQ. intros j. destruct (list_find _ _) as [[n e]|] eqn:E; [|done]. cbn. intros [= <-].
  apply list_find_Some in E as (He & Hu & _). by exists e.
Qed.

Lemma clear_endpoints_owned_by_safe t k :
  runtime_wf (runtime k) -> twp (clear_endpoints_owned_by t) (ok_current k) k.
Proof. intros Hr. apply twp_set_runtime. split; [|done]. split; [by apply clear_endpoints_wf|by constructor]. Qed.

(** ** Channels *)

Lemma keeps_update_channel i f k :
  runtime_wf (runtime k) -> live_channel (runtime k) i ->
  (forall c, get_by_index (m_channels (runtime k)) i = Some c ->
     channel_wf (live_process (runtime k)) (live_thread (runtime k)) c ->
     get_handle (f c) = get_handle c /\ channel_wf (live_process (runtime k)) (live_thread (runtime k)) (f c)) ->
  twp (update i f) (ok_current k) k.
Proof.
  intros Hr [c Hc] Hf. destruct (Hf c Hc (wf_channel _ Hr i c Hc)) as [Hh Hwf].
  eapply twp_update; [exact Hc|]. split; [|done]. split; [by eapply update_channel_wf|].
  constructor; [done|done| |done]. intros j. unfold live_channel. cbn. rewrite (get_update_at _ _ _ _ c) by done.
  destruct (decide (i = j)) as [<-|]; [|done]. rewrite Hc. by split; eexists.
Qed.

Lemma set_endpoint_busy_safe c b k :
  runtime_wf (runtime k) -> channel_wf (live_process (runtime k)) (live_thread (runtime k)) c ->
  twp (set_endpoint_busy c b) (ok_current k) k.
Proof.
  intros Hr Hc. unfold set_endpoint_busy. pose proof (channel_endpoint _ _ _ Hc) as He.
  destruct (m_endpoint c) as [e|]; [by apply set_busy_safe, He|]. apply twp_ret. by apply keeps_current_refl.
Qed.

Lemma begin_call_safe i client server k :
  runtime_wf (runtime k) -> live_channel (runtime k) i -> live_thread (runtime k) client -> live_thread (runtime k) server ->
  twp (begin_call i client server) (ok_current k) k.
Proof.
  intros Hr Hi Hc Hs. destruct Hs as [t Ht]. apply twp_bind. eapply twp_read_at; [exact Ht|].
  eapply twp_seq.
  { apply keeps_update_channel; [done..|]. intros c _ []. destruct (wf_thread _ Hr server t Ht).
    split; [done|]. constructor; cbn; try done; [by apply points_to_Some..|]. apply points_to_Some. by exists t. }
  intros [] k1 K1. pose proof (live_channel_keeps k k1 i (proj1 K1) Hi) as [c Hc1].
  apply twp_bind. eapply twp_read_at; [exact Hc1|].
  eapply twp_mono; [apply set_endpoint_busy_safe; [apply K1|eapply wf_channel; [apply K1|exact Hc1]]|].
  eauto with kernel.
Qed.

Lemma cancel_call_safe i k :
  runtime_wf (runtime k) -> live_channel (runtime k) i -> twp (cancel_call i) (ok_current k) k.
Proof.
  intros Hr Hi. destruct Hi as [c Hc]. apply twp_bind. eapply twp_read_at; [exact Hc|].
  eapply twp_seq; [apply set_endpoint_busy_safe; [done|by eapply wf_channel]|]. intros [] k1 K1.
  eapply twp_mono; [apply keeps_update_channel; [apply K1|by eapply live_channel_keeps; [apply K1|eexists]|]|eauto with kernel].
  intros x _ []. split; [done|]. by constructor.
Qed.

Lemma finish_call_safe i c k :
  runtime_wf (runtime k) -> get_by_index (m_channels (runtime k)) i = Some c ->
  points_to (fun s => m_current_thread (runtime k) = Some s) (m_pending_server_thread c) ->
  twp (finish_call i) (ok_current k) k.
Proof.
  intros Hr Hc Hs. apply twp_bind. eapply twp_read_at; [exact Hc|].
  pose proof (wf_channel _ Hr i c Hc) as Hcw. pose proof (channel_server _ _ _ Hcw) as Hsl.
  apply (twp_seq _ _ _ (ok_current k)).
  - destruct (m_pending_server_thread c) as [s|]; [|by apply twp_ret, keeps_current_refl].
    apply keeps_update_thread; [done|by apply Hsl|]. destruct Hcw. intros t _ []. split; [done|]. constructor; try done.
    intros _. by apply Hs.
  - intros [] k1 K1. eapply twp_mono; [apply cancel_call_safe; [apply K1|]|eauto with kernel].
    eapply live_channel_keeps; [apply K1|by eexists].
Qed.

Lemma pending_channel_of_Some p s i :
  pending_channel_of p s = Some i ->
  exists c, get_by_index p i = Some c /\ m_pending_server_thread c = s /\ s <> None /\
    forall j c', (j < i)%nat -> get_by_index p j = Some c' -> m_pending_server_thread c' <> s.
Proof.
  unfold pending_channel_of. case_bool_decide as Hs; [done|]. destruct (list_find _ _) as [[j c]|] eqn:E; [|done].
  cbn. intros [= <-]. apply list_find_Some in E as (Hc & Hp & Hb). destruct c as [c|]; [|done].
  exists c. split_and!; [by apply get_by_index_lookup|done|done|].
  intros m c' Hm Hc' E. eapply (Hb m (Some c')); [by apply get_by_index_lookup|done|done].
Qed.

Lemma pending_channel_of_None p s j c :
  s <> None -> pending_channel_of p s = None -> get_by_index p j = Some c -> m_pending_server_thread c <> s.
Proof.
  unfold pending_channel_of. intros Hs. rewrite bool_decide_eq_false_2 by done.
  destruct (list_find _ _) as [[]|] eqn:E; [done|]. intros _ Hc%get_by_index_lookup Hp.
  apply list_find_None in E. eapply Forall_lookup_1 in E; [|exact Hc]. by apply E.
Qed.

Lemma wake_client_safe `{Target} t st k :
  runtime_wf (runtime k) -> live_thread (runtime k) t -> twp (wake_client t st) (ok_current k) k.
Proof.
  intros Hr Ht. eapply twp_seq; [by apply set_state_safe|]. intros [] k1 K1.
  eapply twp_mono; [apply keeps_update_thread; [apply K1|eapply live_thread_keeps; [apply K1|done]|]|eauto with kernel].
  intros u _ []. unfold prepare_syscall_resume. destruct target; (split; [done|by constructor]).
Qed.

Lemma complete_call_safe `{Target} s st k :
  runtime_wf (runtime k) -> m_current_thread (runtime k) = Some s -> twp (complete_call s st) (ok k) k.
Proof.
  intros Hr Hs. apply twp_bind, twp_gets. destruct (pending_channel_of _ _) as [i|] eqn:E.
  2: { by apply twp_ret, keeps_refl. }
  apply pending_channel_of_Some in E as (c & Hc & Hp & _). apply twp_bind. eapply twp_read_at; [exact Hc|]. cbv zeta.
  eapply twp_seq; [eapply finish_call_safe; [done|exact Hc|rewrite Hp; by intros ? [= <-]]|]. intros [] k1 K1.
  case_bool_decide; [apply twp_ret; apply K1|].
  pose proof (channel_client _ _ _ (wf_channel _ Hr i c Hc)) as Hcl.
  destruct (m_pending_client_thread c) as [client|]; [|apply twp_ret; apply K1].
  eapply twp_seq; [apply wake_client_safe; [apply K1|eapply live_thread_keeps; [apply K1|by apply Hcl]]|].
  intros [] k2 K2. eapply twp_seq.
  { apply set_current_thread_safe; [apply K2|]. apply points_to_Some.
    do 2 (eapply live_thread_keeps; [eauto with kernel|]). by apply Hcl. }
  intros [] k3 [K3 _]. apply twp_ret. eauto with kernel.
Qed.

Lemma fail_pending_call_safe `{Target} s st k :
  runtime_wf (runtime k) -> twp (fail_pending_call s st) (ok_current k) k.
Proof.
  intros Hr. apply twp_bind, twp_gets. destruct (pending_channel_of _ _) as [i|] eqn:E.
  2: { by apply twp_ret, keeps_current_refl. }
  apply pending_channel_of_Some in E as (c & Hc & Hp & _). apply twp_bind. eapply twp_read_at; [exact Hc|]. cbv zeta.
  eapply twp_seq; [apply cancel_call_safe; [done|by exists c]|]. intros [] k1 K1.
  pose proof (channel_client _ _ _ (wf_channel _ Hr i c Hc)) as Hcl.
  apply (twp_seq _ _ _ (ok_current k)).
  - destruct (m_pending_client_thread c) as [client|]; [|done]. case_bool_decide; [done|].
    eapply twp_mono; [apply wake_client_safe; [apply K1|]|eauto with kernel].
    eapply live_thread_keeps; [apply K1|by apply Hcl].
  - intros [] k2 K2. by apply twp_ret.
Qed.

Lemma handle_thread_exit_safe `{Target} t st k :
  runtime_wf (runtime k) -> twp (handle_thread_exit t st) (ok_current k) k.
Proof.
  intros Hr. eapply twp_seq; [by apply fail_pending_call_safe|]. intros ? k1 K1.
  eapply twp_mono; [apply clear_endpoints_owned_by_safe, K1|]. intros [] k2 K2. exact (keeps_current_trans _ _ _ K1 K2).
Qed.

(** ** The system calls *)

Lemma twp_same {A} (m : K A) Q k : twp m (fun _ k' => k' = k) k -> (forall a, Q a k) -> twp m Q k.
Proof. intros Hm HQ. eapply twp_mono; [exact Hm|]. intros a k' ->. apply HQ. Qed.

Lemma prepare_server_thread_safe `{Target} e s cp x n k :
  runtime_wf (runtime k) -> endpoint_wf (live_process (runtime k)) (live_thread (runtime k)) e ->
  live_thread (runtime k) s -> live_process (runtime k) cp -> 0 <= n ->
  twp (prepare_server_thread e s cp x n) (ok_current k) k.
Proof.
  intros Hr He Hs Hcp Hn. pose proof (keeps_current_refl k Hr) as Hk. unfold prepare_server_thread.
  pose proof (endpoint_process _ _ _ He) as Hp. destruct (m_owner_process e) as [p|]; [|done]. specialize (Hp p eq_refl).
  destruct (_ || _ || _) eqn:Ea; [done|]. bool_hyps. unfold RINGOS_RPC_MAX_REQUEST_SIZE in *.
  destruct (_ || _); [done|].
  apply twp_bind, twp_same; [by apply validate_user_range_safe|]. intros []; cbn [negb]; [|done].
  apply twp_bind, twp_same; [by apply validate_user_range_safe|]. intros []; cbn [negb]; [|done].
  destruct Hs as [t Ht]. apply twp_bind. eapply twp_read_at; [exact Ht|].
  destruct (_ =? 0); [done|].
  assert (forall k1 cb cm a1 a2 sp, keeps_current k k1 ->
    twp (update s (fun t => prepare_rpc_resume t cb cm a1 a2 sp);; mret STATUS_OK) (ok_current k) k1) as Hresume.
  { intros k1 cb cm a1 a2 sp K1. eapply twp_seq.
    - apply keeps_update_thread; [apply K1|eapply live_thread_keeps; [apply K1|by exists t]|].
      intros u _ []. split; [done|by constructor].
    - intros [] k2 K2. apply twp_ret. eauto with kernel. }
  destruct target; (destruct (_ <=? _); [done|]).
  - destruct (_ <=? 8); [done|]. eapply twp_seq; [apply copy_between_safe; [done..|unfold u64_ok; lia]|].
    intros st k1 K1. destruct (negb _); [by apply twp_ret|].
    eapply twp_seq; [apply write_user_bytes_safe; [apply K1|eapply live_process_keeps; [apply K1|done]|]|].
    { rewrite length_le_encode. unfold u64_ok. lia. }
    intros st2 k2 K2. assert (keeps_current k k2) as K3 by exact (keeps_current_trans _ _ _ K1 K2).
    destruct (negb _); [by apply twp_ret|]. by apply Hresume.
  - eapply twp_seq; [apply copy_between_safe; [done..|unfold u64_ok; lia]|].
    intros st k1 K1. destruct (negb _); [by apply twp_ret|]. by apply Hresume.
Qed.

(** The arguments of a trap are 64-bit words. *)
Record syscall_context_ok (c : user_syscall_context) : Prop := {
  ok_argument0 : u64_ok (argument0 c);
  ok_argument1 : u64_ok (argument1 c);
  ok_argument2 : u64_ok (argument2 c);
}.

Lemma rpc_register_safe `{Target} t p c k :
  runtime_wf (runtime k) -> live_thread (runtime k) t -> live_process (runtime k) p -> syscall_context_ok c ->
  twp (rpc_register t p c) (ok k) k.
Proof.
  intros Hr Ht Hp Hc. pose proof (keeps_refl k Hr) as Hk. unfold rpc_register. destruct (_ || _ || _); [done|].
  apply twp_bind, twp_same; [by apply validate_user_range_safe|]. intros []; cbn [negb]; [|done].
  apply twp_bind, twp_same; [by apply validate_user_range_safe|]. intros []; cbn [negb]; [|done].
  eapply twp_seq; [apply copy_user_string_safe; [done|done|apply Hc|unfold NAME_CAPACITY; lia]|].
  intros [st name] ? [-> Hname]. cbn in Hname. destruct (Z.eqb_spec st STATUS_OK) as [Es|]; cbn; [|done].
  destruct (Hname Es) as [Hz Hl].
  eapply twp_seq; [by apply find_endpoint_by_name_safe|]. intros [|] ? [-> Hfound]; [done|]. cbn in Hfound.
  apply twp_bind, find_free_endpoint_safe. intros [e|] Hfree; [|done]. destruct (Hfree e eq_refl) as (x & Hx & Hu).
  destruct (initialize_endpoint_spec p t name (argument1 c) (argument2 c) Hz Hl) as (n & En & Hn & Hnz & Ec).
  apply twp_bind. eapply twp_in_bounds; [exact En|]. apply (twp_seq _ _ _ (ok_current k)).
  - apply keeps_write_endpoint; [done|by eapply lookup_lt_Some| |].
    + constructor; cbn; eauto; done.
    + cbn. intros _ j e' Hj Hu' E. rewrite Ec in E. exfalso. by apply (Hfound j e').
  - intros [] k1 K1. pose proof (keeps_current_keeps _ _ K1) as K1'. apply twp_bind, twp_gets.
    pose proof (next_ready_live (runtime k1) (Some t)) as Hlive. destruct (next_ready _ _) as [next|]; [|done].
    apply twp_bind, twp_gets. destruct (pending_channel_of _ _); [done|].
    eapply twp_seq; [apply keeps_update_thread; [apply K1|by eapply live_thread_keeps|]|].
    { intros u _ []. unfold prepare_syscall_resume. destruct target; (split; [done|by constructor]). }
    intros [] k2 [K2 _]. eapply twp_seq; [apply set_current_thread_safe; [apply K2|]|].
    { apply points_to_Some. eapply live_thread_keeps; [exact K2|]. by apply Hlive. }
    intros [] k3 [K3 _]. apply twp_ret. eauto with kernel.
Qed.

Lemma find_in_safe {A} `{RuntimePool A} h k : twp (find_in (A := A) h) (fun _ k' => k' = k) k.
Proof. done. Qed.

Lemma not_a_channel_safe h k : twp (not_a_channel h) (fun _ k' => k' = k) k.
Proof.
  apply twp_bind, twp_bind. apply twp_same; [apply find_in_safe|]. intros [|]; [done|].
  apply twp_bind, twp_same; [apply find_in_safe|]. intros [|]; [done|].
  apply twp_bind, twp_same; [apply find_in_safe|]. intros [|]; [done|].
  apply twp_bind, twp_same; [apply find_in_safe|]. done.
Qed.

Lemma rpc_call_safe `{Target} t p c k :
  runtime_wf (runtime k) -> live_thread (runtime k) t -> live_process (runtime k) p -> syscall_context_ok c ->
  twp (rpc_call t p c) (ok k) k.
Proof.
  intros Hr Ht Hp Hc. pose proof (keeps_refl k Hr) as Hk. unfold rpc_call. destruct (_ || _ || _); [done|].
  destruct (_ <? _); [done|]. apply twp_bind, twp_gets.
  destruct (find_by_handle _ _) as [i|] eqn:Ei.
  2: { apply twp_same; [apply not_a_channel_safe|done]. }
  apply (find_by_handle_spec _ _ _ _ (wf_channels _ Hr)) in Ei as (ch & Hch & _).
  apply twp_bind. eapply twp_read_at; [exact Hch|]. destruct (negb _); [done|].
  pose proof (channel_endpoint _ _ _ (wf_channel _ Hr i ch Hch)) as Hep.
  destruct (m_endpoint ch) as [e|]; [|done]. destruct (endpoint_lookup _ e Hr (Hep e eq_refl)) as [x Hx].
  apply twp_bind. eapply twp_read_endpoint; [exact Hx|]. pose proof (wf_endpoint _ Hr e x Hx) as Hxw.
  pose proof (endpoint_thread _ _ _ Hxw) as Hot. destruct (m_owner_thread x) as [s|]; [|done]. specialize (Hot s eq_refl).
  apply twp_bind, get_state_safe; [done|]. intros u Hu. case_bool_decide; [done|]. destruct (_ || _ || _); [done|].
  eapply twp_seq; [apply prepare_server_thread_safe; [done..|apply Hc]|].
  intros st k1 K1. pose proof (keeps_current_keeps _ _ K1) as K1'. destruct (negb _); [done|].
  eapply twp_seq; [apply begin_call_safe; [apply K1|eapply live_channel_keeps; [done|by exists ch]|by eapply live_thread_keeps..]|].
  intros [] k2 [K2 _]. pose proof (keeps_trans _ _ _ K1' K2) as K3. apply (twp_seq _ _ _ (ok k)); [|done].
  case_bool_decide; [|done]. eapply twp_seq; [apply set_state_safe; [apply K3|by eapply live_thread_keeps|done]|].
  intros [] k4 [K4 _]. eapply twp_mono.
  - apply set_current_thread_safe; [apply K4|]. apply points_to_Some. eauto with kernel.
  - intros [] k5 [K5 _]. eauto with kernel.
Qed.

(** ** Channels come and go *)

(** Other pools do not see a larger handle counter. *)
Lemma next_handle_wf r next : runtime_wf r -> m_next_handle_value r <= next -> runtime_wf (with_next_handle_value r next).
Proof.
  intros Hr Hle. destruct Hr. constructor; cbn; try done; try (by eapply pool_wf_mono). lia.
Qed.

Lemma emplace_channel_wf r p e :
  runtime_wf r -> live_process r p -> (e < USER_RUNTIME_MAX_RPC_ENDPOINTS)%nat -> m_next_handle_value r < 2 ^ 64 - 1 ->
  let '(i, pl, next) := emplace (m_channels r) (m_next_handle_value r) (make_rpc_channel p e) in
  runtime_wf (with_next_handle_value (with_channels r pl) next) /\
  match i with
  | Some i => emplaced (m_channels r) pl (m_next_handle_value r) next (make_rpc_channel p e) i
  | None => pl = m_channels r /\ next = m_next_handle_value r
  end.
Proof.
  intros Hr Hp He Hn. pose proof (wf_next _ Hr) as H1.
  pose proof (emplace_wf (m_channels r) (m_next_handle_value r) (make_rpc_channel p e) (wf_channels _ Hr)
    ltac:(done) ltac:(lia)) as Hem.
  destruct (emplace _ _ _) as [[[i|] pl] next]; destruct Hem as [Hpl Hem].
  - split; [|done]. pose proof (emplaced_next _ _ _ _ _ _ Hem) as ->.
    pose proof (wf_channel _ Hr) as Hold.
    pose proof (next_handle_wf r (m_next_handle_value r + 1) Hr ltac:(lia)) as [].
    constructor; cbn in *; try done; [by rewrite (emplaced_capacity _ _ _ _ _ _ Hem)|].
    intros j c Hj. destruct (decide (j = i)) as [->|Hne].
    + rewrite (emplaced_object _ _ _ _ _ _ Hem) in Hj. injection Hj as <-. constructor; cbn; eauto; done.
    + rewrite (emplaced_others _ _ _ _ _ _ Hem j Hne) in Hj. by apply Hold in Hj.
  - destruct Hem as (_ & -> & ->). split; [|done]. destruct Hr. by constructor.
Qed.

(** The invariant holds, the processes are the same, the same threads are
    alive, and at most one handle has been issued. *)
Record preserves (k k' : kernel) : Prop := {
  preserves_wf : runtime_wf (runtime k');
  preserves_processes : m_processes (runtime k') = m_processes (runtime k);
  preserves_threads i : live_thread (runtime k') i <-> live_thread (runtime k) i;
  preserves_next : m_next_handle_value (runtime k) <= m_next_handle_value (runtime k') <= m_next_handle_value (runtime k) + 1;
}.

Lemma keeps_preserves k k' : keeps k k' -> preserves k k'.
Proof. intros [Hr [Fp Ft Fc Fn]]. constructor; [done..|]. rewrite Fn. lia. Qed.

Lemma preserves_keeps k k1 k2 : preserves k k1 -> keeps k1 k2 -> preserves k k2.
Proof.
  intros [P1 P2 P3 P4] [Hr [Fp Ft Fc Fn]]. constructor; [done|congruence| |by rewrite Fn]. intros i. by rewrite Ft.
Qed.

Lemma keeps_then_preserves k k1 k2 : keeps k k1 -> preserves k1 k2 -> preserves k k2.
Proof.
  intros [Hr [Fp Ft Fc Fn]] [P1 P2 P3 P4]. constructor; [done|congruence| |by rewrite <- Fn]. intros i. by rewrite P3.
Qed.

Lemma preserves_trans k k1 k2 :
  preserves k k1 -> preserves k1 k2 -> m_next_handle_value (runtime k2) = m_next_handle_value (runtime k1) -> preserves k k2.
Proof.
  intros [P1 P2 P3 P4] [Hw Hp Ht _] E. constructor; [done|congruence| |by rewrite E]. intros i. by rewrite Ht.
Qed.

Lemma erase_channel_safe h k :
  runtime_wf (runtime k) ->
  twp (erase_in (A := rpc_channel) h)
    (fun _ k' => preserves k k' /\ m_next_handle_value (runtime k') = m_next_handle_value (runtime k)) k.
Proof.
  intros Hr. apply twp_bind. cbn -[erase_by_handle]. pose proof (erase_channel_wf (runtime k) Hr h) as Hw.
  destruct (erase_by_handle _ h) as [b pl]. apply twp_bind, twp_set_runtime, twp_ret.
  split; [|done]. constructor; [done|done|done|cbn; lia].
Qed.

Lemma rpc_close_safe p c k : runtime_wf (runtime k) -> twp (rpc_close p c) (fun _ => preserves k) k.
Proof.
  intros Hr. pose proof (keeps_preserves _ _ (keeps_refl k Hr)) as Hk. unfold rpc_close. destruct (_ =? _); [done|].
  apply twp_bind, twp_gets. destruct (find_by_handle _ _) as [i|] eqn:Ei.
  2: { apply twp_same; [apply not_a_channel_safe|done]. }
  apply (find_by_handle_spec _ _ _ _ (wf_channels _ Hr)) in Ei as (ch & Hch & _).
  apply twp_bind. eapply twp_read_at; [exact Hch|]. destruct (negb _); [done|]. destruct (channel_is_busy ch); [done|].
  eapply twp_seq; [by apply erase_channel_safe|]. intros b k1 [K1 _]. by apply twp_ret.
Qed.

(** A new channel, its handle delivered to the user or the channel erased again. *)
Lemma rpc_open_safe t p c k :
  runtime_wf (runtime k) -> live_thread (runtime k) t -> live_process (runtime k) p -> syscall_context_ok c ->
  m_next_handle_value (runtime k) < 2 ^ 64 - 1 ->
  twp (rpc_open t p c) (fun _ => preserves k) k.
Proof.
  intros Hr Ht Hp Hc Hn. pose proof (keeps_preserves _ _ (keeps_refl k Hr)) as Hk. unfold rpc_open.
  destruct (_ || _); [done|].
  eapply twp_seq; [apply copy_user_string_safe; [done|done|apply Hc|unfold NAME_CAPACITY; lia]|].
  intros [st name] ? [-> Hname]. cbn in Hname. destruct (Z.eqb_spec st STATUS_OK) as [Es|]; cbn [negb]; [|done].
  destruct (Hname Es) as [Hz _].
  eapply twp_seq; [by apply find_endpoint_by_name_safe|]. intros [e|] ? [-> Hfound]; [|done].
  destruct Hfound as (x & Hx & _). apply twp_bind. eapply twp_read_endpoint; [exact Hx|].
  pose proof (endpoint_thread _ _ _ (wf_endpoint _ Hr e x Hx)) as Hot.
  destruct (m_owner_thread x) as [s|]; [|done]. apply twp_bind, get_state_safe; [by apply Hot|]. intros u Hu.
  case_bool_decide; [done|].
  assert (e < USER_RUNTIME_MAX_RPC_ENDPOINTS)%nat as He.
  { rewrite <- (wf_endpoint_count _ Hr). by eapply lookup_lt_Some. }
  pose proof (emplace_channel_wf (runtime k) p e Hr Hp He Hn) as Hem.
  apply twp_bind, twp_bind. cbn -[emplace le_encode].
  destruct (emplace _ _ _) as [[i pl] next]. destruct Hem as [Hw Hem]. apply twp_bind, twp_set_runtime.
  set (k1 := with_runtime k _). apply twp_ret.
  destruct i as [i|].
  2: { apply twp_ret. destruct Hem as [-> ->]. constructor; [exact Hw|done|done|cbn; lia]. }
  assert (preserves k k1) as P1.
  { constructor; [exact Hw|done|done|]. cbn. rewrite (emplaced_next _ _ _ _ _ _ Hem). lia. }
  assert (live_channel (runtime k1) i) as Hi by (eexists; apply (emplaced_object _ _ _ _ _ _ Hem)).
  assert (live_process (runtime k1) p) as Hp1 by done. clearbody k1. eapply twp_seq.
  { apply keeps_update_channel; [apply P1|exact Hi|]. intros ch Hch []. split; [done|by constructor]. }
  intros [] k2 [K2 _]. destruct (live_channel_keeps _ _ i K2 Hi) as [ch Hch].
  apply twp_bind. eapply twp_read_at; [exact Hch|]. cbv zeta.
  eapply twp_seq; [apply write_user_bytes_safe; [apply K2|by eapply live_process_keeps|rewrite length_le_encode; unfold u64_ok; lia]|].
  intros st2 k3 [K3 _]. assert (keeps k1 k3) as K13 by eauto with kernel.
  destruct (negb _).
  - eapply twp_seq; [apply erase_channel_safe, K3|]. intros b k4 [K4 E4]. apply twp_ret.
    eapply preserves_trans; [by eapply preserves_keeps|exact K4|exact E4].
  - apply twp_ret. by eapply preserves_keeps.
Qed.

Lemma rpc_dispatch_syscall_safe `{Target} t c k :
  runtime_wf (runtime k) -> m_current_thread (runtime k) = Some t -> syscall_context_ok c ->
  m_next_handle_value (runtime k) < 2 ^ 64 - 1 ->
  twp (rpc_dispatch_syscall t c) (fun _ => preserves k) k.
Proof.
  intros Hr Ht Hc Hn. pose proof (wf_current _ Hr t Ht) as Hl. destruct Hl as [u Hu].
  destruct (thread_process _ _ _ _ (wf_thread _ Hr t u Hu)) as (p & Hp & Hpl).
  assert (live_thread (runtime k) t) as Hl by (by exists u).
  apply twp_bind. eapply twp_read_at; [exact Hu|]. rewrite Hp.
  assert (forall m : K Z, twp m (ok k) k -> twp m (fun _ => preserves k) k) as Hok.
  { intros m Hm. eapply twp_mono; [exact Hm|]. intros a k' K'. by apply keeps_preserves. }
  destruct (_ =? _); [by apply Hok, rpc_register_safe|].
  destruct (_ =? _); [by apply rpc_open_safe|].
  destruct (_ =? _); [by apply Hok, rpc_call_safe|].
  destruct (_ =? _); [by apply rpc_close_safe|].
  destruct (_ =? _); [by apply Hok, complete_call_safe|].
  apply twp_ret, keeps_preserves. by apply keeps_refl.
Qed.
