(* ===== verification/SyscallSafety.v ===== *)
(** Safety of the system call layer: the dispatcher, thread exit, the start of
    the runtime and the x86-64 entry keep the runtime well formed. *)
From S2P Require Import Prelude AddressSpace UserMemory KernelObjectPool RuntimeTypes UserRuntime Rpc Syscalls RuntimeInvariant KernelSafety RpcSafety.

(** A runtime in which a system call may be made: it is well formed, and the
    64-bit handle counter has not reached its end. *)
Definition syscall_ready (k : kernel) : Prop :=
  runtime_wf (runtime k) /\ m_next_handle_value (runtime k) < 2 ^ 64 - 1.

Definition nothing_runs (k : kernel) : Prop :=
  forall i t, get_by_index (m_threads (runtime k)) i = Some t -> m_state t <> USER_THREAD_STATE_RUNNING.

(** When only [a] may run, an update that leaves it in another state stops everything. *)
Lemma stop_thread_safe a f k :
  runtime_wf (runtime k) -> live_thread (runtime k) a -> only_runs (Some a) k ->
  (forall t, get_handle (f t) = get_handle t /\ m_process (f t) = m_process t /\
     m_arch_preserved_registers (f t) = m_arch_preserved_registers t /\
     m_arch_preserved_simd_qwords (f t) = m_arch_preserved_simd_qwords t) ->
  (forall t, get_by_index (m_threads (runtime k)) a = Some t -> m_state (f t) <> USER_THREAD_STATE_RUNNING) ->
  twp (update a f) (fun _ k' => keeps k k' /\ nothing_runs k') k.
Proof.
  intros Hr [t Ht] Hruns Hf Hs. destruct (Hf t) as (Eh & Ep & Er & Eq). specialize (Hs t Ht).
  eapply twp_update; [exact Ht|]. split.
  - split; [eapply update_thread_wf; [done|exact Ht|done|]|].
    + destruct (wf_thread _ Hr a t Ht). constructor; rewrite ?Ep, ?Er, ?Eq; try done.
    + constructor; [done| |done|done]. intros j. by eapply live_update.
  - intros i u. cbn. rewrite (get_update_at _ _ _ _ t) by done. destruct (decide (a = i)) as [<-|]; [by intros [= <-]|].
    intros Hu HR. pose proof (Hruns i u Hu HR). congruence.
Qed.

Lemma terminate_current_thread_safe `{Target} exit_status failure k :
  runtime_wf (runtime k) -> twp (terminate_current_thread exit_status failure) (ok k) k.
Proof.
  intros Hr. unfold terminate_current_thread. apply twp_bind, twp_gets.
  destruct (m_current_thread (runtime k)) as [a|] eqn:Ea; [|by apply twp_ret, keeps_refl].
  pose proof (wf_current _ Hr a Ea) as Hl.
  eapply twp_seq; [by apply handle_thread_exit_safe|]. intros [] k1 [K1 E1].
  pose proof (only_current_runs k1 (proj1 K1)) as Hrun1. rewrite E1, Ea in Hrun1.
  eapply twp_seq; [apply stop_thread_safe; [apply K1|by eapply live_thread_keeps|done|done|done]|].
  intros [] k2 [K2 Hnone]. pose proof (keeps_trans _ _ _ K1 K2) as K12.
  eapply twp_seq; [apply stop_thread_safe; [apply K2|by eapply live_thread_keeps| |done|]|].
  { intros i t Ht HR. by apply Hnone in Ht. }
  { intros t Ht. by apply (Hnone a t Ht). }
  intros [] k3 [K3 Hnone3]. eapply twp_mono; [by apply schedule_next_ready_thread_safe; [apply K3|]|].
  intros b k4 K4. exact (keeps_trans _ _ _ (keeps_trans _ _ _ K12 K3) K4).
Qed.

Lemma dispatch_syscall_preserves `{Target} c k :
  syscall_ready k -> syscall_context_ok c -> twp (dispatch_syscall c) (fun _ => preserves k) k.
Proof.
  intros [Hr Hn] Hc. unfold dispatch_syscall. apply twp_bind, twp_gets.
  pose proof (keeps_refl k Hr) as Hk.
  destruct (m_current_thread (runtime k)) as [a|] eqn:Ea; [|by apply twp_ret, keeps_preserves].
  destruct (wf_current _ Hr a Ea) as [t Ht]. apply twp_bind. eapply twp_read_at; [exact Ht|].
  destruct (thread_process _ _ _ _ (wf_thread _ Hr a t Ht)) as (p & -> & Hp).
  eapply twp_seq.
  { apply keeps_update_thread; [done|by exists t|]. intros u _ []. split; [done|by constructor]. }
  intros [] k1 [K1 E1]. rewrite Ea in E1.
  assert (m_next_handle_value (runtime k1) < 2 ^ 64 - 1) as Hn1 by (rewrite (frame_next _ _ (proj2 K1)); done).
  assert (forall m : K Z, twp m (fun _ => preserves k1) k1 -> twp m (fun _ => preserves k) k1) as Hpre.
  { intros m Hm. eapply twp_mono; [exact Hm|]. intros st k2 K2. by eapply keeps_then_preserves. }
  assert (preserves k1 k1) as P1 by (apply keeps_preserves, keeps_refl, K1).
  destruct (_ =? SYSCALL_DEBUG_LOG).
  { destruct (_ =? _); [by apply Hpre, twp_ret|].
    eapply twp_seq; [apply copy_user_string_safe; [apply K1|apply (wf_current _ (proj1 K1) a E1)|apply Hc|unfold message_buffer_size; lia]|].
    intros [st message] ? [-> _]. destruct (negb _); [by apply Hpre, twp_ret|].
    apply Hpre. eapply twp_seq; [apply twp_emit, K1|]. intros [] k2 [K2 _]. by apply twp_ret, keeps_preserves. }
  destruct (_ =? SYSCALL_THREAD_EXIT).
  { apply Hpre. eapply twp_seq; [apply terminate_current_thread_safe, K1|]. intros b k2 K2. by apply twp_ret, keeps_preserves. }
  case_bool_decide; [apply Hpre, rpc_dispatch_syscall_safe; [apply K1|done..]|].
  destruct (_ =? _); [destruct (_ || _)|]; by apply Hpre, twp_ret.
Qed.

(** ** The entry on x86-64 *)

Lemma load_user_thread_frame_safe t k :
  length (m_arch_preserved_registers t) = USER_THREAD_ARCH_PRESERVED_REGISTER_COUNT ->
  twp (load_user_thread_frame t) (fun _ k' => k' = k) k.
Proof.
  intros Hl. unfold load_user_thread_frame. cbv zeta.
  assert (forall i (f : Z -> K x64_syscall_frame), (i < 12)%nat -> (forall v, twp (f v) (fun _ k' => k' = k) k) ->
    twp (v ← in_bounds (m_arch_preserved_registers t !! i); f v) (fun _ k' => k' = k) k) as Hstep.
  { intros i f Hi Hf. destruct (lookup_lt_is_Some_2 (m_arch_preserved_registers t) i) as [v Hv].
    - rewrite Hl. unfold USER_THREAD_ARCH_PRESERVED_REGISTER_COUNT. lia.
    - apply twp_bind. eapply twp_in_bounds; [exact Hv|apply Hf]. }
  assert (forall b (v : Z) i (f : Z -> K x64_syscall_frame), (i < 12)%nat -> (forall v, twp (f v) (fun _ k' => k' = k) k) ->
    twp (v ← (if (b : bool) then mret v else in_bounds (m_arch_preserved_registers t !! i)); f v) (fun _ k' => k' = k) k) as Hif.
  { intros [] v i f Hi Hf; [apply Hf|by apply Hstep]. }
  do 2 (apply Hif; [vm_compute; lia|]; intros ?).
  repeat (apply Hstep; [vm_compute; lia|]; intros ?). by apply twp_ret.
Qed.

(** The registers are 64-bit words, and the array of the frame has its 20 elements. *)
Definition frame_ok (f : x64_syscall_frame) : Prop :=
  u64_ok (rdi f) /\ u64_ok (rsi f) /\ u64_ok (rdx f) /\
  length (preserved_xmm_qwords f) = USER_THREAD_ARCH_PRESERVED_SIMD_QWORD_COUNT.

(** With a current thread there is no panic, and the frame returned to user
    mode is that of a live thread. *)
Lemma x64_handle_syscall_preserves f k :
  syscall_ready k -> frame_ok f -> is_Some (m_current_thread (runtime k)) ->
  twp (x64_handle_syscall (Some f))
    (fun r k' => preserves k k' /\ exists b f', r = continues (b, f') /\ (b = true -> is_Some (m_current_thread (runtime k')))) k.
Proof.
  intros [Hr Hn] (Hdi & Hsi & Hdx & Hq) [a Ea]. unfold x64_handle_syscall. apply twp_bind, twp_gets. rewrite Ea.
  eapply twp_seq.
  { apply keeps_update_thread; [done|by apply (wf_current _ Hr)|]. intros t _ []. split; [done|].
    constructor; try done. cbn [m_arch_preserved_registers save_preserved with_preserved]. by rewrite !length_insert. }
  intros [] k1 [K1 E1]. eapply twp_seq.
  { apply dispatch_syscall_preserves; [split; [apply K1|by rewrite (frame_next _ _ (proj2 K1))]|by constructor]. }
  intros st k2 P2. pose proof (keeps_then_preserves _ _ _ K1 P2) as P. pose proof (preserves_wf _ _ P) as Hr2.
  apply twp_bind, twp_same; [by apply has_runnable_thread_safe|]. intros [|]; cbn [negb].
  2: { apply twp_ret. split; [done|]. by exists false, f. }
  apply twp_bind, twp_gets. destruct (m_current_thread (runtime k2)) as [b|] eqn:Eb.
  2: { apply twp_ret. split; [done|]. by exists false, f. }
  pose proof (wf_current _ Hr2 b Eb) as Hb.
  apply (twp_seq _ _ _ (ok_current k2)).
  - case_bool_decide; [|by apply twp_ret, keeps_current_refl]. apply keeps_update_thread; [done|done|].
    intros t _ []. split; [done|by constructor].
  - intros [] k3 [K3 E3]. destruct (live_thread_keeps _ _ b K3 Hb) as [t Ht].
    apply twp_bind. eapply twp_read_at; [exact Ht|].
    apply twp_bind, twp_same; [apply load_user_thread_frame_safe, (thread_registers _ _ _ _ (wf_thread _ (proj1 K3) b t Ht))|].
    intros f'. apply twp_bind, twp_same; [by apply has_runnable_thread_safe, K3|]. intros c. apply twp_ret.
    split; [by eapply preserves_keeps|]. exists c, f'. split; [done|]. intros _. rewrite E3, Eb. by eexists.
Qed.
