(* ===== verification/RuntimeStart.v ===== *)
(** The start of the runtime, and the safety of every run of the kernel on
    x86-64: from the start, through any sequence of system calls. *)
From Stdlib Require Import String.
From S2P Require Import Prelude AddressSpace UserMemory KernelObjectPool RuntimeTypes UserRuntime Rpc Syscalls RuntimeInvariant KernelSafety RpcSafety SyscallSafety.
#[local] Open Scope Z_scope.

(** ** Creating objects in fresh pools *)

(** No slot from [n] on is occupied. *)
Definition used {A} (p : kernel_object_pool A) (n : nat) : Prop := forall i, (n <= i)%nat -> get_by_index p i = None.

Lemma first_free_used {A} (p : kernel_object_pool A) n :
  used p n -> (n < capacity p)%nat -> is_Some (first_free p).
Proof.
  intros Hu Hn. unfold first_free. destruct (list_find _ _) as [[i s]|] eqn:E; [by eexists|].
  apply list_find_None in E. destruct (lookup_lt_is_Some_2 (m_items p) n Hn) as [s Hs].
  specialize (Hu n ltac:(lia)). unfold get_by_index in Hu. rewrite Hs in Hu. cbn in Hu. subst s.
  eapply Forall_lookup_1 in E; [|exact Hs]. done.
Qed.

(** [emplace] on a pool with a free slot. *)
Lemma emplace_used {A} `{KernelObject A} (p : kernel_object_pool A) next construct n :
  pool_wf p next -> (forall id h, get_handle (construct id h) = h) -> 1 <= next < 2 ^ 64 - 1 ->
  used p n -> (n < capacity p)%nat ->
  exists i p', emplace p next construct = (Some i, p', next + 1) /\ pool_wf p' (next + 1) /\
    emplaced p p' next (next + 1) construct i /\ used p' (S n).
Proof.
  intros Hp Hc Hn Hu Hlt. pose proof (emplace_wf p next construct Hp Hc Hn) as Hem.
  destruct (first_free_used p n Hu Hlt) as [j Hj]. unfold emplace in *. rewrite (pool_ready _ _ Hp), Hj in *.
  cbn [negb allocate_handle_value] in *. destruct Hem as [Hw Hem]. pose proof (emplaced_next _ _ _ _ _ _ Hem) as E.
  rewrite E in *. eexists _, _. split; [done|]. split; [done|]. split; [done|].
  intros i Hi. rewrite (emplaced_others _ _ _ _ _ _ Hem); [apply Hu; lia|]. intros ->.
  pose proof (emplaced_first _ _ _ _ _ _ Hem n) as Hf. rewrite (Hu n) in Hf by lia. destruct Hf; [lia|done].
Qed.

(** The state while the initial processes are created: [n] processes and [m]
    threads so far, no current thread. *)
Record starting (n m : nat) (r : user_runtime) : Prop := {
  starting_wf : runtime_wf r;
  starting_current : m_current_thread r = None;
  starting_processes : used (m_processes r) n;
  starting_threads : used (m_threads r) m;
  starting_capacity : capacity (m_processes r) = USER_RUNTIME_MAX_PROCESSES;
  starting_next : m_next_handle_value r = 1 + Z.of_nat (n + m);
}.

Lemma emplace_process_wf r p i pl next metadata a :
  runtime_wf r -> address_space_wf a -> pool_wf pl next -> m_next_handle_value r <= next ->
  emplaced (m_processes r) pl (m_next_handle_value r) next (make_process metadata a) i ->
  p = with_next_handle_value (with_processes r pl) next -> runtime_wf p /\ live_process p i.
Proof.
  intros Hr Ha Hpl Hle Hem ->.
  assert (live_process (with_processes r pl) i) as Hi by (eexists; apply (emplaced_object _ _ _ _ _ _ Hem)).
  split; [|exact Hi].
  assert (forall j, live_process r j -> live_process (with_processes r pl) j) as Hmono.
  { intros j Hj. unfold live_process. cbn. destruct (decide (j = i)) as [->|Hne]; [exact Hi|].
    by rewrite (emplaced_others _ _ _ _ _ _ Hem j Hne). }
  pose proof (next_handle_wf r next Hr Hle) as Hr'. clear Hr. destruct Hr' as [W1 W2 W3 W4 W5 W6 WC W7 W8 W9 W10 W11 W12 W13 W14].
  constructor; cbn in *; try done.
  - intros j q Hj. destruct (decide (j = i)) as [->|Hne].
    + rewrite (emplaced_object _ _ _ _ _ _ Hem) in Hj. by injection Hj as <-.
    + rewrite (emplaced_others _ _ _ _ _ _ Hem j Hne) in Hj. by eapply W9.
  - intros j t Ht. destruct (W10 j t Ht) as [(q & Eq & Hq) T2 T3 T4]. constructor; [|done..]. exists q. split; [done|by apply Hmono].
  - intros j e He. destruct (W11 j e He). constructor; try done. by eapply points_to_mono.
  - intros j c Hc. destruct (W13 j c Hc). constructor; try done. by eapply points_to_mono.
Qed.

Lemma emplace_thread_wf r p i pl next q c :
  runtime_wf r -> live_process r q -> pool_wf pl next -> m_next_handle_value r <= next ->
  emplaced (m_threads r) pl (m_next_handle_value r) next (make_thread q c) i ->
  p = with_next_handle_value (with_threads r pl) next -> runtime_wf p /\ live_thread p i.
Proof.
  intros Hr Hq Hpl Hle Hem ->.
  assert (live_thread (with_threads r pl) i) as Hi by (eexists; apply (emplaced_object _ _ _ _ _ _ Hem)).
  split; [|exact Hi].
  assert (forall j, live_thread r j -> live_thread (with_threads r pl) j) as Hmono.
  { intros j Hj. unfold live_thread. cbn. destruct (decide (j = i)) as [->|Hne]; [exact Hi|].
    by rewrite (emplaced_others _ _ _ _ _ _ Hem j Hne). }
  pose proof (next_handle_wf r next Hr Hle) as Hr'. clear Hr. destruct Hr' as [W1 W2 W3 W4 W5 W6 WC W7 W8 W9 W10 W11 W12 W13 W14].
  constructor; cbn in *; try done.
  - by rewrite (emplaced_capacity _ _ _ _ _ _ Hem).
  - intros j t Hj. destruct (decide (j = i)) as [->|Hne].
    + rewrite (emplaced_object _ _ _ _ _ _ Hem) in Hj. injection Hj as <-. constructor; cbn; [by exists q|done..].
    + rewrite (emplaced_others _ _ _ _ _ _ Hem j Hne) in Hj. by eapply W10.
  - intros j e He. destruct (W11 j e He). constructor; try done. by eapply points_to_mono.
  - intros j ch Hc. destruct (W13 j ch Hc). constructor; try done; by eapply points_to_mono.
  - by eapply points_to_mono.
Qed.

Lemma starting_keeps n m k k' : starting n m (runtime k) -> keeps_current k k' -> starting n m (runtime k').
Proof.
  intros [S1 S2 S3 S4 S5 S6] [[Hr [Fp Ft Fc Fn]] Ec]. constructor; rewrite ?Fp; [done|congruence|done| |done|congruence].
  intros j Hj. specialize (Ft j). unfold live_thread in Ft. rewrite (S4 j Hj) in Ft.
  destruct (get_by_index (m_threads (runtime k')) j); [|done]. destruct (proj1 Ft ltac:(by eexists)). done.
Qed.

(** Granting access changes no pointer. *)
Lemma grant_process_safe i k n m :
  starting n m (runtime k) -> live_process (runtime k) i ->
  twp (grant_process_access (A := process) i)
    (fun _ k' => starting n m (runtime k') /\ live_process (runtime k') i /\
       m_threads (runtime k') = m_threads (runtime k)) k.
Proof.
  intros [Hr Hc Hp Ht Hcap Hn] Hi. destruct Hi as [q Hq]. eapply twp_update; [exact Hq|].
  set (q' := with_object q (acquire_process_reference (object_of q))). cbn [pool with_pool process_pool with_runtime runtime]. set (pl := update_at (m_processes (runtime k)) i q').
  assert (forall j, get_by_index pl j = if decide (i = j) then Some q' else get_by_index (m_processes (runtime k)) j) as Hget.
  { intros j. by eapply get_update_at. }
  assert (forall j, is_Some (get_by_index pl j) <-> live_process (runtime k) j) as Hlive.
  { intros j. rewrite Hget. unfold live_process. destruct (decide (i = j)) as [<-|]; [|done]. rewrite Hq. by split; eexists. }
  assert (capacity pl = capacity (m_processes (runtime k))) as Ecap by (unfold capacity, pl, update_at; cbn; by rewrite length_insert).
  assert (pool_wf pl (m_next_handle_value (runtime k))) as Hpl.
  { eapply pool_wf_update; [by apply wf_processes|exact Hq|done]. }
  split_and!; [|by apply Hlive; exists q|done].
  constructor; cbn [m_current_thread m_processes m_threads m_next_handle_value with_processes]; [|done| |done|congruence|done].
  - pose proof (wf_process _ Hr i q Hq) as Ha. destruct Hr as [W1 W2 W3 W4 W5 W6 WC W7 W8 W9 W10 W11 W12 W13 W14].
    constructor; cbn; try done.
    + intros j x. rewrite Hget. destruct (decide (i = j)); [by intros [= <-]|apply W9].
    + intros j t Htj. destruct (W10 j t Htj) as [(x & Ex & Hx) T2 T3 T4]. constructor; [|done..]. exists x. split; [done|by apply Hlive].
    + intros j e He. destruct (W11 j e He). constructor; try done. eapply points_to_mono; [|done]. intros x Hx. by apply Hlive.
    + intros j c Hcj. destruct (W13 j c Hcj). constructor; try done. eapply points_to_mono; [|done]. intros x Hx. by apply Hlive.
  - intros j Hj. rewrite Hget, (Hp j Hj). destruct (decide (i = j)) as [<-|]; [|done]. by rewrite (Hp i Hj) in Hq.
Qed.

Lemma create_process_safe metadata a n m k :
  starting n m (runtime k) -> address_space_wf a -> (n < 4)%nat -> (m < 4)%nat ->
  twp (create_process metadata a)
    (fun r k' => exists i, r = Some i /\ starting (S n) m (runtime k') /\ live_process (runtime k') i /\
       m_threads (runtime k') = m_threads (runtime k)) k.
Proof.
  intros [Hr Hc Hp Ht Hcap Hn] Ha Hn4 Hm4. pose proof (wf_next _ Hr) as H1.
  destruct (emplace_used (m_processes (runtime k)) (m_next_handle_value (runtime k)) (make_process metadata a) n)
    as (i & pl & E & Hpl & Hem & Hu); [by apply wf_processes|done|lia|done|rewrite Hcap; unfold USER_RUNTIME_MAX_PROCESSES; lia|].
  apply twp_bind, twp_bind. cbn -[emplace]. rewrite E. apply twp_bind, twp_set_runtime, twp_ret.
  set (k1 := with_runtime k _).
  destruct (emplace_process_wf (runtime k) (runtime k1) i pl _ metadata a Hr Ha Hpl ltac:(lia) Hem eq_refl) as [Hr1 Hi].
  assert (starting (S n) m (runtime k1)) as Hs1.
  { constructor; [done|done|done|done|by etrans; [apply (emplaced_capacity _ _ _ _ _ _ Hem)|]|cbn; lia]. }
  assert (m_threads (runtime k1) = m_threads (runtime k)) as Et by done. clearbody k1.
  eapply twp_seq; [by apply (grant_process_safe i k1 (S n) m)|]. intros [] k2 (Hs2 & Hi2 & Et2).
  apply twp_ret. exists i. by rewrite Et2.
Qed.

Lemma create_thread_safe q c n m k :
  starting n m (runtime k) -> live_process (runtime k) q -> (n <= 4)%nat -> (m < 4)%nat ->
  twp (create_thread q c true)
    (fun r k' => exists i h, r = Some (i, h) /\ h <> 0 /\ starting n (S m) (runtime k') /\
       m_processes (runtime k') = m_processes (runtime k) /\ live_thread (runtime k') i /\
       forall j, live_thread (runtime k) j -> live_thread (runtime k') j) k.
Proof.
  intros [Hr Hc Hp Ht Hcap Hn] Hq Hn4 Hm4. pose proof (wf_next _ Hr) as H1.
  destruct (emplace_used (m_threads (runtime k)) (m_next_handle_value (runtime k)) (make_thread q c) m)
    as (i & pl & E & Hpl & Hem & Hu); [by apply wf_threads|done|lia|done|rewrite (wf_thread_capacity _ Hr); unfold USER_RUNTIME_MAX_THREADS; lia|].
  unfold create_thread, with_handle. cbn [negb]. apply twp_bind, twp_bind, twp_bind. cbn -[emplace]. rewrite E.
  apply twp_bind, twp_set_runtime, twp_ret. set (k1 := with_runtime k _).
  destruct (emplace_thread_wf (runtime k) (runtime k1) i pl _ q c Hr Hq Hpl ltac:(lia) Hem eq_refl) as [Hr1 Hi].
  assert (starting n (S m) (runtime k1)) as Hs1.
  { constructor; [done|done|done|done|done|cbn; lia]. }
  assert (forall j, live_thread (runtime k) j -> live_thread (runtime k1) j) as Hmono.
  { intros j Hj. unfold live_thread. cbn. destruct (decide (j = i)) as [->|Hne]; [exact Hi|].
    by rewrite (emplaced_others _ _ _ _ _ _ Hem j Hne). }
  assert (m_processes (runtime k1) = m_processes (runtime k)) as Ep by done.
  clearbody k1. assert (live_thread (runtime k1) i) as [t Hti] by exact Hi.
  eapply twp_seq.
  { apply keeps_update_thread; [done|by exists t|]. intros u _ []. split; [done|by constructor]. }
  intros [] k2 K2. apply twp_ret, twp_bind. destruct (live_thread_keeps _ _ i (proj1 K2) Hi) as [t2 Ht2].
  eapply twp_read_at; [exact Ht2|]. apply twp_ret. exists i, (get_handle t2). split; [done|]. split.
  { pose proof (pool_issued _ _ (wf_threads _ (proj1 (proj1 K2))) i t2 Ht2). lia. }
  split; [by eapply starting_keeps|]. split; [by rewrite (frame_processes _ _ (proj2 (proj1 K2)))|].
  split; [by exists t2|]. intros j Hj. eapply live_thread_keeps; [apply K2|by apply Hmono].
Qed.

(** ** The start *)

Definition process_config_ok (p : initial_process_configuration) : Prop := address_space_wf (initial_address_space p).

(** What the platform fills in: two entries, those counted with valid address spaces. *)
Definition bootstrap_ok (b : initial_user_runtime_bootstrap) : Prop :=
  length (initial_processes b) = 2%nat /\ 0 <= process_count b /\ 0 <= initial_process_index b /\
  Forall process_config_ok (take (Z.to_nat (process_count b)) (initial_processes b)).

Definition live_pair (r : user_runtime) (x : nat * nat) : Prop := live_thread r (snd x).

Lemma create_initial_safe c n k :
  starting n n (runtime k) -> process_config_ok c -> (n < 4)%nat ->
  twp (create_initial c)
    (fun r k' => exists x, r = continues x /\ starting (S n) (S n) (runtime k') /\ live_pair (runtime k') x /\
       forall j, live_thread (runtime k) j -> live_thread (runtime k') j) k.
Proof.
  intros Hs Hc Hn. unfold create_initial. eapply twp_seq; [by apply create_process_safe|].
  intros r k1 (i & -> & Hs1 & Hi & Et1).
  eapply twp_seq; [apply (create_thread_safe i _ (S n) n); [done|done|lia|lia]|].
  intros r2 k2 (j & h & -> & Hh & Hs2 & _ & Hj & Hmono). rewrite (proj2 (Z.eqb_neq h 0)) by done.
  apply twp_ret. exists (i, j). split_and!; [done|done|exact Hj|].
  intros x Hx. apply Hmono. unfold live_thread in *. by rewrite Et1.
Qed.

Lemma create_initials_safe l n k :
  starting n n (runtime k) -> Forall process_config_ok l -> (n + length l <= 4)%nat ->
  twp (create_initials l)
    (fun r k' => exists xs, r = continues xs /\ length xs = length l /\
       starting (n + length l) (n + length l) (runtime k') /\ Forall (live_pair (runtime k')) xs /\
       forall j, live_thread (runtime k) j -> live_thread (runtime k') j) k.
Proof.
  intros Hs Hl. revert n k Hs. induction Hl as [|c l Hc Hl IH]; intros n k Hs Hn; cbn [create_initials].
  - apply twp_ret. exists []. rewrite Nat.add_0_r. split_and!; [done|done|done|by constructor|done].
  - cbn [length] in Hn. eapply twp_seq; [apply (create_initial_safe c n); [done|done|lia]|].
    intros r k1 (x & -> & Hs1 & Hx & Hm1). eapply twp_seq; [apply (IH (S n)); [done|lia]|].
    intros r k2 (xs & -> & Hlen & Hs2 & Hxs & Hm2). apply twp_ret. exists (x :: xs). cbn [length].
    rewrite Nat.add_succ_r. split_and!; [done|by f_equal|exact Hs2| |by auto].
    constructor; [|done]. by apply Hm2.
Qed.

(** A kernel image before the start: the pools have their capacities. *)
Definition image_ok (r : user_runtime) : Prop :=
  capacity (m_processes r) = USER_RUNTIME_MAX_PROCESSES /\ capacity (m_threads r) = USER_RUNTIME_MAX_THREADS /\
  capacity (m_channels r) = USER_RUNTIME_MAX_RPC_CHANNELS.

Lemma used_reset {A} (p : kernel_object_pool A) : used (reset p) 0.
Proof.
  intros i _. unfold get_by_index, reset. cbn. destruct (replicate _ _ !! i) as [s|] eqn:E; [|done].
  by apply lookup_replicate in E as [-> _].
Qed.

Lemma reset_starting r : image_ok r -> starting 0 0 (reset_runtime r).
Proof.
  intros (Hp & Ht & Hch).
  assert (forall A (p : kernel_object_pool A) i x, get_by_index (reset p) i = Some x -> False) as Hnone.
  { intros A p i x Hx. by rewrite (used_reset p i ltac:(lia)) in Hx. }
  assert (forall i e, replicate USER_RUNTIME_MAX_RPC_ENDPOINTS clear_endpoint !! i = Some e -> e = clear_endpoint) as Hclear.
  { intros i e He. by apply lookup_replicate in He as [-> _]. }
  constructor; cbn -[replicate]; try done; try apply used_reset.
  - constructor; cbn -[replicate]; try done; try apply reset_wf; try (intros; exfalso; by eapply Hnone).
    + by rewrite <- Ht; apply length_replicate.
    + by rewrite <- Hch; apply length_replicate.
    + intros i e ->%Hclear.
      constructor; cbn; auto; [apply list_elem_of_here|done].
    + by intros i j e e' ->%Hclear.
  - by rewrite <- Hp; apply length_replicate.
Qed.

(** The platform's callback fills the bootstrap in and does not touch the
    runtime, or panics. *)
Definition initialized_ok (k : kernel) (r : may_panic initial_user_runtime_bootstrap) (k' : kernel) : Prop :=
  match r with
  | panics _ => True
  | continues b => runtime k' = runtime k /\ bootstrap_ok b
  end.

(** The counts [run_initial_user_runtime] checks. *)
Definition bootstrap_in_range (b : initial_user_runtime_bootstrap) : Prop :=
  1 <= process_count b <= USER_RUNTIME_MAX_INITIAL_PROCESSES /\ initial_process_index b < process_count b.

Section start.
Context (initialize : K (may_panic initial_user_runtime_bootstrap)).
Context (initialize_ok : forall k, twp initialize (initialized_ok k) k).

Lemma run_initial_user_runtime_starts k :
  image_ok (runtime k) ->
  twp (run_initial_user_runtime initialize)
    (fun r k' => match r with
                 | panics m => exists k1 r k2, initialize k1 = Returned r k2 /\
                                 match r with panics m' => m' = m | continues b => ~ bootstrap_in_range b end
                 | continues (_, t) => runtime_wf (runtime k') /\ m_current_thread (runtime k') = Some t /\
                                       m_next_handle_value (runtime k') <= 5
                 end) k.
Proof.
  intros Hi. unfold run_initial_user_runtime. apply twp_bind, twp_set_runtime.
  pose proof (reset_starting _ Hi) as Hs. pose proof (initialize_ok (with_runtime k (reset_runtime (runtime k)))) as Hok.
  unfold twp in Hok. apply twp_bind. destruct (initialize _) as [[m|b] k1| |] eqn:Einit; try done; unfold twp at 1; rewrite Einit.
  { apply twp_ret. by eexists _, _, _. }
  destruct Hok as [E (Hlen & Hc0 & Hi0 & Hb)]. unfold run_bootstrap.
  cbn in E. rewrite <- E in Hs. destruct (_ || _) eqn:Ec.
  { apply twp_ret. eexists _, _, _. split; [exact Einit|]. intros [Hr _]. bool_hyps. unfold USER_RUNTIME_MAX_INITIAL_PROCESSES in *. lia. }
  bool_hyps.
  unfold USER_RUNTIME_MAX_INITIAL_PROCESSES in *. destruct (_ <=? _) eqn:Ei; bool_hyps.
  { apply twp_ret. eexists _, _, _. split; [exact Einit|]. intros [_ Hr]. lia. }
  assert (length (take (Z.to_nat (process_count b)) (initial_processes b)) = Z.to_nat (process_count b)) as Hl.
  { rewrite length_take. lia. }
  eapply twp_seq; [apply (create_initials_safe _ 0); [done|done|lia]|].
  intros r k2 (xs & -> & Hxs & Hs2 & Hlive & _).
  destruct (lookup_lt_is_Some_2 xs (Z.to_nat (initial_process_index b))) as [[p t] Hx]; [lia|].
  apply twp_bind. eapply twp_in_bounds; [exact Hx|].
  assert (live_thread (runtime k2) t) as Ht by (eapply Forall_lookup_1 in Hlive; [|exact Hx]; exact Hlive).
  eapply twp_seq; [apply set_current_thread_safe; [apply Hs2|by apply points_to_Some]|]. intros [] k3 [K3 E3].
  eapply twp_seq; [apply twp_emit, K3|]. intros [] k4 [K4 E4]. apply twp_ret.
  split; [apply K4|]. split; [congruence|].
  rewrite (frame_next _ _ (proj2 K4)), (frame_next _ _ (proj2 K3)), (starting_next _ _ _ Hs2). lia.
Qed.

(** ** Every run on x86-64 *)

(** The kernel states in which user mode runs, after [n] system calls. *)
Inductive x64_reachable : nat -> kernel -> Prop :=
  | reachable_start k0 k p t :
      image_ok (runtime k0) -> run_initial_user_runtime initialize k0 = Returned (continues (p, t)) k -> x64_reachable 0 k
  | reachable_user n k m es :          (* the platform enters user mode, which writes memory *)
      x64_reachable n k -> x64_reachable n {| runtime := runtime k; host := m; events := events k ++ es |}
  | reachable_syscall n k f f' k' :
      x64_reachable n k -> frame_ok f -> x64_handle_syscall (Some f) k = Returned (continues (true, f')) k' ->
      x64_reachable (S n) k'.

Lemma reachable_invariant n k :
  x64_reachable n k -> Z.of_nat n < 2 ^ 63 ->
  runtime_wf (runtime k) /\ is_Some (m_current_thread (runtime k)) /\ m_next_handle_value (runtime k) <= 5 + Z.of_nat n.
Proof.
  induction 1 as [k0 k p t Hi Hrun|n k m es Hk IH|n k f f' k' Hk IH Hf Hrun]; intros Hn.
  - pose proof (run_initial_user_runtime_starts k0 Hi) as Hs. unfold twp in Hs. rewrite Hrun in Hs.
    destruct Hs as (Hr & Ec & Hnext). rewrite Ec. by split_and!; [done|eexists|lia].
  - by apply IH.
  - destruct IH as (Hr & Hc & Hnext); [lia|].
    pose proof (x64_handle_syscall_preserves f k ltac:(split; [done|lia]) Hf Hc) as Hs. unfold twp in Hs. rewrite Hrun in Hs.
    destruct Hs as (P & b & f2 & [= <- <-] & Hb). split_and!; [apply P|by apply Hb|].
    pose proof (preserves_next _ _ P). lia.
Qed.

(** From the start of the runtime, through any sequence of fewer than 2^63 system calls with
    any registers and any user memory, every further x86-64 system call returns to user mode or
    reports that nothing can run, without a panic, a null or dangling pointer, an access outside
    an array or a loop that does not end, and the runtime stays well formed: handles are unique
    in each pool, every pointer the kernel keeps refers to a live object, only the current
    thread runs, and endpoint names are distinct. *)
Lemma x64_kernel_safe n k f :
  x64_reachable n k -> Z.of_nat n < 2 ^ 63 -> frame_ok f ->
  exists b f' k', x64_handle_syscall (Some f) k = Returned (continues (b, f')) k' /\ runtime_wf (runtime k').
Proof.
  intros Hk Hn Hf. destruct (reachable_invariant n k Hk Hn) as (Hr & Hc & Hnext).
  pose proof (x64_handle_syscall_preserves f k ltac:(split; [done|lia]) Hf Hc) as Hs.
  apply twp_returned in Hs as (r & k' & E & P & b & f' & -> & _). exists b, f', k'. split; [done|apply P].
Qed.
End start.
