(* ===== verification/KernelSamples.v ===== *)
(** A concrete kernel: two processes with one page each, started by
    [run_initial_user_runtime], between which a call is made. *)
From S2P Require Import Prelude AddressSpace UserMemory KernelObjectPool RuntimeTypes UserRuntime Rpc Syscalls RuntimeInvariant KernelSafety RpcSafety SyscallSafety RuntimeStart.

#[export] Instance sample_target : Target | 100 := x86_64.

(** One page at user address 0x1000. *)
Definition one_page (host : Z) : address_space := (add_address_space_mapping empty_address_space 0x1000 host 0x1000).2.

Lemma one_page_wf host : 0 <= host < 2 ^ 32 -> address_space_wf (one_page host).
Proof.
  intros Hh. pose proof (add_mapping_spec empty_address_space empty_address_space_wf 0x1000 host 0x1000
    ltac:(words) ltac:(words) ltac:(words)) as H. unfold one_page.
  destruct (add_address_space_mapping _ _ _ _) as [ok a]. by destruct H as (_ & H & _).
Qed.

Definition sample_metadata : process_metadata :=
  {| guest_architecture := PROCESS_GUEST_ARCHITECTURE_X64; personality := PROCESS_PERSONALITY_RINGOS;
     execution_backend := PROCESS_EXECUTION_BACKEND_NATIVE |}.

Definition sample_process (host : Z) : initial_process_configuration :=
  {| initial_metadata := sample_metadata; initial_address_space := one_page host;
     initial_thread_context :=
       {| context_instruction_pointer := 0x1000; context_stack_pointer := 0x1F40; context_flags := 0x202; context_argument0 := 0 |} |}.

(** The server, started first, is the second process. *)
Definition sample_bootstrap : initial_user_runtime_bootstrap :=
  {| process_count := 2; initial_process_index := 1; initial_processes := [sample_process 0x10000; sample_process 0x20000] |}.

Definition empty_pool {A} (n : nat) : kernel_object_pool A :=
  {| m_items := replicate n None; m_next_object_id := 1; m_has_next_handle_value := false |}.

(** Both pages hold the name of one endpoint at 0x1100 and of another at 0x1120. *)
Definition sample_page_bytes : list Z := [115; 118; 99; 0] ++ replicate 28 0 ++ [98; 0].

Definition sample_image : kernel :=
  {| runtime :=
       {| m_processes := empty_pool 4; m_threads := empty_pool 4; m_device_memory_objects := empty_pool 4;
          m_endpoints := replicate 8 clear_endpoint; m_channels := empty_pool 8; m_shared_memory_objects := empty_pool 4;
          m_current_thread := None; m_next_handle_value := 0 |};
     host := store_bytes (store_bytes (fun _ => 0) 0x10100 sample_page_bytes) 0x20100 sample_page_bytes;
     events := [] |}.

Definition sample_initialize : K (may_panic initial_user_runtime_bootstrap) := mret (continues sample_bootstrap).

Lemma sample_initialize_ok k : twp sample_initialize (initialized_ok k) k.
Proof.
  split; [done|]. split_and!; [done|done|done|].
  assert (forall h, 0 <= h < 2 ^ 32 -> process_config_ok (sample_process h)) as Hp by (intros h Hh; by apply one_page_wf).
  cbn [take Z.to_nat initial_processes sample_bootstrap process_count Pos.to_nat Pos.iter_op Nat.add].
  constructor; [apply Hp; lia|constructor; [apply Hp; lia|constructor]].
Qed.

(** The state a run ends in. *)
Definition state_after {A} (m : K A) (k : kernel) : kernel := match m k with Returned _ k' => k' | _ => k end.

Definition sample_started : kernel := state_after (run_initial_user_runtime sample_initialize) sample_image.

Definition sample_syscall (number a0 a1 a2 : Z) : user_syscall_context :=
  make_user_syscall_context number 0x1004 0x1EDC 0x202 a0 a1 a2 0 0 0.

Definition register_context : user_syscall_context := sample_syscall SYSCALL_RPC_REGISTER 0x1100 0x1130 0x113A.
Definition open_context : user_syscall_context := sample_syscall SYSCALL_RPC_OPEN 0x1100 0x1194 0.
Definition call_context : user_syscall_context := sample_syscall SYSCALL_RPC_CALL 5 0x1100 16.
Definition complete_context : user_syscall_context := sample_syscall SYSCALL_RPC_COMPLETE 77 0 0.

(** The server registers the endpoint, and the client opens a channel to it. *)
Definition sample_registered : kernel := state_after (dispatch_syscall register_context) sample_started.
Definition sample_opened : kernel := state_after (dispatch_syscall open_context) sample_registered.

Lemma state_after_twp {A} (m : K A) (Q : A -> kernel -> Prop) (P : kernel -> Prop) k :
  twp m Q k -> (forall a k', Q a k' -> P k') -> P (state_after m k).
Proof. unfold twp, state_after. destruct (m k); [|done..]. intros HQ HP. by eapply HP. Qed.

Lemma sample_context_ok n a0 a1 a2 : u64_ok a0 -> u64_ok a1 -> u64_ok a2 -> syscall_context_ok (sample_syscall n a0 a1 a2).
Proof. intros. by constructor. Qed.

(** A run that ended in neither a panic nor an undefined state. *)
Definition continued {A} (m : K (may_panic A)) (k : kernel) : bool :=
  match m k with Returned (continues _) _ => true | _ => false end.

Lemma ready_after_start (initialize : K (may_panic initial_user_runtime_bootstrap)) k :
  (forall k, twp initialize (initialized_ok k) k) -> image_ok (runtime k) ->
  continued (run_initial_user_runtime initialize) k = true ->
  exists p t, run_initial_user_runtime initialize k = Returned (continues (p, t)) (state_after (run_initial_user_runtime initialize) k) /\
    syscall_ready (state_after (run_initial_user_runtime initialize) k).
Proof.
  intros Hinit Hi Hc. pose proof (run_initial_user_runtime_starts initialize Hinit k Hi) as H.
  unfold twp, continued, state_after in *. destruct (run_initial_user_runtime initialize k) as [[m|[p t]] k'| |]; try done.
  exists p, t. split; [done|]. destruct H as (Hr & _ & Hn). split; [done|lia].
Qed.

Lemma sample_image_ok : image_ok (runtime sample_image).
Proof. split_and!; reflexivity. Qed.

Lemma sample_start :
  exists p t, run_initial_user_runtime sample_initialize sample_image = Returned (continues (p, t)) sample_started /\
    syscall_ready sample_started.
Proof.
  apply (ready_after_start sample_initialize sample_image); [apply sample_initialize_ok|apply sample_image_ok|].
  vm_compute. reflexivity.
Qed.

Lemma sample_started_ready : syscall_ready sample_started.
Proof. destruct sample_start as (p & t & _ & H). exact H. Qed.

Lemma syscall_ready_after c k :
  syscall_ready k -> syscall_context_ok c -> m_next_handle_value (runtime k) < 2 ^ 63 -> runtime_wf (runtime (state_after (dispatch_syscall c) k)).
Proof.
  intros Hk Hc Hn. eapply state_after_twp; [by apply dispatch_syscall_preserves|]. intros a k' P. apply P.
Qed.

Lemma sample_registered_ready : syscall_ready sample_registered.
Proof.
  split; [|vm_compute; reflexivity]. apply syscall_ready_after; [apply sample_started_ready|apply sample_context_ok; words|vm_compute; reflexivity].
Qed.

Lemma sample_opened_ready : syscall_ready sample_opened.
Proof.
  split; [|vm_compute; reflexivity]. apply syscall_ready_after; [apply sample_registered_ready|apply sample_context_ok; words|vm_compute; reflexivity].
Qed.

(** ** Instances *)

Definition sample_frame : x64_syscall_frame :=
  {| r9 := 0; r8 := 0; r10 := 0; rdx := 0x113A; rsi := 0x1130; rdi := 0x1100; rax := SYSCALL_RPC_REGISTER; rcx := 0x1004;
     r11 := 0x202; user_rsp := 0x1EDC; r15 := 0; r14 := 0; r13 := 0; r12 := 0; rbp := 0; rbx := 0;
     preserved_xmm_qwords := replicate 20 0 |}.

Lemma sample_frame_ok : frame_ok sample_frame.
Proof. unfold frame_ok. cbn. split_and!; [words..|done]. Qed.

Lemma sample_reachable : x64_reachable sample_initialize 0 sample_started.
Proof.
  destruct sample_start as (p & t & E & _). by eapply reachable_start; [apply sample_image_ok|exact E].
Qed.


(** The objects of a kernel. *)
Definition thread_of (k : kernel) (i : nat) : thread :=
  match get_by_index (m_threads (runtime k)) i with Some t => t | None => make_thread 0 zero_context 0 0 end.

Definition channel_of (k : kernel) (i : nat) : rpc_channel :=
  match get_by_index (m_channels (runtime k)) i with Some c => c | None => make_rpc_channel 0 0 0 0 end.

Definition endpoint_of (k : kernel) (i : nat) : rpc_endpoint :=
  match m_endpoints (runtime k) !! i with Some e => e | None => clear_endpoint end.

Definition sample_thread : nat -> thread := thread_of sample_opened.
Definition sample_channel : rpc_channel := channel_of sample_opened 0.
Definition sample_endpoint : rpc_endpoint := endpoint_of sample_opened 0.

Definition sample_object (i : nat) : process :=
  match get_by_index (m_processes (runtime sample_opened)) i with
  | Some p => p
  | None => make_process sample_metadata empty_address_space 0 0
  end.

(** The client has called the server. *)
Definition sample_called : kernel := state_after (dispatch_syscall call_context) sample_opened.

Lemma sample_called_wf : runtime_wf (runtime sample_called).
Proof.
  apply syscall_ready_after; [apply sample_opened_ready|apply sample_context_ok; words|vm_compute; reflexivity].
Qed.
