(* ===== verification/RpcSpecs.v ===== *)
(** What a remote procedure call does: the request delivered to the server, and
    the completion that gives the processor back to the client. *)
From S2P Require Import Prelude AddressSpace UserMemory KernelObjectPool RuntimeTypes UserRuntime Rpc Syscalls RuntimeInvariant KernelSafety RpcSafety SyscallSafety KernelSamples.

(** ** The request in the server's memory *)

(** The address of the request below the server's stack pointer, and the stack
    pointer the callback starts with. *)
Definition request_address (stack_pointer size : Z) : Z := align_down (u64 (stack_pointer - size)) 16.

Definition callback_stack_pointer `{Target} (stack_pointer size : Z) : Z :=
  match target with
  | x86_64 => u64 (request_address stack_pointer size - 8)
  | aarch64 => request_address stack_pointer size
  end.

(** Status and memory after the request, and on x86-64 the return address, have
    been stored, byte by byte. *)
Definition delivered_memory `{Target} (client server : address_space) (m : host_memory) (address size sp completion : Z)
    : Z * host_memory :=
  let '(st, m1) := copy_between_reference (Z.to_nat size) client server m address (request_address sp size) in
  if negb (st =? STATUS_OK) then (st, m1)
  else
    match target with
    | x86_64 => write_reference server m1 (callback_stack_pointer sp size) (le_encode 8 completion)
    | aarch64 => (STATUS_OK, m1)
    end.

(** The stack pointer leaves room for the request. *)
Definition stack_ok `{Target} (sp size : Z) : Prop :=
  match target with
  | x86_64 => size + 8 < sp /\ 8 < request_address sp size
  | aarch64 => size < sp
  end.

(** An endpoint whose entry points the server process can execute. *)
Record callable (server : address_space) (x : rpc_endpoint) : Prop := {
  callable_callback : m_callback_address x <> 0 /\ accessible server (m_callback_address x);
  callable_completion : m_completion_address x <> 0 /\ accessible server (m_completion_address x);
}.

Lemma read_at_returns {A} `{RuntimePool A} i (x : A) k :
  get_by_index (pool (runtime k)) i = Some x -> read_at i k = Returned x k.
Proof. intros E. unfold read_at, mbind, M_bind. cbn. by rewrite E. Qed.

Lemma validate_accessible p q x k :
  runtime_wf (runtime k) -> get_by_index (m_processes (runtime k)) p = Some q -> accessible (m_address_space q) x ->
  validate_user_range p x 1 k = Returned true k.
Proof.
  intros Hr Hq Hx. destruct (validate_spec _ (wf_process _ Hr p q Hq) x 1 ltac:(lia) ltac:(unfold u64_ok; lia)) as (b & E & Hb).
  unfold validate_user_range. erewrite bind_eq by (by apply read_at_returns). unfold lift. rewrite E.
  assert (b = true) as ->; [|done]. apply Hb. intros j Hj. by replace (x + j) with x by lia.
Qed.

Lemma copy_between_returns s d cp sp x y n k :
  runtime_wf (runtime k) -> get_by_index (m_processes (runtime k)) s = Some cp ->
  get_by_index (m_processes (runtime k)) d = Some sp -> u64_ok n ->
  let r := copy_between_reference (Z.to_nat n) (m_address_space cp) (m_address_space sp) (host k) x y in
  copy_between s x d y n k = Returned (fst r) {| runtime := runtime k; host := snd r; events := events k |}.
Proof.
  intros Hr Hs Hd Hn r. unfold copy_between. do 2 (erewrite bind_eq by (by apply read_at_returns)).
  erewrite bind_eq by reflexivity. unfold lift.
  rewrite copy_between_user_processes_eq; [done|by eapply wf_process..|done].
Qed.

Lemma write_user_bytes_returns p sp y bs k :
  runtime_wf (runtime k) -> get_by_index (m_processes (runtime k)) p = Some sp -> u64_ok (Z.of_nat (length bs)) ->
  let r := write_reference (m_address_space sp) (host k) y bs in
  write_user_bytes_to p y bs k = Returned (fst r) {| runtime := runtime k; host := snd r; events := events k |}.
Proof.
  intros Hr Hs Hn r. unfold write_user_bytes_to. erewrite bind_eq by (by apply read_at_returns).
  erewrite bind_eq by reflexivity. unfold lift.
  rewrite write_user_bytes_eq; [done|by eapply wf_process|done].
Qed.

Lemma update_returns {A} `{RuntimePool A} i (x : A) f k :
  get_by_index (pool (runtime k)) i = Some x ->
  update i f k = Returned tt (with_runtime k (with_pool (runtime k) (update_at (pool (runtime k)) i (f x)))).
Proof. intros E. unfold update. by erewrite bind_eq by (by apply read_at_returns). Qed.

(** [prepare_server_thread] on a callable endpoint with room on the stack. *)
Lemma prepare_server_thread_returns `{Target} x s ts p cp q sp addr n m' k :
  runtime_wf (runtime k) -> addr <> 0 -> 0 < n <= RINGOS_RPC_MAX_REQUEST_SIZE ->
  m_owner_process x = Some q -> get_by_index (m_processes (runtime k)) p = Some cp ->
  get_by_index (m_processes (runtime k)) q = Some sp -> get_by_index (m_threads (runtime k)) s = Some ts ->
  callable (m_address_space sp) x ->
  let stack := context_stack_pointer (m_user_context ts) in
  stack_ok stack n ->
  delivered_memory (m_address_space cp) (m_address_space sp) (host k) addr n stack (m_completion_address x) = (STATUS_OK, m') ->
  prepare_server_thread x s p addr n k =
    Returned STATUS_OK
      {| runtime := with_threads (runtime k) (update_at (m_threads (runtime k)) s
           (prepare_rpc_resume ts (m_callback_address x) (m_completion_address x) (request_address stack n) n
              (callback_stack_pointer stack n)));
         host := m'; events := events k |}.
Proof.
  intros Hr Ha Hn Hq Hcp Hsp Hts [[Hcb0 Hcb] [Hcm0 Hcm]] stack Hstack Hm. unfold prepare_server_thread. rewrite Hq.
  unfold RINGOS_RPC_MAX_REQUEST_SIZE in *.
  rewrite (proj2 (Z.eqb_neq addr 0)), (proj2 (Z.eqb_neq n 0)), (proj2 (Z.ltb_ge 256 n)) by lia. cbn [orb].
  rewrite (proj2 (Z.eqb_neq _ 0) Hcb0), (proj2 (Z.eqb_neq _ 0) Hcm0). cbn [orb].
  erewrite bind_eq by (by eapply validate_accessible). cbn [negb].
  erewrite bind_eq by (by eapply validate_accessible). cbn [negb].
  erewrite bind_eq by (by apply read_at_returns). fold stack. cbv zeta.
  assert (stack <> 0) as Hs0 by (unfold stack_ok in Hstack; destruct target; lia).
  rewrite (proj2 (Z.eqb_neq _ 0) Hs0).
  pose proof (fun y => copy_between_returns p q cp sp addr y n k Hr Hcp Hsp ltac:(unfold u64_ok; lia)) as Hcopy.
  unfold delivered_memory, stack_ok, callback_stack_pointer, request_address in *.
  specialize (Hcopy (align_down (u64 (stack - n)) 16)). cbv zeta in Hcopy.
  destruct (copy_between_reference _ _ _ _ _ _) as [st m1]. cbn [fst snd] in Hcopy.
  destruct (Z.eqb_spec st STATUS_OK) as [->|]; cbn [negb] in Hm; [|by injection Hm].
  destruct target.
  - destruct Hstack as [H1 H2]. rewrite (u64_id (n + 8)) by (unfold u64_ok; lia).
    rewrite (proj2 (Z.leb_gt _ _) H1), (proj2 (Z.leb_gt _ _) H2). cbn [orb]. erewrite bind_eq by exact Hcopy. change (STATUS_OK =? STATUS_OK) with true; cbn [negb].
    set (k1 := {| runtime := runtime k; host := m1; events := events k |}) in *.
    pose proof (write_user_bytes_returns q sp (u64 (align_down (u64 (stack - n)) 16 - 8))
      (le_encode 8 (m_completion_address x)) k1 Hr Hsp ltac:(rewrite length_le_encode; unfold u64_ok; lia)) as Hw.
    cbv zeta in Hw. cbn [host k1] in Hw. rewrite Hm in Hw. cbn [fst snd] in Hw. erewrite bind_eq by exact Hw. change (STATUS_OK =? STATUS_OK) with true; cbn [negb].
    erewrite bind_eq by (by apply update_returns). done.
  - rewrite (proj2 (Z.leb_gt _ _) Hstack). cbn [orb]. erewrite bind_eq by exact Hcopy. change (STATUS_OK =? STATUS_OK) with true; cbn [negb].
    erewrite bind_eq by (by apply update_returns). by injection Hm as ->.
Qed.

(** ** Giving the processor to a ready thread *)

Lemma get_state_returns i t k : get_by_index (m_threads (runtime k)) i = Some t -> get_state i k = Returned (m_state t) k.
Proof. intros E. unfold get_state. by erewrite bind_eq by (by apply read_at_returns). Qed.

Lemma switch_returns c s tc ts k :
  m_current_thread (runtime k) = Some c -> c <> s ->
  get_by_index (m_threads (runtime k)) c = Some tc -> m_state tc <> USER_THREAD_STATE_RUNNING ->
  get_by_index (m_threads (runtime k)) s = Some ts -> m_state ts = USER_THREAD_STATE_READY ->
  set_current_thread (Some s) k =
    Returned tt
      {| runtime := with_threads (with_current_thread (runtime k) (Some s))
                      (update_at (m_threads (runtime k)) s (with_state ts USER_THREAD_STATE_RUNNING));
         host := host k;
         events := (events k ++ [arch_activate_process_address_space (m_process ts)]) ++ [arch_prepare_user_thread (Some s)] |}.
Proof.
  intros Hc Hne Htc Hst Hts Hready. unfold set_current_thread. erewrite bind_eq by reflexivity. rewrite Hc.
  rewrite bool_decide_eq_true_2 by congruence. erewrite bind_eq.
  2: { erewrite bind_eq by (by apply get_state_returns). by rewrite bool_decide_eq_false_2. }
  erewrite bind_eq by reflexivity. erewrite bind_eq.
  2: { by erewrite bind_eq by (by apply read_at_returns). }
  do 2 (erewrite bind_eq by reflexivity). erewrite bind_eq by (by apply get_state_returns).
  rewrite Hready, bool_decide_eq_true_2 by done. unfold set_state. by erewrite update_returns.
Qed.

(** ** Calls *)

(** A call by the current thread [c] of process [p] on its channel [i] to the
    idle endpoint [e] of the ready thread [s] of process [q], whose request fits
    below the server's stack pointer.  [m'] is the memory with the request. *)
Section call.
Context `{Target} (k : kernel) (a : user_syscall_context) (c s p q i e : nat).
Context (tc ts : thread) (ch : rpc_channel) (x : rpc_endpoint) (client server : process) (m' : host_memory).

Record call_accepted : Prop := {
  accepted_wf : runtime_wf (runtime k);
  accepted_context : syscall_context_ok a;
  accepted_number : syscall_number a = SYSCALL_RPC_CALL;
  accepted_handle : argument0 a <> 0;
  accepted_request : argument1 a <> 0;
  accepted_size : 0 < argument2 a <= RINGOS_RPC_MAX_REQUEST_SIZE;
  accepted_current : m_current_thread (runtime k) = Some c;
  accepted_client : get_by_index (m_threads (runtime k)) c = Some tc;
  accepted_client_process : m_process tc = Some p;
  accepted_client_object : get_by_index (m_processes (runtime k)) p = Some client;
  accepted_channel : get_by_index (m_channels (runtime k)) i = Some ch;
  accepted_channel_handle : get_handle ch = argument0 a;
  accepted_channel_client : m_client_process ch = Some p;
  accepted_channel_endpoint : m_endpoint ch = Some e;
  accepted_channel_idle : channel_is_busy ch = false;
  accepted_endpoint : m_endpoints (runtime k) !! e = Some x;
  accepted_endpoint_used : m_is_in_use x = true;
  accepted_endpoint_idle : m_is_busy x = false;
  accepted_endpoint_thread : m_owner_thread x = Some s;
  accepted_endpoint_process : m_owner_process x = Some q;
  accepted_other : s <> c;
  accepted_server : get_by_index (m_threads (runtime k)) s = Some ts;
  accepted_server_ready : m_state ts = USER_THREAD_STATE_READY;
  accepted_server_object : get_by_index (m_processes (runtime k)) q = Some server;
  accepted_callable : callable (m_address_space server) x;
  accepted_stack : stack_ok (context_stack_pointer (m_user_context ts)) (argument2 a);
  accepted_memory : delivered_memory (m_address_space client) (m_address_space server) (host k) (argument1 a) (argument2 a)
    (context_stack_pointer (m_user_context ts)) (m_completion_address x) = (STATUS_OK, m');
}.

(** The client as the call leaves it, and the server as the callback starts. *)
Definition waiting_client : thread :=
  with_state (set_user_context tc (make_thread_context_from_syscall a)) USER_THREAD_STATE_BLOCKED.

Definition called_server : thread :=
  let sp := context_stack_pointer (m_user_context ts) in
  with_state
    (prepare_rpc_resume ts (m_callback_address x) (m_completion_address x) (request_address sp (argument2 a)) (argument2 a)
       (callback_stack_pointer sp (argument2 a)))
    USER_THREAD_STATE_RUNNING.

(** The kernel after the call. *)
Record call_delivered (k' : kernel) : Prop := {
  delivered_wf : runtime_wf (runtime k');
  delivered_current : m_current_thread (runtime k') = Some s;
  delivered_client : get_by_index (m_threads (runtime k')) c = Some waiting_client;
  delivered_server : get_by_index (m_threads (runtime k')) s = Some called_server;
  delivered_threads j : j <> c -> j <> s -> get_by_index (m_threads (runtime k')) j = get_by_index (m_threads (runtime k)) j;
  delivered_channel : get_by_index (m_channels (runtime k')) i = Some (pending_channel ch c s ts);
  delivered_channels j : j <> i -> get_by_index (m_channels (runtime k')) j = get_by_index (m_channels (runtime k)) j;
  delivered_endpoints : m_endpoints (runtime k') = <[e := set_busy true x]> (m_endpoints (runtime k));
  delivered_processes : m_processes (runtime k') = m_processes (runtime k);
  delivered_host : host k' = m';
}.
End call.

Lemma rpc_syscall_dispatches `{Target} k a c tc p :
  m_current_thread (runtime k) = Some c -> get_by_index (m_threads (runtime k)) c = Some tc -> m_process tc = Some p ->
  let k1 := with_runtime k (with_threads (runtime k)
              (update_at (m_threads (runtime k)) c (set_user_context tc (make_thread_context_from_syscall a)))) in
  (syscall_number a = SYSCALL_RPC_CALL -> dispatch_syscall a k = rpc_call c p a k1) /\
  (syscall_number a = SYSCALL_RPC_COMPLETE -> dispatch_syscall a k = complete_call c (s32 (argument0 a)) k1).
Proof.
  intros Hc Htc Hp k1.
  assert (get_by_index (m_threads (runtime k1)) c = Some (set_user_context tc (make_thread_context_from_syscall a))) as Htc1.
  { cbn. rewrite (get_update_at _ _ _ _ tc) by done. by rewrite decide_True. }
  split; intros Hnum; unfold dispatch_syscall; erewrite bind_eq by reflexivity; rewrite Hc;
    (erewrite bind_eq by (by apply read_at_returns)); rewrite Hp; (erewrite bind_eq by (by apply update_returns)); fold k1;
    rewrite Hnum; match goal with |- context [bool_decide (?P ∈ ?l)] => change (bool_decide (P ∈ l)) with true end;
    match goal with |- context [?n =? SYSCALL_DEBUG_LOG] => change (n =? SYSCALL_DEBUG_LOG) with false end;
    match goal with |- context [?n =? SYSCALL_THREAD_EXIT] => change (n =? SYSCALL_THREAD_EXIT) with false end;
    cbv iota; unfold rpc_dispatch_syscall; (erewrite bind_eq by (by apply read_at_returns)); cbn [m_process set_user_context sync_resume_to_user_context with_resume with_context];
    rewrite Hp, Hnum; done.
Qed.

Lemma set_busy_returns e b x k :
  m_endpoints (runtime k) !! e = Some x ->
  update_endpoint e (set_busy b) k =
    Returned tt (with_runtime k (with_endpoints (runtime k) (<[e := set_busy b x]> (m_endpoints (runtime k))))).
Proof.
  intros Hx. unfold update_endpoint. erewrite bind_eq; [reflexivity|].
  unfold read_endpoint. erewrite bind_eq by reflexivity. by rewrite Hx.
Qed.

Lemma begin_call_returns i c s e t ch x k :
  get_by_index (m_channels (runtime k)) i = Some ch -> m_endpoint ch = Some e ->
  m_endpoints (runtime k) !! e = Some x -> get_by_index (m_threads (runtime k)) s = Some t ->
  begin_call i c s k =
    Returned tt (with_runtime k (with_endpoints
      (with_channels (runtime k) (update_at (m_channels (runtime k)) i (pending_channel ch c s t)))
      (<[e := set_busy true x]> (m_endpoints (runtime k))))).
Proof.
  intros Hch He Hx Ht. unfold begin_call. erewrite bind_eq by (by apply read_at_returns).
  erewrite bind_eq by (by apply update_returns). erewrite bind_eq.
  2: { apply read_at_returns. cbn. rewrite (get_update_at _ _ _ _ ch) by done. by rewrite decide_True. }
  unfold set_endpoint_busy. cbn [pending_channel m_endpoint]. rewrite He. by erewrite set_busy_returns.
Qed.

(** The thread at [j] after one slot has been rewritten. *)
Lemma thread_after r i t t' j :
  get_by_index (m_threads r) i = Some t ->
  get_by_index (update_at (m_threads r) i t') j = if decide (i = j) then Some t' else get_by_index (m_threads r) j.
Proof. apply get_update_at. Qed.

(** [begin_call] and the switch to the server. *)
Lemma enter_callback i c s e C T ch x k :
  m_current_thread (runtime k) = Some c -> s <> c ->
  get_by_index (m_threads (runtime k)) c = Some C ->
  get_by_index (m_threads (runtime k)) s = Some T -> m_state T = USER_THREAD_STATE_READY ->
  get_by_index (m_channels (runtime k)) i = Some ch -> m_endpoint ch = Some e -> m_endpoints (runtime k) !! e = Some x ->
  exists k', 
    (begin_call i c s;;
     (if bool_decide (s <> c) then set_state c USER_THREAD_STATE_BLOCKED;; set_current_thread (Some s) else mret tt);;
     mret STATUS_OK) k = Returned STATUS_OK k' /\
    m_current_thread (runtime k') = Some s /\
    get_by_index (m_threads (runtime k')) c = Some (with_state C USER_THREAD_STATE_BLOCKED) /\
    get_by_index (m_threads (runtime k')) s = Some (with_state T USER_THREAD_STATE_RUNNING) /\
    (forall j, j <> c -> j <> s -> get_by_index (m_threads (runtime k')) j = get_by_index (m_threads (runtime k)) j) /\
    m_channels (runtime k') = update_at (m_channels (runtime k)) i (pending_channel ch c s T) /\
    m_endpoints (runtime k') = <[e := set_busy true x]> (m_endpoints (runtime k)) /\
    m_processes (runtime k') = m_processes (runtime k) /\ host k' = host k.
Proof.
  intros Hcur Hne HC HT Hready Hch He Hx.
  erewrite bind_eq by (by apply (begin_call_returns i c s e T ch x)).
  rewrite bool_decide_eq_true_2 by done. set (k1 := with_runtime k _).
  set (k2 := with_runtime k1 (with_threads (runtime k1) (update_at (m_threads (runtime k1)) c (with_state C USER_THREAD_STATE_BLOCKED)))).
  assert (set_state c USER_THREAD_STATE_BLOCKED k1 = Returned tt k2) as E1 by (unfold set_state; by erewrite update_returns).
  pose proof (fun j => thread_after (runtime k1) c C (with_state C USER_THREAD_STATE_BLOCKED) j HC) as H2.
  pose proof (switch_returns c s (with_state C USER_THREAD_STATE_BLOCKED) T k2 Hcur ltac:(done)) as E2.
  cbn [k2 with_runtime runtime with_threads m_threads] in E2. rewrite !H2, decide_True, decide_False in E2 by done.
  specialize (E2 eq_refl ltac:(done) HT Hready). fold k2 in E2.
  match type of E2 with _ = Returned tt ?kf => set (k3 := kf) in E2 end.
  erewrite bind_eq by (erewrite bind_eq by exact E1; exact E2). exists k3. split; [reflexivity|].
  assert (forall j, get_by_index (m_threads (runtime k3)) j =
    if decide (s = j) then Some (with_state T USER_THREAD_STATE_RUNNING)
    else if decide (c = j) then Some (with_state C USER_THREAD_STATE_BLOCKED) else get_by_index (m_threads (runtime k)) j) as H3.
  { intros j. etrans; [apply (thread_after (runtime k2) s T)|by rewrite <- H2]. cbn. by rewrite H2, decide_False. }
  rewrite !H3.
  split_and!; try done.
  - by rewrite decide_False, decide_True.
  - by rewrite decide_True.
  - intros j Hjc Hjs. by rewrite H3, !decide_False.
Qed.

Section deliver.
Context `{Target} (k : kernel) (a : user_syscall_context) (c s p q i e : nat).
Context (tc ts : thread) (ch : rpc_channel) (x : rpc_endpoint) (client server : process) (m' : host_memory).
Context (Hacc : call_accepted k a c s p q i e tc ts ch x client server m').

(** The kernel after the trap context has been stored. *)
Definition trapped : kernel :=
  with_runtime k (with_threads (runtime k)
    (update_at (m_threads (runtime k)) c (set_user_context tc (make_thread_context_from_syscall a)))).

Lemma trapped_thread j : j <> c -> get_by_index (m_threads (runtime trapped)) j = get_by_index (m_threads (runtime k)) j.
Proof.
  intros Hj. cbn. rewrite (get_update_at _ _ _ _ tc) by apply (accepted_client _ _ _ _ _ _ _ _ _ _ _ _ _ _ _ Hacc).
  by rewrite decide_False.
Qed.

Lemma trapped_wf : runtime_wf (runtime trapped).
Proof.
  destruct Hacc. eapply update_thread_wf; [done|eassumption|done|].
  destruct (wf_thread _ accepted_wf0 c tc accepted_client0). by constructor.
Qed.

(** The call up to the preparation of the server. *)
Lemma rpc_call_prepared :
  rpc_call c p a trapped =
    (begin_call i c s;;
     (if bool_decide (s <> c) then set_state c USER_THREAD_STATE_BLOCKED;; set_current_thread (Some s) else mret tt);;
     mret STATUS_OK)
      {| runtime := with_threads (runtime trapped) (update_at (m_threads (runtime trapped)) s
           (prepare_rpc_resume ts (m_callback_address x) (m_completion_address x)
              (request_address (context_stack_pointer (m_user_context ts)) (argument2 a)) (argument2 a)
              (callback_stack_pointer (context_stack_pointer (m_user_context ts)) (argument2 a))));
         host := m'; events := events k |}.
Proof.
  pose proof trapped_wf as Hw. pose proof (trapped_thread s) as Hs. destruct Hacc.
  rewrite accepted_server0 in Hs by done. specialize (Hs accepted_other0).
  match goal with |- _ = ?final => set (prepared := final) end.
  unfold rpc_call, RINGOS_RPC_MAX_REQUEST_SIZE in *.
  rewrite (proj2 (Z.eqb_neq _ 0) accepted_handle0), (proj2 (Z.eqb_neq _ 0) accepted_request0),
    (proj2 (Z.eqb_neq (argument2 a) 0)), (proj2 (Z.ltb_ge 256 (argument2 a))) by lia. cbn [orb]. cbv zeta.
  erewrite bind_eq.
  2: { unfold find_channel_by_handle, find_in. unfold gets. cbn [pool rpc_channel_pool runtime trapped with_runtime m_channels with_threads].
       rewrite (proj2 (find_by_handle_spec _ _ (argument0 a) i (wf_channels _ accepted_wf0))); [reflexivity|by exists ch]. }
  cbv beta iota. erewrite bind_eq by (by apply read_at_returns). unfold is_owned_by.
  rewrite bool_decide_eq_true_2 by done. cbn [negb]. rewrite accepted_channel_endpoint0.
  erewrite bind_eq.
  2: { unfold read_endpoint. erewrite bind_eq by reflexivity. cbn. by rewrite accepted_endpoint0. }
  rewrite accepted_endpoint_thread0. erewrite bind_eq by (by apply get_state_returns).
  rewrite accepted_server_ready0, bool_decide_eq_false_2 by done.
  rewrite accepted_endpoint_used0, accepted_endpoint_idle0, accepted_channel_idle0. cbn [negb orb].
  erewrite bind_eq by (by eapply (prepare_server_thread_returns x s ts p client q server _ _ m' trapped)).
  reflexivity.
Qed.

(** What the call leaves in the runtime: four objects have been written. *)
Lemma call_delivers : exists k', dispatch_syscall a k = Returned STATUS_OK k' /\ call_delivered k a c s i e tc ts ch x m' k'.
Proof.
  pose proof rpc_call_prepared as Hprep. pose proof trapped_wf as Hw. pose proof (trapped_thread s) as Hs.
  assert (twp (rpc_call c p a) (ok trapped) trapped) as Hsafe.
  { destruct Hacc. apply rpc_call_safe; [done| | |done].
    - apply (live_update _ c tc); [done|by exists tc].
    - by exists client. }
  pose proof (proj1 (rpc_syscall_dispatches k a c tc p
    (accepted_current _ _ _ _ _ _ _ _ _ _ _ _ _ _ _ Hacc) (accepted_client _ _ _ _ _ _ _ _ _ _ _ _ _ _ _ Hacc)
    (accepted_client_process _ _ _ _ _ _ _ _ _ _ _ _ _ _ _ Hacc)) (accepted_number _ _ _ _ _ _ _ _ _ _ _ _ _ _ _ Hacc)) as Hd.
  cbv zeta in Hd. fold trapped in Hd. rewrite Hd. clear Hd. unfold twp in Hsafe. rewrite Hprep in *. clear Hprep.
  destruct Hacc. specialize (Hs accepted_other0). rewrite accepted_server0 in Hs.
  match goal with |- context [with_threads (runtime trapped) (update_at _ _ ?t)] => set (T := t) in * end.
  set (C := set_user_context tc (make_thread_context_from_syscall a)) in *.
  set (kp := {| runtime := _ |}) in *.
  pose proof (fun j => thread_after (runtime trapped) s ts T j Hs) as Hkp.
  pose proof (fun j => thread_after (runtime k) c tc C j accepted_client0) as Hc.
  destruct (enter_callback i c s e C T ch x kp) as (k' & E & Hcur & Hc' & Hs' & Hj & Hchs & Heps & Hps & Hh); try done.
  { cbn. rewrite Hkp, decide_False by done. cbn. by rewrite Hc, decide_True. }
  { cbn. by rewrite Hkp, decide_True. }
  rewrite E in *. exists k'. split; [done|]. destruct Hsafe as [Hr6 _]. constructor; try done.
  - intros j Hjc Hjs. rewrite Hj by done. cbn. rewrite Hkp, decide_False by done. cbn. by rewrite Hc, decide_False.
  - rewrite Hchs. cbn. rewrite (get_update_at _ _ _ _ ch) by done. by rewrite decide_True.
  - intros j Hji. rewrite Hchs. cbn. rewrite (get_update_at _ _ _ _ ch) by done. by rewrite decide_False.
Qed.
End deliver.

(** ** Completion *)

Lemma finish_call_returns i s e S pch x k :
  get_by_index (m_channels (runtime k)) i = Some pch -> m_pending_server_thread pch = Some s -> m_endpoint pch = Some e ->
  m_endpoints (runtime k) !! e = Some x -> get_by_index (m_threads (runtime k)) s = Some S ->
  let r := with_threads (runtime k) (update_at (m_threads (runtime k)) s (restore_server pch S)) in
  finish_call i k =
    Returned tt (with_runtime k
      (with_channels (with_endpoints r (<[e := set_busy false x]> (m_endpoints r)))
         (update_at (m_channels r) i (idle_channel pch)))).
Proof.
  intros Hp Hs He Hx HS r. unfold finish_call. erewrite bind_eq by (by apply read_at_returns). rewrite Hs.
  erewrite bind_eq by (by apply update_returns). unfold cancel_call. erewrite bind_eq by (by apply read_at_returns).
  unfold set_endpoint_busy. rewrite He. erewrite bind_eq by (by apply set_busy_returns). by erewrite update_returns.
Qed.

Lemma wake_client_returns `{Target} c C st k :
  get_by_index (m_threads (runtime k)) c = Some C ->
  exists k', wake_client c st k = Returned tt k' /\
    k' = with_runtime k (with_threads (runtime k) (m_threads (runtime k'))) /\
    forall j, get_by_index (m_threads (runtime k')) j =
      if decide (c = j) then Some (prepare_syscall_resume (with_state C USER_THREAD_STATE_READY) st)
      else get_by_index (m_threads (runtime k)) j.
Proof.
  intros HC. unfold wake_client, set_state.
  set (k1 := with_runtime k (with_threads (runtime k) (update_at (m_threads (runtime k)) c (with_state C USER_THREAD_STATE_READY)))).
  pose proof (fun j => thread_after (runtime k) c C (with_state C USER_THREAD_STATE_READY) j HC) as H1.
  assert (get_by_index (m_threads (runtime k1)) c = Some (with_state C USER_THREAD_STATE_READY)) as HC1.
  { cbn. by rewrite H1, decide_True. }
  erewrite bind_eq by (by apply update_returns). fold k1. eexists. split; [by apply update_returns|]. split; [done|].
  intros j. etrans; [by apply (thread_after (runtime k1) c _ _ j HC1)|]. destruct (decide (c = j)); [done|]. cbn.
  by rewrite H1, decide_False.
Qed.

(** The server [s], current and with its call on channel [i] pending, completes it. *)
Lemma complete_call_returns `{Target} i c s e C S pch x st k :
  m_current_thread (runtime k) = Some s -> s <> c ->
  pending_channel_of (m_channels (runtime k)) (Some s) = Some i ->
  get_by_index (m_channels (runtime k)) i = Some pch -> m_pending_client_thread pch = Some c ->
  m_endpoint pch = Some e -> m_endpoints (runtime k) !! e = Some x ->
  get_by_index (m_threads (runtime k)) c = Some C -> get_by_index (m_threads (runtime k)) s = Some S ->
  m_saved_server_state pch <> USER_THREAD_STATE_RUNNING ->
  exists k', complete_call s st k = Returned STATUS_OK k' /\
    m_current_thread (runtime k') = Some c /\
    get_by_index (m_threads (runtime k')) c = Some (with_state (prepare_syscall_resume (with_state C USER_THREAD_STATE_READY) st) USER_THREAD_STATE_RUNNING) /\
    get_by_index (m_threads (runtime k')) s = Some (restore_server pch S) /\
    (forall j, j <> c -> j <> s -> get_by_index (m_threads (runtime k')) j = get_by_index (m_threads (runtime k)) j) /\
    m_channels (runtime k') = update_at (m_channels (runtime k)) i (idle_channel pch) /\
    m_endpoints (runtime k') = <[e := set_busy false x]> (m_endpoints (runtime k)) /\
    m_processes (runtime k') = m_processes (runtime k) /\ host k' = host k.
Proof.
  intros Hcur Hne Hpend Hp Hcl He Hx HC HS Hsaved.
  pose proof (pending_channel_of_Some _ _ _ Hpend) as (pch' & Hp' & Hsv & _). assert (pch' = pch) as -> by congruence.
  unfold complete_call. erewrite bind_eq by reflexivity. rewrite Hpend.
  erewrite bind_eq by (by apply read_at_returns). cbv zeta. rewrite Hcl.
  erewrite bind_eq by (by eapply finish_call_returns). rewrite bool_decide_eq_false_2 by congruence.
  set (k1 := with_runtime k _).
  pose proof (fun j => thread_after (runtime k) s S (restore_server pch S) j HS) as H1.
  destruct (wake_client_returns c C st k1) as (k2 & E2 & Ek2 & H2); [cbn; by rewrite H1, decide_False|].
  erewrite bind_eq by exact E2.
  assert (forall j, get_by_index (m_threads (runtime k2)) j =
    if decide (c = j) then Some (prepare_syscall_resume (with_state C USER_THREAD_STATE_READY) st)
    else if decide (s = j) then Some (restore_server pch S) else get_by_index (m_threads (runtime k)) j) as H3.
  { intros j. rewrite H2. destruct (decide (c = j)); [done|]. apply H1. }
  set (W := prepare_syscall_resume _ _) in *.
  assert (m_state W = USER_THREAD_STATE_READY) as HW by (unfold W, prepare_syscall_resume; by destruct target).
  assert (get_by_index (m_threads (runtime k2)) c = Some W) as Hc2 by (by rewrite H3, decide_True).
  erewrite bind_eq by (apply (switch_returns s c (restore_server pch S) W);
    [by rewrite Ek2|done|by rewrite H3, decide_False, decide_True|done|done|done]).
  eexists. split; [reflexivity|].
  assert (forall j, get_by_index (update_at (m_threads (runtime k2)) c (with_state W USER_THREAD_STATE_RUNNING)) j =
    if decide (c = j) then Some (with_state W USER_THREAD_STATE_RUNNING) else get_by_index (m_threads (runtime k2)) j) as H4.
  { intros j. by apply (thread_after (runtime k2) c W). }
  cbn. rewrite !H4, !H3. split_and!; try (by rewrite Ek2); try done.
  - by rewrite decide_True.
  - by rewrite !decide_False, decide_True by done.
  - intros j Hjc Hjs. by rewrite H4, H3, !decide_False.
Qed.

(** No call on a channel is pending at thread [s]. *)
Definition no_pending_call (r : user_runtime) (s : nat) : Prop :=
  forall j ch, get_by_index (m_channels r) j = Some ch -> m_pending_server_thread ch <> Some s.

Lemma only_pending p i s ch :
  get_by_index p i = Some ch -> m_pending_server_thread ch = Some s ->
  (forall j ch', j <> i -> get_by_index p j = Some ch' -> m_pending_server_thread ch' <> Some s) ->
  pending_channel_of p (Some s) = Some i.
Proof.
  intros Hi Hs Ho. destruct (pending_channel_of p (Some s)) as [j|] eqn:E.
  - apply pending_channel_of_Some in E as (c & Hc & Hp & _). destruct (decide (j = i)) as [->|Hj]; [done|].
    by destruct (Ho j c Hj Hc).
  - by eapply pending_channel_of_None in E.
Qed.

Lemma set_busy_back x : m_is_busy x = false -> set_busy false (set_busy true x) = x.
Proof. destruct x. cbn. by intros ->. Qed.

Lemma restore_called_server `{Target} ch c s ts x a b :
  let t := restore_server (pending_channel ch c s ts)
             (set_user_context (called_server a ts x) (make_thread_context_from_syscall b)) in
  m_process t = m_process ts /\ m_state t = m_state ts /\ m_user_context t = m_user_context ts /\
  m_arch_preserved_registers t = m_arch_preserved_registers ts /\
  m_arch_preserved_simd_qwords t = m_arch_preserved_simd_qwords ts.
Proof. done. Qed.

Section round_trip.
Context `{Target} (k : kernel) (a : user_syscall_context) (c s p q i e : nat).
Context (tc ts : thread) (ch : rpc_channel) (x : rpc_endpoint) (client server : process) (m' : host_memory).

(** The client as it resumes when the call has been completed with [st]. *)
Definition resumed_client (st : Z) : thread :=
  with_state (prepare_syscall_resume (set_user_context tc (make_thread_context_from_syscall a)) st) USER_THREAD_STATE_RUNNING.

(** The kernel after the completion: as it was before the call, except for the
    client's resume state, the server's resume state, and memory. *)
Record call_completed (st : Z) (k' : kernel) : Prop := {
  completed_current : m_current_thread (runtime k') = Some c;
  completed_client : get_by_index (m_threads (runtime k')) c = Some (resumed_client st);
  completed_server : exists t, get_by_index (m_threads (runtime k')) s = Some t /\
    m_process t = m_process ts /\ m_state t = m_state ts /\ m_user_context t = m_user_context ts /\
    m_arch_preserved_registers t = m_arch_preserved_registers ts /\
    m_arch_preserved_simd_qwords t = m_arch_preserved_simd_qwords ts;
  completed_threads j : j <> c -> j <> s -> get_by_index (m_threads (runtime k')) j = get_by_index (m_threads (runtime k)) j;
  completed_endpoints : m_endpoints (runtime k') = m_endpoints (runtime k);
  completed_channel : get_by_index (m_channels (runtime k')) i = Some (idle_channel ch);
  completed_channels j : j <> i -> get_by_index (m_channels (runtime k')) j = get_by_index (m_channels (runtime k)) j;
  completed_processes : m_processes (runtime k') = m_processes (runtime k);
}.
End round_trip.

(** C10: A call on an idle channel to an idle endpoint of a ready thread that serves no pending
    call blocks the client, runs the server at the endpoint's callback with the request copied
    below its stack pointer, and marks channel and endpoint busy; when the server completes the
    call, whatever memory holds by then, the client runs again with the server's status, and the
    server has back the state, context and saved registers it had before, with every other
    thread, channel and endpoint as before the call. *)
Theorem rpc_round_trip `{Target} k a c s p q i e tc ts ch x client server m' m b :
  call_accepted k a c s p q i e tc ts ch x client server m' -> no_pending_call (runtime k) s ->
  syscall_number b = SYSCALL_RPC_COMPLETE ->
  exists k1 k2,
    dispatch_syscall a k = Returned STATUS_OK k1 /\ call_delivered k a c s i e tc ts ch x m' k1 /\
    dispatch_syscall b {| runtime := runtime k1; host := m; events := events k1 |} = Returned STATUS_OK k2 /\
    call_completed k a c s i tc ts ch (s32 (argument0 b)) k2 /\ host k2 = m.
Proof.
  intros Hacc Hno Hb. destruct (call_delivers k a c s p q i e tc ts ch x client server m' Hacc) as (k1 & E1 & D1).
  exists k1. destruct Hacc. set (k1' := {| runtime := runtime k1 |}).
  assert (m_process (called_server a ts x) = m_process ts) as Hproc by done.
  destruct (thread_process _ _ _ _ (wf_thread _ accepted_wf0 s ts accepted_server0)) as (ps & Hps & _).
  pose proof (proj2 (rpc_syscall_dispatches k1' b s _ ps (delivered_current _ _ _ _ _ _ _ _ _ _ _ _ D1)
    (delivered_server _ _ _ _ _ _ _ _ _ _ _ _ D1) Hps) Hb) as Hd. cbv zeta in Hd.
  set (S := set_user_context (called_server a ts x) (make_thread_context_from_syscall b)) in Hd.
  set (kt := with_runtime k1' _) in Hd. destruct D1 as [Dw Dcur Dc Ds Dj Dch Dchs De Dp Dh].
  pose proof (fun j => thread_after (runtime k1) s _ S j Ds) as H1.
  assert (m_endpoints (runtime kt) !! e = Some (set_busy true x)) as Hx.
  { cbn. rewrite De. apply list_lookup_insert_eq. by eapply lookup_lt_Some. }
  assert (pending_channel_of (m_channels (runtime kt)) (Some s) = Some i) as Hpend.
  { eapply (only_pending _ i s); [exact Dch|done|]. intros j c' Hj Hc'. cbn in Hc'. rewrite Dchs in Hc' by done. by apply (Hno j). }
  destruct (complete_call_returns i c s e (waiting_client a tc) S (pending_channel ch c s ts) (set_busy true x) (s32 (argument0 b)) kt)
    as (k2 & E2 & Hcur & Hc & Hs & Hj & Hchs & Heps & Hproc2 & Hh); try done.
  { cbn. by rewrite H1, decide_False. }
  { cbn. by rewrite H1, decide_True. }
  { cbn. by rewrite accepted_server_ready0. }
  exists k2. split; [done|]. split; [by constructor|]. split; [by rewrite Hd|]. split; [|by rewrite Hh]. constructor.
  - done.
  - rewrite Hc. unfold resumed_client, waiting_client, prepare_syscall_resume. by destruct target.
  - exists (restore_server (pending_channel ch c s ts) S). split; [done|apply restore_called_server].
  - intros j Hjc Hjs. rewrite Hj by done. cbn. rewrite H1, decide_False by done. by apply Dj.
  - rewrite Heps. cbn. rewrite De, list_insert_insert_eq, set_busy_back by done. by apply list_insert_id.
  - rewrite Hchs. rewrite (get_update_at _ _ _ _ (pending_channel ch c s ts)) by done. by rewrite decide_True.
  - intros j Hji. rewrite Hchs. rewrite (get_update_at _ _ _ _ (pending_channel ch c s ts)) by done.
    rewrite decide_False by done. by apply Dchs.
  - by rewrite Hproc2.
Qed.

(** ** Instances *)

Definition sample_delivered : host_memory :=
  snd (delivered_memory (m_address_space (sample_object 0)) (m_address_space (sample_object 1)) (host sample_opened) 0x1100 16
    (context_stack_pointer (m_user_context (sample_thread 1))) (m_completion_address sample_endpoint)).

Lemma is_accessible a x : bool_decide (byte_host a x = None) = false -> accessible a x.
Proof. unfold accessible. intros H%bool_decide_eq_false. by apply not_eq_None_Some. Qed.

Lemma sample_accepted :
  call_accepted sample_opened call_context 0 1 0 1 0 0 (sample_thread 0) (sample_thread 1) sample_channel sample_endpoint
    (sample_object 0) (sample_object 1) sample_delivered.
Proof.
  constructor; try (vm_compute; reflexivity).
  - apply sample_opened_ready.
  - apply sample_context_ok; words.
  - vm_compute. congruence.
  - vm_compute. congruence.
  - vm_compute. split; congruence.
  - done.
  - constructor; (split; [vm_compute; congruence|apply is_accessible; vm_compute; reflexivity]).
  - vm_compute. split; reflexivity.
Qed.

Lemma no_pending_check r s :
  forallb (fun slot => match slot with Some c => negb (bool_decide (m_pending_server_thread c = Some s)) | None => true end)
    (m_items (m_channels r)) = true ->
  no_pending_call r s.
Proof.
  intros Hc j ch Hj%get_by_index_lookup Hp. rewrite forallb_forall in Hc. apply list_elem_of_lookup_2, list_elem_of_In in Hj.
  specialize (Hc _ Hj). cbn in Hc. by rewrite bool_decide_eq_true_2 in Hc.
Qed.

Lemma sample_no_pending : no_pending_call (runtime sample_opened) 1.
Proof. apply no_pending_check. vm_compute. reflexivity. Qed.

Lemma rpc_round_trip_witness :
  exists k1 k2,
    dispatch_syscall call_context sample_opened = Returned STATUS_OK k1 /\
    call_delivered sample_opened call_context 0 1 0 0 (sample_thread 0) (sample_thread 1) sample_channel sample_endpoint sample_delivered k1 /\
    dispatch_syscall complete_context {| runtime := runtime k1; host := sample_memory; events := events k1 |} = Returned STATUS_OK k2 /\
    call_completed sample_opened call_context 0 1 0 (sample_thread 0) (sample_thread 1) sample_channel 77 k2 /\ host k2 = sample_memory.
Proof.
  apply (rpc_round_trip sample_opened call_context 0 1 0 1 0 0 (sample_thread 0) (sample_thread 1) sample_channel sample_endpoint
    (sample_object 0) (sample_object 1) sample_delivered sample_memory complete_context);
    [exact sample_accepted|exact sample_no_pending|reflexivity].
Defined.
