(* ===== verification/KernelSpecs.v ===== *)
(** What the scheduler, thread exit and the start of the runtime do. *)
From S2P Require Import Prelude AddressSpace UserMemory KernelObjectPool RuntimeTypes UserRuntime Rpc Syscalls RuntimeInvariant KernelSafety RpcSafety SyscallSafety KernelSamples RpcSpecs.

(** ** The scheduler *)

Definition ready (p : kernel_object_pool thread) (i : nat) : Prop :=
  exists t, get_by_index p i = Some t /\ m_state t = USER_THREAD_STATE_READY.

(** How many slots after the one behind [after] slot [i] comes, cyclically; the
    slot of [after] itself comes last. *)
Definition turn (after : option nat) (i : nat) : nat :=
  match after with
  | Some a => (i + USER_RUNTIME_MAX_THREADS - S a) mod USER_RUNTIME_MAX_THREADS
  | None => i
  end.

Lemma ready_lt p i : capacity p = USER_RUNTIME_MAX_THREADS -> ready p i -> (i < USER_RUNTIME_MAX_THREADS)%nat.
Proof. intros Hc (t & Ht & _). rewrite <- Hc. by eapply get_by_index_lt. Qed.

Lemma turn_value a i : (a < 4)%nat -> (i < 4)%nat -> turn (Some a) i = if decide (S a <= i)%nat then (i - S a)%nat else (i + 4 - S a)%nat.
Proof.
  intros Ha Hi. unfold turn, USER_RUNTIME_MAX_THREADS. case_decide.
  - replace (i + 4 - S a)%nat with ((i - S a) + 1 * 4)%nat by lia. rewrite Nat.Div0.mod_add. apply Nat.mod_small. lia.
  - apply Nat.mod_small. lia.
Qed.

Lemma start_index_live p a t : get_by_index p a = Some t -> (a < USER_RUNTIME_MAX_THREADS)%nat -> start_index p (Some a) = S a.
Proof. intros Ht Ha. unfold start_index. by rewrite bool_decide_eq_true_2, Ht. Qed.

Lemma next_ready_spec p after :
  capacity p = USER_RUNTIME_MAX_THREADS -> points_to (fun a => is_Some (get_by_index p a)) after ->
  match next_ready p after with
  | Some i => ready p i /\ forall j, ready p j -> (turn after i <= turn after j)%nat
  | None => forall j, ~ ready p j
  end.
Proof.
  intros Hc Ha. unfold next_ready.
  assert (exists start, start_index p after = start /\ (start <= 4)%nat /\
    forall i j, (i < 4)%nat -> (j < 4)%nat -> (start <= i /\ (j < start \/ i <= j) \/ (i < start /\ j < start /\ i <= j))%nat ->
      (turn after i <= turn after j)%nat) as (start & -> & Hs & Hturn).
  { destruct after as [a|].
    - destruct (Ha a eq_refl) as [t Ht]. pose proof (get_by_index_lt _ _ _ Ht) as Hlt. rewrite Hc in Hlt.
      unfold USER_RUNTIME_MAX_THREADS in Hlt. exists (S a). split; [by eapply start_index_live|]. split; [lia|].
      intros i j Hi Hj Hij. rewrite !turn_value by lia. repeat case_decide; lia.
    - exists 0%nat. split; [done|]. split; [lia|]. intros i j Hi Hj Hij. unfold turn. lia. }
  unfold USER_RUNTIME_MAX_THREADS in *.
  assert (forall j, ready p j -> (j < 4)%nat) as Hlt by (intros j Hj; by apply (ready_lt p j Hc)).
  destruct (find_ready_between p start (4 - start)) as [i|] eqn:E1.
  - apply find_ready_between_Some in E1 as (Hi & Hready & Hbefore). split; [exact Hready|]. intros j Hj.
    pose proof (Hlt j Hj). apply Hturn; [lia|lia|]. destruct (decide (j < start)%nat); [lia|]. destruct (decide (i <= j)%nat); [lia|].
    destruct Hj as (t & Ht & Hst). destruct (Hbefore j t); [lia|done|done].
  - pose proof (proj1 (find_ready_between_None _ _ _) E1) as Hnone.
    assert (forall j, ready p j -> (j < start)%nat) as Hfirst.
    { intros j Hj. pose proof (Hlt j Hj). destruct (decide (j < start)%nat); [done|]. destruct Hj as (t & Ht & Hst).
      destruct (Hnone j t); [lia|done|done]. }
    destruct (find_ready_between p 0 start) as [i|] eqn:E2.
    + apply find_ready_between_Some in E2 as (Hi & Hready & Hbefore). split; [exact Hready|]. intros j Hj.
      pose proof (Hfirst j Hj). apply Hturn; [lia|lia|]. destruct (decide (i <= j)%nat); [lia|].
      destruct Hj as (t & Ht & Hst). destruct (Hbefore j t); [lia|done|done].
    + pose proof (proj1 (find_ready_between_None _ _ _) E2) as Hnone2. intros j Hj. pose proof (Hfirst j Hj).
      destruct Hj as (t & Ht & Hst). destruct (Hnone2 j t); [lia|done|done].
Qed.

(** C23: find_next_ready_thread finds a ready thread whenever there is one, and finds the first
    of them in cyclic slot order after the given thread, which itself comes last. *)
Theorem find_next_ready_thread_round_robin after k :
  runtime_wf (runtime k) -> points_to (live_thread (runtime k)) after ->
  exists next, find_next_ready_thread after k = Returned next k /\
    match next with
    | Some i => ready (m_threads (runtime k)) i /\
                forall j, ready (m_threads (runtime k)) j -> (turn after i <= turn after j)%nat
    | None => forall j, ~ ready (m_threads (runtime k)) j
    end.
Proof.
  intros Hr Ha. eexists. split; [reflexivity|]. apply next_ready_spec; [by apply wf_thread_capacity|exact Ha].
Qed.

Lemma find_next_ready_thread_round_robin_witness :
  exists next, find_next_ready_thread (Some 0%nat) sample_opened = Returned next sample_opened /\
    match next with
    | Some i => ready (m_threads (runtime sample_opened)) i /\
                forall j, ready (m_threads (runtime sample_opened)) j -> (turn (Some 0) i <= turn (Some 0) j)%nat
    | None => forall j, ~ ready (m_threads (runtime sample_opened)) j
    end.
Proof.
  apply (find_next_ready_thread_round_robin (Some 0%nat) sample_opened); [exact (proj1 sample_opened_ready)|].
  apply points_to_Some. exists (sample_thread 0). vm_compute. reflexivity.
Defined.

(** ** Thread exit *)

Lemma cancel_call_returns i e pch x k :
  get_by_index (m_channels (runtime k)) i = Some pch -> m_endpoint pch = Some e -> m_endpoints (runtime k) !! e = Some x ->
  cancel_call i k =
    Returned tt (with_runtime k
      (with_channels (with_endpoints (runtime k) (<[e := set_busy false x]> (m_endpoints (runtime k))))
         (update_at (m_channels (runtime k)) i (idle_channel pch)))).
Proof.
  intros Hp He Hx. unfold cancel_call. erewrite bind_eq by (by apply read_at_returns).
  unfold set_endpoint_busy. rewrite He. erewrite bind_eq by (by apply set_busy_returns). by erewrite update_returns.
Qed.

(** The endpoints after those owned by [a] have been cleared. *)
Definition endpoints_without (a : nat) (l : list rpc_endpoint) : list rpc_endpoint :=
  (fun e => if bool_decide (m_owner_thread e = Some a) then clear_endpoint else e) <$> l.

Lemma handle_thread_exit_returns `{Target} i a c e pch x C st k :
  pending_channel_of (m_channels (runtime k)) (Some a) = Some i ->
  get_by_index (m_channels (runtime k)) i = Some pch -> m_pending_client_thread pch = Some c -> c <> a ->
  m_endpoint pch = Some e -> m_endpoints (runtime k) !! e = Some x -> get_by_index (m_threads (runtime k)) c = Some C ->
  exists k', handle_thread_exit a st k = Returned tt k' /\
    (forall j, get_by_index (m_threads (runtime k')) j =
      if decide (c = j) then Some (prepare_syscall_resume (with_state C USER_THREAD_STATE_READY) st)
      else get_by_index (m_threads (runtime k)) j) /\
    m_channels (runtime k') = update_at (m_channels (runtime k)) i (idle_channel pch) /\
    m_endpoints (runtime k') = endpoints_without a (<[e := set_busy false x]> (m_endpoints (runtime k))) /\
    m_current_thread (runtime k') = m_current_thread (runtime k) /\ m_processes (runtime k') = m_processes (runtime k).
Proof.
  intros Hpend Hp Hcl Hne He Hx HC. unfold handle_thread_exit.
  set (k1 := with_runtime k (with_channels (with_endpoints (runtime k) (<[e := set_busy false x]> (m_endpoints (runtime k))))
         (update_at (m_channels (runtime k)) i (idle_channel pch)))).
  destruct (wake_client_returns c C st k1 HC) as (k2 & E2 & Ek2 & H2).
  erewrite bind_eq.
  2: { unfold fail_pending_call. erewrite bind_eq by reflexivity. rewrite Hpend.
       erewrite bind_eq by (by apply read_at_returns). cbv zeta. rewrite Hcl.
       erewrite bind_eq by (by eapply cancel_call_returns). fold k1. rewrite bool_decide_eq_false_2 by congruence. cbn [negb].
       by erewrite bind_eq by exact E2. }
  eexists. split; [reflexivity|]. cbn. split_and!; [done|by rewrite Ek2..].
Qed.

(** What exit leaves: the thread exited, its endpoints cleared, its caller awake
    with the failure, and a ready thread running. *)
Record exited `{Target} (a c i : nat) (C : thread) (pch : rpc_channel) (exit_status failure : Z) (k' : kernel) : Prop := {
  exited_thread : exists t, get_by_index (m_threads (runtime k')) a = Some t /\
    m_state t = USER_THREAD_STATE_EXITED /\ m_exit_status t = exit_status;
  exited_caller : exists t s, get_by_index (m_threads (runtime k')) c = Some t /\
    t = with_state (prepare_syscall_resume C failure) s /\ (s = USER_THREAD_STATE_READY \/ s = USER_THREAD_STATE_RUNNING);
  exited_channel : get_by_index (m_channels (runtime k')) i = Some (idle_channel pch);
  exited_endpoints : forall e x, m_endpoints (runtime k') !! e = Some x -> m_owner_thread x <> Some a;
  exited_next : exists n t, m_current_thread (runtime k') = Some n /\ n <> a /\
    get_by_index (m_threads (runtime k')) n = Some t /\ m_state t = USER_THREAD_STATE_RUNNING;
}.

Lemma schedule_returns a ta n k :
  m_current_thread (runtime k) = Some a -> get_by_index (m_threads (runtime k)) a = Some ta ->
  m_state ta = USER_THREAD_STATE_EXITED -> next_ready (m_threads (runtime k)) (Some a) = Some n ->
  exists tn k', get_by_index (m_threads (runtime k)) n = Some tn /\ m_state tn = USER_THREAD_STATE_READY /\ n <> a /\
    schedule_next_ready_thread k = Returned true k' /\ m_current_thread (runtime k') = Some n /\
    (forall j, get_by_index (m_threads (runtime k')) j =
      if decide (n = j) then Some (with_state tn USER_THREAD_STATE_RUNNING) else get_by_index (m_threads (runtime k)) j) /\
    m_channels (runtime k') = m_channels (runtime k) /\ m_endpoints (runtime k') = m_endpoints (runtime k).
Proof.
  intros Ha Hta Hex Hn. pose proof (next_ready_Some _ _ _ Hn) as (tn & Htn & Hready).
  assert (n <> a) as Hne by congruence. exists tn.
  pose proof (switch_returns a n ta tn k Ha ltac:(done) Hta ltac:(congruence) Htn Hready) as E.
  match type of E with _ = Returned tt ?kf => set (k1 := kf) in E end. exists k1.
  split_and!; try done.
  - unfold schedule_next_ready_thread. erewrite bind_eq by reflexivity. rewrite Ha. erewrite bind_eq by reflexivity.
    rewrite Hn. by erewrite bind_eq by exact E.
  - intros j. by apply (thread_after (runtime k) n tn).
Qed.

(** The rest of the exit of [a], when a thread [c] is ready. *)
Lemma retire_returns a c ta W exit_status k :
  capacity (m_threads (runtime k)) = USER_RUNTIME_MAX_THREADS -> m_current_thread (runtime k) = Some a -> c <> a ->
  get_by_index (m_threads (runtime k)) a = Some ta ->
  get_by_index (m_threads (runtime k)) c = Some W -> m_state W = USER_THREAD_STATE_READY ->
  exists n tn k',
    (set_state a USER_THREAD_STATE_EXITED;; update a (fun t => with_exit t exit_status);; schedule_next_ready_thread) k
      = Returned true k' /\
    m_current_thread (runtime k') = Some n /\ n <> a /\ get_by_index (m_threads (runtime k)) n = Some tn /\
    (forall j, get_by_index (m_threads (runtime k')) j =
      if decide (n = j) then Some (with_state tn USER_THREAD_STATE_RUNNING)
      else if decide (a = j) then Some (with_exit (with_state ta USER_THREAD_STATE_EXITED) exit_status)
      else get_by_index (m_threads (runtime k)) j) /\
    m_channels (runtime k') = m_channels (runtime k) /\ m_endpoints (runtime k') = m_endpoints (runtime k).
Proof.
  intros Hcap Ha Hne Hta HW Hready. set (t2 := with_state ta USER_THREAD_STATE_EXITED).
  unfold set_state. erewrite bind_eq by (by apply update_returns). set (k2 := with_runtime k _).
  pose proof (fun j => thread_after (runtime k) a ta t2 j Hta) as H2.
  assert (get_by_index (m_threads (runtime k2)) a = Some t2) as Hta2 by (etrans; [apply H2|by rewrite decide_True]).
  erewrite bind_eq by (by apply update_returns). set (k3 := with_runtime k2 _).
  assert (forall j, get_by_index (m_threads (runtime k3)) j =
    if decide (a = j) then Some (with_exit t2 exit_status) else get_by_index (m_threads (runtime k)) j) as H3.
  { intros j. etrans; [by apply (thread_after (runtime k2) a t2)|]. destruct (decide (a = j)); [done|].
    etrans; [apply H2|]. by rewrite decide_False. }
  assert (capacity (m_threads (runtime k3)) = USER_RUNTIME_MAX_THREADS) as Hcap3.
  { rewrite <- Hcap. unfold capacity. cbn. by rewrite !length_insert. }
  assert (get_by_index (m_threads (runtime k3)) a = Some (with_exit t2 exit_status)) as Hta3 by (by rewrite H3, decide_True).
  pose proof (next_ready_spec (m_threads (runtime k3)) (Some a) Hcap3) as Hnext.
  specialize (Hnext (points_to_Some (fun j => is_Some (get_by_index (m_threads (runtime k3)) j)) a (mk_is_Some _ _ Hta3))).
  destruct (next_ready (m_threads (runtime k3)) (Some a)) as [n|] eqn:En.
  2: { exfalso. apply (Hnext c). exists W. by rewrite H3, decide_False. }
  destruct (schedule_returns a _ n k3 Ha Hta3 eq_refl En) as (tn & k4 & Htn & _ & Hna & E4 & Hcur & H4 & Hch & Hep).
  exists n, tn, k4. rewrite H3, decide_False in Htn by done. split_and!; try done.
  intros j. rewrite H4. destruct (decide (n = j)); [done|]. apply H3.
Qed.

(** C12: When a thread exits while it serves a call, the caller becomes ready (or runs) with the
    failure status as the result of its call, the channel is idle again, no endpoint belongs to
    the exited thread, and a ready thread is current and running. *)
Theorem terminate_current_thread_fails_caller `{Target} a c i e ta C pch x exit_status failure k :
  runtime_wf (runtime k) -> m_current_thread (runtime k) = Some a -> get_by_index (m_threads (runtime k)) a = Some ta ->
  pending_channel_of (m_channels (runtime k)) (Some a) = Some i ->
  get_by_index (m_channels (runtime k)) i = Some pch -> m_pending_client_thread pch = Some c -> c <> a ->
  m_endpoint pch = Some e -> m_endpoints (runtime k) !! e = Some x -> get_by_index (m_threads (runtime k)) c = Some C ->
  exists k', terminate_current_thread exit_status failure k = Returned true k' /\
    exited a c i C pch exit_status failure k'.
Proof.
  intros Hr Ha Hta Hpend Hp Hcl Hne He Hx HC.
  destruct (handle_thread_exit_returns i a c e pch x C failure k Hpend Hp Hcl Hne He Hx HC)
    as (k1 & E1 & H1 & Hch1 & He1 & Hcur1 & Hpr1).
  pose proof (handle_thread_exit_safe a failure k Hr) as Hsafe. unfold twp in Hsafe. rewrite E1 in Hsafe.
  set (W := prepare_syscall_resume (with_state C USER_THREAD_STATE_READY) failure) in *.
  assert (m_state W = USER_THREAD_STATE_READY) as HW by (unfold W, prepare_syscall_resume; by destruct target).
  assert (forall s, with_state W s = with_state (prepare_syscall_resume C failure) s) as HWs.
  { intros s. unfold W, prepare_syscall_resume. by destruct target. }
  destruct (retire_returns a c ta W exit_status k1) as (n & tn & k' & E & Hcur & Hna & Htn & Hj & Hch & Hep); try done.
  { apply wf_thread_capacity, Hsafe. }
  { by rewrite Hcur1. }
  { by rewrite H1, decide_False. }
  { by rewrite H1, decide_True. }
  exists k'. split.
  { unfold terminate_current_thread. erewrite bind_eq by reflexivity. rewrite Ha. by erewrite bind_eq by exact E1. }
  constructor.
  - eexists. rewrite Hj, decide_False, decide_True by done. by split_and!.
  - rewrite Hj. destruct (decide (n = c)) as [->|Hnc].
    + rewrite H1, decide_True in Htn by done. injection Htn as <-.
      exists (with_state W USER_THREAD_STATE_RUNNING), USER_THREAD_STATE_RUNNING. split_and!; [done|apply HWs|by right].
    + exists W, USER_THREAD_STATE_READY. rewrite decide_False, H1, decide_True by done.
      split_and!; [done| |by left]. unfold W, prepare_syscall_resume. by destruct target.
  - rewrite Hch, Hch1, (get_update_at _ _ _ _ pch) by done. by rewrite decide_True.
  - intros j y. rewrite Hep, He1. unfold endpoints_without. rewrite list_lookup_fmap.
    destruct (_ !! j) as [z|]; [|done]. cbn. intros [= <-]. by case_bool_decide.
  - exists n, (with_state tn USER_THREAD_STATE_RUNNING). by rewrite Hj, decide_True.
Qed.

(** The server exits while it serves the client's call. *)
Lemma terminate_current_thread_fails_caller_witness :
  exists k', terminate_current_thread 3 STATUS_PEER_CLOSED sample_called = Returned true k' /\
    exited 1 0 0 (thread_of sample_called 0) (channel_of sample_called 0) 3 STATUS_PEER_CLOSED k'.
Proof.
  apply (terminate_current_thread_fails_caller 1 0 0 0 (thread_of sample_called 1) (thread_of sample_called 0)
    (channel_of sample_called 0) (endpoint_of sample_called 0) 3 STATUS_PEER_CLOSED sample_called).
  1: exact sample_called_wf.
  all: vm_compute; first [reflexivity | congruence].
Defined.

(** ** A call on x86-64, from the client's trap to the server's first instruction *)

(** The thread whose registers the trap has saved, and the arguments it passes. *)
Definition saved (k : kernel) (f : x64_syscall_frame) (c : nat) (tc : thread) : kernel :=
  with_runtime k (with_threads (runtime k) (update_at (m_threads (runtime k)) c (save_preserved f tc))).

Definition context_of_frame (f : x64_syscall_frame) : user_syscall_context :=
  make_user_syscall_context (rax f) (rcx f) (user_rsp f) (r11 f) (rdi f) (rsi f) (rdx f) (r10 f) (r8 f) (r9 f).

(** A thread holds the callee-saved registers of a frame. *)
Definition callee_saved : list (nat * (x64_syscall_frame -> Z)) :=
  [(X64_PRESERVED_REGISTER_RBX_INDEX, rbx); (X64_PRESERVED_REGISTER_RBP_INDEX, rbp); (X64_PRESERVED_REGISTER_R12_INDEX, r12);
   (X64_PRESERVED_REGISTER_R13_INDEX, r13); (X64_PRESERVED_REGISTER_R14_INDEX, r14); (X64_PRESERVED_REGISTER_R15_INDEX, r15)].

Definition holds_registers (t : thread) (f : x64_syscall_frame) : Prop :=
  Forall (fun '(i, register) => m_arch_preserved_registers t !! i = Some (register f)) callee_saved /\
  m_arch_preserved_simd_qwords t = preserved_xmm_qwords f.

(** The registers with which the callback of endpoint [x] starts on thread [ts]. *)
Record callback_frame (x : rpc_endpoint) (ts : thread) (size : Z) (f : x64_syscall_frame) : Prop := {
  callback_entry : rcx f = m_callback_address x;
  callback_request : rdi f = request_address (context_stack_pointer (m_user_context ts)) size;
  callback_size : rsi f = size;
  callback_stack : user_rsp f = u64 (request_address (context_stack_pointer (m_user_context ts)) size - 8);
  callback_flags : r11 f = context_flags (m_user_context ts);
  callback_status : rax f = 0;
  callback_preserved : holds_registers ts f;
}.

Lemma load_called_server a ts x k :
  length (m_arch_preserved_registers ts) = USER_THREAD_ARCH_PRESERVED_REGISTER_COUNT ->
  exists f, load_user_thread_frame (called_server (H := x64_target) a ts x) k = Returned f k /\
    callback_frame x ts (argument2 a) f.
Proof.
  intros Hl. unfold USER_THREAD_ARCH_PRESERVED_REGISTER_COUNT in Hl.
  remember (m_arch_preserved_registers ts) as regs eqn:Er.
  do 12 (destruct regs as [|? regs]; [done|]). destruct regs; [|done].
  unfold load_user_thread_frame, called_server. cbn -[s64 u64 request_address]. rewrite <- Er.
  eexists. split; [reflexivity|]. constructor; try reflexivity. split; [|reflexivity]. rewrite <- Er. by repeat constructor.
Qed.

Lemma save_preserved_holds f t :
  length (m_arch_preserved_registers t) = USER_THREAD_ARCH_PRESERVED_REGISTER_COUNT -> holds_registers (save_preserved f t) f.
Proof.
  intros Hl. unfold USER_THREAD_ARCH_PRESERVED_REGISTER_COUNT in Hl. split; [|done].
  unfold save_preserved, with_preserved. cbn [m_arch_preserved_registers]. destruct (m_arch_preserved_registers t) as [|? regs]; [done|].
  do 11 (destruct regs as [|? regs]; [done|]). by repeat constructor.
Qed.

Lemma has_runnable_returns s t k :
  m_current_thread (runtime k) = Some s -> get_by_index (m_threads (runtime k)) s = Some t ->
  m_state t = USER_THREAD_STATE_RUNNING -> has_runnable_thread k = Returned true k.
Proof.
  intros Hs Ht Hr. unfold has_runnable_thread. erewrite bind_eq by reflexivity. rewrite Hs.
  erewrite bind_eq by (by apply get_state_returns). rewrite Hr, bool_decide_eq_true_2 by done.
  erewrite bind_eq by (by apply get_state_returns). by rewrite Hr, bool_decide_eq_true_2.
Qed.

(** The word at the callback's stack pointer is its return address. *)
Lemma delivered_return_address client server m address size sp completion m' :
  address_space_wf server -> host_injective server -> u64_ok completion ->
  delivered_memory (H := x64_target) client server m address size sp completion = (STATUS_OK, m') ->
  copy_user_bytes server m' (u64 (request_address sp size - 8)) 8 true = Some (STATUS_OK, le_encode 8 completion).
Proof.
  intros Hwf Hinj Hok. unfold delivered_memory. destruct (copy_between_reference _ _ _ _ _ _) as [st m1].
  destruct (Z.eqb_spec st STATUS_OK) as [->|]; cbn [negb]; [|by intros [= ->]]. cbn [target x64_target callback_stack_pointer].
  intros Hw. pose proof (write_then_copy server m1 (u64 (request_address sp size - 8)) (le_encode 8 completion) m' Hwf Hinj) as H.
  rewrite length_le_encode in H. destruct H as [H _]; [unfold u64_ok; lia| |exact H].
  rewrite write_user_bytes_eq, <- Hw by (done || (rewrite length_le_encode; unfold u64_ok; lia)). done.
Qed.

(** C11: On x86-64, the trap of an accepted call returns to user mode on the server's thread (of
    a process whose address space maps no byte twice): at the endpoint's callback, with the
    request's address and size in the first two argument registers, status 0, the callee-saved
    registers of the server's thread (RBX, RBP, R12 to R15 and the saved XMM words), and a stack
    pointer at which the server's memory holds the completion address; and the caller's thread
    keeps the callee-saved registers of its trap frame. *)
Theorem x64_call_enters_callback k f c s p q i e t0 tc ts ch x client server m' :
  m_current_thread (runtime k) = Some c -> get_by_index (m_threads (runtime k)) c = Some t0 -> tc = save_preserved f t0 ->
  call_accepted (H := x64_target) (saved k f c t0) (context_of_frame f) c s p q i e tc ts ch x client server m' ->
  host_injective (m_address_space server) -> u64_ok (m_completion_address x) ->
  exists f' k', x64_handle_syscall (Some f) k = Returned (continues (true, f')) k' /\
    callback_frame x ts (rdx f) f' /\ m_current_thread (runtime k') = Some s /\
    (exists tc', get_by_index (m_threads (runtime k')) c = Some tc' /\ holds_registers tc' f) /\
    copy_user_bytes (m_address_space server) (host k') (user_rsp f') 8 true =
      Some (STATUS_OK, le_encode 8 (m_completion_address x)).
Proof.
  intros Hc Ht0 Htc Hacc Hinj Hok.
  destruct (call_delivers _ _ _ _ _ _ _ _ _ _ _ _ _ _ _ Hacc) as (k1 & E1 & D). destruct Hacc, D.
  assert (length (m_arch_preserved_registers ts) = USER_THREAD_ARCH_PRESERVED_REGISTER_COUNT) as Hl.
  { exact (thread_registers _ _ _ _ (wf_thread _ accepted_wf s ts accepted_server)). }
  destruct (load_called_server (context_of_frame f) ts x k1 Hl) as (f' & Ef & Hf).
  assert (has_runnable_thread k1 = Returned true k1) as Hrun by (by eapply has_runnable_returns).
  exists f', k1. split; [|split; [exact Hf|split; [done|split]]].
  - unfold x64_handle_syscall. erewrite bind_eq by reflexivity. rewrite Hc.
    erewrite bind_eq by (by apply update_returns). erewrite bind_eq by exact E1.
    erewrite bind_eq by exact Hrun. cbn [negb]. erewrite bind_eq by reflexivity. rewrite delivered_current.
    rewrite bool_decide_eq_false_2 by done. erewrite bind_eq by reflexivity.
    erewrite bind_eq by (by apply read_at_returns). erewrite bind_eq by exact Ef. by erewrite bind_eq by exact Hrun.
  - eexists. split; [exact delivered_client|].
    pose proof (thread_registers _ _ _ _ (wf_thread _ accepted_wf c tc accepted_client)) as Hlc.
    rewrite Htc in Hlc |- *. apply save_preserved_holds. revert Hlc. unfold save_preserved, with_preserved. cbn [m_arch_preserved_registers].
    by rewrite !length_insert.
  - rewrite delivered_host, (callback_stack _ _ _ _ Hf).
    eapply delivered_return_address; [exact (wf_process _ accepted_wf q server accepted_server_object)|done|done|exact accepted_memory].
Qed.

Definition call_frame : x64_syscall_frame :=
  {| r9 := 0; r8 := 0; r10 := 0; rdx := 16; rsi := 0x1100; rdi := 5; rax := SYSCALL_RPC_CALL; rcx := 0x1004; r11 := 0x202;
     user_rsp := 0x1EDC; r15 := 1; r14 := 2; r13 := 3; r12 := 4; rbp := 5; rbx := 6; preserved_xmm_qwords := replicate 20 0 |}.

Definition sample_saved : kernel := saved sample_opened call_frame 0 (thread_of sample_opened 0).

Lemma saved_wf k f c t :
  runtime_wf (runtime k) -> get_by_index (m_threads (runtime k)) c = Some t -> frame_ok f -> runtime_wf (runtime (saved k f c t)).
Proof.
  intros Hr Ht (_ & _ & _ & Hq). eapply update_thread_wf; [exact Hr|exact Ht|reflexivity|].
  destruct (wf_thread _ Hr c t Ht). constructor; try done. unfold save_preserved, with_preserved, m_arch_preserved_registers.
  by rewrite !length_insert.
Qed.

Lemma sample_saved_wf : runtime_wf (runtime sample_saved).
Proof.
  apply saved_wf; [exact (proj1 sample_opened_ready)|vm_compute; reflexivity|].
  unfold frame_ok. cbn. split_and!; [words..|done].
Qed.

Lemma sample_saved_accepted :
  call_accepted (H := x64_target) sample_saved (context_of_frame call_frame) 0 1 0 1 0 0
    (save_preserved call_frame (thread_of sample_opened 0)) (thread_of sample_opened 1) sample_channel sample_endpoint
    (sample_object 0) (sample_object 1) sample_delivered.
Proof.
  constructor; try (vm_compute; reflexivity).
  - apply sample_saved_wf.
  - constructor; vm_compute; split; congruence.
  - vm_compute. congruence.
  - vm_compute. congruence.
  - vm_compute. split; congruence.
  - done.
  - constructor; (split; [vm_compute; congruence|apply is_accessible; vm_compute; reflexivity]).
  - vm_compute. split; reflexivity.
Qed.

Lemma server_page_injective : host_injective (one_page 0x20000).
Proof.
  assert (active (one_page 0x20000) = [new_mapping 0x1000 0x20000 0x1000]) as Ha by reflexivity.
  intros x y h (m1 & Hm1 & Hc1 & _ & E1)%byte_host_Some (m2 & Hm2 & Hc2 & _ & E2)%byte_host_Some; [|by apply one_page_wf..].
  rewrite Ha in Hm1, Hm2. apply list_elem_of_In in Hm1, Hm2. unfold covers in *.
  destruct Hm1 as [<-|[]], Hm2 as [<-|[]]. cbn [user_address mapping_size host_address new_mapping] in *. lia.
Qed.

Lemma x64_call_enters_callback_witness :
  exists f' k', x64_handle_syscall (Some call_frame) sample_opened = Returned (continues (true, f')) k' /\
    callback_frame sample_endpoint (thread_of sample_opened 1) 16 f' /\ m_current_thread (runtime k') = Some 1%nat /\
    (exists tc', get_by_index (m_threads (runtime k')) 0 = Some tc' /\ holds_registers tc' call_frame) /\
    copy_user_bytes (m_address_space (sample_object 1)) (host k') (user_rsp f') 8 true =
      Some (STATUS_OK, le_encode 8 (m_completion_address sample_endpoint)).
Proof.
  apply (x64_call_enters_callback sample_opened call_frame 0 1 0 1 0 0 (thread_of sample_opened 0)
    (save_preserved call_frame (thread_of sample_opened 0)) (thread_of sample_opened 1) sample_channel sample_endpoint
    (sample_object 0) (sample_object 1) sample_delivered).
  4: exact sample_saved_accepted.
  4: { assert (m_address_space (sample_object 1) = one_page 0x20000) as -> by (vm_compute; reflexivity).
       exact server_page_injective. }
  all: vm_compute; first [reflexivity | split; congruence].
Defined.
