(* ===== verification/KernelFindings.v ===== *)
(** Three runs of the concrete kernel that end in states its design does not
    mean to allow. *)
From S2P Require Import Prelude AddressSpace UserMemory KernelObjectPool RuntimeTypes UserRuntime Rpc Syscalls KernelSamples.

(** A sequence of system calls, each made by the current thread. *)
Definition after_syscalls (k : kernel) (l : list user_syscall_context) : kernel :=
  fold_left (fun k c => state_after (dispatch_syscall c) k) l k.

Definition frame_of (number a0 a1 a2 : Z) : x64_syscall_frame :=
  {| r9 := 0; r8 := 0; r10 := 0; rdx := a2; rsi := a1; rdi := a0; rax := number; rcx := 0x1004; r11 := 0x202;
     user_rsp := 0x1EDC; r15 := 0; r14 := 0; r13 := 0; r12 := 0; rbp := 0; rbx := 0; preserved_xmm_qwords := replicate 20 0 |}.

(** The client exits, and the server opens a channel to its own endpoint. *)
Definition alone : kernel :=
  after_syscalls sample_registered [sample_syscall SYSCALL_THREAD_EXIT 0 0 0; sample_syscall SYSCALL_RPC_OPEN 0x1100 0x1194 0].

(** The server calls itself: it resumes after the trap with status 0, not in the
    callback at 0x1130, and its channel and endpoint stay busy. *)
Example self_call_is_lost :
  match x64_handle_syscall (Some (frame_of SYSCALL_RPC_CALL 5 0x1100 16)) alone with
  | Returned (continues (true, f)) k =>
      m_current_thread (runtime alone) = Some 1%nat /\ m_current_thread (runtime k) = Some 1%nat /\
      rcx f = 0x1004 /\ rax f = 0 /\ rdi f = 5 /\
      m_callback_address (endpoint_of k 0) = 0x1130 /\ m_is_busy (endpoint_of k 0) = true /\ channel_is_busy (channel_of k 0) = true
  | _ => False
  end.
Proof. vm_compute. by split_and!. Qed.

(** The server exits and the client registers the name itself: the client's
    channel, opened to the server, now leads to the client's own endpoint. *)
Definition reused : kernel :=
  after_syscalls sample_opened [call_context; sample_syscall SYSCALL_THREAD_EXIT 0 0 0; sample_syscall SYSCALL_RPC_REGISTER 0x1100 0x1140 0x114A].

Example stale_channel_reaches_new_owner :
  m_owner_thread (endpoint_of sample_opened 0) = Some 1%nat /\ m_endpoint (channel_of sample_opened 0) = Some 0%nat /\
  m_endpoint (channel_of reused 0) = Some 0%nat /\ m_is_in_use (endpoint_of reused 0) = true /\
  m_owner_thread (endpoint_of reused 0) = Some 0%nat.
Proof. vm_compute. by split_and!. Qed.

(** The client registers a second endpoint, which the server calls; the client
    serves that call and calls the server, which is blocked: the server becomes
    the current thread, still blocked, and nothing can run. *)
Definition crossed : kernel :=
  after_syscalls sample_registered
    [sample_syscall SYSCALL_RPC_REGISTER 0x1120 0x1140 0x114A; sample_syscall SYSCALL_RPC_OPEN 0x1120 0x1194 0;
     sample_syscall SYSCALL_RPC_CALL 5 0x1100 16; sample_syscall SYSCALL_RPC_OPEN 0x1100 0x1194 0].

Example call_to_blocked_server_stops :
  m_state (thread_of crossed 0) = USER_THREAD_STATE_RUNNING /\ m_state (thread_of crossed 1) = USER_THREAD_STATE_BLOCKED /\
  match x64_handle_syscall (Some (frame_of SYSCALL_RPC_CALL 6 0x1100 16)) crossed with
  | Returned (continues (b, _)) k =>
      b = false /\ m_current_thread (runtime k) = Some 1%nat /\ m_state (thread_of k 1) = USER_THREAD_STATE_BLOCKED /\
      m_state (thread_of k 0) = USER_THREAD_STATE_BLOCKED
  | _ => False
  end.
Proof. vm_compute. by split_and!. Qed.
