(* ===== verification/PeImage.v ===== *)
(** [win32/pe_image.cpp]: the loader of PE32+ images. *)
From S2P Require Import Prelude.

Definition PE_DOS_SIGNATURE : Z := 0x5A4D.
Definition PE_NT_SIGNATURE : Z := 0x4550.
Definition PE_MACHINE_ARM64 : Z := 0xAA64.
Definition PE_MACHINE_X64 : Z := 0x8664.
Definition PE32_PLUS_MAGIC : Z := 0x20B.
Definition PE_IMPORT_DIRECTORY_INDEX : nat := 1.
Definition PE_BASE_RELOCATION_DIRECTORY_INDEX : nat := 5.

(** ** The records of the file, as the packed structures lay them out *)

Record pe_dos_header := { e_magic : Z; e_lfanew : Z (* int32_t *) }.

Record pe_file_header := {
  machine : Z; number_of_sections : Z; time_date_stamp : Z; pointer_to_symbol_table : Z;
  number_of_symbols : Z; size_of_optional_header : Z; characteristics : Z;
}.

Record pe_data_directory := { directory_virtual_address : Z; directory_size : Z }.

Record pe_optional_header64 := {
  magic : Z; major_linker_version : Z; minor_linker_version : Z; size_of_code : Z; size_of_initialized_data : Z;
  size_of_uninitialized_data : Z; address_of_entry_point : Z; base_of_code : Z; image_base : Z;
  section_alignment : Z; file_alignment : Z; major_operating_system_version : Z; minor_operating_system_version : Z;
  major_image_version : Z; minor_image_version : Z; major_subsystem_version : Z; minor_subsystem_version : Z;
  win32_version_value : Z; size_of_image : Z; size_of_headers : Z; check_sum : Z; subsystem : Z; dll_characteristics : Z;
  size_of_stack_reserve : Z; size_of_stack_commit : Z; size_of_heap_reserve : Z; size_of_heap_commit : Z;
  loader_flags : Z; number_of_rva_and_sizes : Z; data_directories : list pe_data_directory;
}.

Record pe_nt_headers64 := { signature : Z; file_header : pe_file_header; optional_header : pe_optional_header64 }.

Record pe_section_header := {
  section_name : list Z; virtual_size : Z; virtual_address : Z; size_of_raw_data : Z; pointer_to_raw_data : Z;
  pointer_to_relocations : Z; pointer_to_linenumbers : Z; number_of_relocations : Z; number_of_linenumbers : Z;
  section_characteristics : Z;
}.

(** A little-endian field of [n] bytes at an offset. *)
Definition field (off n : nat) (bs : list Z) : Z := le_decode (slice off n bs).

Definition decode_dos_header (bs : list Z) : pe_dos_header :=
  {| e_magic := field 0 2 bs; e_lfanew := s32 (field 60 4 bs) |}.

Definition decode_file_header (bs : list Z) : pe_file_header :=
  {| machine := field 0 2 bs; number_of_sections := field 2 2 bs; time_date_stamp := field 4 4 bs;
     pointer_to_symbol_table := field 8 4 bs; number_of_symbols := field 12 4 bs;
     size_of_optional_header := field 16 2 bs; characteristics := field 18 2 bs |}.

Definition decode_data_directory (bs : list Z) : pe_data_directory :=
  {| directory_virtual_address := field 0 4 bs; directory_size := field 4 4 bs |}.

Definition decode_optional_header (bs : list Z) : pe_optional_header64 :=
  {| magic := field 0 2 bs; major_linker_version := field 2 1 bs; minor_linker_version := field 3 1 bs;
     size_of_code := field 4 4 bs; size_of_initialized_data := field 8 4 bs; size_of_uninitialized_data := field 12 4 bs;
     address_of_entry_point := field 16 4 bs; base_of_code := field 20 4 bs; image_base := field 24 8 bs;
     section_alignment := field 32 4 bs; file_alignment := field 36 4 bs;
     major_operating_system_version := field 40 2 bs; minor_operating_system_version := field 42 2 bs;
     major_image_version := field 44 2 bs; minor_image_version := field 46 2 bs;
     major_subsystem_version := field 48 2 bs; minor_subsystem_version := field 50 2 bs;
     win32_version_value := field 52 4 bs; size_of_image := field 56 4 bs; size_of_headers := field 60 4 bs;
     check_sum := field 64 4 bs; subsystem := field 68 2 bs; dll_characteristics := field 70 2 bs;
     size_of_stack_reserve := field 72 8 bs; size_of_stack_commit := field 80 8 bs;
     size_of_heap_reserve := field 88 8 bs; size_of_heap_commit := field 96 8 bs;
     loader_flags := field 104 4 bs; number_of_rva_and_sizes := field 108 4 bs;
     data_directories := (fun i => decode_data_directory (slice (112 + 8 * i) 8 bs)) <$> seq 0 16 |}.

Definition decode_nt_headers (bs : list Z) : pe_nt_headers64 :=
  {| signature := field 0 4 bs; file_header := decode_file_header (slice 4 20 bs);
     optional_header := decode_optional_header (slice 24 240 bs) |}.

Definition decode_section_header (bs : list Z) : pe_section_header :=
  {| section_name := slice 0 8 bs; virtual_size := field 8 4 bs; virtual_address := field 12 4 bs;
     size_of_raw_data := field 16 4 bs; pointer_to_raw_data := field 20 4 bs; pointer_to_relocations := field 24 4 bs;
     pointer_to_linenumbers := field 28 4 bs; number_of_relocations := field 32 2 bs; number_of_linenumbers := field 34 2 bs;
     section_characteristics := field 36 4 bs |}.

(** [sizeof] of the structures. *)
Definition sizeof_dos_header : Z := 64.
Definition sizeof_file_header : Z := 20.
Definition sizeof_optional_header64 : Z := 240.
Definition sizeof_nt_headers64 : Z := 264.
Definition sizeof_section_header : Z := 40.

Inductive pe_image_load_status :=
  | PE_IMAGE_LOAD_STATUS_OK
  | PE_IMAGE_LOAD_STATUS_INVALID_ARGUMENT
  | PE_IMAGE_LOAD_STATUS_MISSING_DOS_HEADER
  | PE_IMAGE_LOAD_STATUS_INVALID_DOS_HEADER
  | PE_IMAGE_LOAD_STATUS_MISSING_NT_HEADERS
  | PE_IMAGE_LOAD_STATUS_INVALID_NT_SIGNATURE
  | PE_IMAGE_LOAD_STATUS_WRONG_MACHINE
  | PE_IMAGE_LOAD_STATUS_MISSING_SECTIONS
  | PE_IMAGE_LOAD_STATUS_UNSUPPORTED_OPTIONAL_HEADER
  | PE_IMAGE_LOAD_STATUS_UNSUPPORTED_MAGIC
  | PE_IMAGE_LOAD_STATUS_UNEXPECTED_IMAGE_BASE
  | PE_IMAGE_LOAD_STATUS_UNSUPPORTED_ALIGNMENT
  | PE_IMAGE_LOAD_STATUS_IMAGE_TOO_LARGE
  | PE_IMAGE_LOAD_STATUS_HEADERS_OUT_OF_RANGE
  | PE_IMAGE_LOAD_STATUS_ENTRY_POINT_OUT_OF_RANGE
  | PE_IMAGE_LOAD_STATUS_INVALID_IMPORT_DIRECTORY
  | PE_IMAGE_LOAD_STATUS_UNEXPECTED_IMPORTS
  | PE_IMAGE_LOAD_STATUS_UNEXPECTED_RELOCATIONS
  | PE_IMAGE_LOAD_STATUS_TRUNCATED_SECTION_TABLE
  | PE_IMAGE_LOAD_STATUS_SECTION_OUT_OF_RANGE
  | PE_IMAGE_LOAD_STATUS_SECTION_DATA_OUT_OF_RANGE.

#[export] Instance pe_image_load_status_eq_dec : EqDecision pe_image_load_status.
Proof. solve_decision. Defined.

Record pe_image_load_config := {
  expected_machine : Z;
  expected_image_base : Z;
  expected_section_alignment : Z;
  expected_file_alignment : Z;
  loaded_image_size : Z;
  allow_imports : bool;
  allow_relocations : bool;
}.

Record pe_image_load_result := {
  entry_point : Z;
  result_image_size : Z;
  import_directory : pe_data_directory;
}.

Definition zero_directory : pe_data_directory := {| directory_virtual_address := 0; directory_size := 0 |}.
Definition zero_result : pe_image_load_result :=
  {| entry_point := 0; result_image_size := 0; import_directory := zero_directory |}.

(** ** The buffer the image is loaded into

    The state of the loader is the bytes of [loaded_image]. *)

Abbreviation L := (M (list Z)).

Definition write_loaded (off : Z) (bs : list Z) : L unit :=
  l ← get;
  if (0 <=? off) && (off + Z.of_nat (length bs) <=? Z.of_nat (length l))
  then modify (splice (Z.to_nat off) bs) else undefined out_of_bounds.

Definition memset_loaded (off len : Z) : L unit := write_loaded off (replicate (Z.to_nat len) 0).

(** [len] bytes of the file, which must have them. *)
Definition read_image (image : list Z) (off len : Z) : L (list Z) :=
  if (0 <=? off) && (off + len <=? Z.of_nat (length image))
  then mret (slice (Z.to_nat off) (Z.to_nat len) image) else undefined out_of_bounds.

(** The record's bytes; [image_bytes = None] is a null pointer.  No caller
    passes a null record. *)
Definition copy_embedded_record (record_size : Z) (image_bytes : option (list Z)) (image_size offset : Z)
    : L (option (list Z)) :=
  match image_bytes with
  | None => mret None
  | Some image =>
      if (image_size <? offset) || (u64 (image_size - offset) <? record_size) then mret None
      else bs ← read_image image offset record_size; mret (Some bs)
  end.

(** Returns [*out_machine]; [has_out = false] is a null [out_machine]. *)
Definition try_get_pe_machine (image_bytes : option (list Z)) (image_size : Z) (has_out : bool) : L (option Z) :=
  if negb has_out then mret None
  else
    dos ← copy_embedded_record sizeof_dos_header image_bytes image_size 0;
    match dos with
    | None => mret None
    | Some bs =>
        let dos_header := decode_dos_header bs in
        if negb (e_magic dos_header =? PE_DOS_SIGNATURE) || (e_lfanew dos_header <? 0) then mret None
        else
          nt ← copy_embedded_record sizeof_nt_headers64 image_bytes image_size (e_lfanew dos_header);
          match nt with
          | None => mret None
          | Some bs =>
              let nt_headers := decode_nt_headers bs in
              if negb (signature nt_headers =? PE_NT_SIGNATURE)
                 || negb (magic (optional_header nt_headers) =? PE32_PLUS_MAGIC)
              then mret None
              else mret (Some (machine (file_header nt_headers)))
          end
    end.

(** The size a section takes in memory. *)
Definition section_memory_size (s : pe_section_header) : Z :=
  if negb (virtual_size s =? 0) then virtual_size s else size_of_raw_data s.

(** The body of the loop over the sections; [None] goes on with the next one. *)
Definition load_section (image : list Z) (image_size : Z) (o : pe_optional_header64) (s : pe_section_header)
    : L (option pe_image_load_status) :=
  if (size_of_image o <? virtual_address s)
     || (u32 (size_of_image o - virtual_address s) <? section_memory_size s)
  then mret (Some PE_IMAGE_LOAD_STATUS_SECTION_OUT_OF_RANGE)
  else if (0 <? size_of_raw_data s)
          && ((image_size <? pointer_to_raw_data s)
              || (u64 (image_size - pointer_to_raw_data s) <? size_of_raw_data s))
  then mret (Some PE_IMAGE_LOAD_STATUS_SECTION_DATA_OUT_OF_RANGE)
  else
    (if 0 <? size_of_raw_data s then
       bs ← read_image image (pointer_to_raw_data s) (size_of_raw_data s);
       write_loaded (virtual_address s) bs
     else mret tt);;
    (if size_of_raw_data s <? section_memory_size s then
       memset_loaded (virtual_address s + size_of_raw_data s) (u32 (section_memory_size s - size_of_raw_data s))
     else mret tt);;
    mret None.

(** [n] sections to go, from [section_index] on. *)
Fixpoint load_sections (n : nat) (section_index : Z) (image : list Z) (image_size : Z) (o : pe_optional_header64)
    (section_headers_offset : Z) : L (option pe_image_load_status) :=
  match n with
  | O => mret None
  | S n =>
      header ← copy_embedded_record sizeof_section_header (Some image) image_size
                 (u64 (section_headers_offset + section_index * sizeof_section_header));
      match header with
      | None => mret (Some PE_IMAGE_LOAD_STATUS_TRUNCATED_SECTION_TABLE)
      | Some bs =>
          status ← load_section image image_size o (decode_section_header bs);
          match status with
          | Some status => mret (Some status)
          | None => load_sections n (section_index + 1) image image_size o section_headers_offset
          end
      end
  end.

(** The checks of the headers that need nothing but the headers, in order. *)
Definition check_headers (h : pe_nt_headers64) (image_size : Z) (config : pe_image_load_config)
    : pe_image_load_status :=
  let o := optional_header h in
  if negb (signature h =? PE_NT_SIGNATURE) then PE_IMAGE_LOAD_STATUS_INVALID_NT_SIGNATURE
  else if negb (machine (file_header h) =? expected_machine config) then PE_IMAGE_LOAD_STATUS_WRONG_MACHINE
  else if number_of_sections (file_header h) =? 0 then PE_IMAGE_LOAD_STATUS_MISSING_SECTIONS
  else if negb (size_of_optional_header (file_header h) =? sizeof_optional_header64)
  then PE_IMAGE_LOAD_STATUS_UNSUPPORTED_OPTIONAL_HEADER
  else if negb (magic o =? PE32_PLUS_MAGIC) then PE_IMAGE_LOAD_STATUS_UNSUPPORTED_MAGIC
  else if negb (image_base o =? expected_image_base config) then PE_IMAGE_LOAD_STATUS_UNEXPECTED_IMAGE_BASE
  else if negb (section_alignment o =? expected_section_alignment config)
          || negb (file_alignment o =? expected_file_alignment config)
  then PE_IMAGE_LOAD_STATUS_UNSUPPORTED_ALIGNMENT
  else if (size_of_image o =? 0) || (loaded_image_size config <? size_of_image o)
  then PE_IMAGE_LOAD_STATUS_IMAGE_TOO_LARGE
  else if (size_of_image o <? size_of_headers o) || (image_size <? size_of_headers o)
  then PE_IMAGE_LOAD_STATUS_HEADERS_OUT_OF_RANGE
  else if size_of_image o <=? address_of_entry_point o then PE_IMAGE_LOAD_STATUS_ENTRY_POINT_OUT_OF_RANGE
  else PE_IMAGE_LOAD_STATUS_OK.

(** A directory of the optional header, zero when the header does not count it. *)
Definition directory_at (o : pe_optional_header64) (index : nat) : pe_data_directory :=
  if Z.of_nat index <? number_of_rva_and_sizes o
  then match data_directories o !! index with Some d => d | None => zero_directory end
  else zero_directory.

(** The checks of the import and relocation directories. *)
Definition check_directories (o : pe_optional_header64) (config : pe_image_load_config) : pe_image_load_status :=
  let imports := directory_at o PE_IMPORT_DIRECTORY_INDEX in
  let relocations := directory_at o PE_BASE_RELOCATION_DIRECTORY_INDEX in
  if negb (Bool.eqb (directory_virtual_address imports =? 0) (directory_size imports =? 0))
  then PE_IMAGE_LOAD_STATUS_INVALID_IMPORT_DIRECTORY
  else if negb (allow_imports config)
          && (negb (directory_virtual_address imports =? 0) || negb (directory_size imports =? 0))
  then PE_IMAGE_LOAD_STATUS_UNEXPECTED_IMPORTS
  else if negb (allow_relocations config)
          && (negb (directory_virtual_address relocations =? 0) || negb (directory_size relocations =? 0))
  then PE_IMAGE_LOAD_STATUS_UNEXPECTED_RELOCATIONS
  else PE_IMAGE_LOAD_STATUS_OK.

(** Returns the status and [*out_result], [None] where it is not written;
    [has_loaded] and [has_out] tell whether the pointers are not null. *)
Definition load_pe32_plus_image (image_bytes : option (list Z)) (image_size : Z) (has_loaded : bool)
    (config : pe_image_load_config) (has_out : bool) : L (pe_image_load_status * option pe_image_load_result) :=
  match image_bytes with
  | None => mret (PE_IMAGE_LOAD_STATUS_INVALID_ARGUMENT, None)
  | Some image =>
      if negb has_loaded || negb has_out then mret (PE_IMAGE_LOAD_STATUS_INVALID_ARGUMENT, None)
      else
        let fail status : L (pe_image_load_status * option pe_image_load_result) := mret (status, Some zero_result) in
        memset_loaded 0 (loaded_image_size config);;
        dos ← copy_embedded_record sizeof_dos_header image_bytes image_size 0;
        match dos with
        | None => fail PE_IMAGE_LOAD_STATUS_MISSING_DOS_HEADER
        | Some bs =>
            let dos_header := decode_dos_header bs in
            if negb (e_magic dos_header =? PE_DOS_SIGNATURE) || (e_lfanew dos_header <? 0)
            then fail PE_IMAGE_LOAD_STATUS_INVALID_DOS_HEADER
            else
              let nt_headers_offset := e_lfanew dos_header in
              nt ← copy_embedded_record sizeof_nt_headers64 image_bytes image_size nt_headers_offset;
              match nt with
              | None => fail PE_IMAGE_LOAD_STATUS_MISSING_NT_HEADERS
              | Some bs =>
                  let h := decode_nt_headers bs in
                  let o := optional_header h in
                  if decide (check_headers h image_size config <> PE_IMAGE_LOAD_STATUS_OK)
                  then fail (check_headers h image_size config)
                  else if decide (check_directories o config <> PE_IMAGE_LOAD_STATUS_OK)
                  then fail (check_directories o config)
                  else
                    let section_headers_offset :=
                      u64 (nt_headers_offset + 4 + sizeof_file_header + size_of_optional_header (file_header h)) in
                    let section_headers_size := u64 (sizeof_section_header * number_of_sections (file_header h)) in
                    if (image_size <? section_headers_offset)
                       || (u64 (image_size - section_headers_offset) <? section_headers_size)
                    then fail PE_IMAGE_LOAD_STATUS_TRUNCATED_SECTION_TABLE
                    else
                      headers ← read_image image 0 (size_of_headers o);
                      write_loaded 0 headers;;
                      status ← load_sections (Z.to_nat (number_of_sections (file_header h))) 0 image image_size o
                                 section_headers_offset;
                      match status with
                      | Some status => fail status
                      | None =>
                          mret (PE_IMAGE_LOAD_STATUS_OK,
                                Some {| entry_point := u64 (expected_image_base config + address_of_entry_point o);
                                        result_image_size := size_of_image o;
                                        import_directory := directory_at o PE_IMPORT_DIRECTORY_INDEX |})
                      end
              end
        end
  end.

(** * Specification

    What an image says, read off its bytes without any of the loader's checks. *)

Definition file_size (image : list Z) : Z := Z.of_nat (length image).
Definition dos_header_of (image : list Z) : pe_dos_header := decode_dos_header (slice 0 64 image).
Definition nt_headers_of (image : list Z) : pe_nt_headers64 :=
  decode_nt_headers (slice (Z.to_nat (e_lfanew (dos_header_of image))) 264 image).
Definition optional_header_of (image : list Z) : pe_optional_header64 := optional_header (nt_headers_of image).
Definition section_table_offset (image : list Z) : Z := e_lfanew (dos_header_of image) + sizeof_nt_headers64.
Definition section_count (image : list Z) : nat := Z.to_nat (number_of_sections (file_header (nt_headers_of image))).

Definition section_at (image : list Z) (offset : Z) (k : nat) : pe_section_header :=
  decode_section_header (slice (Z.to_nat (offset + Z.of_nat k * sizeof_section_header)) 40 image).

Definition image_sections (image : list Z) : list pe_section_header :=
  section_at image (section_table_offset image) <$> seq 0 (section_count image).

(** The memory of a section lies in the image, its data in the file. *)
Definition section_in_range (image : list Z) (o : pe_optional_header64) (s : pe_section_header) : bool :=
  (virtual_address s + section_memory_size s <=? size_of_image o)
  && ((size_of_raw_data s =? 0) || (pointer_to_raw_data s + size_of_raw_data s <=? file_size image)).

(** The headers up to the section table are acceptable. *)
Definition well_formed_headers (image : list Z) (config : pe_image_load_config) : bool :=
  (sizeof_dos_header <=? file_size image)
  && (e_magic (dos_header_of image) =? PE_DOS_SIGNATURE)
  && (0 <=? e_lfanew (dos_header_of image))
  && (e_lfanew (dos_header_of image) + sizeof_nt_headers64 <=? file_size image)
  && bool_decide (check_headers (nt_headers_of image) (file_size image) config = PE_IMAGE_LOAD_STATUS_OK)
  && bool_decide (check_directories (optional_header_of image) config = PE_IMAGE_LOAD_STATUS_OK)
  && (section_table_offset image + sizeof_section_header * Z.of_nat (section_count image) <=? file_size image).

Definition well_formed_image (image : list Z) (config : pe_image_load_config) : bool :=
  well_formed_headers image config
  && forallb (section_in_range image (optional_header_of image)) (image_sections image).

(** The byte a section puts at an address of the image, if it covers it: its
    data first, then zeros up to its memory size. *)
Definition section_byte (image : list Z) (s : pe_section_header) (i : Z) : option Z :=
  if (virtual_address s <=? i) && (i <? virtual_address s + size_of_raw_data s)
  then image !! Z.to_nat (pointer_to_raw_data s + (i - virtual_address s))
  else if (virtual_address s <=? i) && (i <? virtual_address s + section_memory_size s) then Some 0
  else None.

(** The byte of the loaded image: that of the last section that covers it, or
    else of the headers, or else zero. *)
Definition image_byte (image : list Z) (i : Z) : Z :=
  foldl (fun b s => default b (section_byte image s i))
    (if i <? size_of_headers (optional_header_of image) then default 0 (image !! Z.to_nat i) else 0)
    (image_sections image).

(** The data of a section ends within [n] bytes. *)
Definition section_data_fits (n : Z) (s : pe_section_header) : Prop :=
  virtual_address s + size_of_raw_data s <= n.

(** * Lemmas *)

Lemma field_range off n bs : Forall u8_ok bs -> 0 <= field off n bs < 256 ^ Z.of_nat n.
Proof.
  intros Hb. unfold field. pose proof (le_decode_range (slice off n bs) (Forall_slice _ _ _ _ Hb)) as H.
  assert (length (slice off n bs) <= n)%nat by (unfold slice; rewrite length_take; lia).
  assert (256 ^ Z.of_nat (length (slice off n bs)) <= 256 ^ Z.of_nat n) by (apply Z.pow_le_mono_r; lia). lia.
Qed.

Lemma field4_range off bs : Forall u8_ok bs -> u32_ok (field off 4 bs).
Proof. intros Hb. pose proof (field_range off 4 bs Hb). words. Qed.

Lemma field2_range off bs : Forall u8_ok bs -> 0 <= field off 2 bs < 65536.
Proof. intros Hb. pose proof (field_range off 2 bs Hb). lia. Qed.

Record section_ok (s : pe_section_header) : Prop := {
  section_va : u32_ok (virtual_address s);
  section_vs : u32_ok (virtual_size s);
  section_raw : u32_ok (size_of_raw_data s);
  section_ptr : u32_ok (pointer_to_raw_data s);
}.

Lemma section_at_ok image offset k : Forall u8_ok image -> section_ok (section_at image offset k).
Proof. intros H. split; apply field4_range, Forall_slice, H. Qed.

Lemma section_memory_size_ok s : section_ok s -> u32_ok (section_memory_size s).
Proof. intros [? ? ? ?]. unfold section_memory_size. by case_match. Qed.

Lemma size_of_image_ok image : Forall u8_ok image -> u32_ok (size_of_image (optional_header_of image)).
Proof. intros. apply field4_range. by do 2 apply Forall_slice. Qed.

Lemma size_of_headers_ok image : Forall u8_ok image -> u32_ok (size_of_headers (optional_header_of image)).
Proof. intros. apply field4_range. by do 2 apply Forall_slice. Qed.

Lemma number_of_sections_ok image :
  Forall u8_ok image -> 0 <= number_of_sections (file_header (nt_headers_of image)) < 65536.
Proof. intros. apply field2_range. by do 2 apply Forall_slice. Qed.

Lemma e_lfanew_ok image : s32_ok (e_lfanew (dos_header_of image)).
Proof. apply (signed_range 32). lia. Qed.

(** ** Splices of the buffer *)

Lemma splice_nil off l : splice off [] l = l.
Proof. unfold splice. cbn. rewrite Nat.add_0_r. apply take_drop. Qed.

Lemma splice_all bs l : length bs = length l -> splice 0 bs l = bs.
Proof. intros H. unfold splice. cbn [take app Nat.add]. by rewrite H, drop_all, app_nil_r. Qed.

Lemma splice_splice_app off a b l :
  (off + length a + length b <= length l)%nat ->
  splice (off + length a) b (splice off a l) = splice off (a ++ b) l.
Proof.
  intros H. unfold splice.
  rewrite (app_assoc (take off l)), take_app_length' by (rewrite length_app, length_take; lia).
  rewrite drop_app_ge by (rewrite length_app, length_take; lia).
  rewrite drop_drop, length_app, <- !app_assoc. f_equal. f_equal. f_equal.
  f_equal. rewrite !length_app, length_take. lia.
Qed.

Lemma lookup_splice_in off bs l i :
  (off + length bs <= length l)%nat -> (off <= i < off + length bs)%nat -> splice off bs l !! i = bs !! (i - off)%nat.
Proof.
  intros Hl Hi. unfold splice. rewrite lookup_app_r, length_take, Nat.min_l by (rewrite ?length_take; lia).
  by rewrite lookup_app_l by lia.
Qed.

Lemma write_loaded_eq off bs l :
  0 <= off -> off + Z.of_nat (length bs) <= Z.of_nat (length l) ->
  write_loaded off bs l = Returned tt (splice (Z.to_nat off) bs l).
Proof.
  intros H1 H2. unfold write_loaded, mbind, M_bind, get.
  by rewrite (proj2 (Z.leb_le _ _) H1), (proj2 (Z.leb_le _ _) H2).
Qed.

Lemma memset_loaded_eq off n l :
  0 <= off -> 0 <= n -> off + n <= Z.of_nat (length l) ->
  memset_loaded off n l = Returned tt (splice (Z.to_nat off) (replicate (Z.to_nat n) 0) l).
Proof. intros. apply write_loaded_eq; [done|]. rewrite length_replicate. lia. Qed.

Lemma read_image_eq image off n (l : list Z) :
  0 <= off -> off + n <= file_size image ->
  read_image image off n l = Returned (slice (Z.to_nat off) (Z.to_nat n) image) l.
Proof.
  intros H1 H2. unfold read_image. unfold file_size in H2.
  by rewrite (proj2 (Z.leb_le _ _) H1), (proj2 (Z.leb_le _ _) H2).
Qed.

Lemma copy_embedded_record_eq size image off (l : list Z) :
  u64_ok (file_size image) -> 0 <= off -> 0 <= size ->
  copy_embedded_record size (Some image) (file_size image) off l
  = Returned (if off + size <=? file_size image then Some (slice (Z.to_nat off) (Z.to_nat size) image) else None) l.
Proof.
  intros Hf Ho Hs. unfold copy_embedded_record.
  destruct (Z.leb_spec (off + size) (file_size image)) as [Hle|Hgt].
  - rewrite (proj2 (Z.ltb_ge _ _)) by lia. rewrite u64_id by words.
    rewrite (proj2 (Z.ltb_ge _ _)) by lia. cbn [orb].
    by erewrite bind_eq by (apply read_image_eq; lia).
  - destruct (Z.ltb_spec (file_size image) off) as [|Hge]; [done|].
    rewrite u64_id by words. by rewrite (proj2 (Z.ltb_lt _ _)) by lia.
Qed.

(** ** One section *)

(** The bytes of a section in memory. *)
Definition section_bytes (image : list Z) (s : pe_section_header) : list Z :=
  slice (Z.to_nat (pointer_to_raw_data s)) (Z.to_nat (size_of_raw_data s)) image
  ++ replicate (Z.to_nat (section_memory_size s - size_of_raw_data s)) 0.

Definition place_section (image : list Z) (l : list Z) (s : pe_section_header) : list Z :=
  splice (Z.to_nat (virtual_address s)) (section_bytes image s) l.

Section sections.
Context (image : list Z) (o : pe_optional_header64).
Hypothesis image_small : u64_ok (file_size image).
Hypothesis size_ok : u32_ok (size_of_image o).

Lemma section_in_range_spec s :
  section_ok s ->
  section_in_range image o s = true <->
  virtual_address s + section_memory_size s <= size_of_image o /\
  (size_of_raw_data s = 0 \/ pointer_to_raw_data s + size_of_raw_data s <= file_size image).
Proof.
  intros _. unfold section_in_range. rewrite andb_true_iff, orb_true_iff, !Z.leb_le, Z.eqb_eq. done.
Qed.

Lemma length_section_data s :
  section_ok s -> section_in_range image o s = true ->
  length (slice (Z.to_nat (pointer_to_raw_data s)) (Z.to_nat (size_of_raw_data s)) image)
  = Z.to_nat (size_of_raw_data s).
Proof.
  intros Hs [_ Hd]%section_in_range_spec; [|done]. destruct Hs. unfold file_size in Hd. unfold slice.
  rewrite length_take, length_drop. words.
Qed.

Lemma length_section_bytes s :
  section_ok s -> section_in_range image o s = true ->
  Z.of_nat (length (section_bytes image s)) = Z.max (size_of_raw_data s) (section_memory_size s).
Proof.
  intros Hs Hin. unfold section_bytes.
  rewrite length_app, length_section_data, length_replicate by done.
  pose proof (section_memory_size_ok s Hs). destruct Hs. words.
Qed.

Lemma section_bytes_fit s n :
  section_ok s -> section_in_range image o s = true -> section_data_fits n s -> size_of_image o <= n ->
  virtual_address s + Z.of_nat (length (section_bytes image s)) <= n.
Proof.
  intros Hs Hin Hfit Hn. rewrite length_section_bytes by done. unfold section_data_fits in Hfit.
  apply section_in_range_spec in Hin; [|done]. lia.
Qed.

Lemma load_section_in_range s l :
  section_ok s -> section_in_range image o s = true ->
  section_data_fits (Z.of_nat (length l)) s -> size_of_image o <= Z.of_nat (length l) ->
  load_section image (file_size image) o s l = Returned None (place_section image l s).
Proof.
  intros Hs Hin Hfit Hn. pose proof (section_memory_size_ok s Hs) as Hm.
  pose proof (section_bytes_fit s _ Hs Hin Hfit Hn) as Hb. pose proof (length_section_data s Hs Hin) as Hd.
  rewrite length_section_bytes in Hb by done.
  pose proof Hin as Hr. apply section_in_range_spec in Hr as [Hr1 Hr2]; [|done].
  destruct Hs as [Hva _ Hraw Hptr]. unfold load_section.
  rewrite (proj2 (Z.ltb_ge (size_of_image o) _)) by words. rewrite u32_id by words.
  rewrite (proj2 (Z.ltb_ge _ (section_memory_size s))) by lia. cbn [orb].
  destruct (Z.ltb_spec 0 (size_of_raw_data s)) as [Hpos|Hzero].
  - rewrite (proj2 (Z.ltb_ge _ _)) by lia. rewrite u64_id by words.
    rewrite (proj2 (Z.ltb_ge _ _)) by lia. cbn [andb orb].
    erewrite bind_eq
      by (erewrite bind_eq by (apply read_image_eq; words); apply write_loaded_eq; rewrite ?Hd; words).
    unfold place_section, section_bytes. set (data := slice _ _ image) in *.
    destruct (Z.ltb_spec (size_of_raw_data s) (section_memory_size s)).
    + rewrite u32_id by words. erewrite bind_eq
        by (apply memset_loaded_eq; rewrite ?length_splice; rewrite ?Hd; words).
      rewrite Z2Nat.inj_add, <- Hd, splice_splice_app; [done|rewrite Hd, length_replicate; words|words..].
    + erewrite bind_eq by reflexivity. replace (Z.to_nat (_ - _)) with 0%nat by lia. by rewrite app_nil_r.
  - cbn [andb]. erewrite bind_eq by reflexivity. unfold place_section, section_bytes.
    replace (size_of_raw_data s) with 0 by words.
    destruct (Z.ltb_spec 0 (section_memory_size s)).
    + rewrite Z.sub_0_r, Z.add_0_r, u32_id by words.
      by erewrite bind_eq by (apply memset_loaded_eq; words).
    + erewrite bind_eq by reflexivity. replace (Z.to_nat (_ - 0)) with 0%nat by words. by rewrite splice_nil.
Qed.

Lemma load_section_rejects s l :
  section_ok s -> section_in_range image o s = false ->
  exists status, load_section image (file_size image) o s l = Returned (Some status) l
    /\ status <> PE_IMAGE_LOAD_STATUS_OK.
Proof.
  intros Hs Hin. pose proof (section_memory_size_ok s Hs). destruct Hs.
  unfold section_in_range in Hin. unfold load_section.
  destruct (Z.leb_spec (virtual_address s + section_memory_size s) (size_of_image o)); cbn [andb] in Hin.
  - rewrite (proj2 (Z.ltb_ge (size_of_image o) _)) by words. rewrite u32_id by words.
    rewrite (proj2 (Z.ltb_ge _ (section_memory_size s))) by lia. cbn [orb]. bool_hyps.
    rewrite (proj2 (Z.ltb_lt 0 _)) by words. cbn [andb].
    destruct (Z.ltb_spec (file_size image) (pointer_to_raw_data s)); [by eexists|].
    rewrite u64_id by words. rewrite (proj2 (Z.ltb_lt _ _)) by lia. by eexists.
  - destruct (Z.ltb_spec (size_of_image o) (virtual_address s)); [by eexists|].
    rewrite u32_id by words. rewrite (proj2 (Z.ltb_lt _ _)) by lia. by eexists.
Qed.
End sections.

(** ** All sections *)

Section section_loop.
Context (image : list Z) (o : pe_optional_header64).
Hypothesis image_bytes_ok : Forall u8_ok image.
Hypothesis image_small : u64_ok (file_size image).
Hypothesis size_ok : u32_ok (size_of_image o).

Definition loadable (n : Z) (s : pe_section_header) : Prop :=
  section_ok s /\ section_in_range image o s = true /\ section_data_fits n s.

Lemma length_place_section l s :
  loadable (Z.of_nat (length l)) s -> size_of_image o <= Z.of_nat (length l) ->
  length (place_section image l s) = length l.
Proof.
  intros (Hs & Hin & Hfit) Hn. pose proof (section_bytes_fit image o s _ Hs Hin Hfit Hn).
  apply length_splice. destruct Hs. words.
Qed.

Lemma place_section_lookup l s i b :
  loadable (Z.of_nat (length l)) s -> size_of_image o <= Z.of_nat (length l) ->
  l !! i = Some b -> place_section image l s !! i = Some (default b (section_byte image s (Z.of_nat i))).
Proof.
  intros (Hs & Hin & Hfit) Hn Hb. pose proof (section_bytes_fit image o s _ Hs Hin Hfit Hn) as Hf.
  pose proof (length_section_bytes image o s Hs Hin) as Hl.
  pose proof (length_section_data image o s Hs Hin) as Hd.
  pose proof (section_memory_size_ok s Hs) as Hm. apply section_in_range_spec in Hin as [_ Hin]; [|done].
  destruct Hs as [Hva _ Hraw Hptr]. unfold u32_ok in *. unfold place_section, section_byte.
  destruct (Z.leb_spec (virtual_address s) (Z.of_nat i)) as [Hle|Hlt]; cbn [andb].
  - destruct (Z.ltb_spec (Z.of_nat i) (virtual_address s + size_of_raw_data s)) as [Hr|Hr].
    + rewrite lookup_splice_in by lia. unfold section_bytes.
      rewrite lookup_app_l by (rewrite Hd; lia). rewrite lookup_slice by lia.
      replace (Z.to_nat (pointer_to_raw_data s) + (i - Z.to_nat (virtual_address s)))%nat
        with (Z.to_nat (pointer_to_raw_data s + (Z.of_nat i - virtual_address s))) by lia.
      destruct (lookup_lt_is_Some_2 image (Z.to_nat (pointer_to_raw_data s + (Z.of_nat i - virtual_address s))))
        as [x Hx]; [unfold file_size in Hin; lia|]. by rewrite Hx.
    + destruct (Z.ltb_spec (Z.of_nat i) (virtual_address s + section_memory_size s)) as [Hz|Hz].
      * rewrite lookup_splice_in by lia. unfold section_bytes.
        rewrite lookup_app_r, Hd by (rewrite Hd; lia). cbn [default]. apply lookup_replicate_2. lia.
      * rewrite lookup_splice_ne by lia. done.
  - rewrite lookup_splice_ne by lia. done.
Qed.

Lemma place_sections_spec ss l :
  Forall (loadable (Z.of_nat (length l))) ss -> size_of_image o <= Z.of_nat (length l) ->
  length (foldl (place_section image) l ss) = length l /\
  forall i b, l !! i = Some b ->
    foldl (place_section image) l ss !! i
    = Some (foldl (fun b s => default b (section_byte image s (Z.of_nat i))) b ss).
Proof.
  intros Hss Hn. revert l Hss Hn.
  induction ss as [|s ss IH]; intros l Hss Hn; cbn [foldl]; [done|]. apply Forall_cons_1 in Hss as [Hs Hss].
  pose proof (length_place_section l s Hs Hn) as Hl.
  destruct (IH (place_section image l s)) as [IHl IHb]; [by rewrite Hl..|].
  split; [by rewrite IHl|]. intros i b Hb. apply IHb. by apply place_section_lookup.
Qed.

Lemma load_sections_step n k off l :
  0 <= off -> off + sizeof_section_header * (Z.of_nat k + Z.of_nat (S n)) <= file_size image ->
  load_sections (S n) (Z.of_nat k) image (file_size image) o off l
  = (status ← load_section image (file_size image) o (section_at image off k);
     match status with
     | Some status => mret (Some status)
     | None => load_sections n (Z.of_nat (S k)) image (file_size image) o off
     end) l.
Proof.
  intros Hoff Hfit. unfold sizeof_section_header in *. cbn [load_sections].
  unfold sizeof_section_header. rewrite u64_id by words.
  erewrite bind_eq by (apply copy_embedded_record_eq; words).
  rewrite (proj2 (Z.leb_le _ _)) by lia.
  cbv beta iota. by replace (Z.of_nat k + 1) with (Z.of_nat (S k)) by lia.
Qed.

Lemma load_sections_spec n k off l :
  let ss := section_at image off <$> seq k n in
  0 <= off -> off + sizeof_section_header * (Z.of_nat k + Z.of_nat n) <= file_size image ->
  size_of_image o <= Z.of_nat (length l) -> Forall (section_data_fits (Z.of_nat (length l))) ss ->
  twp (load_sections n (Z.of_nat k) image (file_size image) o off)
    (fun status l' => length l' = length l /\
       match status with
       | None => forallb (section_in_range image o) ss = true /\ l' = foldl (place_section image) l ss
       | Some status => forallb (section_in_range image o) ss = false /\ status <> PE_IMAGE_LOAD_STATUS_OK
       end) l.
Proof.
  intros ss Hoff. subst ss. revert k l.
  induction n as [|n IH]; intros k l Hfit Hn Hss; [done|].
  unfold twp. rewrite load_sections_step by done. fold (seq k (S n)) in *. cbn [seq fmap list_fmap] in *.
  change (list_fmap _ _ (section_at image off) (seq (S k) n)) with (section_at image off <$> seq (S k) n) in *.
  apply Forall_cons_1 in Hss as [Hs Hss]. pose proof (section_at_ok image off k image_bytes_ok) as Hok.
  destruct (section_in_range image o (section_at image off k)) eqn:Hin.
  - erewrite bind_eq by (by apply load_section_in_range). cbv beta iota.
    assert (length (place_section image l (section_at image off k)) = length l) as Hl
      by (by apply length_place_section).
    assert (twp (load_sections n (Z.of_nat (S k)) image (file_size image) o off) _
              (place_section image l (section_at image off k))) as IH'
      by (apply IH; [lia|by rewrite Hl..]).
    eapply twp_mono; [exact IH'|]. cbv beta. intros st l'. rewrite Hl. cbn [forallb foldl]. rewrite Hin.
    destruct st; naive_solver.
  - destruct (load_section_rejects image o size_ok _ l Hok Hin) as (st & E & Hst).
    erewrite bind_eq by exact E. cbn. by rewrite Hin.
Qed.
End section_loop.

(** ** The whole load *)

Section load.
Context (image : list Z) (config : pe_image_load_config).
Hypothesis image_bytes_ok : Forall u8_ok image.
Hypothesis image_small : u64_ok (file_size image).

(** The result of an accepted image. *)
Definition accepted_result : pe_image_load_result :=
  {| entry_point := u64 (expected_image_base config + address_of_entry_point (optional_header_of image));
     result_image_size := size_of_image (optional_header_of image);
     import_directory := directory_at (optional_header_of image) PE_IMPORT_DIRECTORY_INDEX |}.

Definition cleared (l : list Z) : list Z := replicate (length l) 0.

Definition with_headers (l : list Z) : list Z :=
  splice 0 (slice 0 (Z.to_nat (size_of_headers (optional_header_of image))) image) (cleared l).

Lemma check_headers_ok h :
  check_headers h (file_size image) config = PE_IMAGE_LOAD_STATUS_OK ->
  size_of_optional_header (file_header h) = sizeof_optional_header64 /\
  machine (file_header h) = expected_machine config /\
  signature h = PE_NT_SIGNATURE /\ magic (optional_header h) = PE32_PLUS_MAGIC /\
  0 <> number_of_sections (file_header h) /\
  size_of_image (optional_header h) <= loaded_image_size config /\
  size_of_headers (optional_header h) <= size_of_image (optional_header h) /\
  size_of_headers (optional_header h) <= file_size image /\
  address_of_entry_point (optional_header h) < size_of_image (optional_header h).
Proof.
  unfold check_headers. cbv zeta. repeat (case_match; [discriminate|]). intros _. bool_hyps. repeat split; try done; lia.
Qed.

(** The load of an image with acceptable headers comes down to its sections. *)
Lemma load_headers_ok l :
  Z.of_nat (length l) = loaded_image_size config ->
  well_formed_headers image config = true ->
  load_pe32_plus_image (Some image) (file_size image) true config true l
  = (status ← load_sections (section_count image) 0 image (file_size image) (optional_header_of image)
                (section_table_offset image);
     match status with
     | Some status => mret (status, Some zero_result)
     | None => mret (PE_IMAGE_LOAD_STATUS_OK, Some accepted_result)
     end) (with_headers l).
Proof.
  intros Hl Hw. unfold well_formed_headers in Hw.
  pose proof (e_lfanew_ok image) as Hlf. pose proof (number_of_sections_ok image image_bytes_ok) as Hns.
  pose proof (size_of_headers_ok image image_bytes_ok) as Hsh.
  bool_hyps. repeat match goal with H : bool_decide _ = true |- _ => apply bool_decide_eq_true_1 in H end.
  match goal with H : check_headers _ _ _ = _ |- _ => pose proof (check_headers_ok _ H) as Hh end.
  destruct Hh as (Hoh & _ & _ & _ & _ & Hsi & Hhi & Hhf & _).
  fold (optional_header_of image) in *. unfold sizeof_dos_header, section_table_offset, sizeof_nt_headers64, section_count in *.
  unfold load_pe32_plus_image. cbn [negb orb].
  erewrite bind_eq by (apply memset_loaded_eq; lia).
  erewrite bind_eq by (apply copy_embedded_record_eq; unfold sizeof_dos_header; first [done|lia]).
  unfold sizeof_dos_header. rewrite (proj2 (Z.leb_le _ _)) by lia. cbv beta iota zeta.
  change (decode_dos_header (slice (Z.to_nat 0) (Z.to_nat 64) image)) with (dos_header_of image).
  rewrite (proj2 (Z.eqb_eq (e_magic _) _)) by done. rewrite (proj2 (Z.ltb_ge (e_lfanew _) 0)) by done. cbn [negb orb].
  erewrite bind_eq by (apply copy_embedded_record_eq; unfold sizeof_nt_headers64; first [done|lia]).
  unfold sizeof_nt_headers64. rewrite (proj2 (Z.leb_le _ (file_size image))) by lia. cbv beta iota zeta.
  change (Z.to_nat 264) with 264%nat. fold (nt_headers_of image). fold (optional_header_of image).
  rewrite decide_False by (intros Hn; by apply Hn). rewrite decide_False by (intros Hn; by apply Hn).
  rewrite Hoh. unfold sizeof_file_header, sizeof_optional_header64, sizeof_section_header in *.
  rewrite (u64_id (40 * _)) by words.
  replace (e_lfanew (dos_header_of image) + 4 + 20 + 240) with (e_lfanew (dos_header_of image) + 264) by lia.
  rewrite (u64_id (_ + 264)) by words. rewrite Z2Nat.id in * by lia.
  rewrite (proj2 (Z.ltb_ge _ (e_lfanew (dos_header_of image) + 264))) by lia. rewrite u64_id by words.
  rewrite (proj2 (Z.ltb_ge _ (40 * _))) by lia. cbn [orb].
  erewrite bind_eq by (apply read_image_eq; words).
  erewrite bind_eq by (apply write_loaded_eq; [lia|];
    rewrite length_slice, length_splice by (rewrite ?length_replicate; unfold file_size in *; words); words).
  unfold with_headers. rewrite (splice_all (replicate _ _)) by (rewrite length_replicate; lia).
  unfold cleared. replace (Z.to_nat (loaded_image_size config)) with (length l) by lia. done.
Qed.

Local Ltac rejected := eexists; split; [|reflexivity]; done.

(** The load of an image whose headers are not acceptable fails and leaves the buffer clear. *)
Lemma load_headers_rejected l :
  Z.of_nat (length l) = loaded_image_size config ->
  well_formed_headers image config = false ->
  exists status, status <> PE_IMAGE_LOAD_STATUS_OK /\
    load_pe32_plus_image (Some image) (file_size image) true config true l
    = Returned (status, Some zero_result) (cleared l).
Proof.
  intros Hl Hw. unfold well_formed_headers in Hw.
  pose proof (e_lfanew_ok image) as Hlf. pose proof (number_of_sections_ok image image_bytes_ok) as Hns.
  unfold load_pe32_plus_image. cbn [negb orb].
  erewrite bind_eq by (apply memset_loaded_eq; lia).
  rewrite splice_all by (rewrite length_replicate; lia).
  replace (Z.to_nat (loaded_image_size config)) with (length l) by lia. fold (cleared l).
  erewrite bind_eq by (apply copy_embedded_record_eq; unfold sizeof_dos_header; first [done|lia]).
  unfold sizeof_dos_header, sizeof_nt_headers64, section_table_offset, sizeof_nt_headers64, section_count in *.
  destruct (0 + 64 <=? file_size image) eqn:H64; [|rejected].
  change (decode_dos_header (slice (Z.to_nat 0) (Z.to_nat 64) image)) with (dos_header_of image). cbv beta iota zeta.
  destruct (e_magic (dos_header_of image) =? PE_DOS_SIGNATURE) eqn:Hm; cbn [negb orb]; [|rejected].
  destruct (Z.ltb_spec (e_lfanew (dos_header_of image)) 0) as [|Hlf0]; [rejected|].
  erewrite bind_eq by (apply copy_embedded_record_eq; first [done|lia]).
  destruct (e_lfanew (dos_header_of image) + 264 <=? file_size image) eqn:H264; [|rejected].
  cbv beta iota zeta. change (Z.to_nat 264) with 264%nat. fold (nt_headers_of image). fold (optional_header_of image).
  destruct (decide (check_headers (nt_headers_of image) (file_size image) config <> PE_IMAGE_LOAD_STATUS_OK))
    as [|Hch]; [rejected|]. apply dec_stable in Hch.
  destruct (decide (check_directories (optional_header_of image) config <> PE_IMAGE_LOAD_STATUS_OK))
    as [|Hcd]; [rejected|]. apply dec_stable in Hcd.
  destruct (check_headers_ok _ Hch) as (Hoh & _). rewrite Hoh.
  unfold sizeof_file_header, sizeof_optional_header64, sizeof_section_header in *.
  replace (e_lfanew (dos_header_of image) + 4 + 20 + 240) with (e_lfanew (dos_header_of image) + 264) by lia.
  rewrite (bool_decide_eq_true_2 _ Hch), (bool_decide_eq_true_2 _ Hcd) in Hw.
  rewrite (proj2 (Z.leb_le 64 _)), (proj2 (Z.leb_le 0 _)) in Hw by (bool_hyps; lia). cbn [andb] in Hw.
  bool_hyps. rewrite Z2Nat.id in Hw by lia.
  rewrite (u64_id (40 * _)), (u64_id (_ + 264)) by words.
  rewrite (proj2 (Z.ltb_ge _ (e_lfanew (dos_header_of image) + 264))) by lia. rewrite u64_id by words.
  rewrite (proj2 (Z.ltb_lt _ (40 * _))) by lia. rejected.
Qed.

Lemma length_with_headers l :
  Z.of_nat (length l) = loaded_image_size config ->
  well_formed_headers image config = true -> length (with_headers l) = length l.
Proof.
  intros Hl Hw. unfold well_formed_headers in Hw. bool_hyps.
  repeat match goal with H : bool_decide _ = true |- _ => apply bool_decide_eq_true_1 in H end.
  match goal with H : check_headers _ _ _ = _ |- _ => pose proof (check_headers_ok _ H) as Hh end.
  destruct Hh as (_ & _ & _ & _ & _ & Hsi & Hhi & Hhf & _). fold (optional_header_of image) in *.
  pose proof (size_of_headers_ok image image_bytes_ok) as Hsh.
  unfold with_headers, file_size, cleared in *.
  rewrite length_splice; [apply length_replicate|]. rewrite length_slice, length_replicate by words. words.
Qed.

Lemma with_headers_lookup l i :
  Z.of_nat (length l) = loaded_image_size config ->
  well_formed_headers image config = true -> (i < length l)%nat ->
  with_headers l !! i
  = Some (if Z.of_nat i <? size_of_headers (optional_header_of image)
          then default 0 (image !! Z.to_nat (Z.of_nat i)) else 0).
Proof.
  intros Hl Hw Hi. unfold well_formed_headers in Hw. bool_hyps.
  repeat match goal with H : bool_decide _ = true |- _ => apply bool_decide_eq_true_1 in H end.
  match goal with H : check_headers _ _ _ = _ |- _ => pose proof (check_headers_ok _ H) as Hh end.
  destruct Hh as (_ & _ & _ & _ & _ & Hsi & Hhi & Hhf & _). fold (optional_header_of image) in *.
  pose proof (size_of_headers_ok image image_bytes_ok) as Hsh.
  unfold with_headers, file_size, cleared, u32_ok in *. rewrite Nat2Z.id.
  destruct (Z.ltb_spec (Z.of_nat i) (size_of_headers (optional_header_of image))).
  - rewrite lookup_splice_in by (rewrite length_slice, ?length_replicate; lia). rewrite lookup_slice by lia.
    rewrite Nat.sub_0_r. cbn [Nat.add]. destruct (lookup_lt_is_Some_2 image i) as [x Hx]; [lia|]. by rewrite Hx.
  - rewrite lookup_splice_ne by (rewrite length_slice, ?length_replicate; lia). by apply lookup_replicate_2.
Qed.
End load.

(** * What the loader guarantees *)

Section load_spec.
Context (image : list Z) (config : pe_image_load_config).
Hypothesis image_bytes_ok : Forall u8_ok image.
Hypothesis image_small : u64_ok (file_size image).

Lemma section_table_fits :
  well_formed_headers image config = true ->
  0 <= section_table_offset image /\
  section_table_offset image + sizeof_section_header * (Z.of_nat 0 + Z.of_nat (section_count image)) <= file_size image.
Proof.
  unfold well_formed_headers, section_table_offset, sizeof_nt_headers64 in *. intros Hw. bool_hyps. lia.
Qed.

Lemma well_formed_headers_checks :
  well_formed_headers image config = true ->
  check_headers (nt_headers_of image) (file_size image) config = PE_IMAGE_LOAD_STATUS_OK.
Proof. unfold well_formed_headers. intros Hw. bool_hyps. by eapply bool_decide_eq_true_1. Qed.

Definition load_outcome (loaded : list Z) (r : pe_image_load_status * option pe_image_load_result) (l : list Z) : Prop :=
  length l = length loaded /\
  if well_formed_image image config
  then r = (PE_IMAGE_LOAD_STATUS_OK, Some (accepted_result image config)) /\
       address_of_entry_point (optional_header_of image) < size_of_image (optional_header_of image)
         <= loaded_image_size config /\
       forall i, 0 <= i < loaded_image_size config -> l !! Z.to_nat i = Some (image_byte image i)
  else fst r <> PE_IMAGE_LOAD_STATUS_OK /\ snd r = Some zero_result.

Lemma load_pe32_plus_image_twp loaded :
  Z.of_nat (length loaded) = loaded_image_size config ->
  (well_formed_headers image config = true ->
   Forall (section_data_fits (loaded_image_size config)) (image_sections image)) ->
  twp (load_pe32_plus_image (Some image) (file_size image) true config true) (load_outcome loaded) loaded.
Proof.
  intros Hl Hfit. unfold load_outcome, well_formed_image. destruct (well_formed_headers image config) eqn:Hw; cbn [andb].
  2:{ destruct (load_headers_rejected image config image_bytes_ok image_small loaded Hl Hw) as (st & Hst & E).
      unfold twp. rewrite E. split; [apply length_replicate|done]. }
  specialize (Hfit eq_refl). pose proof (section_table_fits Hw) as [Ho Ht].
  pose proof (well_formed_headers_checks Hw) as (_ & _ & _ & _ & _ & Hsi & _ & _ & Hep)%check_headers_ok.
  fold (optional_header_of image) in *.
  pose proof (length_with_headers image config image_bytes_ok loaded Hl Hw) as Hlh.
  unfold twp. rewrite load_headers_ok by done. apply twp_bind.
  assert (Forall (section_data_fits (Z.of_nat (length (with_headers image loaded)))) (image_sections image)) as Hfit'
    by (by rewrite Hlh, Hl).
  eapply twp_mono; [apply (load_sections_spec image (optional_header_of image) image_bytes_ok image_small
    (size_of_image_ok image image_bytes_ok) (section_count image) 0); [done|done|lia|exact Hfit']|].
  cbv beta. fold (image_sections image). intros [st|] l' (Hll & Hin & Hl'); rewrite Hin; [by split; [lia|]|].
  split; [lia|]. split; [done|]. split; [lia|]. intros i Hi. subst l'.
  destruct (place_sections_spec image (optional_header_of image) (image_sections image)
    (with_headers image loaded)) as [_ Hb]; [|lia|].
  - apply Forall_forall. intros s Hs. rewrite Forall_forall in Hfit'. rewrite forallb_forall in Hin.
    split; [|split; [by apply Hin|by apply Hfit']].
    unfold image_sections in Hs. apply list_elem_of_In, list_elem_of_fmap in Hs as (k & -> & _). by apply section_at_ok.
  - erewrite Hb by (apply (with_headers_lookup image config); [done..|lia]). unfold image_byte. by rewrite Z2Nat.id by lia.
Qed.
End load_spec.

Lemma bind_undefined {S A B} (m : M S A) (f : A -> M S B) s u : m s = Undefined u -> (m ≫= f) s = Undefined u.
Proof. intros H. unfold mbind, M_bind. by rewrite H. Qed.

Lemma write_loaded_outside off bs l :
  Z.of_nat (length l) < off + Z.of_nat (length bs) -> write_loaded off bs l = Undefined out_of_bounds.
Proof.
  intros H. unfold write_loaded, mbind, M_bind, get. by rewrite (proj2 (Z.leb_gt _ _) H), andb_false_r.
Qed.

Section overrun.
Context (image : list Z) (o : pe_optional_header64).
Hypothesis image_bytes_ok : Forall u8_ok image.
Hypothesis image_small : u64_ok (file_size image).
Hypothesis size_ok : u32_ok (size_of_image o).

Lemma load_section_overruns s l :
  section_ok s -> section_in_range image o s = true ->
  size_of_image o <= Z.of_nat (length l) -> ~ section_data_fits (Z.of_nat (length l)) s ->
  load_section image (file_size image) o s l = Undefined out_of_bounds.
Proof.
  intros Hs Hin Hn Hfit. pose proof (section_memory_size_ok s Hs) as Hm.
  pose proof (length_section_data image o s Hs Hin) as Hd.
  pose proof Hin as Hr. apply section_in_range_spec in Hr as [Hr1 Hr2]; [|done].
  destruct Hs as [Hva _ Hraw Hptr]. unfold load_section, section_data_fits in *.
  rewrite (proj2 (Z.ltb_ge (size_of_image o) _)) by words. rewrite u32_id by words.
  rewrite (proj2 (Z.ltb_ge _ (section_memory_size s))) by lia. cbn [orb].
  rewrite (proj2 (Z.ltb_lt 0 _)) by words. rewrite (proj2 (Z.ltb_ge _ _)) by words. rewrite u64_id by words.
  rewrite (proj2 (Z.ltb_ge _ _)) by words. cbn [andb orb]. apply bind_undefined.
  erewrite bind_eq by (apply read_image_eq; words). apply write_loaded_outside. rewrite Hd. words.
Qed.

Lemma load_sections_overrun pre s post off : forall n k l,
  0 <= off -> off + sizeof_section_header * (Z.of_nat k + Z.of_nat n) <= file_size image ->
  size_of_image o <= Z.of_nat (length l) ->
  section_at image off <$> seq k n = pre ++ s :: post ->
  Forall (section_data_fits (Z.of_nat (length l))) pre ->
  forallb (section_in_range image o) (pre ++ [s]) = true ->
  ~ section_data_fits (Z.of_nat (length l)) s ->
  load_sections n (Z.of_nat k) image (file_size image) o off l = Undefined out_of_bounds.
Proof.
  induction pre as [|s0 pre IH]; intros n k l Hoff Ht Hn Hss Hpre Hin Hs.
  all: destruct n as [|n]; [discriminate Hss|]; rewrite load_sections_step by done.
  all: cbn [seq app forallb] in *; rewrite fmap_cons in Hss; injection Hss as <- Hss; bool_hyps.
  - apply bind_undefined, load_section_overruns; auto using section_at_ok.
  - apply Forall_cons_1 in Hpre as [Hs0 Hpre]. pose proof (section_at_ok image off k image_bytes_ok) as Hok.
    erewrite bind_eq by (by apply load_section_in_range). cbv beta iota.
    assert (length (place_section image l (section_at image off k)) = length l) as Hl
      by (by apply (length_place_section image o)).
    apply IH; rewrite ?Hl; try done; lia.
Qed.
End overrun.

(** C22: When the data of every section ends within the buffer, the load of a PE32+ image
    terminates inside its buffers, succeeds exactly when headers, directories, section table and
    sections are acceptable, and then every byte of the buffer is that of the last section that
    covers it (its data, then zeros), or of the headers, or zero; a failed load reports a zero
    result. *)
Theorem load_pe32_plus_image_correct image config loaded :
  Forall u8_ok image -> u64_ok (file_size image) -> Z.of_nat (length loaded) = loaded_image_size config ->
  (well_formed_headers image config = true ->
   Forall (section_data_fits (loaded_image_size config)) (image_sections image)) ->
  twp (load_pe32_plus_image (Some image) (file_size image) true config true) (load_outcome image config loaded) loaded.
Proof. intros. by apply load_pe32_plus_image_twp. Qed.

(** C33: When the memory of a section lies in the image but its data, longer than its memory,
    does not end within the buffer, the load writes past the end of the buffer. *)
Theorem load_pe32_plus_image_overruns image config loaded pre s post :
  Forall u8_ok image -> u64_ok (file_size image) -> Z.of_nat (length loaded) = loaded_image_size config ->
  well_formed_headers image config = true ->
  image_sections image = pre ++ s :: post ->
  Forall (section_data_fits (loaded_image_size config)) pre ->
  forallb (section_in_range image (optional_header_of image)) (pre ++ [s]) = true ->
  ~ section_data_fits (loaded_image_size config) s ->
  load_pe32_plus_image (Some image) (file_size image) true config true loaded = Undefined out_of_bounds.
Proof.
  intros Hb Hsm Hl Hw Hss Hpre Hin Hs. rewrite load_headers_ok by done. apply bind_undefined.
  pose proof (section_table_fits image config Hw) as [Ho Ht].
  pose proof (well_formed_headers_checks image config Hw) as (_ & _ & _ & _ & _ & Hsi & _)%check_headers_ok.
  pose proof (length_with_headers image config Hb loaded Hl Hw) as Hlh.
  apply (load_sections_overrun image (optional_header_of image) Hb Hsm (size_of_image_ok image Hb) pre s post
    (section_table_offset image) (section_count image) 0); rewrite ?Hlh, ?Hl; done.
Qed.

(** What [try_get_pe_machine] reports. *)
Definition reported_machine (image : list Z) : option Z :=
  if (sizeof_dos_header <=? file_size image) && (e_magic (dos_header_of image) =? PE_DOS_SIGNATURE)
     && (0 <=? e_lfanew (dos_header_of image)) && (e_lfanew (dos_header_of image) + sizeof_nt_headers64 <=? file_size image)
     && (signature (nt_headers_of image) =? PE_NT_SIGNATURE) && (magic (optional_header_of image) =? PE32_PLUS_MAGIC)
  then Some (machine (file_header (nt_headers_of image))) else None.

Lemma try_get_pe_machine_eq image l :
  u64_ok (file_size image) -> try_get_pe_machine (Some image) (file_size image) true l = Returned (reported_machine image) l.
Proof.
  intros Hsm. unfold try_get_pe_machine, reported_machine. cbn [negb].
  erewrite bind_eq by (apply copy_embedded_record_eq; unfold sizeof_dos_header; first [done|lia]).
  rewrite Z.add_0_l. destruct (sizeof_dos_header <=? file_size image); [|done]. cbv beta iota zeta.
  change (decode_dos_header (slice (Z.to_nat 0) (Z.to_nat sizeof_dos_header) image)) with (dos_header_of image).
  destruct (e_magic (dos_header_of image) =? PE_DOS_SIGNATURE); [|done]. cbn [negb orb andb].
  destruct (Z.ltb_spec (e_lfanew (dos_header_of image)) 0); [by rewrite (proj2 (Z.leb_gt _ _)) by lia|].
  rewrite (proj2 (Z.leb_le 0 _)) by lia.
  erewrite bind_eq by (apply copy_embedded_record_eq; unfold sizeof_nt_headers64; first [done|lia]).
  destruct (e_lfanew (dos_header_of image) + sizeof_nt_headers64 <=? file_size image); [|done]. cbv beta iota zeta.
  change (Z.to_nat sizeof_nt_headers64) with 264%nat. fold (nt_headers_of image). fold (optional_header_of image).
  destruct (signature (nt_headers_of image) =? PE_NT_SIGNATURE), (magic (optional_header_of image) =? PE32_PLUS_MAGIC); done.
Qed.

Lemma reported_machine_well_formed image config :
  well_formed_headers image config = true -> reported_machine image = Some (expected_machine config).
Proof.
  intros Hw. pose proof (well_formed_headers_checks image config Hw) as (_ & Hma & Hsig & Hmg & _)%check_headers_ok.
  unfold well_formed_headers in Hw. bool_hyps. unfold reported_machine. fold (optional_header_of image) in Hmg.
  rewrite Hsig, Hmg, Hma, !Z.eqb_refl. rewrite !(proj2 (Z.leb_le _ _)), (proj2 (Z.eqb_eq (e_magic _) _)) by done. done.
Qed.

(** The machine try_get_pe_machine reports for an image that loads is the machine the load
    expects. *)
Lemma try_get_pe_machine_agrees image config loaded result l l' :
  Forall u8_ok image -> u64_ok (file_size image) -> Z.of_nat (length loaded) = loaded_image_size config ->
  load_pe32_plus_image (Some image) (file_size image) true config true loaded
  = Returned (PE_IMAGE_LOAD_STATUS_OK, result) l ->
  try_get_pe_machine (Some image) (file_size image) true l' = Returned (Some (expected_machine config)) l'.
Proof.
  intros Hb Hsm Hl Hload. rewrite try_get_pe_machine_eq by done. destruct (well_formed_headers image config) eqn:Hw.
  - by rewrite (reported_machine_well_formed image config Hw).
  - destruct (load_headers_rejected image config Hb Hsm loaded Hl Hw) as (st & Hst & E).
    rewrite E in Hload. by injection Hload.
Qed.
