(* ===== verification/X64PeImage.v ===== *)
(** [win32/x64_pe64_image.cpp]: the loader of x64 images, which resolves the
    imports of an image once the common loader has put it in memory. *)
From S2P Require Import Prelude PeImage.

Definition PE_IMPORT_BY_ORDINAL_MASK64 : Z := bit 63.
Definition X64_USER_IMAGE_PAGE_SIZE : Z := 4096.
Definition X64_USER_IMAGE_VIRTUAL_ADDRESS : Z := 0x400000.
Definition X64_USER_IMAGE_PAGE_COUNT : Z := 8.
Definition X64_USER_STACK_VIRTUAL_ADDRESS : Z :=
  X64_USER_IMAGE_VIRTUAL_ADDRESS + X64_USER_IMAGE_PAGE_COUNT * X64_USER_IMAGE_PAGE_SIZE.
Definition X64_USER_REGION_SIZE : Z := (X64_USER_IMAGE_PAGE_COUNT + 2) * X64_USER_IMAGE_PAGE_SIZE.

Record pe_import_descriptor := {
  original_first_thunk : Z; descriptor_time_date_stamp : Z; forwarder_chain : Z; descriptor_name : Z; first_thunk : Z;
}.

Definition decode_import_descriptor (bs : list Z) : pe_import_descriptor :=
  {| original_first_thunk := field 0 4 bs; descriptor_time_date_stamp := field 4 4 bs; forwarder_chain := field 8 4 bs;
     descriptor_name := field 12 4 bs; first_thunk := field 16 4 bs |}.

Definition sizeof_import_descriptor : Z := 20.

Inductive x64_pe64_image_load_status :=
  | X64_PE64_IMAGE_LOAD_STATUS_OK
  | X64_PE64_IMAGE_LOAD_STATUS_INVALID_ARGUMENT
  | X64_PE64_IMAGE_LOAD_STATUS_MISSING_DOS_HEADER
  | X64_PE64_IMAGE_LOAD_STATUS_INVALID_DOS_HEADER
  | X64_PE64_IMAGE_LOAD_STATUS_MISSING_NT_HEADERS
  | X64_PE64_IMAGE_LOAD_STATUS_INVALID_NT_SIGNATURE
  | X64_PE64_IMAGE_LOAD_STATUS_WRONG_MACHINE
  | X64_PE64_IMAGE_LOAD_STATUS_MISSING_SECTIONS
  | X64_PE64_IMAGE_LOAD_STATUS_UNSUPPORTED_OPTIONAL_HEADER
  | X64_PE64_IMAGE_LOAD_STATUS_UNSUPPORTED_MAGIC
  | X64_PE64_IMAGE_LOAD_STATUS_UNEXPECTED_IMAGE_BASE
  | X64_PE64_IMAGE_LOAD_STATUS_UNSUPPORTED_ALIGNMENT
  | X64_PE64_IMAGE_LOAD_STATUS_IMAGE_TOO_LARGE
  | X64_PE64_IMAGE_LOAD_STATUS_HEADERS_OUT_OF_RANGE
  | X64_PE64_IMAGE_LOAD_STATUS_ENTRY_POINT_OUT_OF_RANGE
  | X64_PE64_IMAGE_LOAD_STATUS_INVALID_IMPORT_DIRECTORY
  | X64_PE64_IMAGE_LOAD_STATUS_UNEXPECTED_IMPORTS
  | X64_PE64_IMAGE_LOAD_STATUS_UNEXPECTED_RELOCATIONS
  | X64_PE64_IMAGE_LOAD_STATUS_TRUNCATED_SECTION_TABLE
  | X64_PE64_IMAGE_LOAD_STATUS_SECTION_OUT_OF_RANGE
  | X64_PE64_IMAGE_LOAD_STATUS_SECTION_DATA_OUT_OF_RANGE
  | X64_PE64_IMAGE_LOAD_STATUS_IMPORT_TABLE_OUT_OF_RANGE
  | X64_PE64_IMAGE_LOAD_STATUS_IMPORT_NAME_OUT_OF_RANGE
  | X64_PE64_IMAGE_LOAD_STATUS_UNSUPPORTED_IMPORT
  | X64_PE64_IMAGE_LOAD_STATUS_UNSUPPORTED_IMPORT_ORDINAL
  | X64_PE64_IMAGE_LOAD_STATUS_IMPORT_STUB_OUT_OF_RANGE.

#[export] Instance x64_pe64_image_load_status_eq_dec : EqDecision x64_pe64_image_load_status.
Proof. solve_decision. Defined.

Inductive x64_pe64_import_resolution_status :=
  | X64_PE64_IMPORT_RESOLUTION_STATUS_OK
  | X64_PE64_IMPORT_RESOLUTION_STATUS_INVALID_ARGUMENT
  | X64_PE64_IMPORT_RESOLUTION_STATUS_UNSUPPORTED_IMPORT
  | X64_PE64_IMPORT_RESOLUTION_STATUS_IMPORT_STUB_OUT_OF_RANGE.

Definition map_common_load_status (status : pe_image_load_status) : x64_pe64_image_load_status :=
  match status with
  | PE_IMAGE_LOAD_STATUS_OK => X64_PE64_IMAGE_LOAD_STATUS_OK
  | PE_IMAGE_LOAD_STATUS_INVALID_ARGUMENT => X64_PE64_IMAGE_LOAD_STATUS_INVALID_ARGUMENT
  | PE_IMAGE_LOAD_STATUS_MISSING_DOS_HEADER => X64_PE64_IMAGE_LOAD_STATUS_MISSING_DOS_HEADER
  | PE_IMAGE_LOAD_STATUS_INVALID_DOS_HEADER => X64_PE64_IMAGE_LOAD_STATUS_INVALID_DOS_HEADER
  | PE_IMAGE_LOAD_STATUS_MISSING_NT_HEADERS => X64_PE64_IMAGE_LOAD_STATUS_MISSING_NT_HEADERS
  | PE_IMAGE_LOAD_STATUS_INVALID_NT_SIGNATURE => X64_PE64_IMAGE_LOAD_STATUS_INVALID_NT_SIGNATURE
  | PE_IMAGE_LOAD_STATUS_WRONG_MACHINE => X64_PE64_IMAGE_LOAD_STATUS_WRONG_MACHINE
  | PE_IMAGE_LOAD_STATUS_MISSING_SECTIONS => X64_PE64_IMAGE_LOAD_STATUS_MISSING_SECTIONS
  | PE_IMAGE_LOAD_STATUS_UNSUPPORTED_OPTIONAL_HEADER => X64_PE64_IMAGE_LOAD_STATUS_UNSUPPORTED_OPTIONAL_HEADER
  | PE_IMAGE_LOAD_STATUS_UNSUPPORTED_MAGIC => X64_PE64_IMAGE_LOAD_STATUS_UNSUPPORTED_MAGIC
  | PE_IMAGE_LOAD_STATUS_UNEXPECTED_IMAGE_BASE => X64_PE64_IMAGE_LOAD_STATUS_UNEXPECTED_IMAGE_BASE
  | PE_IMAGE_LOAD_STATUS_UNSUPPORTED_ALIGNMENT => X64_PE64_IMAGE_LOAD_STATUS_UNSUPPORTED_ALIGNMENT
  | PE_IMAGE_LOAD_STATUS_IMAGE_TOO_LARGE => X64_PE64_IMAGE_LOAD_STATUS_IMAGE_TOO_LARGE
  | PE_IMAGE_LOAD_STATUS_HEADERS_OUT_OF_RANGE => X64_PE64_IMAGE_LOAD_STATUS_HEADERS_OUT_OF_RANGE
  | PE_IMAGE_LOAD_STATUS_ENTRY_POINT_OUT_OF_RANGE => X64_PE64_IMAGE_LOAD_STATUS_ENTRY_POINT_OUT_OF_RANGE
  | PE_IMAGE_LOAD_STATUS_INVALID_IMPORT_DIRECTORY => X64_PE64_IMAGE_LOAD_STATUS_INVALID_IMPORT_DIRECTORY
  | PE_IMAGE_LOAD_STATUS_UNEXPECTED_IMPORTS => X64_PE64_IMAGE_LOAD_STATUS_UNEXPECTED_IMPORTS
  | PE_IMAGE_LOAD_STATUS_UNEXPECTED_RELOCATIONS => X64_PE64_IMAGE_LOAD_STATUS_UNEXPECTED_RELOCATIONS
  | PE_IMAGE_LOAD_STATUS_TRUNCATED_SECTION_TABLE => X64_PE64_IMAGE_LOAD_STATUS_TRUNCATED_SECTION_TABLE
  | PE_IMAGE_LOAD_STATUS_SECTION_OUT_OF_RANGE => X64_PE64_IMAGE_LOAD_STATUS_SECTION_OUT_OF_RANGE
  | PE_IMAGE_LOAD_STATUS_SECTION_DATA_OUT_OF_RANGE => X64_PE64_IMAGE_LOAD_STATUS_SECTION_DATA_OUT_OF_RANGE
  end.

(** A character buffer is the list of its bytes; a [char] is its byte, which
    the code compares with ASCII letters only. *)
Abbreviation char_buffer := (list Z).

(** The callback of a resolver: it is given the next free stub offset and
    returns it with the status and the address it has stored; it works on the
    loaded image. *)
Definition resolve_import_function : Type :=
  forall (dll_name function_name : char_buffer) (image_base loaded_image_size next_stub_offset : Z),
  L (x64_pe64_import_resolution_status * Z * Z).

(** The resolver, its context in the closure of the function, which may be null. *)
Record x64_pe64_import_resolver := { resolve_import : option resolve_import_function }.

Record x64_pe64_image_info := { info_entry_point : Z; info_image_size : Z; info_import_count : Z }.

(** ** Reading the loaded image *)

Definition read_loaded (off len : Z) : L (list Z) :=
  l ← get;
  if (0 <=? off) && (off + len <=? Z.of_nat (length l))
  then mret (slice (Z.to_nat off) (Z.to_nat len) l) else undefined out_of_bounds.

(** No caller passes a null record or a null image. *)
Definition copy_loaded_record (record_size loaded_image_size rva : Z) : L (option (list Z)) :=
  if (loaded_image_size <? rva) || (u32 (loaded_image_size - rva) <? record_size) then mret None
  else bs ← read_loaded rva record_size; mret (Some bs).

(** The offset of the pointer into the image; both overloads. *)
Definition translate_loaded_rva (loaded_image_size rva len : Z) : option Z :=
  if (loaded_image_size <? rva) || (u32 (loaded_image_size - rva) <? len) then None else Some rva.

(** [n] characters of the buffer to go; returns whether the string ended, and
    the buffer. *)
Fixpoint read_ascii_loop (n : nat) (index : Z) (loaded_image_size rva : Z) (buffer : char_buffer)
    : L (bool * char_buffer) :=
  match n with
  | O =>
      let size := length buffer in
      mret (false, <[Nat.pred size := 0]> buffer)
  | S n =>
      match translate_loaded_rva loaded_image_size (u32 (rva + index)) 1 with
      | None => mret (false, buffer)
      | Some off =>
          bs ← read_loaded off 1;
          let character := default 0 (head bs) in
          let buffer := <[Z.to_nat index := character]> buffer in
          if character =? 0 then mret (true, buffer)
          else read_ascii_loop n (index + 1) loaded_image_size rva buffer
      end
  end.

Definition read_loaded_ascii_string (loaded_image_size rva : Z) (buffer : char_buffer) : L (bool * char_buffer) :=
  if (length buffer =? 0)%nat then mret (false, buffer)
  else read_ascii_loop (length buffer) 0 loaded_image_size rva buffer.

(** [*out_name_rva], when it is written; no caller passes null. *)
Definition try_resolve_import_name_rva (raw_name_reference expected_image_base image_size : Z) : option Z :=
  if (raw_name_reference <=? 0xFFFFFFFF) && (raw_name_reference <? image_size) then Some (u32 raw_name_reference)
  else if raw_name_reference <? expected_image_base then None
  else
    let relative_reference := u64 (raw_name_reference - expected_image_base) in
    if (0xFFFFFFFF <? relative_reference) || (image_size <=? relative_reference) then None
    else Some (u32 relative_reference).

Definition try_resolve_import_table_rva (raw_rva_or_va expected_image_base image_size : Z) : option Z :=
  try_resolve_import_name_rva raw_rva_or_va expected_image_base image_size.

Definition is_empty_import_descriptor (d : pe_import_descriptor) : bool :=
  (original_first_thunk d =? 0) && (descriptor_time_date_stamp d =? 0) && (forwarder_chain d =? 0)
  && (descriptor_name d =? 0) && (first_thunk d =? 0).

(** Returns the status, the next stub offset and the address. *)
Definition resolve_x64_import (import_resolver : option x64_pe64_import_resolver) (dll_name function_name : char_buffer)
    (expected_image_base loaded_image_size next_stub_offset : Z) : L (x64_pe64_image_load_status * Z * Z) :=
  match import_resolver with
  | Some {| resolve_import := Some f |} =>
      '(status, next, address) ← f dll_name function_name expected_image_base loaded_image_size next_stub_offset;
      mret (match status with
            | X64_PE64_IMPORT_RESOLUTION_STATUS_OK => X64_PE64_IMAGE_LOAD_STATUS_OK
            | X64_PE64_IMPORT_RESOLUTION_STATUS_INVALID_ARGUMENT => X64_PE64_IMAGE_LOAD_STATUS_INVALID_IMPORT_DIRECTORY
            | X64_PE64_IMPORT_RESOLUTION_STATUS_UNSUPPORTED_IMPORT => X64_PE64_IMAGE_LOAD_STATUS_UNSUPPORTED_IMPORT
            | X64_PE64_IMPORT_RESOLUTION_STATUS_IMPORT_STUB_OUT_OF_RANGE =>
                X64_PE64_IMAGE_LOAD_STATUS_IMPORT_STUB_OUT_OF_RANGE
            end, next, address)
  | _ => mret (X64_PE64_IMAGE_LOAD_STATUS_UNSUPPORTED_IMPORT, next_stub_offset, 0)
  end.

(** ** The two loops

    Both carry the next stub offset and the count of imports; the result is
    the status to return with, [None] to go on. *)

Section loops.
Context (import_resolver : option x64_pe64_import_resolver).
Context (expected_image_base image_size loaded_image_size32 : Z).

(** The loop over the thunks of one descriptor.  Every iteration reads eight
    bytes of the image after those of the one before: [fuel] is the size of the
    image over eight, plus two. *)
Fixpoint thunk_loop (fuel : nat) (lookup_table_rva first_thunk_rva : Z) (dll_name : char_buffer) (thunk_index : Z)
    (next_stub_offset import_count : Z) : L (option x64_pe64_image_load_status * Z * Z) :=
  let return_with status := mret (Some status, next_stub_offset, import_count) in
  match fuel with
  | O => out_of_fuel
  | S fuel =>
      let lookup_entry_rva := u32 (lookup_table_rva + thunk_index * 8) in
      let address_entry_rva := u32 (first_thunk_rva + thunk_index * 8) in
      lookup ← copy_loaded_record 8 image_size lookup_entry_rva;
      match lookup, translate_loaded_rva image_size address_entry_rva 8 with
      | None, _ | _, None => return_with X64_PE64_IMAGE_LOAD_STATUS_IMPORT_TABLE_OUT_OF_RANGE
      | Some bs, Some address_entry =>
          let lookup_entry := le_decode bs in
          if lookup_entry =? 0 then mret (None, next_stub_offset, import_count)
          else if negb (Z.land lookup_entry PE_IMPORT_BY_ORDINAL_MASK64 =? 0)
          then return_with X64_PE64_IMAGE_LOAD_STATUS_UNSUPPORTED_IMPORT_ORDINAL
          else
            let raw_name_reference := Z.land lookup_entry (not64 PE_IMPORT_BY_ORDINAL_MASK64) in
            match try_resolve_import_name_rva raw_name_reference expected_image_base image_size with
            | None => return_with X64_PE64_IMAGE_LOAD_STATUS_IMPORT_TABLE_OUT_OF_RANGE
            | Some import_name_rva =>
                '(found, function_name) ←
                  read_loaded_ascii_string image_size (u32 (import_name_rva + 2)) (replicate 64 0);
                if negb (found : bool) then return_with X64_PE64_IMAGE_LOAD_STATUS_IMPORT_NAME_OUT_OF_RANGE
                else
                  '(status, next_stub_offset, resolved_address) ←
                    resolve_x64_import import_resolver dll_name function_name expected_image_base loaded_image_size32
                      next_stub_offset;
                  if decide (status <> X64_PE64_IMAGE_LOAD_STATUS_OK)
                  then mret (Some status, next_stub_offset, import_count)
                  else
                    write_loaded address_entry (le_encode 8 resolved_address);;
                    thunk_loop fuel lookup_table_rva first_thunk_rva dll_name (u32 (thunk_index + 1)) next_stub_offset
                      (u32 (import_count + 1))
            end
      end
  end.

(** The body of the loop over the descriptors, for one that is not empty. *)
Definition load_descriptor (d : pe_import_descriptor) (next_stub_offset import_count : Z)
    : L (option x64_pe64_image_load_status * Z * Z) :=
  let return_with status := mret (Some status, next_stub_offset, import_count) in
  let table_rva raw := try_resolve_import_table_rva raw expected_image_base image_size in
  match table_rva (descriptor_name d), table_rva (first_thunk d) with
  | Some dll_name_rva, Some first_thunk_rva =>
      match (if negb (original_first_thunk d =? 0) then table_rva (original_first_thunk d) else Some first_thunk_rva) with
      | None => return_with X64_PE64_IMAGE_LOAD_STATUS_IMPORT_TABLE_OUT_OF_RANGE
      | Some lookup_table_rva =>
          '(found, dll_name) ← read_loaded_ascii_string image_size dll_name_rva (replicate 64 0);
          if negb (found : bool) then return_with X64_PE64_IMAGE_LOAD_STATUS_IMPORT_NAME_OUT_OF_RANGE
          else
            thunk_loop (S (S (Z.to_nat (image_size / 8)))) lookup_table_rva first_thunk_rva dll_name 0 next_stub_offset
              import_count
      end
  | _, _ => return_with X64_PE64_IMAGE_LOAD_STATUS_IMPORT_TABLE_OUT_OF_RANGE
  end.

(** The loop over the descriptors; it returns [INVALID_IMPORT_DIRECTORY] when it
    comes to the limit without an empty descriptor. *)
Fixpoint descriptor_loop (fuel : nat) (descriptor_rva descriptor_limit next_stub_offset import_count : Z)
    : L (option x64_pe64_image_load_status * Z * Z) :=
  let return_with status := mret (Some status, next_stub_offset, import_count) in
  match fuel with
  | O => out_of_fuel
  | S fuel =>
      if negb (descriptor_rva + sizeof_import_descriptor <=? descriptor_limit)
      then return_with X64_PE64_IMAGE_LOAD_STATUS_INVALID_IMPORT_DIRECTORY
      else
        descriptor ← copy_loaded_record sizeof_import_descriptor image_size descriptor_rva;
        match descriptor with
        | None => return_with X64_PE64_IMAGE_LOAD_STATUS_IMPORT_TABLE_OUT_OF_RANGE
        | Some bs =>
            let descriptor := decode_import_descriptor bs in
            if is_empty_import_descriptor descriptor then mret (None, next_stub_offset, import_count)
            else
              '(status, next_stub_offset, import_count) ← load_descriptor descriptor next_stub_offset import_count;
              match (status : option x64_pe64_image_load_status) with
              | Some status => mret (Some status, next_stub_offset, import_count)
              | None =>
                  descriptor_loop fuel (u32 (descriptor_rva + sizeof_import_descriptor)) descriptor_limit
                    next_stub_offset import_count
              end
        end
  end.
End loops.

(** [has_loaded] and [has_out] tell whether the pointers are not null. *)
Definition load_x64_pe64_image (image_bytes : option (list Z)) (image_size expected_image_base : Z) (has_loaded : bool)
    (loaded_image_size : Z) (import_resolver : option x64_pe64_import_resolver) (has_out : bool)
    : L (x64_pe64_image_load_status * option x64_pe64_image_info) :=
  if bool_decide (image_bytes = None) || negb has_loaded || negb has_out
  then mret (X64_PE64_IMAGE_LOAD_STATUS_INVALID_ARGUMENT, None)
  else
    let info count := Some {| info_entry_point := 0; info_image_size := 0; info_import_count := count |} in
    let load_config :=
      {| expected_machine := PE_MACHINE_X64; expected_image_base := expected_image_base;
         expected_section_alignment := X64_USER_IMAGE_PAGE_SIZE; expected_file_alignment := X64_USER_IMAGE_PAGE_SIZE;
         PeImage.loaded_image_size := loaded_image_size; allow_imports := true; allow_relocations := false |} in
    '(status, load_result) ← load_pe32_plus_image image_bytes image_size true load_config true;
    let base_load_status := map_common_load_status status in
    let load_result := default zero_result load_result in
    if decide (base_load_status <> X64_PE64_IMAGE_LOAD_STATUS_OK) then mret (base_load_status, info 0)
    else
      let loaded_image_size32 := u32 loaded_image_size in
      let directory := import_directory load_result in
      '(status, import_count) ←
        (if negb (directory_virtual_address directory =? 0) then
           if (result_image_size load_result <? directory_virtual_address directory)
              || (u32 (result_image_size load_result - directory_virtual_address directory) <? directory_size directory)
           then mret (Some X64_PE64_IMAGE_LOAD_STATUS_IMPORT_TABLE_OUT_OF_RANGE, 0)
           else
             '(status, _, import_count) ←
               descriptor_loop import_resolver expected_image_base (result_image_size load_result) loaded_image_size32
                 (S (Z.to_nat (directory_size directory / sizeof_import_descriptor)))
                 (directory_virtual_address directory)
                 (u32 (directory_virtual_address directory + directory_size directory))
                 (result_image_size load_result) 0;
             mret (status, import_count)
         else mret (None, 0));
      match (status : option x64_pe64_image_load_status) with
      | Some status => mret (status, info import_count)
      | None =>
          mret (X64_PE64_IMAGE_LOAD_STATUS_OK,
                Some {| info_entry_point := entry_point load_result; info_image_size := result_image_size load_result;
                        info_import_count := import_count |})
      end.

(** * Specification of import binding

    [m] is the image proper, the first [size of image] bytes of the buffer. *)

Definition c_string (s : list Z) : Prop := Forall (fun c => 0 < c < 256) s /\ (length s < 64)%nat.

(** A string in a cleared buffer of 64 characters. *)
Definition c_buffer (s : list Z) : char_buffer := s ++ replicate (64 - length s) 0.

Definition string_at (m : list Z) (rva : Z) (s : list Z) : Prop :=
  c_string s /\ slice (Z.to_nat rva) (length s) m = s /\ m !! (Z.to_nat rva + length s)%nat = Some 0.

Definition entry_at (m : list Z) (rva : Z) : Z := le_decode (slice (Z.to_nat rva) 8 m).
Definition set_entry (m : list Z) (rva address : Z) : list Z := splice (Z.to_nat rva) (le_encode 8 address) m.

(** An import that has been bound: its name, the address, and the part of the
    buffer the resolver used for it. *)
Record binding := { bound_name : list Z; bound_address : Z; bound_from : Z; bound_to : Z }.

(** Bytes [from] to [to] of two buffers are the same. *)
Definition agree (from to : Z) (l l' : list Z) : Prop :=
  forall i, from <= i < to -> l !! Z.to_nat i = l' !! Z.to_nat i.

Section binding_spec.
Context (image_base size : Z).

(** The thunks from [lookup] on, up to a zero entry, are bound one after the
    other, the address of each stored in the table at [slot]. *)
Inductive thunks_bound : Z -> Z -> list Z -> list binding -> list Z -> Prop :=
  | thunks_end lookup slot m :
      entry_at m lookup = 0 -> lookup + 8 <= size -> slot + 8 <= size -> thunks_bound lookup slot m [] m
  | thunks_next lookup slot m b bs m' name_rva :
      entry_at m lookup <> 0 -> lookup + 8 <= size -> slot + 8 <= size ->
      Z.testbit (entry_at m lookup) 63 = false ->
      try_resolve_import_name_rva (entry_at m lookup) image_base size = Some name_rva ->
      string_at m (u32 (name_rva + 2)) (bound_name b) ->
      thunks_bound (lookup + 8) (slot + 8) (set_entry m slot (bound_address b)) bs m' ->
      thunks_bound lookup slot m (b :: bs) m'.

(** The descriptors from [rva] on, up to an empty one: for each the name of its
    library and its imports. *)
Inductive descriptors_bound : Z -> list Z -> list (list Z * list binding) -> list Z -> Prop :=
  | descriptors_end rva m :
      is_empty_import_descriptor (decode_import_descriptor (slice (Z.to_nat rva) 20 m)) = true ->
      descriptors_bound rva m [] m
  | descriptors_next rva m d dll name_rva lookup slot bs m1 gs m' :
      d = decode_import_descriptor (slice (Z.to_nat rva) 20 m) ->
      is_empty_import_descriptor d = false ->
      try_resolve_import_table_rva (descriptor_name d) image_base size = Some name_rva ->
      string_at m name_rva dll ->
      try_resolve_import_table_rva (first_thunk d) image_base size = Some slot ->
      (if original_first_thunk d =? 0 then lookup = slot
       else try_resolve_import_table_rva (original_first_thunk d) image_base size = Some lookup) ->
      thunks_bound lookup slot m bs m1 ->
      descriptors_bound (rva + 20) m1 gs m' ->
      descriptors_bound rva m ((dll, bs) :: gs) m'.
End binding_spec.

(** ** What the loader asks of a resolver

    [provides base l from to dll name address]: the bytes [from] to [to] of the
    buffer make [address] implement the import. *)

Definition provision : Type := Z -> list Z -> Z -> Z -> list Z -> list Z -> Z -> Prop.

Class ImportResolver (f : resolve_import_function) (provides : provision) : Prop := {
  resolve_spec base n next dll name (l : list Z) :
    c_string dll -> c_string name -> u32_ok n -> n <= Z.of_nat (length l) -> u32_ok next -> Forall u8_ok l ->
    twp (f (c_buffer dll) (c_buffer name) base n next)
      (fun '(status, next', address) l' =>
         length l' = length l /\ Forall u8_ok l' /\ agree 0 next l l' /\
         (status = X64_PE64_IMPORT_RESOLUTION_STATUS_OK ->
          next <= next' <= n /\ provides base l' next next' dll name address)) l;
  provides_local base l l' from to dll name address :
    provides base l from to dll name address -> agree from to l l' -> provides base l' from to dll name address;
}.

(** * Lemmas *)

Lemma agree_refl a b l : agree a b l l.
Proof. by intros i Hi. Qed.

Lemma agree_trans a b l l' l'' : agree a b l l' -> agree a b l' l'' -> agree a b l l''.
Proof. intros H1 H2 i Hi. by rewrite H1, H2. Qed.

Lemma agree_sub a b a' b' l l' : agree a b l l' -> a <= a' -> b' <= b -> agree a' b' l l'.
Proof. intros H ? ? i Hi. apply H. lia. Qed.

Lemma agree_take n l l' : 0 <= n -> agree 0 n l l' -> take (Z.to_nat n) l = take (Z.to_nat n) l'.
Proof.
  intros Hn H. apply list_eq. intros i. destruct (decide (i < Z.to_nat n)%nat).
  - rewrite !lookup_take_lt by done. specialize (H (Z.of_nat i) ltac:(lia)). by rewrite Nat2Z.id in H.
  - by rewrite !lookup_take_ge by lia.
Qed.

Lemma slice_take off len n l : (off + len <= n)%nat -> slice off len (take n l) = slice off len l.
Proof.
  intros H. apply list_eq. intros i. destruct (decide (i < len)%nat) as [Hi|].
  - rewrite !lookup_slice by done. apply lookup_take_lt. lia.
  - unfold slice. by rewrite !lookup_take_ge by lia.
Qed.

Lemma take_splice off bs n l :
  (off + length bs <= n)%nat -> (n <= length l)%nat -> take n (splice off bs l) = splice off bs (take n l).
Proof.
  intros H Hn. unfold splice.
  rewrite take_app_ge by (rewrite length_take; lia). rewrite length_take, Nat.min_l by lia.
  rewrite take_app_ge by lia. rewrite take_take, Nat.min_l by lia. f_equal. f_equal.
  rewrite skipn_firstn_comm. f_equal. lia.
Qed.

Lemma agree_splice off bs l a b :
  off + Z.of_nat (length bs) <= a -> 0 <= off -> (Z.to_nat off + length bs <= length l)%nat ->
  agree a b l (splice (Z.to_nat off) bs l).
Proof. intros H H0 Hl i Hi. symmetry. apply lookup_splice_ne; lia. Qed.

Lemma read_loaded_eq off n l :
  0 <= off -> off + n <= Z.of_nat (length l) ->
  read_loaded off n l = Returned (slice (Z.to_nat off) (Z.to_nat n) l) l.
Proof.
  intros H1 H2. unfold read_loaded, mbind, M_bind, get.
  by rewrite (proj2 (Z.leb_le _ _) H1), (proj2 (Z.leb_le _ _) H2).
Qed.

Lemma copy_loaded_record_eq record_size size rva l :
  u32_ok size -> u32_ok rva -> 0 <= record_size -> size <= Z.of_nat (length l) ->
  copy_loaded_record record_size size rva l
  = Returned (if rva + record_size <=? size
              then Some (slice (Z.to_nat rva) (Z.to_nat record_size) (take (Z.to_nat size) l)) else None) l.
Proof.
  intros Hs Hr H0 Hl. unfold copy_loaded_record.
  destruct (Z.leb_spec (rva + record_size) size).
  - rewrite (proj2 (Z.ltb_ge _ _)) by lia. rewrite u32_id by words. rewrite (proj2 (Z.ltb_ge _ _)) by lia. cbn [orb].
    rewrite slice_take by words. by erewrite bind_eq by (apply read_loaded_eq; words).
  - destruct (Z.ltb_spec size rva); [done|]. rewrite u32_id by words. by rewrite (proj2 (Z.ltb_lt _ _)) by lia.
Qed.

Lemma translate_loaded_rva_eq size rva n :
  u32_ok size -> u32_ok rva -> 0 <= n ->
  translate_loaded_rva size rva n = if rva + n <=? size then Some rva else None.
Proof.
  intros Hs Hr Hn. unfold translate_loaded_rva.
  destruct (Z.leb_spec (rva + n) size).
  - rewrite (proj2 (Z.ltb_ge _ _)) by lia. rewrite u32_id by words. by rewrite (proj2 (Z.ltb_ge _ _)) by lia.
  - destruct (Z.ltb_spec size rva); [done|]. rewrite u32_id by words. by rewrite (proj2 (Z.ltb_lt _ _)) by lia.
Qed.

(** A 64-bit word without its top bit is not changed by the mask of the name. *)
Lemma land_not_ordinal z : u64_ok z -> Z.testbit z 63 = false -> Z.land z (not64 PE_IMPORT_BY_ORDINAL_MASK64) = z.
Proof.
  intros Hz Hb. apply Z.bits_inj'. intros i Hi. rewrite Z.land_spec.
  destruct (Z.lt_ge_cases i 64) as [Hlt|Hge].
  - unfold PE_IMPORT_BY_ORDINAL_MASK64. rewrite testbit_not64, testbit_bit by lia.
    destruct (Z.eqb_spec 63 i) as [<-|]; [by rewrite Hb|apply andb_true_r].
  - rewrite (testbit_high 64 z i) by (done || lia). done.
Qed.

Lemma try_resolve_range raw base size rva :
  u32_ok size -> 0 <= raw -> try_resolve_import_name_rva raw base size = Some rva -> 0 <= rva < size.
Proof.
  intros Hs Hr. unfold try_resolve_import_name_rva.
  destruct ((raw <=? 4294967295) && (raw <? size)) eqn:E.
  - bool_hyps. intros [= <-]. rewrite u32_id by words. lia.
  - destruct (raw <? base); [discriminate|]. pose proof (u64_range (raw - base)).
    destruct ((4294967295 <? u64 (raw - base)) || _) eqn:E'; [discriminate|]. bool_hyps.
    intros [= <-]. rewrite u32_id by words. words.
Qed.

(** ** Strings *)

Lemma insert_c_buffer s c n : <[length s := c]> (s ++ replicate (S n) 0) = (s ++ [c]) ++ replicate n 0.
Proof. rewrite insert_app_r_alt, Nat.sub_diag by lia. cbn. by rewrite <- app_assoc. Qed.

Lemma read_ascii_loop_spec n s size rva l :
  u32_ok size -> size <= Z.of_nat (length l) -> 0 <= rva -> Forall u8_ok l ->
  (length s + n = 64)%nat -> (s = [] -> u32_ok rva) -> (s <> [] -> rva + Z.of_nat (length s) <= size) ->
  Forall (fun c => 0 < c < 256) s ->
  slice (Z.to_nat rva) (length s) (take (Z.to_nat size) l) = s ->
  exists found buffer, read_ascii_loop n (Z.of_nat (length s)) size rva (s ++ replicate n 0) l = Returned (found, buffer) l /\
    (found = true -> exists s', buffer = c_buffer s' /\ string_at (take (Z.to_nat size) l) rva s').
Proof.
  intros Hsz Hl Hrva Hb. revert s. induction n as [|n IH]; intros s Hn H0 H1 Hs Hsl; [by do 2 eexists|].
  cbn [read_ascii_loop].
  assert (u32_ok (rva + Z.of_nat (length s))) as Hr.
  { destruct s; [specialize (H0 eq_refl); cbn; words|specialize (H1 ltac:(done)); words]. }
  rewrite u32_id, translate_loaded_rva_eq by (done || lia).
  destruct (Z.leb_spec (rva + Z.of_nat (length s) + 1) size) as [Hle|]; [|by do 2 eexists].
  erewrite bind_eq by (apply read_loaded_eq; lia). cbv zeta.
  destruct (lookup_lt_is_Some_2 l (Z.to_nat rva + length s)) as [c Hc]; [lia|].
  assert (slice (Z.to_nat (rva + Z.of_nat (length s))) (Z.to_nat 1) l = [c]) as ->.
  { apply list_eq. intros [|i]; [transitivity (Some c); [|done]; rewrite lookup_slice by lia; rewrite <- Hc; f_equal; lia|].
    unfold slice. by rewrite lookup_take_ge by lia. }
  change (default 0 (head [c])) with c. rewrite Nat2Z.id, insert_c_buffer.
  assert (take (Z.to_nat size) l !! (Z.to_nat rva + length s)%nat = Some c) as Hc' by (rewrite lookup_take_lt by lia; done).
  destruct (Z.eqb_spec c 0) as [->|Hc0].
  - do 2 eexists. split; [reflexivity|]. intros _. exists s. split.
    + unfold c_buffer. rewrite <- app_assoc. by replace (64 - length s)%nat with (S n) by lia.
    + split; [split; [done|lia]|]. done.
  - replace (Z.of_nat (length s) + 1) with (Z.of_nat (length (s ++ [c]))) by (rewrite length_app; cbn; lia).
    apply (IH (s ++ [c])).
    + rewrite length_app. cbn. lia.
    + by destruct s.
    + intros _. rewrite length_app. cbn. lia.
    + apply Forall_app. split; [done|]. constructor; [|done].
      pose proof (Forall_lookup_1 _ _ _ _ Hb Hc) as Hc8. words.
    + apply list_eq. intros i. rewrite length_app. cbn [length].
      destruct (decide (i < length s)%nat).
      * rewrite lookup_slice by lia. rewrite lookup_app_l by done. rewrite <- Hsl at 1. by rewrite lookup_slice by done.
      * destruct (decide (i = length s)) as [->|].
        -- rewrite lookup_slice by lia. rewrite Hc'. by rewrite lookup_app_r, Nat.sub_diag by lia.
        -- rewrite lookup_ge_None_2 by (unfold slice; rewrite length_take; lia).
           rewrite lookup_ge_None_2; [done|]. rewrite length_app. cbn. lia.
Qed.

Lemma read_loaded_ascii_string_spec size rva l :
  u32_ok size -> size <= Z.of_nat (length l) -> u32_ok rva -> Forall u8_ok l ->
  exists found buffer, read_loaded_ascii_string size rva (replicate 64 0) l = Returned (found, buffer) l /\
    (found = true -> exists s, buffer = c_buffer s /\ string_at (take (Z.to_nat size) l) rva s).
Proof.
  intros Hs Hl Hr Hb. apply (read_ascii_loop_spec 64 [] size rva l); try done. unfold u32_ok in *. lia.
Qed.

(** ** The loops *)

Definition valid_resolver (import_resolver : option x64_pe64_import_resolver) (provides : provision) : Prop :=
  (forall base l l' from to dll name address,
     provides base l from to dll name address -> agree from to l l' -> provides base l' from to dll name address) /\
  match import_resolver with
  | Some {| resolve_import := Some f |} => ImportResolver f provides
  | _ => True
  end.

Section loops.
Context (import_resolver : option x64_pe64_import_resolver) (provides : provision).
Context (base size n : Z) (N : nat).
Hypothesis resolver_ok : valid_resolver import_resolver provides.
Hypothesis size_ok : u32_ok size.
Hypothesis n_ok : u32_ok n.
Hypothesis size_N : size <= Z.of_nat N.
Hypothesis n_N : n <= Z.of_nat N.

Definition buffer_ok (l : list Z) : Prop := length l = N /\ Forall u8_ok l.
Definition image_part (l : list Z) : list Z := take (Z.to_nat size) l.

Definition provided (l : list Z) (dll : list Z) (from to : Z) (b : binding) : Prop :=
  from <= bound_from b /\ bound_to b <= to /\
  provides base l (bound_from b) (bound_to b) dll (bound_name b) (bound_address b).

Lemma provided_agree l l' dll from to from' to' b :
  provided l dll from to b -> agree from to l l' -> from' <= from -> to <= to' -> provided l' dll from' to' b.
Proof.
  intros (Hf & Ht & Hp) Hag ? ?. split; [lia|]. split; [lia|]. destruct resolver_ok as [Hlocal _].
  eapply Hlocal; [exact Hp|]. by eapply agree_sub.
Qed.

Lemma resolve_x64_import_twp dll name next l :
  c_string dll -> c_string name -> u32_ok next -> buffer_ok l ->
  twp (resolve_x64_import import_resolver (c_buffer dll) (c_buffer name) base n next)
    (fun '(status, next', address) l' =>
       buffer_ok l' /\ agree 0 next l l' /\
       (status = X64_PE64_IMAGE_LOAD_STATUS_OK ->
        next <= next' <= n /\ provides base l' next next' dll name address)) l.
Proof.
  intros Hd Hname Hnext [Hl Hb]. destruct resolver_ok as [_ Hr]. unfold resolve_x64_import.
  destruct import_resolver as [[[f|]]|]; [|by apply twp_ret; repeat split..].
  apply twp_bind. eapply twp_mono; [apply resolve_spec; try done; lia|].
  intros [[status next'] address] l' (Hl' & Hb' & Hag & Hok). apply twp_ret.
  split; [split; [by rewrite Hl'|done]|]. split; [done|]. destruct status; try discriminate. intros _. by apply Hok.
Qed.

Lemma image_part_agree l l' next : size <= next -> agree 0 next l l' -> image_part l = image_part l'.
Proof. intros. unfold image_part. apply agree_take; [unfold u32_ok in *; lia|]. eapply agree_sub; [done|lia..]. Qed.

Lemma write_entry_eq slot address l :
  buffer_ok l -> 0 <= slot -> slot + 8 <= size ->
  exists l', write_loaded slot (le_encode 8 address) l = Returned tt l' /\ buffer_ok l' /\
    image_part l' = set_entry (image_part l) slot address /\ forall to, agree size to l l'.
Proof.
  intros [Hl Hb] H0 Hs. eexists. split.
  { apply write_loaded_eq; [done|]. rewrite length_le_encode. lia. }
  split; [split|split].
  - rewrite length_splice; [done|]. rewrite length_le_encode. lia.
  - apply Forall_splice; [apply le_encode_bytes|done].
  - unfold image_part, set_entry. apply take_splice; rewrite ?length_le_encode; lia.
  - intros to. apply agree_splice; rewrite ?length_le_encode; lia.
Qed.

Lemma u64_entry_at m rva : Forall u8_ok m -> u64_ok (entry_at m rva).
Proof. intros Hb. pose proof (field_range (Z.to_nat rva) 8 m Hb) as H. unfold field in H. unfold entry_at. words. Qed.

(** What the thunk loop has done when it goes on to the next descriptor. *)
Definition thunks_done (lookup slot : Z) (dll : list Z) (l : list Z) (next count : Z)
    (r : option x64_pe64_image_load_status * Z * Z) (l' : list Z) : Prop :=
  buffer_ok l' /\ snd r = u32 (snd r) /\
  (fst (fst r) <> Some X64_PE64_IMAGE_LOAD_STATUS_OK) /\
  (fst (fst r) = None ->
   next <= snd (fst r) /\ u32_ok (snd (fst r)) /\ agree size next l l' /\
   exists bs, thunks_bound base size lookup slot (image_part l) bs (image_part l') /\
     snd r = u32 (count + Z.of_nat (length bs)) /\ Forall (provided l' dll next (snd (fst r))) bs).

Lemma thunks_done_next lookup slot dll l l1 l2 next next1 count r l' name address name_rva :
  thunks_done (lookup + 8) (slot + 8) dll l2 next1 (u32 (count + 1)) r l' ->
  size <= next -> next <= next1 -> agree 0 next l l1 -> provides base l1 next next1 dll name address ->
  (forall to, agree size to l1 l2) -> image_part l2 = set_entry (image_part l1) slot address ->
  entry_at (image_part l) lookup <> 0 -> lookup + 8 <= size -> slot + 8 <= size ->
  Z.testbit (entry_at (image_part l) lookup) 63 = false ->
  try_resolve_import_name_rva (entry_at (image_part l) lookup) base size = Some name_rva ->
  string_at (image_part l) (u32 (name_rva + 2)) name ->
  thunks_done lookup slot dll l next count r l'.
Proof.
  intros (Hbuf & Hc & Hst & Hdone) Hsn Hn Hag Hp Hag2 Him He Hlo Hsl Hbit Hrva Hstr.
  repeat split; try apply Hbuf; try done; destruct (Hdone ltac:(assumption)) as (Hn1 & Hu & Hag' & bs & Hbs & Hcount & Hps);
    [lia|words..| |].
  - eapply agree_trans; [|eapply agree_sub; [exact Hag'|lia..]].
    eapply agree_trans; [eapply agree_sub; [exact Hag|unfold u32_ok in *; lia..]|apply Hag2].
  - exists ({| bound_name := name; bound_address := address; bound_from := next; bound_to := next1 |} :: bs).
    split; [|split].
    + eapply thunks_next; try done. cbn [bound_address]. rewrite (image_part_agree l l1 next), <- Him by done. done.
    + rewrite Hcount. cbn [length]. rewrite Nat2Z.inj_succ. unfold u32. rewrite Z.add_mod_idemp_l by done. f_equal. lia.
    + constructor.
      * split; [cbn; lia|]. split; [done|]. cbn. destruct resolver_ok as [Hlocal _].
        eapply Hlocal; [exact Hp|]. eapply agree_trans; [eapply agree_sub; [apply (Hag2 next1)|lia..]|].
        eapply agree_sub; [exact Hag'|lia..].
      * eapply Forall_impl; [|exact Hps]. intros b Hb. eapply provided_agree; [exact Hb|apply agree_refl|lia..].
Qed.

Lemma thunks_done_return lookup slot dll l next count next' l' status :
  buffer_ok l' -> u32_ok count -> status <> X64_PE64_IMAGE_LOAD_STATUS_OK ->
  thunks_done lookup slot dll l next count (Some status, next', count) l'.
Proof. intros Hb Hc Hs. split; [done|]. split; [symmetry; by apply u32_id|]. split; [cbn; congruence|done]. Qed.

Lemma thunk_loop_twp fuel lookup slot dll k next count l :
  0 <= lookup -> 0 <= slot -> 0 <= k -> lookup + k * 8 <= size -> slot + k * 8 <= size ->
  size + 8 < lookup + k * 8 + 8 * Z.of_nat fuel ->
  c_string dll -> size <= next -> u32_ok next -> u32_ok count -> buffer_ok l ->
  twp (thunk_loop import_resolver base size n fuel lookup slot (c_buffer dll) k next count)
    (thunks_done (lookup + k * 8) (slot + k * 8) dll l next count) l.
Proof.
  intros H0 Hs0. revert k next count l.
  induction fuel as [|fuel IH]; intros k next count l Hk Hlo Hsl Hf Hd Hsn Hnext Hcount Hbuf; [lia|].
  pose proof Hbuf as [HN Hb]. cbn [thunk_loop]. cbv zeta.
  rewrite (u32_id (lookup + k * 8)), (u32_id (slot + k * 8)) by words.
  apply twp_bind. unfold twp at 1. rewrite copy_loaded_record_eq by (done || words).
  destruct (Z.leb_spec (lookup + k * 8 + 8) size) as [Hl8|]; [|by apply thunks_done_return].
  rewrite translate_loaded_rva_eq by (done || words).
  destruct (Z.leb_spec (slot + k * 8 + 8) size) as [Hs8|]; [|by apply thunks_done_return].
  change (Z.to_nat 8) with 8%nat. fold (image_part l). fold (entry_at (image_part l) (lookup + k * 8)). cbv zeta.
  assert (u64_ok (entry_at (image_part l) (lookup + k * 8))) as Hu by (apply u64_entry_at, Forall_take, Hb).
  destruct (Z.eqb_spec (entry_at (image_part l) (lookup + k * 8)) 0) as [He|He].
  { split; [done|]. split; [symmetry; by apply u32_id|]. split; [done|]. intros _.
    split; [cbn; lia|]. split; [done|]. split; [apply agree_refl|]. exists [].
    split; [by constructor|]. split; [cbn; by rewrite Z.add_0_r, u32_id|constructor]. }
  unfold PE_IMPORT_BY_ORDINAL_MASK64 at 1. rewrite land_bit_nonzero by lia.
  destruct (Z.testbit _ 63) eqn:Hbit; [by apply thunks_done_return|]. rewrite land_not_ordinal by done.
  destruct (try_resolve_import_name_rva _ base size) as [name_rva|] eqn:Hrva; [|by apply thunks_done_return].
  destruct (read_loaded_ascii_string_spec size (u32 (name_rva + 2)) l) as (found & buffer & E & Hstr);
    [done|lia|apply u32_range|done|].
  apply twp_bind. unfold twp at 1. rewrite E.
  destruct found; cbn [negb]; [|by apply thunks_done_return].
  destruct (Hstr eq_refl) as (name & -> & Hname). apply twp_bind.
  eapply twp_mono; [apply resolve_x64_import_twp; try done; apply Hname|].
  intros [[status next1] address] l1 (Hbuf1 & Hag & Hok). cbv beta iota.
  case_decide as Hst; [by apply thunks_done_return|]. destruct (Hok Hst) as [Hn1 Hp].
  destruct (write_entry_eq (slot + k * 8) address l1 Hbuf1) as (l2 & E2 & Hbuf2 & Him & Hag2); [lia|done|].
  apply twp_bind. unfold twp at 1. rewrite E2. rewrite u32_id by words.
  eapply twp_mono; [apply IH; first [done | lia | apply u32_range | words]|].
  cbv beta. intros r l' Hdone.
  replace (lookup + (k + 1) * 8) with (lookup + k * 8 + 8) in Hdone by lia.
  replace (slot + (k + 1) * 8) with (slot + k * 8 + 8) in Hdone by lia.
  eapply thunks_done_next; [exact Hdone|done|lia|done..].
Qed.

Lemma c_string_at m rva str : string_at m rva str -> c_string str.
Proof. by intros [? _]. Qed.

(** A descriptor that is not empty: its name, its tables and its thunks. *)
Definition descriptor_done (d : pe_import_descriptor) (l : list Z) (next count : Z)
    (r : option x64_pe64_image_load_status * Z * Z) (l' : list Z) : Prop :=
  buffer_ok l' /\ u32_ok (snd r) /\ fst (fst r) <> Some X64_PE64_IMAGE_LOAD_STATUS_OK /\
  (fst (fst r) = None -> exists dll name_rva lookup slot,
     try_resolve_import_table_rva (descriptor_name d) base size = Some name_rva /\
     string_at (image_part l) name_rva dll /\
     try_resolve_import_table_rva (first_thunk d) base size = Some slot /\
     (if original_first_thunk d =? 0 then lookup = slot
      else try_resolve_import_table_rva (original_first_thunk d) base size = Some lookup) /\
     thunks_done lookup slot dll l next count r l').

Lemma descriptor_done_return d l next count next' l' status :
  buffer_ok l' -> u32_ok count -> status <> X64_PE64_IMAGE_LOAD_STATUS_OK ->
  descriptor_done d l next count (Some status, next', count) l'.
Proof. intros Hb Hc Hs. split; [done|]. split; [done|]. split; [cbn; congruence|done]. Qed.

Lemma load_descriptor_twp d next count l :
  u32_ok (descriptor_name d) -> u32_ok (first_thunk d) -> u32_ok (original_first_thunk d) ->
  size <= next -> u32_ok next -> u32_ok count -> buffer_ok l ->
  twp (load_descriptor import_resolver base size n d next count) (descriptor_done d l next count) l.
Proof.
  intros Hdn Hft Hoft Hsn Hnext Hcount Hbuf. pose proof Hbuf as [HN Hb]. unfold load_descriptor. cbv zeta.
  destruct (try_resolve_import_table_rva (descriptor_name d) base size) as [name_rva|] eqn:Hname; [|by apply descriptor_done_return].
  destruct (try_resolve_import_table_rva (first_thunk d) base size) as [slot|] eqn:Hslot; [|by apply descriptor_done_return].
  pose proof (try_resolve_range _ _ _ _ size_ok (proj1 Hdn) Hname) as Hnr.
  pose proof (try_resolve_range _ _ _ _ size_ok (proj1 Hft) Hslot) as Hsr.
  destruct (if negb (original_first_thunk d =? 0) then _ else _) as [lookup|] eqn:Hlookup; [|by apply descriptor_done_return].
  assert (0 <= lookup < size /\ (if original_first_thunk d =? 0 then lookup = slot
           else try_resolve_import_table_rva (original_first_thunk d) base size = Some lookup)) as [Hlr Hlk].
  { destruct (original_first_thunk d =? 0); cbn [negb] in Hlookup; [by injection Hlookup as <-|].
    split; [|done]. exact (try_resolve_range _ _ _ _ size_ok (proj1 Hoft) Hlookup). }
  destruct (read_loaded_ascii_string_spec size name_rva l) as (found & buffer & E & Hstr); [done|lia|words|done|].
  apply twp_bind. unfold twp at 1. rewrite E. destruct found; cbn [negb]; [|by apply descriptor_done_return].
  destruct (Hstr eq_refl) as (dll & -> & Hdll). pose proof (Z.mul_succ_div_gt size 8 ltac:(lia)).
  assert (0 <= size / 8) by (apply Z.div_pos; unfold u32_ok in *; lia).
  eapply twp_mono; [apply (thunk_loop_twp _ lookup slot dll 0); first [done | lia | by eapply c_string_at | unfold u32_ok in *; lia]|].
  rewrite !Z.add_0_r. intros [[st next'] c] l' Hdone.
  pose proof Hdone as (Hbuf' & Hc & Hst & _). split; [done|].
  split; [cbn in Hc |- *; rewrite Hc; apply u32_range|]. split; [done|]. intros _. by exists dll, name_rva, lookup, slot.
Qed.

(** What the descriptor loop has done when it has come to the empty descriptor. *)
Definition descriptors_done (rva : Z) (l : list Z) (next count : Z)
    (r : option x64_pe64_image_load_status * Z * Z) (l' : list Z) : Prop :=
  buffer_ok l' /\ u32_ok (snd r) /\ fst (fst r) <> Some X64_PE64_IMAGE_LOAD_STATUS_OK /\
  (fst (fst r) = None -> next <= snd (fst r) /\ u32_ok (snd (fst r)) /\ agree size next l l' /\ exists gs,
     descriptors_bound base size rva (image_part l) gs (image_part l') /\
     snd r = u32 (count + Z.of_nat (length (concat (snd <$> gs)))) /\
     Forall (fun g => Forall (provided l' (fst g) next (snd (fst r))) (snd g)) gs).

Lemma descriptors_done_return rva l next count next' l' status :
  buffer_ok l' -> u32_ok count -> status <> X64_PE64_IMAGE_LOAD_STATUS_OK ->
  descriptors_done rva l next count (Some status, next', count) l'.
Proof. intros Hb Hc Hs. split; [done|]. split; [done|]. split; [cbn; congruence|done]. Qed.

Lemma import_descriptor_ok bs :
  Forall u8_ok bs -> let d := decode_import_descriptor bs in
  u32_ok (descriptor_name d) /\ u32_ok (first_thunk d) /\ u32_ok (original_first_thunk d).
Proof. intros Hb. by repeat split; apply field4_range. Qed.

Lemma descriptor_loop_twp fuel rva limit next count l :
  0 <= rva -> rva <= limit -> limit <= size -> limit < rva + 20 * Z.of_nat fuel ->
  size <= next -> u32_ok next -> u32_ok count -> buffer_ok l ->
  twp (descriptor_loop import_resolver base size n fuel rva limit next count) (descriptors_done rva l next count) l.
Proof.
  revert rva next count l. induction fuel as [|fuel IH]; intros rva next count l H0 Hr Hlim Hf Hsn Hnext Hcount Hbuf; [lia|].
  pose proof Hbuf as [HN Hb]. cbn [descriptor_loop]. cbv zeta. unfold sizeof_import_descriptor in *.
  destruct (Z.leb_spec (rva + 20) limit) as [H20|]; cbn [negb]; [|by apply descriptors_done_return].
  apply twp_bind. unfold twp at 1. rewrite copy_loaded_record_eq by (done || words).
  rewrite (proj2 (Z.leb_le _ _)) by lia. change (Z.to_nat 20) with 20%nat. fold (image_part l).
  set (d := decode_import_descriptor _) in *.
  assert (Forall u8_ok (slice (Z.to_nat rva) 20 (image_part l))) as Hd8 by (apply Forall_slice, Forall_take, Hb).
  destruct (import_descriptor_ok _ Hd8) as (Hdn & Hft & Hoft). fold d in Hdn, Hft, Hoft.
  destruct (is_empty_import_descriptor d) eqn:Hempty.
  { split; [done|]. split; [done|]. split; [done|]. intros _. split; [cbn; lia|]. split; [done|].
    split; [apply agree_refl|]. exists []. split; [by constructor|]. split; [cbn; by rewrite Z.add_0_r, u32_id|constructor]. }
  apply twp_bind. eapply twp_mono; [by apply load_descriptor_twp|].
  intros [[[status|] next1] count1] l1 (Hbuf1 & Hc1 & Hst & Hd); cbn [fst snd] in *; [by split|].
  destruct (Hd eq_refl) as (dll & name_rva & lookup & slot & Hname & Hdll & Hslot & Hlk & Hdone).
  destruct Hdone as (_ & _ & _ & Hdone). destruct (Hdone eq_refl) as (Hn1 & Hu1 & Hag1 & bs & Hbs & Hcnt & Hps).
  cbn [fst snd] in *. rewrite u32_id by words.
  eapply twp_mono; [apply IH; first [done | lia]|]. cbv beta.
  intros [[st next2] count2] l2 (Hbuf2 & Hc2 & Hst2 & Hd2). split; [done|]. split; [done|]. split; [done|].
  intros Hnone. destruct (Hd2 Hnone) as (Hn2 & Hu2 & Hag2 & gs & Hgs & Hcnt2 & Hps2). cbn [fst snd] in *.
  split; [lia|]. split; [done|]. split; [eapply agree_trans; [exact Hag1|eapply agree_sub; [exact Hag2|lia..]]|].
  exists ((dll, bs) :: gs). split; [by eapply descriptors_next|]. split.
  - rewrite Hcnt2, Hcnt. cbn [fmap list_fmap concat snd]. rewrite length_app, Nat2Z.inj_add.
    unfold u32. rewrite Z.add_mod_idemp_l by done. f_equal. unfold fmap. lia.
  - constructor.
    + cbn [fst snd]. eapply Forall_impl; [|exact Hps]. intros b Hb'.
      eapply provided_agree; [exact Hb'|eapply agree_sub; [exact Hag2|lia..]|lia..].
    + eapply Forall_impl; [|exact Hps2]. intros g Hg. eapply Forall_impl; [|exact Hg]. intros b Hb'.
      eapply provided_agree; [exact Hb'|apply agree_refl|lia..].
Qed.
End loops.

(** * What the loader guarantees *)

Lemma image_byte_ok image i : Forall u8_ok image -> u8_ok (image_byte image i).
Proof.
  intros Hb. unfold image_byte.
  assert (forall j, u8_ok (default 0 (image !! j))) as Hd.
  { intros j. destruct (image !! j) eqn:E; cbn; [by eapply Forall_lookup_1|words]. }
  assert (u8_ok (if i <? size_of_headers (optional_header_of image) then default 0 (image !! Z.to_nat i) else 0)) as H0
    by (case_match; [apply Hd|words]).
  revert H0. generalize (if i <? size_of_headers (optional_header_of image) then default 0 (image !! Z.to_nat i) else 0).
  induction (image_sections image) as [|s ss IH]; intros b0 H0; cbn [foldl]; [done|]. apply IH.
  unfold section_byte. destruct (image !! Z.to_nat _) eqn:E; repeat case_match; cbn; try done.
  all: first [by eapply Forall_lookup_1 | solve [words]].
Qed.

(** The image proper as the sections and headers make it. *)
Definition unbound_image (image : list Z) : list Z :=
  (fun i => image_byte image (Z.of_nat i)) <$> seq 0 (Z.to_nat (size_of_image (optional_header_of image))).

Definition x64_load_config (base N : Z) : pe_image_load_config :=
  {| expected_machine := PE_MACHINE_X64; expected_image_base := base;
     expected_section_alignment := X64_USER_IMAGE_PAGE_SIZE; expected_file_alignment := X64_USER_IMAGE_PAGE_SIZE;
     loaded_image_size := N; allow_imports := true; allow_relocations := false |}.

Definition import_directory_of (image : list Z) : pe_data_directory :=
  directory_at (optional_header_of image) PE_IMPORT_DIRECTORY_INDEX.

(** A successful load: the image is acceptable and every import its directory
    lists is bound to what the resolver provides. *)
Definition x64_loaded (image : list Z) (base N : Z) (provides : provision) (info : x64_pe64_image_info) (l : list Z) : Prop :=
  let size := size_of_image (optional_header_of image) in
  let directory := directory_virtual_address (import_directory_of image) in
  well_formed_image image (x64_load_config base N) = true /\
  info_entry_point info = u64 (base + address_of_entry_point (optional_header_of image)) /\
  info_image_size info = size /\
  exists gs to,
    (if directory =? 0 then gs = [] /\ take (Z.to_nat size) l = unbound_image image
     else descriptors_bound base size directory (unbound_image image) gs (take (Z.to_nat size) l)) /\
    info_import_count info = u32 (Z.of_nat (length (concat (snd <$> gs)))) /\
    Forall (fun g => Forall (provided provides base l (fst g) size to) (snd g)) gs.

Definition x64_load_outcome (image : list Z) (base : Z) (provides : provision) (loaded : list Z)
    (r : x64_pe64_image_load_status * option x64_pe64_image_info) (l : list Z) : Prop :=
  length l = length loaded /\ (fst r = X64_PE64_IMAGE_LOAD_STATUS_OK -> Forall u8_ok l) /\ exists info, snd r = Some info /\
  if decide (fst r = X64_PE64_IMAGE_LOAD_STATUS_OK)
  then x64_loaded image base (Z.of_nat (length loaded)) provides info l
  else info_entry_point info = 0 /\ info_image_size info = 0.

Lemma import_directory_ok image :
  Forall u8_ok image ->
  u32_ok (directory_virtual_address (import_directory_of image)) /\ u32_ok (directory_size (import_directory_of image)).
Proof.
  intros Hb. unfold import_directory_of, directory_at. destruct (_ <? _); [|split; cbn; words].
  destruct (data_directories _ !! _) as [d|] eqn:E; [|split; cbn; words].
  unfold optional_header_of, nt_headers_of, decode_nt_headers, decode_optional_header in E.
  cbn [optional_header data_directories] in E. apply list_lookup_fmap_Some in E as (k & -> & _).
  split; apply field4_range; by do 3 apply Forall_slice.
Qed.

Lemma map_common_load_status_ok status :
  map_common_load_status status = X64_PE64_IMAGE_LOAD_STATUS_OK <-> status = PE_IMAGE_LOAD_STATUS_OK.
Proof. by destruct status. Qed.

(** A buffer that holds the bytes of the image. *)
Lemma image_buffer image N l :
  Forall u8_ok image -> Z.of_nat (length l) = N -> size_of_image (optional_header_of image) <= N ->
  (forall i, 0 <= i < N -> l !! Z.to_nat i = Some (image_byte image i)) ->
  Forall u8_ok l /\ take (Z.to_nat (size_of_image (optional_header_of image))) l = unbound_image image.
Proof.
  intros Hb Hl Hs H. split.
  - apply Forall_lookup_2. intros i x Hx. pose proof (lookup_lt_Some _ _ _ Hx).
    specialize (H (Z.of_nat i) ltac:(lia)). rewrite Nat2Z.id, Hx in H. injection H as ->. by apply image_byte_ok.
  - apply list_eq. intros i. unfold unbound_image. rewrite list_lookup_fmap.
    destruct (decide (i < Z.to_nat (size_of_image (optional_header_of image)))%nat).
    + rewrite lookup_take_lt, lookup_seq_lt by done. specialize (H (Z.of_nat i) ltac:(lia)).
      rewrite Nat2Z.id in H. by rewrite H.
    + by rewrite lookup_take_ge, lookup_seq_ge by lia.
Qed.

Lemma accepted_directory image config : import_directory (accepted_result image config) = import_directory_of image.
Proof. reflexivity. Qed.

Lemma accepted_size image config :
  result_image_size (accepted_result image config) = size_of_image (optional_header_of image).
Proof. reflexivity. Qed.

Lemma accepted_entry image config :
  entry_point (accepted_result image config)
  = u64 (expected_image_base config + address_of_entry_point (optional_header_of image)).
Proof. reflexivity. Qed.

Section load.
Context (image : list Z) (base : Z) (provides : provision) (loaded : list Z).
Let N := Z.of_nat (length loaded).

Lemma x64_load_failed status count l :
  length l = length loaded -> status <> X64_PE64_IMAGE_LOAD_STATUS_OK ->
  x64_load_outcome image base provides loaded
    (status, Some {| info_entry_point := 0; info_image_size := 0; info_import_count := count |}) l.
Proof. intros Hl Hs. split; [done|]. split; [done|]. eexists. split; [reflexivity|]. cbn [fst]. by rewrite decide_False. Qed.

Lemma x64_load_succeeded info l :
  length l = length loaded -> Forall u8_ok l -> x64_loaded image base N provides info l ->
  x64_load_outcome image base provides loaded (X64_PE64_IMAGE_LOAD_STATUS_OK, Some info) l.
Proof. intros Hl Hb Hs. split; [done|]. split; [done|]. eexists. split; [reflexivity|]. cbn [fst]. by rewrite decide_True. Qed.

(** An image without imports is loaded when its headers and sections are. *)
Lemma load_without_imports import_resolver :
  Forall u8_ok image -> u64_ok (file_size image) ->
  (well_formed_headers image (x64_load_config base N) = true -> Forall (section_data_fits N) (image_sections image)) ->
  well_formed_image image (x64_load_config base N) = true ->
  directory_virtual_address (import_directory_of image) = 0 ->
  twp (load_x64_pe64_image (Some image) (file_size image) base true N import_resolver true)
    (fun r _ => fst r = X64_PE64_IMAGE_LOAD_STATUS_OK) loaded.
Proof.
  intros Hb Hsm Hfit Hw Hno. unfold load_x64_pe64_image. rewrite bool_decide_eq_false_2 by done. cbn [negb orb].
  fold (x64_load_config base N). apply twp_bind. eapply twp_mono; [by apply load_pe32_plus_image_twp|].
  intros [status result] l [Hl Ho]. cbn [fst snd] in Ho. cbv zeta. rewrite Hw in Ho. destruct Ho as ([= -> ->] & _ & _).
  rewrite decide_False by (intros Hn; by apply Hn). cbn [default id]. rewrite accepted_directory, Hno. cbn [Z.eqb negb].
  by apply twp_bind, twp_ret, twp_ret.
Qed.

Lemma load_x64_pe64_image_twp import_resolver :
  Forall u8_ok image -> u64_ok (file_size image) -> valid_resolver import_resolver provides ->
  (well_formed_headers image (x64_load_config base N) = true -> Forall (section_data_fits N) (image_sections image)) ->
  twp (load_x64_pe64_image (Some image) (file_size image) base true N import_resolver true)
    (x64_load_outcome image base provides loaded) loaded.
Proof.
  intros Hb Hsm Hres Hfit. unfold load_x64_pe64_image. rewrite bool_decide_eq_false_2 by done. cbn [negb orb].
  fold (x64_load_config base N). apply twp_bind. eapply twp_mono; [by apply load_pe32_plus_image_twp|].
  intros [status result] l [Hl Ho]. cbn [fst snd] in Ho. cbv zeta.
  destruct (well_formed_image image (x64_load_config base N)) eqn:Hw.
  2:{ destruct Ho as [Hst _]. rewrite <- map_common_load_status_ok in Hst. rewrite decide_True by done.
      by apply twp_ret, x64_load_failed. }
  destruct Ho as ([= -> ->] & [_ HsN] & Hbytes). rewrite decide_False by (intros Hn; by apply Hn).
  cbn [default id].
  rewrite accepted_directory, accepted_size, accepted_entry.
  change (loaded_image_size (x64_load_config base N)) with N in *.
  pose proof (size_of_image_ok image Hb) as Hsz.
  destruct (image_buffer image N l Hb ltac:(lia) HsN Hbytes) as [Hlb Hm0].
  destruct (import_directory_ok image Hb) as [Hdv Hds].
  destruct (Z.eqb_spec (directory_virtual_address (import_directory_of image)) 0) as [Hno|Hyes]; cbn [negb].
  { apply twp_bind, twp_ret, twp_ret, x64_load_succeeded; [done|exact Hlb|]. split; [done|]. split; [done|]. split; [done|].
    exists [], 0. rewrite (proj2 (Z.eqb_eq _ _)) by done. by repeat split. }
  apply twp_bind.
  destruct (Z.ltb_spec (size_of_image (optional_header_of image)) (directory_virtual_address (import_directory_of image)))
    as [|Hva]; [by apply twp_ret, twp_ret, x64_load_failed|].
  rewrite u32_id by words.
  destruct (Z.ltb_spec (size_of_image (optional_header_of image) - directory_virtual_address (import_directory_of image))
    (directory_size (import_directory_of image))) as [|Hsi]; [by apply twp_ret, twp_ret, x64_load_failed|].
  cbn [orb]. rewrite (u32_id (directory_virtual_address _ + _)) by words. unfold sizeof_import_descriptor at 1.
  pose proof (Z.mul_succ_div_gt (directory_size (import_directory_of image)) 20 ltac:(lia)).
  assert (0 <= directory_size (import_directory_of image) / 20) by (apply Z.div_pos; unfold u32_ok in *; lia).
  assert (u32 N <= N) by (apply Z.mod_le; lia).
  apply twp_bind. eapply twp_mono.
  { apply (descriptor_loop_twp import_resolver provides base _ (u32 N) (length loaded));
      first [done | apply u32_range | by split | unfold u32_ok in *; lia]. }
  intros [[st next] count] l' ([Hl' Hlb'] & Hc & Hst & Hd). apply twp_ret. cbn [fst snd] in *.
  destruct st as [st|]; [apply twp_ret, x64_load_failed; [done|congruence]|].
  apply twp_ret, x64_load_succeeded; [done|exact Hlb'|]. split; [done|]. split; [done|]. split; [done|].
  destruct (Hd eq_refl) as (_ & _ & _ & gs & Hgs & Hcount & Hps). exists gs, next.
  rewrite (proj2 (Z.eqb_neq _ _)) by done. unfold image_part in Hgs. rewrite Hm0 in Hgs. by split.
Qed.
End load.

(** C13: With a resolver that keeps its contract, and provided that the data of every section of
    an image with acceptable headers ends within the buffer (which the loader does not check:
    load_pe32_plus_image_overruns), the load of an x64 image terminates without touching memory
    outside the file and the buffer, and when it succeeds the image was acceptable, the bytes of
    the image are those of its sections and headers, and every thunk of every descriptor of the
    import directory, up to the empty one, has had its address entry replaced by an address the
    resolver provides for the library and the name the image gives; the reported entry point,
    size and number of imports are right. *)
Theorem load_x64_pe64_image_correct image base loaded import_resolver provides :
  Forall u8_ok image -> u64_ok (file_size image) -> valid_resolver import_resolver provides ->
  let N := Z.of_nat (length loaded) in
  (well_formed_headers image (x64_load_config base N) = true -> Forall (section_data_fits N) (image_sections image)) ->
  twp (load_x64_pe64_image (Some image) (file_size image) base true N import_resolver true)
    (x64_load_outcome image base provides loaded) loaded.
Proof.
  intros. by apply load_x64_pe64_image_twp.
Qed.
