(* ===== verification/Win32Emulation.v ===== *)
(** [win32/x64_win32_emulation.cpp]: the resolver that binds an import of a
    Windows library to a stub that makes a system call, and the table of
    [win32/generated/x64_win32_dll_exports.cpp]. *)
From Stdlib Require Import Ascii String.
From S2P Require Import Prelude Syscalls PeImage X64PeImage.

Definition X64_WIN32_IMPORT_STUB_SIZE : Z := 11.

(** A character array that ends with the terminator. *)
Definition c_literal (s : string) : char_buffer := characters s ++ [0].

Record x64_win32_dll_export := { export_dll_name : char_buffer; export_symbol_name : char_buffer; syscall_number : Z }.

Definition X64_WIN32_DLL_EXPORTS : list x64_win32_dll_export :=
  [ {| export_dll_name := c_literal "kernel32"; export_symbol_name := c_literal "OutputDebugStringA";
       syscall_number := SYSCALL_DEBUG_LOG |};
    {| export_dll_name := c_literal "kernel32"; export_symbol_name := c_literal "ExitProcess";
       syscall_number := SYSCALL_THREAD_EXIT |} ].

Definition align_up (value alignment : Z) : Z :=
  if alignment =? 0 then value
  else
    let remainder := value mod alignment in
    if remainder =? 0 then value else u64 (value + u64 (alignment - remainder)).

Definition to_lower_ascii (value : Z) : Z :=
  if (65 <=? value) && (value <=? 90) then value - 65 + 97 else value.

(** Character [index] of an array: reading outside the array is undefined. *)
Definition char_at {T} (s : char_buffer) (index : nat) : M T Z := index_get s (Z.of_nat index).

Definition has_dll_suffix {T} (value : char_buffer) (start_index : nat) : M T bool :=
  c0 ← char_at value start_index;
  if (c0 =? 0) || negb (to_lower_ascii c0 =? 100) then mret false
  else
    c1 ← char_at value (start_index + 1);
    if negb (to_lower_ascii c1 =? 108) then mret false
    else
      c2 ← char_at value (start_index + 2);
      if negb (to_lower_ascii c2 =? 108) then mret false
      else c3 ← char_at value (start_index + 3); mret (c3 =? 0).

(** The loop of [dll_names_match] and what follows it; every iteration reads
    the next character of the registered name, so [fuel] is its length plus one. *)
Fixpoint dll_names_loop {T} (fuel : nat) (imported_name registered_name : char_buffer) (index : nat) : M T bool :=
  match fuel with
  | O => out_of_fuel
  | S fuel =>
      registered ← char_at registered_name index;
      imported ← char_at imported_name index;
      if negb (registered =? 0) then
        if (imported =? 0) || negb (to_lower_ascii imported =? to_lower_ascii registered) then mret false
        else dll_names_loop fuel imported_name registered_name (index + 1)
      else if imported =? 0 then mret true
      else if imported =? 46 then has_dll_suffix imported_name (index + 1) else mret false
  end.

(** No caller passes null. *)
Definition dll_names_match {T} (imported_name registered_name : char_buffer) : M T bool :=
  dll_names_loop (S (length registered_name)) imported_name registered_name 0.

Fixpoint symbol_names_loop {T} (fuel : nat) (left right : char_buffer) (index : nat) : M T bool :=
  match fuel with
  | O => out_of_fuel
  | S fuel =>
      l ← char_at left index;
      r ← char_at right index;
      if negb (l =? 0) && negb (r =? 0) then
        if negb (l =? r) then mret false else symbol_names_loop fuel left right (index + 1)
      else mret ((l =? 0) && (r =? 0))
  end.

Definition symbol_names_match {T} (left right : char_buffer) : M T bool :=
  symbol_names_loop (S (length left)) left right 0.

Definition write_u32_le (offset value : Z) : L unit :=
  write_loaded offset [Z.land value 255];;
  write_loaded (offset + 1) [Z.land (Z.shiftr value 8) 255];;
  write_loaded (offset + 2) [Z.land (Z.shiftr value 16) 255];;
  write_loaded (offset + 3) [Z.land (Z.shiftr value 24) 255].

(** The loop over the exports: the first one both of whose names match. *)
Fixpoint find_export {T} (exports : list x64_win32_dll_export) (dll_name symbol_name : char_buffer)
    : M T (option x64_win32_dll_export) :=
  match exports with
  | [] => mret None
  | current_export :: exports =>
      dll_matches ← dll_names_match dll_name (export_dll_name current_export);
      if negb (dll_matches : bool) then find_export exports dll_name symbol_name
      else
        symbol_matches ← symbol_names_match symbol_name (export_symbol_name current_export);
        if (symbol_matches : bool) then mret (Some current_export) else find_export exports dll_name symbol_name
  end.

(** The bytes of the stub: MOV RDI, RCX; MOV EAX, number; SYSCALL; RET. *)
Definition write_stub (stub_offset number : Z) : L unit :=
  write_loaded stub_offset [0x48];;
  write_loaded (stub_offset + 1) [0x89];;
  write_loaded (stub_offset + 2) [0xCF];;
  write_loaded (stub_offset + 3) [0xB8];;
  write_u32_le (stub_offset + 4) number;;
  write_loaded (stub_offset + 8) [0x0F];;
  write_loaded (stub_offset + 9) [0x05];;
  write_loaded (stub_offset + 10) [0xC3].

(** [*out_function_address] is 0 where it is not written, as the caller has
    initialised it; the caller passes no null pointer. *)
Definition resolve_x64_win32_import : resolve_import_function :=
  fun dll_name symbol_name image_base loaded_image_size next_stub_offset =>
  resolved_export ← find_export X64_WIN32_DLL_EXPORTS dll_name symbol_name;
  match (resolved_export : option x64_win32_dll_export) with
  | None => mret (X64_PE64_IMPORT_RESOLUTION_STATUS_UNSUPPORTED_IMPORT, next_stub_offset, 0)
  | Some resolved_export =>
      if 0xFFFFFFFF <? syscall_number resolved_export
      then mret (X64_PE64_IMPORT_RESOLUTION_STATUS_IMPORT_STUB_OUT_OF_RANGE, next_stub_offset, 0)
      else
        let stub_offset := align_up next_stub_offset 16 in
        if (loaded_image_size <? stub_offset)
           || (u64 (loaded_image_size - stub_offset) <? X64_WIN32_IMPORT_STUB_SIZE)
        then mret (X64_PE64_IMPORT_RESOLUTION_STATUS_IMPORT_STUB_OUT_OF_RANGE, next_stub_offset, 0)
        else
          write_stub stub_offset (u32 (syscall_number resolved_export));;
          mret (X64_PE64_IMPORT_RESOLUTION_STATUS_OK, u64 (stub_offset + X64_WIN32_IMPORT_STUB_SIZE),
                u64 (image_base + stub_offset))
  end.

Definition X64_WIN32_IMPORT_RESOLVER : x64_pe64_import_resolver :=
  {| resolve_import := Some resolve_x64_win32_import |}.

Definition get_x64_win32_import_resolver : option x64_pe64_import_resolver := Some X64_WIN32_IMPORT_RESOLVER.

(** * Specification

    Strings are the lists of their characters, without the terminator. *)

Definition lower (s : list Z) : list Z := to_lower_ascii <$> s.

(** The library names match but for case and a suffix ".dll" of the imported one. *)
Definition same_library (imported registered : list Z) : bool :=
  bool_decide (lower imported = lower registered)
  || bool_decide (lower imported = lower registered ++ characters ".dll").

(** A buffer holds a string: its characters, the terminator, anything. *)
Definition holds (buffer : char_buffer) (s : list Z) : Prop :=
  Forall (fun c => 0 < c < 256) s /\ exists rest, buffer = s ++ 0 :: rest.

Lemma char_at_spec {T} (buffer : char_buffer) i c (st : T) :
  buffer !! i = Some c -> char_at buffer i st = Returned c st.
Proof. intros H. unfold char_at, index_get. rewrite Nat2Z.id. by rewrite H. Qed.

Lemma holds_lookup buffer s i :
  holds buffer s -> (i <= length s)%nat -> buffer !! i = Some (default 0 (s !! i)).
Proof.
  intros [_ [rest ->]] Hi. destruct (decide (i < length s)%nat) as [Hlt|].
  - rewrite lookup_app_l by done. destruct (lookup_lt_is_Some_2 s i Hlt) as [c Hc]. by rewrite Hc.
  - rewrite lookup_app_r by lia. replace (i - length s)%nat with 0%nat by lia.
    by rewrite (lookup_ge_None_2 s i) by lia.
Qed.

Lemma holds_nonzero buffer s i : holds buffer s -> (i < length s)%nat -> exists c, s !! i = Some c /\ 0 < c < 256.
Proof.
  intros [Hs _] Hi. destruct (lookup_lt_is_Some_2 s i Hi) as [c Hc]. exists c. split; [done|].
  by eapply (Forall_lookup_1 _ _ _ _ Hs).
Qed.

Lemma char_at_suffix {T} buffer p s i (st : T) :
  holds buffer (p ++ s) -> length p = i -> char_at buffer i st = Returned (List.hd 0 s) st.
Proof.
  intros H <-. apply char_at_spec. rewrite (holds_lookup buffer (p ++ s)) by (done || rewrite length_app; lia).
  rewrite lookup_app_r, Nat.sub_diag by lia. by destruct s.
Qed.

Lemma holds_head buffer p c s : holds buffer (p ++ c :: s) -> 0 < c < 256.
Proof. intros [[_ Hc]%Forall_app _]. by apply Forall_cons_1 in Hc as [? _]. Qed.

Lemma holds_snoc buffer p c s : holds buffer (p ++ c :: s) -> holds buffer ((p ++ [c]) ++ s).
Proof. by rewrite <- app_assoc. Qed.

Lemma lower_nonzero c k : 0 < k -> to_lower_ascii c = k -> c <> 0.
Proof. intros Hk <- ->. done. Qed.

Lemma lower_dot c : to_lower_ascii c = 46 <-> c = 46.
Proof. unfold to_lower_ascii. destruct ((65 <=? c) && (c <=? 90)) eqn:E; bool_hyps; lia. Qed.

Lemma length_snoc (p : list Z) c : length (p ++ [c]) = (length p + 1)%nat.
Proof. apply length_app. Qed.

Local Ltac no_suffix := rewrite bool_decide_eq_false_2; [done|unfold lower; cbn; congruence].

Lemma has_dll_suffix_spec {T} buffer p s (st : T) :
  holds buffer (p ++ s) ->
  has_dll_suffix buffer (length p) st = Returned (bool_decide (lower s = [100; 108; 108])) st.
Proof.
  intros H. unfold has_dll_suffix. erewrite bind_eq by (by eapply char_at_suffix).
  destruct s as [|c0 s]; [no_suffix|]. pose proof (holds_head _ _ _ _ H) as H0. apply holds_snoc in H.
  cbn [List.hd]. rewrite (proj2 (Z.eqb_neq c0 0)) by lia. cbn [orb].
  destruct (Z.eqb_spec (to_lower_ascii c0) 100) as [E0|E0]; cbn [negb]; [|no_suffix].
  erewrite bind_eq by (eapply char_at_suffix; [exact H|apply length_snoc]).
  destruct s as [|c1 s]; [no_suffix|]. apply holds_snoc in H. cbn [List.hd].
  destruct (Z.eqb_spec (to_lower_ascii c1) 108) as [E1|E1]; cbn [negb]; [|no_suffix].
  erewrite bind_eq by (eapply char_at_suffix; [exact H|rewrite !length_snoc; lia]).
  destruct s as [|c2 s]; [no_suffix|]. apply holds_snoc in H. cbn [List.hd].
  destruct (Z.eqb_spec (to_lower_ascii c2) 108) as [E2|E2]; cbn [negb]; [|no_suffix].
  erewrite bind_eq by (eapply char_at_suffix; [exact H|rewrite !length_snoc; lia]).
  unfold lower. cbn [fmap list_fmap]. rewrite E0, E1, E2. destruct s as [|c3 s]; [done|].
  apply holds_head in H. cbn [List.hd]. rewrite (proj2 (Z.eqb_neq c3 0)) by lia. done.
Qed.

Lemma lower_cons c s : lower (c :: s) = to_lower_ascii c :: lower s.
Proof. reflexivity. Qed.

Lemma same_library_cons c s d t :
  same_library (c :: s) (d :: t) = (to_lower_ascii c =? to_lower_ascii d) && same_library s t.
Proof.
  unfold same_library. rewrite !lower_cons. cbn [app].
  destruct (Z.eqb_spec (to_lower_ascii c) (to_lower_ascii d)) as [->|Hne]; cbn [andb].
  - f_equal; apply bool_decide_ext; split; congruence.
  - rewrite !bool_decide_eq_false_2; naive_solver.
Qed.

Lemma dll_names_loop_spec {T} imported registered (st : T) t : forall fuel p q s,
  holds imported (p ++ s) -> holds registered (q ++ t) -> length p = length q -> (length t < fuel)%nat ->
  dll_names_loop fuel imported registered (length p) st = Returned (same_library s t) st.
Proof.
  induction t as [|d t IH]; intros [|fuel] p q s Hi Hr Hpq Hf; cbn [length] in Hf; try lia; cbn [dll_names_loop].
  all: erewrite bind_eq by (by eapply char_at_suffix).
  all: erewrite bind_eq by (by eapply char_at_suffix); cbn [List.hd].
  - change (0 =? 0) with true. cbn [negb]. destruct s as [|c s]; [done|]. cbn [List.hd].
    pose proof (holds_head _ _ _ _ Hi) as Hc. rewrite (proj2 (Z.eqb_neq c 0)) by lia.
    unfold same_library. rewrite !lower_cons. rewrite (bool_decide_eq_false_2 (_ :: _ = lower [])) by done. cbn [orb].
    change (lower [] ++ characters ".dll") with [46; 100; 108; 108].
    destruct (Z.eqb_spec c 46) as [->|Hne].
    + apply holds_snoc in Hi. rewrite <- (length_snoc p 46). rewrite (has_dll_suffix_spec _ _ _ _ Hi). f_equal.
      apply bool_decide_ext. change (to_lower_ascii 46) with 46. split; congruence.
    + rewrite bool_decide_eq_false_2; [done|]. intros E. apply Hne, lower_dot. congruence.
  - pose proof (holds_head _ _ _ _ Hr) as Hd. rewrite (proj2 (Z.eqb_neq d 0)) by lia. cbn [negb].
    destruct s as [|c s]; cbn [List.hd].
    { change (0 =? 0) with true. cbn [orb]. unfold same_library.
      rewrite !bool_decide_eq_false_2 by (rewrite ?lower_cons; done). done. }
    pose proof (holds_head _ _ _ _ Hi) as Hc. rewrite (proj2 (Z.eqb_neq c 0)), same_library_cons by lia. cbn [orb].
    destruct (Z.eqb_spec (to_lower_ascii c) (to_lower_ascii d)) as [E|E]; cbn [negb andb]; [|done].
    rewrite <- (length_snoc p c). apply (IH fuel _ (q ++ [d])); [by apply holds_snoc..|rewrite !length_snoc; lia|lia].
Qed.

Lemma dll_names_match_eq {T} imported registered s t (st : T) :
  holds imported s -> holds registered t -> dll_names_match imported registered st = Returned (same_library s t) st.
Proof.
  intros Hi Hr. unfold dll_names_match. apply (dll_names_loop_spec _ _ _ t _ [] [] s Hi Hr eq_refl).
  destruct Hr as [_ [rest ->]]. rewrite length_app. cbn. lia.
Qed.

Lemma symbol_names_loop_spec {T} left right (st : T) t : forall fuel p q s,
  holds left (p ++ s) -> holds right (q ++ t) -> length p = length q -> (length s < fuel)%nat ->
  symbol_names_loop fuel left right (length p) st = Returned (bool_decide (s = t)) st.
Proof.
  induction t as [|d t IH]; intros [|fuel] p q s Hi Hr Hpq Hf; try lia; cbn [symbol_names_loop].
  all: erewrite bind_eq by (by eapply char_at_suffix).
  all: erewrite bind_eq by (by eapply char_at_suffix); cbn [List.hd].
  - change (0 =? 0) with true. cbn [negb]. rewrite andb_false_r, andb_true_r. destruct s as [|c s]; [done|].
    pose proof (holds_head _ _ _ _ Hi) as Hc. cbn [List.hd]. by rewrite (proj2 (Z.eqb_neq c 0)) by lia.
  - pose proof (holds_head _ _ _ _ Hr) as Hd. rewrite (proj2 (Z.eqb_neq d 0)) by lia. cbn [negb].
    destruct s as [|c s]; [done|]. pose proof (holds_head _ _ _ _ Hi) as Hc. cbn [List.hd length] in *.
    rewrite (proj2 (Z.eqb_neq c 0)) by lia. cbn [negb andb]. destruct (Z.eqb_spec c d) as [->|E]; cbn [negb].
    + rewrite <- (length_snoc p d). rewrite (IH fuel _ (q ++ [d]) s);
        [|by apply holds_snoc..|rewrite !length_snoc; lia|lia].
      f_equal. apply bool_decide_ext. split; congruence.
    + rewrite bool_decide_eq_false_2; [done|congruence].
Qed.

Lemma symbol_names_match_eq {T} left right s t (st : T) :
  holds left s -> holds right t -> symbol_names_match left right st = Returned (bool_decide (s = t)) st.
Proof.
  intros Hl Hr. unfold symbol_names_match. apply (symbol_names_loop_spec _ _ _ t _ [] [] s Hl Hr eq_refl).
  destruct Hl as [_ [rest ->]]. rewrite length_app. cbn. lia.
Qed.

(** ** Looking an import up *)

(** The characters of a buffer up to the terminator. *)
Fixpoint text (buffer : char_buffer) : list Z :=
  match buffer with
  | [] => []
  | c :: buffer => if c =? 0 then [] else c :: text buffer
  end.

(** The export an import means. *)
Definition exported (dll name : list Z) : option x64_win32_dll_export :=
  List.find
    (fun e => same_library dll (text (export_dll_name e)) && bool_decide (name = text (export_symbol_name e)))
    X64_WIN32_DLL_EXPORTS.

Definition export_ok (e : x64_win32_dll_export) : Prop :=
  holds (export_dll_name e) (text (export_dll_name e)) /\ holds (export_symbol_name e) (text (export_symbol_name e)) /\
  u32_ok (syscall_number e).

Lemma literal_holds s :
  forallb (fun c => (0 <? c) && (c <? 256)) (characters s) = true -> text (c_literal s) = characters s /\
  holds (c_literal s) (text (c_literal s)).
Proof.
  intros H. assert (text (c_literal s) = characters s) as E.
  { unfold c_literal. revert H. generalize (characters s). intros cs. induction cs as [|c cs IH]; intros H; [done|].
    cbn [forallb app text] in *. bool_hyps. rewrite (proj2 (Z.eqb_neq c 0)) by lia. by rewrite IH. }
  split; [done|]. rewrite E. split; [|by exists []]. rewrite forallb_forall in H. apply List.Forall_forall.
  intros c Hc. apply H in Hc. bool_hyps. lia.
Qed.

Lemma exports_ok : Forall export_ok X64_WIN32_DLL_EXPORTS.
Proof.
  repeat constructor.
  all: first [by apply literal_holds; vm_compute | vm_compute; congruence].
Qed.

Lemma find_export_spec {T} exports dll name dll_name symbol_name (st : T) :
  Forall export_ok exports -> holds dll_name dll -> holds symbol_name name ->
  find_export exports dll_name symbol_name st
  = Returned (List.find (fun e => same_library dll (text (export_dll_name e))
                                  && bool_decide (name = text (export_symbol_name e))) exports) st.
Proof.
  intros Hex Hd Hn. induction Hex as [|e exports (He1 & He2 & _) _ IH]; [done|]. cbn [find_export List.find].
  erewrite bind_eq by (by apply dll_names_match_eq). destruct (same_library dll _); cbn [negb andb]; [|done].
  erewrite bind_eq by (by apply symbol_names_match_eq). by destruct (bool_decide _).
Qed.

(** ** The stub *)

Definition stub_offset (next : Z) : Z := (next + 15) / 16 * 16.

Definition stub_bytes (number : Z) : list Z :=
  [0x48; 0x89; 0xCF; 0xB8] ++ le_encode 4 number ++ [0x0F; 0x05; 0xC3].

Lemma stub_offset_spec next : next <= stub_offset next < next + 16 /\ stub_offset next mod 16 = 0.
Proof.
  unfold stub_offset. pose proof (Z.div_mod (next + 15) 16 ltac:(lia)). pose proof (Z.mod_pos_bound (next + 15) 16 ltac:(lia)).
  split; [lia|]. by apply Z.mod_mul.
Qed.

Lemma align_up_16 next : u32_ok next -> align_up next 16 = stub_offset next.
Proof.
  intros Hn. unfold align_up. change (16 =? 0) with false. cbv beta iota zeta.
  pose proof (Z.div_mod next 16 ltac:(lia)) as E. pose proof (Z.mod_pos_bound next 16 ltac:(lia)) as Hr.
  unfold stub_offset. destruct (Z.eqb_spec (next mod 16) 0) as [H0|H0].
  - rewrite H0 in E. replace ((next + 15) / 16) with (next / 16); [lia|].
    apply (Z.div_unique (next + 15) 16 _ 15); lia.
  - rewrite (u64_id (16 - _)), (u64_id (next + _)) by words. replace ((next + 15) / 16) with (next / 16 + 1); [lia|].
    apply (Z.div_unique (next + 15) 16 _ (next mod 16 - 1)); lia.
Qed.

(** One write after another. *)
Lemma write_loaded_next off a b k l :
  0 <= off -> k = Z.of_nat (length a) -> off + k + Z.of_nat (length b) <= Z.of_nat (length l) ->
  write_loaded (off + k) b (splice (Z.to_nat off) a l) = Returned tt (splice (Z.to_nat off) (a ++ b) l).
Proof.
  intros H0 -> Hl. rewrite write_loaded_eq by (rewrite ?length_splice; lia).
  rewrite <- splice_splice_app by lia. do 3 f_equal. lia.
Qed.

Lemma u32_bytes v :
  u32_ok v ->
  [Z.land v 255] ++ [Z.land (Z.shiftr v 8) 255] ++ [Z.land (Z.shiftr v 16) 255] ++ [Z.land (Z.shiftr v 24) 255]
  = le_encode 4 v.
Proof.
  intros Hv. cbn [app le_encode]. change 255 with (Z.ones 8). rewrite !Z.land_ones, !Z.shiftr_div_pow2 by lia.
  by rewrite !Z.div_div by lia.
Qed.

Lemma write_stub_eq off number l :
  0 <= off -> off + 11 <= Z.of_nat (length l) -> u32_ok number ->
  write_stub off number l
  = Returned tt (splice (Z.to_nat off) (stub_bytes number) l).
Proof.
  intros H0 Hl Hn. unfold write_stub. erewrite bind_eq by (apply write_loaded_eq; cbn [length]; lia).
  do 3 erewrite bind_eq by (apply write_loaded_next; cbn [length app]; lia).
  assert (forall a, length a = 4%nat ->
    write_u32_le (off + 4) number (splice (Z.to_nat off) a l)
    = Returned tt (splice (Z.to_nat off) (a ++ le_encode 4 number) l)) as Hw.
  { intros a Ha. unfold write_u32_le. rewrite <- !Z.add_assoc. cbn [Z.add Pos.add Pos.succ].
    do 3 erewrite bind_eq by (apply write_loaded_next; rewrite ?length_app; cbn [length]; lia).
    rewrite write_loaded_next by (rewrite ?length_app; cbn [length]; lia).
    rewrite <- !app_assoc. by rewrite u32_bytes. }
  erewrite bind_eq by (apply Hw; reflexivity).
  do 2 erewrite bind_eq by (apply write_loaded_next; rewrite ?length_app, ?length_le_encode; cbn [length]; lia).
  rewrite write_loaded_next by (rewrite ?length_app, ?length_le_encode; cbn [length]; lia).
  by rewrite <- !app_assoc.
Qed.

Lemma length_stub_bytes number : length (stub_bytes number) = 11%nat.
Proof. reflexivity. Qed.

Lemma exported_ok dll name e : exported dll name = Some e -> export_ok e.
Proof. intros [H _]%List.find_some. pose proof exports_ok as Hex. rewrite List.Forall_forall in Hex. by apply Hex. Qed.

(** What the resolver does. *)
Definition resolution (dll name : list Z) (image_base n next : Z) (l : list Z)
    : x64_pe64_import_resolution_status * Z * Z * list Z :=
  match exported dll name with
  | None => (X64_PE64_IMPORT_RESOLUTION_STATUS_UNSUPPORTED_IMPORT, next, 0, l)
  | Some e =>
      let off := stub_offset next in
      if off + 11 <=? n
      then (X64_PE64_IMPORT_RESOLUTION_STATUS_OK, off + 11, u64 (image_base + off),
            splice (Z.to_nat off) (stub_bytes (syscall_number e)) l)
      else (X64_PE64_IMPORT_RESOLUTION_STATUS_IMPORT_STUB_OUT_OF_RANGE, next, 0, l)
  end.

Lemma resolve_x64_win32_import_eq dll name dll_name symbol_name base n next l :
  holds dll_name dll -> holds symbol_name name -> u32_ok n -> n <= Z.of_nat (length l) -> u32_ok next ->
  resolve_x64_win32_import dll_name symbol_name base n next l
  = let '(r, l') := resolution dll name base n next l in Returned r l'.
Proof.
  intros Hd Hname Hn Hl Hnext. unfold resolve_x64_win32_import, resolution.
  erewrite bind_eq by (by apply find_export_spec; [apply exports_ok|..]). fold (exported dll name).
  destruct (exported dll name) as [e|] eqn:He; [|done]. destruct (exported_ok _ _ _ He) as (_ & _ & Hnum).
  rewrite (proj2 (Z.ltb_ge _ _)) by words. rewrite align_up_16 by done. cbv zeta.
  unfold X64_WIN32_IMPORT_STUB_SIZE. destruct (stub_offset_spec next) as [Hoff _].
  destruct (Z.leb_spec (stub_offset next + 11) n).
  - rewrite (proj2 (Z.ltb_ge _ _)) by lia. rewrite u64_id by words. rewrite (proj2 (Z.ltb_ge _ _)) by lia. cbn [orb].
    rewrite u32_id by done. erewrite bind_eq by (apply write_stub_eq; words). by rewrite u64_id by words.
  - destruct (Z.ltb_spec n (stub_offset next)); [done|]. rewrite u64_id by words.
    by rewrite (proj2 (Z.ltb_lt _ _)) by lia.
Qed.

(** Library names match exactly when they are equal but for the case of ASCII letters and a
    suffix .dll of the imported name; no character outside the two strings is read. *)
Lemma dll_names_match_spec {T} imported registered s t (st : T) :
  holds imported s -> holds registered t -> dll_names_match imported registered st = Returned (same_library s t) st.
Proof. apply dll_names_match_eq. Qed.

(** C32: The resolver finds the first export whose library and symbol match, puts an eleven-byte
    stub with its system call number at the next multiple of sixteen and returns the stub's
    address and end; an import no export matches, or whose stub does not fit, is refused and
    changes nothing. *)
Theorem resolve_x64_win32_import_spec dll name dll_name symbol_name base n next l :
  holds dll_name dll -> holds symbol_name name -> u32_ok n -> n <= Z.of_nat (length l) -> u32_ok next ->
  resolve_x64_win32_import dll_name symbol_name base n next l
  = let '(r, l') := resolution dll name base n next l in Returned r l'.
Proof. apply resolve_x64_win32_import_eq. Qed.

(** ** The resolver is one the loader can use *)

(** The part of the buffer holds the stub of the export, at the address. *)
Definition provides_stub : provision := fun base l from to dll name address =>
  exists e, exported dll name = Some e /\ 0 <= from /\ to = stub_offset from + 11 /\
    address = u64 (base + stub_offset from) /\
    slice (Z.to_nat (stub_offset from)) 11 l = stub_bytes (syscall_number e).

Lemma c_buffer_holds s : c_string s -> holds (c_buffer s) s.
Proof.
  intros [Hs Hl]. split; [done|]. unfold c_buffer. replace (64 - length s)%nat with (S (63 - length s)) by lia.
  by eexists.
Qed.

#[export] Instance win32_resolver : ImportResolver resolve_x64_win32_import provides_stub.
Proof.
  split.
  - intros base n next dll name l Hd Hname Hn Hl Hnext Hb. unfold twp.
    rewrite (resolve_x64_win32_import_eq dll name) by (by try apply c_buffer_holds). unfold resolution.
    destruct (exported dll name) as [e|] eqn:He; [|by split_and!].
    destruct (stub_offset_spec next) as [Hoff _]. cbv zeta.
    destruct (Z.leb_spec (stub_offset next + 11) n); [|by split_and!]. unfold u32_ok in *. split_and!.
    + apply length_splice. rewrite length_stub_bytes. lia.
    + apply Forall_splice; [|done]. apply Forall_app. split; [repeat constructor; words|].
      apply Forall_app. split; [apply le_encode_bytes|repeat constructor; words].
    + intros i Hi. symmetry. apply lookup_splice_ne; rewrite length_stub_bytes; lia.
    + intros _. split; [lia|]. exists e. split_and!; try done; try lia.
      rewrite <- (length_stub_bytes (syscall_number e)). apply slice_splice_same. rewrite length_stub_bytes. lia.
  - intros base l l' from to dll name address (e & He & H0 & -> & -> & Hs) Hag. exists e. split_and!; try done.
    rewrite <- Hs. apply slice_ext. intros i Hi. destruct (stub_offset_spec from) as [Hoff _].
    specialize (Hag (Z.of_nat i) ltac:(lia)). by rewrite Nat2Z.id in Hag.
Qed.

Lemma win32_resolver_valid : valid_resolver get_x64_win32_import_resolver provides_stub.
Proof. split; [apply provides_local|exact win32_resolver]. Qed.
