(* ===== verification/ImportStub.v ===== *)
(** What the import stubs do when the emulator runs them: the loader
    ([win32]) and the interpreter ([emulator/x64]) put together. *)
From S2P Require Import Prelude EmulatorTypes ExecutionContext Samples GuestMemory Decoder OperandFields DataMovementInstructions StackInstructions ControlFlowInstructions SystemInstructions DecoderSpec InstructionSpecs Interpreter PeImage X64PeImage Win32Emulation.

Section steps.
Context {W : Type}.
Implicit Types c : x64_execution_context W.

Definition retired c : Z := retired_instructions (m_result c).

(** [c'] is [c] after one more instruction, with other registers, memory and world. *)
Record stepped c (s : x64_emulator_state) (m : x64_emulator_memory) (w : W) c' : Prop := {
  stepped_state : m_state c' = s;
  stepped_memory : m_memory c' = m;
  stepped_world : m_world c' = w;
  stepped_callbacks : m_callbacks c' = m_callbacks c;
  stepped_options : m_options c' = m_options c;
  stepped_retired : retired c' = u64 (retired c + 1);
}.

(** One iteration of the run loop that goes on. *)
Definition continues c c' : Prop := forall fuel, run_loop (S fuel) c = run_loop fuel c'.

Lemma continue_step c c2 i :
  retired c < instruction_budget (m_options c) ->
  decode_x64_instruction c = Returned (Some i) c ->
  dispatch i c = Returned X64_INSTRUCTION_OUTCOME_CONTINUE_RUNNING c2 ->
  continues c (with_result c2 (set_retired (m_result c2) (u64 (retired c2 + 1)))).
Proof.
  intros Hb Hd Hx fuel. cbn [run_loop]. erewrite bind_eq by reflexivity. fold (retired c).
  rewrite (proj2 (Z.ltb_lt _ _)) by done. erewrite bind_eq by exact Hd. cbv beta iota.
  erewrite bind_eq by exact Hx. rewrite decide_True by auto. by erewrite bind_eq by reflexivity.
Qed.

(** The context the handler of an instruction starts from. *)
Definition noted c (i : x64_decoded_instruction) : x64_execution_context W := final (set_fault i c) c.

Lemma noted_eq c i : set_fault i c = Returned tt (noted c i).
Proof. reflexivity. Qed.

(** An instruction with a primary opcode, given what its handler does. *)
Lemma primary_step c i c2 handler :
  retired c < instruction_budget (m_options c) ->
  decode_x64_instruction c = Returned (Some i) c -> opcode i <> 0x0F ->
  lookup_handler m_primary_opcode_handlers (opcode i) = handler ->
  handler i (noted c i) = Returned X64_INSTRUCTION_OUTCOME_CONTINUE_RUNNING c2 ->
  m_result c2 = m_result (noted c i) -> m_callbacks c2 = m_callbacks c -> m_options c2 = m_options c ->
  exists c', continues c c' /\ stepped c (m_state c2) (m_memory c2) (m_world c2) c'.
Proof.
  intros Hb Hd Ho <- Hh Hr Hc Hop. eexists. split.
  - eapply continue_step; [done|done|]. unfold dispatch. erewrite bind_eq by apply noted_eq.
    rewrite (proj2 (Z.eqb_neq _ _)) by done. exact Hh.
  - split; cbn; try done. unfold retired. by rewrite Hr.
Qed.

(** ** Reading the code *)

Lemma guest_read_sub c a n bs k len :
  memory_wf (m_memory c) -> guest_read c a n = Some bs -> (k + len <= n)%nat ->
  guest_read c (a + Z.of_nat k) len = Some (slice k len bs).
Proof.
  intros Hm H Hk. unfold guest_read in *. destruct (in_window c a (Z.of_nat n)) eqn:Ew; [|done].
  injection H as <-. unfold in_window in *. bool_hyps.
  rewrite (proj2 (andb_true_iff _ _)) by (split; apply Z.leb_le; lia). f_equal.
  unfold window_offset. replace (Z.to_nat (a + Z.of_nat k - _)) with (Z.to_nat (a - base_address (m_memory c)) + k)%nat by lia.
  apply list_eq. intros i. destruct (decide (i < len)%nat).
  - rewrite !lookup_slice by lia. f_equal. lia.
  - unfold slice. by rewrite !lookup_take_ge by lia.
Qed.

Lemma guest_read_noted c i : guest_read (noted c i) = guest_read c.
Proof. reflexivity. Qed.

(** The decoder on an opcode, without prefixes or with REX.W. *)
Lemma decode_plain c op :
  state_wf (m_state c) -> memory_wf (m_memory c) -> is_prefix op = false ->
  guest_read c (instruction_pointer (m_state c)) 1 = Some [op] -> instruction_pointer (m_state c) + 1 < 2 ^ 64 ->
  exists i, decode_x64_instruction c = Returned (Some i) c /\ opcode i = op /\ rex_w i = false /\ rex_b i = false /\
    next_address i = instruction_pointer (m_state c) + 1.
Proof.
  intros Hs Hm Hop Hr Hip. eexists. split; [apply (decode_prefixes_eq c [] op); try done; cbn [length]; lia|].
  split_and!; try done. cbn [next_address length]. rewrite Z.add_0_r. apply u64_id.
  pose proof (wf_ip _ Hs). words.
Qed.

Lemma decode_rex_w c op :
  state_wf (m_state c) -> memory_wf (m_memory c) -> is_prefix op = false ->
  guest_read c (instruction_pointer (m_state c)) 2 = Some [0x48; op] -> instruction_pointer (m_state c) + 2 < 2 ^ 64 ->
  exists i, decode_x64_instruction c = Returned (Some i) c /\ opcode i = op /\ rex_w i = true /\ rex_r i = false /\
    rex_b i = false /\ next_address i = instruction_pointer (m_state c) + 2.
Proof.
  intros Hs Hm Hop Hr Hip. eexists. split; [apply (decode_prefixes_eq c [0x48] op); try done; cbn [length]; [lia|by repeat constructor]|].
  split_and!; try done. cbn [next_address length]. change (Z.of_nat 1) with 1. rewrite <- Z.add_assoc. apply u64_id.
  pose proof (wf_ip _ Hs). words.
Qed.

Definition RAX : Z := register_index X64_GENERAL_REGISTER_RAX.
Definition RCX : Z := register_index X64_GENERAL_REGISTER_RCX.
Definition RDI : Z := register_index X64_GENERAL_REGISTER_RDI.

(** ** The four instructions *)

Lemma mov_rdi_rcx c :
  state_wf (m_state c) -> memory_wf (m_memory c) -> retired c < instruction_budget (m_options c) ->
  let ip := instruction_pointer (m_state c) in
  guest_read c ip 3 = Some [0x48; 0x89; 0xCF] -> ip + 3 < 2 ^ 64 ->
  exists c', continues c c' /\
    stepped c (set_ip (m_state (put_register c RDI (register c RCX))) (ip + 3)) (m_memory c) (m_world c) c'.
Proof.
  intros Hs Hm Hb ip Hcode Hip. pose proof (wf_ip _ Hs) as Hok. fold ip in Hok.
  pose proof (guest_read_sub c ip 3 _ 0 2 Hm Hcode ltac:(lia)) as Hop8. rewrite Z.add_0_r in Hop8.
  destruct (decode_rex_w c 0x89 Hs Hm eq_refl Hop8 ltac:(lia)) as (i & Hd & Hop & Hw & Hrr & Hrb & Hn). fold ip in Hn.
  pose proof (guest_read_sub c ip 3 _ 2 1 Hm Hcode ltac:(lia)) as Hmodrm.
  change (Z.of_nat 2) with 2 in Hmodrm.
  eapply (primary_step c i (move_ip (put_register (noted c i) RDI (register c RCX)) (ip + 3)) execute_x64_mov_register);
    [done|done|by rewrite Hop|rewrite Hop; reflexivity| |done..].
  unfold execute_x64_mov_register.
  erewrite bind_eq by (rewrite read_u8_spec, guest_read_noted, Hn, Hmodrm by (done || words); reflexivity).
  cbv beta iota zeta. change (le_decode (slice 2 1 [0x48; 0x89; 0xCF])) with 0xCF.
  change (field_mod 0xCF =? 3) with true. cbv iota. rewrite Hop. cbv iota. change (0x89 =? 0x89) with true. cbv iota.
  rewrite Hw, Hrr, Hrb. change (extend (field_reg 0xCF) false) with RCX. change (extend (field_rm 0xCF) false) with RDI.
  erewrite bind_eq by (erewrite bind_eq by (apply get_register64_spec; [done|by compute]);
    apply set_register64_spec; [done|by compute]).
  rewrite continue_at_spec, Hn. rewrite u64_id by words. by replace (ip + 2 + 1) with (ip + 3) by lia.
Qed.

Lemma mov_eax_immediate c bs :
  state_wf (m_state c) -> memory_wf (m_memory c) -> retired c < instruction_budget (m_options c) ->
  let ip := instruction_pointer (m_state c) in
  guest_read c ip 5 = Some (0xB8 :: bs) -> ip + 5 < 2 ^ 64 ->
  exists c', continues c c' /\
    stepped c (set_ip (m_state (put_register c RAX (le_decode bs))) (ip + 5)) (m_memory c) (m_world c) c'.
Proof.
  intros Hs Hm Hb ip Hcode Hip. pose proof (wf_ip _ Hs) as Hok. fold ip in Hok.
  destruct (guest_read_cons c ip 4 _ _ Hm Hcode) as [Hop8 Himm].
  destruct (decode_plain c 0xB8 Hs Hm eq_refl Hop8 ltac:(lia)) as (i & Hd & Hop & Hw & Hrb & Hn). fold ip in Hn.
  eapply (primary_step c i (move_ip (put_register (noted c i) RAX (le_decode bs)) (ip + 5)) execute_x64_mov_immediate32);
    [done|done|by rewrite Hop|rewrite Hop; reflexivity| |done..].
  unfold execute_x64_mov_immediate32. erewrite bind_eq by (by apply reject_rex_w_spec). cbv beta iota zeta.
  erewrite bind_eq by (rewrite read_u32_spec, guest_read_noted, Hn, Himm by (done || words); reflexivity).
  cbv beta iota. rewrite Hop, Hrb. change (extend (0xB8 - 0xB8) false) with RAX.
  unfold set_register32. erewrite bind_eq by (apply set_register64_spec; [done|by compute]).
  rewrite continue_at_spec, Hn. rewrite u64_id by words. by replace (ip + 1 + 4) with (ip + 5) by lia.
Qed.

Lemma return_step c bs :
  state_wf (m_state c) -> memory_wf (m_memory c) -> retired c < instruction_budget (m_options c) ->
  let ip := instruction_pointer (m_state c) in
  guest_read c ip 1 = Some [0xC3] -> ip + 1 < 2 ^ 64 -> guest_read c (register c RSP) 8 = Some bs ->
  exists c', continues c c' /\
    stepped c (set_ip (m_state (put_register c RSP (u64 (register c RSP + 8)))) (le_decode bs))
      (m_memory c) (m_world c) c'.
Proof.
  intros Hs Hm Hb ip Hcode Hip Hstack.
  destruct (decode_plain c 0xC3 Hs Hm eq_refl Hcode Hip) as (i & Hd & Hop & Hw & Hrb & Hn). fold ip in Hn.
  eapply (primary_step c i (move_ip (put_register (noted c i) RSP (u64 (register c RSP + 8))) (le_decode bs)) execute_x64_return);
    [done|done|by rewrite Hop|rewrite Hop; reflexivity| |done..].
  unfold execute_x64_return. erewrite bind_eq by (by apply reject_rex_w_spec). cbv beta iota.
  assert (pop_u64 (noted c i)
          = Returned (Some (le_decode bs)) (put_register (noted c i) RSP (u64 (register c RSP + 8)))) as Hpop.
  { rewrite pop_u64_spec by done. change (register (noted c i) RSP) with (register c RSP).
    by rewrite guest_read_noted, Hstack. }
  erewrite bind_eq by exact Hpop. reflexivity.
Qed.

(** The system call, up to what its handler reports: the outcome and the result
    are the ones of the callback's action. *)
Lemma syscall_dispatched c handler r w b :
  state_wf (m_state c) -> memory_wf (m_memory c) ->
  let ip := instruction_pointer (m_state c) in
  guest_read c ip 2 = Some [0x0F; 0x05] -> ip + 2 < 2 ^ 64 ->
  handle_syscall (m_callbacks c) = Some handler ->
  handler (m_world c) (set_ip (m_state c) (ip + 2)) (bytes (m_memory c)) = (r, w, b) ->
  exists i (r1 : x64_emulator_result) c2, decode_x64_instruction c = Returned (Some i) c /\ dispatch i c = Returned (outcome_of_action (action r)) c2 /\
    m_state c2 = set_ip (m_state (put_register c RAX (u64 (status r)))) (ip + 2) /\ m_memory c2 = m_memory (with_bytes c b) /\
    m_world c2 = w /\ m_callbacks c2 = m_callbacks c /\ m_options c2 = m_options c /\
    m_result c2 = result_of_action (action r) r1 /\ retired_instructions r1 = retired c.
Proof.
  intros Hs Hm ip Hcode Hip Hh Hcall. pose proof (wf_ip _ Hs) as Hok. fold ip in Hok.
  destruct (guest_read_cons c ip 1 _ _ Hm Hcode) as [Hop8 Hsec].
  destruct (decode_plain c 0x0F Hs Hm eq_refl Hop8 ltac:(lia)) as (i & Hd & Hop & Hw & Hrb & Hn). fold ip in Hn.
  set (c1 := final (set_fault_opcode 0x05 (noted c i)) c).
  pose proof (syscall_returns_status_eq c1 i handler Hs Hh) as Hx. cbv zeta in Hx.
  change (m_state c1) with (m_state c) in Hx. change (m_world c1) with (m_world c) in Hx.
  change (m_memory c1) with (m_memory c) in Hx. rewrite Hn, u64_id in Hx by words.
  replace (ip + 1 + 1) with (ip + 2) in Hx by lia. rewrite Hcall in Hx.
  destruct Hx as (c2 & Hx & Hs2 & Hw2 & Hm2 & Hr2 & Hc2 & Ho2). exists i, (m_result c1), c2. split; [exact Hd|]. split; [|by split_and!].
  unfold dispatch. erewrite bind_eq by apply noted_eq.
  rewrite Hop. change (0x0F =? 0x0F) with true. cbv iota. unfold dispatch_secondary_opcode. rewrite Hw.
  erewrite bind_eq by (rewrite read_u8_spec, guest_read_noted, Hn, Hsec by (done || words); reflexivity).
  cbv beta iota. change (le_decode [5]) with 5. erewrite bind_eq by reflexivity. exact Hx.
Qed.

Lemma syscall_step c handler r w b :
  state_wf (m_state c) -> memory_wf (m_memory c) -> retired c < instruction_budget (m_options c) ->
  let ip := instruction_pointer (m_state c) in
  guest_read c ip 2 = Some [0x0F; 0x05] -> ip + 2 < 2 ^ 64 ->
  handle_syscall (m_callbacks c) = Some handler ->
  handler (m_world c) (set_ip (m_state c) (ip + 2)) (bytes (m_memory c)) = (r, w, b) ->
  action r = X64_EMULATOR_SYSCALL_ACTION_CONTINUE ->
  exists c', continues c c' /\
    stepped c (set_ip (m_state (put_register c RAX (u64 (status r)))) (ip + 2)) (m_memory (with_bytes c b)) w c'.
Proof.
  intros Hs Hm Hb ip Hcode Hip Hh Hcall Hact.
  destruct (syscall_dispatched c handler r w b Hs Hm Hcode Hip Hh Hcall) as (i & r1 & c2 & Hd & Hx & Hs2 & Hm2 & Hw2 & Hc2 & Ho2 & Hr2 & Hr1).
  rewrite Hact in Hx, Hr2. eexists. split; [by eapply continue_step|].
  split; cbn; [exact Hs2|exact Hm2|exact Hw2|exact Hc2|exact Ho2|]. change (u64 (retired c2 + 1) = u64 (retired c + 1)). unfold retired at 1. rewrite Hr2. cbn [result_of_action]. by rewrite Hr1.
Qed.

(** A system call whose callback asks for the end of the run. *)
Lemma syscall_stop c handler r w b :
  state_wf (m_state c) -> memory_wf (m_memory c) -> retired c < instruction_budget (m_options c) ->
  let ip := instruction_pointer (m_state c) in
  guest_read c ip 2 = Some [0x0F; 0x05] -> ip + 2 < 2 ^ 64 ->
  handle_syscall (m_callbacks c) = Some handler ->
  handler (m_world c) (set_ip (m_state c) (ip + 2)) (bytes (m_memory c)) = (r, w, b) ->
  action r <> X64_EMULATOR_SYSCALL_ACTION_CONTINUE ->
  exists c', (forall fuel, run_loop (S fuel) c = Returned true c') /\
    stepped c (set_ip (m_state (put_register c RAX (u64 (status r)))) (ip + 2)) (m_memory (with_bytes c b)) w c' /\
    stopped_because (m_result c') (stop_reason_of (action r)).
Proof.
  intros Hs Hm Hb ip Hcode Hip Hh Hcall Hact.
  destruct (syscall_dispatched c handler r w b Hs Hm Hcode Hip Hh Hcall) as (i & r1 & c2 & Hd & Hx & Hs2 & Hm2 & Hw2 & Hc2 & Ho2 & Hr2 & Hr1).
  assert (outcome_of_action (action r) = X64_INSTRUCTION_OUTCOME_RETIRE_AND_STOP) as Ho by (by destruct (action r)).
  rewrite Ho in Hx. exists (with_result c2 (set_retired (m_result c2) (u64 (retired c2 + 1)))). split; [|split].
  - intros fuel. cbn [run_loop]. erewrite bind_eq by reflexivity. fold (retired c).
    rewrite (proj2 (Z.ltb_lt _ _)) by done. erewrite bind_eq by exact Hd. cbv beta iota.
    erewrite bind_eq by exact Hx. reflexivity.
  - split; cbn; [exact Hs2|exact Hm2|exact Hw2|exact Hc2|exact Ho2|]. change (u64 (retired c2 + 1) = u64 (retired c + 1)). unfold retired at 1. rewrite Hr2, <- Hr1. by destruct (action r).
  - cbn. rewrite Hr2. by destruct (action r).
Qed.

(** ** The stub *)

Definition put (s : x64_emulator_state) (r v : Z) : x64_emulator_state :=
  set_general_registers s (<[Z.to_nat r := v]> (general_registers s)).

(** The registers the system call sees: the number in RAX, the first argument
    of the Windows convention (RCX) in RDI. *)
Definition at_system_call c (number : Z) : x64_emulator_state :=
  set_ip (put (put (m_state c) RDI (register c RCX)) RAX number) (instruction_pointer (m_state c) + 10).

(** The registers back in the caller. *)
Definition after_stub c (number status ret : Z) : x64_emulator_state :=
  set_ip (put (put (at_system_call c number) RAX status) RSP (u64 (register c RSP + 8))) ret.

Lemma guest_read_memory c c' a n : m_memory c' = m_memory c -> guest_read c' a n = guest_read c a n.
Proof. intros H. unfold guest_read, in_window, window_offset, guest_bytes. by rewrite H. Qed.

Lemma continues_trans c1 c2 c3 n :
  continues c1 c2 -> (forall fuel, run_loop (n + fuel) c2 = run_loop fuel c3) ->
  forall fuel, run_loop (S n + fuel) c1 = run_loop fuel c3.
Proof. intros H1 H2 fuel. cbn [Nat.add]. by rewrite H1. Qed.

Lemma register_state c c' r : m_state c' = m_state c -> register c' r = register c r.
Proof. intros H. unfold register. by rewrite H. Qed.

Lemma put_state_wf s r v : state_wf s -> u64_ok v -> state_wf (put s r v).
Proof. apply state_wf_set_register. Qed.

(** The first two instructions: the arguments of the system call. *)
Lemma stub_prologue c number :
  state_wf (m_state c) -> memory_wf (m_memory c) -> u32_ok number ->
  retired c + 2 <= instruction_budget (m_options c) -> u64_ok (instruction_budget (m_options c)) -> 0 <= retired c ->
  guest_read c (instruction_pointer (m_state c)) 11 = Some (stub_bytes number) ->
  instruction_pointer (m_state c) + 11 < 2 ^ 64 ->
  exists c2, (forall fuel, run_loop (2 + fuel) c = run_loop fuel c2) /\
    m_state c2 = set_ip (put (put (m_state c) RDI (register c RCX)) RAX number) (instruction_pointer (m_state c) + 8) /\
    m_memory c2 = m_memory c /\ m_world c2 = m_world c /\ m_callbacks c2 = m_callbacks c /\
    m_options c2 = m_options c /\ retired c2 = retired c + 2.
Proof.
  intros Hs Hm Hnum Hb Hbud Hret Hcode Hip. set (ip := instruction_pointer (m_state c)) in *.
  pose proof (wf_ip _ Hs) as Hok. fold ip in Hok.
  pose proof (guest_read_sub c ip 11 _ 0 3 Hm Hcode ltac:(lia)) as H1. rewrite Z.add_0_r in H1.
  pose proof (guest_read_sub c ip 11 _ 3 5 Hm Hcode ltac:(lia)) as H2. change (Z.of_nat 3) with 3 in H2.
  destruct (mov_rdi_rcx c Hs Hm ltac:(lia) H1 ltac:(fold ip; lia)) as (c1 & Hc1 & [Hs1 Hm1 Hw1 Hcb1 Ho1 Hr1]).
  rewrite u64_id in Hr1 by words. fold ip in Hs1.
  assert (state_wf (m_state c1)) as Hwf1.
  { rewrite Hs1. apply state_wf_set_ip; [|words]. apply put_register_state_wf; [done|]. apply register_ok; [done|by compute]. }
  assert (memory_wf (m_memory c1)) as Hmw1 by (by rewrite Hm1).
  assert (instruction_pointer (m_state c1) = ip + 3) as Hip1 by (by rewrite Hs1).
  destruct (mov_eax_immediate c1 (le_encode 4 number) Hwf1 Hmw1) as (c2 & Hc2 & [Hs2 Hm2 Hw2 Hcb2 Ho2 Hr2]).
  - rewrite Ho1, Hr1. lia.
  - rewrite (guest_read_memory c c1) by done. by rewrite Hip1.
  - rewrite Hip1. lia.
  - exists c2. split_and!; try congruence.
    + exact (continues_trans c c1 c2 1 Hc1 Hc2).
    + rewrite Hs2, Hip1. rewrite le_decode_encode, Z.mod_small by words.
      replace (ip + 3 + 5) with (ip + 8) by lia. unfold put_register, with_state. cbn [m_state]. by rewrite Hs1.
    + rewrite Hr2, Hr1, u64_id by words. lia.
Qed.

(** The last two instructions: the system call and the return. *)
Lemma stub_epilogue c handler r w b ret :
  state_wf (m_state c) -> memory_wf (m_memory c) -> memory_wf (m_memory (with_bytes c b)) ->
  retired c + 2 <= instruction_budget (m_options c) -> u64_ok (instruction_budget (m_options c)) -> 0 <= retired c ->
  let ip := instruction_pointer (m_state c) in
  guest_read c ip 2 = Some [0x0F; 0x05] -> ip + 3 < 2 ^ 64 ->
  handle_syscall (m_callbacks c) = Some handler ->
  handler (m_world c) (set_ip (m_state c) (ip + 2)) (bytes (m_memory c)) = (r, w, b) ->
  action r = X64_EMULATOR_SYSCALL_ACTION_CONTINUE ->
  guest_read (with_bytes c b) (ip + 2) 1 = Some [0xC3] ->
  guest_read (with_bytes c b) (register c RSP) 8 = Some (le_encode 8 ret) -> u64_ok ret ->
  exists c', (forall fuel, run_loop (2 + fuel) c = run_loop fuel c') /\
    m_state c' = set_ip (put (put (set_ip (m_state c) (ip + 2)) RAX (u64 (status r))) RSP (u64 (register c RSP + 8))) ret /\
    m_memory c' = m_memory (with_bytes c b) /\ m_world c' = w /\ retired c' = retired c + 2.
Proof.
  intros Hs Hm Hmb Hb Hbud Hret ip Hcode Hip Hh Hcall Hact Hc3code Hstack Hrok.
  pose proof (wf_ip _ Hs) as Hok. fold ip in Hok.
  destruct (syscall_step c handler r w b Hs Hm ltac:(lia) Hcode ltac:(fold ip; lia) Hh Hcall Hact)
    as (c1 & Hc1 & [Hs1 Hm1 Hw1 Hcb1 Ho1 Hr1]). fold ip in Hs1. rewrite u64_id in Hr1 by words.
  assert (register c1 RSP = register c RSP) as Hrsp.
  { unfold register. rewrite Hs1. cbn. by rewrite list_lookup_total_insert_ne by (by compute). }
  destruct (return_step c1 (le_encode 8 ret)) as (c2 & Hc2 & [Hs2 Hm2 Hw2 Hcb2 Ho2 Hr2]).
  - rewrite Hs1. apply state_wf_set_ip; [|words]. apply put_register_state_wf; [done|apply u64_range].
  - by rewrite Hm1.
  - rewrite Ho1, Hr1. lia.
  - rewrite (guest_read_memory (with_bytes c b) c1), Hs1 by done. exact Hc3code.
  - rewrite Hs1. cbn. lia.
  - rewrite (guest_read_memory (with_bytes c b) c1), Hrsp by done. exact Hstack.
  - exists c2. split_and!; [by apply (continues_trans c c1 c2 1)| |congruence|congruence|].
    + rewrite Hs2, le_decode_encode_u64, Hrsp by done. unfold put_register, with_state. cbn [m_state]. by rewrite Hs1.
    + rewrite Hr2, Hr1, u64_id by words. lia.
Qed.

(** A bound import is code of the guest. *)
Lemma provided_code c from to dll name e :
  memory_wf (m_memory c) -> base_address (m_memory c) + size (m_memory c) < 2 ^ 64 ->
  provides_stub (base_address (m_memory c)) (guest_bytes c) from to dll name (instruction_pointer (m_state c)) ->
  exported dll name = Some e ->
  guest_read c (instruction_pointer (m_state c)) 11 = Some (stub_bytes (syscall_number e)) /\
  instruction_pointer (m_state c) + 11 < 2 ^ 64.
Proof.
  intros Hm Hsz (e' & He' & H0 & _ & Hip & Hcode) He. assert (e' = e) as -> by congruence.
  pose proof (guest_bytes_wf c Hm) as (_ & Hlen & _). pose proof (wf_base _ Hm). pose proof (wf_size _ Hm).
  destruct (stub_offset_spec from) as [Hoff _].
  assert (stub_offset from + 11 <= size (m_memory c)) as Hin.
  { pose proof (f_equal length Hcode) as Hl. rewrite length_stub_bytes in Hl. unfold slice in Hl.
    rewrite length_take, length_drop in Hl. lia. }
  rewrite u64_id in Hip by words. rewrite Hip. split; [|lia]. unfold guest_read, in_window, window_offset.
  rewrite (proj2 (andb_true_iff _ _)) by (split; apply Z.leb_le; lia). rewrite <- Hcode. do 2 f_equal. lia.
Qed.

(** What the callback leaves is a guest memory again. *)
Lemma callback_memory c handler s r w b :
  context_wf c -> state_wf s -> handle_syscall (m_callbacks c) = Some handler ->
  handler (m_world c) s (bytes (m_memory c)) = (r, w, b) -> memory_wf (m_memory (with_bytes c b)).
Proof.
  intros Hwf Hs Hh Hcall. destruct (wf_callbacks _ Hwf) as (h & Hh' & Hpost). rewrite Hh in Hh'. injection Hh' as <-.
  destruct (wf_memory _ Hwf) as [Hbase Hsize Hbuf]. specialize (Hpost (m_world c) s _ Hs Hbuf). rewrite Hcall in Hpost.
  by constructor; [..|apply Hpost].
Qed.

(** The stub at its system call. *)
Record at_call c handler number r w b c2 : Prop := {
  call_reached fuel : run_loop (2 + fuel) c = run_loop fuel c2;
  call_state : state_wf (m_state c2);
  call_ip : instruction_pointer (m_state c2) = instruction_pointer (m_state c) + 8;
  call_entry : set_ip (m_state c2) (instruction_pointer (m_state c) + 10) = at_system_call c number;
  call_stack : register c2 RSP = register c RSP;
  call_memory : m_memory c2 = m_memory c;
  call_options : m_options c2 = m_options c;
  call_retired : retired c2 = retired c + 2;
  call_code : guest_read c2 (instruction_pointer (m_state c2)) 2 = Some [0x0F; 0x05];
  call_callback : handle_syscall (m_callbacks c2) = Some handler;
  call_returns : handler (m_world c2) (set_ip (m_state c2) (instruction_pointer (m_state c2) + 2)) (bytes (m_memory c2)) = (r, w, b);
  call_written : memory_wf (m_memory (with_bytes c b)) /\ m_memory (with_bytes c2 b) = m_memory (with_bytes c b);
}.

Lemma stub_reaches_call c handler number r w b :
  context_wf c -> u32_ok number -> 0 <= retired c -> retired c + 2 <= instruction_budget (m_options c) ->
  guest_read c (instruction_pointer (m_state c)) 11 = Some (stub_bytes number) -> instruction_pointer (m_state c) + 11 < 2 ^ 64 ->
  handle_syscall (m_callbacks c) = Some handler ->
  handler (m_world c) (at_system_call c number) (bytes (m_memory c)) = (r, w, b) ->
  exists c2, at_call c handler number r w b c2.
Proof.
  intros Hwf Hnum Hret Hb Hcode Hip Hh Hcall. pose proof (wf_ip _ (wf_state _ Hwf)) as Hok.
  assert (state_wf (at_system_call c number)) as Hentry.
  { apply state_wf_set_ip; [|words]. apply put_state_wf, u32_u64_ok, Hnum. apply put_state_wf; [apply Hwf|].
    apply register_ok; [apply Hwf|by compute]. }
  destruct (stub_prologue c number) as (c2 & Hc2 & Hs2 & Hm2 & Hw2 & Hcb2 & Ho2 & Hr2);
    [apply Hwf|apply Hwf|done|done|apply (wf_budget _ Hwf)|done|done|done|].
  exists c2. set (ip := instruction_pointer (m_state c)) in *.
  assert (set_ip (m_state c2) (ip + 10) = at_system_call c number) as Hat by (by rewrite Hs2).
  assert (instruction_pointer (m_state c2) = ip + 8) as Hip2 by (by rewrite Hs2).
  pose proof (guest_read_sub c ip 11 _ 8 2 (wf_memory _ Hwf) Hcode ltac:(lia)) as H8. change (Z.of_nat 8) with 8 in H8.
  constructor; try done.
  - rewrite Hs2. apply (state_wf_set_ip (at_system_call c number)); [done|words].
  - unfold register. rewrite Hs2. unfold put, set_ip, set_general_registers. cbn [general_registers].
    by rewrite !list_lookup_total_insert_ne by (by compute).
  - rewrite (guest_read_memory c c2), Hip2 by done. exact H8.
  - by rewrite Hcb2.
  - rewrite Hip2, Hm2, Hw2. replace (ip + 8 + 2) with (ip + 10) by lia. by rewrite Hat.
  - split; [by apply (callback_memory c handler _ r w b Hwf Hentry)|]. unfold with_bytes. cbn [m_memory]. by rewrite Hm2.
Qed.

(** The callback goes on: the stub returns. *)
Lemma stub_returns c handler number r w b c2 ret :
  context_wf c -> at_call c handler number r w b c2 -> 0 <= retired c -> retired c + 4 <= instruction_budget (m_options c) ->
  instruction_pointer (m_state c) + 11 < 2 ^ 64 -> action r = X64_EMULATOR_SYSCALL_ACTION_CONTINUE ->
  guest_read (with_bytes c b) (instruction_pointer (m_state c) + 10) 1 = Some [0xC3] ->
  guest_read (with_bytes c b) (register c RSP) 8 = Some (le_encode 8 ret) -> u64_ok ret ->
  exists c', (forall fuel, run_loop (4 + fuel) c = run_loop fuel c') /\
    m_state c' = after_stub c number (u64 (status r)) ret /\
    m_memory c' = m_memory (with_bytes c b) /\ m_world c' = w /\ retired c' = retired c + 4.
Proof.
  intros Hwf [Hc2 Hs2 Hip2 Hat Hrsp Hm2 Ho2 Hr2 Hcode Hh Hcall [Hmb Hmb2]] Hret Hb Hip Hact Hcode4 Hstack Hrok.
  pose proof (wf_ip _ (wf_state _ Hwf)) as Hok. pose proof (wf_budget _ Hwf) as Hbud.
  set (ip := instruction_pointer (m_state c)) in *. assert (ip + 8 + 2 = ip + 10) as E10 by lia.
  destruct (stub_epilogue c2 handler r w b ret) as (c4 & Hc4 & Hs4 & Hm4 & Hw4 & Hr4); try done.
  - rewrite Hm2. apply Hwf.
  - by rewrite Hmb2.
  - rewrite Ho2, Hr2. lia.
  - by rewrite Ho2.
  - lia.
  - rewrite Hip2. lia.
  - rewrite (guest_read_memory (with_bytes c b) (with_bytes c2 b)), Hip2, E10 by done. done.
  - by rewrite (guest_read_memory (with_bytes c b) (with_bytes c2 b)), Hrsp by done.
  - exists c4. split_and!; [|rewrite Hs4, Hrsp, Hip2, E10; by rewrite Hat|by rewrite Hm4, Hmb2|done|lia].
    intros fuel. change (4 + fuel)%nat with (2 + (2 + fuel))%nat. by rewrite Hc2, Hc4.
Qed.

(** The callback asks for the end of the run: the stub does not return. *)
Lemma stub_stops c handler number r w b c2 :
  context_wf c -> at_call c handler number r w b c2 -> 0 <= retired c -> retired c + 3 <= instruction_budget (m_options c) ->
  instruction_pointer (m_state c) + 11 < 2 ^ 64 -> action r <> X64_EMULATOR_SYSCALL_ACTION_CONTINUE ->
  exists c', (forall fuel, run_loop (3 + fuel) c = Returned true c') /\
    m_state c' = put (at_system_call c number) RAX (u64 (status r)) /\
    m_memory c' = m_memory (with_bytes c b) /\ m_world c' = w /\ retired c' = retired c + 3 /\
    stopped_because (m_result c') (stop_reason_of (action r)).
Proof.
  intros Hwf [Hc2 Hs2 Hip2 Hat Hrsp Hm2 Ho2 Hr2 Hcode Hh Hcall [Hmb Hmb2]] Hret Hb Hip Hact.
  pose proof (wf_ip _ (wf_state _ Hwf)) as Hok. pose proof (wf_budget _ Hwf) as Hbud.
  set (ip := instruction_pointer (m_state c)) in *. assert (ip + 8 + 2 = ip + 10) as E10 by lia.
  destruct (syscall_stop c2 handler r w b) as (c3 & Hc3 & [Hs3 Hm3 Hw3 _ _ Hr3] & Hwhy); try done.
  - rewrite Hm2. apply Hwf.
  - rewrite Ho2, Hr2. lia.
  - rewrite Hip2. lia.
  - exists c3. split_and!; try done.
    + intros fuel. change (3 + fuel)%nat with (2 + S fuel)%nat. by rewrite Hc2, Hc3.
    + rewrite Hs3, Hip2, E10, <- Hat. done.
    + by rewrite Hm3, Hmb2.
    + rewrite Hr3, Hr2, u64_id by words. lia.
Qed.

(** C21: An emulated guest that calls a bound import, with the budget for it, reaches its system
    call callback after two instructions, with the number of the export in RAX and the first
    argument of the Windows convention (RCX) in RDI. If the callback lets the guest continue and
    leaves the stub's RET and the return address in place, and the budget has a fourth
    instruction, the guest is back at its return address with the status in RAX, the stack
    popped, memory as the callback left it and no other register changed but RDI. If the
    callback ends the thread or yields, the call does not return: the run stops after the third
    instruction for that reason, with the status in RAX. *)
Theorem import_stub_calls_system c handler e from to dll name r w b :
  context_wf c -> base_address (m_memory c) + size (m_memory c) < 2 ^ 64 ->
  provides_stub (base_address (m_memory c)) (guest_bytes c) from to dll name (instruction_pointer (m_state c)) ->
  exported dll name = Some e ->
  0 <= retired c -> retired c + 3 <= instruction_budget (m_options c) ->
  handle_syscall (m_callbacks c) = Some handler ->
  handler (m_world c) (at_system_call c (syscall_number e)) (bytes (m_memory c)) = (r, w, b) ->
  match action r with
  | X64_EMULATOR_SYSCALL_ACTION_CONTINUE =>
      forall ret, retired c + 4 <= instruction_budget (m_options c) ->
      guest_read (with_bytes c b) (instruction_pointer (m_state c) + 10) 1 = Some [0xC3] ->
      guest_read (with_bytes c b) (register c RSP) 8 = Some (le_encode 8 ret) -> u64_ok ret ->
      exists c', (forall fuel, run_loop (4 + fuel) c = run_loop fuel c') /\
        m_state c' = after_stub c (syscall_number e) (u64 (status r)) ret /\
        m_memory c' = m_memory (with_bytes c b) /\ m_world c' = w /\ retired c' = retired c + 4
  | stops =>
      exists c', (forall fuel, run_loop (3 + fuel) c = Returned true c') /\
        m_state c' = put (at_system_call c (syscall_number e)) RAX (u64 (status r)) /\
        m_memory c' = m_memory (with_bytes c b) /\ m_world c' = w /\ retired c' = retired c + 3 /\
        stopped_because (m_result c') (stop_reason_of stops)
  end.
Proof.
  intros Hwf Hsz Hp He Hret Hb Hh Hcall.
  destruct (provided_code c _ _ _ _ e (wf_memory _ Hwf) Hsz Hp He) as [Hcode Hip]. destruct (exported_ok _ _ _ He) as (_ & _ & Hnum).
  destruct (stub_reaches_call c handler (syscall_number e) r w b Hwf Hnum Hret ltac:(lia) Hcode Hip Hh Hcall) as (c2 & H2).
  pose proof (stub_stops c handler _ r w b c2 Hwf H2 Hret Hb Hip) as Hstop.
  destruct (action r) eqn:Hact; [|by apply Hstop..]. intros ret Hb4 Hcode4 Hstack Hrok. by apply (stub_returns c handler _ r w b c2).
Qed.
End steps.
