(* ===== verification/Win32Samples.v ===== *)
(** Concrete PE images, on which the theorems about the loader, the resolver and
    the import stubs are instantiated. *)
From Stdlib Require Import String.
From S2P Require Import Prelude EmulatorTypes ExecutionContext Samples GuestMemory InstructionSpecs PeImage X64PeImage Win32Emulation ImportStub.

Definition zeros (n : nat) : list Z := replicate n 0.

(** An image with one section: 64 bytes of DOS header, 264 of NT headers, 40 of
    section table, and the data of the section at offset 368. *)
Record sample_layout := {
  layout_virtual_size : Z; layout_virtual_address : Z; layout_data : list Z; layout_import_rva : Z; layout_image : Z;
}.

Definition sample_image_for (machine : Z) (s : sample_layout) : list Z :=
  (* DOS header *)
  le_encode 2 PE_DOS_SIGNATURE ++ zeros 58 ++ le_encode 4 64
  (* signature and file header *)
  ++ le_encode 4 PE_NT_SIGNATURE
  ++ le_encode 2 machine ++ le_encode 2 1 ++ zeros 12 ++ le_encode 2 240 ++ zeros 2
  (* optional header: magic, entry point, image base, alignments, sizes, directories *)
  ++ le_encode 2 PE32_PLUS_MAGIC ++ zeros 14 ++ le_encode 4 (layout_virtual_address s) ++ zeros 4 ++ le_encode 8 0x400000
  ++ le_encode 4 4096 ++ le_encode 4 4096 ++ zeros 16 ++ le_encode 4 (layout_image s) ++ le_encode 4 368
  ++ zeros 44 ++ le_encode 4 16
  ++ zeros 8 ++ le_encode 4 (layout_import_rva s) ++ le_encode 4 (if layout_import_rva s =? 0 then 0 else 40) ++ zeros 112
  (* section header and data *)
  ++ zeros 8 ++ le_encode 4 (layout_virtual_size s) ++ le_encode 4 (layout_virtual_address s)
  ++ le_encode 4 (Z.of_nat (length (layout_data s))) ++ le_encode 4 368 ++ zeros 16
  ++ layout_data s.

Definition sample_image : sample_layout -> list Z := sample_image_for PE_MACHINE_X64.

(** A section whose memory is longer than its data, one whose data is longer
    than its memory and leaves a buffer of 512 bytes, and one with an import. *)
Definition plain_image : list Z :=
  sample_image {| layout_virtual_size := 32; layout_virtual_address := 384; layout_data := replicate 16 0xAB;
                  layout_import_rva := 0; layout_image := 512 |}.

Definition overrunning_image : list Z :=
  sample_image {| layout_virtual_size := 16; layout_virtual_address := 496; layout_data := replicate 32 0xAB;
                  layout_import_rva := 0; layout_image := 512 |}.

Definition import_data : list Z :=
  le_encode 4 552 ++ zeros 8 ++ le_encode 4 584 ++ le_encode 4 568 ++ zeros 20   (* descriptors *)
  ++ le_encode 8 600 ++ zeros 8                                                  (* names *)
  ++ le_encode 8 600 ++ zeros 8                                                  (* addresses *)
  ++ characters "KERNEL32.dll" ++ zeros 4
  ++ zeros 2 ++ characters "ExitProcess" ++ zeros 3.

Definition importing_image : list Z :=
  sample_image {| layout_virtual_size := 104; layout_virtual_address := 512; layout_data := import_data;
                  layout_import_rva := 512; layout_image := 640 |}.

Definition sample_config (N : Z) : pe_image_load_config := x64_load_config 0x400000 N.

Lemma fits_check n image :
  forallb (fun s => virtual_address s + size_of_raw_data s <=? n) (image_sections image) = true ->
  Forall (section_data_fits n) (image_sections image).
Proof.
  rewrite forallb_forall. intros H. apply List.Forall_forall. intros s Hs. apply H in Hs. bool_hyps. done.
Qed.

Lemma image_checked image : forallb is_byte image = true -> (length image <= 1024)%nat -> Forall u8_ok image /\ u64_ok (file_size image).
Proof. intros Hb Hl. split; [by apply is_byte_ok|]. unfold file_size. words. Qed.

Lemma load_pe32_plus_image_correct_witness :
  well_formed_image plain_image (sample_config 512) = true /\
  twp (load_pe32_plus_image (Some plain_image) (file_size plain_image) true (sample_config 512) true)
    (load_outcome plain_image (sample_config 512) (replicate 512 1)) (replicate 512 1).
Proof.
  split; [vm_compute; reflexivity|].
  apply (load_pe32_plus_image_correct plain_image (sample_config 512) (replicate 512 1));
    [apply image_checked; vm_compute; [reflexivity|lia]..|reflexivity|intros _; apply fits_check; vm_compute; reflexivity].
Defined.

Lemma load_pe32_plus_image_overruns_witness :
  load_pe32_plus_image (Some overrunning_image) (file_size overrunning_image) true (sample_config 512) true
    (replicate 512 1) = Undefined out_of_bounds.
Proof.
  apply (load_pe32_plus_image_overruns overrunning_image (sample_config 512) (replicate 512 1) []
    (section_at overrunning_image 328 0) []);
    [apply image_checked; vm_compute; [reflexivity|lia]..|reflexivity|vm_compute; reflexivity|vm_compute; reflexivity|
     constructor|vm_compute; reflexivity|vm_compute; intros H; by apply H].
Defined.

(** The buffer after the load of an image. *)
Definition loaded_plain : list Z :=
  final (load_pe32_plus_image (Some plain_image) (file_size plain_image) true (sample_config 512) true (replicate 512 1)) [].

Lemma try_get_pe_machine_agrees_witness :
  try_get_pe_machine (Some plain_image) (file_size plain_image) true [] = Returned (Some PE_MACHINE_X64) [].
Proof.
  apply (try_get_pe_machine_agrees plain_image (sample_config 512) (replicate 512 1)
    (Some (accepted_result plain_image (sample_config 512))) loaded_plain []);
    [apply image_checked; vm_compute; [reflexivity|lia]..|reflexivity|vm_compute; reflexivity].
Defined.

Lemma load_x64_pe64_image_correct_witness :
  twp (load_x64_pe64_image (Some importing_image) (file_size importing_image) 0x400000 true 704
         get_x64_win32_import_resolver true)
    (x64_load_outcome importing_image 0x400000 provides_stub (replicate 704 1)) (replicate 704 1).
Proof.
  apply (load_x64_pe64_image_correct importing_image 0x400000 (replicate 704 1) get_x64_win32_import_resolver provides_stub);
    [apply image_checked; vm_compute; [reflexivity|lia]..|exact win32_resolver_valid|
     intros _; apply fits_check; vm_compute; reflexivity].
Defined.

Lemma characters_hold s :
  forallb (fun c => (0 <? c) && (c <? 256)) (characters s) = true -> holds (c_literal s) (characters s).
Proof. intros H. destruct (literal_holds s H) as [E Hs]. by rewrite E in Hs. Qed.

Lemma dll_names_match_spec_witness :
  dll_names_match (c_literal "KERNEL32.DLL") (c_literal "kernel32") tt
  = Returned (same_library (characters "KERNEL32.DLL") (characters "kernel32")) tt /\
  same_library (characters "KERNEL32.DLL") (characters "kernel32") = true.
Proof.
  split; [|vm_compute; reflexivity].
  apply (dll_names_match_spec (c_literal "KERNEL32.DLL") (c_literal "kernel32")); apply characters_hold; reflexivity.
Defined.

Lemma resolve_x64_win32_import_spec_witness :
  resolve_x64_win32_import (c_literal "kernel32.dll") (c_literal "ExitProcess") 0x400000 64 33 (zeros 64)
  = Returned (X64_PE64_IMPORT_RESOLUTION_STATUS_OK, 59, 0x400030) (splice 48 (stub_bytes 2) (zeros 64)).
Proof.
  apply (resolve_x64_win32_import_spec (characters "kernel32.dll") (characters "ExitProcess") (c_literal "kernel32.dll")
    (c_literal "ExitProcess") 0x400000 64 33 (zeros 64));
    [apply characters_hold; reflexivity..|vm_compute; split; congruence|vm_compute; congruence|vm_compute; split; congruence].
Defined.

(** ** A guest in a loaded image, at the stub of its import *)

Definition loaded_import : list Z :=
  final (load_x64_pe64_image (Some importing_image) (file_size importing_image) 0x400000 true 704
           get_x64_win32_import_resolver true (replicate 704 1)) [].

Definition guest_state : x64_emulator_state :=
  {| general_registers := [1; 0x1234; 3; 4; 0x4002B0; 6; 7; 8; 9; 10; 11; 12; 13; 14; 15; 16];
     simd_registers := replicate 16 (replicate 16 0); instruction_pointer := 0x400280; flags := 2 |}.

(** The guest, with the callback its platform passes. *)
Definition guest_with (handler : Z -> x64_emulator_state -> option (list Z) -> x64_emulator_syscall_result * Z * option (list Z)) : x64_execution_context Z :=
  {| m_state := guest_state;
     m_memory := {| base_address := 0x400000; bytes := Some loaded_import; size := 704 |};
     m_callbacks := {| handle_syscall := Some handler |};
     m_options := {| engine := X64_EMULATOR_ENGINE_INTERPRETER; instruction_budget := 16 |};
     m_result := sample_result; m_world := 0 |}.

(** A callback that returns to the guest, and one that ends its thread. *)
Definition answers (action : x64_emulator_syscall_action) (w : Z) (s : x64_emulator_state) (b : option (list Z)) :=
  ({| status := 7; action := action |}, w + 1, b).

Abbreviation guest := (guest_with (answers X64_EMULATOR_SYSCALL_ACTION_CONTINUE)).
Abbreviation exiting_guest := (guest_with (answers X64_EMULATOR_SYSCALL_ACTION_EXIT_THREAD)).

Lemma guest_wf action : context_wf (guest_with (answers action)).
Proof.
  constructor; [| | |vm_compute; split; congruence].
  - constructor; [done| |done| |vm_compute; split; congruence|vm_compute; split; congruence].
    + repeat constructor; vm_compute; congruence.
    + apply Forall_replicate. split; [done|]. apply Forall_replicate. vm_compute. split; congruence.
  - constructor; [vm_compute; split; congruence..|]. exists loaded_import. split; [done|]. split; [vm_compute; reflexivity|].
    apply is_byte_ok. vm_compute. reflexivity.
  - exists (answers action). split; [done|]. intros w s b Hs Hb. split; [|done]. vm_compute. split; congruence.
Qed.

Definition exit_process : x64_win32_dll_export :=
  {| export_dll_name := c_literal "kernel32"; export_symbol_name := c_literal "ExitProcess"; syscall_number := 2 |}.

Lemma exit_process_provided action :
  provides_stub (base_address (m_memory (guest_with (answers action)))) (GuestMemory.guest_bytes (guest_with (answers action))) 640 651
    (characters "KERNEL32.dll") (characters "ExitProcess") (instruction_pointer (m_state (guest_with (answers action)))).
Proof. exists exit_process. split_and!; vm_compute; (reflexivity || congruence). Qed.

Lemma import_stub_calls_system_witness :
  (exists c', (forall fuel, Interpreter.run_loop (4 + fuel) guest = Interpreter.run_loop fuel c') /\
    m_state c' = after_stub guest 2 7 0 /\ m_memory c' = m_memory guest /\ m_world c' = 1 /\ retired c' = 4) /\
  (exists c', (forall fuel, Interpreter.run_loop (3 + fuel) exiting_guest = Returned true c') /\
    m_state c' = put (at_system_call exiting_guest 2) RAX 7 /\
    m_memory c' = m_memory exiting_guest /\ m_world c' = 1 /\ retired c' = 3 /\
    stopped_because (m_result c') X64_EMULATOR_GUEST_STOP_REASON_THREAD_EXITED).
Proof.
  split.
  - refine (import_stub_calls_system guest _ exit_process 640 651 (characters "KERNEL32.dll")
      (characters "ExitProcess") {| status := 7; action := X64_EMULATOR_SYSCALL_ACTION_CONTINUE |} 1 (Some loaded_import)
      (guest_wf _) eq_refl (exit_process_provided _) _ _ _ eq_refl eq_refl 0 _ _ _ _);
      [vm_compute; reflexivity|vm_compute; congruence..|vm_compute; reflexivity|vm_compute; reflexivity|vm_compute; split; congruence].
  - refine (import_stub_calls_system exiting_guest _ exit_process 640 651 (characters "KERNEL32.dll")
      (characters "ExitProcess") {| status := 7; action := X64_EMULATOR_SYSCALL_ACTION_EXIT_THREAD |} 1 (Some loaded_import)
      (guest_wf _) eq_refl (exit_process_provided _) _ _ _ eq_refl eq_refl);
      [vm_compute; reflexivity|vm_compute; congruence..].
Defined.
