(* ===== verification/LibcString.v ===== *)
(** The C library's [string.cpp] on the user's memory, a function from
    addresses to bytes ([host_memory]; pointer arithmetic does not wrap, since
    an object does not reach the end of the address space), and the null
    terminated strings the other files of the library pass around. *)
From S2P Require Import Prelude UserMemory.

(** * The functions of [string.cpp] *)

Fixpoint memcmp_loop (n : nat) (m : host_memory) (left_bytes right_bytes index : Z) : Z :=
  match n with
  | O => 0
  | S n =>
      if negb (m (left_bytes + index) =? m (right_bytes + index))
      then m (left_bytes + index) - m (right_bytes + index)
      else memcmp_loop n m left_bytes right_bytes (index + 1)
  end.

Definition memcmp (m : host_memory) (left right length : Z) : Z := memcmp_loop (Z.to_nat length) m left right 0.

Fixpoint forward_loop (n : nat) (m : host_memory) (destination_bytes source_bytes index : Z) : host_memory :=
  match n with
  | O => m
  | S n =>
      forward_loop n (poke m (destination_bytes + index) (m (source_bytes + index)))
        destination_bytes source_bytes (index + 1)
  end.

(** The loop that counts down: [n] is [index]. *)
Fixpoint backward_loop (n : nat) (m : host_memory) (destination_bytes source_bytes : Z) : host_memory :=
  match n with
  | O => m
  | S n =>
      backward_loop n (poke m (destination_bytes + Z.of_nat n) (m (source_bytes + Z.of_nat n)))
        destination_bytes source_bytes
  end.

Definition memcpy (m : host_memory) (destination source length : Z) : Z * host_memory :=
  (destination, forward_loop (Z.to_nat length) m destination source 0).

Definition memmove (m : host_memory) (destination source length : Z) : Z * host_memory :=
  if (destination =? source) || (length =? 0) then (destination, m)
  else if destination <? source then (destination, forward_loop (Z.to_nat length) m destination source 0)
  else (destination, backward_loop (Z.to_nat length) m destination source).

Fixpoint memset_loop (n : nat) (m : host_memory) (destination_bytes byte_value index : Z) : host_memory :=
  match n with
  | O => m
  | S n => memset_loop n (poke m (destination_bytes + index) byte_value) destination_bytes byte_value (index + 1)
  end.

Definition memset (m : host_memory) (destination value length : Z) : Z * host_memory :=
  (destination, memset_loop (Z.to_nat length) m destination (u8 value) 0).

(** [None]: no null character among the first [fuel] bytes. *)
Fixpoint strlen_loop (fuel : nat) (m : host_memory) (string length : Z) : option Z :=
  match fuel with
  | O => None
  | S fuel => if m (string + length) =? 0 then Some length else strlen_loop fuel m string (length + 1)
  end.

Definition strlen (fuel : nat) (m : host_memory) (string : Z) : option Z := strlen_loop fuel m string 0.

(** * Specifications *)

(** [s] is the null terminated string at [p]. *)
Fixpoint c_string (m : host_memory) (p : Z) (s : list Z) : Prop :=
  match s with
  | [] => m p = 0
  | c :: s => m p = c /\ c <> 0 /\ c_string m (p + 1) s
  end.

(** The memory that results when the [n] bytes at [source] are copied at once. *)
Definition moved (m : host_memory) (destination source n : Z) : host_memory :=
  fun y => if (destination <=? y) && (y <? destination + n) then m (source + (y - destination)) else m y.

Ltac compare :=
  repeat match goal with
    | |- context [?a =? ?b] => destruct (Z.eqb_spec a b)
    | |- context [?a <=? ?b] => destruct (Z.leb_spec a b)
    | |- context [?a <? ?b] => destruct (Z.ltb_spec a b)
    end; cbn [andb orb negb]; subst; try lia.

Lemma forward_loop_spec n m d s i y :
  d <= s \/ s + i + Z.of_nat n <= d + i \/ d + i + Z.of_nat n <= s + i ->
  forward_loop n m d s i y
  = if (d + i <=? y) && (y <? d + i + Z.of_nat n) then m (s + (y - d)) else m y.
Proof.
  revert m i. induction n as [|n IH]; intros m i Hd; cbn [forward_loop].
  - compare; reflexivity.
  - rewrite IH by lia. unfold poke. compare; f_equal; lia.
Qed.

Lemma backward_loop_spec n m d s y :
  s <= d -> backward_loop n m d s y = if (d <=? y) && (y <? d + Z.of_nat n) then m (s + (y - d)) else m y.
Proof.
  revert m. induction n as [|n IH]; intros m Hd; cbn [backward_loop].
  - compare; reflexivity.
  - rewrite IH by lia. unfold poke. compare; f_equal; lia.
Qed.

Lemma memset_loop_spec n m d v i y :
  memset_loop n m d v i y = if (d + i <=? y) && (y <? d + i + Z.of_nat n) then v else m y.
Proof.
  revert m i. induction n as [|n IH]; intros m i; cbn [memset_loop].
  - compare; reflexivity.
  - rewrite IH. unfold poke. compare; reflexivity.
Qed.

Lemma memset_spec m d v n y :
  0 <= n -> snd (memset m d v n) y = if (d <=? y) && (y <? d + n) then u8 v else m y.
Proof.
  intros Hn. unfold memset; cbn [snd]. rewrite memset_loop_spec, Z.add_0_r, Z2Nat.id by done. reflexivity.
Qed.

Lemma memcpy_spec m d s n y :
  0 <= n -> d <= s \/ s + n <= d -> snd (memcpy m d s n) y = moved m d s n y.
Proof.
  intros Hn Hd. unfold memcpy, moved; cbn [snd]. rewrite forward_loop_spec by lia.
  rewrite Z.add_0_r, Z2Nat.id by done. reflexivity.
Qed.

(** memmove returns its destination and leaves there the bytes that were at the source
    before the call, for any two regions, overlapping or not, and changes nothing else. *)
Lemma memmove_correct m destination source length y :
  0 <= length ->
  fst (memmove m destination source length) = destination /\
  snd (memmove m destination source length) y = moved m destination source length y.
Proof.
  intros Hn. unfold memmove, moved.
  destruct (Z.eqb_spec destination source) as [->|Hne]; cbn [orb]; [split; [done|]; cbn [snd]; compare; f_equal; lia|].
  destruct (Z.eqb_spec length 0) as [->|Hz]; [split; [done|]; cbn [snd]; compare; done|].
  destruct (Z.ltb_spec destination source); split; try done; cbn [snd].
  - rewrite forward_loop_spec by lia. rewrite Z.add_0_r, Z2Nat.id by done. reflexivity.
  - rewrite backward_loop_spec by lia. rewrite Z2Nat.id by done. reflexivity.
Qed.

(** [memcmp] orders byte arrays lexicographically: its sign is that of the
    first difference. *)
Fixpoint first_difference (l r : list Z) : Z :=
  match l, r with
  | a :: l, b :: r => if a =? b then first_difference l r else a - b
  | _, _ => 0
  end.

Lemma memcmp_loop_spec n m l r i :
  memcmp_loop n m l r i = first_difference (host_bytes m (l + i) n) (host_bytes m (r + i) n).
Proof.
  revert i. induction n as [|n IH]; intros i; [done|]. rewrite !host_bytes_cons.
  cbn [memcmp_loop first_difference]. destruct (m (l + i) =? m (r + i)); cbn [negb]; [|done].
  rewrite IH. do 2 f_equal; lia.
Qed.

Lemma memcmp_spec m l r n :
  memcmp m l r n = first_difference (host_bytes m l (Z.to_nat n)) (host_bytes m r (Z.to_nat n)).
Proof. unfold memcmp. rewrite memcmp_loop_spec, !Z.add_0_r. done. Qed.

(** [memcmp] is zero exactly on equal arrays. *)
Lemma first_difference_zero l r : length l = length r -> first_difference l r = 0 <-> l = r.
Proof.
  revert r. induction l as [|a l IH]; intros [|b r] Hl; cbn [first_difference length] in *; try done.
  destruct (Z.eqb_spec a b) as [->|Hne].
  - rewrite IH by lia. split; [by intros ->|by intros [= ->]].
  - split; [lia|by intros [= -> _]].
Qed.

Lemma memcmp_zero m l r n :
  memcmp m l r n = 0 <-> host_bytes m l (Z.to_nat n) = host_bytes m r (Z.to_nat n).
Proof. rewrite memcmp_spec. apply first_difference_zero. unfold host_bytes. by rewrite !length_fmap. Qed.

Lemma strlen_loop_spec fuel m p s i :
  c_string m (p + i) s -> (length s < fuel)%nat -> strlen_loop fuel m p i = Some (i + Z.of_nat (length s)).
Proof.
  revert fuel i. induction s as [|c s IH]; intros fuel i Hs Hf; (destruct fuel as [|fuel]; [cbn [length] in Hf; lia|]);
    cbn [strlen_loop c_string length] in *.
  - rewrite Hs, Z.eqb_refl. f_equal. lia.
  - destruct Hs as (-> & Hc & Hs). rewrite (proj2 (Z.eqb_neq c 0) Hc), IH.
    + f_equal. lia.
    + by rewrite Z.add_assoc.
    + lia.
Qed.

Lemma strlen_spec fuel m p s :
  c_string m p s -> (length s < fuel)%nat -> strlen fuel m p = Some (Z.of_nat (length s)).
Proof. intros Hs Hf. unfold strlen. by rewrite (strlen_loop_spec fuel m p s 0) by (by rewrite ?Z.add_0_r). Qed.

Lemma c_string_agree m m' p s :
  c_string m p s -> (forall y, p <= y <= p + Z.of_nat (length s) -> m' y = m y) -> c_string m' p s.
Proof.
  revert p. induction s as [|c s IH]; intros p Hs Hm; cbn [c_string length] in *.
  - rewrite Hm; [done|lia].
  - destruct Hs as (Hc & Hn & Hs). split; [rewrite Hm; [done|lia]|]. split; [done|].
    apply IH; [done|]. intros y Hy. apply Hm. lia.
Qed.

Lemma c_string_bytes m p s : c_string m p s -> host_bytes m p (length s) = s.
Proof.
  revert p. induction s as [|c s IH]; intros p Hs; [done|]. destruct Hs as (Hc & _ & Hs).
  cbn [length]. rewrite host_bytes_cons, Hc, IH by done. done.
Qed.

(** ** Instances *)

Lemma memmove_correct_witness :
  fst (memmove sample_memory 1002 1000 5) = 1002 /\
  snd (memmove sample_memory 1002 1000 5) 1006 = moved sample_memory 1002 1000 5 1006.
Proof. apply (memmove_correct sample_memory 1002 1000 5 1006). lia. Defined.
