(* ===== verification/LibcStdlib.v ===== *)
(** The C library's [stdlib.cpp], [exit.cpp] and [errno.cpp]: integer
    arithmetic with its undefined cases, an allocator that never has memory, and
    the table of functions to call at exit. *)
From S2P Require Import Prelude RuntimeTypes.

(** The widths of [long] on the two targets of the toolchain: LP64 on x86-64,
    LLP64 on arm64 ([MicrosoftARM64TargetInfo] in its clang patch). *)
Definition LONG_BITS `{Target} : Z := match target with x86_64 => 64 | aarch64 => 32 end.

Definition EINVAL : Z := 22.
Definition ENOMEM : Z := 12.
Definition EXIT_FAILURE : Z := 1.
Definition SIZE_MAX : Z := UINT64_MAX.

(** * Arithmetic ([stdlib.cpp])

    The functions have no state of their own, so they are defined in any. *)

Section arithmetic.
Context {S : Type}.

(** A signed result of [w] bits, undefined when it does not fit. *)
Definition signed_result (w z : Z) : M S Z :=
  if (- 2 ^ (w - 1) <=? z) && (z <? 2 ^ (w - 1)) then mret z else undefined signed_overflow.

Definition absolute (w value : Z) : M S Z := if value <? 0 then signed_result w (- value) else mret value.

Definition abs (value : Z) : M S Z := absolute 32 value.
Definition labs `{Target} (value : Z) : M S Z := absolute LONG_BITS value.
Definition llabs (value : Z) : M S Z := absolute 64 value.

(** [numerator / denominator] and [numerator % denominator], both undefined when
    the quotient does not fit. *)
Definition divide (w numerator denominator : Z) : M S (Z * Z) :=
  if denominator =? 0 then undefined division_by_zero
  else quot ← signed_result w (Z.quot numerator denominator);
       mret (quot, Z.rem numerator denominator).

Definition div (numerator denominator : Z) : M S (Z * Z) := divide 32 numerator denominator.
Definition ldiv `{Target} (numerator denominator : Z) : M S (Z * Z) := divide LONG_BITS numerator denominator.
Definition lldiv (numerator denominator : Z) : M S (Z * Z) := divide 64 numerator denominator.
End arithmetic.

(** * Allocation ([stdlib.cpp]); the state is [errno], [0] the null pointer. *)

Definition set_errno (e : Z) : M Z unit := modify (fun _ => e).

Definition malloc (size : Z) : M Z Z :=
  if size =? 0 then mret 0 else set_errno ENOMEM;; mret 0.

Definition free (pointer : Z) : M Z unit := mret tt.

Definition calloc (count size : Z) : M Z Z :=
  if negb (count =? 0) && (SIZE_MAX / count <? size) then set_errno ENOMEM;; mret 0
  else if (count =? 0) || (size =? 0) then mret 0
  else set_errno ENOMEM;; mret 0.

Definition realloc (pointer size : Z) : M Z Z :=
  if pointer =? 0 then malloc size
  else if size =? 0 then free pointer;; mret 0
  else set_errno ENOMEM;; mret 0.

(** * Exit ([exit.cpp]) *)

Definition ATEXIT_HANDLER_CAPACITY : Z := 64.

(** [g_atexit_handlers], [g_atexit_handler_count], and the rest of the process. *)
Record exit_state (W : Type) := {
  g_atexit_handlers : list Z;
  g_atexit_handler_count : Z;
  exit_world : W;
}.
Arguments Build_exit_state {W}.
Arguments g_atexit_handlers {W}.
Arguments g_atexit_handler_count {W}.
Arguments exit_world {W}.

Section exit.
Context {W : Type}.
Implicit Types (s : exit_state W) (w : W).

Definition initial_exit_state w : exit_state W :=
  {| g_atexit_handlers := replicate (Z.to_nat ATEXIT_HANDLER_CAPACITY) 0; g_atexit_handler_count := 0; exit_world := w |}.

Definition with_handler_count s (n : Z) : exit_state W :=
  {| g_atexit_handlers := g_atexit_handlers s; g_atexit_handler_count := n; exit_world := exit_world s |}.

Definition with_exit_world s w : exit_state W :=
  {| g_atexit_handlers := g_atexit_handlers s; g_atexit_handler_count := g_atexit_handler_count s; exit_world := w |}.

Definition atexit (function : Z) : M (exit_state W) Z :=
  s ← get;
  if ATEXIT_HANDLER_CAPACITY <=? g_atexit_handler_count s then mret (-1)
  else
    modify (fun s => {| g_atexit_handlers := <[Z.to_nat (g_atexit_handler_count s) := function]> (g_atexit_handlers s);
                        g_atexit_handler_count := g_atexit_handler_count s + 1; exit_world := exit_world s |});;
    mret 0.

(** [call]: what the program's function at an address does.  A handler may
    register others, so nothing bounds the loop in general: it has fuel. *)
Variable call : Z -> M (exit_state W) unit.
(** The thread exit system call; the kernel does not come back from it, and the
    empty loop that follows is never left. *)
Variable thread_exit_call : Z -> W -> W.

Fixpoint run_atexit_handlers (fuel : nat) : M (exit_state W) unit :=
  s ← get;
  if negb (0 <? g_atexit_handler_count s) then mret tt
  else
    match fuel with
    | O => out_of_fuel
    | S fuel =>
        let count := g_atexit_handler_count s - 1 in
        modify (fun s => with_handler_count s count);;
        handler ← index_get (g_atexit_handlers s) count;
        (if handler =? 0 then mret tt else call handler);;
        run_atexit_handlers fuel
    end.

Definition ringos_thread_exit (exit_status : Z) : M (exit_state W) unit :=
  modify (fun s => with_exit_world s (thread_exit_call exit_status (exit_world s))).

Definition exit (fuel : nat) (exit_status : Z) : M (exit_state W) unit :=
  run_atexit_handlers fuel;; ringos_thread_exit (u64 (u32 exit_status)).

Definition abort (fuel : nat) : M (exit_state W) unit := exit fuel EXIT_FAILURE.
End exit.

(** * Theorems *)

Section arithmetic_theorems.
Context {S : Type}.
Implicit Types (s : S).

Lemma signed_result_returns w z s :
  0 < w -> - 2 ^ (w - 1) <= z < 2 ^ (w - 1) -> signed_result w z s = Returned z s.
Proof.
  intros Hw Hz. unfold signed_result.
  by rewrite (proj2 (Z.leb_le _ _)), (proj2 (Z.ltb_lt _ _)) by lia.
Qed.

Lemma signed_result_overflow w z s : ~ (- 2 ^ (w - 1) <= z < 2 ^ (w - 1)) -> signed_result w z s = Undefined signed_overflow.
Proof. intros Hz. unfold signed_result. case_match eqn:E; [bool_hyps; lia|done]. Qed.

(** [abs], [labs] and [llabs]: the absolute value, undefined for the least number. *)
Lemma absolute_spec w value s :
  0 < w -> - 2 ^ (w - 1) <= value < 2 ^ (w - 1) ->
  absolute w value s = if value =? - 2 ^ (w - 1) then Undefined signed_overflow else Returned (Z.abs value) s.
Proof.
  intros Hw Hv. assert (0 < 2 ^ (w - 1)) by (apply Z.pow_pos_nonneg; lia). unfold absolute.
  destruct (Z.ltb_spec value 0), (Z.eqb_spec value (- 2 ^ (w - 1))); try lia.
  - apply signed_result_overflow. lia.
  - rewrite signed_result_returns by lia. f_equal. lia.
  - unfold mret, M_ret. f_equal. lia.
Qed.

(** The division functions return the quotient rounded towards zero and the
    remainder of the sign of the numerator, and are undefined exactly for a zero
    denominator and for the least number over [-1]. *)
Lemma divide_spec w numerator denominator s :
  1 < w -> - 2 ^ (w - 1) <= numerator < 2 ^ (w - 1) ->
  match divide w numerator denominator s with
  | Returned (q, r) s' =>
      s' = s /\ numerator = q * denominator + r /\ Z.abs r < Z.abs denominator /\ 0 <= r * numerator /\
      - 2 ^ (w - 1) <= q < 2 ^ (w - 1)
  | Undefined division_by_zero => denominator = 0
  | Undefined signed_overflow => numerator = - 2 ^ (w - 1) /\ denominator = - 1
  | _ => False
  end.
Proof.
  intros Hw Hn. assert (1 < 2 ^ (w - 1)) by (apply Z.pow_gt_1; lia). unfold divide.
  destruct (Z.eqb_spec denominator 0) as [|Hd]; [done|].
  pose proof (Z.quot_rem numerator denominator Hd) as Hqr.
  pose proof (Z.rem_bound_abs numerator denominator Hd).
  pose proof (Z.rem_sign_mul numerator denominator Hd) as Hsign.
  assert (Hq : Z.abs (Z.quot numerator denominator) * Z.abs denominator <= Z.abs numerator).
  { rewrite <- Z.quot_abs by done. pose proof (Z.mul_quot_le (Z.abs numerator) (Z.abs denominator)). lia. }
  unfold mbind, M_bind.
  destruct (decide (- 2 ^ (w - 1) <= Z.quot numerator denominator < 2 ^ (w - 1))) as [Hf|Hf].
  - rewrite signed_result_returns by lia. cbn. split; [done|]. split; [lia|]. split; [lia|]. split; [lia|lia].
  - rewrite signed_result_overflow by done. assert (Z.abs denominator = 1) by nia. nia.
Qed.
End arithmetic_theorems.

(** No function hands out memory; [errno] says so exactly for a request that is
    not empty. *)
Lemma malloc_spec size e : malloc size e = Returned 0 (if size =? 0 then e else ENOMEM).
Proof. unfold malloc. by destruct (size =? 0). Qed.

Lemma calloc_spec count size e :
  0 <= count -> 0 <= size -> calloc count size e = Returned 0 (if count * size =? 0 then e else ENOMEM).
Proof.
  intros Hc Hs. unfold calloc.
  destruct (Z.eqb_spec count 0) as [->|Hc0]; cbn [negb andb orb]; [done|].
  destruct (Z.ltb_spec (SIZE_MAX / count) size) as [Hlt|Hge].
  - assert (0 <= SIZE_MAX / count) by (apply Z.div_pos; [vm_compute; congruence|lia]).
    rewrite (proj2 (Z.eqb_neq (count * size) 0)) by nia. done.
  - destruct (Z.eqb_spec size 0) as [->|Hs0]; [by rewrite Z.mul_0_r|].
    rewrite (proj2 (Z.eqb_neq (count * size) 0)) by nia. done.
Qed.

Lemma realloc_spec pointer size e : realloc pointer size e = Returned 0 (if size =? 0 then e else ENOMEM).
Proof. unfold realloc. destruct (pointer =? 0); [apply malloc_spec|]. by destruct (size =? 0). Qed.

(** ** Exit *)

Section exit_theorems.
Context {W : Type}.
Implicit Types (s : exit_state W) (w : W) (functions : list Z).

Definition exit_state_wf s : Prop :=
  length (g_atexit_handlers s) = Z.to_nat ATEXIT_HANDLER_CAPACITY /\
  0 <= g_atexit_handler_count s <= ATEXIT_HANDLER_CAPACITY.

(** The functions registered and not yet called, oldest first. *)
Definition registered s : list Z := take (Z.to_nat (g_atexit_handler_count s)) (g_atexit_handlers s).

Lemma initial_exit_state_wf w : exit_state_wf (initial_exit_state w).
Proof. split; [done|vm_compute; split; congruence]. Qed.

Lemma length_registered s : exit_state_wf s -> Z.of_nat (length (registered s)) = g_atexit_handler_count s.
Proof. intros [Hl Hc]. unfold registered. rewrite length_take. change ATEXIT_HANDLER_CAPACITY with 64 in *. lia. Qed.

(** [m] returns what [f] says of the rest of the process, and registers [functions]. *)
Definition runs {A} (m : M (exit_state W) A) (f : W -> A * W) functions : Prop :=
  forall s, exit_state_wf s -> g_atexit_handler_count s + Z.of_nat (length functions) <= ATEXIT_HANDLER_CAPACITY ->
  exists s', m s = Returned (fst (f (exit_world s))) s' /\ exit_state_wf s' /\
             registered s' = registered s ++ functions /\ exit_world s' = snd (f (exit_world s)).

Lemma runs_ret {A} (a : A) : runs (mret a) (fun w => (a, w)) [].
Proof. intros s Hs _. exists s. by rewrite app_nil_r. Qed.

Lemma runs_bind {A B} (m : M (exit_state W) A) (k : A -> M (exit_state W) B) f g functions functions' :
  runs m f functions -> (forall a, runs (k a) (g a) functions') ->
  runs (mbind k m) (fun w => g (fst (f w)) (snd (f w))) (functions ++ functions').
Proof.
  intros Hm Hk s Hs Hn. rewrite length_app in Hn.
  destruct (Hm s Hs ltac:(lia)) as (s1 & E1 & Hs1 & Hr1 & Hw1).
  assert (Hc1 : g_atexit_handler_count s1 = g_atexit_handler_count s + Z.of_nat (length functions)).
  { rewrite <- !length_registered, Hr1, length_app by done. lia. }
  destruct (Hk (fst (f (exit_world s))) s1 Hs1 ltac:(lia)) as (s2 & E2 & Hs2 & Hr2 & Hw2).
  exists s2. rewrite <- Hw1. split; [by erewrite bind_eq by exact E1|]. split; [done|].
  by rewrite Hr2, Hr1, <- app_assoc.
Qed.

(** A computation that leaves the table alone. *)
Lemma runs_world {A} (m : M (exit_state W) A) f :
  (forall s, m s = Returned (fst (f (exit_world s))) (with_exit_world s (snd (f (exit_world s))))) -> runs m f [].
Proof. intros H s Hs _. eexists. split; [apply H|]. split; [exact Hs|]. by rewrite app_nil_r. Qed.

Lemma atexit_runs function : runs (atexit function) (fun w => (0, w)) [function].
Proof.
  intros s [Hl Hc] Hn. cbn [length] in Hn. eexists. split.
  - unfold atexit. erewrite bind_eq by reflexivity. rewrite (proj2 (Z.leb_gt _ _)) by lia. reflexivity.
  - unfold exit_state_wf, registered; cbn [g_atexit_handlers g_atexit_handler_count exit_world].
    rewrite length_insert. split; [lia|]. split; [|done].
    rewrite Z2Nat.inj_add, Nat.add_1_r by lia. change ATEXIT_HANDLER_CAPACITY with 64 in *.
    assert (Z.to_nat (g_atexit_handler_count s) < length (g_atexit_handlers s))%nat by lia.
    erewrite take_S_r by (by apply list_lookup_insert_eq). rewrite take_insert_ge by lia. done.
Qed.

Lemma atexit_full s f : g_atexit_handler_count s = ATEXIT_HANDLER_CAPACITY -> atexit f s = Returned (-1) s.
Proof. intros Hc. unfold atexit. erewrite bind_eq by reflexivity. by rewrite Hc. Qed.

Context (call : Z -> M (exit_state W) unit) (thread_exit_call : Z -> W -> W) (effect : Z -> W -> W).

(** What calling the functions one after the other does; null pointers are skipped. *)
Definition effects functions w : W := foldl (fun w f => if f =? 0 then w else effect f w) w functions.

(** A function that registers no other. *)
Definition plain (f : Z) : Prop := f <> 0 -> runs (call f) (fun w => (tt, effect f w)) [].

Lemma run_atexit_handlers_spec functions fuel s :
  Forall plain functions -> exit_state_wf s -> registered s = functions -> (length functions < fuel)%nat ->
  exists s', run_atexit_handlers call fuel s = Returned tt s' /\ g_atexit_handler_count s' = 0 /\
             exit_world s' = effects (reverse functions) (exit_world s).
Proof.
  revert fuel s. induction functions as [|f functions IH] using rev_ind; intros fuel s Hp Hwf Hr Hf;
    pose proof (length_registered _ Hwf) as Hlen; rewrite Hr in Hlen;
    (destruct fuel as [|fuel]; [lia|]); cbn [run_atexit_handlers]; erewrite bind_eq by reflexivity.
  - cbn [length] in Hlen. rewrite <- Hlen. cbn. by exists s.
  - apply Forall_app in Hp as [Hp Hpf%Forall_inv]. rewrite length_app in Hlen, Hf. cbn [length] in Hlen, Hf.
    destruct Hwf as [Hl Hc].
    assert (Hk : Z.to_nat (g_atexit_handler_count s) = S (Z.to_nat (g_atexit_handler_count s - 1))) by lia.
    assert (Hlook : g_atexit_handlers s !! Z.to_nat (g_atexit_handler_count s - 1) = Some f).
    { transitivity (registered s !! Z.to_nat (g_atexit_handler_count s - 1)).
      - unfold registered. rewrite Hk, lookup_take_lt by lia. done.
      - rewrite Hr. apply list_lookup_middle. lia. }
    rewrite (proj2 (Z.ltb_lt _ _)) by lia. cbn [negb].
    erewrite bind_eq by reflexivity. erewrite bind_eq by (unfold index_get; by rewrite Hlook).
    set (s1 := with_handler_count s (g_atexit_handler_count s - 1)).
    assert (Hs1 : exit_state_wf s1) by (split; [exact Hl|cbn; lia]).
    assert (Hr1 : registered s1 = functions).
    { unfold registered in *. cbn [s1 g_atexit_handlers g_atexit_handler_count with_handler_count].
      rewrite Hk in Hr. erewrite take_S_r in Hr by exact Hlook. by apply app_inj_tail in Hr as [-> _]. }
    assert (exists s2, (if f =? 0 then mret tt else call f) s1 = Returned tt s2 /\ exit_state_wf s2 /\
              registered s2 = functions /\
              exit_world s2 = (if f =? 0 then exit_world s else effect f (exit_world s))) as (s2 & Hcall & Hs2 & Hr2 & Hw2).
    { destruct (Z.eqb_spec f 0) as [|H0]; [by exists s1|].
      destruct (Hpf H0 s1 Hs1) as (s2 & E & Hs2 & Hr2 & Hw2); [cbn in Hs1 |- *; lia|].
      exists s2. rewrite Hr2, app_nil_r. done. }
    erewrite bind_eq by exact Hcall.
    destruct (IH fuel s2 Hp Hs2 Hr2 ltac:(lia)) as (s' & Hrun & Hz & Hw).
    exists s'. split; [exact Hrun|]. split; [done|]. rewrite Hw, Hw2. unfold effects. by rewrite reverse_snoc.
Qed.

(** When the registered functions register no others, exit terminates: it calls each of
    them once, the last registered first, and then makes the thread exit system call with
    the 32 bits of its status. *)
Lemma exit_runs_handlers_in_reverse functions fuel s status :
  Forall plain functions -> exit_state_wf s -> registered s = functions -> (length functions < fuel)%nat ->
  exists s', exit call thread_exit_call fuel status s = Returned tt s' /\
    exit_world s' = thread_exit_call (u32 status) (effects (reverse functions) (exit_world s)).
Proof.
  intros Hp Hwf Hr Hf. destruct (run_atexit_handlers_spec functions fuel s Hp Hwf Hr Hf) as (s1 & Hrun & _ & Hw).
  eexists. split; [unfold exit; erewrite bind_eq by exact Hrun; reflexivity|].
  cbn [exit_world with_exit_world]. rewrite Hw, u64_id; [done|]. pose proof (u32_range status). words.
Qed.
End exit_theorems.
