(* ===== verification/UserSdk.v ===== *)
(** The SDKs of user programs ([user/sdk/src]) and of the services the kernel
    ships ([kernelsdk/src]): each function checks its arguments and traps.  The
    trap itself is the assembly stub and the kernel behind it; [ringos_syscall]
    stands for the stub, with the number and the arguments it is given. *)
From S2P Require Import Prelude UserMemory RuntimeTypes Rpc Syscalls.

(** ** The constants of [user/sdk/include/ringos] *)

Definition RINGOS_STATUS_OK : Z := 0.
Definition RINGOS_STATUS_INVALID_ARGUMENT : Z := -1.
Definition RINGOS_STATUS_BAD_HANDLE : Z := -2.
Definition RINGOS_STATUS_WRONG_TYPE : Z := -3.
Definition RINGOS_STATUS_BUFFER_TOO_SMALL : Z := -4.
Definition RINGOS_STATUS_PEER_CLOSED : Z := -5.
Definition RINGOS_STATUS_WOULD_BLOCK : Z := -6.
Definition RINGOS_STATUS_TIMED_OUT : Z := -7.
Definition RINGOS_STATUS_NO_MEMORY : Z := -8.
Definition RINGOS_STATUS_FAULT : Z := -9.
Definition RINGOS_STATUS_NOT_SUPPORTED : Z := -10.
Definition RINGOS_STATUS_BAD_STATE : Z := -11.
Definition RINGOS_STATUS_NOT_FOUND : Z := -12.

Definition RINGOS_SYSCALL_DEBUG_LOG : Z := 1.
Definition RINGOS_SYSCALL_THREAD_EXIT : Z := 2.
Definition RINGOS_SYSCALL_RPC_REGISTER : Z := 3.
Definition RINGOS_SYSCALL_RPC_OPEN : Z := 4.
Definition RINGOS_SYSCALL_RPC_CALL : Z := 5.
Definition RINGOS_SYSCALL_DEVICE_MEMORY_MAP : Z := 6.
Definition RINGOS_SYSCALL_RPC_CLOSE : Z := 7.
Definition RINGOS_SYSCALL_RPC_COMPLETE : Z := 8.

Definition RINGOS_HANDLE_INVALID : Z := 0.

Section sdk.
Context {W : Type}.
(** [ringos_syscall1], [ringos_syscall2], [ringos_syscall3]. *)
Variable ringos_syscall : Z -> list Z -> M W Z.
(** [&ringos_rpc_complete_trampoline]. *)
Variable ringos_rpc_complete_trampoline : Z.

(** ** [user/sdk/src/ringos_rpc.cpp], [ringos_debug.cpp], [ringos_process.cpp] *)

Definition ringos_rpc_register (name callback : Z) : M W Z :=
  if (name =? 0) || (callback =? 0) then mret RINGOS_STATUS_INVALID_ARGUMENT
  else ringos_syscall RINGOS_SYSCALL_RPC_REGISTER [name; callback; ringos_rpc_complete_trampoline].

Definition ringos_rpc_open (name out_rpc_handle : Z) : M W Z :=
  if (name =? 0) || (out_rpc_handle =? 0) then mret RINGOS_STATUS_INVALID_ARGUMENT
  else ringos_syscall RINGOS_SYSCALL_RPC_OPEN [name; out_rpc_handle].

Definition ringos_rpc_call (handle request request_size : Z) : M W Z :=
  if (handle =? RINGOS_HANDLE_INVALID) || (request =? 0) || (request_size =? 0)
     || (RINGOS_RPC_MAX_REQUEST_SIZE <? request_size)
  then mret RINGOS_STATUS_INVALID_ARGUMENT
  else ringos_syscall RINGOS_SYSCALL_RPC_CALL [handle; request; request_size].

Definition ringos_rpc_close (handle : Z) : M W Z :=
  if handle =? RINGOS_HANDLE_INVALID then mret RINGOS_STATUS_INVALID_ARGUMENT
  else ringos_syscall RINGOS_SYSCALL_RPC_CLOSE [handle].

Definition ringos_debug_log (message : Z) : M W Z :=
  if message =? 0 then mret RINGOS_STATUS_INVALID_ARGUMENT else ringos_syscall RINGOS_SYSCALL_DEBUG_LOG [message].

(** The empty loop after the trap is never left; the kernel never returns to it. *)
Definition ringos_thread_exit (exit_status : Z) : M W unit :=
  ringos_syscall RINGOS_SYSCALL_THREAD_EXIT [exit_status];; mret tt.
End sdk.

(** [kernelsdk/src]: the same functions, for services. *)
Module KernelSdk.
Section sdk.
Context {W : Type}.
Variable ringos_syscall : Z -> list Z -> M W Z.
Variable ringos_rpc_complete_trampoline : Z.

Definition rpc_register (name callback : Z) : M W Z :=
  if (name =? 0) || (callback =? 0) then mret STATUS_INVALID_ARGUMENT
  else ringos_syscall SYSCALL_RPC_REGISTER [name; callback; ringos_rpc_complete_trampoline].

Definition rpc_open (name out_rpc_handle : Z) : M W Z :=
  if (name =? 0) || (out_rpc_handle =? 0) then mret STATUS_INVALID_ARGUMENT
  else ringos_syscall SYSCALL_RPC_OPEN [name; out_rpc_handle].

Definition rpc_call (handle request request_size : Z) : M W Z :=
  if (handle =? RINGOS_HANDLE_INVALID) || (request =? 0) || (request_size =? 0)
     || (RINGOS_RPC_MAX_REQUEST_SIZE <? request_size)
  then mret STATUS_INVALID_ARGUMENT
  else ringos_syscall SYSCALL_RPC_CALL [handle; request; request_size].

Definition rpc_close (handle : Z) : M W Z :=
  if handle =? RINGOS_HANDLE_INVALID then mret STATUS_INVALID_ARGUMENT
  else ringos_syscall SYSCALL_RPC_CLOSE [handle].

Definition debug_log (message : Z) : M W Z :=
  if message =? 0 then mret STATUS_INVALID_ARGUMENT else ringos_syscall SYSCALL_DEBUG_LOG [message].

Definition thread_exit (exit_status : Z) : M W unit :=
  ringos_syscall SYSCALL_THREAD_EXIT [exit_status];; mret tt.
End sdk.
End KernelSdk.
