(* ===== verification/LibcStdio.v ===== *)
(** The C library's formatted output, [stdio.cpp] and [puts.cpp].  Memory is
    the process's, so the format, the strings it prints and the buffer it prints
    to may overlap; an argument list is the list of 64-bit slots both targets
    pass variable arguments in. *)
From Stdlib Require Import String.
From S2P Require Import Prelude UserMemory RuntimeTypes UserSdk LibcString LibcStdlib.
#[local] Open Scope Z_scope.

Definition RINGOS_STDIO_LOG_BUFFER_CAPACITY : Z := 512.
Definition EOF : Z := -1.
Definition INT_MAX : Z := 2147483647.

Inductive format_length :=
  | FORMAT_LENGTH_DEFAULT_VALUE
  | FORMAT_LENGTH_LONG_VALUE
  | FORMAT_LENGTH_LONG_LONG_VALUE
  | FORMAT_LENGTH_SIZE_VALUE.

(** The variables [vsnprintf] passes to the [append] functions by address, and
    the memory they write to. *)
Record output := { memory : host_memory; cursor : Z; remaining : Z; total_written : Z }.

Definition append_character (value : Z) : M output unit :=
  modify (fun o =>
    if 1 <? remaining o then
      {| memory := poke (memory o) (cursor o) value; cursor := cursor o + 1;
         remaining := remaining o; total_written := total_written o |}
    else o);;
  modify (fun o =>
    if 0 <? remaining o then
      {| memory := memory o; cursor := cursor o; remaining := remaining o - 1; total_written := total_written o |}
    else o);;
  o ← get;
  if total_written o =? INT_MAX then undefined signed_overflow
  else modify (fun o => {| memory := memory o; cursor := cursor o; remaining := remaining o;
                           total_written := total_written o + 1 |}).

(** The characters of a string literal, which no buffer overlaps. *)
Fixpoint append_literal (l : list Z) : M output unit :=
  match l with
  | [] => mret tt
  | c :: l => append_character c;; append_literal l
  end.

(** The fuel bounds the string: it is used up only when there is no null
    character among that many bytes. *)
Fixpoint append_string_loop (fuel : nat) (current : Z) : M output unit :=
  o ← get;
  if memory o current =? 0 then mret tt
  else
    match fuel with
    | O => out_of_fuel
    | S fuel => append_character (memory o current);; append_string_loop fuel (current + 1)
    end.

Definition append_string (fuel : nat) (value : Z) : M output unit :=
  if value =? 0 then append_literal (characters "(null)") else append_string_loop fuel value.

(** [char digits[32]]. *)
Definition digit_capacity : nat := 32.

(** The first loop of [append_unsigned_value], which fills the array: the list
    is its first [digit_count] elements. *)
Fixpoint collect_digits (fuel : nat) (value base : Z) (alphabet digits : list Z) : M output (list Z) :=
  if value =? 0 then mret digits
  else
    match fuel with
    | O => out_of_fuel
    | S fuel =>
        digit ← index_get alphabet (value mod base);
        if (length digits <? digit_capacity)%nat then collect_digits fuel (value / base) base alphabet (digits ++ [digit])
        else undefined out_of_bounds
    end.

Fixpoint append_digits (digit_count : nat) (digits : list Z) : M output unit :=
  match digit_count with
  | O => mret tt
  | S digit_count =>
      digit ← index_get digits (Z.of_nat digit_count);
      append_character digit;;
      append_digits digit_count digits
  end.

Definition alphabet_of (uppercase : bool) : list Z :=
  if uppercase then characters "0123456789ABCDEF" else characters "0123456789abcdef".

(** A 64-bit value has at most 64 digits in any base. *)
Definition append_unsigned_value (value base : Z) (uppercase : bool) : M output unit :=
  if value =? 0 then append_character 48
  else
    digits ← collect_digits 64 value base (alphabet_of uppercase) [];
    append_digits (length digits) digits.

Definition append_signed_value (value : Z) : M output unit :=
  if value <? 0 then
    append_character 45;;
    append_unsigned_value (u64 (u64 (- (value + 1)) + 1)) 10 false
  else append_unsigned_value (u64 value) 10 false.

(** [l] is 108, [z] is 122. *)
Definition parse_format_length (m : host_memory) (format_cursor : Z) : format_length * Z :=
  if m format_cursor =? 108 then
    let format_cursor := format_cursor + 1 in
    if m format_cursor =? 108 then (FORMAT_LENGTH_LONG_LONG_VALUE, format_cursor + 1)
    else (FORMAT_LENGTH_LONG_VALUE, format_cursor)
  else if m format_cursor =? 122 then (FORMAT_LENGTH_SIZE_VALUE, format_cursor + 1)
  else (FORMAT_LENGTH_DEFAULT_VALUE, format_cursor).

(** ** Variable arguments *)

(** [va_arg]: the next slot and the list that is left; taking an argument that
    was not passed is undefined. *)
Definition va_arg (arguments : list Z) : M output (Z * list Z) :=
  match arguments with
  | [] => undefined out_of_bounds
  | a :: arguments => mret (a, arguments)
  end.

(** The widths of the types [va_arg] is given. *)
Definition argument_width `{Target} (length : format_length) : Z :=
  match length with
  | FORMAT_LENGTH_LONG_VALUE => LONG_BITS
  | FORMAT_LENGTH_LONG_LONG_VALUE => 64
  | FORMAT_LENGTH_SIZE_VALUE => 64
  | FORMAT_LENGTH_DEFAULT_VALUE => 32
  end.

Definition read_unsigned_argument `{Target} (arguments : list Z) (length : format_length) : M output (Z * list Z) :=
  a ← va_arg arguments;
  mret (fst a mod 2 ^ argument_width length, snd a).

Definition read_signed_argument `{Target} (arguments : list Z) (length : format_length) : M output (Z * list Z) :=
  a ← va_arg arguments;
  mret (signed (argument_width length) (fst a), snd a).

(** The caller's list after a call that was passed it: [va_list] is an array on
    x86-64, passed by its address, and a pointer to the next slot on arm64,
    passed by value. *)
Definition after_call `{Target} (passed left_by_callee : list Z) : list Z :=
  match target with x86_64 => left_by_callee | aarch64 => passed end.

(** ** [vsnprintf] *)

(** The [switch] on the specifier: the argument list after it. *)
Definition convert `{Target} (fuel : nat) (specifier : Z) (length : format_length) (arguments : list Z)
    : M output (list Z) :=
  if specifier =? 99 then                                        (* c *)
    a ← va_arg arguments;
    append_character (u8 (fst a));; mret (snd a)
  else if (specifier =? 100) || (specifier =? 105) then          (* d, i *)
    a ← read_signed_argument arguments length;
    append_signed_value (fst a);; mret (after_call arguments (snd a))
  else if specifier =? 112 then                                  (* p *)
    append_literal (characters "0x");;
    a ← va_arg arguments;
    append_unsigned_value (u64 (fst a)) 16 false;; mret (snd a)
  else if specifier =? 115 then                                  (* s *)
    a ← va_arg arguments;
    append_string fuel (u64 (fst a));; mret (snd a)
  else if specifier =? 117 then                                  (* u *)
    a ← read_unsigned_argument arguments length;
    append_unsigned_value (fst a) 10 false;; mret (after_call arguments (snd a))
  else if specifier =? 120 then                                  (* x *)
    a ← read_unsigned_argument arguments length;
    append_unsigned_value (fst a) 16 false;; mret (after_call arguments (snd a))
  else if specifier =? 88 then                                   (* X *)
    a ← read_unsigned_argument arguments length;
    append_unsigned_value (fst a) 16 true;; mret (after_call arguments (snd a))
  else if specifier =? 0 then append_character 37;; mret arguments
  else append_character 37;; append_character specifier;; mret arguments.

(** One iteration of the [while] loop, at a character that is not null: the
    cursor and the argument list after it. *)
Definition format_step `{Target} (fuel : nat) (format_cursor : Z) (arguments : list Z) : M output (Z * list Z) :=
  o ← get;
  if negb (memory o format_cursor =? 37) then
    append_character (memory o format_cursor);;
    mret (format_cursor + 1, arguments)
  else
    let format_cursor := format_cursor + 1 in
    if memory o format_cursor =? 37 then
      append_character 37;;
      mret (format_cursor + 1, arguments)
    else
      let '(length, format_cursor) := parse_format_length (memory o) format_cursor in
      let specifier := memory o format_cursor in
      arguments ← convert fuel specifier length arguments;
      let format_cursor := if specifier =? 0 then format_cursor - 1 else format_cursor in
      o ← get;
      mret (if negb (memory o format_cursor =? 0) then format_cursor + 1 else format_cursor, arguments).

(** The fuel bounds the format and the strings it prints. *)
Fixpoint format_loop `{Target} (fuel string_fuel : nat) (format_cursor : Z) (arguments : list Z) : M output unit :=
  o ← get;
  if memory o format_cursor =? 0 then mret tt
  else
    match fuel with
    | O => out_of_fuel
    | S fuel =>
        x ← format_step string_fuel format_cursor arguments;
        format_loop fuel string_fuel (fst x) (snd x)
    end.

(** What the library works on: memory, [errno] and the rest of the system. *)
Record process (W : Type) := { process_memory : host_memory; errno : Z; process_world : W }.
Arguments Build_process {W}.
Arguments process_memory {W}.
Arguments errno {W}.
Arguments process_world {W}.

Section stdio.
Context {W : Type} `{Target}.
Implicit Types (s : process W).

Definition with_process_memory s (m : host_memory) : process W :=
  {| process_memory := m; errno := errno s; process_world := process_world s |}.
Definition with_errno s (e : Z) : process W :=
  {| process_memory := process_memory s; errno := e; process_world := process_world s |}.
Definition with_process_world s (w : W) : process W :=
  {| process_memory := process_memory s; errno := errno s; process_world := w |}.

(** The terminator, written when there is a buffer. *)
Definition terminate_output (buffer buffer_size : Z) (o : output) : host_memory :=
  if negb (buffer_size =? 0) then
    if 0 <? remaining o then poke (memory o) (cursor o) 0 else poke (memory o) (buffer + (buffer_size - 1)) 0
  else memory o.

Definition vsnprintf (fuel : nat) (buffer buffer_size format : Z) (arguments : list Z) : M (process W) Z :=
  if (format =? 0) || ((buffer =? 0) && negb (buffer_size =? 0)) then
    modify (fun s => with_errno s EINVAL);; mret (-1)
  else
    s ← get;
    match format_loop fuel fuel format arguments
            {| memory := process_memory s; cursor := buffer; remaining := buffer_size; total_written := 0 |} with
    | Returned _ o =>
        modify (fun s => with_process_memory s (terminate_output buffer buffer_size o));;
        mret (total_written o)
    | Undefined u => undefined u
    | OutOfFuel => out_of_fuel
    end.

Definition snprintf (fuel : nat) (buffer buffer_size format : Z) (arguments : list Z) : M (process W) Z :=
  vsnprintf fuel buffer buffer_size format arguments.

(** The trap, with the number and the arguments of the system call. *)
Variable ringos_syscall : Z -> list Z -> M (process W) Z.

(** [buffer]: the address of the local array. *)
Definition vprintf (fuel : nat) (buffer format : Z) (arguments : list Z) : M (process W) Z :=
  result ← vsnprintf fuel buffer RINGOS_STDIO_LOG_BUFFER_CAPACITY format arguments;
  if result <? 0 then mret result
  else ringos_debug_log ringos_syscall buffer;; mret result.

Definition printf (fuel : nat) (buffer format : Z) (arguments : list Z) : M (process W) Z :=
  vprintf fuel buffer format arguments.

(** [puts]; [newline]: the address of the literal. *)
Definition puts (fuel : nat) (newline string : Z) : M (process W) Z :=
  if string =? 0 then mret EOF
  else
    status ← ringos_debug_log ringos_syscall string;
    if status <? 0 then mret EOF
    else
      status ← ringos_debug_log ringos_syscall newline;
      if status <? 0 then mret EOF
      else
        s ← get;
        match strlen fuel (process_memory s) string with
        | None => out_of_fuel
        | Some n => mret (s32 (n + 1))
        end.
End stdio.
