(* ===== verification/LibcStdioSpecs.v ===== *)
(** What the C library prints: a reference for formatting that reads the format
    once, character by character, and the proof that [vsnprintf] stores its
    result, cut to the buffer, and returns its length. *)
From Stdlib Require Import String.
From S2P Require Import Prelude UserMemory RuntimeTypes Syscalls UserSdk LibcString LibcStdlib LibcStdio.
#[local] Open Scope Z_scope.

(** * Numbers *)

(** The digits of [v] in a base, the most significant first. *)
Fixpoint digits_of (fuel : nat) (base v : Z) : list Z :=
  match fuel with
  | O => []
  | S fuel => if v <? base then [v] else digits_of fuel base (v / base) ++ [v mod base]
  end.

Definition digit (uppercase : bool) (d : Z) : Z := nth (Z.to_nat d) (alphabet_of uppercase) 0.

Definition number_text (base : Z) (uppercase : bool) (v : Z) : list Z := digit uppercase <$> digits_of 64 base v.

Definition signed_text (v : Z) : list Z :=
  if v <? 0 then 45 :: number_text 10 false (- v) else number_text 10 false v.

(** Reading a number back. *)
Definition digit_value (c : Z) : Z :=
  if (48 <=? c) && (c <=? 57) then c - 48
  else if (97 <=? c) && (c <=? 102) then c - 87
  else if (65 <=? c) && (c <=? 70) then c - 55
  else 0.

Definition read_number (base : Z) (text : list Z) : Z := foldl (fun v c => v * base + digit_value c) 0 text.

Definition read_signed (text : list Z) : Z :=
  match text with
  | c :: rest => if c =? 45 then - read_number 10 rest else read_number 10 text
  | [] => 0
  end.

(** * The format *)

Inductive parse_state := plain | after_percent | after_length (length : format_length).

Section render.
Context `{Target} (string_at : Z -> option (list Z)).

Definition with_argument {A} (arguments : list Z) (f : Z -> list Z -> option A) : option A :=
  match arguments with [] => None | a :: arguments' => f a arguments' end.

(** The text of a conversion and the arguments after it. *)
Definition conversion (specifier : Z) (length : format_length) (arguments : list Z) : option (list Z * list Z) :=
  let width := argument_width length in
  let number base uppercase :=
    with_argument arguments (fun a rest =>
      Some (number_text base uppercase (a mod 2 ^ width), after_call arguments rest)) in
  if specifier =? 99 then with_argument arguments (fun a rest => Some ([u8 a], rest))
  else if (specifier =? 100) || (specifier =? 105) then
    with_argument arguments (fun a rest => Some (signed_text (signed width a), after_call arguments rest))
  else if specifier =? 112 then
    with_argument arguments (fun a rest => Some (characters "0x" ++ number_text 16 false (u64 a), rest))
  else if specifier =? 115 then
    with_argument arguments (fun a rest =>
      if u64 a =? 0 then Some (characters "(null)", rest)
      else text ← string_at (u64 a); Some (text, rest))
  else if specifier =? 117 then number 10 false
  else if specifier =? 120 then number 16 false
  else if specifier =? 88 then number 16 true
  else Some ([37; specifier], arguments).

Fixpoint render (state : parse_state) (format arguments : list Z) : option (list Z) :=
  match format with
  | [] => Some (match state with plain => [] | _ => [37] end)
  | c :: format =>
      let directive length :=
        x ← conversion c length arguments;
        (fun out => fst x ++ out) <$> render plain format (snd x) in
      match state with
      | plain => if c =? 37 then render after_percent format arguments else cons c <$> render plain format arguments
      | after_percent =>
          if c =? 37 then cons 37 <$> render plain format arguments
          else if c =? 108 then render (after_length FORMAT_LENGTH_LONG_VALUE) format arguments
          else if c =? 122 then render (after_length FORMAT_LENGTH_SIZE_VALUE) format arguments
          else directive FORMAT_LENGTH_DEFAULT_VALUE
      | after_length FORMAT_LENGTH_LONG_VALUE =>
          if c =? 108 then render (after_length FORMAT_LENGTH_LONG_LONG_VALUE) format arguments
          else directive FORMAT_LENGTH_LONG_VALUE
      | after_length length => directive length
      end
  end.
End render.

(** * Output *)

Definition emit_one (o : output) (c : Z) : output :=
  {| memory := if 1 <? remaining o then poke (memory o) (cursor o) c else memory o;
     cursor := if 1 <? remaining o then cursor o + 1 else cursor o;
     remaining := if 0 <? remaining o then remaining o - 1 else remaining o;
     total_written := total_written o + 1 |}.

Definition emit (o : output) (l : list Z) : output := foldl emit_one o l.

(** [m] appends the characters [l] and returns [a]. *)
Definition appends {A} (m : M output A) (o : output) (l : list Z) (a : A) : Prop :=
  total_written o + Z.of_nat (length l) <= INT_MAX -> m o = Returned a (emit o l).

Lemma emit_app o l l' : emit o (l ++ l') = emit (emit o l) l'.
Proof. apply foldl_app. Qed.

Lemma emit_total o l : total_written (emit o l) = total_written o + Z.of_nat (length l).
Proof.
  revert o. induction l as [|c l IH]; intros o; cbn [emit foldl length]; [lia|].
  change (foldl emit_one ?x l) with (emit x l). rewrite IH. cbn [total_written emit_one]. lia.
Qed.

Lemma append_character_appends c o : appends (append_character c) o [c] tt.
Proof.
  intros Ht. cbn [length] in Ht. unfold append_character, emit. cbn [foldl].
  erewrite bind_eq by reflexivity. erewrite bind_eq by reflexivity. erewrite bind_eq by reflexivity.
  destruct o as [m cu r t]; cbn [total_written remaining cursor memory] in *.
  unfold emit_one; cbn [total_written remaining cursor memory].
  destruct (1 <? r); cbn [total_written remaining cursor memory]; destruct (0 <? r);
    cbn [total_written remaining cursor memory];
    (rewrite (proj2 (Z.eqb_neq t INT_MAX)) by lia); done.
Qed.

Lemma appends_ret {A} (a : A) o : appends (mret a) o [] a.
Proof. done. Qed.

Lemma appends_bind {A B} (m : M output A) (f : A -> M output B) o l l' a b :
  appends m o l a -> appends (f a) (emit o l) l' b -> appends (m ≫= f) o (l ++ l') b.
Proof.
  intros Hm Hf Ht. rewrite length_app, Nat2Z.inj_add in Ht.
  erewrite bind_eq by (apply Hm; lia). rewrite Hf by (rewrite emit_total; lia). by rewrite emit_app.
Qed.

(** A computation that only reads. *)
Lemma appends_pure {A B} (m : M output A) (f : A -> M output B) o l a b :
  m o = Returned a o -> appends (f a) o l b -> appends (m ≫= f) o l b.
Proof. intros Hm Hf Ht. erewrite bind_eq by exact Hm. by apply Hf. Qed.

Lemma append_literal_appends l o : appends (append_literal l) o l tt.
Proof.
  revert o. induction l as [|c l IH]; intros o; [apply appends_ret|].
  apply (appends_bind _ _ _ [c] l tt); [apply append_character_appends|apply IH].
Qed.

Lemma append_digits_appends n ds o :
  (n <= length ds)%nat -> appends (append_digits n ds) o (reverse (take n ds)) tt.
Proof.
  revert o. induction n as [|n IH]; intros o Hn; [apply appends_ret|].
  destruct (lookup_lt_is_Some_2 ds n) as [d Hd]; [lia|].
  rewrite (take_S_r _ _ _ Hd), reverse_snoc.
  eapply appends_pure; [unfold index_get; by rewrite Nat2Z.id, Hd|].
  apply (appends_bind _ _ _ [d] (reverse (take n ds)) tt); [apply append_character_appends|apply IH; lia].
Qed.

(** ** Numbers *)

Lemma digits_of_range fuel base v : 2 <= base -> 0 <= v -> Forall (fun d => 0 <= d < base) (digits_of fuel base v).
Proof.
  intros Hb. revert v. induction fuel as [|fuel IH]; intros v Hv; cbn [digits_of]; [constructor|].
  destruct (Z.ltb_spec v base); [repeat constructor; lia|].
  apply Forall_app; split; [apply IH, Z.div_pos; lia|]. repeat constructor; apply Z.mod_pos_bound; lia.
Qed.

Lemma div_lt_power base v n : 2 <= base -> 0 <= v < base ^ Z.of_nat (S n) -> 0 <= v / base < base ^ Z.of_nat n.
Proof.
  intros Hb [Hv Hlt]. split; [apply Z.div_pos; lia|]. apply Z.div_lt_upper_bound; [lia|].
  by rewrite <- Z.pow_succ_r, <- Nat2Z.inj_succ by lia.
Qed.

Lemma length_digits_of fuel base v n :
  2 <= base -> 0 <= v < base ^ Z.of_nat n -> (1 <= n)%nat -> (length (digits_of fuel base v) <= n)%nat.
Proof.
  intros Hb. revert v n. induction fuel as [|fuel IH]; intros v n Hv Hn; cbn [digits_of length]; [lia|].
  destruct (Z.ltb_spec v base) as [|Hge]; [done|]. rewrite length_app. cbn [length].
  destruct n as [|[|n]]; [lia|rewrite Z.pow_1_r in Hv; lia|].
  enough (length (digits_of fuel base (v / base)) <= S n)%nat by lia.
  apply IH; [by apply div_lt_power|lia].
Qed.

Lemma length_alphabet uppercase : length (alphabet_of uppercase) = 16%nat.
Proof. by destruct uppercase. Qed.

Lemma index_get_digit uppercase d (o : output) :
  0 <= d < 16 -> index_get (alphabet_of uppercase) d o = Returned (digit uppercase d) o.
Proof.
  intros Hd. unfold index_get, digit.
  destruct (lookup_lt_is_Some_2 (alphabet_of uppercase) (Z.to_nat d)) as [c Hc]; [rewrite length_alphabet; lia|].
  rewrite Hc. by rewrite (nth_lookup_Some _ _ _ _ Hc).
Qed.

Lemma collect_digits_returns fuel base uppercase v acc o :
  2 <= base <= 16 -> 0 < v < base ^ Z.of_nat fuel ->
  (length acc + length (digits_of fuel base v) <= 32)%nat ->
  collect_digits fuel v base (alphabet_of uppercase) acc o
  = Returned (acc ++ reverse (digit uppercase <$> digits_of fuel base v)) o.
Proof.
  intros Hb. revert v acc. induction fuel as [|fuel IH]; intros v acc Hv Hl; [change (base ^ Z.of_nat 0) with 1 in Hv; lia|].
  cbn [collect_digits digits_of] in *. rewrite (proj2 (Z.eqb_neq v 0)) by lia.
  pose proof (Z.mod_pos_bound v base).
  erewrite bind_eq by (apply index_get_digit; lia).
  destruct (Z.ltb_spec v base) as [Hlt|Hge].
  - cbn [length] in Hl. rewrite (proj2 (Nat.ltb_lt _ _)) by (unfold digit_capacity; lia).
    rewrite Z.div_small, Z.mod_small by lia. by destruct fuel.
  - rewrite length_app in Hl. cbn [length] in Hl.
    rewrite (proj2 (Nat.ltb_lt _ _)) by (unfold digit_capacity; lia).
    pose proof (div_lt_power base v fuel ltac:(lia) ltac:(lia)).
    assert (1 <= v / base) by (apply Z.div_le_lower_bound; lia).
    rewrite IH by (rewrite ?length_app; cbn [length]; lia).
    rewrite fmap_app, reverse_app. cbn [fmap list_fmap]. rewrite <- app_assoc. done.
Qed.

Lemma digits_of_zero n base : 0 < base -> digits_of (S n) base 0 = [0].
Proof. intros. cbn [digits_of]. by rewrite (proj2 (Z.ltb_lt 0 base)) by lia. Qed.

Lemma u64_digits base v : base = 10 \/ base = 16 -> u64_ok v -> 0 <= v < base ^ Z.of_nat 20.
Proof.
  intros [-> | ->] Hv; [change (10 ^ Z.of_nat 20) with 100000000000000000000
    |change (16 ^ Z.of_nat 20) with 1208925819614629174706176]; words.
Qed.

Lemma append_unsigned_value_appends v base uppercase o :
  base = 10 \/ base = 16 -> u64_ok v -> appends (append_unsigned_value v base uppercase) o (number_text base uppercase v) tt.
Proof.
  intros Hb Hv. unfold append_unsigned_value, number_text. destruct (Z.eqb_spec v 0) as [->|Hz].
  - rewrite digits_of_zero by lia. destruct uppercase; apply append_character_appends.
  - assert (Hl : (length (digits_of 64 base v) <= 20)%nat)
      by (apply length_digits_of; [destruct Hb; lia|by apply u64_digits|lia]).
    assert (Hv' : 0 < v < base ^ Z.of_nat 64).
    { split; [words|]. apply Z.lt_le_trans with (base ^ Z.of_nat 20); [by apply u64_digits|].
      apply Z.pow_le_mono_r; destruct Hb; lia. }
    eapply appends_pure; [apply collect_digits_returns; [destruct Hb; lia|exact Hv'|cbn [length]; lia]|]. cbn [app].
    set (ds := digit uppercase <$> digits_of 64 base v).
    pose proof (append_digits_appends (length (reverse ds)) (reverse ds) o (le_n _)) as HA.
    by rewrite firstn_all, reverse_involutive in HA.
Qed.

Lemma append_signed_value_appends v o :
  s64_ok v -> appends (append_signed_value v) o (signed_text v) tt.
Proof.
  intros Hv. unfold append_signed_value, signed_text. destruct (Z.ltb_spec v 0).
  - apply (appends_bind _ _ _ [45] _ tt); [apply append_character_appends|].
    rewrite (u64_id (- (v + 1))), u64_id by words. replace (- (v + 1) + 1) with (- v) by lia.
    apply append_unsigned_value_appends; [by left|words].
  - rewrite u64_id by words. apply append_unsigned_value_appends; [by left|words].
Qed.

Lemma digit_value_digit uppercase d : 0 <= d < 16 -> digit_value (digit uppercase d) = d.
Proof.
  intros Hd. assert (exists n, (n < 16)%nat /\ d = Z.of_nat n) as (n & Hn & ->) by (exists (Z.to_nat d); lia).
  do 16 (destruct n as [|n]; [by destruct uppercase|]). lia.
Qed.

Lemma read_number_snoc base text c : read_number base (text ++ [c]) = read_number base text * base + digit_value c.
Proof. unfold read_number. by rewrite foldl_snoc. Qed.

Lemma read_number_digits fuel base uppercase v :
  2 <= base <= 16 -> 0 <= v < base ^ Z.of_nat fuel -> read_number base (digit uppercase <$> digits_of fuel base v) = v.
Proof.
  intros Hb. revert v. induction fuel as [|fuel IH]; intros v Hv; [change (base ^ Z.of_nat 0) with 1 in Hv; cbn; lia|].
  cbn [digits_of]. destruct (Z.ltb_spec v base).
  - cbn. rewrite digit_value_digit; lia.
  - rewrite fmap_app. cbn [fmap list_fmap]. pose proof (Z.mod_pos_bound v base).
    rewrite read_number_snoc, digit_value_digit, IH by (first [by apply div_lt_power; lia|lia]).
    pose proof (Z.div_mod v base). lia.
Qed.

Lemma read_number_text base uppercase v :
  base = 10 \/ base = 16 -> u64_ok v -> read_number base (number_text base uppercase v) = v.
Proof.
  intros Hb Hv. apply read_number_digits; [lia|]. split; [words|].
  apply Z.lt_le_trans with (2 ^ 64); [words|]. destruct Hb as [-> | ->]; vm_compute; congruence.
Qed.

(** A decimal number does not start with a minus sign. *)
Lemma number_text_head base uppercase v c text :
  base = 10 \/ base = 16 -> u64_ok v -> number_text base uppercase v = c :: text -> c <> 45.
Proof.
  intros Hb Hv Ht. pose proof (digits_of_range 64 base v ltac:(lia) ltac:(words)) as Hr.
  unfold number_text in Ht. destruct (digits_of 64 base v) as [|d ds]; [done|]. injection Ht as <- _.
  apply Forall_cons_1 in Hr as [Hd _]. pose proof (digit_value_digit uppercase d ltac:(lia)) as Hv'.
  intros E. rewrite E in Hv'. change (digit_value 45) with 0 in Hv'. subst d. by destruct uppercase.
Qed.

Lemma read_signed_text v : s64_ok v -> read_signed (signed_text v) = v.
Proof.
  intros Hv. unfold signed_text. destruct (Z.ltb_spec v 0).
  - cbn [read_signed]. rewrite Z.eqb_refl, read_number_text by (first [by left|words]). lia.
  - pose proof (number_text_head 10 false v) as Hh.
    pose proof (read_number_text 10 false v ltac:(by left) ltac:(words)) as Hr.
    destruct (number_text 10 false v) as [|c text]; [cbn in *; lia|]. cbn [read_signed].
    by rewrite (proj2 (Z.eqb_neq c 45)) by (apply (Hh c text); [by left|words|done]).
Qed.

(** C36: Every 64-bit integer, the least one included, is printed as at most 20 characters that
    read back as the same integer; the digit array is not overrun. *)
Theorem append_signed_value_reads_back v o :
  s64_ok v -> total_written o <= INT_MAX - 20 ->
  exists text, append_signed_value v o = Returned tt (emit o text) /\ read_signed text = v /\ (length text <= 20)%nat.
Proof.
  intros Hv Ht. exists (signed_text v).
  assert (length (signed_text v) <= 20)%nat.
  { assert (forall w, 0 <= w <= 2 ^ 63 -> (length (number_text 10 false w) <= 19)%nat) as Hl.
    { intros w Hw. unfold number_text. rewrite length_fmap. apply length_digits_of; [lia| |lia].
      change (10 ^ Z.of_nat 19) with 10000000000000000000. words. }
    unfold signed_text. destruct (Z.ltb_spec v 0); cbn [length].
    - pose proof (Hl (- v) ltac:(words)). lia.
    - pose proof (Hl v ltac:(words)). lia. }
  split; [apply append_signed_value_appends; [done|lia]|]. split; [by apply read_signed_text|done].
Qed.

(** * What ends up in memory *)

Lemma store_bytes_string m x l : Forall (fun c => c <> 0) l -> c_string (store_bytes m x (l ++ [0])) x l.
Proof.
  revert m x. induction l as [|b l IH]; intros m x Hl; cbn [app store_bytes c_string].
  - unfold poke. by rewrite Z.eqb_refl.
  - apply Forall_cons_1 in Hl as [Hb Hl]. split; [|split; [done|by apply IH]].
    rewrite store_bytes_outside by lia. unfold poke. by rewrite Z.eqb_refl.
Qed.

Definition initial_output (m : host_memory) (buffer size : Z) : output :=
  {| memory := m; cursor := buffer; remaining := size; total_written := 0 |}.

(** The part of the text that fits in front of the terminator. *)
Definition kept (size : Z) (text : list Z) : list Z := take (Z.to_nat (size - 1)) text.

Lemma emit_closed m buffer size text :
  0 <= size ->
  emit (initial_output m buffer size) text
  = {| memory := store_bytes m buffer (kept size text); cursor := buffer + Z.of_nat (length (kept size text));
       remaining := Z.max 0 (size - Z.of_nat (length text)); total_written := Z.of_nat (length text) |}.
Proof.
  intros Hs. unfold kept. induction text as [|c text IH] using rev_ind.
  - rewrite take_nil. cbn. unfold initial_output. f_equal; lia.
  - rewrite emit_app, IH. unfold emit; cbn [foldl]. unfold emit_one; cbn [memory cursor remaining total_written].
    rewrite length_app. cbn [length].
    destruct (Z.ltb_spec 1 (Z.max 0 (size - Z.of_nat (length text)))).
    + rewrite !(take_ge (_ ++ _)), (take_ge text) by (rewrite ?length_app; cbn [length]; lia).
      rewrite store_bytes_snoc, length_app. cbn [length]. compare; f_equal; lia.
    + rewrite take_app_le by lia. compare; f_equal; lia.
Qed.

(** * Formatting *)

Section formatting.
Context `{Target} (m : host_memory) (buffer size : Z) (string_at : Z -> option (list Z)) (fuel : nat).

(** A string does not overlap the buffer. *)
Definition apart (p : Z) (s : list Z) : Prop := p + Z.of_nat (length s) < buffer \/ buffer + size <= p.

Hypothesis size_nonnegative : 0 <= size.
Hypothesis strings : forall p text, string_at p = Some text -> c_string m p text /\ apart p text /\ (length text < fuel)%nat.

Abbreviation after text := (emit (initial_output m buffer size) text).

Lemma string_visible text p s : c_string m p s -> apart p s -> c_string (memory (after text)) p s.
Proof.
  intros Hs Ha. apply (c_string_agree m); [done|]. intros y Hy. rewrite emit_closed by done. cbn [memory].
  apply store_bytes_outside. unfold kept. rewrite length_take. destruct Ha; lia.
Qed.

Lemma apart_cons p c s : apart p (c :: s) -> apart (p + 1) s.
Proof. unfold apart. cbn [length]. lia. Qed.

Lemma append_string_loop_appends n s text p :
  c_string m p s -> apart p s -> (length s < n)%nat -> appends (append_string_loop n p) (after text) s tt.
Proof.
  revert n text p. induction s as [|c s IH]; intros n text p Hs Ha Hn; (destruct n as [|n]; [cbn [length] in Hn; lia|]);
    pose proof (string_visible text p _ Hs Ha) as Hv; cbn [append_string_loop c_string length] in *;
    (eapply appends_pure; [reflexivity|]).
  - rewrite Hv. apply appends_ret.
  - destruct Hv as (-> & Hc & _). rewrite (proj2 (Z.eqb_neq c 0) Hc).
    apply (appends_bind _ _ _ [c] s tt); [apply append_character_appends|]. rewrite <- emit_app.
    apply IH; [apply Hs|by eapply apart_cons|lia].
Qed.

Lemma append_string_appends p text t :
  (if p =? 0 then t = characters "(null)" else string_at p = Some t) ->
  appends (append_string fuel p) (after text) t tt.
Proof.
  intros Ht. unfold append_string. destruct (p =? 0).
  - subst t. apply append_literal_appends.
  - destruct (strings p t Ht) as (Hs & Ha & Hf). by apply append_string_loop_appends.
Qed.

(** A computation that ends by returning a value. *)
Lemma appends_then {B} (f : M output unit) o l (b : B) : appends f o l tt -> appends (f;; mret b) o l b.
Proof. intros Hf. rewrite <- (app_nil_r l). by apply (appends_bind f _ o l [] tt b); [|apply appends_ret]. Qed.

Lemma appends_argument {B} (f : Z * list Z -> M output B) a rest o l (b : B) :
  appends (f (a, rest)) o l b -> appends (x ← va_arg (a :: rest); f x) o l b.
Proof. intros Hf. by eapply appends_pure; [reflexivity|]. Qed.

Lemma with_argument_some {A} arguments (f : Z -> list Z -> option A) x :
  with_argument arguments f = Some x -> exists a rest, arguments = a :: rest /\ f a rest = Some x.
Proof. destruct arguments as [|a rest]; [done|]. by exists a, rest. Qed.

Lemma argument_range length a : u64_ok (a mod 2 ^ argument_width length).
Proof.
  assert (argument_width length = 32 \/ argument_width length = 64) as [-> | ->]
    by (unfold argument_width, LONG_BITS; destruct length, target; auto).
  - pose proof (Z.mod_pos_bound a (2 ^ 32)). words.
  - apply u64_range.
Qed.

Lemma signed_argument_range length a : s64_ok (signed (argument_width length) a).
Proof.
  assert (argument_width length = 32 \/ argument_width length = 64) as [-> | ->]
    by (unfold argument_width, LONG_BITS; destruct length, target; auto).
  - pose proof (signed_range 32 a). words.
  - apply (signed_range 64 a). lia.
Qed.

Ltac take_argument H :=
  apply with_argument_some in H as (?a & ?rest & -> & H); injection H as <-; cbn [fst snd];
  eapply appends_pure; [reflexivity|]; cbn [fst snd].

Lemma conversion_appends specifier length arguments x text :
  specifier <> 0 -> conversion string_at specifier length arguments = Some x ->
  appends (convert fuel specifier length arguments) (after text) (fst x) (snd x).
Proof.
  intros Hz Hc. unfold conversion in Hc. unfold convert.
  destruct (specifier =? 99); [take_argument Hc; by apply appends_then, append_character_appends|].
  destruct ((specifier =? 100) || (specifier =? 105)).
  { take_argument Hc. by apply appends_then, append_signed_value_appends, signed_argument_range. }
  destruct (specifier =? 112).
  { apply with_argument_some in Hc as (a & rest & -> & Hc). injection Hc as <-.
    apply (appends_bind _ _ _ (characters "0x") (number_text 16 false (u64 a)) tt); [apply append_literal_appends|]. rewrite <- emit_app. apply appends_argument. cbn [fst snd].
    apply appends_then, append_unsigned_value_appends; [by right|apply u64_range]. }
  destruct (specifier =? 115).
  { apply with_argument_some in Hc as (a & rest & -> & Hc). apply appends_argument. cbn [fst snd].
    assert (exists t, x = (t, rest) /\ (if u64 a =? 0 then t = characters "(null)" else string_at (u64 a) = Some t)) as (t & -> & Ht).
    { destruct (u64 a =? 0); [injection Hc as <-; by eexists|].
      apply bind_Some in Hc as (t & Ht & [= <-]). by exists t. }
    cbn [fst snd]. by apply appends_then, append_string_appends. }
  destruct (specifier =? 117);
    [take_argument Hc; apply appends_then, append_unsigned_value_appends; [by left|apply argument_range]|].
  destruct (specifier =? 120);
    [take_argument Hc; apply appends_then, append_unsigned_value_appends; [by right|apply argument_range]|].
  destruct (specifier =? 88);
    [take_argument Hc; apply appends_then, append_unsigned_value_appends; [by right|apply argument_range]|].
  rewrite (proj2 (Z.eqb_neq specifier 0) Hz). injection Hc as <-. cbn [fst snd].
  apply (appends_bind _ _ _ [37] [specifier] tt); [apply append_character_appends|].
  by apply appends_then, append_character_appends.
Qed.

(** The rest of a directive, the state after its [%]: the cursor the prefix
    leaves, at a specifier whose text follows, or at the end of the format. *)
Lemma prefix_parsed M p rest arguments out :
  c_string M p rest -> render string_at after_percent rest arguments = Some out -> hd 0 rest <> 37 ->
  M (p - 1) <> 0 ->
  exists length q rest',
    parse_format_length M p = (length, q) /\ c_string M q rest' /\
    q + Z.of_nat (base.length rest') = p + Z.of_nat (base.length rest) /\ p <= q /\ M (q - 1) <> 0 /\
    match rest' with
    | [] => out = [37]
    | c :: rest'' =>
        exists x out', conversion string_at c length arguments = Some x /\ render string_at plain rest'' (snd x) = Some out'  /\
          out = fst x ++ out'
    end.
Proof.
  intros Hs Hr Hhd Hp. unfold parse_format_length.
  assert (Hdir : forall c length rest'' out,
    (x ← conversion string_at c length arguments; (fun out => fst x ++ out) <$> render string_at plain rest'' (snd x)) = Some out ->
    exists x out', conversion string_at c length arguments = Some x /\ render string_at plain rest'' (snd x) = Some out' /\ out = fst x ++ out').
  { intros c length rest'' o Hd. apply bind_Some in Hd as (x & Hx & Hd). apply fmap_Some in Hd as (out' & Ho & ->). eauto. }
  destruct rest as [|c rest]; cbn [c_string base.length hd] in *.
  { injection Hr as <-. rewrite Hs. eexists _, p, []. split_and!; first [done|lia]. }
  destruct Hs as (Hc & Hc0 & Hs). cbn [render] in Hr. rewrite (proj2 (Z.eqb_neq c 37) Hhd) in Hr. rewrite Hc.
  destruct (c =? 108).
  2: { destruct (c =? 122).
       - eexists _, (p + 1), rest. split; [done|]. split; [done|]. split; [lia|]. split; [lia|].
         split; [by rewrite Z.add_simpl_r, Hc|]. destruct rest as [|d rest]; [by injection Hr as <-|]. by apply Hdir.
       - eexists _, p, (c :: rest). split; [done|]. split; [done|]. split; [done|]. split; [lia|]. split; [done|].
         by apply Hdir. }
  destruct rest as [|d rest]; cbn [c_string base.length] in *.
  { injection Hr as <-. rewrite Hs. eexists _, (p + 1), []. split; [done|]. split; [done|].
    cbn [base.length]. split; [lia|]. split; [lia|]. split; [by rewrite Z.add_simpl_r, Hc|done]. }
  destruct Hs as (Hd & Hd0 & Hs). cbn [render] in Hr. rewrite Hd. destruct (d =? 108).
  - eexists _, (p + 1 + 1), rest. split; [done|]. split; [done|]. split; [lia|]. split; [lia|].
    split; [by rewrite Z.add_simpl_r, Hd|]. destruct rest as [|e rest]; [by injection Hr as <-|]. by apply Hdir.
  - eexists _, (p + 1), (d :: rest). split; [done|]. split; [done|]. cbn [base.length]. split; [lia|]. split; [lia|].
    split; [by rewrite Z.add_simpl_r, Hc|]. by apply Hdir.
Qed.

(** One iteration of the loop appends the text of one character or directive. *)
Lemma format_step_appends text p c rest arguments out :
  c_string m p (c :: rest) -> apart p (c :: rest) -> render string_at plain (c :: rest) arguments = Some out ->
  exists piece q rest' arguments' out',
    appends (format_step fuel p arguments) (after text) piece (q, arguments') /\
    out = piece ++ out' /\ render string_at plain rest' arguments' = Some out' /\
    c_string m q rest' /\ apart q rest' /\ (length rest' <= length rest)%nat.
Proof.
  intros Hs Ha Hr. pose proof (string_visible text p _ Hs Ha) as Hv. cbn [render c_string] in Hr, Hs, Hv.
  destruct Hs as (_ & Hc0 & Hs), Hv as (Hc & _ & Hv). unfold format_step.
  pose proof (apart_cons _ _ _ Ha) as Ha'.
  destruct (Z.eqb_spec c 37) as [->|Hne]; cbn [negb].
  2: { apply fmap_Some in Hr as (out' & Hr & ->). exists [c], (p + 1), rest, arguments, out'.
       split; [|done]. eapply appends_pure; [reflexivity|]. rewrite Hc, (proj2 (Z.eqb_neq c 37) Hne). cbn [negb].
       apply appends_then, append_character_appends. }
  destruct (decide (hd 0 rest = 37)) as [Hhd|Hhd].
  { destruct rest as [|d rest]; cbn [hd] in Hhd; [done|]. subst d. cbn [render] in Hr. change (37 =? 37) with true in Hr.
    apply fmap_Some in Hr as (out' & Hr & ->). cbn [c_string] in Hs, Hv. destruct Hv as (Hd & _ & _), Hs as (_ & _ & Hs).
    exists [37], (p + 1 + 1), rest, arguments, out'. split.
    - eapply appends_pure; [reflexivity|]. rewrite Hc, Hd. cbn [negb].
      change (37 =? 37) with true. cbn [negb]. apply appends_then, append_character_appends.
    - cbn [length]. split; [done|]. split; [done|]. split; [done|]. split; [by eapply apart_cons|lia]. }
  assert (Hnp : (memory (after text) (p + 1) =? 37) = false).
  { apply Z.eqb_neq. destruct rest as [|d rest]; cbn [c_string hd] in *; [by rewrite Hv|by destruct Hv as (-> & _)]. }
  destruct (prefix_parsed (memory (after text)) (p + 1) rest arguments out Hv Hr Hhd) as
    (len & q & rest' & Hparse & Hq & Hlen & Hle & Hprev & Hout); [by rewrite Z.add_simpl_r, Hc|].
  assert (Hs' : c_string m q rest').
  { apply (c_string_agree (memory (after text))); [done|]. intros y Hy. symmetry. rewrite emit_closed by done.
    cbn [memory]. apply store_bytes_outside. unfold kept. rewrite length_take.
    unfold apart in Ha'. lia. }
  assert (Hap : apart q rest') by (unfold apart in *; lia).
  destruct rest' as [|d rest']; cbn [c_string length] in *.
  - exists [37], q, [], arguments, []. split; [|subst out; cbn [length]; repeat split; [done|done|lia]].
    eapply appends_pure; [reflexivity|]. rewrite Hc, Hnp, Hparse, Hq. change (37 =? 37) with true. cbn [negb].
    change (0 =? 0) with true.
    apply (appends_bind _ _ _ [37] [] arguments); [by apply appends_then, append_character_appends|].
    eapply appends_pure; [reflexivity|]. rewrite <- emit_app.
    pose proof (string_visible (text ++ [37]) q [] Hs' Hap) as Hend.
    assert ((memory (after (text ++ [37])) (q - 1) =? 0) = false) as ->.
    { apply Z.eqb_neq. intros E. apply Hprev. rewrite <- E, !emit_closed by done. cbn [memory].
      rewrite !store_bytes_outside; [done|..]; unfold kept; rewrite length_take; unfold apart in Ha, Ha';
        cbn [length] in Ha; lia. }
    cbn [negb]. rewrite Z.sub_add. apply appends_ret.
  - destruct Hout as (x & out' & Hx & Hr' & ->). destruct Hq as (Hd & Hd0 & _), Hs' as (_ & _ & Hs').
    exists (fst x), (q + 1), rest', (snd x), out'.
    split; [|split; [done|]; split; [done|]; split; [done|]; split; [by eapply apart_cons|lia]].
    eapply appends_pure; [reflexivity|]. rewrite Hc, Hnp, Hparse, Hd. change (37 =? 37) with true. cbn [negb].
    rewrite <- (app_nil_r (fst x)).
    apply (appends_bind _ _ _ (fst x) [] (snd x)); [by apply conversion_appends|].
    eapply appends_pure; [reflexivity|]. rewrite <- emit_app, (proj2 (Z.eqb_neq d 0) Hd0).
    assert ((memory (after (text ++ fst x)) q =? 0) = false) as ->; [|apply appends_ret].
    apply Z.eqb_neq. rewrite emit_closed by done. cbn [memory].
    rewrite store_bytes_outside; [|unfold kept; rewrite length_take; unfold apart in Hap; cbn [length] in Hap; lia].
    rewrite emit_closed in Hd by done. cbn [memory] in Hd.
    rewrite store_bytes_outside in Hd; [by rewrite Hd|unfold kept; rewrite length_take; unfold apart in Hap; cbn [length] in Hap; lia].
Qed.

Lemma format_loop_appends n text p format arguments out :
  c_string m p format -> apart p format -> render string_at plain format arguments = Some out ->
  (length format < n)%nat -> appends (format_loop n fuel p arguments) (after text) out tt.
Proof.
  revert text p format arguments out. induction n as [|n IH]; intros text p format arguments out Hs Ha Hr Hn; [lia|].
  cbn [format_loop]. pose proof (string_visible text p _ Hs Ha) as Hv. eapply appends_pure; [reflexivity|].
  destruct format as [|c rest].
  - cbn [c_string] in Hv. rewrite Hv. injection Hr as <-. apply appends_ret.
  - destruct Hv as (-> & Hc & _). rewrite (proj2 (Z.eqb_neq c 0) Hc).
    destruct (format_step_appends text p c rest arguments out Hs Ha Hr)
      as (piece & q & rest' & arguments' & out' & Hstep & -> & Hr' & Hs' & Ha' & Hl).
    eapply appends_bind; [exact Hstep|]. rewrite <- emit_app. cbn [fst snd].
    eapply IH; [exact Hs'|done|done|]. cbn [length] in Hn. lia.
Qed.
End formatting.

(** * The functions *)

(** The memory after printing [text] to a buffer. *)
Definition printed (m : host_memory) (buffer size : Z) (text : list Z) : host_memory :=
  if size =? 0 then m else store_bytes m buffer (kept size text ++ [0]).

Lemma terminate_output_printed m buffer size text :
  0 <= size -> terminate_output buffer size (emit (initial_output m buffer size) text) = printed m buffer size text.
Proof.
  intros Hs. unfold terminate_output, printed. rewrite emit_closed by done. cbn [memory cursor remaining].
  destruct (Z.eqb_spec size 0) as [->|Hz]; cbn [negb]; [done|]. rewrite store_bytes_snoc.
  destruct (Z.ltb_spec 0 (Z.max 0 (size - Z.of_nat (length text)))); [done|]. do 2 f_equal.
  unfold kept. rewrite length_take. lia.
Qed.

Section functions.
Context {W : Type} `{Target}.
Implicit Types (s : process W).

(** The strings an argument may point to, away from the buffer. *)
Definition strings_of (m : host_memory) (buffer size : Z) (fuel : nat) (string_at : Z -> option (list Z)) : Prop :=
  forall p text, string_at p = Some text -> c_string m p text /\ apart buffer size p text /\ (length text < fuel)%nat.

Lemma vsnprintf_returns s fuel buffer size format_address format arguments string_at out :
  format_address <> 0 -> 0 <= size -> (buffer = 0 -> size = 0) ->
  c_string (process_memory s) format_address format -> apart buffer size format_address format ->
  (length format < fuel)%nat -> strings_of (process_memory s) buffer size fuel string_at ->
  render string_at plain format arguments = Some out -> Z.of_nat (length out) <= INT_MAX ->
  vsnprintf fuel buffer size format_address arguments s
  = Returned (Z.of_nat (length out)) (with_process_memory s (printed (process_memory s) buffer size out)).
Proof.
  intros Hf0 Hsize Hb Hf Ha Hl Hstr Hr Hmax. unfold vsnprintf. rewrite (proj2 (Z.eqb_neq _ 0) Hf0).
  assert ((buffer =? 0) && negb (size =? 0) = false) as ->.
  { destruct (Z.eqb_spec buffer 0) as [E|]; [|done]. by rewrite (Hb E). }
  cbn [orb]. erewrite bind_eq by reflexivity.
  pose proof (format_loop_appends (process_memory s) buffer size string_at fuel Hsize Hstr
    fuel [] format_address format arguments out Hf Ha Hr Hl ltac:(cbn; lia)) as Hloop.
  cbn [emit foldl] in Hloop. unfold initial_output in Hloop at 1. rewrite Hloop.
  erewrite bind_eq by reflexivity. rewrite terminate_output_printed by done.
  rewrite emit_closed by done. reflexivity.
Qed.

(** C34: For a format and strings that do not overlap the buffer, vsnprintf terminates and
    returns the length of the text that a single pass over the format's characters gives (the
    reference render), and stores the part of the text that fits in front of a terminator in the
    buffer; no other byte of memory changes, nor errno. *)
Theorem vsnprintf_correct s fuel buffer size format_address format arguments string_at out :
  format_address <> 0 -> 0 <= size -> (buffer = 0 -> size = 0) ->
  c_string (process_memory s) format_address format -> apart buffer size format_address format ->
  (length format < fuel)%nat -> strings_of (process_memory s) buffer size fuel string_at ->
  render string_at plain format arguments = Some out -> Z.of_nat (length out) <= INT_MAX ->
  exists s', vsnprintf fuel buffer size format_address arguments s = Returned (Z.of_nat (length out)) s' /\
    errno s' = errno s /\ process_world s' = process_world s /\
    forall y, process_memory s' y
      = if (buffer <=? y) && (y <? buffer + size)
        then match (kept size out ++ [0]) !! Z.to_nat (y - buffer) with
             | Some c => c
             | None => process_memory s y
             end
        else process_memory s y.
Proof.
  intros. eexists. split; [by eapply vsnprintf_returns|]. split; [done|]. split; [done|]. intros y.
  cbn [process_memory with_process_memory]. unfold printed.
  destruct (Z.eqb_spec size 0) as [->|Hz]; [by compare|].
  apply stored_lookup. unfold kept. rewrite length_app, length_take. cbn [length]. lia.
Qed.

(** A null format, or a null buffer that is not empty. *)
Lemma vsnprintf_refuses s fuel buffer size format arguments :
  format = 0 \/ (buffer = 0 /\ size <> 0) ->
  vsnprintf fuel buffer size format arguments s = Returned (-1) (with_errno s EINVAL).
Proof.
  intros Hn. unfold vsnprintf. destruct Hn as [->|[-> Hz]]; [done|].
  rewrite (proj2 (Z.eqb_neq size 0) Hz). cbn [negb andb]. change (0 =? 0) with true. by rewrite orb_true_r.
Qed.
End functions.

(** ** Printing through the kernel

    What a process relies on when it logs a string: the kernel copies it to a
    buffer of 96 bytes, and logs it when it fits ([debug_log_syscall] in
    [UserProcess] shows that the kernel does). *)
Class DebugLog {W} (ringos_syscall : Z -> list Z -> M (process W) Z) := {
  logged : W -> list (list Z);
  debug_log_short s message text :
    message <> 0 -> c_string (process_memory s) message text -> (length text < message_buffer_size)%nat ->
    exists w, ringos_syscall SYSCALL_DEBUG_LOG [message] s = Returned RINGOS_STATUS_OK (with_process_world s w) /\
              logged w = logged (process_world s) ++ [text];
  debug_log_long s message text :
    message <> 0 -> c_string (process_memory s) message text -> (message_buffer_size <= length text)%nat ->
    exists w, ringos_syscall SYSCALL_DEBUG_LOG [message] s = Returned STATUS_BUFFER_TOO_SMALL (with_process_world s w) /\
              logged w = logged (process_world s);
}.

Section printing.
Context {W : Type} `{Target} (ringos_syscall : Z -> list Z -> M (process W) Z) `{!DebugLog ringos_syscall}.
Implicit Types (s : process W).

(** What the kernel makes of a string. *)
Definition log_lines (text : list Z) : list (list Z) :=
  if (length text <? message_buffer_size)%nat then [text] else [].

Definition log_status (text : list Z) : Z :=
  if (length text <? message_buffer_size)%nat then RINGOS_STATUS_OK else STATUS_BUFFER_TOO_SMALL.

Lemma ringos_debug_log_spec s message text :
  message <> 0 -> c_string (process_memory s) message text ->
  exists w, ringos_debug_log ringos_syscall message s = Returned (log_status text) (with_process_world s w) /\
            logged w = logged (process_world s) ++ log_lines text.
Proof.
  intros Hm Ht. unfold ringos_debug_log, log_status, log_lines. rewrite (proj2 (Z.eqb_neq _ 0) Hm).
  destruct (Nat.ltb_spec (length text) message_buffer_size).
  - by apply debug_log_short.
  - rewrite app_nil_r. by eapply debug_log_long.
Qed.

(** printf of a text without null characters returns its length and logs it when it is
    shorter than the kernel's message buffer of 96 bytes; a longer text, which printf's own
    buffer of 512 would hold, is not logged at all, and printf still returns its length. *)
Lemma printf_logs s fuel buffer format_address format arguments string_at out :
  buffer <> 0 -> format_address <> 0 ->
  c_string (process_memory s) format_address format ->
  apart buffer RINGOS_STDIO_LOG_BUFFER_CAPACITY format_address format -> (length format < fuel)%nat ->
  strings_of (process_memory s) buffer RINGOS_STDIO_LOG_BUFFER_CAPACITY fuel string_at ->
  render string_at plain format arguments = Some out -> Z.of_nat (length out) <= INT_MAX ->
  Forall (fun c => c <> 0) out ->
  exists s', printf ringos_syscall fuel buffer format_address arguments s = Returned (Z.of_nat (length out)) s' /\
    logged (process_world s') = logged (process_world s) ++ log_lines out.
Proof.
  intros Hb Hf0 Hf Ha Hl Hstr Hr Hmax Hnz. unfold printf, vprintf.
  erewrite bind_eq by (by eapply vsnprintf_returns). rewrite (proj2 (Z.ltb_ge _ 0)) by lia.
  set (s1 := with_process_memory s _).
  set (n := RINGOS_STDIO_LOG_BUFFER_CAPACITY) in *.
  assert (Hs1 : c_string (process_memory s1) buffer (kept n out))
    by (apply store_bytes_string; by apply Forall_take).
  destruct (ringos_debug_log_spec s1 buffer _ Hb Hs1) as (w & Hlog & Hw).
  eexists. split; [erewrite bind_eq by exact Hlog; reflexivity|]. cbn [process_world with_process_world].
  rewrite Hw. cbn [s1 process_world with_process_memory]. f_equal. unfold log_lines, kept, n, message_buffer_size.
  change (Z.to_nat (RINGOS_STDIO_LOG_BUFFER_CAPACITY - 1)) with 511%nat. rewrite length_take.
  destruct (Nat.ltb_spec (length out) 96), (Nat.ltb_spec (511 `min` length out) 96); try lia; [|done].
  by rewrite take_ge by lia.
Qed.

(** [puts]: the string and a line break as two log entries, and their length;
    [EOF] and no line break for a string the kernel refuses. *)
Lemma puts_spec s fuel newline string text :
  newline <> 0 -> string <> 0 -> c_string (process_memory s) newline [10] -> c_string (process_memory s) string text ->
  (length text < fuel)%nat ->
  exists s', logged (process_world s') = logged (process_world s) ++ (if (length text <? message_buffer_size)%nat then [text; [10]] else []) /\
    puts ringos_syscall fuel newline string s
    = Returned (if (length text <? message_buffer_size)%nat then Z.of_nat (length text) + 1 else EOF) s'.
Proof.
  intros Hn Hs Hnl Ht Hf. unfold puts. rewrite (proj2 (Z.eqb_neq _ 0) Hs).
  destruct (ringos_debug_log_spec s string text Hs Ht) as (w & Hlog & Hw). unfold log_status, log_lines in *.
  destruct (Nat.ltb_spec (length text) message_buffer_size) as [Hlt|].
  2: { eexists. split; [|erewrite bind_eq by exact Hlog; reflexivity]. exact Hw. }
  destruct (ringos_debug_log_spec (with_process_world s w) newline [10] Hn Hnl) as (w' & Hlog' & Hw').
  exists (with_process_world s w'). split.
  - cbn [process_world with_process_world] in *. by rewrite Hw', Hw, <- app_assoc.
  - erewrite bind_eq by exact Hlog. change (RINGOS_STATUS_OK <? 0) with false. cbv iota.
    erewrite bind_eq by exact Hlog'. change (log_status [10] <? 0) with false. cbv iota.
    erewrite bind_eq by reflexivity. cbn [process_memory with_process_world].
    rewrite (strlen_spec fuel _ _ _ Ht Hf). unfold message_buffer_size in Hlt.
    unfold s32, signed. change (2 ^ 32) with 4294967296. change (2 ^ (32 - 1)) with 2147483648. cbv zeta.
    rewrite Z.mod_small by lia. by rewrite (proj2 (Z.ltb_lt _ _)) by lia.
Qed.
End printing.

(** ** Two integers on arm64

    [va_list] is passed by value there, and the functions that read an integer
    argument take it by value: the second conversion prints the first argument
    again. *)

(** C37: On arm64, where a va_list is passed by value, a second integer conversion prints the
    first argument again: snprintf with the format %d %d prints its first argument twice. *)
Theorem vsnprintf_arm64_repeats_argument {W} (s : process W) fuel buffer size format_address a b :
  format_address <> 0 -> 0 <= size -> (buffer = 0 -> size = 0) ->
  c_string (process_memory s) format_address (characters "%d %d") ->
  apart buffer size format_address (characters "%d %d") -> (5 < fuel)%nat -> s32_ok a -> s32_ok b ->
  let once := signed_text a ++ [32] ++ signed_text a in
  vsnprintf (H := aarch64) fuel buffer size format_address [a; b] s
  = Returned (Z.of_nat (length once)) (with_process_memory s (printed (process_memory s) buffer size once)).
Proof.
  intros Hf0 Hs Hb Hf Ha Hfuel Ha32 _ once. apply (vsnprintf_returns (H := aarch64)) with (string_at := fun _ => None)
    (format := characters "%d %d"); try done.
  - change (render (H := aarch64) (fun _ => None) plain (characters "%d %d") [a; b])
      with (Some (signed_text (signed 32 a) ++ 32 :: signed_text (signed 32 a) ++ [])).
    by rewrite app_nil_r, (signed_id 32) by words.
  - assert (forall v, s32_ok v -> (length (signed_text v) <= 11)%nat) as Hl.
    { intros v Hv. assert (forall w, 0 <= w <= 2 ^ 31 -> (length (number_text 10 false w) <= 10)%nat) as Hw.
      { intros w Hw. unfold number_text. rewrite length_fmap. apply length_digits_of; [lia| |lia].
        change (10 ^ Z.of_nat 10) with 10000000000. words. }
      unfold signed_text. destruct (Z.ltb_spec v 0); cbn [length].
      - pose proof (Hw (- v) ltac:(words)). lia.
      - pose proof (Hw v ltac:(words)). lia. }
    unfold once. rewrite !length_app. cbn [length]. pose proof (Hl a Ha32). unfold INT_MAX. lia.
Qed.

(** * Instances *)

(** A system whose log is a list, and whose only system call is the debug log. *)
Fixpoint bounded_string (n : nat) (m : host_memory) (p : Z) : list Z :=
  match n with
  | O => []
  | S n => if m p =? 0 then [] else m p :: bounded_string n m (p + 1)
  end.

Definition sample_syscall (syscall_number : Z) (arguments : list Z) : M (process (list (list Z))) Z := fun s =>
  let text := bounded_string message_buffer_size (process_memory s) (hd 0 arguments) in
  if (length text <? message_buffer_size)%nat
  then Returned RINGOS_STATUS_OK (with_process_world s (process_world s ++ [text]))
  else Returned STATUS_BUFFER_TOO_SMALL s.

Lemma bounded_string_take n m p text : c_string m p text -> bounded_string n m p = take n text.
Proof.
  revert p text. induction n as [|n IH]; intros p text Ht; [done|]. cbn [bounded_string].
  destruct text as [|c text]; cbn [c_string] in Ht; [by rewrite Ht|]. destruct Ht as (-> & Hc & Ht).
  rewrite (proj2 (Z.eqb_neq c 0) Hc). cbn [take]. by rewrite (IH _ text).
Qed.

#[export] Instance sample_debug_log : DebugLog sample_syscall.
Proof.
  refine {| logged := fun w => w |}.
  - intros s message text _ Ht Hl. eexists. split; [|reflexivity]. unfold sample_syscall. cbn [hd].
    rewrite (bounded_string_take _ _ _ _ Ht), take_ge by lia. by rewrite (proj2 (Nat.ltb_lt _ _)).
  - intros s message text _ Ht Hl. exists (process_world s). split; [|reflexivity]. unfold sample_syscall. cbn [hd].
    rewrite (bounded_string_take _ _ _ _ Ht), length_take, Nat.min_l by done.
    rewrite Nat.ltb_irrefl. by destruct s.
Defined.

Definition sample_format : list Z := characters "%s: %d, %x%%".
Definition sample_process : process (list (list Z)) :=
  {| process_memory := store_bytes (store_bytes (fun _ => 0) 1000 sample_format) 2000 (characters "disk");
     errno := 0; process_world := [] |}.
Definition sample_strings (p : Z) : option (list Z) := if p =? 2000 then Some (characters "disk") else None.

Lemma sample_strings_of fuel : (4 < fuel)%nat -> strings_of (process_memory sample_process) 3000 512 fuel sample_strings.
Proof.
  intros Hf p text Ht. unfold sample_strings in Ht. destruct (Z.eqb_spec p 2000) as [->|]; [|done]. injection Ht as <-.
  split; [vm_compute; repeat split; congruence|]. split; [left; vm_compute; reflexivity|exact Hf].
Qed.

Lemma append_signed_value_reads_back_witness :
  exists text, append_signed_value (- 2 ^ 63) (initial_output (fun _ => 0) 100 30)
    = Returned tt (emit (initial_output (fun _ => 0) 100 30) text) /\ read_signed text = - 2 ^ 63 /\ (length text <= 20)%nat.
Proof. apply (append_signed_value_reads_back (- 2 ^ 63)); [words|vm_compute; congruence]. Defined.

Lemma vsnprintf_correct_witness :
  exists s', vsnprintf (H := x86_64) 20 3000 8 1000 [2000; 2 ^ 32 - 7; 255] sample_process = Returned 13 s' /\
    errno s' = 0 /\ process_world s' = [] /\
    forall y, process_memory s' y
      = if (3000 <=? y) && (y <? 3000 + 8)
        then match (kept 8 (characters "disk: -7, ff%") ++ [0]) !! Z.to_nat (y - 3000) with
             | Some c => c
             | None => process_memory sample_process y
             end
        else process_memory sample_process y.
Proof.
  apply (vsnprintf_correct (H := x86_64) sample_process 20 3000 8 1000 sample_format [2000; 2 ^ 32 - 7; 255]
    sample_strings (characters "disk: -7, ff%")); try (vm_compute; intuition congruence).
  - cbn. lia.
  - intros p text Ht. destruct (sample_strings_of 20 ltac:(lia) p text Ht) as (? & _ & ?).
    split; [done|]. split; [|done]. unfold sample_strings in Ht. destruct (Z.eqb_spec p 2000) as [->|]; [|done].
    injection Ht as <-. left. vm_compute. reflexivity.
Defined.

Lemma printf_logs_witness :
  exists s', printf (H := x86_64) sample_syscall 20 3000 1000 [2000; 2 ^ 32 - 7; 255] sample_process = Returned 13 s' /\
    logged (DebugLog := sample_debug_log) (process_world s') = [characters "disk: -7, ff%"].
Proof.
  refine (printf_logs (H := x86_64) sample_syscall sample_process 20 3000 1000 sample_format [2000; 2 ^ 32 - 7; 255]
    sample_strings (characters "disk: -7, ff%") _ _ _ _ _ _ _ _ _); try (vm_compute; congruence).
  - vm_compute. repeat split; congruence.
  - left. vm_compute. reflexivity.
  - cbn. lia.
  - apply sample_strings_of. lia.
  - vm_compute. repeat constructor; congruence.
Defined.

Definition two_integers : process unit :=
  {| process_memory := store_bytes (fun _ => 0) 1000 (characters "%d %d"); errno := 0; process_world := tt |}.

Lemma vsnprintf_arm64_repeats_argument_witness :
  vsnprintf (H := aarch64) 10 3000 8 1000 [1; 2] two_integers
  = Returned 3 (with_process_memory two_integers (printed (process_memory two_integers) 3000 8 (characters "1 1"))).
Proof.
  apply (vsnprintf_arm64_repeats_argument two_integers 10 3000 8 1000 1 2); try (vm_compute; congruence); try words.
  - vm_compute. repeat split; congruence.
  - left. vm_compute. reflexivity.
Defined.
