(* ===== verification/UserProcess.v ===== *)
(** What a user program's system calls do in the kernel: the debug log prints
    the string it is given when it fits the kernel's buffer, and the checks of
    the SDK's functions never change the status a call ends with. *)
From S2P Require Import Prelude AddressSpace UserMemory KernelObjectPool RuntimeTypes UserRuntime Rpc Syscalls RuntimeInvariant KernelSafety RpcSafety SyscallSafety KernelSamples RpcSpecs UserSdk.

(** [s] is the null terminated string at user address [x]. *)
Fixpoint user_string (a : address_space) (m : host_memory) (x : Z) (s : list Z) : Prop :=
  match s with
  | [] => exists h, byte_host a x = Some h /\ m h = 0
  | c :: s => (exists h, byte_host a x = Some h /\ m h = c) /\ c <> 0 /\ user_string a m (x + 1) s
  end.

Lemma user_string_reference a m x s n :
  user_string a m x s ->
  copy_string_reference n a m x
  = if (length s <? n)%nat then Some (s ++ [0], true) else Some (take n s, false).
Proof.
  revert x s. induction n as [|n IH]; intros x s Hs; [done|]. cbn [copy_string_reference].
  destruct s as [|c s]; cbn [user_string] in Hs.
  - destruct Hs as (h & -> & Hm). cbn [mbind option_bind]. by rewrite Hm.
  - destruct Hs as ((h & -> & Hm) & Hc & Hs). cbn [mbind option_bind]. rewrite Hm, (proj2 (Z.eqb_neq c 0) Hc), (IH _ _ Hs).
    cbn [length]. change (S (length s) <? S n)%nat with (length s <? n)%nat. by destruct (length s <? n)%nat.
Qed.

Lemma copy_user_string_returns a m x s n :
  address_space_wf a -> u64_ok x -> 0 < n -> user_string a m x s ->
  copy_user_string (Some a) m x true n
  = if Z.of_nat (length s) <? n then Some (STATUS_OK, s ++ [0])
    else Some (STATUS_BUFFER_TOO_SMALL, take (Z.to_nat n - 1) s ++ [0]).
Proof.
  intros Hwf Hx Hn Hs. pose proof (copy_string_loop_spec (Z.to_nat n) a m x 0 [] Hwf) as H.
  rewrite Z.add_0_r in H. specialize (H ltac:(lia) Hx). unfold copy_user_string. cbn [negb orb].
  rewrite (proj2 (Z.eqb_neq n 0)) by lia. rewrite (user_string_reference _ _ _ _ _ Hs) in H. cbn [app] in H.
  destruct (Z.ltb_spec (Z.of_nat (length s)) n).
  - rewrite (proj2 (Nat.ltb_lt _ _)) in H by lia. done.
  - rewrite (proj2 (Nat.ltb_ge _ _)) in H by lia. destruct H as [Hl H]. by rewrite H, Hl, take_take, Nat.min_l by lia.
Qed.

(** The kernel after the context of a system call has been saved. *)
Definition call_saved (k : kernel) (c : user_syscall_context) (i : nat) (t : thread) : kernel :=
  with_runtime k (with_threads (runtime k)
    (update_at (m_threads (runtime k)) i (set_user_context t (make_thread_context_from_syscall c)))).

Section current.
Context `{Target} (k : kernel) (c : user_syscall_context) (i p : nat) (t : thread) (q : process).
Hypothesis ready : runtime_wf (runtime k).
Hypothesis current : m_current_thread (runtime k) = Some i.
Hypothesis thread_at : get_by_index (m_threads (runtime k)) i = Some t.
Hypothesis owner : m_process t = Some p.
Hypothesis process_at : get_by_index (m_processes (runtime k)) p = Some q.

Abbreviation k1 := (call_saved k c i t).

Lemma saved_thread : get_by_index (m_threads (runtime k1)) i = Some (set_user_context t (make_thread_context_from_syscall c)).
Proof. cbn. rewrite (get_update_at _ _ _ _ t) by done. by rewrite decide_True. Qed.

Lemma saved_copy_string x s n :
  u64_ok x -> (0 < n)%nat -> user_string (m_address_space q) (host k) x s ->
  copy_user_string_to_buffer i x n k1
  = Returned (if (length s <? n)%nat then (STATUS_OK, s ++ replicate (n - length s) 0)
              else (STATUS_BUFFER_TOO_SMALL, take (n - 1) s ++ [0])) k1.
Proof.
  intros Hx Hn Hs. unfold copy_user_string_to_buffer. erewrite bind_eq by (apply read_at_returns; apply saved_thread).
  cbn [m_process set_user_context sync_resume_to_user_context with_resume with_context]. rewrite owner.
  erewrite bind_eq. 2: { erewrite bind_eq by (by apply read_at_returns). reflexivity. }
  erewrite bind_eq by reflexivity. unfold lift. cbn [host call_saved with_runtime].
  rewrite (copy_user_string_returns _ _ x s (Z.of_nat n) (wf_process _ ready p q process_at) Hx ltac:(lia) Hs).
  destruct (Nat.ltb_spec (length s) n).
  - rewrite (proj2 (Z.ltb_lt _ _)) by lia. unfold mbind, M_bind, mret, M_ret; cbn [fst snd]. do 2 f_equal.
    rewrite length_app, <- app_assoc. cbn [length].
    replace (n - length s)%nat with (S (n - (length s + 1))) by lia. done.
  - rewrite (proj2 (Z.ltb_ge _ _)) by lia. unfold mbind, M_bind, mret, M_ret; cbn [fst snd]. do 2 f_equal.
    rewrite length_app, length_take, Nat2Z.id, Nat.min_l by lia. cbn [length].
    replace (n - (n - 1 + 1))%nat with 0%nat by lia. cbn [replicate]. by rewrite app_nil_r.
Qed.

(** The log entry: the string and the zeros after it. *)
Definition log_entry (s : list Z) : kernel_event := debug_log (s ++ replicate (message_buffer_size - length s) 0).

Lemma dispatch_debug_log s :
  syscall_number c = SYSCALL_DEBUG_LOG -> argument0 c <> 0 -> u64_ok (argument0 c) ->
  user_string (m_address_space q) (host k) (argument0 c) s ->
  dispatch_syscall c k
  = if (length s <? message_buffer_size)%nat
    then Returned STATUS_OK {| runtime := runtime k1; host := host k; events := events k ++ [log_entry s] |}
    else Returned STATUS_BUFFER_TOO_SMALL k1.
Proof.
  intros Hn H0 Hx Hs. unfold dispatch_syscall. erewrite bind_eq by reflexivity. rewrite current.
  erewrite bind_eq by (by apply read_at_returns). rewrite owner.
  erewrite bind_eq by (by apply update_returns). rewrite Hn. change (SYSCALL_DEBUG_LOG =? SYSCALL_DEBUG_LOG) with true. cbv iota.
  rewrite (proj2 (Z.eqb_neq _ 0) H0).
  erewrite bind_eq by (apply (saved_copy_string _ s); [done|unfold message_buffer_size; lia|done]).
  destruct (length s <? message_buffer_size)%nat; reflexivity.
Qed.
End current.

(** The debug log system call of a thread whose process has a null terminated string at the
    given address logs the string and returns STATUS_OK when it is shorter than 96 bytes, and
    otherwise returns STATUS_BUFFER_TOO_SMALL and logs nothing; memory does not change. *)
Lemma debug_log_syscall `{Target} k c i p t q s :
  runtime_wf (runtime k) -> m_current_thread (runtime k) = Some i ->
  get_by_index (m_threads (runtime k)) i = Some t -> m_process t = Some p ->
  get_by_index (m_processes (runtime k)) p = Some q ->
  syscall_number c = SYSCALL_DEBUG_LOG -> argument0 c <> 0 -> u64_ok (argument0 c) ->
  user_string (m_address_space q) (host k) (argument0 c) s ->
  exists status k', dispatch_syscall c k = Returned status k' /\ host k' = host k /\
    if (length s <? message_buffer_size)%nat
    then status = STATUS_OK /\ events k' = events k ++ [log_entry s]
    else status = STATUS_BUFFER_TOO_SMALL /\ events k' = events k.
Proof.
  intros Hr Hc Ht Hp Hq Hn H0 Hx Hs.
  rewrite (dispatch_debug_log k c i p t q Hr Hc Ht Hp Hq s Hn H0 Hx Hs).
  by destruct (length s <? message_buffer_size)%nat; eexists _, _; (split; [reflexivity|]).
Qed.

(** ** The SDK in front of the kernel *)

Section sdk.
Context `{Target} (instruction_pointer stack_pointer flags trampoline : Z).

Definition trap_context (number : Z) (arguments : list Z) : user_syscall_context :=
  make_user_syscall_context number instruction_pointer stack_pointer flags
    (nth 0 arguments 0) (nth 1 arguments 0) (nth 2 arguments 0) 0 0 0.

Definition kernel_trap (number : Z) (arguments : list Z) : K Z := dispatch_syscall (trap_context number arguments).

Definition status_of (m : K Z) (k : kernel) : option Z :=
  match m k with Returned status _ => Some status | _ => None end.

(** A call of the remote procedure call group reaches its handler. *)
Lemma trap_dispatches k i t p number arguments :
  m_current_thread (runtime k) = Some i -> get_by_index (m_threads (runtime k)) i = Some t -> m_process t = Some p ->
  let c := trap_context number arguments in
  (number = SYSCALL_RPC_REGISTER -> kernel_trap number arguments k = rpc_register i p c (call_saved k c i t)) /\
  (number = SYSCALL_RPC_OPEN -> kernel_trap number arguments k = rpc_open i p c (call_saved k c i t)) /\
  (number = SYSCALL_RPC_CALL -> kernel_trap number arguments k = rpc_call i p c (call_saved k c i t)) /\
  (number = SYSCALL_RPC_CLOSE -> kernel_trap number arguments k = rpc_close p c (call_saved k c i t)) /\
  (number = SYSCALL_DEBUG_LOG -> argument0 c = 0 -> status_of (kernel_trap number arguments) k = Some STATUS_INVALID_ARGUMENT).
Proof.
  intros Hc Ht Hp c. pose proof (saved_thread k c i t Ht) as Ht1.
  split_and!; intros ->; unfold status_of, kernel_trap, dispatch_syscall; fold c; (erewrite bind_eq by reflexivity); rewrite Hc;
    (erewrite bind_eq by (by apply read_at_returns)); rewrite Hp; (erewrite bind_eq by (by apply update_returns));
    [..|intros ->; reflexivity]; fold (call_saved k c i t);
    match goal with |- context [bool_decide (?P ∈ ?l)] => change (bool_decide (P ∈ l)) with true end;
    cbn [syscall_number trap_context make_user_syscall_context];
    match goal with |- context [?n =? SYSCALL_DEBUG_LOG] => change (n =? SYSCALL_DEBUG_LOG) with false end;
    match goal with |- context [?n =? SYSCALL_THREAD_EXIT] => change (n =? SYSCALL_THREAD_EXIT) with false end;
    cbv iota; unfold rpc_dispatch_syscall; (erewrite bind_eq by (by apply read_at_returns));
    cbn [m_process set_user_context sync_resume_to_user_context with_resume with_context]; by rewrite Hp.
Qed.

(** The argument checks in front of the SDK's system calls do not change the status a
    program sees: for every argument, each function returns the status the kernel gives the bare
    trap. *)
Lemma sdk_checks_agree_with_kernel k i t p :
  m_current_thread (runtime k) = Some i -> get_by_index (m_threads (runtime k)) i = Some t -> m_process t = Some p ->
  trampoline <> 0 ->
  (forall name callback, status_of (ringos_rpc_register kernel_trap trampoline name callback) k
     = status_of (kernel_trap SYSCALL_RPC_REGISTER [name; callback; trampoline]) k) /\
  (forall name out, status_of (ringos_rpc_open kernel_trap name out) k = status_of (kernel_trap SYSCALL_RPC_OPEN [name; out]) k) /\
  (forall handle request size, status_of (ringos_rpc_call kernel_trap handle request size) k
     = status_of (kernel_trap SYSCALL_RPC_CALL [handle; request; size]) k) /\
  (forall handle, status_of (ringos_rpc_close kernel_trap handle) k = status_of (kernel_trap SYSCALL_RPC_CLOSE [handle]) k) /\
  (forall message, status_of (ringos_debug_log kernel_trap message) k = status_of (kernel_trap SYSCALL_DEBUG_LOG [message]) k).
Proof.
  intros Hc Ht Hp Htr. pose proof (fun n a => trap_dispatches k i t p n a Hc Ht Hp) as D.
  split_and!.
  - intros name callback. unfold ringos_rpc_register. destruct ((name =? 0) || (callback =? 0)) eqn:E; [|done].
    unfold status_of. rewrite (proj1 (D _ _)) by done. unfold rpc_register; cbn [argument0 argument1 argument2 trap_context make_user_syscall_context nth].
    by rewrite E.
  - intros name out. unfold ringos_rpc_open. destruct ((name =? 0) || (out =? 0)) eqn:E; [|done].
    unfold status_of. rewrite (proj1 (proj2 (D _ _))) by done. unfold rpc_open; cbn [argument0 argument1 trap_context make_user_syscall_context nth].
    by rewrite E.
  - intros handle request size. unfold ringos_rpc_call.
    destruct (_ || _ || _ || _) eqn:E; [|done]. unfold status_of. rewrite (proj1 (proj2 (proj2 (D _ _)))) by done.
    unfold rpc_call; cbn [argument0 argument1 argument2 trap_context make_user_syscall_context nth].
    unfold RINGOS_HANDLE_INVALID in E. destruct ((handle =? 0) || (request =? 0) || (size =? 0)); [done|].
    cbn [orb] in E. by rewrite E.
  - intros handle. unfold ringos_rpc_close. destruct (handle =? RINGOS_HANDLE_INVALID) eqn:E; [|done].
    unfold status_of. rewrite (proj1 (proj2 (proj2 (proj2 (D _ _))))) by done.
    unfold rpc_close; cbn [argument0 trap_context make_user_syscall_context nth]. unfold RINGOS_HANDLE_INVALID in E. by rewrite E.
  - intros message. unfold ringos_debug_log. destruct (Z.eqb_spec message 0) as [->|]; [|done].
    by rewrite (proj2 (proj2 (proj2 (proj2 (D SYSCALL_DEBUG_LOG [0]))))).
Qed.
End sdk.

(** ** Instances *)

(** The current thread of the started sample kernel logs the name [svc]. *)
Definition log_context : user_syscall_context := KernelSamples.sample_syscall SYSCALL_DEBUG_LOG 0x1100 0 0.

Lemma debug_log_syscall_witness :
  exists status k', dispatch_syscall log_context sample_started = Returned status k' /\ host k' = host sample_started /\
    status = STATUS_OK /\ events k' = events sample_started ++ [log_entry [115; 118; 99]].
Proof.
  apply (debug_log_syscall sample_started log_context 1 1 (thread_of sample_started 1) (sample_object 1) [115; 118; 99]).
  - apply sample_started_ready.
  - reflexivity.
  - reflexivity.
  - reflexivity.
  - reflexivity.
  - reflexivity.
  - discriminate.
  - vm_compute. split; congruence.
  - cbn [user_string]. split_and!; first [discriminate|eexists; split; vm_compute; reflexivity].
Defined.

Lemma sdk_checks_agree_with_kernel_witness :
  status_of (ringos_rpc_call (kernel_trap 0x1004 0x1EDC 0x202) 5 0x1100 0) sample_started
  = status_of (kernel_trap 0x1004 0x1EDC 0x202 SYSCALL_RPC_CALL [5; 0x1100; 0]) sample_started.
Proof.
  exact (proj1 (proj2 (proj2 (sdk_checks_agree_with_kernel 0x1004 0x1EDC 0x202 0x113A sample_started 1
    (thread_of sample_started 1) 1 eq_refl eq_refl eq_refl ltac:(discriminate)))) 5 0x1100 0).
Defined.
