(* ===== verification/TerminalService.v ===== *)
(** The terminal service, [services/terminal/srv_terminal_main.cpp]: a server
    whose callback collects the characters of its write requests into lines and
    logs each line. *)
From Stdlib Require Import String.
From S2P Require Import Prelude UserMemory Syscalls UserSdk.
#[local] Open Scope Z_scope.

Definition TERMINAL_SERVICE_LINE_CAPACITY : Z := 95.
Definition TERMINAL_SERVICE_WRITE_MAX_BYTES : Z := 240.
Definition TERMINAL_SERVICE_RPC_OPERATION_WRITE_BUFFER : Z := 1.

(** [g_terminal_line], [g_terminal_line_length] and the rest of the system. *)
Record terminal (W : Type) := {
  g_terminal_line : list Z;
  g_terminal_line_length : Z;
  terminal_world : W;
}.
Arguments Build_terminal {W}.
Arguments g_terminal_line {W}.
Arguments g_terminal_line_length {W}.
Arguments terminal_world {W}.

(** [terminal_service_write_request], as it lies in memory. *)
Record terminal_service_write_request := { operation : Z; request_length : Z; request_bytes : list Z }.

Definition sizeof_request_header : Z := 8.
Definition sizeof_write_request : Z := 256.

Definition decode_write_request (request : list Z) : terminal_service_write_request :=
  {| operation := le_decode (slice 0 8 request);
     request_length := le_decode (slice 8 8 request);
     request_bytes := slice 16 (Z.to_nat TERMINAL_SERVICE_WRITE_MAX_BYTES) request |}.

Section terminal.
Context {W : Type}.
Implicit Types (s : terminal W).

Definition initial_terminal (w : W) : terminal W :=
  {| g_terminal_line := replicate 96 0; g_terminal_line_length := 0; terminal_world := w |}.

Definition with_line_length s (n : Z) : terminal W :=
  {| g_terminal_line := g_terminal_line s; g_terminal_line_length := n; terminal_world := terminal_world s |}.

Definition with_terminal_world s (w : W) : terminal W :=
  {| g_terminal_line := g_terminal_line s; g_terminal_line_length := g_terminal_line_length s; terminal_world := w |}.

(** [g_terminal_line[index] = value]. *)
Definition store_character (index value : Z) : M (terminal W) unit :=
  s ← get;
  if index <? Z.of_nat (length (g_terminal_line s)) then
    modify (fun s => {| g_terminal_line := <[Z.to_nat index := value]> (g_terminal_line s);
                        g_terminal_line_length := g_terminal_line_length s; terminal_world := terminal_world s |})
  else undefined out_of_bounds.

(** The trap, and the address of [g_terminal_line]. *)
Variable ringos_syscall : Z -> list Z -> M (terminal W) Z.
Variable terminal_line_address : Z.

Definition terminal_flush_line : M (terminal W) Z :=
  s ← get;
  if g_terminal_line_length s =? 0 then mret STATUS_OK
  else
    store_character (g_terminal_line_length s) 0;;
    status ← KernelSdk.debug_log ringos_syscall terminal_line_address;
    modify (fun s => with_line_length s 0);;
    mret status.

(** [g_terminal_line[g_terminal_line_length++] = character]. *)
Definition append_to_line (character : Z) : M (terminal W) Z :=
  s ← get;
  modify (fun s => with_line_length s (g_terminal_line_length s + 1));;
  store_character (g_terminal_line_length s) character;;
  mret STATUS_OK.

Definition terminal_write_character (character_value : Z) : M (terminal W) Z :=
  if (character_value =? 0) || (character_value =? 13) then mret STATUS_OK
  else if character_value =? 10 then terminal_flush_line
  else
    s ← get;
    if g_terminal_line_length s =? TERMINAL_SERVICE_LINE_CAPACITY then
      flush_status ← terminal_flush_line;
      if negb (flush_status =? STATUS_OK) then mret flush_status else append_to_line character_value
    else append_to_line character_value.

(** The [for] loop: [n] characters to go. *)
Fixpoint write_loop (n : nat) (i : Z) (bytes : list Z) : M (terminal W) Z :=
  match n with
  | O => mret STATUS_OK
  | S n =>
      byte ← index_get bytes i;
      status ← terminal_write_character byte;
      if negb (status =? STATUS_OK) then mret status else write_loop n (i + 1) bytes
  end.

Definition terminal_write_buffer (write_request : terminal_service_write_request) : M (terminal W) Z :=
  if (request_length write_request =? 0) || (TERMINAL_SERVICE_WRITE_MAX_BYTES <? request_length write_request)
  then mret STATUS_INVALID_ARGUMENT
  else write_loop (Z.to_nat (request_length write_request)) 0 (request_bytes write_request).

(** [request = None] is a null pointer; otherwise its [request_size] bytes. *)
Definition terminal_handle_request (request : option (list Z)) : M (terminal W) Z :=
  match request with
  | None => mret STATUS_INVALID_ARGUMENT
  | Some request =>
      let request_size := Z.of_nat (length request) in
      if request_size <? sizeof_request_header then mret STATUS_INVALID_ARGUMENT
      else if operation (decode_write_request request) =? TERMINAL_SERVICE_RPC_OPERATION_WRITE_BUFFER then
        if negb (request_size =? sizeof_write_request) then mret STATUS_INVALID_ARGUMENT
        else terminal_write_buffer (decode_write_request request)
      else mret STATUS_NOT_SUPPORTED
  end.

(** [main]: [Some] its result; [None] when it registered and waits in the
    empty loop.  The arguments are the addresses of the name, of
    [terminal_handle_request] and of the completion trampoline. *)
Definition main (endpoint_name handle_request trampoline : Z) : M (terminal W) (option Z) :=
  register_status ← KernelSdk.rpc_register ringos_syscall trampoline endpoint_name handle_request;
  mret (if negb (register_status =? STATUS_OK) then Some 1 else None).
End terminal.

(** * The specification: the lines of a stream of characters *)

(** Null characters and carriage returns are dropped. *)
Definition visible (stream : list Z) : list Z := filter (fun c => c <> 0 /\ c <> 13) stream.

Fixpoint split_lines (stream : list Z) : list (list Z) :=
  match stream with
  | [] => [[]]
  | c :: stream =>
      if c =? 10 then [] :: split_lines stream
      else match split_lines stream with l :: ls => (c :: l) :: ls | [] => [[c]] end
  end.

(** A line in pieces of at most [n] characters; the fuel is its length. *)
Fixpoint pieces (fuel n : nat) (line : list Z) : list (list Z) :=
  match fuel, line with
  | S fuel, _ :: _ => take n line :: pieces fuel n (drop n line)
  | _, _ => []
  end.

(** The log entries of a stream; an empty line has none. *)
Definition lines_of (stream : list Z) : list (list Z) :=
  concat ((fun line => pieces (length line) 95 line) <$> split_lines stream).

(** The entry of a line that fits. *)
Definition entry (line : list Z) : list (list Z) := match line with [] => [] | _ => [line] end.

Lemma split_lines_app p c stream :
  Forall (fun c => c <> 10) p ->
  split_lines (p ++ stream) = match split_lines stream with l :: ls => (p ++ l) :: ls | [] => [p] end /\
  split_lines (c :: stream) <> [].
Proof.
  intros Hp. split.
  - induction Hp as [|a p Ha Hp IH]; cbn [app split_lines].
    + destruct stream as [|b stream]; cbn [split_lines]; [done|]. destruct (b =? 10); [done|]. by destruct (split_lines stream).
    + rewrite (proj2 (Z.eqb_neq a 10) Ha), IH. by destruct (split_lines stream).
  - cbn [split_lines]. destruct (c =? 10); [done|]. by destruct (split_lines stream).
Qed.

Lemma pieces_nil fuel n : pieces fuel n [] = [].
Proof. by destruct fuel. Qed.

(** More fuel than the length changes nothing. *)
Lemma pieces_fuel fuel fuel' n line :
  (0 < n)%nat -> (length line <= fuel)%nat -> (length line <= fuel')%nat -> pieces fuel n line = pieces fuel' n line.
Proof.
  intros Hn. revert fuel' line. induction fuel as [|fuel IH]; intros fuel' line Hf Hf'.
  - destruct line as [|c line]; cbn [length] in Hf; [|lia]. by rewrite !pieces_nil.
  - destruct line as [|c line]; [by rewrite !pieces_nil|]. destruct fuel' as [|fuel']; cbn [length] in *; [lia|].
    cbn [pieces]. f_equal. apply IH; rewrite length_drop; cbn [length]; lia.
Qed.

Lemma pieces_short line : (length line <= 95)%nat -> pieces (length line) 95 line = entry line.
Proof.
  intros Hl. destruct line as [|c line]; [done|]. cbn [length pieces] in *.
  rewrite take_ge, drop_ge by (cbn [length]; lia). by rewrite pieces_nil.
Qed.

Lemma pieces_full p line : length p = 95%nat -> pieces (length (p ++ line)) 95 (p ++ line) = p :: pieces (length line) 95 line.
Proof.
  intros Hp. destruct p as [|c p]; [done|]. cbn [app length pieces] in *. rewrite <- Hp.
  change (c :: p ++ line) with ((c :: p) ++ line). change (S (length p)) with (length (c :: p)).
  rewrite take_app_length, drop_app_length. f_equal. cbn [length]. rewrite Hp. apply pieces_fuel; rewrite ?length_app; lia.
Qed.

Lemma lines_of_short p : Forall (fun c => c <> 10) p -> (length p <= 95)%nat -> lines_of p = entry p.
Proof.
  intros Hp Hl. unfold lines_of. destruct (split_lines_app p 0 [] Hp) as [E _]. rewrite app_nil_r in E.
  rewrite E. cbn [split_lines fmap list_fmap concat]. by rewrite !app_nil_r, pieces_short.
Qed.

Lemma lines_of_newline p stream :
  Forall (fun c => c <> 10) p -> (length p <= 95)%nat -> lines_of (p ++ 10 :: stream) = entry p ++ lines_of stream.
Proof.
  intros Hp Hl. unfold lines_of. rewrite (proj1 (split_lines_app p 0 _ Hp)). cbn [split_lines]. change (10 =? 10) with true.
  cbn [fmap list_fmap concat]. by rewrite app_nil_r, pieces_short.
Qed.

Lemma lines_of_full p c stream :
  Forall (fun c => c <> 10) p -> length p = 95%nat -> lines_of (p ++ c :: stream) = p :: lines_of (c :: stream).
Proof.
  intros Hp Hl. unfold lines_of. destruct (split_lines_app p c stream Hp) as [_ Hne].
  rewrite (proj1 (split_lines_app p c _ Hp)). destruct (split_lines (c :: stream)) as [|l ls] eqn:E; [done|].
  cbn [fmap list_fmap concat]. by rewrite pieces_full.
Qed.

(** * The service prints the stream *)

(** What the service relies on: its line is null terminated and shorter than
    the kernel's message buffer, and the kernel logs such a string
    ([UserProcess.debug_log_syscall]). *)
Class TerminalLog {W} (ringos_syscall : Z -> list Z -> M (terminal W) Z) (terminal_line_address : Z) := {
  terminal_line_address_not_null : terminal_line_address <> 0;
  terminal_logged : W -> list (list Z);
  terminal_log s text rest :
    g_terminal_line s = text ++ 0 :: rest -> Forall (fun c => c <> 0) text -> (length text < message_buffer_size)%nat ->
    exists w, ringos_syscall SYSCALL_DEBUG_LOG [terminal_line_address] s = Returned STATUS_OK (with_terminal_world s w) /\
              terminal_logged w = terminal_logged (terminal_world s) ++ [text];
}.

Section service.
Context {W : Type} (ringos_syscall : Z -> list Z -> M (terminal W) Z) (terminal_line_address : Z)
  `{!TerminalLog ringos_syscall terminal_line_address}.
Implicit Types (s : terminal W).

(** The service holds the unfinished line [line]. *)
Record holds s (line : list Z) : Prop := {
  holds_array : length (g_terminal_line s) = 96%nat;
  holds_length : g_terminal_line_length s = Z.of_nat (length line);
  holds_line : take (length line) (g_terminal_line s) = line;
  holds_short : (length line <= 95)%nat;
  holds_characters : Forall (fun c => c <> 0 /\ c <> 10) line;
}.

Abbreviation log s := (terminal_logged (terminal_world s)).

Lemma initial_holds w : holds (initial_terminal w) [].
Proof. by constructor; [..|cbn; lia|]. Qed.

Lemma store_character_returns s i v :
  0 <= i < Z.of_nat (length (g_terminal_line s)) ->
  store_character i v s = Returned tt {| g_terminal_line := <[Z.to_nat i := v]> (g_terminal_line s);
    g_terminal_line_length := g_terminal_line_length s; terminal_world := terminal_world s |}.
Proof. intros Hi. unfold store_character. erewrite bind_eq by reflexivity. by rewrite (proj2 (Z.ltb_lt _ _)) by lia. Qed.

Lemma flush_returns s line :
  holds s line ->
  exists s', terminal_flush_line ringos_syscall terminal_line_address s = Returned STATUS_OK s' /\
    holds s' [] /\ log s' = log s ++ entry line.
Proof.
  intros [Ha Hl Ht Hs Hc]. unfold terminal_flush_line. erewrite bind_eq by reflexivity. rewrite Hl.
  destruct line as [|c line].
  { exists s. split; [done|]. split; [by constructor|]. by rewrite app_nil_r. }
  rewrite (proj2 (Z.eqb_neq _ 0)) by (cbn [length]; lia).
  erewrite bind_eq by (apply store_character_returns; rewrite Ha; lia).
  set (s1 := Build_terminal _ _ _).
  unfold KernelSdk.debug_log. rewrite (proj2 (Z.eqb_neq _ 0) terminal_line_address_not_null).
  destruct (terminal_log s1 (c :: line) (drop (S (length (c :: line))) (g_terminal_line s))) as (w & Hw & Hlog).
  - unfold s1; cbn [g_terminal_line]. rewrite Nat2Z.id.
    rewrite insert_take_drop by (rewrite Ha; lia). by rewrite Ht.
  - eapply Forall_impl; [|exact Hc]. by intros ? [].
  - unfold message_buffer_size. lia.
  - eexists. split; [erewrite bind_eq by exact Hw; reflexivity|]. split; [|cbn [terminal_world with_line_length with_terminal_world]; by rewrite Hlog].
    constructor; cbn [g_terminal_line with_line_length with_terminal_world g_terminal_line_length length s1]; try done.
    + by rewrite length_insert.
    + lia.
Qed.

Lemma append_to_line_returns s line c :
  holds s line -> c <> 0 -> c <> 10 -> (length line < 95)%nat ->
  exists s', append_to_line c s = Returned STATUS_OK s' /\ holds s' (line ++ [c]) /\ log s' = log s.
Proof.
  intros [Ha Hl Ht Hs Hc] H0 H10 Hlt. unfold append_to_line. erewrite bind_eq by reflexivity.
  erewrite bind_eq by reflexivity. rewrite Hl.
  erewrite bind_eq by (apply store_character_returns; cbn [g_terminal_line with_line_length]; rewrite Ha; lia).
  eexists. split; [reflexivity|]. split; [|done].
  constructor; cbn [g_terminal_line with_line_length g_terminal_line_length]; rewrite ?length_insert, ?length_app; cbn [length].
  - done.
  - lia.
  - rewrite Nat2Z.id, Nat.add_1_r. erewrite take_S_r by (apply list_lookup_insert_eq; rewrite Ha; lia).
    by rewrite take_insert_ge, Ht by lia.
  - lia.
  - apply Forall_app. split; [done|]. by repeat constructor.
Qed.

Lemma visible_cons c stream :
  visible (c :: stream) = if (c =? 0) || (c =? 13) then visible stream else c :: visible stream.
Proof.
  unfold visible. destruct (Z.eqb_spec c 0), (Z.eqb_spec c 13); cbn [orb].
  all: first [rewrite filter_cons_True by done; done|rewrite filter_cons_False by lia; done].
Qed.

(** One character: what is logged and held stands for the same stream. *)
Lemma write_character_returns s line c :
  holds s line ->
  exists s' line', terminal_write_character ringos_syscall terminal_line_address c s = Returned STATUS_OK s' /\ holds s' line' /\
    (c = 10 -> line' = []) /\
    forall stream, log s' ++ lines_of (line' ++ visible stream) = log s ++ lines_of (line ++ visible (c :: stream)).
Proof.
  intros Hh. pose proof (holds_characters _ _ Hh) as Hc.
  assert (Hn : Forall (fun c => c <> 10) line) by (eapply Forall_impl; [|exact Hc]; by intros ? []).
  unfold terminal_write_character. setoid_rewrite visible_cons.
  destruct ((c =? 0) || (c =? 13)) eqn:E.
  { exists s, line. split; [done|]. split; [done|]. split; [intros ->; discriminate E|done]. }
  bool_hyps.
  destruct (Z.eqb_spec c 10) as [->|H10].
  { destruct (flush_returns s line Hh) as (s' & Hf & Hh' & Hlog). exists s', []. split; [done|]. split; [done|]. split; [done|].
    intros stream. rewrite lines_of_newline by (done || apply Hh). by rewrite Hlog, <- app_assoc. }
  erewrite bind_eq by reflexivity. rewrite (holds_length _ _ Hh).
  destruct (Z.eqb_spec (Z.of_nat (length line)) TERMINAL_SERVICE_LINE_CAPACITY) as [Hfull|Hroom];
    unfold TERMINAL_SERVICE_LINE_CAPACITY in *.
  - destruct (flush_returns s line Hh) as (s1 & Hf & Hh1 & Hlog1). erewrite bind_eq by exact Hf.
    change (STATUS_OK =? STATUS_OK) with true. cbn [negb].
    destruct (append_to_line_returns s1 [] c Hh1) as (s' & Ha & Hh' & Hlog'); [done|done|cbn; lia|].
    exists s', [c]. split; [done|]. split; [done|]. split; [done|]. intros stream. rewrite lines_of_full by (done || lia).
    rewrite Hlog', Hlog1, <- app_assoc. destruct line; [cbn in Hfull; lia|done].
  - pose proof (holds_short _ _ Hh). destruct (append_to_line_returns s line c Hh) as (s' & Ha & Hh' & Hlog'); [done|done|lia|].
    exists s', (line ++ [c]). split; [done|]. split; [done|]. split; [done|]. intros stream. by rewrite Hlog', <- app_assoc.
Qed.

Lemma write_loop_returns bytes n i s line :
  holds s line -> (i + n <= length bytes)%nat ->
  exists s' line', write_loop ringos_syscall terminal_line_address n (Z.of_nat i) bytes s = Returned STATUS_OK s' /\ holds s' line' /\
    (list.last (slice i n bytes) = Some 10 -> line' = []) /\ (n = 0%nat -> line = [] -> line' = []) /\
    forall stream, log s' ++ lines_of (line' ++ visible stream)
      = log s ++ lines_of (line ++ visible (slice i n bytes ++ stream)).
Proof.
  revert i s line. induction n as [|n IH]; intros i s line Hh Hn; [by exists s, line|].
  destruct (lookup_lt_is_Some_2 bytes i) as [b Hb]; [lia|]. cbn [write_loop].
  erewrite bind_eq by (unfold index_get; by rewrite Nat2Z.id, Hb).
  destruct (write_character_returns s line b Hh) as (s1 & line1 & Hw & Hh1 & Hend1 & Hlog1). erewrite bind_eq by exact Hw.
  change (STATUS_OK =? STATUS_OK) with true. cbn [negb]. replace (Z.of_nat i + 1) with (Z.of_nat (S i)) by lia.
  destruct (IH (S i) s1 line1 Hh1 ltac:(lia)) as (s' & line' & Hl & Hh' & Hend & Hnil & Hlog'). exists s', line'. split; [done|]. split; [done|].
  assert (slice i (S n) bytes = b :: slice (S i) n bytes) as Hslice by (unfold slice; by rewrite (drop_S bytes b i)).
  rewrite Hslice. split.
  - intros Hlast. destruct (slice (S i) n bytes) as [|b' rest] eqn:Erest; [|by apply Hend].
    injection Hlast as ->. apply Hnil; [|by apply Hend1].
    apply (f_equal length) in Erest. rewrite length_slice in Erest by lia. cbn in Erest. lia.
  - split; [done|]. intros stream. by rewrite Hlog', Hlog1.
Qed.

(** A write request with a text of at most 240 bytes, and its text. *)
Record write_request_ok (request : list Z) : Prop := {
  write_request_size : length request = 256%nat;
  write_request_operation : operation (decode_write_request request) = TERMINAL_SERVICE_RPC_OPERATION_WRITE_BUFFER;
  write_request_length : 0 < request_length (decode_write_request request) <= TERMINAL_SERVICE_WRITE_MAX_BYTES;
}.

Definition request_text (request : list Z) : list Z :=
  take (Z.to_nat (request_length (decode_write_request request))) (request_bytes (decode_write_request request)).

Lemma handle_request_returns s line request :
  holds s line -> write_request_ok request ->
  exists s' line', terminal_handle_request ringos_syscall terminal_line_address (Some request) s = Returned STATUS_OK s' /\ holds s' line' /\
    (list.last (request_text request) = Some 10 -> line' = []) /\
    forall stream, log s' ++ lines_of (line' ++ visible stream)
      = log s ++ lines_of (line ++ visible (request_text request ++ stream)).
Proof.
  intros Hh [Hsize Hop Hlen]. unfold terminal_handle_request. rewrite Hsize, Hop.
  change (Z.of_nat 256 <? sizeof_request_header) with false. change (Z.of_nat 256 =? sizeof_write_request) with true.
  rewrite Z.eqb_refl. cbn [negb]. unfold terminal_write_buffer, TERMINAL_SERVICE_WRITE_MAX_BYTES in *.
  rewrite (proj2 (Z.eqb_neq _ 0)), (proj2 (Z.ltb_ge _ _)) by lia. cbn [orb].
  assert (Hbytes : length (request_bytes (decode_write_request request)) = 240%nat)
    by (cbn [request_bytes decode_write_request]; rewrite length_slice; [done|rewrite Hsize; unfold TERMINAL_SERVICE_WRITE_MAX_BYTES; lia]).
  destruct (write_loop_returns (request_bytes (decode_write_request request))
    (Z.to_nat (request_length (decode_write_request request))) 0 s line Hh) as (s' & line' & Hw & Hh' & Hend & _ & Hlog); [lia|].
  exists s', line'. split; [exact Hw|]. split; [done|]. split; [exact Hend|exact Hlog].
Qed.

(** Requests handled one after the other. *)
Fixpoint handle_requests (requests : list (list Z)) : M (terminal W) (list Z) :=
  match requests with
  | [] => mret []
  | request :: requests =>
      status ← terminal_handle_request ringos_syscall terminal_line_address (Some request);
      statuses ← handle_requests requests;
      mret (status :: statuses)
  end.

Lemma handle_requests_returns requests s line :
  holds s line -> Forall write_request_ok requests ->
  exists s' line', handle_requests requests s = Returned (replicate (length requests) STATUS_OK) s' /\ holds s' line' /\
    log s' ++ lines_of line' = log s ++ lines_of (line ++ visible (concat (request_text <$> requests))).
Proof.
  intros Hh Hr. enough (exists s' line', handle_requests requests s = Returned (replicate (length requests) STATUS_OK) s' /\
    holds s' line' /\ forall stream, log s' ++ lines_of (line' ++ visible stream)
      = log s ++ lines_of (line ++ visible (concat (request_text <$> requests) ++ stream))) as (s' & line' & E & Hh' & Hlog).
  { exists s', line'. split; [done|]. split; [done|]. specialize (Hlog []). by rewrite !app_nil_r in Hlog. }
  revert s line Hh. induction Hr as [|request requests Hreq Hr IH]; intros s line Hh; [by exists s, line|].
  cbn [handle_requests]. destruct (handle_request_returns s line request Hh Hreq) as (s1 & line1 & E1 & Hh1 & _ & Hlog1).
  destruct (IH s1 line1 Hh1) as (s' & line' & E & Hh' & Hlog). exists s', line'.
  split; [by erewrite bind_eq by exact E1; erewrite bind_eq by exact E|]. split; [done|]. intros stream.
  rewrite Hlog, Hlog1. cbn [fmap list_fmap concat]. by rewrite <- app_assoc.
Qed.

(** C35: The terminal service accepts any sequence of write requests of 1 to 240 bytes, and what
    it logs, followed by the line it still holds, are the lines of the concatenated texts
    without null characters and carriage returns, cut after 95 characters; how the text is
    divided into requests does not matter. *)
Theorem terminal_prints_stream requests w :
  Forall write_request_ok requests ->
  exists s' line, handle_requests requests (initial_terminal w) = Returned (replicate (length requests) STATUS_OK) s' /\
    holds s' line /\
    terminal_logged (terminal_world s') ++ entry line
      = terminal_logged w ++ lines_of (visible (concat (request_text <$> requests))).
Proof.
  intros Hr. destruct (handle_requests_returns requests (initial_terminal w) [] (initial_holds w) Hr) as (s' & line & E & Hh & Hlog).
  exists s', line. split; [done|]. split; [done|]. rewrite <- lines_of_short, Hlog; [done| |apply Hh].
  eapply Forall_impl; [|apply Hh]. by intros ? [].
Qed.
End service.

(** ** Instances *)

Fixpoint array_string (array : list Z) : list Z :=
  match array with
  | [] => []
  | c :: array => if c =? 0 then [] else c :: array_string array
  end.

(** A system that logs any string. *)
Definition sample_terminal_syscall (syscall_number : Z) (arguments : list Z) : M (terminal (list (list Z))) Z := fun s =>
  Returned STATUS_OK (with_terminal_world s (terminal_world s ++ [array_string (g_terminal_line s)])).

#[export] Instance sample_terminal_log : TerminalLog sample_terminal_syscall 0x2000.
Proof.
  refine {| terminal_logged := fun w => w |}; [done|]. intros s text rest Harr Hnz _. eexists. split; [reflexivity|].
  f_equal. f_equal. rewrite Harr. clear Harr. induction Hnz as [|c text Hc Hnz IH]; [done|]. cbn [app array_string].
  by rewrite (proj2 (Z.eqb_neq c 0) Hc), IH.
Defined.

Definition write_request (text : list Z) : list Z :=
  le_encode 8 TERMINAL_SERVICE_RPC_OPERATION_WRITE_BUFFER ++ le_encode 8 (Z.of_nat (length text)) ++ text
    ++ replicate (240 - length text) 0.

Lemma write_request_valid text : (0 < length text <= 240)%nat -> write_request_ok (write_request text).
Proof.
  intros Ht. constructor.
  - unfold write_request. rewrite !length_app, !length_le_encode, length_replicate. lia.
  - reflexivity.
  - assert (request_length (decode_write_request (write_request text)) = Z.of_nat (length text)) as ->.
    { cbn [request_length decode_write_request]. unfold write_request, slice.
      rewrite drop_app_length' by (by rewrite length_le_encode). rewrite take_app_length' by (by rewrite length_le_encode).
      rewrite le_decode_encode. apply Z.mod_small. change (256 ^ Z.of_nat 8) with (2 ^ 64). lia. }
    unfold TERMINAL_SERVICE_WRITE_MAX_BYTES. lia.
Qed.

(** [hello, world] in two requests, with a line break in the second. *)
Lemma terminal_prints_stream_witness :
  let requests := [write_request (characters "hel"); write_request (characters "lo" ++ [13; 10] ++ characters "world")] in
  exists s' line, handle_requests sample_terminal_syscall 0x2000 requests (initial_terminal []) = Returned [STATUS_OK; STATUS_OK] s' /\
    holds s' line /\
    terminal_world s' ++ entry line = [characters "hello"; characters "world"].
Proof.
  refine (terminal_prints_stream sample_terminal_syscall 0x2000
    [write_request (characters "hel"); write_request (characters "lo" ++ [13; 10] ++ characters "world")] [] _).
  constructor; [apply write_request_valid; vm_compute; split; repeat constructor|]. constructor; [apply write_request_valid; vm_compute; split; repeat constructor|constructor].
Defined.
