(* ===== verification/LoadStatus.v ===== *)
(** The messages of the loaders' status codes ([describe_pe_image_load_status],
    [describe_x64_pe64_image_load_status]), with which the platforms panic. *)
From Stdlib Require Import String.
From S2P Require Import Prelude PeImage X64PeImage.
#[local] Open Scope string_scope.

(** The last [return], for a value outside the enumeration, is not reached. *)
Definition describe_pe_image_load_status (status : pe_image_load_status) : string :=
  match status with
  | PE_IMAGE_LOAD_STATUS_OK => "PE image loaded successfully"
  | PE_IMAGE_LOAD_STATUS_INVALID_ARGUMENT => "PE image loader received an invalid argument"
  | PE_IMAGE_LOAD_STATUS_MISSING_DOS_HEADER => "PE image is missing the DOS header"
  | PE_IMAGE_LOAD_STATUS_INVALID_DOS_HEADER => "PE image has an invalid DOS header"
  | PE_IMAGE_LOAD_STATUS_MISSING_NT_HEADERS => "PE image is missing the NT headers"
  | PE_IMAGE_LOAD_STATUS_INVALID_NT_SIGNATURE => "PE image has an invalid NT signature"
  | PE_IMAGE_LOAD_STATUS_WRONG_MACHINE => "PE image targets the wrong machine"
  | PE_IMAGE_LOAD_STATUS_MISSING_SECTIONS => "PE image does not define any sections"
  | PE_IMAGE_LOAD_STATUS_UNSUPPORTED_OPTIONAL_HEADER => "PE image has an unsupported optional header size"
  | PE_IMAGE_LOAD_STATUS_UNSUPPORTED_MAGIC => "PE image is not PE32+"
  | PE_IMAGE_LOAD_STATUS_UNEXPECTED_IMAGE_BASE => "PE image uses an unexpected image base"
  | PE_IMAGE_LOAD_STATUS_UNSUPPORTED_ALIGNMENT => "PE image uses an unsupported alignment"
  | PE_IMAGE_LOAD_STATUS_IMAGE_TOO_LARGE => "PE image does not fit in the initial user region"
  | PE_IMAGE_LOAD_STATUS_HEADERS_OUT_OF_RANGE => "PE image headers are out of range"
  | PE_IMAGE_LOAD_STATUS_ENTRY_POINT_OUT_OF_RANGE => "PE image entry point is out of range"
  | PE_IMAGE_LOAD_STATUS_INVALID_IMPORT_DIRECTORY => "PE image has an invalid import directory"
  | PE_IMAGE_LOAD_STATUS_UNEXPECTED_IMPORTS => "PE image unexpectedly imports system libraries"
  | PE_IMAGE_LOAD_STATUS_UNEXPECTED_RELOCATIONS => "PE image unexpectedly requires relocations"
  | PE_IMAGE_LOAD_STATUS_TRUNCATED_SECTION_TABLE => "PE image section table is truncated"
  | PE_IMAGE_LOAD_STATUS_SECTION_OUT_OF_RANGE => "PE image section exceeds the declared image size"
  | PE_IMAGE_LOAD_STATUS_SECTION_DATA_OUT_OF_RANGE => "PE image section data is out of range"
  end.

Definition describe_x64_pe64_image_load_status (status : x64_pe64_image_load_status) : string :=
  match status with
  | X64_PE64_IMAGE_LOAD_STATUS_OK => "x64 PE64 image loaded successfully"
  | X64_PE64_IMAGE_LOAD_STATUS_INVALID_ARGUMENT => "x64 PE64 image loader received an invalid argument"
  | X64_PE64_IMAGE_LOAD_STATUS_MISSING_DOS_HEADER => "x64 PE64 image is missing the DOS header"
  | X64_PE64_IMAGE_LOAD_STATUS_INVALID_DOS_HEADER => "x64 PE64 image has an invalid DOS header"
  | X64_PE64_IMAGE_LOAD_STATUS_MISSING_NT_HEADERS => "x64 PE64 image is missing the NT headers"
  | X64_PE64_IMAGE_LOAD_STATUS_INVALID_NT_SIGNATURE => "x64 PE64 image has an invalid NT signature"
  | X64_PE64_IMAGE_LOAD_STATUS_WRONG_MACHINE => "x64 PE64 image targets the wrong machine"
  | X64_PE64_IMAGE_LOAD_STATUS_MISSING_SECTIONS => "x64 PE64 image does not define any sections"
  | X64_PE64_IMAGE_LOAD_STATUS_UNSUPPORTED_OPTIONAL_HEADER => "x64 PE64 image has an unsupported optional header size"
  | X64_PE64_IMAGE_LOAD_STATUS_UNSUPPORTED_MAGIC => "x64 PE64 image is not PE32+"
  | X64_PE64_IMAGE_LOAD_STATUS_UNEXPECTED_IMAGE_BASE => "x64 PE64 image uses an unexpected image base"
  | X64_PE64_IMAGE_LOAD_STATUS_UNSUPPORTED_ALIGNMENT => "x64 PE64 image must use 4 KiB section alignment"
  | X64_PE64_IMAGE_LOAD_STATUS_IMAGE_TOO_LARGE => "x64 PE64 image does not fit in the initial user region"
  | X64_PE64_IMAGE_LOAD_STATUS_HEADERS_OUT_OF_RANGE => "x64 PE64 image headers are out of range"
  | X64_PE64_IMAGE_LOAD_STATUS_ENTRY_POINT_OUT_OF_RANGE => "x64 PE64 image entry point is out of range"
  | X64_PE64_IMAGE_LOAD_STATUS_INVALID_IMPORT_DIRECTORY => "x64 PE64 image has an invalid import directory"
  | X64_PE64_IMAGE_LOAD_STATUS_UNEXPECTED_IMPORTS => "x64 PE64 image unexpectedly imports system libraries"
  | X64_PE64_IMAGE_LOAD_STATUS_UNEXPECTED_RELOCATIONS => "x64 PE64 image unexpectedly requires relocations"
  | X64_PE64_IMAGE_LOAD_STATUS_TRUNCATED_SECTION_TABLE => "x64 PE64 image section table is truncated"
  | X64_PE64_IMAGE_LOAD_STATUS_SECTION_OUT_OF_RANGE => "x64 PE64 image section exceeds the declared image size"
  | X64_PE64_IMAGE_LOAD_STATUS_SECTION_DATA_OUT_OF_RANGE => "x64 PE64 image section data is out of range"
  | X64_PE64_IMAGE_LOAD_STATUS_IMPORT_TABLE_OUT_OF_RANGE => "x64 PE64 image import table is out of range"
  | X64_PE64_IMAGE_LOAD_STATUS_IMPORT_NAME_OUT_OF_RANGE => "x64 PE64 image import name is out of range"
  | X64_PE64_IMAGE_LOAD_STATUS_UNSUPPORTED_IMPORT => "x64 PE64 image imports an unsupported Windows symbol"
  | X64_PE64_IMAGE_LOAD_STATUS_UNSUPPORTED_IMPORT_ORDINAL => "x64 PE64 image imports by ordinal, which is not supported yet"
  | X64_PE64_IMAGE_LOAD_STATUS_IMPORT_STUB_OUT_OF_RANGE => "x64 PE64 image import thunks do not fit in the initial user region"
  end.

(** ** Images a loader refuses *)

(** On some memory of the size the platform gives it, the loader reports a
    failure, and [message] is the text of that failure. *)
Definition pe_image_refused (file : list Z) (config : pe_image_load_config) (message : string) : Prop :=
  exists region st result l, Z.of_nat (length region) = loaded_image_size config /\
    load_pe32_plus_image (Some file) (file_size file) true config true region = Returned (st, result) l /\
    st <> PE_IMAGE_LOAD_STATUS_OK /\ message = describe_pe_image_load_status st.

Definition x64_image_refused (file : list Z) (base size : Z) (message : string) : Prop :=
  exists region st info l, Z.of_nat (length region) = size /\
    load_x64_pe64_image (Some file) (file_size file) base true size None true region = Returned (st, info) l /\
    st <> X64_PE64_IMAGE_LOAD_STATUS_OK /\ message = describe_x64_pe64_image_load_status st.

Section refused.
Context (file : list Z).
Hypothesis Hbytes : Forall u8_ok file.
Hypothesis Hsize : u64_ok (file_size file).

Lemma well_formed_not_refused config message :
  (well_formed_headers file config = true -> Forall (section_data_fits (loaded_image_size config)) (image_sections file)) ->
  well_formed_image file config = true -> ~ pe_image_refused file config message.
Proof.
  intros Hf Hw (region & st & result & l & Hn & E & Hst & _).
  pose proof (load_pe32_plus_image_twp file config Hbytes Hsize region Hn Hf) as H. unfold twp in H. rewrite E in H.
  destruct H as [_ H]. rewrite Hw in H. destruct H as [[= -> _] _]. by apply Hst.
Qed.

Lemma without_imports_not_refused base size message :
  (well_formed_headers file (x64_load_config base size) = true -> Forall (section_data_fits size) (image_sections file)) ->
  well_formed_image file (x64_load_config base size) = true -> directory_virtual_address (import_directory_of file) = 0 ->
  ~ x64_image_refused file base size message.
Proof.
  intros Hf Hw Hno (region & st & info & l & <- & E & Hst & _).
  pose proof (load_without_imports file base region None Hbytes Hsize Hf Hw Hno) as H. unfold twp in H. rewrite E in H.
  by apply Hst.
Qed.
End refused.
