(* ===== verification/PlatformMemory.v ===== *)
(** What the two platforms share: the memory they build their translation tables
    in (64-bit words of host memory, [memset], counted loops that fill a table),
    embedded images, and the address spaces they fill in. *)
From Stdlib Require Import String.
From S2P Require Import Prelude AddressSpace UserMemory KernelObjectPool RuntimeTypes.
#[local] Open Scope Z_scope.

(** The characters of a string literal, without the null character. *)
Definition char_codes (s : string) : list Z := (fun c => Z.of_nat (Ascii.nat_of_ascii c)) <$> list_ascii_of_string s.

(** * Words *)

Definition read_u64 (m : host_memory) (a : Z) : Z := le_decode (host_bytes m a 8).

Definition write_u64 (m : host_memory) (a v : Z) : host_memory := store_bytes m a (le_encode 8 v).

(** [for (i = first; i < first + n; ++i) body(i)]. *)
Fixpoint for_range {A} (n : nat) (i : Z) (body : Z -> A -> A) (s : A) : A :=
  match n with
  | O => s
  | S n => for_range n (i + 1) body (body i s)
  end.

(** [memset] of [klibc/memory.cpp]. *)
Definition memset (m : host_memory) (destination value length : Z) : host_memory :=
  for_range (Z.to_nat length) 0 (fun index m => poke m (destination + index) (u8 value)) m.

(** [table.entries[index] = value]. *)
Definition write_entry (m : host_memory) (table index value : Z) : host_memory := write_u64 m (table + index * 8) value.

(** * Where two memories agree *)

(** [m'] is [m] but for the bytes from [lo] up to [hi]. *)
Definition changes_in (lo hi : Z) (m m' : host_memory) : Prop := forall y, ~ (lo <= y < hi) -> m' y = m y.

Definition bytes_ok (m : host_memory) : Prop := forall y, u8_ok (m y).

Lemma changes_in_refl lo hi m : changes_in lo hi m m.
Proof. done. Qed.

Lemma changes_in_trans lo hi m m1 m2 : changes_in lo hi m m1 -> changes_in lo hi m1 m2 -> changes_in lo hi m m2.
Proof. intros H1 H2 y Hy. by rewrite H2, H1. Qed.

Lemma changes_in_sub lo hi lo' hi' m m' : changes_in lo hi m m' -> lo' <= lo -> hi <= hi' -> changes_in lo' hi' m m'.
Proof. intros H Hl Hh y Hy. apply H. intros Hy'. apply Hy. lia. Qed.

Lemma store_bytes_changes m a l lo hi :
  lo <= a -> a + Z.of_nat (length l) <= hi -> changes_in lo hi m (store_bytes m a l).
Proof. intros ? ? y Hy. apply store_bytes_outside. lia. Qed.

Lemma write_u64_changes m a v lo hi : lo <= a -> a + 8 <= hi -> changes_in lo hi m (write_u64 m a v).
Proof. intros. apply store_bytes_changes; [done|]. by rewrite length_le_encode. Qed.

Lemma for_range_changes n i body m lo hi :
  (forall j m, i <= j < i + Z.of_nat n -> changes_in lo hi m (body j m)) -> changes_in lo hi m (for_range n i body m).
Proof.
  revert i m. induction n as [|n IH]; intros i m Hb; cbn [for_range]; [apply changes_in_refl|].
  apply (changes_in_trans _ _ _ (body i m)); [apply Hb; lia|]. apply IH. intros j m' Hj. apply Hb. lia.
Qed.

Lemma host_bytes_agree m m' a n :
  (forall y, a <= y < a + Z.of_nat n -> m' y = m y) -> host_bytes m' a n = host_bytes m a n.
Proof.
  intros H. unfold host_bytes. apply list_fmap_ext. intros i k Hk. apply lookup_seq in Hk as [-> Hk]. apply H. lia.
Qed.

Lemma read_u64_unchanged lo hi m m' a :
  changes_in lo hi m m' -> a + 8 <= lo \/ hi <= a -> read_u64 m' a = read_u64 m a.
Proof. intros H Ha. unfold read_u64. f_equal. apply host_bytes_agree. intros y Hy. apply H. lia. Qed.

Lemma host_bytes_stored m a l : host_bytes (store_bytes m a l) a (length l) = l.
Proof.
  apply list_eq. intros i. unfold host_bytes. rewrite list_lookup_fmap.
  destruct (decide (i < length l)%nat) as [Hi|Hi].
  - rewrite lookup_seq_lt by done. cbn. destruct (lookup_lt_is_Some_2 l i Hi) as [c Hc]. rewrite Hc. f_equal.
    apply store_bytes_inside; [lia|]. by replace (Z.to_nat (a + Z.of_nat i - a)) with i by lia.
  - rewrite lookup_seq_ge by lia. cbn. symmetry. apply lookup_ge_None. lia.
Qed.

Lemma host_bytes_lookup m x n i : host_bytes m x n !! i = if decide (i < n)%nat then Some (m (x + Z.of_nat i)) else None.
Proof.
  unfold host_bytes. rewrite list_lookup_fmap. case_decide; [by rewrite lookup_seq_lt|by rewrite lookup_seq_ge by lia].
Qed.

Lemma length_host_bytes m a n : length (host_bytes m a n) = n.
Proof. unfold host_bytes. by rewrite length_fmap, length_seq. Qed.

(** The bytes of an object after a part of it is stored. *)
Lemma host_bytes_overwritten m x k l n :
  0 <= k -> (Z.to_nat k + length l <= n)%nat ->
  host_bytes (store_bytes m (x + k) l) x n
  = take (Z.to_nat k) (host_bytes m x n) ++ l ++ drop (Z.to_nat k + length l) (host_bytes m x n).
Proof.
  intros Hk Hl. apply list_eq. intros i. rewrite host_bytes_lookup.
  destruct (decide (i < Z.to_nat k)%nat) as [Hlo|Hlo].
  { rewrite lookup_app_l by (rewrite length_take, length_host_bytes; lia).
    rewrite lookup_take_lt, host_bytes_lookup, !decide_True by lia. by rewrite store_bytes_outside by lia. }
  rewrite lookup_app_r by (rewrite length_take, length_host_bytes; lia).
  rewrite length_take, length_host_bytes, Nat.min_l by lia.
  destruct (decide (i < Z.to_nat k + length l)%nat) as [Hmid|Hmid].
  { rewrite lookup_app_l, decide_True by lia. destruct (lookup_lt_is_Some_2 l (i - Z.to_nat k)) as [c Hc]; [lia|].
    rewrite Hc. f_equal. apply store_bytes_inside; [lia|].
    by replace (Z.to_nat (x + Z.of_nat i - (x + k))) with (i - Z.to_nat k)%nat by lia. }
  rewrite lookup_app_r, lookup_drop, host_bytes_lookup by lia.
  replace (Z.to_nat k + length l + (i - Z.to_nat k - length l))%nat with i by lia.
  destruct (decide (i < n)%nat); [|done]. by rewrite store_bytes_outside by lia.
Qed.

Lemma read_write_u64 m a v : u64_ok v -> read_u64 (write_u64 m a v) a = v.
Proof.
  intros Hv. unfold read_u64, write_u64. pose proof (host_bytes_stored m a (le_encode 8 v)) as H.
  rewrite length_le_encode in H. rewrite H, le_decode_encode. apply Z.mod_small. words.
Qed.

Lemma read_write_u64_other m a b v : b + 8 <= a \/ a + 8 <= b -> read_u64 (write_u64 m a v) b = read_u64 m b.
Proof. intros Hab. apply (read_u64_unchanged a (a + 8)); [apply write_u64_changes; lia|lia]. Qed.

(** * Loops over a table *)

(** A loop that writes the entries [i], ..., [i + n - 1] of a table of words. *)
Lemma fill_entry n i table f m j :
  0 <= i -> 0 <= j -> (forall k, i <= k < i + Z.of_nat n -> u64_ok (f k)) ->
  read_u64 (for_range n i (fun k m => write_u64 m (table + k * 8) (f k)) m) (table + j * 8)
  = if (i <=? j) && (j <? i + Z.of_nat n) then f j else read_u64 m (table + j * 8).
Proof.
  revert i m. induction n as [|n IH]; intros i m Hi Hj Hf; cbn [for_range].
  - destruct (Z.leb_spec i j), (Z.ltb_spec j (i + Z.of_nat 0)); cbn [andb]; try done. lia.
  - rewrite IH by (first [lia|intros; apply Hf; lia]).
    destruct (Z.leb_spec (i + 1) j), (Z.leb_spec i j), (Z.ltb_spec j (i + 1 + Z.of_nat n)), (Z.ltb_spec j (i + Z.of_nat (S n)));
      cbn [andb]; try lia; try done; try (apply read_write_u64_other; lia).
    assert (j = i) as -> by lia. apply read_write_u64, Hf. lia.
Qed.

Lemma fill_changes n i table f m lo hi :
  lo <= table + i * 8 -> table + (i + Z.of_nat n) * 8 <= hi ->
  changes_in lo hi m (for_range n i (fun k m => write_u64 m (table + k * 8) (f k)) m).
Proof. intros. apply for_range_changes. intros. apply write_u64_changes; lia. Qed.

Lemma memset_loop_lookup n i m d v y :
  for_range n i (fun index m => poke m (d + index) v) m y
  = if (d + i <=? y) && (y <? d + i + Z.of_nat n) then v else m y.
Proof.
  revert i m. induction n as [|n IH]; intros i m; cbn [for_range].
  - destruct (Z.leb_spec (d + i) y), (Z.ltb_spec y (d + i + Z.of_nat 0)); cbn [andb]; try done. lia.
  - rewrite IH. unfold poke.
    destruct (Z.eqb_spec y (d + i)), (Z.leb_spec (d + (i + 1)) y), (Z.leb_spec (d + i) y),
      (Z.ltb_spec y (d + (i + 1) + Z.of_nat n)), (Z.ltb_spec y (d + i + Z.of_nat (S n))); cbn [andb]; try done; lia.
Qed.

Lemma memset_lookup m d v n y : 0 <= n -> memset m d v n y = if (d <=? y) && (y <? d + n) then u8 v else m y.
Proof. intros Hn. unfold memset. rewrite memset_loop_lookup, Z.add_0_r, Z2Nat.id by done. done. Qed.

Lemma memset_changes m d v n : 0 <= n -> changes_in d (d + n) m (memset m d v n).
Proof.
  intros Hn y Hy. rewrite memset_lookup by done.
  destruct (Z.leb_spec d y), (Z.ltb_spec y (d + n)); cbn [andb]; try done. lia.
Qed.

Lemma read_u64_zero m a : (forall y, a <= y < a + 8 -> m y = 0) -> read_u64 m a = 0.
Proof.
  intros H. unfold read_u64. rewrite (host_bytes_agree (fun _ => 0) m) by (intros; by apply H). reflexivity.
Qed.

Lemma read_u64_memset m d n a : 0 <= n -> d <= a -> a + 8 <= d + n -> read_u64 (memset m d 0 n) a = 0.
Proof.
  intros. apply read_u64_zero. intros y Hy. rewrite memset_lookup by done.
  by rewrite (proj2 (Z.leb_le _ _)), (proj2 (Z.ltb_lt _ _)) by lia.
Qed.

(** Reads a word behind the writes that do not meet it. *)
Ltac skip_writes :=
  repeat first
    [ rewrite read_write_u64_other by lia
    | match goal with
      | |- context [read_u64 (for_range ?n ?i ?body ?m) ?a] =>
          rewrite (read_u64_unchanged _ _ m (for_range n i body m) a) by first [apply fill_changes; lia | lia]
      end ].

(** * Entries: an aligned address and flags below it *)

(** The low [n] bits of a multiple of [2^n] are free for flags. *)
Lemma aligned_land n a f : 0 <= n -> a mod 2 ^ n = 0 -> 0 <= f < 2 ^ n -> Z.land a f = 0.
Proof.
  intros Hn Ha Hf. apply Z.bits_inj'. intros i Hi. rewrite Z.land_spec, Z.bits_0.
  destruct (Z.lt_ge_cases i n).
  - apply andb_false_intro1. rewrite <- (Z.mod_pow2_bits_low a n i), Ha by lia. apply Z.bits_0.
  - apply andb_false_intro2. by apply (testbit_high n).
Qed.

Lemma aligned_lor n a f : 0 <= n -> a mod 2 ^ n = 0 -> 0 <= f < 2 ^ n -> Z.lor a f = a + f.
Proof. intros. pose proof (Z.add_lor_land a f) as H'. rewrite (aligned_land n) in H' by done. lia. Qed.

(** Taking an entry apart. *)
Lemma aligned_testbit n a f i :
  0 <= i < n -> a mod 2 ^ n = 0 -> 0 <= f < 2 ^ n -> Z.testbit (a + f) i = Z.testbit f i.
Proof.
  intros Hi Ha Hf. rewrite <- (aligned_lor n) by (done || lia). rewrite Z.lor_spec.
  rewrite <- (Z.mod_pow2_bits_low a n i), Ha by lia. by rewrite Z.bits_0.
Qed.

(** A mask of the bits [n], ..., [w - 1] keeps an aligned address below [2^w]. *)
Lemma masked_address n w a f :
  0 <= n <= w -> 0 <= a < 2 ^ w -> a mod 2 ^ n = 0 -> 0 <= f < 2 ^ n -> Z.land (a + f) (Z.ones w - Z.ones n) = a.
Proof.
  intros Hn Hw Ha Hf. rewrite <- (aligned_lor n) by (done || lia).
  assert (Z.ones w - Z.ones n = Z.ldiff (Z.ones w) (Z.ones n)) as ->.
  { rewrite Z.sub_nocarry_ldiff; [done|]. apply Z.bits_inj'. intros i Hi. rewrite Z.ldiff_spec, Z.bits_0.
    rewrite !Z.testbit_ones_nonneg by lia. destruct (Z.ltb_spec i n), (Z.ltb_spec i w); try done. lia. }
  apply Z.bits_inj'. intros i Hi. rewrite Z.land_spec, Z.lor_spec, Z.ldiff_spec, !Z.testbit_ones_nonneg by lia.
  destruct (Z.ltb_spec i n) as [Hlt|Hge].
  - rewrite <- (Z.mod_pow2_bits_low a n i), Ha, Z.bits_0 by lia. cbn. by rewrite !andb_false_r.
  - rewrite (testbit_high n f) by lia. rewrite orb_false_r. destruct (Z.ltb_spec i w); cbn; [by rewrite andb_true_r|].
    rewrite (testbit_high w a) by lia. done.
Qed.

(** * Images and configurations *)

(** An image the linker has embedded: its two symbols and the bytes between. *)
Record embedded_image := { image_start : Z; image_end : Z; image_contents : list Z }.

(** A configuration that [memset] has cleared. *)
Definition zero_configuration : initial_process_configuration :=
  {| initial_metadata :=
       {| guest_architecture := PROCESS_GUEST_ARCHITECTURE_UNKNOWN; personality := PROCESS_PERSONALITY_UNKNOWN;
          execution_backend := PROCESS_EXECUTION_BACKEND_UNKNOWN |};
     initial_address_space := empty_address_space;
     initial_thread_context := zero_context |}.

(** * Building address spaces *)

Definition rooted (root : Z) : address_space := {| arch_root_table := root; mapping_count := 0; mappings := replicate 8 (new_mapping 0 0 0) |}.

Lemma rooted_wf root : address_space_wf (rooted root).
Proof. constructor; [done|unfold USER_RUNTIME_MAX_ADDRESS_SPACE_MAPPINGS; cbn; lia|constructor|done]. Qed.

Lemma add_mapping_root a user host size : arch_root_table (snd (add_address_space_mapping a user host size)) = arch_root_table a.
Proof. unfold add_address_space_mapping. by repeat case_match. Qed.

Lemma length_active a : address_space_wf a -> Z.of_nat (length (active a)) = mapping_count a.
Proof.
  intros Hw. pose proof (as_length a Hw). pose proof (as_count a Hw). unfold active, USER_RUNTIME_MAX_ADDRESS_SPACE_MAPPINGS in *.
  rewrite length_take. lia.
Qed.

Lemma add_mapping_succeeds a user host size :
  address_space_wf a -> u64_ok user -> u64_ok host -> u64_ok size ->
  0 < size -> user + size <= UINTPTR_MAX /\ host + size <= UINTPTR_MAX ->
  (length (active a) < 8)%nat -> Forall (disjoint_mappings (new_mapping user host size)) (active a) ->
  exists a', add_address_space_mapping a user host size = (true, a') /\ address_space_wf a' /\
             active a' = active a ++ [new_mapping user host size] /\ arch_root_table a' = arch_root_table a.
Proof.
  intros Hw Hu Hh Hs Hpos [Hul Hhl] Hroom Hd. pose proof (add_mapping_spec a Hw user host size Hu Hh Hs) as H.
  pose proof (add_mapping_root a user host size) as R. pose proof (length_active a Hw).
  destruct (add_address_space_mapping a user host size) as [ok a'] eqn:E. destruct H as (Hok & Hw' & Ha').
  assert (ok = true) as ->.
  { apply Hok. split; [done|]. split; [done|]. split; [done|]. split; [unfold USER_RUNTIME_MAX_ADDRESS_SPACE_MAPPINGS; lia|done]. }
  by exists a'.
Qed.
