(* ===== verification/X64Platform.v ===== *)
(** The x86-64 platform, [arch/x64/x64_initial_user_runtime_platform.cpp]: the
    page tables and images of the first processes, built in host memory, which
    the processor maps one to one while the kernel starts; and the registers a
    user thread starts with. *)
From Stdlib Require Import String.
From S2P Require Import Prelude AddressSpace UserMemory KernelObjectPool RuntimeTypes UserRuntime Syscalls PeImage X64PeImage LoadStatus PlatformMemory.
#[local] Open Scope Z_scope.

Definition X64_LOW_IDENTITY_SIZE : Z := 0x400000.
Definition X64_LOW_PAGE_TABLE_COUNT : Z := X64_LOW_IDENTITY_SIZE / 0x200000.

Definition PAGE_SIZE : Z := X64_USER_IMAGE_PAGE_SIZE.
Definition USER_IMAGE_SIZE : Z := X64_USER_IMAGE_PAGE_COUNT * X64_USER_IMAGE_PAGE_SIZE.
Definition WINDOWS_X64_STACK_HOME_SPACE_SIZE : Z := 32.

Definition PAGE_PRESENT : Z := bit 0.
Definition PAGE_WRITABLE : Z := bit 1.
Definition PAGE_USER : Z := bit 2.

Definition USER_THREAD_INITIAL_FLAGS : Z := 0x2.

(** ** [x64_process_storage]: the offsets of its members, and of its elements in
    the platform object *)

Definition pml4 (storage : Z) : Z := storage.
Definition pdpt (storage : Z) : Z := storage + 0x1000.
Definition page_directory (storage : Z) : Z := storage + 0x2000.
Definition low_page_tables (storage table_index : Z) : Z := storage + 0x3000 + table_index * 0x1000.
Definition user_page_table (storage : Z) : Z := storage + 0x5000.
Definition user_image_pages (storage page_index : Z) : Z := storage + 0x6000 + page_index * 0x1000.
Definition user_stack_page (storage : Z) : Z := storage + 0xE000.
Definition sizeof_process_storage : Z := 0xF000.

Definition m_process_storage (platform index : Z) : Z := platform + index * sizeof_process_storage.
(** [m_cpu_local] follows the two storages; the object is a multiple of a page. *)
Definition sizeof_platform : Z := 2 * sizeof_process_storage + 0x1000.

Definition make_table_entry (address flags : Z) : Z := Z.lor (Z.land address (not64 0xFFF)) flags.

Definition initialize_low_identity_mappings (m : host_memory) (storage : Z) : host_memory :=
  let m := write_entry m (pml4 storage) 0
             (make_table_entry (pdpt storage) (Z.lor (Z.lor PAGE_PRESENT PAGE_WRITABLE) PAGE_USER)) in
  let m := write_entry m (pdpt storage) 0
             (make_table_entry (page_directory storage) (Z.lor (Z.lor PAGE_PRESENT PAGE_WRITABLE) PAGE_USER)) in
  for_range (Z.to_nat X64_LOW_PAGE_TABLE_COUNT) 0 (fun table_index m =>
    let table_base_address := table_index * 0x200000 in
    let m := for_range 512 0 (fun entry_index m =>
               let mapped_address := table_base_address + entry_index * PAGE_SIZE in
               write_entry m (low_page_tables storage table_index) entry_index
                 (make_table_entry mapped_address (Z.lor PAGE_PRESENT PAGE_WRITABLE))) m in
    write_entry m (page_directory storage) table_index
      (make_table_entry (low_page_tables storage table_index) (Z.lor PAGE_PRESENT PAGE_WRITABLE))) m.

Definition initialize_user_region (m : host_memory) (storage : Z) : host_memory :=
  let m := write_entry m (page_directory storage) 2
             (make_table_entry (user_page_table storage) (Z.lor (Z.lor PAGE_PRESENT PAGE_WRITABLE) PAGE_USER)) in
  let m := for_range (Z.to_nat X64_USER_IMAGE_PAGE_COUNT) 0 (fun page_index m =>
             write_entry m (user_page_table storage) page_index
               (make_table_entry (user_image_pages storage page_index) (Z.lor (Z.lor PAGE_PRESENT PAGE_WRITABLE) PAGE_USER))) m in
  write_entry m (user_page_table storage) X64_USER_IMAGE_PAGE_COUNT
    (make_table_entry (user_stack_page storage) (Z.lor (Z.lor PAGE_PRESENT PAGE_WRITABLE) PAGE_USER)).

Definition initialize_process_storage (m : host_memory) (storage : Z) : host_memory :=
  let m := memset m storage 0 sizeof_process_storage in
  let m := initialize_low_identity_mappings m storage in
  initialize_user_region m storage.

Definition has_embedded_image (image : embedded_image) : bool :=
  negb (image_start image =? 0) && (image_start image <? image_end image).

(** The buffer the image is loaded into is the part of host memory from the
    first image page that has the size given to the loader. *)
Definition initialize_user_image (storage : Z) (image : embedded_image) : K (may_panic Z) :=
  let image_size := u64 (image_end image - image_start image) in
  let loaded_image := user_image_pages storage 0 in
  k ← get;
  match load_x64_pe64_image (Some (image_contents image)) image_size X64_USER_IMAGE_VIRTUAL_ADDRESS true X64_USER_REGION_SIZE
          None true (host_bytes (host k) loaded_image (Z.to_nat X64_USER_REGION_SIZE)) with
  | Returned (load_status, image_info) loaded =>
      set_host (store_bytes (host k) loaded_image loaded);;
      if decide (load_status <> X64_PE64_IMAGE_LOAD_STATUS_OK)
      then mret (panics (describe_x64_pe64_image_load_status load_status))
      else
        k ← get;
        set_host (write_u64 (host k) (user_stack_page storage + PAGE_SIZE - 8) 0);;
        match image_info with
        | Some info => mret (continues (info_entry_point info))
        | None => undefined null_dereference
        end
  | Undefined u => undefined u
  | OutOfFuel => out_of_fuel
  end.

(** [process_configuration] is zero but for the root table before the mappings
    are added. *)
Definition populate_bootstrap_for_process (storage : Z) (image : embedded_image) : K (may_panic initial_process_configuration) :=
  k ← get;
  set_host (initialize_process_storage (host k) storage);;
  loaded ← initialize_user_image storage image;
  match loaded with
  | panics m => mret (panics m)
  | continues entry_point =>
      let address_space_info := {| arch_root_table := pml4 storage; mapping_count := 0;
                                   mappings := replicate 8 (new_mapping 0 0 0) |} in
      let '(image_added, address_space_info) :=
        add_address_space_mapping address_space_info X64_USER_IMAGE_VIRTUAL_ADDRESS (user_image_pages storage 0) USER_IMAGE_SIZE in
      let '(added, address_space_info) :=
        if image_added
        then add_address_space_mapping address_space_info X64_USER_STACK_VIRTUAL_ADDRESS (user_stack_page storage) PAGE_SIZE
        else (false, address_space_info) in
      if negb added then mret (panics "failed to initialize x64 bootstrap mappings")
      else
        mret (continues
          {| initial_metadata :=
               {| guest_architecture := PROCESS_GUEST_ARCHITECTURE_X64; personality := PROCESS_PERSONALITY_RINGOS;
                  execution_backend := PROCESS_EXECUTION_BACKEND_NATIVE |};
             initial_address_space := address_space_info;
             initial_thread_context :=
               {| context_instruction_pointer := entry_point;
                  context_stack_pointer := X64_USER_STACK_VIRTUAL_ADDRESS + PAGE_SIZE - 8 - WINDOWS_X64_STACK_HOME_SPACE_SIZE;
                  context_flags := USER_THREAD_INITIAL_FLAGS; context_argument0 := 0 |} |})
  end.

(** [platform]: the address of the platform object. *)
Definition initialize (platform : Z) (terminal_service_image test_app_image : embedded_image)
    : K (may_panic initial_user_runtime_bootstrap) :=
  let has_terminal_service := has_embedded_image terminal_service_image in
  if has_terminal_service then
    terminal ← populate_bootstrap_for_process (m_process_storage platform 0) terminal_service_image;
    match terminal with
    | panics m => mret (panics m)
    | continues terminal =>
        client ← populate_bootstrap_for_process (m_process_storage platform 1) test_app_image;
        match client with
        | panics m => mret (panics m)
        | continues client =>
            mret (continues {| process_count := 2; initial_process_index := 0; initial_processes := [terminal; client] |})
        end
    end
  else
    client ← populate_bootstrap_for_process (m_process_storage platform 0) test_app_image;
    match client with
    | panics m => mret (panics m)
    | continues client =>
        mret (continues {| process_count := 1; initial_process_index := 0; initial_processes := [client; zero_configuration] |})
    end.

(** ** The processor *)

Definition MSR_EFER : Z := 0xC0000080.
Definition MSR_STAR : Z := 0xC0000081.
Definition MSR_LSTAR : Z := 0xC0000082.
Definition MSR_FMASK : Z := 0xC0000084.
Definition MSR_GS_BASE : Z := 0xC0000101.
Definition MSR_KERNEL_GS_BASE : Z := 0xC0000102.

Definition EFER_SCE : Z := bit 0.
Definition KERNEL_CODE_SELECTOR : Z := 0x08.
Definition USER_COMPAT_CODE_SELECTOR : Z := 0x18.

(** The model specific registers, CR3 and [m_cpu_local]. *)
Record x64_cpu := {
  msrs : Z -> Z;
  cr3 : Z;
  cpu_user_stack_pointer : Z;
  cpu_kernel_stack_pointer : Z;
}.

(** [wrmsr] takes the two halves of the value. *)
Definition write_msr (msr value : Z) : M x64_cpu unit :=
  let low_value := u32 (Z.land value 0xFFFFFFFF) in
  let high_value := u32 (Z.shiftr value 32) in
  modify (fun c => {| msrs := fun r => if r =? msr then Z.lor (Z.shiftl high_value 32) low_value else msrs c r;
                      cr3 := cr3 c; cpu_user_stack_pointer := cpu_user_stack_pointer c;
                      cpu_kernel_stack_pointer := cpu_kernel_stack_pointer c |}).

(** [rdmsr] returns the two halves. *)
Definition read_msr (msr : Z) : M x64_cpu Z :=
  c ← get;
  let low_value := u32 (msrs c msr) in
  let high_value := u32 (Z.shiftr (msrs c msr) 32) in
  mret (Z.lor (Z.shiftl high_value 32) low_value).

(** The addresses of [x64_syscall_entry] and of [m_cpu_local]. *)
Definition initialize_syscall_msrs (syscall_entry cpu_local : Z) : M x64_cpu unit :=
  efer ← read_msr MSR_EFER;
  let efer_value := Z.lor efer EFER_SCE in
  let star_value := Z.lor (Z.shiftl USER_COMPAT_CODE_SELECTOR 48) (Z.shiftl KERNEL_CODE_SELECTOR 32) in
  write_msr MSR_EFER efer_value;;
  write_msr MSR_STAR star_value;;
  write_msr MSR_LSTAR syscall_entry;;
  write_msr MSR_FMASK 0x200;;
  write_msr MSR_GS_BASE 0;;
  write_msr MSR_KERNEL_GS_BASE cpu_local.

(** A thread, and the top of its kernel stack. *)
Definition prepare_user_thread (current_thread : option (thread * Z)) : M x64_cpu unit :=
  match current_thread with
  | None => mret tt
  | Some (t, kernel_stack_top) =>
      modify (fun c => {| msrs := msrs c; cr3 := cr3 c;
                          cpu_user_stack_pointer := context_stack_pointer (m_user_context t);
                          cpu_kernel_stack_pointer := kernel_stack_top |})
  end.

Definition arch_activate_process_address_space (process_context : option process) : M x64_cpu unit :=
  match process_context with
  | None => mret tt
  | Some p =>
      let root_table := arch_root_table (m_address_space p) in
      if root_table =? 0 then mret tt
      else modify (fun c => {| msrs := msrs c; cr3 := root_table; cpu_user_stack_pointer := cpu_user_stack_pointer c;
                               cpu_kernel_stack_pointer := cpu_kernel_stack_pointer c |})
  end.

Definition prepare_thread_launch (syscall_entry cpu_local : Z) (initial_thread : thread * Z) : M x64_cpu unit :=
  prepare_user_thread (Some initial_thread);;
  initialize_syscall_msrs syscall_entry cpu_local.

(** ** The entry of the first thread *)

Definition X64_RUNTIME_READY : list Z := char_codes "x64 initial user runtime ready" ++ [0].

(** The instruction pointer, stack pointer and flags [x64_enter_user_thread]
    starts the thread with; that call is the assembly that leaves the kernel.
    The processor's part of the two calls before is in the definitions above. *)
Definition enter_user_thread (initial_process initial_thread : nat) : K (Z * Z * Z) :=
  emit (RuntimeTypes.arch_activate_process_address_space (Some initial_process));;
  emit (arch_prepare_user_thread (Some initial_thread));;
  emit (debug_log X64_RUNTIME_READY);;
  t ← read_at (A := thread) initial_thread;
  let context := m_user_context t in
  mret (context_instruction_pointer context, context_stack_pointer context, context_flags context).
