(* ===== verification/X64PageTables.v ===== *)
(** What the page tables of [X64Platform] translate: the four-level walk of the
    x86-64 processor as a reference, and its result on the tables the platform
    builds. *)
From Stdlib Require Import String.
From S2P Require Import Prelude AddressSpace UserMemory KernelObjectPool RuntimeTypes UserRuntime Syscalls RuntimeInvariant KernelSafety RuntimeStart PeImage X64PeImage LoadStatus PlatformMemory X64Platform.
#[local] Open Scope Z_scope.

(** * The processor's translation (4-level paging) *)

Record translation := { physical_address : Z; user_access : bool; write_access : bool }.

Definition entry_present (e : Z) : bool := Z.testbit e 0.
Definition entry_writable (e : Z) : bool := Z.testbit e 1.
Definition entry_user (e : Z) : bool := Z.testbit e 2.
Definition entry_large (e : Z) : bool := Z.testbit e 7.
Definition entry_address (e : Z) : Z := Z.land e (Z.ones 52 - Z.ones 12).

(** The index into the table of a level; level 3 is the PML4. *)
Definition walk_index (va : Z) (level : nat) : Z := va / 2 ^ (12 + 9 * Z.of_nat level) mod 512.

(** [level] more tables after this one; the access rights are those of every
    entry on the way. *)
Fixpoint walk (level : nat) (m : host_memory) (table va : Z) (user write : bool) : option translation :=
  let e := read_u64 m (table + walk_index va level * 8) in
  if negb (entry_present e) then None
  else
    let user := user && entry_user e in
    let write := write && entry_writable e in
    match level with
    | O => Some {| physical_address := entry_address e + va mod 2 ^ 12; user_access := user; write_access := write |}
    | S next =>
        if (level <? 3)%nat && entry_large e then
          let size := 2 ^ (12 + 9 * Z.of_nat level) in
          Some {| physical_address := entry_address e / size * size + va mod size; user_access := user; write_access := write |}
        else walk next m (entry_address e) va user write
    end.

Definition translate (m : host_memory) (root va : Z) : option translation := walk 3 m root va true true.

(** Where a read or write of user mode goes. *)
Definition user_translation (m : host_memory) (root va : Z) : option Z :=
  match translate m root va with
  | Some t => if user_access t && write_access t then Some (physical_address t) else None
  | None => None
  end.

(** * The tables of a process *)

(** A storage is page-aligned physical memory. *)
Definition storage_ok (s : Z) : Prop := s mod 4096 = 0 /\ 0 < s /\ s + 0x10000 <= 0x10000000000000.

Record tables_built (m : host_memory) (s : Z) : Prop := {
  built_pml4 i : 0 <= i < 512 -> read_u64 m (pml4 s + i * 8) = if i =? 0 then pdpt s + 7 else 0;
  built_pdpt i : 0 <= i < 512 -> read_u64 m (pdpt s + i * 8) = if i =? 0 then page_directory s + 7 else 0;
  built_directory i : 0 <= i < 512 ->
    read_u64 m (page_directory s + i * 8)
    = if i <? 2 then low_page_tables s i + 3 else if i =? 2 then user_page_table s + 7 else 0;
  built_low t i : 0 <= t < 2 -> 0 <= i < 512 -> read_u64 m (low_page_tables s t + i * 8) = t * 0x200000 + i * 4096 + 3;
  built_user i : 0 <= i < 512 ->
    read_u64 m (user_page_table s + i * 8) = if i <? 9 then user_image_pages s i + 7 else 0;
}.

Lemma make_table_entry_sum address flags :
  address mod 4096 = 0 -> 0 <= address < 2 ^ 64 -> 0 <= flags < 4096 -> make_table_entry address flags = address + flags.
Proof.
  intros Ha Hr Hf. unfold make_table_entry. change (not64 0xFFF) with (Z.ones 64 - Z.ones 12).
  pose proof (masked_address 12 64 address 0) as E. rewrite Z.add_0_r in E. rewrite E by (done || lia).
  by apply (aligned_lor 12).
Qed.

Lemma entry_address_sum address flags :
  address mod 4096 = 0 -> 0 <= address < 2 ^ 52 -> 0 <= flags < 4096 -> entry_address (address + flags) = address.
Proof. intros. unfold entry_address. by apply masked_address. Qed.

Lemma entry_bit address flags i :
  address mod 4096 = 0 -> 0 <= flags < 4096 -> 0 <= i < 12 -> Z.testbit (address + flags) i = Z.testbit flags i.
Proof. intros. by apply (aligned_testbit 12). Qed.

Lemma page_aligned s k : s mod 4096 = 0 -> (s + k * 4096) mod 4096 = 0.
Proof. intros. by rewrite Z.mod_add. Qed.

Ltac page_offsets :=
  unfold pml4, pdpt, page_directory, low_page_tables, user_page_table, user_image_pages, user_stack_page in *.

Lemma for_range_two {A} (body : Z -> A -> A) a : for_range 2 0 body a = body 1 (body 0 a).
Proof. done. Qed.

Lemma entry_u64 s k flags :
  s mod 4096 = 0 -> 0 <= s + k * 4096 < 2 ^ 53 -> 0 <= flags < 8 -> u64_ok (make_table_entry (s + k * 4096) flags).
Proof. intros Hs Hr Hf. rewrite make_table_entry_sum; [words|by apply page_aligned|words|lia]. Qed.

Section storage.
Context (s : Z) (Hs : storage_ok s).

Lemma storage_entry k flags :
  0 <= k < 16 -> 0 <= flags < 8 -> make_table_entry (s + k * 4096) flags = s + k * 4096 + flags.
Proof. intros. destruct Hs as (? & ? & ?). apply make_table_entry_sum; [by apply page_aligned|words|lia]. Qed.

Lemma low_entry t i : 0 <= t < 2 -> 0 <= i < 512 -> make_table_entry (t * 0x200000 + i * PAGE_SIZE) 3 = t * 0x200000 + i * 4096 + 3.
Proof.
  intros. change PAGE_SIZE with 4096. replace (t * 0x200000 + i * 4096) with (0 + (t * 512 + i) * 4096) by lia.
  rewrite make_table_entry_sum; [done|by apply (page_aligned 0)|words|lia].
Qed.

(** One low page table and its entry in the directory. *)
Definition low_table_step (t : Z) (m : host_memory) : host_memory :=
  write_u64
    (for_range 512 0 (fun i m => write_u64 m (s + 0x3000 + t * 0x1000 + i * 8) (make_table_entry (t * 0x200000 + i * PAGE_SIZE) 3)) m)
    (s + 0x2000 + t * 8) (make_table_entry (s + 0x3000 + t * 0x1000) 3).

Definition user_table_step (m : host_memory) : host_memory :=
  for_range 8 0 (fun i m => write_u64 m (s + 0x5000 + i * 8) (make_table_entry (s + 0x6000 + i * 0x1000) 7)) m.

Lemma initialize_process_storage_steps m :
  initialize_process_storage m s
  = write_u64 (user_table_step (write_u64
      (low_table_step 1 (low_table_step 0 (write_u64 (write_u64 (memset m s 0 0xF000)
        (s + 0 * 8) (make_table_entry (s + 0x1000) 7)) (s + 0x1000 + 0 * 8) (make_table_entry (s + 0x2000) 7))))
      (s + 0x2000 + 2 * 8) (make_table_entry (s + 0x5000) 7)))
      (s + 0x5000 + 8 * 8) (make_table_entry (s + 0xE000) 7).
Proof.
  unfold initialize_process_storage, initialize_low_identity_mappings, initialize_user_region, write_entry. page_offsets.
  change (Z.to_nat X64_LOW_PAGE_TABLE_COUNT) with 2%nat. rewrite for_range_two. reflexivity.
Qed.

Lemma low_table_step_changes t m lo hi :
  0 <= t < 2 -> lo <= s + 0x2000 -> s + 0x5000 <= hi -> changes_in lo hi m (low_table_step t m).
Proof.
  intros. unfold low_table_step. eapply changes_in_trans; [|apply write_u64_changes; lia]. apply fill_changes; lia.
Qed.

Lemma user_table_step_changes m lo hi : lo <= s + 0x5000 -> s + 0x6000 <= hi -> changes_in lo hi m (user_table_step m).
Proof. intros. apply fill_changes; lia. Qed.

Lemma initialize_process_storage_changes m : changes_in s (s + 0xF000) m (initialize_process_storage m s).
Proof.
  rewrite initialize_process_storage_steps.
  do 8 (eapply changes_in_trans;
    [|match goal with
      | |- changes_in _ _ _ (write_u64 _ _ _) => apply write_u64_changes; lia
      | |- changes_in _ _ _ (user_table_step _) => apply user_table_step_changes; lia
      | |- changes_in _ _ _ (low_table_step _ _) => apply low_table_step_changes; lia
      | |- changes_in _ _ _ (memset _ _ _ _) => apply (memset_changes _ s 0 0xF000); lia
      end]).
  apply changes_in_refl.
Qed.

Lemma low_entry_u64 t k : 0 <= t < 2 -> 0 <= k < 512 -> u64_ok (make_table_entry (t * 0x200000 + k * PAGE_SIZE) 3).
Proof. intros. rewrite low_entry by done. words. Qed.

Lemma read_low t m i j :
  0 <= t < 2 -> 0 <= j < 512 -> i = s + 0x3000 + t * 0x1000 + j * 8 ->
  read_u64 (low_table_step t m) i = t * 0x200000 + j * 4096 + 3.
Proof.
  intros Ht Hj ->. unfold low_table_step. rewrite read_write_u64_other by lia.
  rewrite fill_entry; [|lia|lia|intros; apply low_entry_u64; lia].
  rewrite (proj2 (Z.leb_le _ _)), (proj2 (Z.ltb_lt _ _)) by lia. by apply low_entry.
Qed.

Lemma read_low_other t m a :
  0 <= t < 2 -> a + 8 <= s + 0x2000 + t * 8 \/ s + 0x2000 + t * 8 + 8 <= a ->
  a + 8 <= s + 0x3000 + t * 0x1000 \/ s + 0x4000 + t * 0x1000 <= a ->
  read_u64 (low_table_step t m) a = read_u64 m a.
Proof.
  intros. unfold low_table_step. rewrite read_write_u64_other by lia.
  apply (read_u64_unchanged (s + 0x3000 + t * 0x1000) (s + 0x4000 + t * 0x1000)); [apply fill_changes; lia|lia].
Qed.

Lemma storage_entry_u64 k flags : 0 <= k < 16 -> 0 <= flags < 8 -> u64_ok (make_table_entry (s + k * 0x1000) flags).
Proof. intros. rewrite storage_entry by done. destruct Hs. words. Qed.

Lemma low_table_entry t : 0 <= t < 2 -> make_table_entry (s + 0x3000 + t * 0x1000) 3 = s + 0x3000 + t * 0x1000 + 3.
Proof.
  intros. replace (s + 0x3000 + t * 0x1000) with (s + (3 + t) * 4096) by lia. apply storage_entry; lia.
Qed.

Lemma read_directory_low t m :
  0 <= t < 2 -> read_u64 (low_table_step t m) (s + 0x2000 + t * 8) = s + 0x3000 + t * 0x1000 + 3.
Proof.
  intros Ht. unfold low_table_step. rewrite low_table_entry by done. apply read_write_u64. destruct Hs. words.
Qed.

Lemma read_user m i j :
  0 <= j < 512 -> i = s + 0x5000 + j * 8 ->
  read_u64 (user_table_step m) i = if j <? 8 then s + 0x6000 + j * 0x1000 + 7 else read_u64 m i.
Proof.
  intros Hj ->. unfold user_table_step. rewrite fill_entry.
  - rewrite (proj2 (Z.leb_le _ _)) by lia. change (0 + Z.of_nat 8) with 8. cbn [andb]. destruct (Z.ltb_spec j 8); [|done].
    replace (s + 0x6000 + j * 0x1000) with (s + (6 + j) * 4096) by lia. rewrite storage_entry by lia. done.
  - lia.
  - lia.
  - intros k Hk. replace (s + 0x6000 + k * 0x1000) with (s + (6 + k) * 0x1000) by lia. apply storage_entry_u64; lia.
Qed.

Lemma read_user_other m a : a + 8 <= s + 0x5000 \/ s + 0x6000 <= a -> read_u64 (user_table_step m) a = read_u64 m a.
Proof. intros. apply (read_u64_unchanged (s + 0x5000) (s + 0x6000)); [by apply user_table_step_changes|lia]. Qed.

Ltac skip_steps :=
  repeat first [rewrite read_write_u64_other by lia | rewrite read_low_other by lia | rewrite read_user_other by lia].

Lemma initialize_process_storage_built m : tables_built (initialize_process_storage m s) s.
Proof.
  pose proof Hs as (_ & Hpos & _).
  rewrite initialize_process_storage_steps. constructor; page_offsets.
  - intros i Hi. skip_steps. destruct (Z.eqb_spec i 0) as [->|Hi0].
    + rewrite read_write_u64 by (apply (storage_entry_u64 1); lia).
      by apply (storage_entry 1).
    + skip_steps. apply read_u64_memset; lia.
  - intros i Hi. skip_steps. destruct (Z.eqb_spec i 0) as [->|Hi0].
    + rewrite read_write_u64 by (apply (storage_entry_u64 2); lia). by apply (storage_entry 2).
    + skip_steps. apply read_u64_memset; lia.
  - intros i Hi. skip_steps. destruct (Z.ltb_spec i 2).
    + skip_steps. destruct (decide (i = 1)) as [->|]; [by apply read_directory_low|].
      assert (i = 0) as -> by lia. skip_steps. by apply read_directory_low.
    + destruct (Z.eqb_spec i 2) as [->|Hi2].
      * rewrite read_write_u64 by (apply (storage_entry_u64 5); lia). by apply (storage_entry 5).
      * skip_steps. apply read_u64_memset; lia.
  - intros t i Ht Hi. skip_steps. destruct (decide (t = 1)) as [->|].
    + apply read_low; lia.
    + assert (t = 0) as -> by lia. rewrite read_low_other by lia. apply read_low; lia.
  - intros i Hi. destruct (decide (i = 8)) as [->|].
    + rewrite read_write_u64 by (apply (storage_entry_u64 14); lia).
      transitivity (s + 14 * 4096 + 7); [by apply (storage_entry 14)|]. change (8 <? 9) with true. cbv iota. lia.
    + rewrite read_write_u64_other by lia. rewrite (read_user _ _ i) by done.
      destruct (Z.ltb_spec i 8), (Z.ltb_spec i 9); try lia. skip_steps. apply read_u64_memset; lia.
Qed.
End storage.

(** * The translation *)

Lemma va_split va :
  0 <= va < 2 ^ 48 ->
  exists i3 i2 i1 i0 offset,
    va = (((i3 * 512 + i2) * 512 + i1) * 512 + i0) * 4096 + offset /\
    0 <= i3 < 512 /\ 0 <= i2 < 512 /\ 0 <= i1 < 512 /\ 0 <= i0 < 512 /\ 0 <= offset < 4096 /\
    walk_index va 3 = i3 /\ walk_index va 2 = i2 /\ walk_index va 1 = i1 /\ walk_index va 0 = i0 /\ va mod 2 ^ 12 = offset.
Proof.
  intros Hva. unfold walk_index.
  change (2 ^ (12 + 9 * Z.of_nat 3)) with (4096 * 512 * 512 * 512). change (2 ^ (12 + 9 * Z.of_nat 2)) with (4096 * 512 * 512).
  change (2 ^ (12 + 9 * Z.of_nat 1)) with (4096 * 512). change (2 ^ (12 + 9 * Z.of_nat 0)) with 4096. change (2 ^ 12) with 4096.
  change (2 ^ 48) with (4096 * 512 * 512 * 512 * 512) in Hva.
  exists (va / (4096 * 512 * 512 * 512)), (va / (4096 * 512 * 512) mod 512), (va / (4096 * 512) mod 512), (va / 4096 mod 512), (va mod 4096).
  assert (0 <= va / (4096 * 512 * 512 * 512) < 512) by (split; [apply Z.div_pos|apply Z.div_lt_upper_bound]; lia).
  split_and!; try apply Z.mod_pos_bound; try done; try lia; [|by apply Z.mod_small].
  rewrite <- !Z.div_div by lia.
  pose proof (Z.div_mod va 4096 ltac:(lia)). pose proof (Z.div_mod (va / 4096) 512 ltac:(lia)).
  pose proof (Z.div_mod (va / 4096 / 512) 512 ltac:(lia)). pose proof (Z.div_mod (va / 4096 / 512 / 512) 512 ltac:(lia)). lia.
Qed.

(** What the tables of a storage translate. *)
Definition storage_translation (s va : Z) : option translation :=
  if va <? X64_LOW_IDENTITY_SIZE then Some {| physical_address := va; user_access := false; write_access := true |}
  else if va <? X64_USER_STACK_VIRTUAL_ADDRESS + PAGE_SIZE
  then Some {| physical_address := user_image_pages s 0 + (va - X64_USER_IMAGE_VIRTUAL_ADDRESS); user_access := true; write_access := true |}
  else None.

Section translation.
Context (m : host_memory) (s : Z) (Hs : storage_ok s) (Hb : tables_built m s).

Lemma zero_not_present : entry_present 0 = false.
Proof. done. Qed.

(** The walk below an entry with the flags [f]. *)
Lemma walk_entry level table va user write address f :
  read_u64 m (table + walk_index va level * 8) = address + f ->
  address mod 4096 = 0 -> 0 <= address < 2 ^ 52 -> f = 3 \/ f = 7 ->
  walk level m table va user write
  = match level with
    | O => Some {| physical_address := address + va mod 2 ^ 12; user_access := user && (f =? 7); write_access := write |}
    | S next => walk next m address va (user && (f =? 7)) write
    end.
Proof.
  intros He Ha Hr Hf. assert (0 <= f < 4096) by lia.
  destruct level as [|level]; cbn [walk]; rewrite He; unfold entry_present, entry_writable, entry_user, entry_large;
    rewrite !entry_bit, entry_address_sum by (done || lia); destruct Hf as [-> | ->];
    cbn [Z.testbit Pos.testbit negb Z.eqb Pos.eqb]; rewrite ?andb_true_r, ?andb_false_r; done.
Qed.

Lemma walk_absent level table va user write :
  read_u64 m (table + walk_index va level * 8) = 0 -> walk level m table va user write = None.
Proof. intros He. destruct level; cbn [walk]; by rewrite He. Qed.

Lemma storage_page k : 0 <= k < 16 -> (s + k * 4096) mod 4096 = 0 /\ 0 <= s + k * 4096 < 2 ^ 52.
Proof. intros. destruct Hs as (? & ? & ?). split; [by apply page_aligned|words]. Qed.

Lemma translate_storage va : 0 <= va < 2 ^ 48 -> translate m (pml4 s) va = storage_translation s va.
Proof.
  intros Hva. destruct (va_split va Hva) as (i3 & i2 & i1 & i0 & o & Eva & H3 & H2 & H1 & H0 & Ho & E3 & E2 & E1 & E0 & Eo).
  unfold translate, storage_translation. change X64_LOW_IDENTITY_SIZE with 0x400000.
  change (X64_USER_STACK_VIRTUAL_ADDRESS + PAGE_SIZE) with 0x409000. change X64_USER_IMAGE_VIRTUAL_ADDRESS with 0x400000.
  pose proof (built_pml4 _ _ Hb i3 H3) as B3. destruct (Z.eqb_spec i3 0) as [->|Hn3].
  2:{ rewrite walk_absent by (by rewrite E3). by rewrite (proj2 (Z.ltb_ge va 0x400000)), (proj2 (Z.ltb_ge va 0x409000)) by lia. }
  destruct (storage_page 1 ltac:(lia)) as [A1 R1]. destruct (storage_page 2 ltac:(lia)) as [A2 R2].
  rewrite (walk_entry 3 _ _ _ _ (s + 1 * 4096) 7); [|by rewrite E3|done|done|by right].
  pose proof (built_pdpt _ _ Hb i2 H2) as B2. change (pdpt s) with (s + 1 * 4096) in B2. destruct (Z.eqb_spec i2 0) as [->|Hn2].
  2:{ rewrite walk_absent by (by rewrite E2). by rewrite (proj2 (Z.ltb_ge va 0x400000)), (proj2 (Z.ltb_ge va 0x409000)) by lia. }
  rewrite (walk_entry 2 _ _ _ _ (s + 2 * 4096) 7); [|by rewrite E2|done|done|by right].
  pose proof (built_directory _ _ Hb i1 H1) as B1. change (page_directory s) with (s + 2 * 4096) in B1.
  destruct (Z.ltb_spec i1 2) as [Hlow|Hhigh].
  - destruct (storage_page (3 + i1) ltac:(lia)) as [A R].
    rewrite (walk_entry 1 _ _ _ _ (s + (3 + i1) * 4096) 3);
      [|rewrite E1, B1; unfold low_page_tables; lia|done|done|by left].
    assert (0 <= i1 * 0x200000 + i0 * 4096 < 2 ^ 52) by words.
    rewrite (walk_entry 0 _ _ _ _ (i1 * 0x200000 + i0 * 4096) 3).
    + rewrite (proj2 (Z.ltb_lt va 0x400000)) by lia. rewrite Eo. cbn [andb Z.eqb Pos.eqb]. do 2 f_equal. lia.
    + rewrite E0. replace (s + (3 + i1) * 4096) with (low_page_tables s i1) by (unfold low_page_tables; lia).
      apply (built_low _ _ Hb); lia.
    + replace (i1 * 0x200000 + i0 * 4096) with (0 + (i1 * 512 + i0) * 4096) by lia. by apply page_aligned.
    + done.
    + by left.
  - rewrite (proj2 (Z.ltb_ge va 0x400000)) by lia. destruct (Z.eqb_spec i1 2) as [->|Hn1].
    2:{ rewrite walk_absent by (by rewrite E1). by rewrite (proj2 (Z.ltb_ge va 0x409000)) by lia. }
    destruct (storage_page 5 ltac:(lia)) as [A5 R5].
    rewrite (walk_entry 1 _ _ _ _ (s + 5 * 4096) 7); [|by rewrite E1|done|done|by right].
    pose proof (built_user _ _ Hb i0 H0) as B0. change (user_page_table s) with (s + 5 * 4096) in B0.
    destruct (Z.ltb_spec i0 9).
    + destruct (storage_page (6 + i0) ltac:(lia)) as [A R].
      rewrite (walk_entry 0 _ _ _ _ (s + (6 + i0) * 4096) 7); [|rewrite E0, B0; unfold user_image_pages; lia|done|done|by right].
      rewrite (proj2 (Z.ltb_lt va 0x409000)) by lia. rewrite Eo. cbn [andb Z.eqb Pos.eqb]. unfold user_image_pages. do 2 f_equal. lia.
    + rewrite walk_absent by (by rewrite E0). by rewrite (proj2 (Z.ltb_ge va 0x409000)) by lia.
Qed.
End translation.

(** * The processes the platform prepares *)

(** No import is bound: the platform passes no resolver. *)
Definition no_imports : provision := fun _ _ _ _ _ _ _ => False.

Lemma no_resolver_valid : valid_resolver None no_imports.
Proof. done. Qed.

(** An embedded image whose section data lies in the region given to the loader. *)
Record embedded_ok (image : embedded_image) : Prop := {
  embedded_bytes : Forall u8_ok (image_contents image);
  embedded_size : image_end image - image_start image = file_size (image_contents image);
  embedded_u64 : u64_ok (file_size (image_contents image));
  embedded_fits : well_formed_headers (image_contents image) (x64_load_config X64_USER_IMAGE_VIRTUAL_ADDRESS X64_USER_REGION_SIZE) = true ->
    Forall (section_data_fits X64_USER_REGION_SIZE) (image_sections (image_contents image));
}.

(** An image the loader accepts whatever the memory holds: well formed, and
    without imports. *)
Definition loadable (image : embedded_image) : Prop :=
  well_formed_image (image_contents image) (x64_load_config X64_USER_IMAGE_VIRTUAL_ADDRESS X64_USER_REGION_SIZE) = true /\
  directory_virtual_address (import_directory_of (image_contents image)) = 0.

(** An image the loader refuses, with the message of the panic. *)
Definition refused (image : embedded_image) (message : string) : Prop :=
  x64_image_refused (image_contents image) X64_USER_IMAGE_VIRTUAL_ADDRESS X64_USER_REGION_SIZE message.

Lemma loadable_not_refused image message : embedded_ok image -> loadable image -> ~ refused image message.
Proof. intros [Hb _ Hu Hf] [Hw Hno]. by apply without_imports_not_refused. Qed.

(** A process whose tables are in memory, and map its image and its stack. *)
Record process_mapped (m : host_memory) (s : Z) (a : address_space) : Prop := {
  mapped_tables : tables_built m s;
  mapped_root : arch_root_table a = pml4 s;
  mapped_wf : address_space_wf a;
  mapped_mappings : active a
    = [new_mapping X64_USER_IMAGE_VIRTUAL_ADDRESS (user_image_pages s 0) USER_IMAGE_SIZE;
       new_mapping X64_USER_STACK_VIRTUAL_ADDRESS (user_stack_page s) PAGE_SIZE];
}.

(** And its image. *)
Record process_built (m : host_memory) (s : Z) (image : embedded_image) (c : initial_process_configuration) : Prop := {
  process_is_mapped : process_mapped m s (initial_address_space c);
  process_image : exists info loaded,
    x64_loaded (image_contents image) X64_USER_IMAGE_VIRTUAL_ADDRESS X64_USER_REGION_SIZE no_imports info loaded /\
    context_instruction_pointer (initial_thread_context c) = info_entry_point info /\
    forall j, 0 <= j < USER_IMAGE_SIZE -> loaded !! Z.to_nat j = Some (m (user_image_pages s 0 + j));
}.

Lemma tables_built_agree m m' s :
  tables_built m s -> (forall y, s <= y < s + 0x6000 -> m' y = m y) -> tables_built m' s.
Proof.
  intros Hb Hc.
  assert (E : forall a, s <= a -> a + 8 <= s + 0x6000 -> read_u64 m' a = read_u64 m a).
  { intros a Hlo Hhi. unfold read_u64. f_equal. apply host_bytes_agree. intros. apply Hc. lia. }
  constructor; intros; (rewrite E by (page_offsets; lia)); by apply Hb.
Qed.

Lemma tables_built_changes m m' s lo hi :
  tables_built m s -> changes_in lo hi m m' -> hi <= s \/ s + 0x6000 <= lo -> tables_built m' s.
Proof. intros Hb Hc Hd. apply (tables_built_agree m); [done|]. intros y Hy. apply Hc. lia. Qed.

Lemma process_built_changes m m' s image c lo hi :
  process_built m s image c -> changes_in lo hi m m' -> hi <= s \/ s + 0xE000 <= lo -> process_built m' s image c.
Proof.
  intros [[Ht Hr Hw Hm] (info & l & Hl & Hip & Hbytes)] Hc Hd. constructor; [constructor; try done|].
  - apply (tables_built_changes m m' s lo hi); [done|done|lia].
  - exists info, l. split; [done|]. split; [done|]. intros j Hj. rewrite Hc; [by apply Hbytes|].
    unfold user_image_pages, USER_IMAGE_SIZE in *. change (X64_USER_IMAGE_PAGE_COUNT * X64_USER_IMAGE_PAGE_SIZE) with 0x8000 in Hj. lia.
Qed.

Section populate.
Context (s : Z) (Hs : storage_ok s) (image : embedded_image) (Hi : embedded_ok image).

Definition image_loaded (m m' : host_memory) (r : may_panic Z) : Prop :=
  match r with
  | panics message => refused image message
  | continues entry =>
      changes_in (s + 0x6000) (s + 0x10000) m m' /\ exists info loaded,
        x64_loaded (image_contents image) X64_USER_IMAGE_VIRTUAL_ADDRESS X64_USER_REGION_SIZE no_imports info loaded /\
        entry = info_entry_point info /\
        forall j, 0 <= j < USER_IMAGE_SIZE -> loaded !! Z.to_nat j = Some (m' (user_image_pages s 0 + j))
  end.

Lemma initialize_user_image_loads k :
  twp (initialize_user_image s image)
    (fun r k' => runtime k' = runtime k /\ events k' = events k /\ image_loaded (host k) (host k') r) k.
Proof.
  destruct Hi as [Hb Hsz Hu Hf]. unfold initialize_user_image. rewrite Hsz, u64_id by done.
  apply twp_bind, twp_gets.
  set (buffer := host_bytes (host k) (user_image_pages s 0) (Z.to_nat X64_USER_REGION_SIZE)).
  assert (HN : Z.of_nat (length buffer) = X64_USER_REGION_SIZE) by (unfold buffer; rewrite length_host_bytes; apply Z2Nat.id; vm_compute; congruence).
  clearbody buffer.
  pose proof (load_x64_pe64_image_twp (image_contents image) X64_USER_IMAGE_VIRTUAL_ADDRESS no_imports buffer None
    Hb Hu no_resolver_valid) as Hload. rewrite HN in Hload. specialize (Hload Hf). apply twp_returned in Hload as ([st info] & l & E & Hlen & _ & info' & Hinfo & Hst).
  rewrite E. cbn [fst snd] in *. subst info.
  rewrite HN in Hst.
  apply twp_bind, twp_modify. destruct (decide (st = X64_PE64_IMAGE_LOAD_STATUS_OK)) as [Hok|Hno].
  2:{ rewrite decide_True by done. apply twp_ret. split; [done|]. split; [done|]. by exists buffer, st, (Some info'), l. }
  rewrite decide_False by tauto. apply twp_bind, twp_gets, twp_bind, twp_modify, twp_ret. cbn [runtime events host].
  split; [done|]. split; [done|].
  assert (Hl : Z.of_nat (length l) = 0xA000) by (rewrite Hlen, HN; reflexivity).
  change PAGE_SIZE with 4096. unfold image_loaded, user_stack_page, user_image_pages, USER_IMAGE_SIZE.
  change (X64_USER_IMAGE_PAGE_COUNT * X64_USER_IMAGE_PAGE_SIZE) with 0x8000.
  split.
  - eapply changes_in_trans; [|apply write_u64_changes; lia]. apply store_bytes_changes; lia.
  - exists info', l. split; [done|]. split; [done|]. intros j Hj.
    pose proof (write_u64_changes (store_bytes (host k) (s + 0x6000 + 0 * 0x1000) l) (s + 0xE000 + 4096 - 8) 0
      (s + 0xE000 + 4096 - 8) (s + 0xE000 + 4096) ltac:(lia) ltac:(lia)) as Hc.
    rewrite Hc by lia. destruct (lookup_lt_is_Some_2 l (Z.to_nat j)) as [b Hbj]; [lia|]. rewrite Hbj. f_equal. symmetry.
    apply store_bytes_inside; [lia|]. rewrite <- Hbj. f_equal. lia.
Qed.

Ltac region_bounds :=
  unfold user_image_pages, user_stack_page; change UINTPTR_MAX with 0xFFFFFFFFFFFFFFFF;
  change X64_USER_IMAGE_VIRTUAL_ADDRESS with 0x400000; change X64_USER_STACK_VIRTUAL_ADDRESS with 0x408000;
  change USER_IMAGE_SIZE with 0x8000; change PAGE_SIZE with 0x1000; lia.

Lemma populate_builds k :
  twp (populate_bootstrap_for_process s image)
    (fun r k' => match r with
                 | panics message => refused image message
                 | continues c => runtime k' = runtime k /\ events k' = events k /\
                                  changes_in s (s + 0x10000) (host k) (host k') /\ process_built (host k') s image c
                 end) k.
Proof.
  unfold populate_bootstrap_for_process. apply twp_bind, twp_gets, twp_bind, twp_modify.
  set (k1 := {| runtime := runtime k; host := initialize_process_storage (host k) s; events := events k |}).
  apply twp_bind. eapply twp_mono; [apply (initialize_user_image_loads k1)|].
  intros r k' (Hr & He & Hl). destruct r as [msg|entry]; [apply twp_ret, Hl|].
  destruct Hl as [Hc Himage]. cbn [k1 host runtime events] in *. pose proof Hs as (Hal & Hpos & Hmax).
  fold (rooted (pml4 s)).
  assert (U : forall x, 0 <= x < 2 ^ 53 -> u64_ok x) by (intros; words).
  destruct (add_mapping_succeeds (rooted (pml4 s)) X64_USER_IMAGE_VIRTUAL_ADDRESS (user_image_pages s 0) USER_IMAGE_SIZE)
    as (a1 & -> & Hw1 & Ha1 & R1);
    [apply rooted_wf|by apply U|unfold user_image_pages; words|by apply U|done|region_bounds|apply Nat.lt_0_succ|exact (List.Forall_nil _)|].
  destruct (add_mapping_succeeds a1 X64_USER_STACK_VIRTUAL_ADDRESS (user_stack_page s) PAGE_SIZE)
    as (a2 & -> & Hw2 & Ha2 & R2);
    [done|by apply U|unfold user_stack_page; words|by apply U|done|region_bounds|rewrite Ha1; apply Nat.ltb_lt; reflexivity| |].
  { rewrite Ha1. constructor; [|constructor]. intros x. unfold covers, new_mapping; cbn [user_address mapping_size]. change X64_USER_STACK_VIRTUAL_ADDRESS with 0x408000. change X64_USER_IMAGE_VIRTUAL_ADDRESS with 0x400000. change USER_IMAGE_SIZE with 0x8000. lia. }
  cbn [negb]. apply twp_ret. split; [done|]. split; [done|]. split.
  - eapply changes_in_trans; [eapply changes_in_sub; [apply (initialize_process_storage_changes s)|lia|lia]|].
    eapply changes_in_sub; [exact Hc|lia|lia].
  - constructor; cbn [initial_address_space initial_thread_context context_instruction_pointer]; [constructor|].
    + apply (tables_built_changes (initialize_process_storage (host k) s) _ s (s + 0x6000) (s + 0x10000)); [|done|lia].
      by apply initialize_process_storage_built.
    + by rewrite R2, R1.
    + done.
    + rewrite Ha2, Ha1. reflexivity.
    + exact Himage.
Qed.
End populate.

(** ** The kernel's translation and the processor's *)

(** The user pages of a storage. *)
Definition user_page_byte (s h : Z) : Prop := user_image_pages s 0 <= h < s + sizeof_process_storage.

Lemma process_byte_host m s a va :
  storage_ok s -> process_mapped m s a ->
  byte_host a va
  = if (X64_USER_IMAGE_VIRTUAL_ADDRESS <=? va) && (va <? X64_USER_STACK_VIRTUAL_ADDRESS + PAGE_SIZE)
    then Some (user_image_pages s 0 + (va - X64_USER_IMAGE_VIRTUAL_ADDRESS)) else None.
Proof.
  intros (_ & Hpos & _) [_ _ Hw Ha].
  change X64_USER_IMAGE_VIRTUAL_ADDRESS with 0x400000 in *. change X64_USER_STACK_VIRTUAL_ADDRESS with 0x408000 in *.
  change PAGE_SIZE with 0x1000 in *. change USER_IMAGE_SIZE with 0x8000 in *. change (0x408000 + 0x1000) with 0x409000.
  destruct (Z.leb_spec 0x400000 va), (Z.ltb_spec va 0x409000); cbn [andb].
  - apply byte_host_Some; [done|]. rewrite Ha. destruct (Z.lt_ge_cases va 0x408000).
    + eexists. split; [apply list_elem_of_here|]. unfold covers, new_mapping; cbn [user_address host_address mapping_size].
      split; [lia|]. unfold user_image_pages. split; lia.
    + eexists. split; [apply list_elem_of_further, list_elem_of_here|].
      unfold covers, new_mapping; cbn [user_address host_address mapping_size].
      split; [lia|]. unfold user_image_pages, user_stack_page. split; lia.
  - destruct (byte_host _ va) as [h|] eqn:E; [|done]. exfalso. apply byte_host_Some in E as (mp & Hm & Hc & _ & _); [|done].
    rewrite Ha in Hm. unfold covers in Hc.
    apply list_elem_of_In in Hm. destruct Hm as [<-|[<-|[]]]; cbn [user_address mapping_size new_mapping] in Hc; lia.
  - destruct (byte_host _ va) as [h|] eqn:E; [|done]. exfalso. apply byte_host_Some in E as (mp & Hm & Hc & _ & _); [|done].
    rewrite Ha in Hm. unfold covers in Hc.
    apply list_elem_of_In in Hm. destruct Hm as [<-|[<-|[]]]; cbn [user_address mapping_size new_mapping] in Hc; lia.
  - lia.
Qed.

Lemma user_translation_byte_host m s a va :
  storage_ok s -> process_mapped m s a -> 0 <= va < 2 ^ 48 ->
  user_translation m (arch_root_table a) va = byte_host a va.
Proof.
  intros Hs Hp Hva. rewrite (process_byte_host m s a) by done. unfold user_translation.
  rewrite (mapped_root _ _ _ Hp), translate_storage by (done || apply Hp). unfold storage_translation.
  change X64_LOW_IDENTITY_SIZE with 0x400000. change X64_USER_IMAGE_VIRTUAL_ADDRESS with 0x400000.
  change (X64_USER_STACK_VIRTUAL_ADDRESS + PAGE_SIZE) with 0x409000.
  destruct (Z.ltb_spec va 0x400000), (Z.leb_spec 0x400000 va), (Z.ltb_spec va 0x409000); try lia; done.
Qed.

Lemma process_user_page m s a va h :
  storage_ok s -> process_mapped m s a -> byte_host a va = Some h -> user_page_byte s h.
Proof.
  intros Hs Hp. rewrite (process_byte_host m s a) by done.
  change X64_USER_IMAGE_VIRTUAL_ADDRESS with 0x400000. change (X64_USER_STACK_VIRTUAL_ADDRESS + PAGE_SIZE) with 0x409000.
  destruct (Z.leb_spec 0x400000 va), (Z.ltb_spec va 0x409000); cbn [andb]; try done. intros [= <-].
  unfold user_page_byte, user_image_pages, sizeof_process_storage. lia.
Qed.

(** The processor's translation of a process's addresses, for accesses of user
    mode, is the kernel's; it reaches nothing but the image and stack pages of the
    storage; and the low four megabytes are mapped one to one for the kernel only. *)
Lemma x64_translation_agrees m s a va :
  storage_ok s -> process_mapped m s a -> 0 <= va < 2 ^ 48 ->
  user_translation m (arch_root_table a) va = byte_host a va /\
  (forall h, byte_host a va = Some h -> user_page_byte s h) /\
  (va < X64_LOW_IDENTITY_SIZE ->
   translate m (arch_root_table a) va = Some {| physical_address := va; user_access := false; write_access := true |}).
Proof.
  intros Hs Hp Hva. split; [by apply (user_translation_byte_host m s)|]. split; [intros h; by apply (process_user_page m s)|].
  intros Hlow. rewrite (mapped_root _ _ _ Hp), translate_storage by (done || apply Hp). unfold storage_translation.
  by rewrite (proj2 (Z.ltb_lt _ _)).
Qed.

(** ** The bootstrap record *)

Section initialize.
Context (platform : Z) (terminal_service_image test_app_image : embedded_image).

Record platform_ok : Prop := {
  platform_aligned : platform mod 4096 = 0;
  platform_range : 0 < platform /\ platform + sizeof_platform <= 0x10000000000000;
  platform_terminal : has_embedded_image terminal_service_image = true -> embedded_ok terminal_service_image;
  platform_client : embedded_ok test_app_image;
}.

Definition process_image_of (index : nat) : embedded_image :=
  if has_embedded_image terminal_service_image
  then match index with O => terminal_service_image | S _ => test_app_image end
  else test_app_image.

(** Every image is one the loader accepts. *)
Definition images_loadable : Prop :=
  loadable test_app_image /\ (has_embedded_image terminal_service_image = true -> loadable terminal_service_image).

(** The loader refuses one of the images. *)
Definition an_image_refused (message : string) : Prop :=
  (has_embedded_image terminal_service_image = true /\ refused terminal_service_image message) \/ refused test_app_image message.

(** The loaders accept the images, whatever memory holds. *)
Definition images_accepted : Prop := forall message, ~ an_image_refused message.

(** What [initialize] leaves: every process of a well-formed record is built. *)
Record platform_built (m : host_memory) (b : initial_user_runtime_bootstrap) : Prop := {
  built_bootstrap : bootstrap_ok b;
  built_count : process_count b = if has_embedded_image terminal_service_image then 2 else 1;
  built_first : initial_process_index b = 0;
  built_processes i c : Z.of_nat i < process_count b -> initial_processes b !! i = Some c ->
    process_built m (m_process_storage platform (Z.of_nat i)) (process_image_of i) c;
}.

Hypothesis Hok : platform_ok.

Lemma storages_ok i : 0 <= i < 2 -> storage_ok (m_process_storage platform i).
Proof.
  destruct Hok as [Ha [Hp Hr] _ _]. intros Hi. unfold storage_ok, m_process_storage, sizeof_platform, sizeof_process_storage in *.
  split; [|lia]. replace (i * 0xF000) with (i * 15 * 4096) by lia. by rewrite Z.mod_add.
Qed.

Lemma x64_refused_not_loadable message : an_image_refused message -> ~ images_loadable.
Proof.
  intros [[Ht Hr]|Hr] [Hc Hs].
  - exact (loadable_not_refused _ _ (platform_terminal Hok Ht) (Hs Ht) Hr).
  - exact (loadable_not_refused _ _ (platform_client Hok) Hc Hr).
Qed.

Lemma x64_loadable_accepted : images_loadable -> images_accepted.
Proof. intros Hl message Hr. by apply (x64_refused_not_loadable message). Qed.

Lemma initialize_builds k :
  twp (initialize platform terminal_service_image test_app_image)
    (fun r k' => match r with
                 | panics message => an_image_refused message
                 | continues b => runtime k' = runtime k /\ events k' = events k /\
                                  changes_in platform (platform + sizeof_platform) (host k) (host k') /\ platform_built (host k') b
                 end) k.
Proof.
  pose proof (platform_client Hok) as Happ. unfold initialize.
  assert (S0 := storages_ok 0 ltac:(lia)). assert (S1 := storages_ok 1 ltac:(lia)).
  destruct (has_embedded_image terminal_service_image) eqn:Et.
  - pose proof (platform_terminal Hok Et) as Hterm. apply twp_bind.
    eapply twp_mono; [apply (populate_builds _ S0 _ Hterm)|]. intros [msg|c0] k1 H0; [apply twp_ret; unfold an_image_refused; tauto|].
    destruct H0 as (R0 & E0 & C0 & P0). apply twp_bind.
    eapply twp_mono; [apply (populate_builds _ S1 _ Happ)|]. intros [msg|c1] k2 H1; [apply twp_ret; unfold an_image_refused; tauto|].
    destruct H1 as (R1 & E1 & C1 & P1). apply twp_ret.
    split; [congruence|]. split; [congruence|].
    unfold m_process_storage, sizeof_platform, sizeof_process_storage in *. split.
    { eapply changes_in_trans; eapply changes_in_sub; [exact C0|lia|lia|exact C1|lia|lia]. }
    assert (P0' : process_built (host k2) (platform + 0 * 0xF000) terminal_service_image c0)
      by (eapply process_built_changes; [exact P0|exact C1|lia]).
    constructor; cbn [process_count initial_process_index initial_processes].
    + split_and!; [done|done|done|]. change (Forall process_config_ok [c0; c1]).
      constructor; [apply P0'|]. constructor; [apply P1|constructor].
    + by rewrite Et.
    + done.
    + intros i c Hi Hc. unfold process_image_of. rewrite Et. destruct i as [|[|i]]; [by injection Hc as <-|by injection Hc as <-|lia].
  - apply twp_bind. eapply twp_mono; [apply (populate_builds _ S0 _ Happ)|]. intros [msg|c0] k1 H0; [apply twp_ret; unfold an_image_refused; tauto|].
    destruct H0 as (R0 & E0 & C0 & P0). apply twp_ret. split; [done|]. split; [done|].
    unfold m_process_storage, sizeof_platform, sizeof_process_storage in *. split; [eapply changes_in_sub; [exact C0|lia|lia]|].
    constructor; cbn [process_count initial_process_index initial_processes].
    + split_and!; [done|done|done|]. change (Forall process_config_ok [c0]). constructor; [apply P0|constructor].
    + by rewrite Et.
    + done.
    + intros i c Hi Hc. unfold process_image_of. rewrite Et. destruct i as [|i]; [by injection Hc as <-|lia].
Qed.

(** The platform keeps the contract [RuntimeStart] asks of it. *)
Lemma x64_initialize_ok k : twp (initialize platform terminal_service_image test_app_image) (initialized_ok k) k.
Proof.
  eapply twp_mono; [apply initialize_builds|]. intros [msg|b] k' H; [done|]. destruct H as (R & _ & _ & P).
  split; [done|apply P].
Qed.
End initialize.

(** C16: Provided that the data of every section of an embedded image with acceptable headers
    ends within the region given to the loader (which the loader does not check:
    load_pe32_plus_image_overruns), the platform's initialize changes only its own object in
    host memory; it panics only with the message of a failure the loader reports for one of the
    images, which is never a well-formed image without imports; when it returns, the bootstrap
    record is well formed (one or two processes, the first to start), and each process has a
    four-level page table that maps its image pages and stack page for user mode and the low
    four megabytes for the kernel, an address space with the same two regions, and its loaded
    image with the entry point as first instruction. *)
Theorem x64_initialize_correct platform terminal_service_image test_app_image k :
  platform_ok platform terminal_service_image test_app_image ->
  twp (initialize platform terminal_service_image test_app_image)
    (fun r k' => match r with
                 | panics message => an_image_refused terminal_service_image test_app_image message /\
                                     ~ images_loadable terminal_service_image test_app_image
                 | continues b => runtime k' = runtime k /\
                                  changes_in platform (platform + sizeof_platform) (host k) (host k') /\
                                  platform_built platform terminal_service_image test_app_image (host k') b
                 end) k.
Proof.
  intros Hok. eapply twp_mono; [by apply initialize_builds|].
  intros [msg|b] k' H; [split; [done|by eapply x64_refused_not_loadable]|]. by destruct H as (? & _ & ? & ?).
Qed.

(** ** What user mode finds in a process *)

Section process.
Context (m : host_memory) (s : Z) (image : embedded_image) (c : initial_process_configuration).
Hypothesis Hs : storage_ok s.
Hypothesis Hp : process_built m s image c.

(** The address the kernel knows for a byte of the image or of the stack is the
    one the processor uses. *)
Lemma process_user_translation va :
  0 <= va < 2 ^ 48 ->
  user_translation m (arch_root_table (initial_address_space c)) va
  = if (0x400000 <=? va) && (va <? 0x409000) then Some (user_image_pages s 0 + (va - 0x400000)) else None.
Proof.
  intros Hva. rewrite (user_translation_byte_host m s) by (done || apply Hp). by rewrite (process_byte_host m s) by (done || apply Hp).
Qed.
End process.

(** A loadable image gives a process. *)
Lemma loadable_process s image (k : kernel) :
  storage_ok s -> embedded_ok image -> loadable image -> exists m c, process_built m s image c.
Proof.
  intros Hs Hi Hl. pose proof (populate_builds s Hs image Hi k) as H.
  destruct (proj1 (twp_returned _ _ _) H) as (r & k' & _ & H'). clear H. rename H' into H. destruct r as [msg|c]; [by destruct (loadable_not_refused image msg Hi Hl)|].
  destruct H as (_ & _ & _ & H). exists (host k'), c. exact H.
Qed.

(** C17: User mode reads, at the image address and on, the bytes of the loaded image (one
    without imports), up to the eight pages the platform has for it; and the first instruction
    can be fetched exactly when the entry point is below the end of the stack page: an image
    that the loader accepts with its entry point in the tenth page of the region it was given
    starts at an unmapped address. *)
Theorem x64_process_sees_image m s image c :
  storage_ok s -> process_built m s image c ->
  directory_virtual_address (import_directory_of (image_contents image)) = 0 ->
  let root := arch_root_table (initial_address_space c) in
  let entry := address_of_entry_point (optional_header_of (image_contents image)) in
  (forall j b, 0 <= j < USER_IMAGE_SIZE -> unbound_image (image_contents image) !! Z.to_nat j = Some b ->
     exists h, user_translation m root (X64_USER_IMAGE_VIRTUAL_ADDRESS + j) = Some h /\ m h = b) /\
  (0 <= entry < 2 ^ 32 ->
   (is_Some (user_translation m root (context_instruction_pointer (initial_thread_context c))) <->
    entry < USER_IMAGE_SIZE + PAGE_SIZE)).
Proof.
  intros Hs Hp Hno root entry.
  destruct (process_image _ _ _ _ Hp) as (info & l & Hl & Hip & Hbytes).
  destruct Hl as (Hw & Hentry & _ & gs & to & Hbound & _ & _). rewrite Hno in Hbound. cbn [Z.eqb] in Hbound.
  destruct Hbound as [_ Htake].
  change X64_USER_IMAGE_VIRTUAL_ADDRESS with 0x400000 in *. change USER_IMAGE_SIZE with 0x8000 in *. change PAGE_SIZE with 0x1000 in *.
  split.
  - intros j b Hj Hb. exists (user_image_pages s 0 + j). split.
    + unfold root. rewrite (process_user_translation m s image c) by (done || lia).
      destruct (Z.leb_spec 0x400000 (0x400000 + j)), (Z.ltb_spec (0x400000 + j) 0x409000); try lia. cbn [andb]. f_equal. lia.
    + specialize (Hbytes j Hj). rewrite <- Htake in Hb. apply lookup_take_Some in Hb as [Hb _]. congruence.
  - intros He. unfold root. rewrite Hip, Hentry. fold entry. rewrite u64_id by words.
    rewrite (process_user_translation m s image c) by (done || lia).
    destruct (Z.leb_spec 0x400000 (0x400000 + entry)), (Z.ltb_spec (0x400000 + entry) 0x409000); try lia; cbn [andb].
    + split; [lia|by eexists].
    + split; [by intros [? ?]|lia].
Qed.
