(* ===== verification/X64Samples.v ===== *)
(** The sample processes of the x86-64 platform: a platform object in memory, and
    images to load. *)
From Stdlib Require Import String.
From S2P Require Import Prelude Samples AddressSpace UserMemory KernelObjectPool RuntimeTypes UserRuntime Syscalls RuntimeStart KernelSamples PeImage X64PeImage Win32Samples PlatformMemory X64Platform X64PageTables.
#[local] Open Scope Z_scope.

Definition sample_platform : Z := 0x200000.

Definition sample_embedded (start : Z) (contents : list Z) : embedded_image :=
  {| image_start := start; image_end := start + Z.of_nat (length contents); image_contents := contents |}.

Definition sample_app : embedded_image := sample_embedded 0x110000 plain_image.
Definition sample_service : embedded_image := sample_embedded 0x120000 plain_image.

(** An image of ten pages, whose entry point is in the last. *)
Definition large_image : list Z :=
  sample_image {| layout_virtual_size := 32; layout_virtual_address := 0x9000; layout_data := replicate 16 0xAB;
                  layout_import_rva := 0; layout_image := 0xA000 |}.
Definition sample_large : embedded_image := sample_embedded 0x110000 large_image.


Lemma sample_embedded_ok start contents :
  forallb is_byte contents = true -> (length contents <= 1024)%nat ->
  forallb (fun s => virtual_address s + size_of_raw_data s <=? X64_USER_REGION_SIZE) (image_sections contents) = true ->
  embedded_ok (sample_embedded start contents).
Proof.
  intros Hb Hl Hf. destruct (image_checked contents Hb Hl). constructor; cbn [image_contents image_start image_end sample_embedded].
  - done.
  - unfold file_size. lia.
  - done.
  - intros _. by apply fits_check.
Qed.

Lemma sample_app_ok : embedded_ok sample_app.
Proof. apply sample_embedded_ok; vm_compute; [reflexivity|lia|reflexivity]. Qed.
Lemma sample_service_ok : embedded_ok sample_service.
Proof. apply sample_embedded_ok; vm_compute; [reflexivity|lia|reflexivity]. Qed.
Lemma sample_large_ok : embedded_ok sample_large.
Proof. apply sample_embedded_ok; vm_compute; [reflexivity|lia|reflexivity]. Qed.

Lemma sample_platform_ok : platform_ok sample_platform sample_service sample_app.
Proof.
  constructor; [reflexivity|vm_compute; split; congruence|intros _; apply sample_service_ok|apply sample_app_ok].
Qed.

Lemma sample_images_loadable : images_loadable sample_service sample_app.
Proof. split; [|intros _]; split; vm_compute; reflexivity. Qed.

Lemma sample_storage_ok : storage_ok sample_platform.
Proof. vm_compute. repeat split; congruence. Qed.

Lemma sample_images_accepted : images_accepted sample_service sample_app.
Proof. exact (x64_loadable_accepted sample_platform sample_service sample_app sample_platform_ok sample_images_loadable). Qed.

Lemma x64_initialize_correct_witness :
  images_loadable sample_service sample_app /\
  twp (initialize sample_platform sample_service sample_app)
    (fun r k' => match r with
                 | panics message => an_image_refused sample_service sample_app message /\ ~ images_loadable sample_service sample_app
                 | continues b => runtime k' = runtime KernelSamples.sample_image /\
                                  changes_in sample_platform (sample_platform + sizeof_platform) (host KernelSamples.sample_image) (host k') /\
                                  platform_built sample_platform sample_service sample_app (host k') b
                 end) KernelSamples.sample_image.
Proof.
  split; [exact sample_images_loadable|].
  apply (x64_initialize_correct sample_platform sample_service sample_app). exact sample_platform_ok.
Defined.

Lemma sample_translation :
  exists m c, user_translation m (arch_root_table (initial_address_space c)) 0x408008 = Some 0x20E008 /\
              translate m (arch_root_table (initial_address_space c)) 0x1000
              = Some {| physical_address := 0x1000; user_access := false; write_access := true |}.
Proof.
  destruct (loadable_process sample_platform sample_app KernelSamples.sample_image) as (m & c & Hp);
    [exact sample_storage_ok|exact sample_app_ok|exact (proj1 sample_images_loadable)|].
  exists m, c. split.
  - refine (eq_trans (proj1 (x64_translation_agrees m sample_platform _ 0x408008 sample_storage_ok (process_is_mapped _ _ _ _ Hp) ltac:(lia))) _).
    by rewrite (process_byte_host m sample_platform _ 0x408008 sample_storage_ok (process_is_mapped _ _ _ _ Hp)).
  - refine (proj2 (proj2 (x64_translation_agrees m sample_platform _ 0x1000 sample_storage_ok (process_is_mapped _ _ _ _ Hp) ltac:(lia))) _). reflexivity.
Qed.

Lemma x64_process_sees_image_witness :
  exists m c, ~ is_Some (user_translation m (arch_root_table (initial_address_space c)) (context_instruction_pointer (initial_thread_context c))) /\
              process_built m sample_platform sample_large c.
Proof.
  destruct (loadable_process sample_platform sample_large KernelSamples.sample_image) as (m & c & Hp);
    [exact sample_storage_ok|exact sample_large_ok|split; vm_compute; reflexivity|].
  exists m, c. split; [|exact Hp].
  assert (Hno : directory_virtual_address (import_directory_of large_image) = 0) by (vm_compute; reflexivity).
  assert (He : 0 <= address_of_entry_point (optional_header_of large_image) < 2 ^ 32) by (vm_compute; split; congruence).
  intros Hm. pose proof (proj1 (proj2 (x64_process_sees_image m sample_platform sample_large c sample_storage_ok Hp Hno) He) Hm) as H.
  clear - H. vm_compute in H. discriminate H.
Defined.
