(* ===== verification/KernelFrames.v ===== *)
(** What the kernel may change: no operation of a system call changes a process
    or its address space, every byte of host memory it writes is one a process
    has mapped, and the address space that is active is that of the current
    thread. *)
From Stdlib Require Import String.
From S2P Require Import Prelude AddressSpace UserMemory KernelObjectPool RuntimeTypes UserRuntime Rpc Syscalls RuntimeInvariant.
#[local] Open Scope Z_scope.

(** A host byte of some process. *)
Definition user_byte (r : user_runtime) (h : Z) : Prop :=
  exists p q x, get_by_index (m_processes r) p = Some q /\ byte_host (m_address_space q) x = Some h.

Definition spaces_wf (r : user_runtime) : Prop :=
  forall p q, get_by_index (m_processes r) p = Some q -> address_space_wf (m_address_space q).

(** The process whose address space was activated last. *)
Definition last_activation (l : list kernel_event) : option (option nat) :=
  foldl (fun last e => match e with arch_activate_process_address_space p => Some p | _ => last end) None l.

(** The active address space is that of the current thread's process. *)
Definition activated (k : kernel) : Prop :=
  forall t u, m_current_thread (runtime k) = Some t -> get_by_index (m_threads (runtime k)) t = Some u ->
    last_activation (events k) = Some (m_process u).

Record framed (k k' : kernel) : Prop := {
  framed_processes : m_processes (runtime k') = m_processes (runtime k);
  framed_host h : ~ user_byte (runtime k) h -> host k' h = host k h;
  framed_activated : activated k -> activated k';
}.

Lemma framed_refl k : framed k k.
Proof. done. Qed.

Lemma user_byte_processes r r' h : m_processes r' = m_processes r -> user_byte r' h <-> user_byte r h.
Proof. unfold user_byte. by intros ->. Qed.

Lemma framed_trans k1 k2 k3 : framed k1 k2 -> framed k2 k3 -> framed k1 k3.
Proof.
  intros [P1 H1 A1] [P2 H2 A2]. constructor; [congruence| |auto]. intros h Hh. rewrite H2, H1; [done|done|].
  by rewrite (user_byte_processes _ _ _ P1).
Qed.

(** [m] keeps to the frame whenever it returns. *)
Definition frames {A} (m : K A) : Prop :=
  forall k a k', spaces_wf (runtime k) -> m k = Returned a k' -> framed k k'.

(** ** Sequences *)

Section sequences.
Context {A B : Type}.

Lemma frames_ret (a : A) : frames (mret a).
Proof. intros k a' k' _ [= <- <-]. apply framed_refl. Qed.

Lemma frames_undefined u : frames (undefined u : K A).
Proof. done. Qed.

Lemma frames_out_of_fuel : frames (out_of_fuel : K A).
Proof. done. Qed.

Lemma frames_gets (f : kernel -> A) : frames (gets f).
Proof. intros k a k' _ [= <- <-]. apply framed_refl. Qed.

Lemma frames_bind (m : K A) (f : A -> K B) : frames m -> (forall a, frames (f a)) -> frames (m ≫= f).
Proof.
  intros Hm Hf k b k' Hw E. apply bind_returned in E as (a & k1 & E1 & E2).
  pose proof (Hm _ _ _ Hw E1) as F1. eapply framed_trans; [exact F1|]. eapply Hf; [|exact E2].
  intros p q. rewrite (framed_processes _ _ F1). apply Hw.
Qed.

(** A sequence that starts with a look at the state. *)
Lemma frames_get (f : kernel -> K A) :
  (forall k a k', spaces_wf (runtime k) -> f k k = Returned a k' -> framed k k') -> frames (k ← get; f k).
Proof. intros H k a k' Hw E. by eapply H. Qed.

Lemma frames_look (f : kernel -> K A) : (forall k, frames (f k)) -> frames (k ← get; f k).
Proof. intros H. apply frames_get. intros k. apply H. Qed.

Lemma frames_lift (o : option A) : frames (lift o).
Proof. destruct o; [apply frames_ret|done]. Qed.

Lemma frames_in_bounds (o : option A) : frames (in_bounds o).
Proof. destruct o; [apply frames_ret|done]. Qed.
End sequences.

Lemma frames_not_null p : frames (not_null p).
Proof. destruct p; [apply frames_ret|done]. Qed.

Lemma last_activation_snoc l e :
  last_activation (l ++ [e])
  = match e with arch_activate_process_address_space p => Some p | _ => last_activation l end.
Proof. unfold last_activation. by rewrite foldl_app. Qed.

(** No address space is activated. *)
Definition quiet_event (e : kernel_event) : Prop :=
  match e with arch_activate_process_address_space _ => False | _ => True end.

Lemma frames_emit e : quiet_event e -> frames (emit e).
Proof.
  intros He k a k' _ [= <- <-]. constructor; [done|done|]. intros Ha t u Ht Hu. cbn in *. rewrite last_activation_snoc.
  destruct e; try done; by eapply Ha.
Qed.

(** A change to a pool that is neither that of the processes nor of the threads. *)
Definition quiet (f : user_runtime -> user_runtime) : Prop :=
  forall r, m_processes (f r) = m_processes r /\ m_threads (f r) = m_threads r /\ m_current_thread (f r) = m_current_thread r.

Lemma framed_quiet k f : quiet f -> framed k (with_runtime k (f (runtime k))).
Proof.
  intros H. destruct (H (runtime k)) as (P & T & C). constructor; [done|done|].
  intros Ha t u Ht Hu. cbn in *. rewrite C in Ht. rewrite T in Hu. by eapply Ha.
Qed.

Lemma frames_set_runtime f : quiet f -> frames (set_runtime f).
Proof. intros H k a k' _ [= <- <-]. by apply framed_quiet. Qed.

Create HintDb frames.
#[export] Hint Resolve frames_ret frames_undefined frames_out_of_fuel frames_gets frames_lift frames_in_bounds
  frames_not_null : frames.
#[export] Hint Extern 1 (frames (emit _)) => apply frames_emit; exact I : frames.

(** Through a body: its binds, its matches and the operations with a lemma. *)
Ltac framed_step :=
  match goal with
  | |- frames (mbind _ _) => apply frames_bind; [|intros ?]
  | |- frames (match ?x with _ => _ end) => destruct x
  | |- frames (set_runtime _) => apply frames_set_runtime; by intros ?
  | |- frames (let '(_, _) := ?x in _) => destruct x
  | |- frames _ => solve [auto with frames nocore]
  end.
Ltac framed := cbv zeta; repeat framed_step.

(** ** Pools *)

(** A pool that is neither that of the processes nor of the threads. *)
Class OtherPool (A : Type) `{RuntimePool A} := other_pool : forall p next,
  quiet (fun r => with_next_handle_value (with_pool r (p r)) (next r)) /\ quiet (fun r => with_pool r (p r)).

#[export] Instance channel_other : OtherPool rpc_channel.
Proof. done. Qed.

Section pools.
Context {A : Type} `{RuntimePool A}.

Lemma frames_read_at i : frames (read_at i : K A).
Proof. apply frames_get. intros k a k' _ E. case_match; [|done]. injection E as <- <-. apply framed_refl. Qed.

Lemma frames_find_in handle : frames (find_in (A := A) handle).
Proof. apply frames_gets. Qed.

Context `{!OtherPool A}.

Lemma frames_update i f : frames (update (A := A) i f).
Proof.
  apply frames_bind; [apply frames_read_at|]. intros x. apply frames_set_runtime.
  apply (other_pool (fun r => update_at (pool r) i (f x)) (fun r => m_next_handle_value r)).
Qed.

Lemma frames_emplace_in construct : frames (emplace_in (A := A) construct).
Proof.
  intros k a k' _ E. unfold emplace_in, mbind, M_bind in E. cbn in E.
  destruct (emplace _ _ _) as [[i p] next]. injection E as <- <-.
  apply (framed_quiet k (fun r => with_next_handle_value (with_pool r p) next)), (other_pool (fun _ => p) (fun _ => next)).
Qed.

Lemma frames_erase_in handle : frames (erase_in (A := A) handle).
Proof.
  intros k a k' _ E. unfold erase_in, mbind, M_bind in E. cbn in E.
  destruct (erase_by_handle _ _) as [ok p]. injection E as <- <-.
  apply (framed_quiet k (fun r => with_pool r p)), (other_pool (fun _ => p) (fun _ => 0)).
Qed.
End pools.

(** A thread stays in its process. *)
Lemma frames_update_thread i (f : thread -> thread) : (forall t, m_process (f t) = m_process t) -> frames (update i f).
Proof.
  intros Hf k a k' _ E. unfold update in E. apply bind_returned in E as (t & k1 & E1 & E2).
  unfold read_at, mbind, M_bind in E1. cbn in E1. destruct (get_by_index _ i) as [t'|] eqn:Ht; [|done]. injection E1 as <- <-.
  injection E2 as <- <-. constructor; [done|done|]. intros Ha c u Hc Hu. cbn in *.
  rewrite (get_update_at _ _ _ _ t') in Hu by done. destruct (decide (i = c)) as [<-|]; [|by eapply Ha].
  injection Hu as <-. rewrite Hf. by eapply Ha.
Qed.

#[export] Hint Resolve frames_read_at frames_find_in : frames.
Ltac same_process := intros ?; first [reflexivity | unfold prepare_syscall_resume, prepare_rpc_resume; repeat case_match; reflexivity].
#[export] Hint Extern 1 (frames (update (A := rpc_channel) _ _)) => apply frames_update : frames.
#[export] Hint Extern 1 (frames (update (A := thread) _ _)) => apply frames_update_thread; same_process : frames.
#[export] Hint Extern 1 (frames (emplace_in _)) => apply frames_emplace_in : frames.
#[export] Hint Extern 1 (frames (erase_in _)) => apply frames_erase_in : frames.

Lemma frames_get_state i : frames (get_state i).
Proof. unfold get_state. framed. Qed.

Lemma frames_set_state i s : frames (set_state i s).
Proof. by apply frames_update_thread. Qed.

Lemma frames_grant i : frames (grant_process_access (A := rpc_channel) i).
Proof. apply frames_update. Qed.

#[export] Hint Resolve frames_get_state frames_set_state frames_grant : frames.

(** ** User memory *)

Lemma write_reference_other a bs m x h : (forall y, byte_host a y <> Some h) -> snd (write_reference a m x bs) h = m h.
Proof.
  intros Hn. revert m x. induction bs as [|b bs IH]; intros m x; cbn; [done|].
  destruct (byte_host a x) as [h'|] eqn:E; [|done]. rewrite IH. unfold poke. destruct (Z.eqb_spec h h') as [Hh|]; [|done].
  subst h'. by apply Hn in E.
Qed.

Lemma copy_between_reference_other n src dst m x y h :
  (forall y, byte_host dst y <> Some h) -> snd (copy_between_reference n src dst m x y) h = m h.
Proof.
  intros Hn. revert m x y. induction n as [|n IH]; intros m x y; cbn; [done|].
  destruct (byte_host src x) as [h1|]; [|done]. destruct (byte_host dst y) as [h'|] eqn:E; [|done].
  rewrite IH. unfold poke. destruct (Z.eqb_spec h h') as [Hh|]; [|done]. subst h'. by apply Hn in E.
Qed.

Lemma not_user_byte r p q h y :
  get_by_index (m_processes r) p = Some q -> ~ user_byte r h -> byte_host (m_address_space q) y <> Some h.
Proof. intros Hq Hh E. apply Hh. by exists p, q, y. Qed.

Lemma frames_validate p x n : frames (validate_user_range p x n).
Proof. unfold validate_user_range. framed. Qed.

Lemma frames_copy_user_string t x n : frames (copy_user_string_to_buffer t x n).
Proof.
  unfold copy_user_string_to_buffer. apply frames_bind; [apply frames_read_at|]. intros u. apply frames_bind; [framed|]. intros owner.
  apply frames_look. intros k. framed.
Qed.

Lemma frames_write_user_bytes_to p x bs : u64_ok (Z.of_nat (length bs)) -> frames (write_user_bytes_to p x bs).
Proof.
  intros Hok k a k' Hw E. unfold write_user_bytes_to in E. apply bind_returned in E as (q & k1 & E1 & E2).
  unfold read_at, mbind, M_bind in E1. cbn in E1. destruct (get_by_index _ p) as [q'|] eqn:Hq; [|done]. injection E1 as <- <-.
  unfold mbind, M_bind in E2. cbn -[write_user_bytes] in E2. rewrite write_user_bytes_eq in E2 by (done || by eapply Hw).
  cbn in E2. injection E2 as <- <-. constructor; [done| |done]. intros h Hh. cbn. apply write_reference_other.
  intros y. by eapply not_user_byte.
Qed.

Lemma frames_copy_between s x d y n : u64_ok n -> frames (copy_between s x d y n).
Proof.
  intros Hok k a k' Hw E. unfold copy_between in E. apply bind_returned in E as (q & k1 & E1 & E2).
  unfold read_at, mbind, M_bind in E1. cbn in E1. destruct (get_by_index _ s) as [q'|] eqn:Hq; [|done]. injection E1 as <- <-.
  apply bind_returned in E2 as (q2 & k1 & E1 & E2).
  unfold read_at, mbind, M_bind in E1. cbn in E1. destruct (get_by_index _ d) as [q3|] eqn:Hq2; [|done]. injection E1 as <- <-.
  unfold mbind, M_bind in E2. cbn -[copy_between_user_processes] in E2. rewrite copy_between_user_processes_eq in E2 by (done || by eapply Hw).
  cbn in E2. injection E2 as <- <-. constructor; [done| |done]. intros h Hh. cbn. apply copy_between_reference_other.
  intros z. by eapply not_user_byte.
Qed.

Lemma frames_write_handle p x h : frames (write_user_bytes_to p x (le_encode 8 h)).
Proof. apply frames_write_user_bytes_to. rewrite length_le_encode. vm_compute. split; congruence. Qed.

#[export] Hint Resolve frames_validate frames_copy_user_string frames_write_handle : frames.

(** ** Endpoints, channels and the scheduler *)

Lemma frames_read_endpoint e : frames (read_endpoint e).
Proof. apply frames_get. intros k a k' _ E. case_match; [|done]. injection E as <- <-. apply framed_refl. Qed.

Lemma frames_write_endpoint e x : frames (write_endpoint e x).
Proof. by apply frames_set_runtime. Qed.

Lemma frames_update_endpoint e f : frames (update_endpoint e f).
Proof. apply frames_bind; [apply frames_read_endpoint|]. intros. apply frames_write_endpoint. Qed.

Lemma frames_find_endpoint name : frames (find_endpoint_by_name name).
Proof. apply frames_get. intros k a k'. apply frames_in_bounds. Qed.

#[export] Hint Resolve frames_read_endpoint frames_write_endpoint frames_update_endpoint frames_find_endpoint : frames.

Lemma frames_get_current_thread : frames get_current_thread.
Proof. apply frames_gets. Qed.

Lemma frames_find_next_ready_thread a : frames (find_next_ready_thread a).
Proof. apply frames_gets. Qed.

Lemma frames_find_pending s : frames (find_pending_channel_by_server_thread s).
Proof. apply frames_gets. Qed.

Lemma frames_find_free : frames find_free_endpoint.
Proof. apply frames_gets. Qed.
#[export] Hint Resolve frames_get_current_thread frames_find_next_ready_thread frames_find_pending frames_find_free : frames.

(** The rest of [set_current_thread] once the previous thread is not running. *)
Definition switch_to (p : option nat) : K unit :=
  set_runtime (fun r => with_current_thread r p);;
  active_process ← (match p with
                    | Some c => t ← read_at c; mret (m_process t)
                    | None => mret None
                    end : K (option nat));
  emit (arch_activate_process_address_space active_process);;
  emit (arch_prepare_user_thread p);;
  match p with
  | Some c =>
      s ← get_state c;
      if bool_decide (s = USER_THREAD_STATE_READY) then set_state c USER_THREAD_STATE_RUNNING else mret tt
  | None => mret tt
  end.

Lemma switch_to_activates p k a k' : spaces_wf (runtime k) -> switch_to p k = Returned a k' -> framed k k' /\ activated k'.
Proof.
  intros Hw E. apply bind_returned in E as ([] & k1 & E1 & E). injection E1 as <-.
  apply bind_returned in E as (q & k1 & E1 & E). apply bind_returned in E as ([] & k2 & E2 & E). injection E2 as <-.
  set (k2 := {| runtime := runtime k1; host := _; events := _ |}) in E.
  assert (Hq : runtime k1 = with_current_thread (runtime k) p /\ host k1 = host k /\
               forall t u, p = Some t -> get_by_index (m_threads (runtime k)) t = Some u -> q = m_process u).
  { destruct p as [c|]; [|injection E1 as <- <-; done]. apply bind_returned in E1 as (t & k3 & E3 & E1).
    unfold read_at, mbind, M_bind in E3. cbn in E3. destruct (get_by_index _ c) as [t'|] eqn:Ht; [|done].
    injection E3 as <- <-. injection E1 as <- <-. split; [done|]. split; [done|]. intros ? u [= <-] Hu. congruence. }
  destruct Hq as (Hr & Hh & Hq).
  assert (A : activated k2).
  { intros t u Ht Hu. cbn in *. rewrite Hr in Ht, Hu. cbn in *. rewrite last_activation_snoc. by rewrite (Hq t u). }
  assert (F : framed k k2) by (constructor; [by cbn; rewrite Hr|by intros h _; cbn; rewrite Hh|done]).
  assert (F2 : framed k2 k').
  { revert E. apply frames_bind; [auto with frames|intros []; framed|]. intros i x. rewrite (framed_processes _ _ F). apply Hw. }
  split; [by eapply framed_trans|by apply F2].
Qed.

Lemma set_current_thread_activates p k a k' :
  spaces_wf (runtime k) -> set_current_thread p k = Returned a k' -> framed k k' /\ activated k'.
Proof.
  intros Hw E. unfold set_current_thread in E. apply bind_returned in E as (previous & k0 & E0 & E). injection E0 as <- <-.
  apply bind_returned in E as ([] & k1 & E1 & E). fold (switch_to p) in E.
  assert (F : framed k k1) by (revert E1; apply (fun H : frames _ => H k tt k1 Hw); framed).
  apply switch_to_activates in E as [F2 A]; [|intros i x; rewrite (framed_processes _ _ F); apply Hw].
  split; [by eapply framed_trans|done].
Qed.

Lemma frames_set_current_thread p : frames (set_current_thread p).
Proof. intros k a k' Hw E. by apply (set_current_thread_activates p k a). Qed.

Lemma frames_stop : frames (set_runtime (fun r => with_current_thread r None)).
Proof. intros k a k' _ [= <- <-]. by constructor. Qed.
#[export] Hint Resolve frames_set_current_thread : frames.

Lemma frames_schedule : frames schedule_next_ready_thread.
Proof.
  unfold schedule_next_ready_thread. apply frames_bind; [auto with frames|]. intros c. apply frames_bind; [auto with frames|].
  intros [n|]; [framed|]. apply frames_bind; [apply frames_stop|]. intros []. apply frames_ret.
Qed.

Lemma frames_has_runnable_thread : frames has_runnable_thread.
Proof. unfold has_runnable_thread. framed. Qed.

Lemma frames_cancel_call c : frames (cancel_call c).
Proof. unfold cancel_call, set_endpoint_busy. framed. Qed.
#[export] Hint Resolve frames_schedule frames_has_runnable_thread frames_cancel_call : frames.

Lemma frames_finish_call c : frames (finish_call c).
Proof. unfold finish_call. framed. Qed.

Lemma frames_begin_call c t s : frames (begin_call c t s).
Proof. unfold begin_call, set_endpoint_busy. framed. Qed.
#[export] Hint Resolve frames_finish_call frames_begin_call : frames.

(** ** System calls *)

Section calls.
Context `{Target}.

Lemma frames_wake_client t s : frames (wake_client t s).
Proof. unfold wake_client. framed. Qed.
#[local] Hint Resolve frames_wake_client : frames.

Lemma frames_complete_call s c : frames (complete_call s c).
Proof. unfold complete_call. framed. Qed.

Lemma frames_fail_pending_call s c : frames (fail_pending_call s c).
Proof. unfold fail_pending_call. framed. Qed.
#[local] Hint Resolve frames_complete_call frames_fail_pending_call : frames.

Lemma frames_handle_thread_exit t s : frames (handle_thread_exit t s).
Proof. unfold handle_thread_exit, clear_endpoints_owned_by. framed. Qed.
#[local] Hint Resolve frames_handle_thread_exit : frames.

Lemma frames_terminate e s : frames (terminate_current_thread e s).
Proof. unfold terminate_current_thread. framed. Qed.

Lemma frames_prepare_server_thread e s c x n : u64_ok n -> frames (prepare_server_thread e s c x n).
Proof.
  intros Hn. unfold prepare_server_thread. framed; try solve [apply frames_copy_between, Hn].
Qed.

Lemma frames_not_a_channel h : frames (not_a_channel h).
Proof. unfold not_a_channel, find_object_by_handle, find_process_by_handle, find_thread_by_handle,
  find_device_memory_object_by_handle,
  find_shared_memory_object_by_handle. framed. Qed.

Lemma frames_rpc_register t p c : frames (rpc_register t p c).
Proof. unfold rpc_register. framed. Qed.

Lemma frames_rpc_open t p c : frames (rpc_open t p c).
Proof. unfold rpc_open. framed. Qed.
#[local] Hint Resolve frames_terminate frames_not_a_channel frames_rpc_register frames_rpc_open : frames.

Lemma frames_rpc_call t p c : u64_ok (argument2 c) -> frames (rpc_call t p c).
Proof.
  intros Hc. unfold rpc_call, find_channel_by_handle. framed; try solve [apply frames_prepare_server_thread, Hc].
Qed.

Lemma frames_rpc_close p c : frames (rpc_close p c).
Proof. unfold rpc_close, find_channel_by_handle. framed. Qed.
#[local] Hint Resolve frames_rpc_close : frames.

Lemma frames_dispatch_syscall c : u64_ok (argument2 c) -> frames (dispatch_syscall c).
Proof.
  intros Hc. unfold dispatch_syscall, rpc_dispatch_syscall. framed; try solve [apply frames_rpc_call, Hc].
Qed.
End calls.
#[export] Hint Resolve frames_terminate : frames.

Lemma frames_load_user_thread_frame t : frames (load_user_thread_frame t).
Proof. unfold load_user_thread_frame. framed. Qed.
#[export] Hint Resolve frames_load_user_thread_frame : frames.

Lemma frames_x64_handle_syscall f : u64_ok (rdx f) -> frames (x64_handle_syscall (Some f)).
Proof.
  intros Hf. unfold x64_handle_syscall. framed; try solve [by apply frames_dispatch_syscall].
Qed.
