(* ===== verification/SystemStart.v ===== *)
(** The processes the runtime starts with are those of the bootstrap record, each
    in a slot of its own; and the first thread runs in its address space. *)
From Stdlib Require Import String.
From S2P Require Import Prelude AddressSpace UserMemory KernelObjectPool RuntimeTypes UserRuntime Rpc Syscalls RuntimeInvariant KernelSafety RuntimeStart KernelFrames.
#[local] Open Scope Z_scope.

(** ** Operations on pools *)

Section pools.
Context {A : Type} `{RuntimePool A}.

Lemma emplace_in_returned construct k r k' :
  emplace_in (A := A) construct k = Returned r k' ->
  exists p next, emplace (pool (runtime k)) (m_next_handle_value (runtime k)) construct = (r, p, next) /\
    k' = with_runtime k (with_next_handle_value (with_pool (runtime k) p) next).
Proof.
  unfold emplace_in, mbind, M_bind. cbn. destruct (emplace _ _ _) as [[i p] next]. intros [= <- <-]. by exists p, next.
Qed.

Lemma update_returned i f k a k' :
  update (A := A) i f k = Returned a k' ->
  exists x, get_by_index (pool (runtime k)) i = Some x /\
    k' = with_runtime k (with_pool (runtime k) (update_at (pool (runtime k)) i (f x))).
Proof.
  intros E. unfold update in E. apply bind_returned in E as (x & k1 & E1 & E2).
  unfold read_at, mbind, M_bind in E1. cbn in E1. destruct (get_by_index _ i) as [x'|] eqn:Hx; [|done]. injection E1 as <- <-.
  injection E2 as <- <-. by exists x'.
Qed.

Lemma emplace_contents (p : kernel_object_pool A) next construct i p' next' :
  emplace p next construct = (Some i, p', next') ->
  get_by_index p i = None /\ (exists id h, get_by_index p' i = Some (construct id h)) /\
  forall j, j <> i -> get_by_index p' j = get_by_index p j.
Proof.
  unfold emplace. destruct (negb _); [done|]. destruct (first_free p) as [f|] eqn:Ef; [|done].
  destruct (allocate_handle_value next) as [h n]. intros [= -> <- _]. apply first_free_spec in Ef as [Hi _].
  pose proof (lookup_lt_Some _ _ _ Hi) as Hlt. unfold get_by_index. cbn [m_items]. split; [by rewrite Hi|]. split.
  - exists (m_next_object_id p), h. by rewrite list_lookup_insert_eq.
  - intros j Hj. by rewrite list_lookup_insert_ne.
Qed.

End pools.

Lemma create_process_returned metadata a k i k' :
  create_process metadata a k = Returned (Some i) k' ->
  host k' = host k /\ get_by_index (m_processes (runtime k)) i = None /\
  (exists q, get_by_index (m_processes (runtime k')) i = Some q /\ m_address_space q = a /\ m_metadata q = metadata) /\
  forall j, j <> i -> get_by_index (m_processes (runtime k')) j = get_by_index (m_processes (runtime k)) j.
Proof.
  intros E. apply bind_returned in E as (r & k1 & E1 & E). apply emplace_in_returned in E1 as (p & next & Em & ->).
  destruct r as [j|]; [|done]. apply bind_returned in E as (u & k2 & E2 & E). injection E as -> <-.
  apply emplace_contents in Em as (Hn & (id & h & Hi) & Ho).
  apply update_returned in E2 as (x & Hx & ->). cbn in *. rewrite Hi in Hx. injection Hx as <-.
  split; [done|]. split; [done|]. split.
  - eexists. rewrite (get_update_at _ _ _ _ _ Hi), decide_True by done. done.
  - intros j Hj. rewrite (get_update_at _ _ _ _ _ Hi), decide_False by done. by apply Ho.
Qed.

Lemma create_thread_returned q c has_out k r k' :
  create_thread q c has_out k = Returned r k' -> host k' = host k /\ m_processes (runtime k') = m_processes (runtime k).
Proof.
  unfold create_thread, with_handle. destruct has_out; cbn [negb]; [|by intros [= <- <-]]. intros E.
  apply bind_returned in E as (current & k1 & E1 & E).
  assert (H : host k1 = host k /\ m_processes (runtime k1) = m_processes (runtime k)).
  { apply bind_returned in E1 as (j & k2 & E2 & E1). apply emplace_in_returned in E2 as (p & next & _ & ->).
    destruct j as [j|]; [|by injection E1 as <- <-]. apply bind_returned in E1 as (u & k3 & E3 & E1). injection E1 as <- <-.
    by apply update_returned in E3 as (x & _ & ->). }
  destruct current as [j|]; [|by injection E as <- <-]. apply bind_returned in E as (x & k2 & E2 & E). injection E as <- <-.
  unfold read_at, mbind, M_bind in E2. cbn in E2. destruct (get_by_index _ j); [|done]. by injection E2 as <- <-.
Qed.

(** ** The processes of a list of configurations *)

(** Each process is that of a configuration, and no two of the same. *)
Definition processes_from (l : list initial_process_configuration) (r : user_runtime) : Prop :=
  exists f : nat -> nat,
    (forall p q, get_by_index (m_processes r) p = Some q -> exists c, l !! f p = Some c /\
       m_address_space q = initial_address_space c /\ m_metadata q = initial_metadata c) /\
    (forall p p', live_process r p -> live_process r p' -> f p = f p' -> p = p').

Lemma processes_from_same l r r' : m_processes r' = m_processes r -> processes_from l r -> processes_from l r'.
Proof. unfold processes_from, live_process. by intros ->. Qed.

Lemma processes_from_used r : used (m_processes r) 0 -> processes_from [] r.
Proof.
  intros Hu. exists id. unfold live_process. split; [intros p q|intros p p' [q Hp]]; rewrite Hu in * by lia; done.
Qed.

Lemma processes_from_snoc l c r r' i q :
  processes_from l r -> get_by_index (m_processes r) i = None ->
  get_by_index (m_processes r') i = Some q -> m_address_space q = initial_address_space c -> m_metadata q = initial_metadata c ->
  (forall j, j <> i -> get_by_index (m_processes r') j = get_by_index (m_processes r) j) ->
  processes_from (l ++ [c]) r'.
Proof.
  intros (f & Hf & Hinj) Hn Hi Ha Hm Ho.
  assert (Hlt : forall p, p <> i -> live_process r' p -> live_process r p /\ (f p < length l)%nat).
  { intros p Hp [x Hx]. rewrite Ho in Hx by done. split; [by exists x|]. apply Hf in Hx as (d & Hd & _). by eapply lookup_lt_Some. }
  exists (fun p => if decide (p = i) then length l else f p). split.
  - intros p x Hx. destruct (decide (p = i)) as [->|Hne].
    + exists c. split; [by apply list_lookup_middle|]. split; congruence.
    + rewrite Ho in Hx by done. apply Hf in Hx as (d & Hd & E). exists d. split; [by apply lookup_app_l_Some|done].
  - intros p p' Hp Hp'. destruct (decide (p = i)) as [->|Hne], (decide (p' = i)) as [->|Hne']; [done| | |].
    + destruct (Hlt p' Hne' Hp'). lia.
    + destruct (Hlt p Hne Hp). lia.
    + apply Hinj; by apply Hlt.
Qed.

Lemma create_initial_from c l k x k' :
  processes_from l (runtime k) -> create_initial c k = Returned (continues x) k' ->
  host k' = host k /\ processes_from (l ++ [c]) (runtime k').
Proof.
  intros Hl E. unfold create_initial in E. apply bind_returned in E as ([i|] & k1 & E1 & E); [|done].
  apply create_process_returned in E1 as (Hh & Hn & (q & Hq & Ha & Hm) & Ho).
  apply bind_returned in E as (t & k2 & E2 & E). apply create_thread_returned in E2 as [Hh2 Hp2].
  assert (k' = k2) as -> by (destruct t as [[j h]|]; [|done]; destruct (h =? 0); [done|by injection E as _ ->]).
  split; [congruence|]. apply (processes_from_same _ (runtime k1)); [done|]. by eapply processes_from_snoc.
Qed.

Lemma create_initials_from cs l k xs k' :
  processes_from l (runtime k) -> create_initials cs k = Returned (continues xs) k' ->
  host k' = host k /\ processes_from (l ++ cs) (runtime k').
Proof.
  revert l k xs k'. induction cs as [|c cs IH]; intros l k xs k' Hl E; cbn [create_initials] in E.
  - injection E as _ <-. by rewrite app_nil_r.
  - apply bind_returned in E as ([m|x] & k1 & E1 & E); [done|]. apply (create_initial_from c l) in E1 as [Hh1 Hl1]; [|done].
    apply bind_returned in E as ([m|xs'] & k2 & E2 & E); [done|]. apply (IH (l ++ [c])) in E2 as [Hh2 Hl2]; [|done].
    injection E as _ <-. split; [congruence|]. by rewrite <- app_assoc in Hl2.
Qed.

Lemma processes_from_wf l r : Forall process_config_ok l -> processes_from l r -> spaces_wf r.
Proof.
  intros Hl (f & Hf & _) p q Hq. apply Hf in Hq as (c & Hc & -> & _). by eapply Forall_lookup_1 in Hl; [|exact Hc].
Qed.

(** [run_bootstrap] from a runtime without processes. *)
Lemma run_bootstrap_from b k x k' :
  used (m_processes (runtime k)) 0 -> bootstrap_ok b -> run_bootstrap b k = Returned (continues x) k' ->
  processes_from (take (Z.to_nat (process_count b)) (initial_processes b)) (runtime k') /\ activated k' /\
  forall h, ~ user_byte (runtime k') h -> host k' h = host k h.
Proof.
  intros Hu (_ & _ & _ & Hb) E. unfold run_bootstrap in E. destruct (_ || _); [done|]. destruct (_ <=? _); [done|].
  apply bind_returned in E as ([m|xs] & k1 & E1 & E); [done|].
  apply (create_initials_from _ []) in E1 as [Hh1 Hl]; [|by apply processes_from_used]. cbn [app] in Hl.
  assert (Hw : spaces_wf (runtime k1)) by (by eapply processes_from_wf).
  apply bind_returned in E as ([p t] & k2 & E2 & E).
  assert (k2 = k1) as -> by (unfold in_bounds in E2; destruct (_ !! _); [by injection E2 as _ <-|done]).
  apply bind_returned in E as ([] & k2 & E2b & E). apply set_current_thread_activates in E2b as [F A]; [|done].
  apply bind_returned in E as ([] & k3 & E3 & E). injection E as _ <-.
  apply frames_emit in E3 as F3; [|done|by intros i q; rewrite (framed_processes _ _ F); apply Hw].
  pose proof (framed_trans _ _ _ F F3) as F'. split; [|split; [by apply F3|]].
  - by apply (processes_from_same _ _ _ (framed_processes _ _ F')).
  - intros h Hh. rewrite <- Hh1. apply F'. by rewrite <- (user_byte_processes _ _ _ (framed_processes _ _ F')).
Qed.

(** ** The owner of the first thread *)

(** The lines the kernel has logged. *)
Definition logged_lines (l : list kernel_event) : list (list Z) := omap (fun e => match e with debug_log m => Some m | _ => None end) l.

(** Threads stay, with their processes, and no line is logged. *)
Record carried (k k' : kernel) : Prop := {
  carried_owner t u : get_by_index (m_threads (runtime k)) t = Some u ->
    exists u', get_by_index (m_threads (runtime k')) t = Some u' /\ m_process u' = m_process u;
  carried_log : logged_lines (events k') = logged_lines (events k);
}.

Definition carries {A} (m : K A) : Prop := forall k a k', m k = Returned a k' -> carried k k'.

Lemma carried_refl k : carried k k.
Proof. constructor; [|done]. intros t u Hu. by exists u. Qed.

Lemma carried_trans k1 k2 k3 : carried k1 k2 -> carried k2 k3 -> carried k1 k3.
Proof.
  intros [O1 L1] [O2 L2]. constructor; [|congruence]. intros t u Hu. destruct (O1 t u Hu) as (u1 & H1 & E1).
  destruct (O2 t u1 H1) as (u2 & H2 & E2). exists u2. split; [done|congruence].
Qed.

Lemma carried_threads k k' : m_threads (runtime k') = m_threads (runtime k) -> events k' = events k -> carried k k'.
Proof. intros Et Ee. constructor; [|by rewrite Ee]. intros t u Hu. exists u. by rewrite Et. Qed.

Lemma carries_ret {A} (a : A) : carries (mret a).
Proof. intros k a' k' [= <- <-]. apply carried_refl. Qed.

Lemma carries_gets {A} (f : kernel -> A) : carries (gets f).
Proof. intros k a k' [= <- <-]. apply carried_refl. Qed.

Lemma carries_bind {A B} (m : K A) (f : A -> K B) : carries m -> (forall a, carries (f a)) -> carries (m ≫= f).
Proof. intros Hm Hf k b k' (a & k1 & E1 & E2)%bind_returned. eapply carried_trans; [by eapply Hm|by eapply Hf]. Qed.

Lemma carries_read_at {A} `{RuntimePool A} i : carries (read_at (A := A) i).
Proof.
  intros k a k' E. unfold read_at, mbind, M_bind in E. cbn in E. destruct (get_by_index _ i); [|done]. injection E as _ <-. apply carried_refl.
Qed.

Lemma carries_emit e : (forall m, e <> debug_log m) -> carries (emit e).
Proof.
  intros He k a k' [= <- <-]. constructor; [intros t u Hu; by exists u|]. unfold logged_lines. cbn [events]. rewrite omap_app.
  destruct e; cbn; rewrite ?app_nil_r; try done. by destruct (He message).
Qed.

Lemma carries_update_thread i (f : thread -> thread) : (forall t, m_process (f t) = m_process t) -> carries (update i f).
Proof.
  intros Hf k a k' (x & Hx & ->)%update_returned. constructor; [|done]. intros t u Hu. cbn in *.
  rewrite (get_update_at _ _ _ _ _ Hx). destruct (decide (i = t)) as [<-|]; [|by exists u].
  rewrite Hx in Hu. injection Hu as <-. by exists (f x).
Qed.

Lemma carries_update_process i (f : process -> process) : carries (update i f).
Proof. intros k a k' (x & Hx & ->)%update_returned. by apply carried_threads. Qed.

Lemma carries_set_current c : carries (set_runtime (fun r => with_current_thread r c)).
Proof. intros k a k' [= <- <-]. by apply carried_threads. Qed.

Create HintDb carries.
#[local] Hint Resolve carries_ret carries_gets carries_read_at carries_update_process carries_set_current : carries.

(** Sequences, branches and the operations above. *)
Ltac carry :=
  repeat first
    [ progress auto with carries
    | simple apply carries_emit; done
    | simple apply carries_update_thread; by intros []
    | apply carries_bind; [|intros ?]
    | match goal with |- carries (match ?x with _ => _ end) => destruct x end ].

Lemma carries_create_process metadata a : carries (create_process metadata a).
Proof.
  unfold create_process, create_in, grant_process_access. apply carries_bind; [|intros [i|]; carry].
  intros k r k' (p & next & _ & ->)%emplace_in_returned. by apply carried_threads.
Qed.

Lemma carries_set_current_thread c : carries (set_current_thread c).
Proof. unfold set_current_thread, get_current_thread, get_state, set_state. carry. Qed.

(** The thread is one of the process. *)
Definition owned (k : kernel) (x : nat * nat) : Prop :=
  exists t, get_by_index (m_threads (runtime k)) (snd x) = Some t /\ m_process t = Some (fst x).

Lemma owned_carried k k' x : carried k k' -> owned k x -> owned k' x.
Proof. intros C (t & Ht & Hp). destruct (carried_owner _ _ C _ t Ht) as (t' & Ht' & E). exists t'. split; [done|congruence]. Qed.

Lemma create_thread_owned q c k r k' :
  create_thread q c true k = Returned r k' -> carried k k' /\ forall j h, r = Some (j, h) -> owned k' (q, j).
Proof.
  unfold create_thread, with_handle, create_in. cbn [negb]. intros (current & k1 & E1 & E)%bind_returned.
  apply bind_returned in E1 as (i & k2 & E2 & E1). apply emplace_in_returned in E2 as (p & next & Em & ->).
  destruct i as [i|].
  2:{ injection E1 as <- <-. injection E as <- <-. split; [|done]. apply carried_threads; [|done]. cbn.
      unfold emplace in Em. by repeat case_match; simplify_eq. }
  pose proof Em as (Hn & (id & h & Hi) & Ho)%emplace_contents.
  set (k2 := with_runtime _ _) in *. assert (C2 : carried k k2).
  { constructor; [|done]. intros t u Hu. exists u. cbn. rewrite Ho; [done|]. intros ->. cbn in Hn. congruence. }
  assert (O2 : owned k2 (q, i)) by (by eexists).
  apply bind_returned in E1 as ([] & k3 & E3 & E1). injection E1 as <- <-.
  apply carries_update_thread in E3; [|by intros []]. apply bind_returned in E as (x & k4 & E4 & E). injection E as <- <-.
  apply carries_read_at in E4. pose proof (carried_trans _ _ _ E3 E4) as C4.
  split; [by eapply carried_trans|]. intros j h' [= <- _]. by eapply owned_carried.
Qed.

Lemma create_initial_owned c k r k' :
  create_initial c k = Returned r k' -> carried k k' /\ forall x, r = continues x -> owned k' x.
Proof.
  unfold create_initial. intros (i & k1 & E1 & E)%bind_returned. apply carries_create_process in E1.
  destruct i as [i|]; [|by injection E as <- <-]. apply bind_returned in E as (t & k2 & E2 & E).
  apply create_thread_owned in E2 as [C2 O2].
  assert (k' = k2 /\ forall x, r = continues x -> exists j h, t = Some (j, h) /\ x = (i, j)) as [-> Hr].
  { destruct t as [[j h]|]; [destruct (h =? 0)|]; injection E as <- <-; (split; [done|]); try done.
    intros x [= <-]. by exists j, h. }
  split; [by eapply carried_trans|]. intros x (j & h & -> & ->)%Hr. by eapply O2.
Qed.

Lemma create_initials_owned cs k r k' :
  create_initials cs k = Returned r k' -> carried k k' /\ forall xs, r = continues xs -> Forall (owned k') xs.
Proof.
  revert k r k'. induction cs as [|c cs IH]; intros k r k' E; cbn [create_initials] in E.
  - injection E as <- <-. split; [apply carried_refl|]. intros xs [= <-]. constructor.
  - apply bind_returned in E as (x & k1 & [C1 O1]%create_initial_owned & E).
    destruct x as [m|x]; [injection E as <- <-; by split|]. apply bind_returned in E as (ys & k2 & [C2 O2]%IH & E).
    injection E as <- <-. split; [by eapply carried_trans|]. intros xs. destruct ys as [m|ys]; [done|]. intros [= <-].
    constructor; [eapply owned_carried; [exact C2|by apply O1]|by apply O2].
Qed.

(** The thread the start enters is one of the process it enters, and no line is logged. *)
Lemma run_bootstrap_owned b k x k' :
  run_bootstrap b k = Returned (continues x) k' -> owned k' x /\ logged_lines (events k') = logged_lines (events k).
Proof.
  unfold run_bootstrap. destruct (_ || _); [done|]. destruct (_ <=? _); [done|].
  intros (xs & k1 & [C1 O1]%create_initials_owned & E)%bind_returned. destruct xs as [m|xs]; [done|].
  apply bind_returned in E as ([p t] & k2 & E2 & E). unfold in_bounds in E2. destruct (xs !! _) as [y|] eqn:Hy; [|done].
  injection E2 as -> <-. assert (O : owned k1 (p, t)) by (eapply Forall_lookup_1; [by apply O1|exact Hy]).
  assert (C : carried k1 k').
  { apply bind_returned in E as ([] & k2 & E2%carries_set_current_thread & E). apply bind_returned in E as ([] & k3 & E3 & E).
    apply carries_emit in E3; [|done]. injection E as _ <-. by eapply carried_trans. }
  assert (x = (p, t)) as ->.
  { apply bind_returned in E as ([] & k2 & _ & E). apply bind_returned in E as ([] & k3 & _ & E). by injection E as <- _. }
  split; [by eapply owned_carried|]. rewrite (carried_log _ _ C). apply C1.
Qed.
