(* ===== verification/X64System.v ===== *)
(** The x86-64 system: the kernel, the platform that prepares its processes, and
    user mode, which reads and writes memory only where the page tables of the
    active address space let it. *)
From Stdlib Require Import String.
From S2P Require Import Prelude AddressSpace UserMemory KernelObjectPool RuntimeTypes UserRuntime Rpc Syscalls RuntimeInvariant KernelSafety SyscallSafety RuntimeStart KernelSamples KernelFrames SystemStart PlatformMemory X64Platform X64PageTables X64Samples.
#[local] Open Scope Z_scope.

(** ** The entry of the first thread *)

(** What [enter_user_thread] has the platform do. *)
Definition entry_events (p t : nat) : list kernel_event :=
  [RuntimeTypes.arch_activate_process_address_space (Some p); arch_prepare_user_thread (Some t); debug_log X64_RUNTIME_READY].

Definition after_entry (k : kernel) (p t : nat) : kernel :=
  {| runtime := runtime k; host := host k; events := events k ++ entry_events p t |}.

(** The registers a thread enters user mode with. *)
Definition entry_registers (u : thread) : Z * Z * Z :=
  (context_instruction_pointer (m_user_context u), context_stack_pointer (m_user_context u), context_flags (m_user_context u)).

Lemma enter_user_thread_eq p t u k :
  get_by_index (m_threads (runtime k)) t = Some u -> enter_user_thread p t k = Returned (entry_registers u) (after_entry k p t).
Proof.
  intros Hu. unfold enter_user_thread, emit, read_at, lift, after_entry, entry_events, mbind, M_bind. cbn.
  rewrite Hu. cbn. by rewrite <- !app_assoc.
Qed.

Lemma enter_user_thread_returned p t k registers k' :
  enter_user_thread p t k = Returned registers k' -> k' = after_entry k p t.
Proof.
  intros E. destruct (get_by_index (m_threads (runtime k)) t) as [u|] eqn:Hu.
  - rewrite (enter_user_thread_eq p t u k Hu) in E. by injection E.
  - unfold enter_user_thread, emit, read_at, lift, mbind, M_bind in E. cbn in E. by rewrite Hu in E.
Qed.

Section system.
Context (platform : Z) (terminal_service_image test_app_image : embedded_image).
Abbreviation initialize := (initialize platform terminal_service_image test_app_image).

(** A state in which user mode runs, after [n] system calls. User mode stores a
    byte where the tables of the address space that was activated last let it. *)
Inductive x64_system : nat -> kernel -> Prop :=
  | system_start k0 p t k registers k' :
      image_ok (runtime k0) -> run_initial_user_runtime initialize k0 = Returned (continues (p, t)) k ->
      enter_user_thread p t k = Returned registers k' -> x64_system 0 k'
  | system_store n k p q va h v :
      x64_system n k ->
      last_activation (events k) = Some (Some p) -> get_by_index (m_processes (runtime k)) p = Some q ->
      0 <= va < 2 ^ 48 -> user_translation (host k) (arch_root_table (m_address_space q)) va = Some h ->
      x64_system n {| runtime := runtime k; host := poke (host k) h v; events := events k |}
  | system_call n k f f' k' :
      x64_system n k -> frame_ok f -> x64_handle_syscall (Some f) k = Returned (continues (true, f')) k' ->
      x64_system (S n) k'.

Hypothesis Hok : platform_ok platform terminal_service_image test_app_image.

Lemma system_reachable n k : x64_system n k -> x64_reachable initialize n k.
Proof.
  induction 1 as [k0 p t k registers k' Hi Hrun Hent|n k p q va h v Hk IH|n k f f' k' Hk IH Hf Hrun].
  - rewrite (enter_user_thread_returned _ _ _ _ _ Hent). apply reachable_user. by eapply reachable_start.
  - rewrite <- (app_nil_r (events k)). by apply reachable_user.
  - by eapply reachable_syscall.
Qed.

(** ** What holds between system calls *)

Definition storage (i : nat) : Z := m_process_storage platform (Z.of_nat i).

(** A byte of the user pages of one of the processes of the record. *)
Definition user_page (b : initial_user_runtime_bootstrap) (h : Z) : Prop :=
  exists i, Z.of_nat i < process_count b /\ user_page_byte (storage i) h.

(** The state since the platform left memory [m] and the record [b]. *)
Record isolated (m : host_memory) (b : initial_user_runtime_bootstrap) (k : kernel) : Prop := {
  isolated_built : platform_built platform terminal_service_image test_app_image m b;
  isolated_processes : processes_from (take (Z.to_nat (process_count b)) (initial_processes b)) (runtime k);
  isolated_active : activated k;
  isolated_host h : ~ user_page b h -> host k h = m h;
}.

Section isolated.
Context (m : host_memory) (b : initial_user_runtime_bootstrap).

Lemma process_count_bound : platform_built platform terminal_service_image test_app_image m b -> 1 <= process_count b <= 2.
Proof. intros Hb. rewrite (built_count _ _ _ _ _ Hb). destruct (has_embedded_image _); lia. Qed.

Lemma tables_outside i h : (i < 2)%nat -> storage i <= h < storage i + 0x6000 ->
  platform_built platform terminal_service_image test_app_image m b -> ~ user_page b h.
Proof.
  intros Hi Hh Hb (j & Hj & Hp). pose proof (process_count_bound Hb).
  unfold user_page_byte, user_image_pages, storage, m_process_storage, sizeof_process_storage in *. lia.
Qed.

Lemma isolated_mapped k i c :
  isolated m b k -> Z.of_nat i < process_count b -> initial_processes b !! i = Some c ->
  storage_ok (storage i) /\ process_mapped (host k) (storage i) (initial_address_space c).
Proof.
  intros [Hb _ _ Hh] Hi Hc. pose proof (process_count_bound Hb).
  split; [apply (storages_ok platform terminal_service_image test_app_image Hok); lia|].
  destruct (built_processes _ _ _ _ _ Hb i c Hi Hc) as [[Ht Hr Hw Hm] _]. constructor; try done.
  apply (tables_built_agree m); [done|]. intros y Hy. apply Hh. apply (tables_outside i); [lia|done|done].
Qed.

(** A process is mapped by the tables of one of the storages. *)
Lemma isolated_process k p q :
  isolated m b k -> get_by_index (m_processes (runtime k)) p = Some q ->
  exists i, Z.of_nat i < process_count b /\ storage_ok (storage i) /\ process_mapped (host k) (storage i) (m_address_space q).
Proof.
  intros Hk Hq. destruct (isolated_processes _ _ _ Hk) as (f & Hf & _). destruct (Hf p q Hq) as (c & Hc & E & _).
  apply lookup_take_Some in Hc as [Hc Hlt]. exists (f p). split; [lia|]. rewrite E. apply (isolated_mapped k); [done|lia|done].
Qed.

Lemma isolated_user_byte k h : isolated m b k -> user_byte (runtime k) h -> user_page b h.
Proof.
  intros Hk (p & q & x & Hq & Hx). destruct (isolated_process k p q Hk Hq) as (i & Hi & Hs & Hp).
  exists i. split; [done|]. by apply (process_user_page (host k) (storage i) (m_address_space q) x).
Qed.

Lemma isolated_framed k k' : isolated m b k -> framed k k' -> isolated m b k'.
Proof.
  intros Hk [Fp Fh Fa]. pose proof Hk as [Hb Hp Ha Hh]. constructor; [done|by eapply processes_from_same|auto|].
  intros h Hn. rewrite Fh; [by apply Hh|]. intros Hu. by apply Hn, (isolated_user_byte k).
Qed.

Lemma isolated_wf k : isolated m b k -> spaces_wf (runtime k).
Proof.
  intros Hk. apply (processes_from_wf (take (Z.to_nat (process_count b)) (initial_processes b))); [|apply Hk].
  destruct (isolated_built _ _ _ Hk) as [(_ & _ & _ & H) _ _ _]. exact H.
Qed.

Lemma isolated_store k p q va h v :
  isolated m b k -> get_by_index (m_processes (runtime k)) p = Some q ->
  0 <= va < 2 ^ 48 -> user_translation (host k) (arch_root_table (m_address_space q)) va = Some h ->
  isolated m b {| runtime := runtime k; host := poke (host k) h v; events := events k |}.
Proof.
  intros Hk Hq Hva Ht. destruct (isolated_process k p q Hk Hq) as (i & Hi & Hs & Hp).
  rewrite (user_translation_byte_host (host k) (storage i)) in Ht by done.
  pose proof Hk as [Hb Hpr Ha Hh]. constructor; [done|done|done|]. intros y Hy. cbn. unfold poke.
  destruct (Z.eqb_spec y h) as [->|]; [|by apply Hh]. exfalso. apply Hy, (isolated_user_byte k); [done|]. by exists p, q, va.
Qed.
End isolated.

(** No byte is mapped by two processes. *)
Lemma isolated_distinct m b k p p' q q' va va' h :
  isolated m b k ->
  get_by_index (m_processes (runtime k)) p = Some q -> get_by_index (m_processes (runtime k)) p' = Some q' ->
  byte_host (m_address_space q) va = Some h -> byte_host (m_address_space q') va' = Some h -> p = p'.
Proof.
  intros Hk Hq Hq' Hh Hh'. destruct (isolated_processes _ _ _ Hk) as (f & Hf & Hinj).
  apply Hinj; [by exists q|by exists q'|]. destruct (Hf p q Hq) as (c & Hc & E & _), (Hf p' q' Hq') as (c' & Hc' & E' & _).
  apply lookup_take_Some in Hc as [Hc Hlt]. apply lookup_take_Some in Hc' as [Hc' Hlt'].
  destruct (isolated_mapped m b k (f p) c Hk ltac:(lia) Hc) as [Hs Hp].
  destruct (isolated_mapped m b k (f p') c' Hk ltac:(lia) Hc') as [Hs' Hp']. rewrite <- E in Hp. rewrite <- E' in Hp'.
  apply (process_user_page _ _ _ _ _ Hs Hp) in Hh. apply (process_user_page _ _ _ _ _ Hs' Hp') in Hh'.
  unfold user_page_byte, user_image_pages, storage, m_process_storage, sizeof_process_storage in *. lia.
Qed.

(** The start: the platform, then the runtime's first processes. *)
Lemma start_isolated k0 k x :
  image_ok (runtime k0) -> run_initial_user_runtime initialize k0 = Returned (continues x) k ->
  owned k x /\ logged_lines (events k) = logged_lines (events k0) /\ exists m b, isolated m b k.
Proof.
  intros Hi E. unfold run_initial_user_runtime in E. apply bind_returned in E as ([] & k1 & E1 & E). injection E1 as <-.
  apply bind_returned in E as (r & k1 & E1 & E).
  pose proof (initialize_builds platform terminal_service_image test_app_image Hok (with_runtime k0 (reset_runtime (runtime k0)))) as Hb.
  unfold twp in Hb. rewrite E1 in Hb. destruct r as [msg|b]; [done|]. destruct Hb as (Hr & He & _ & Hb).
  pose proof (run_bootstrap_owned _ _ _ _ E) as [Ho Hlog]. rewrite He in Hlog. split; [done|]. split; [exact Hlog|].
  pose proof (starting_processes _ _ _ (reset_starting _ Hi)) as Hu. cbn [runtime with_runtime] in Hr. rewrite <- Hr in Hu.
  apply run_bootstrap_from in E as (Hp & Ha & Hh); [|done|apply Hb].
  exists (host k1), b. constructor; [done|done|done|]. intros h Hn. apply Hh. intros Hub. apply Hn.
  destruct Hub as (p & q & y & Hq & Hy). destruct Hp as (f & Hf & _). destruct (Hf p q Hq) as (c & Hc & Ea & _).
  apply lookup_take_Some in Hc as [Hc Hlt]. pose proof (process_count_bound _ _ Hb). exists (f p). split; [lia|].
  rewrite Ea in Hy. apply (process_user_page (host k1) (storage (f p)) (initial_address_space c) y); [|apply (built_processes _ _ _ _ _ Hb); [lia|done]|done].
  apply (storages_ok platform terminal_service_image test_app_image Hok). lia.
Qed.

(** The entry of the first thread activates the address space that is active. *)
Lemma entered_isolated m b k p t u :
  isolated m b k -> m_current_thread (runtime k) = Some t -> owned k (p, t) ->
  get_by_index (m_threads (runtime k)) t = Some u -> isolated m b (after_entry k p t).
Proof.
  intros [Hb Hp Ha Hh] Ec (v & Hv & Hpv) Hu. constructor; [done|done| |done]. intros t' u' Et' Hu'. cbn in *.
  assert (t' = t) as -> by congruence. assert (u' = v) as -> by congruence.
  unfold entry_events. rewrite Hpv. unfold last_activation. by rewrite foldl_app.
Qed.

Lemma system_isolated n k : x64_system n k -> exists m b, isolated m b k.
Proof.
  induction 1 as [k0 p t k registers k' Hi Hrun Hent|n k p q va h v Hk (m & b & IH) Hact Hq Hva Ht|n k f f' k' Hk (m & b & IH) Hf Hrun].
  - destruct (start_isolated k0 k (p, t) Hi Hrun) as (Ho & _ & m & b & Hk). exists m, b. rewrite (enter_user_thread_returned _ _ _ _ _ Hent).
    destruct Ho as (u & Hu & Hp). pose proof (run_initial_user_runtime_starts _ (x64_initialize_ok _ _ _ Hok) k0 Hi) as H.
    unfold twp in H. rewrite Hrun in H. destruct H as (_ & Hc & _). apply (entered_isolated m b k p t u); [done|done|by exists u|done].
  - exists m, b. by eapply isolated_store.
  - exists m, b. eapply isolated_framed; [exact IH|]. eapply frames_x64_handle_syscall; [apply Hf|by eapply isolated_wf|exact Hrun].
Qed.
End system.

(** C2: On x86-64, from the boot of the system (the platform builds page tables and images, the
    runtime creates the processes), through any interleaving of user-mode stores, to whatever
    the active page tables let user mode reach, and fewer than 2^63 system calls with any
    registers, every further system call returns to user mode or reports that nothing can run,
    without a panic, a null or dangling pointer, an access outside an array or a loop that does
    not end, and the runtime stays well formed: handles are unique in each pool, every pointer
    the kernel keeps refers to a live object, only the current thread runs, and endpoint names
    are distinct. *)
Theorem x64_system_safe platform terminal_service_image test_app_image n k f :
  platform_ok platform terminal_service_image test_app_image ->
  x64_system platform terminal_service_image test_app_image n k -> Z.of_nat n < 2 ^ 63 -> frame_ok f ->
  exists b f' k', x64_handle_syscall (Some f) k = Returned (continues (b, f')) k' /\ runtime_wf (runtime k').
Proof.
  intros Hok Hk. apply (x64_kernel_safe (initialize platform terminal_service_image test_app_image)).
  - intros k0. by apply x64_initialize_ok.
  - by apply system_reachable.
Qed.

Lemma system_starts platform terminal_service_image test_app_image k :
  platform_ok platform terminal_service_image test_app_image ->
  images_accepted terminal_service_image test_app_image -> image_ok (runtime k) ->
  exists p t u k1, run_initial_user_runtime (initialize platform terminal_service_image test_app_image) k = Returned (continues (p, t)) k1 /\
    logged_lines (events k1) = logged_lines (events k) /\
    get_by_index (m_threads (runtime k1)) t = Some u /\ m_process u = Some p /\
    x64_system platform terminal_service_image test_app_image 0 (after_entry k1 p t) /\
    runtime_wf (runtime k1) /\ m_current_thread (runtime k1) = Some t.
Proof.
  intros Hok Hl Hi.
  pose proof (run_initial_user_runtime_starts _ (x64_initialize_ok _ _ _ Hok) k Hi) as H.
  apply (proj1 (twp_returned _ _ _)) in H as (r & k' & E & H). destruct r as [msg|[p t]].
  - exfalso. destruct H as (k1 & r & k2 & E1 & H).
    pose proof (initialize_builds platform terminal_service_image test_app_image Hok k1) as Hb. unfold twp in Hb. rewrite E1 in Hb.
    destruct r as [m|b]; [by destruct (Hl m Hb)|]. apply H. destruct Hb as (_ & _ & _ & Hb). unfold bootstrap_in_range, USER_RUNTIME_MAX_INITIAL_PROCESSES.
    pose proof (process_count_bound _ _ _ _ _ Hb). rewrite (built_first _ _ _ _ _ Hb). lia.
  - destruct H as (Hw & Hc & _). destruct (start_isolated platform terminal_service_image test_app_image Hok k k' (p, t) Hi E) as ((u & Hu & Hp) & Hlog & _).
    exists p, t, u, k'. split_and!; try done. eapply system_start; [exact Hi|exact E|by apply enter_user_thread_eq].
Qed.

(** C3: In every state the x86-64 system reaches, by user-mode stores and system calls in any
    order: host memory outside the image and stack pages of the processes, the page tables
    included, is as the platform left it; the processor's translation of a process's addresses
    is the one the kernel uses, and reaches only that process's own image and stack pages; no
    byte is mapped by two processes; and the address space that was activated last is that of
    the current thread's process. *)
Theorem x64_system_isolated platform terminal_service_image test_app_image n k :
  platform_ok platform terminal_service_image test_app_image ->
  x64_system platform terminal_service_image test_app_image n k ->
  exists m b, platform_built platform terminal_service_image test_app_image m b /\
    (forall h, ~ user_page platform b h -> host k h = m h) /\
    (forall p q, get_by_index (m_processes (runtime k)) p = Some q -> exists i, Z.of_nat i < process_count b /\
       forall va, 0 <= va < 2 ^ 48 ->
         user_translation (host k) (arch_root_table (m_address_space q)) va = byte_host (m_address_space q) va /\
         forall h, byte_host (m_address_space q) va = Some h -> user_page_byte (storage platform i) h) /\
    (forall p p' q q' va va' h,
       get_by_index (m_processes (runtime k)) p = Some q -> get_by_index (m_processes (runtime k)) p' = Some q' ->
       byte_host (m_address_space q) va = Some h -> byte_host (m_address_space q') va' = Some h -> p = p') /\
    activated k.
Proof.
  intros Hok Hk. destruct (system_isolated platform terminal_service_image test_app_image Hok n k Hk) as (m & b & Hb).
  exists m, b. split; [apply Hb|]. split; [apply Hb|]. split; [|split; [|apply Hb]].
  - intros p q Hq. destruct (isolated_process _ _ _ Hok m b k p q Hb Hq) as (i & Hi & Hs & Hp). exists i. split; [done|].
    intros va Hva. split; [by apply (user_translation_byte_host (host k) (storage platform i))|].
    intros h. by apply (process_user_page (host k) (storage platform i)).
  - intros p p' q q' va va' h Hq Hq' Hh Hh'. by apply (isolated_distinct _ _ _ Hok m b k p p' q q' va va' h).
Qed.

(** ** The sample system *)

Lemma x64_system_safe_witness :
  exists k b f' k', x64_system sample_platform sample_service sample_app 0 k /\
    x64_handle_syscall (Some sample_frame) k = Returned (continues (b, f')) k' /\ runtime_wf (runtime k').
Proof.
  destruct (system_starts sample_platform sample_service sample_app KernelSamples.sample_image
              sample_platform_ok sample_images_accepted sample_image_ok) as (p & t & _ & k1 & _ & _ & _ & _ & Hk & _).
  revert Hk. generalize (after_entry k1 p t). intros k Hk.
  destruct (x64_system_safe sample_platform sample_service sample_app 0 k sample_frame sample_platform_ok Hk
              ltac:(lia) sample_frame_ok) as (b & f' & k' & H).
  exists k, b, f', k'. split; [exact Hk|exact H].
Defined.

Lemma x64_system_isolated_witness :
  exists k m b, x64_system sample_platform sample_service sample_app 0 k /\
    platform_built sample_platform sample_service sample_app m b /\
    (forall h, ~ user_page sample_platform b h -> host k h = m h).
Proof.
  destruct (system_starts sample_platform sample_service sample_app KernelSamples.sample_image
              sample_platform_ok sample_images_accepted sample_image_ok) as (p & t & _ & k1 & _ & _ & _ & _ & Hk & _).
  revert Hk. generalize (after_entry k1 p t). intros k Hk.
  destruct (x64_system_isolated sample_platform sample_service sample_app 0 k sample_platform_ok Hk) as (m & b & Hb & Hh & _).
  exists k, m, b. split; [exact Hk|]. split; [exact Hb|exact Hh].
Defined.
