(* ===== verification/Arm64Platform.v ===== *)
(** The arm64 platform, [arch/arm64/arm64_initial_user_runtime_platform.cpp]: the
    translation tables and images of the first processes, built in host memory,
    and the system registers. *)
From Stdlib Require Import String.
From S2P Require Import Prelude AddressSpace UserMemory KernelObjectPool RuntimeTypes UserRuntime Syscalls PeImage X64PeImage LoadStatus PlatformMemory.
#[local] Open Scope Z_scope.

Definition ARM64_USER_RUNTIME_PAGE_SIZE : Z := 4096.
Definition ARM64_USER_RUNTIME_LARGE_PAGE_SIZE : Z := 0x200000.
Definition ARM64_USER_RUNTIME_USER_REGION_SIZE : Z := ARM64_USER_RUNTIME_LARGE_PAGE_SIZE.

Definition PAGE_SIZE : Z := ARM64_USER_RUNTIME_PAGE_SIZE.
Definition LARGE_PAGE_SIZE : Z := ARM64_USER_RUNTIME_LARGE_PAGE_SIZE.
Definition KERNEL_IDENTITY_SIZE : Z := 0x2000000.
Definition KERNEL_BLOCK_COUNT : Z := KERNEL_IDENTITY_SIZE / LARGE_PAGE_SIZE.
Definition USER_REGION_VIRTUAL_ADDRESS : Z := X64_USER_IMAGE_VIRTUAL_ADDRESS.
Definition KERNEL_IDENTITY_BASE : Z := 0x40000000.
Definition USER_REGION_SIZE : Z := ARM64_USER_RUNTIME_USER_REGION_SIZE.
Definition USER_BLOCK_INDEX : Z := USER_REGION_VIRTUAL_ADDRESS / LARGE_PAGE_SIZE.
Definition KERNEL_ROOT_INDEX : Z := Z.shiftr KERNEL_IDENTITY_BASE 30.
Definition ARM64_INITIAL_PSTATE : Z := 0.
Definition X64_INITIAL_RFLAGS : Z := 0x202.
Definition WINDOWS_X64_STACK_HOME_SPACE_SIZE : Z := 32.

Definition TABLE_DESCRIPTOR : Z := 0x3.
Definition BLOCK_DESCRIPTOR : Z := 0x1.
Definition ATTRIBUTE_INDEX_NORMAL : Z := Z.shiftl 0 2.
Definition ACCESS_PERMISSION_USER_RW : Z := Z.shiftl 1 6.
Definition INNER_SHAREABLE : Z := Z.shiftl 3 8.
Definition ACCESS_FLAG : Z := Z.shiftl 1 10.

Definition SCTLR_MMU_ENABLE : Z := Z.shiftl 1 0.
Definition SCTLR_DATA_CACHE_ENABLE : Z := Z.shiftl 1 2.
Definition SCTLR_INSTRUCTION_CACHE_ENABLE : Z := Z.shiftl 1 12.
Definition CPACR_EL1_FPEN_FULL_ACCESS : Z := Z.shiftl 3 20.

Definition TCR_T0SZ_39_BIT_VA : Z := 25.
Definition TCR_IRGN0_WRITE_BACK : Z := Z.shiftl 1 8.
Definition TCR_ORGN0_WRITE_BACK : Z := Z.shiftl 1 10.
Definition TCR_SH0_INNER_SHAREABLE : Z := Z.shiftl 3 12.
Definition TCR_TG0_4KB : Z := Z.shiftl 0 14.
Definition TCR_EPD1_DISABLE : Z := Z.shiftl 1 23.

Definition MAIR_ATTRIBUTE_NORMAL_WRITE_BACK : Z := 0xFF.
Definition MAIR_ATTRIBUTE_DEVICE_NGNRNE : Z := Z.shiftl 0x00 8.

(** ** [arm64_process_storage]: the offsets of its members, and of its elements
    in the platform object.  [x64_guest_state], between the tables and the
    region, is kept apart, in [Arm64Emulation]. *)

Definition root_table (storage : Z) : Z := storage.
Definition lower_block_table (storage : Z) : Z := storage + 0x1000.
Definition kernel_block_table (storage : Z) : Z := storage + 0x2000.
Definition user_region_storage (storage : Z) : Z := storage + 0x4000.
Definition sizeof_process_storage : Z := 0x4000 + USER_REGION_SIZE + LARGE_PAGE_SIZE.

Definition m_process_storage (platform index : Z) : Z := platform + index * sizeof_process_storage.

Definition make_table_descriptor (address : Z) : Z := Z.lor (Z.land address (not64 0xFFF)) TABLE_DESCRIPTOR.

Definition make_block_descriptor (address flags : Z) : Z :=
  Z.lor (Z.lor (Z.land address (not64 0x1FFFFF)) flags) BLOCK_DESCRIPTOR.

Definition align_up (value alignment : Z) : Z :=
  let alignment_mask := u64 (alignment - 1) in
  Z.land (u64 (value + alignment_mask)) (not64 alignment_mask).

Definition get_user_region (storage : Z) : Z := align_up (user_region_storage storage) LARGE_PAGE_SIZE.

Definition has_embedded_image (image : embedded_image) : bool :=
  negb (image_start image =? 0) && (image_start image <? image_end image).

Definition initialize_process_storage (m : host_memory) (storage : Z) : host_memory :=
  memset m storage 0 sizeof_process_storage.

Definition initialize_translation_tables (m : host_memory) (storage : Z) : host_memory :=
  let m := write_entry m (root_table storage) 0 (make_table_descriptor (lower_block_table storage)) in
  let m := write_entry m (root_table storage) KERNEL_ROOT_INDEX (make_table_descriptor (kernel_block_table storage)) in
  let user_region := get_user_region storage in
  let m := write_entry m (lower_block_table storage) USER_BLOCK_INDEX
             (make_block_descriptor user_region
                (Z.lor (Z.lor (Z.lor ATTRIBUTE_INDEX_NORMAL ACCESS_PERMISSION_USER_RW) INNER_SHAREABLE) ACCESS_FLAG)) in
  for_range (Z.to_nat KERNEL_BLOCK_COUNT) 0 (fun block_index m =>
    write_entry m (kernel_block_table storage) block_index
      (make_block_descriptor (KERNEL_IDENTITY_BASE + block_index * LARGE_PAGE_SIZE)
         (Z.lor (Z.lor ATTRIBUTE_INDEX_NORMAL INNER_SHAREABLE) ACCESS_FLAG))) m.

(** The loop over the storages for the one whose root table is the process's;
    [n] of them from [index]. *)
Fixpoint find_storage (platform root : Z) (n : nat) (index : Z) : option Z :=
  match n with
  | O => None
  | S n => if root_table (m_process_storage platform index) =? root then Some index else find_storage platform root n (index + 1)
  end.

Definition get_process_storage (platform : Z) (process_context : process) : may_panic Z :=
  match find_storage platform (arch_root_table (m_address_space process_context)) (Z.to_nat USER_RUNTIME_MAX_INITIAL_PROCESSES) 0 with
  | Some index => continues index
  | None => panics "arm64 could not resolve process storage for the scheduled process"
  end.

Definition arm64_load_config : pe_image_load_config :=
  {| expected_machine := PE_MACHINE_ARM64; expected_image_base := USER_REGION_VIRTUAL_ADDRESS;
     expected_section_alignment := PAGE_SIZE; expected_file_alignment := PAGE_SIZE;
     loaded_image_size := USER_REGION_SIZE; allow_imports := false; allow_relocations := false |}.

(** A loader is given the host memory from the user region on, as long as the
    size it is told. *)
Definition load_into {A} (storage size : Z) (load : M (list Z) A) : K A :=
  k ← get;
  match load (host_bytes (host k) (get_user_region storage) (Z.to_nat size)) with
  | Returned a loaded => set_host (store_bytes (host k) (get_user_region storage) loaded);; mret a
  | Undefined u => undefined u
  | OutOfFuel => out_of_fuel
  end.

Definition initialize_arm64_pe_image (image : embedded_image) (storage : Z) : K (may_panic Z) :=
  loaded ← load_into storage USER_REGION_SIZE
    (load_pe32_plus_image (Some (image_contents image)) (u64 (image_end image - image_start image)) true arm64_load_config true);
  let '(load_status, load_result) := loaded in
  if decide (load_status <> PE_IMAGE_LOAD_STATUS_OK)
  then mret (panics (describe_pe_image_load_status load_status))
  else
    match load_result with
    | Some result => mret (continues (entry_point result))
    | None => undefined null_dereference
    end.

Definition initialize_x64_emulator_image (image : embedded_image) (storage : Z) : K (may_panic Z) :=
  let user_region := get_user_region storage in
  k ← get;
  set_host (memset (host k) user_region 0 USER_REGION_SIZE);;
  loaded ← load_into storage X64_USER_REGION_SIZE
    (load_x64_pe64_image (Some (image_contents image)) (u64 (image_end image - image_start image)) X64_USER_IMAGE_VIRTUAL_ADDRESS
       true X64_USER_REGION_SIZE None true);
  let '(load_status, image_info) := loaded in
  if decide (load_status <> X64_PE64_IMAGE_LOAD_STATUS_OK)
  then mret (panics (describe_x64_pe64_image_load_status load_status))
  else
    k ← get;
    set_host (write_u64 (host k) (user_region + X64_USER_REGION_SIZE - 8) 0);;
    match image_info with
    | Some info => mret (continues (info_entry_point info))
    | None => undefined null_dereference
    end.

Definition populate_native_bootstrap_for_process (storage : Z) (image : embedded_image) : K (may_panic initial_process_configuration) :=
  k ← get;
  set_host (initialize_translation_tables (initialize_process_storage (host k) storage) storage);;
  let user_region := get_user_region storage in
  loaded ← initialize_arm64_pe_image image storage;
  match loaded with
  | panics m => mret (panics m)
  | continues entry_point =>
      let '(added, address_space_info) :=
        add_address_space_mapping (rooted (root_table storage)) USER_REGION_VIRTUAL_ADDRESS user_region USER_REGION_SIZE in
      if negb added then mret (panics "failed to initialize arm64 bootstrap mappings")
      else
        mret (continues
          {| initial_metadata :=
               {| guest_architecture := PROCESS_GUEST_ARCHITECTURE_ARM64; personality := PROCESS_PERSONALITY_RINGOS;
                  execution_backend := PROCESS_EXECUTION_BACKEND_NATIVE |};
             initial_address_space := address_space_info;
             initial_thread_context :=
               {| context_instruction_pointer := entry_point;
                  context_stack_pointer := USER_REGION_VIRTUAL_ADDRESS + USER_REGION_SIZE;
                  context_flags := ARM64_INITIAL_PSTATE; context_argument0 := 0 |} |})
  end.

Definition populate_x64_emulator_bootstrap (storage : Z) (image : embedded_image) : K (may_panic initial_process_configuration) :=
  k ← get;
  set_host (initialize_translation_tables (initialize_process_storage (host k) storage) storage);;
  let user_region := get_user_region storage in
  loaded ← initialize_x64_emulator_image image storage;
  match loaded with
  | panics m => mret (panics m)
  | continues entry_point =>
      let '(added, address_space_info) :=
        add_address_space_mapping (rooted (root_table storage)) USER_REGION_VIRTUAL_ADDRESS user_region X64_USER_REGION_SIZE in
      if negb added then mret (panics "failed to initialize x64 emulator bootstrap mappings")
      else
        mret (continues
          {| initial_metadata :=
               {| guest_architecture := PROCESS_GUEST_ARCHITECTURE_X64; personality := PROCESS_PERSONALITY_RINGOS;
                  execution_backend := PROCESS_EXECUTION_BACKEND_X64_EMULATOR |};
             initial_address_space := address_space_info;
             initial_thread_context :=
               {| context_instruction_pointer := entry_point;
                  context_stack_pointer := X64_USER_STACK_VIRTUAL_ADDRESS + PAGE_SIZE - 8 - WINDOWS_X64_STACK_HOME_SPACE_SIZE;
                  context_flags := X64_INITIAL_RFLAGS; context_argument0 := 0 |} |})
  end.

(** [try_get_pe_machine] on an embedded image: it writes no memory but its result. *)
Definition pe_machine_of (image : embedded_image) : K (option Z) :=
  match try_get_pe_machine (Some (image_contents image)) (u64 (image_end image - image_start image)) true [] with
  | Returned pe_machine _ => mret pe_machine
  | Undefined u => undefined u
  | OutOfFuel => out_of_fuel
  end.

(** One of the two branches of [initialize]: the terminal service, if there is
    one, in the first storage, and the client after it. *)
Definition initialize_processes (platform : Z) (terminal_service_image test_app_image : embedded_image)
    (populate_client : Z -> embedded_image -> K (may_panic initial_process_configuration)) : K (may_panic initial_user_runtime_bootstrap) :=
  if has_embedded_image terminal_service_image then
    terminal ← populate_native_bootstrap_for_process (m_process_storage platform 0) terminal_service_image;
    match terminal with
    | panics m => mret (panics m)
    | continues terminal =>
        client ← populate_client (m_process_storage platform 1) test_app_image;
        match client with
        | panics m => mret (panics m)
        | continues client =>
            mret (continues {| process_count := 2; initial_process_index := 0; initial_processes := [terminal; client] |})
        end
    end
  else
    client ← populate_client (m_process_storage platform 0) test_app_image;
    match client with
    | panics m => mret (panics m)
    | continues client =>
        mret (continues {| process_count := 1; initial_process_index := 0; initial_processes := [client; zero_configuration] |})
    end.

(** [platform]: the address of the platform object. *)
Definition initialize (platform : Z) (terminal_service_image test_app_image : embedded_image)
    : K (may_panic initial_user_runtime_bootstrap) :=
  pe_machine ← pe_machine_of test_app_image;
  if bool_decide (pe_machine = Some PE_MACHINE_ARM64)
  then initialize_processes platform terminal_service_image test_app_image populate_native_bootstrap_for_process
  else
    pe_machine ← pe_machine_of test_app_image;
    if bool_decide (pe_machine = Some PE_MACHINE_X64)
    then initialize_processes platform terminal_service_image test_app_image populate_x64_emulator_bootstrap
    else mret (panics "arm64 attached user image has an unsupported signature").

(** ** The processor *)

Inductive system_register := VBAR_EL1 | MAIR_EL1 | TCR_EL1 | TTBR0_EL1 | SCTLR_EL1 | CPACR_EL1.

#[export] Instance system_register_eq_dec : EqDecision system_register.
Proof. solve_decision. Defined.

(** The instructions that have been executed, last one first. *)
Inductive system_instruction := msr (r : system_register) (value : Z) | tlbi_vmalle1.

Record arm64_cpu := {
  system_registers : system_register -> Z;
  executed : list system_instruction;
  m_mmu_enabled : bool;
}.

Definition write_register (r : system_register) (value : Z) : M arm64_cpu unit :=
  modify (fun c => {| system_registers := fun r' => if decide (r' = r) then value else system_registers c r';
                      executed := msr r value :: executed c; m_mmu_enabled := m_mmu_enabled c |}).

Definition write_vector_base (vector_base : Z) : M arm64_cpu unit := write_register VBAR_EL1 vector_base.
Definition write_mair (value : Z) : M arm64_cpu unit := write_register MAIR_EL1 value.
Definition write_tcr (value : Z) : M arm64_cpu unit := write_register TCR_EL1 value.
Definition write_ttbr0 (value : Z) : M arm64_cpu unit := write_register TTBR0_EL1 value.
Definition read_system_control : M arm64_cpu Z := gets (fun c => system_registers c SCTLR_EL1).
Definition write_system_control (value : Z) : M arm64_cpu unit := write_register SCTLR_EL1 value.
Definition enable_fp_simd : M arm64_cpu unit := write_register CPACR_EL1 CPACR_EL1_FPEN_FULL_ACCESS.

Definition invalidate_tlb : M arm64_cpu unit :=
  modify (fun c => {| system_registers := system_registers c; executed := tlbi_vmalle1 :: executed c; m_mmu_enabled := m_mmu_enabled c |}).

(** [exception_vectors]: the address of [arm64_exception_vectors]. *)
Definition enable_mmu (exception_vectors : Z) : M arm64_cpu unit :=
  let tcr_value := Z.lor (Z.lor (Z.lor (Z.lor (Z.lor TCR_T0SZ_39_BIT_VA TCR_IRGN0_WRITE_BACK) TCR_ORGN0_WRITE_BACK)
                     TCR_SH0_INNER_SHAREABLE) TCR_TG0_4KB) TCR_EPD1_DISABLE in
  write_vector_base exception_vectors;;
  write_mair (Z.lor MAIR_ATTRIBUTE_NORMAL_WRITE_BACK MAIR_ATTRIBUTE_DEVICE_NGNRNE);;
  write_tcr tcr_value;;
  enable_fp_simd;;
  invalidate_tlb;;
  system_control ← read_system_control;
  write_system_control (Z.lor (Z.lor (Z.lor system_control SCTLR_MMU_ENABLE) SCTLR_DATA_CACHE_ENABLE) SCTLR_INSTRUCTION_CACHE_ENABLE);;
  modify (fun c => {| system_registers := system_registers c; executed := executed c; m_mmu_enabled := true |}).

Definition prepare_thread_launch (exception_vectors : Z) : M arm64_cpu unit := write_vector_base exception_vectors.

Definition activate_process_address_space (exception_vectors : Z) (process_context : option process) : M arm64_cpu unit :=
  match process_context with
  | None => mret tt
  | Some p =>
      let root_table := arch_root_table (m_address_space p) in
      if root_table =? 0 then mret tt
      else
        write_ttbr0 root_table;;
        invalidate_tlb;;
        c ← get;
        if negb (m_mmu_enabled c) then enable_mmu exception_vectors else mret tt
  end.
