(* ===== verification/Arm64PageTables.v ===== *)
(** What the translation tables of [Arm64Platform] translate: the table walk of
    the processor (VMSAv8-64, 4 KB granule, 39-bit addresses) as a reference, and
    its result on the tables the platform builds. *)
From Stdlib Require Import String.
From S2P Require Import Prelude AddressSpace UserMemory KernelObjectPool RuntimeTypes UserRuntime Syscalls RuntimeInvariant KernelSafety RuntimeStart PeImage X64PeImage LoadStatus PlatformMemory Arm64Platform.
#[local] Open Scope Z_scope.

(** * The processor's translation *)

Record translation := { physical_address : Z; user_access : bool; write_access : bool }.

Definition descriptor_valid (d : Z) : bool := Z.testbit d 0.
Definition descriptor_is_table (d : Z) : bool := Z.testbit d 1.       (* or a page, at the last level *)
Definition access_permission_user (d : Z) : bool := Z.testbit d 6.
Definition access_permission_read_only (d : Z) : bool := Z.testbit d 7.
Definition access_flag (d : Z) : bool := Z.testbit d 10.
Definition table_no_user (d : Z) : bool := Z.testbit d 61.
Definition table_read_only (d : Z) : bool := Z.testbit d 62.
Definition output_address (d : Z) : Z := Z.land d (Z.ones 48 - Z.ones 12).

(** The size of what a descriptor maps with [levels] levels below it. *)
Definition block_size (levels : nat) : Z := 2 ^ (12 + 9 * Z.of_nat levels).

Definition walk_index (va : Z) (levels : nat) : Z := va / block_size levels mod 512.

(** A page or block; without the access flag, an access faults. *)
Definition leaf (levels : nat) (d va : Z) (user write : bool) : option translation :=
  if access_flag d then
    Some {| physical_address := output_address d / block_size levels * block_size levels + va mod block_size levels;
            user_access := user && access_permission_user d; write_access := write && negb (access_permission_read_only d) |}
  else None.

Fixpoint walk (levels : nat) (m : host_memory) (table va : Z) (user write : bool) : option translation :=
  let d := read_u64 m (table + walk_index va levels * 8) in
  if negb (descriptor_valid d) then None
  else
    match levels with
    | O => if descriptor_is_table d then leaf O d va user write else None
    | S next =>
        if descriptor_is_table d
        then walk next m (output_address d) va (user && negb (table_no_user d)) (write && negb (table_read_only d))
        else leaf levels d va user write
    end.

(** TCR_EL1.T0SZ = 25: the walk starts at level 1. *)
Definition translate (m : host_memory) (root va : Z) : option translation := walk 2 m root va true true.

(** Where a read or write at EL0 goes. *)
Definition user_translation (m : host_memory) (root va : Z) : option Z :=
  match translate m root va with
  | Some t => if user_access t && write_access t then Some (physical_address t) else None
  | None => None
  end.

(** * The tables of a process *)

(** A storage is page-aligned physical memory. *)
Definition storage_ok (s : Z) : Prop := s mod 4096 = 0 /\ 0 < s /\ s + 0x404000 <= 0x1000000000000.

Definition user_descriptor_flags : Z := 0x741.
Definition kernel_descriptor_flags : Z := 0x701.

Record tables_built (m : host_memory) (s : Z) : Prop := {
  built_root i : 0 <= i < 512 ->
    read_u64 m (root_table s + i * 8) = if i =? 0 then lower_block_table s + 3 else if i =? 1 then kernel_block_table s + 3 else 0;
  built_lower i : 0 <= i < 512 ->
    read_u64 m (lower_block_table s + i * 8) = if i =? 2 then get_user_region s + user_descriptor_flags else 0;
  built_kernel i : 0 <= i < 512 ->
    read_u64 m (kernel_block_table s + i * 8) = if i <? 16 then KERNEL_IDENTITY_BASE + i * 0x200000 + kernel_descriptor_flags else 0;
}.

Lemma not64_ones n : 0 <= n <= 64 -> not64 (2 ^ n - 1) = Z.ones 64 - Z.ones n.
Proof.
  intros Hn. replace (2 ^ n - 1) with (Z.ones n) by (rewrite Z.ones_equiv; lia).
  rewrite Z.sub_nocarry_ldiff.
  - apply Z.bits_inj'. intros i Hi. unfold not64. rewrite Z.lxor_spec, Z.ldiff_spec, !Z.testbit_ones_nonneg by lia.
    destruct (Z.ltb_spec i n), (Z.ltb_spec i 64); try done. lia.
  - apply Z.bits_inj'. intros i Hi. rewrite Z.ldiff_spec, Z.bits_0, !Z.testbit_ones_nonneg by lia.
    destruct (Z.ltb_spec i n), (Z.ltb_spec i 64); try done. lia.
Qed.

Lemma cleared_low n v : 0 <= n <= 64 -> u64_ok v -> Z.land v (not64 (2 ^ n - 1)) = v / 2 ^ n * 2 ^ n.
Proof.
  intros Hn Hv. assert (H : 0 < 2 ^ n) by (apply Z.pow_pos_nonneg; lia). rewrite not64_ones by done.
  pose proof (Z.mod_pos_bound v (2 ^ n) H). pose proof (Z.div_mod v (2 ^ n) ltac:(lia)) as Ev.
  rewrite Ev at 1. rewrite Z.mul_comm. unfold u64_ok in Hv.
  apply masked_address; [done| |by apply Z.mod_mul; lia|done]. pose proof (Z.div_pos v (2 ^ n)). nia.
Qed.

(** The region of a storage is a large page inside it. *)
Lemma user_region_spec s :
  storage_ok s -> get_user_region s mod 0x200000 = 0 /\ s + 0x4000 <= get_user_region s /\ get_user_region s + 0x200000 <= s + 0x404000.
Proof.
  intros (Ha & Hp & Hm). unfold get_user_region, align_up, user_region_storage.
  change (u64 (LARGE_PAGE_SIZE - 1)) with (2 ^ 21 - 1). rewrite u64_id by words. rewrite cleared_low by (done || words).
  change (2 ^ 21) with 0x200000. split; [by apply Z.mod_mul|].
  pose proof (Z.div_mod (s + 16384 + (0x200000 - 1)) 0x200000 ltac:(lia)) as E.
  pose proof (Z.mod_pos_bound (s + 16384 + (0x200000 - 1)) 0x200000 ltac:(lia)).
  pose proof (Z.div_mod s 4096 ltac:(lia)). lia.
Qed.

Lemma make_table_descriptor_sum a : u64_ok a -> a mod 4096 = 0 -> make_table_descriptor a = a + 3.
Proof.
  intros Ha Hm. unfold make_table_descriptor. change (not64 0xFFF) with (not64 (2 ^ 12 - 1)). rewrite cleared_low by (done || lia).
  change (2 ^ 12) with 4096. replace (a / 4096 * 4096) with a by (pose proof (Z.div_mod a 4096 ltac:(lia)); lia).
  by apply (aligned_lor 12).
Qed.

Lemma make_block_descriptor_sum a flags :
  u64_ok a -> a mod 0x200000 = 0 -> 0 <= flags < 0x1000 -> Z.land flags 1 = 0 -> make_block_descriptor a flags = a + (flags + 1).
Proof.
  intros Ha Hm Hf H1. unfold make_block_descriptor. change (not64 0x1FFFFF) with (not64 (2 ^ 21 - 1)).
  rewrite cleared_low by (done || lia). change (2 ^ 21) with 0x200000.
  replace (a / 0x200000 * 0x200000) with a by (pose proof (Z.div_mod a 0x200000 ltac:(lia)); lia).
  rewrite <- Z.lor_assoc. change BLOCK_DESCRIPTOR with 1. pose proof (Z.add_lor_land flags 1).
  rewrite (aligned_lor 21); [lia|done|done|]. change (2 ^ 21) with 0x200000. lia.
Qed.

Ltac table_offsets := unfold root_table, lower_block_table, kernel_block_table in *.

Section storage.
Context (s : Z) (Hs : storage_ok s).

Lemma storage_aligned k : (s + k * 4096) mod 4096 = 0.
Proof. destruct Hs as (H & _). by rewrite Z.mod_add. Qed.

Lemma table_descriptor k : 0 <= k < 3 -> make_table_descriptor (s + k * 4096) = s + k * 4096 + 3.
Proof. intros. destruct Hs as (? & ? & ?). apply make_table_descriptor_sum; [words|apply storage_aligned]. Qed.

Lemma user_descriptor :
  make_block_descriptor (get_user_region s)
    (Z.lor (Z.lor (Z.lor ATTRIBUTE_INDEX_NORMAL ACCESS_PERMISSION_USER_RW) INNER_SHAREABLE) ACCESS_FLAG)
  = get_user_region s + user_descriptor_flags.
Proof.
  destruct (user_region_spec s Hs) as (? & ? & ?). destruct Hs as (? & ? & ?).
  by rewrite make_block_descriptor_sum by (done || words).
Qed.

Definition kernel_descriptor (i : Z) : Z :=
  make_block_descriptor (KERNEL_IDENTITY_BASE + i * LARGE_PAGE_SIZE)
    (Z.lor (Z.lor ATTRIBUTE_INDEX_NORMAL INNER_SHAREABLE) ACCESS_FLAG).

Lemma kernel_descriptor_value i :
  0 <= i < 16 -> kernel_descriptor i = KERNEL_IDENTITY_BASE + i * 0x200000 + kernel_descriptor_flags.
Proof.
  intros Hi. unfold kernel_descriptor. change LARGE_PAGE_SIZE with 0x200000. change KERNEL_IDENTITY_BASE with 0x40000000.
  rewrite make_block_descriptor_sum; [done|words| |done|done].
  replace (0x40000000 + i * 0x200000) with ((512 + i) * 0x200000) by lia. by apply Z.mod_mul.
Qed.

Definition kernel_table_step (m : host_memory) : host_memory :=
  for_range 16 0 (fun i m => write_u64 m (s + 0x2000 + i * 8) (kernel_descriptor i)) m.

Lemma initialize_translation_tables_steps m :
  initialize_translation_tables m s
  = kernel_table_step (write_u64 (write_u64 (write_u64 m (s + 0 * 8) (s + 1 * 4096 + 3)) (s + 1 * 8) (s + 2 * 4096 + 3))
      (s + 0x1000 + 2 * 8) (get_user_region s + user_descriptor_flags)).
Proof.
  unfold initialize_translation_tables, write_entry. rewrite user_descriptor.
  rewrite <- (table_descriptor 1), <- (table_descriptor 2) by lia. reflexivity.
Qed.

Lemma initialize_tables_changes m lo hi : lo <= s -> s + 0x3000 <= hi -> changes_in lo hi m (initialize_translation_tables m s).
Proof.
  intros. rewrite initialize_translation_tables_steps. eapply changes_in_trans; [|apply fill_changes; lia].
  do 3 (eapply changes_in_trans; [|apply write_u64_changes; lia]). apply changes_in_refl.
Qed.

Lemma initialize_storage_changes m : changes_in s (s + 0x404000) m (initialize_process_storage m s).
Proof. exact (memset_changes m s 0 0x404000 ltac:(lia)). Qed.

Lemma storage_cleared m a : s <= a -> a + 8 <= s + 0x404000 -> read_u64 (initialize_process_storage m s) a = 0.
Proof. exact (read_u64_memset m s 0x404000 a ltac:(lia)). Qed.

Lemma kernel_table_step_other m a :
  a + 8 <= s + 0x2000 \/ s + 0x3000 <= a -> read_u64 (kernel_table_step m) a = read_u64 m a.
Proof. intros. apply (read_u64_unchanged (s + 0x2000) (s + 0x3000)); [apply fill_changes; lia|lia]. Qed.

Lemma initialize_tables_built m : tables_built (initialize_translation_tables (initialize_process_storage m s) s) s.
Proof.
  destruct (user_region_spec s Hs) as (Hr & Hlo & Hhi). pose proof Hs as (Ha & Hp & Hm).
  pose proof (storage_cleared m) as Hz. set (m0 := initialize_process_storage m s) in *. clearbody m0.
  rewrite initialize_translation_tables_steps. constructor; intros i Hi; table_offsets.
  - rewrite kernel_table_step_other, read_write_u64_other by lia. destruct (Z.eqb_spec i 0) as [->|H0].
    { rewrite !read_write_u64_other by lia. rewrite read_write_u64 by words. lia. }
    destruct (Z.eqb_spec i 1) as [->|H1].
    { rewrite read_write_u64 by words. lia. }
    rewrite !read_write_u64_other by lia. apply Hz; lia.
  - rewrite kernel_table_step_other by lia. destruct (Z.eqb_spec i 2) as [->|H0].
    { rewrite read_write_u64; [done|]. unfold user_descriptor_flags. words. }
    rewrite !read_write_u64_other by lia. apply Hz; lia.
  - unfold kernel_table_step. rewrite fill_entry; [|lia|lia|intros k Hk; rewrite kernel_descriptor_value by lia; unfold KERNEL_IDENTITY_BASE, kernel_descriptor_flags; words].
    change (0 + Z.of_nat 16) with 16. rewrite (proj2 (Z.leb_le 0 i)) by lia. cbn [andb].
    destruct (Z.ltb_spec i 16); [apply kernel_descriptor_value; lia|]. rewrite !read_write_u64_other by lia. apply Hz; lia.
Qed.
End storage.

(** * The translation *)

(** The kernel's blocks. *)
Definition kernel_address (va : Z) : bool := (KERNEL_IDENTITY_BASE <=? va) && (va <? KERNEL_IDENTITY_BASE + KERNEL_IDENTITY_SIZE).

Definition user_address_range (va : Z) : bool := (USER_REGION_VIRTUAL_ADDRESS <=? va) && (va <? USER_REGION_VIRTUAL_ADDRESS + USER_REGION_SIZE).

(** What the tables of a storage translate. *)
Definition storage_translation (s va : Z) : option translation :=
  if user_address_range va
  then Some {| physical_address := get_user_region s + (va - USER_REGION_VIRTUAL_ADDRESS); user_access := true; write_access := true |}
  else if kernel_address va then Some {| physical_address := va; user_access := false; write_access := true |}
  else None.

Section translation.
Context (m : host_memory) (s : Z) (Hs : storage_ok s) (Hb : tables_built m s).

Lemma arm64_walk_absent levels table va user write :
  read_u64 m (table + walk_index va levels * 8) = 0 -> walk levels m table va user write = None.
Proof. intros He. destruct levels; cbn [walk]; by rewrite He. Qed.

Lemma output_address_sum a f : a mod 4096 = 0 -> 0 <= a < 0x1000000000000 -> 0 <= f < 4096 -> output_address (a + f) = a.
Proof. intros. by apply masked_address. Qed.

Lemma descriptor_bit a f i : a mod 4096 = 0 -> 0 <= f < 4096 -> 0 <= i < 12 -> Z.testbit (a + f) i = Z.testbit f i.
Proof. intros. by apply (aligned_testbit 12). Qed.

Lemma high_bit a i : 0 <= a < 0x1000000000000 -> 48 <= i -> Z.testbit a i = false.
Proof. intros. by apply (testbit_high 48). Qed.

(** Through a table descriptor of the platform. *)
Lemma walk_table levels table va user write a :
  read_u64 m (table + walk_index va (S levels) * 8) = a + 3 -> a mod 4096 = 0 -> 0 <= a < 0x1000000000000 - 4096 ->
  walk (S levels) m table va user write = walk levels m a va user write.
Proof.
  intros He Ha Hr. cbn [walk]. rewrite He. unfold descriptor_valid, descriptor_is_table, table_no_user, table_read_only.
  rewrite output_address_sum, (descriptor_bit a 3 0), (descriptor_bit a 3 1), (high_bit _ 61), (high_bit _ 62) by (done || lia). cbn [Z.testbit Pos.testbit negb].
  by rewrite !andb_true_r.
Qed.

(** At a block descriptor of the platform. *)
Lemma walk_block table va user write a f :
  read_u64 m (table + walk_index va 1 * 8) = a + f -> a mod 0x200000 = 0 -> 0 <= a < 0x1000000000000 ->
  f = user_descriptor_flags \/ f = kernel_descriptor_flags ->
  walk 1 m table va user write
  = Some {| physical_address := a + va mod 0x200000; user_access := user && (f =? user_descriptor_flags); write_access := write |}.
Proof.
  intros He Ha Hr Hf. assert (Ha' : a mod 4096 = 0).
  { pose proof (Z.div_mod a 0x200000 ltac:(lia)) as E. rewrite Ha in E.
    replace a with (a / 0x200000 * 512 * 4096) by lia. by apply Z.mod_mul. }
  assert (0 <= f < 4096) by (destruct Hf as [-> | ->]; unfold user_descriptor_flags, kernel_descriptor_flags; lia).
  cbn [walk]. rewrite He. unfold leaf, descriptor_valid, descriptor_is_table, access_flag, access_permission_user, access_permission_read_only.
  rewrite !descriptor_bit, output_address_sum by (done || lia). change (block_size 1) with 0x200000.
  replace (a / 0x200000 * 0x200000) with a by (pose proof (Z.div_mod a 0x200000 ltac:(lia)); lia).
  destruct Hf as [-> | ->]; cbn [Z.testbit Pos.testbit negb user_descriptor_flags kernel_descriptor_flags Z.eqb Pos.eqb];
    by rewrite ?andb_true_r, ?andb_false_r.
Qed.

Lemma arm64_va_split va :
  0 <= va < 2 ^ 39 ->
  exists i2 i1 offset, va = (i2 * 512 + i1) * 0x200000 + offset /\ 0 <= i2 < 512 /\ 0 <= i1 < 512 /\ 0 <= offset < 0x200000 /\
    walk_index va 2 = i2 /\ walk_index va 1 = i1 /\ va mod 0x200000 = offset.
Proof.
  intros Hva. unfold walk_index. change (block_size 2) with (0x200000 * 512). change (block_size 1) with 0x200000.
  change (2 ^ 39) with (0x200000 * 512 * 512) in Hva.
  exists (va / (0x200000 * 512)), (va / 0x200000 mod 512), (va mod 0x200000).
  assert (0 <= va / (0x200000 * 512) < 512) by (split; [apply Z.div_pos|apply Z.div_lt_upper_bound]; lia).
  split_and!; try apply Z.mod_pos_bound; try done; try lia; [|by apply Z.mod_small].
  rewrite <- !Z.div_div by lia.
  pose proof (Z.div_mod va 0x200000 ltac:(lia)). pose proof (Z.div_mod (va / 0x200000) 512 ltac:(lia)). lia.
Qed.

Lemma arm64_translate_storage va : 0 <= va < 2 ^ 39 -> translate m (root_table s) va = storage_translation s va.
Proof.
  intros Hva. destruct (arm64_va_split va Hva) as (i2 & i1 & o & Eva & H2 & H1 & Ho & E2 & E1 & Eo).
  destruct (user_region_spec s Hs) as (Hr & Hlo & Hhi). pose proof Hs as (Ha & Hp & Hm).
  unfold translate, storage_translation, user_address_range, kernel_address.
  change USER_REGION_VIRTUAL_ADDRESS with 0x400000. change USER_REGION_SIZE with 0x200000.
  change KERNEL_IDENTITY_BASE with 0x40000000. change KERNEL_IDENTITY_SIZE with 0x2000000.
  pose proof (built_root _ _ Hb i2 H2) as B2. destruct (Z.eqb_spec i2 0) as [->|H0].
  - rewrite (walk_table 1 _ _ _ _ (lower_block_table s));
      [|by rewrite E2|apply (storage_aligned s Hs 1)|unfold lower_block_table; lia].
    pose proof (built_lower _ _ Hb i1 H1) as B1. destruct (Z.eqb_spec i1 2) as [->|Hn].
    + rewrite (walk_block _ _ _ _ (get_user_region s) user_descriptor_flags); [|by rewrite E1|done|lia|by left].
      rewrite (proj2 (Z.leb_le 0x400000 va)), (proj2 (Z.ltb_lt va _)) by lia. cbn [andb]. rewrite Eo. rewrite Z.eqb_refl. do 2 f_equal. lia.
    + rewrite arm64_walk_absent by (by rewrite E1).
      destruct (Z.leb_spec 0x400000 va), (Z.ltb_spec va (0x400000 + 0x200000)), (Z.leb_spec 0x40000000 va); cbn [andb]; try done; lia.
  - assert (Hu : (0x400000 <=? va) && (va <? 0x400000 + 0x200000) = false).
    { apply andb_false_iff. right. apply Z.ltb_ge. lia. }
    rewrite Hu. destruct (Z.eqb_spec i2 1) as [->|Hn].
    + rewrite (walk_table 1 _ _ _ _ (kernel_block_table s));
        [|by rewrite E2|apply (storage_aligned s Hs 2)|unfold kernel_block_table; lia].
      pose proof (built_kernel _ _ Hb i1 H1) as B1. change KERNEL_IDENTITY_BASE with 0x40000000 in B1.
      rewrite (proj2 (Z.leb_le 0x40000000 va)) by lia. cbn [andb]. destruct (Z.ltb_spec i1 16).
      * rewrite (walk_block _ _ _ _ (0x40000000 + i1 * 0x200000) kernel_descriptor_flags); [|by rewrite E1| |lia|by right].
        -- rewrite (proj2 (Z.ltb_lt va _)) by lia. rewrite Eo. cbn [andb]. do 2 f_equal. lia.
        -- replace (0x40000000 + i1 * 0x200000) with ((512 + i1) * 0x200000) by lia. by apply Z.mod_mul.
      * rewrite arm64_walk_absent by (by rewrite E1). by rewrite (proj2 (Z.ltb_ge va _)) by lia.
    + rewrite arm64_walk_absent by (by rewrite E2).
      rewrite (proj2 (Z.leb_le 0x40000000 va)), (proj2 (Z.ltb_ge va _)) by lia. done.
Qed.
End translation.

(** * The processes the platform prepares *)

(** An embedded image: bytes, as long as its symbols say. *)
Record embedded_ok (image : embedded_image) : Prop := {
  embedded_bytes : Forall u8_ok (image_contents image);
  embedded_size : image_end image - image_start image = file_size (image_contents image);
  embedded_u64 : u64_ok (file_size (image_contents image));
}.

Definition emulator_load_config : pe_image_load_config := x64_load_config X64_USER_IMAGE_VIRTUAL_ADDRESS X64_USER_REGION_SIZE.

(** The data of an image's sections ends within the region given to the loader. *)
Definition image_fits (config : pe_image_load_config) (image : embedded_image) : Prop :=
  well_formed_headers (image_contents image) config = true ->
  Forall (section_data_fits (loaded_image_size config)) (image_sections (image_contents image)).

(** The images each loader accepts. *)
Definition native_loadable (image : embedded_image) : Prop := well_formed_image (image_contents image) arm64_load_config = true.

Definition emulator_loadable (image : embedded_image) : Prop :=
  well_formed_image (image_contents image) emulator_load_config = true /\
  directory_virtual_address (import_directory_of (image_contents image)) = 0.

(** The images each loader refuses, with the message of the panic. *)
Definition native_refused (image : embedded_image) (message : string) : Prop :=
  pe_image_refused (image_contents image) arm64_load_config message.

Definition emulator_refused (image : embedded_image) (message : string) : Prop :=
  x64_image_refused (image_contents image) X64_USER_IMAGE_VIRTUAL_ADDRESS X64_USER_REGION_SIZE message.

Lemma native_loadable_not_refused image message :
  embedded_ok image -> image_fits arm64_load_config image -> native_loadable image -> ~ native_refused image message.
Proof. intros [Hb _ Hu] Hf Hw. by apply well_formed_not_refused. Qed.

Lemma emulator_loadable_not_refused image message :
  embedded_ok image -> image_fits emulator_load_config image -> emulator_loadable image -> ~ emulator_refused image message.
Proof. intros [Hb _ Hu] Hf [Hw Hno]. by apply without_imports_not_refused. Qed.

(** A process whose tables are in memory, and whose address space is [size]
    bytes of its region. *)
Record process_mapped (m : host_memory) (s size : Z) (a : address_space) : Prop := {
  mapped_tables : tables_built m s;
  mapped_root : arch_root_table a = root_table s;
  mapped_wf : address_space_wf a;
  mapped_mappings : active a = [new_mapping USER_REGION_VIRTUAL_ADDRESS (get_user_region s) size];
}.

Record native_built (m : host_memory) (s : Z) (image : embedded_image) (c : initial_process_configuration) : Prop := {
  native_mapped : process_mapped m s USER_REGION_SIZE (initial_address_space c);
  native_backend : execution_backend (initial_metadata c) = PROCESS_EXECUTION_BACKEND_NATIVE;
  native_image i : 0 <= i < USER_REGION_SIZE -> m (get_user_region s + i) = image_byte (image_contents image) i;
  native_entry : context_instruction_pointer (initial_thread_context c) = entry_point (accepted_result (image_contents image) arm64_load_config);
}.

Definition no_imports : provision := fun _ _ _ _ _ _ _ => False.

Lemma arm64_no_resolver_valid : valid_resolver None no_imports.
Proof. done. Qed.

Record emulator_built (m : host_memory) (s : Z) (image : embedded_image) (c : initial_process_configuration) : Prop := {
  emulator_mapped : process_mapped m s X64_USER_REGION_SIZE (initial_address_space c);
  emulator_backend : execution_backend (initial_metadata c) = PROCESS_EXECUTION_BACKEND_X64_EMULATOR;
  emulator_image : exists info loaded,
    x64_loaded (image_contents image) X64_USER_IMAGE_VIRTUAL_ADDRESS X64_USER_REGION_SIZE no_imports info loaded /\
    context_instruction_pointer (initial_thread_context c) = info_entry_point info /\
    forall j, 0 <= j < X64_USER_REGION_SIZE - 8 -> loaded !! Z.to_nat j = Some (m (get_user_region s + j));
}.

(** The part of a storage whose contents matter: tables and region. *)
Lemma arm64_tables_built_agree m m' s :
  tables_built m s -> (forall y, s <= y < s + 0x3000 -> m' y = m y) -> tables_built m' s.
Proof.
  intros Hb Hc.
  assert (E : forall a, s <= a -> a + 8 <= s + 0x3000 -> read_u64 m' a = read_u64 m a).
  { intros a Hlo Hhi. unfold read_u64. f_equal. apply host_bytes_agree. intros. apply Hc. lia. }
  constructor; intros; (rewrite E by (table_offsets; lia)); by apply Hb.
Qed.

Lemma process_mapped_agree m m' s size a :
  process_mapped m s size a -> (forall y, s <= y < s + 0x3000 -> m' y = m y) -> process_mapped m' s size a.
Proof. intros [Ht Hr Hw Hm] H. constructor; try done. by eapply arm64_tables_built_agree. Qed.

Lemma native_built_agree m m' s image c :
  storage_ok s -> native_built m s image c -> (forall y, s <= y < s + 0x404000 -> m' y = m y) -> native_built m' s image c.
Proof.
  intros Hs [Hm Hb Hi He] H. destruct (user_region_spec s Hs) as (_ & Hlo & Hhi). constructor; try done.
  - eapply process_mapped_agree; [done|]. intros. apply H. lia.
  - intros i Hr. rewrite H; [by apply Hi|]. change USER_REGION_SIZE with 0x200000 in Hr. lia.
Qed.

(** ** Loading an image *)

Lemma twp_load_into {A} (storage size : Z) (load : M (list Z) A) (Q : A -> list Z -> Prop) (R : A -> kernel -> Prop) (k : kernel) :
  0 <= size ->
  (forall l, Z.of_nat (length l) = size -> twp load (fun a l' => length l' = length l /\ Q a l') l) ->
  (forall l a l', Z.of_nat (length l) = size -> load l = Returned a l' -> Z.of_nat (length l') = size -> Q a l' ->
     R a {| runtime := runtime k; host := store_bytes (host k) (get_user_region storage) l'; events := events k |}) ->
  twp (load_into storage size load) R k.
Proof.
  intros Hsz Hload HR. unfold load_into. apply twp_bind, twp_gets.
  set (l := host_bytes (host k) (get_user_region storage) (Z.to_nat size)).
  assert (Hl : Z.of_nat (length l) = size) by (unfold l, host_bytes; rewrite length_fmap, length_seq; lia).
  clearbody l. specialize (Hload l Hl). apply (proj1 (twp_returned _ _ _)) in Hload as (a & l' & E & Hlen & HQ). rewrite E.
  apply twp_bind, twp_modify, twp_ret. apply (HR l); [done|done|lia|done].
Qed.

Section populate.
Context (s : Z) (Hs : storage_ok s) (image : embedded_image) (Hi : embedded_ok image).

(** What a load may change, and what it leaves. *)
Definition loads (k k' : kernel) : Prop :=
  runtime k' = runtime k /\ events k' = events k /\
  changes_in (get_user_region s) (get_user_region s + USER_REGION_SIZE) (host k) (host k').

Lemma initialize_arm64_pe_image_loads k :
  image_fits arm64_load_config image ->
  twp (initialize_arm64_pe_image image s)
    (fun r k' => match r with
                 | panics message => native_refused image message
                 | continues entry =>
                     loads k k' /\ entry = entry_point (accepted_result (image_contents image) arm64_load_config) /\
                     forall i, 0 <= i < USER_REGION_SIZE -> host k' (get_user_region s + i) = image_byte (image_contents image) i
                 end) k.
Proof.
  intros Hf. destruct Hi as [Hb Hsz Hu]. unfold initialize_arm64_pe_image. rewrite Hsz, u64_id by done. apply twp_bind.
  apply (twp_load_into s USER_REGION_SIZE _
    (fun r l => if well_formed_image (image_contents image) arm64_load_config
                then r = (PE_IMAGE_LOAD_STATUS_OK, Some (accepted_result (image_contents image) arm64_load_config)) /\
                     forall i, 0 <= i < USER_REGION_SIZE -> l !! Z.to_nat i = Some (image_byte (image_contents image) i)
                else fst r <> PE_IMAGE_LOAD_STATUS_OK)); [by vm_compute| |].
  - intros l Hl. eapply twp_mono; [exact (load_pe32_plus_image_twp (image_contents image) arm64_load_config Hb Hu l Hl Hf)|].
    intros r l' [Hlen Ho]. split; [done|]. destruct (well_formed_image _ _); tauto.
  - intros l0 [st result] l Hl0 E Hl Ho. destruct (well_formed_image _ _).
    2:{ rewrite decide_True by done. apply twp_ret. by exists l0, st, result, l. }
    destruct Ho as [[= -> ->] Ho]. rewrite decide_False by tauto. apply twp_ret. unfold loads. cbn [host runtime events].
    split; [split; [done|]; split; [done|]; apply store_bytes_changes; lia|]. split; [done|]. intros i Hr.
    apply store_bytes_inside; [lia|]. rewrite <- Ho by done. f_equal. lia.
Qed.

Lemma region_cleared (k : kernel) :
  twp (set_host (memset (host k) (get_user_region s) 0 USER_REGION_SIZE)) (fun _ k1 => loads k k1) k.
Proof. apply twp_modify. split; [done|]. split; [done|]. by apply memset_changes. Qed.

Lemma initialize_x64_emulator_image_loads k :
  image_fits emulator_load_config image ->
  twp (initialize_x64_emulator_image image s)
    (fun r k' => match r with
                 | panics message => emulator_refused image message
                 | continues entry =>
                     loads k k' /\ exists info loaded,
                       x64_loaded (image_contents image) X64_USER_IMAGE_VIRTUAL_ADDRESS X64_USER_REGION_SIZE no_imports info loaded /\
                       entry = info_entry_point info /\
                       forall j, 0 <= j < X64_USER_REGION_SIZE - 8 -> loaded !! Z.to_nat j = Some (host k' (get_user_region s + j))
                 end) k.
Proof.
  intros Hf. destruct Hi as [Hb Hsz Hu]. unfold initialize_x64_emulator_image. rewrite Hsz, u64_id by done.
  apply twp_bind, twp_gets. eapply twp_seq; [exact (region_cleared k)|]. intros [] k1 (Rk1 & Ek1 & C1). apply twp_bind.
  apply (twp_load_into s X64_USER_REGION_SIZE _
    (fun r l => exists info, snd r = Some info /\
                (fst r = X64_PE64_IMAGE_LOAD_STATUS_OK ->
                 x64_loaded (image_contents image) X64_USER_IMAGE_VIRTUAL_ADDRESS X64_USER_REGION_SIZE no_imports info l))); [by vm_compute| |].
  - intros l Hl.
    pose proof (load_x64_pe64_image_twp (image_contents image) X64_USER_IMAGE_VIRTUAL_ADDRESS no_imports l None
      Hb Hu arm64_no_resolver_valid) as Hload. rewrite Hl in Hload. specialize (Hload Hf).
    unfold twp in *. destruct (load_x64_pe64_image _ _ _ _ _ _ _ l) as [[st info] l'| |]; [|done..].
    destruct Hload as (Hlen & _ & info' & Hinfo & Hst). cbn [fst snd] in *. subst info. rewrite Hl in Hst.
    split; [done|]. exists info'. split; [done|]. intros ->. by rewrite decide_True in Hst.
  - intros l0 [st info] l Hl0 E Hl (info' & Hinfo & Hst). cbn [fst snd] in *. subst info.
    destruct (decide (st = X64_PE64_IMAGE_LOAD_STATUS_OK)) as [Hok|Hno].
    2:{ rewrite decide_True by done. apply twp_ret. by exists l0, st, (Some info'), l. }
    rewrite decide_False by tauto. apply twp_bind, twp_gets, twp_bind, twp_modify, twp_ret. unfold loads. cbn [runtime events host].
    change X64_USER_REGION_SIZE with 0xA000 in *. change USER_REGION_SIZE with 0x200000 in *.
    split; [split; [exact Rk1|]; split; [exact Ek1|]|].
    + eapply changes_in_trans; [|apply write_u64_changes; lia]. eapply changes_in_trans; [exact C1|apply store_bytes_changes; lia].
    + exists info', l. split; [by apply Hst|]. split; [done|]. intros j Hj.
      pose proof (write_u64_changes (store_bytes (host k1) (get_user_region s) l) (get_user_region s + 0xA000 - 8) 0
        (get_user_region s + 0xA000 - 8) (get_user_region s + 0xA000) ltac:(lia) ltac:(lia)) as Hc.
      rewrite Hc by lia. destruct (lookup_lt_is_Some_2 l (Z.to_nat j)) as [b Hbj]; [lia|]. rewrite Hbj. f_equal. symmetry.
      apply store_bytes_inside; [lia|]. rewrite <- Hbj. f_equal. lia.
Qed.

(** What preparing a process leaves. *)
Definition prepared (refused : string -> Prop) (built : host_memory -> initial_process_configuration -> Prop) (k : kernel)
    (r : may_panic initial_process_configuration) (k' : kernel) : Prop :=
  match r with
  | panics message => refused message
  | continues c => runtime k' = runtime k /\ events k' = events k /\ changes_in s (s + 0x404000) (host k) (host k') /\ built (host k') c
  end.

Lemma region_mapping size :
  0 < size <= USER_REGION_SIZE ->
  exists a, add_address_space_mapping (rooted (root_table s)) USER_REGION_VIRTUAL_ADDRESS (get_user_region s) size = (true, a) /\
    address_space_wf a /\ active a = [new_mapping USER_REGION_VIRTUAL_ADDRESS (get_user_region s) size] /\ arch_root_table a = root_table s.
Proof.
  intros Hsz. destruct (user_region_spec s Hs) as (_ & Hlo & Hhi). pose proof Hs as (_ & Hp & Hm).
  change USER_REGION_SIZE with 0x200000 in Hsz. change USER_REGION_VIRTUAL_ADDRESS with 0x400000.
  destruct (add_mapping_succeeds (rooted (root_table s)) 0x400000 (get_user_region s) size) as (a & E & Hw & Ha & Hr);
    [apply rooted_wf|words|words|words|lia|change UINTPTR_MAX with 0xFFFFFFFFFFFFFFFF; lia|apply Nat.lt_0_succ|exact (List.Forall_nil _)|].
  exists a. split; [done|]. split; [done|]. split; [|by rewrite Hr]. rewrite Ha. reflexivity.
Qed.

(** The tables are built, and the load of the image leaves them alone. *)
Lemma mapped_after_load k k1 k2 size a :
  host k1 = initialize_translation_tables (initialize_process_storage (host k) s) s -> loads k1 k2 ->
  address_space_wf a -> active a = [new_mapping USER_REGION_VIRTUAL_ADDRESS (get_user_region s) size] -> arch_root_table a = root_table s ->
  changes_in s (s + 0x404000) (host k) (host k2) /\ process_mapped (host k2) s size a.
Proof.
  intros E1 (_ & _ & C) Hw Ha Hr. destruct (user_region_spec s Hs) as (_ & Hlo & Hhi). change USER_REGION_SIZE with 0x200000 in C. split.
  - eapply changes_in_trans; [|eapply changes_in_sub; [exact C|lia|lia]]. rewrite E1.
    eapply changes_in_trans; [apply initialize_storage_changes|apply initialize_tables_changes; [exact Hs|lia|lia]].
  - constructor; [|done..]. apply (arm64_tables_built_agree (host k1)).
    + rewrite E1. by apply initialize_tables_built.
    + intros y Hy. apply C. lia.
Qed.

Lemma populate_native_builds k :
  image_fits arm64_load_config image ->
  twp (populate_native_bootstrap_for_process s image)
    (prepared (native_refused image) (fun m c => native_built m s image c) k) k.
Proof.
  intros Hf. unfold populate_native_bootstrap_for_process. apply twp_bind, twp_gets, twp_bind, twp_modify.
  set (k1 := {| runtime := runtime k; host := _; events := _ |}). assert (E1 : host k1 = initialize_translation_tables (initialize_process_storage (host k) s) s) by done.
  assert (R1 : runtime k1 = runtime k /\ events k1 = events k) by done. clearbody k1.
  eapply twp_seq; [by apply initialize_arm64_pe_image_loads|]. intros [msg|entry] k2 H; [by apply twp_ret|].
  destruct H as (Hl & -> & Hbytes). destruct (region_mapping USER_REGION_SIZE) as (a & -> & Hw & Ha & Hr); [by vm_compute|].
  cbn [negb]. apply twp_ret. destruct (mapped_after_load k k1 k2 _ a E1 Hl Hw Ha Hr) as [C M]. destruct Hl as (Rt & Ev & _), R1 as [R1 V1].
  split; [congruence|]. split; [congruence|]. split; [done|]. by constructor.
Qed.

Lemma populate_emulator_builds k :
  image_fits emulator_load_config image ->
  twp (populate_x64_emulator_bootstrap s image)
    (prepared (emulator_refused image) (fun m c => emulator_built m s image c) k) k.
Proof.
  intros Hf. unfold populate_x64_emulator_bootstrap. apply twp_bind, twp_gets, twp_bind, twp_modify.
  set (k1 := {| runtime := runtime k; host := _; events := _ |}). assert (E1 : host k1 = initialize_translation_tables (initialize_process_storage (host k) s) s) by done.
  assert (R1 : runtime k1 = runtime k /\ events k1 = events k) by done. clearbody k1.
  eapply twp_seq; [by apply initialize_x64_emulator_image_loads|]. intros [msg|entry] k2 H; [by apply twp_ret|].
  destruct H as (Hl & info & l & Hx & -> & Hbytes). destruct (region_mapping X64_USER_REGION_SIZE) as (a & -> & Hw & Ha & Hr); [by vm_compute|].
  cbn [negb]. apply twp_ret. destruct (mapped_after_load k k1 k2 _ a E1 Hl Hw Ha Hr) as [C M]. destruct Hl as (Rt & Ev & _), R1 as [R1 V1].
  split; [congruence|]. split; [congruence|]. split; [done|]. constructor; [done|done|]. by exists info, l.
Qed.
End populate.

(** ** The kernel's translation and the processor's *)

Lemma arm64_process_byte_host m s size a va :
  storage_ok s -> 0 <= size -> process_mapped m s size a ->
  byte_host a va = if (USER_REGION_VIRTUAL_ADDRESS <=? va) && (va <? USER_REGION_VIRTUAL_ADDRESS + size)
                   then Some (get_user_region s + (va - USER_REGION_VIRTUAL_ADDRESS)) else None.
Proof.
  intros Hs Hsz [_ _ Hw Ha]. destruct (user_region_spec s Hs) as (_ & Hlo & _). destruct Hs as (_ & Hp & _).
  destruct ((USER_REGION_VIRTUAL_ADDRESS <=? va) && (va <? USER_REGION_VIRTUAL_ADDRESS + size)) eqn:E.
  - bool_hyps. apply byte_host_Some; [done|]. rewrite Ha. eexists. split; [apply list_elem_of_here|].
    unfold covers, new_mapping; cbn [user_address host_address mapping_size]. lia.
  - destruct (byte_host a va) as [h|] eqn:Eb; [|done]. exfalso. apply byte_host_Some in Eb as (mp & Hm & Hc & _ & _); [|done].
    rewrite Ha in Hm. apply list_elem_of_In in Hm. destruct Hm as [<-|[]]. unfold covers, new_mapping in Hc; cbn [user_address mapping_size] in Hc.
    apply andb_false_iff in E as [E|E]; bool_hyps; lia.
Qed.

(** The bytes of a region. *)
Definition region_byte (s h : Z) : Prop := get_user_region s <= h < get_user_region s + USER_REGION_SIZE.

Lemma process_region_byte m s size a va h :
  storage_ok s -> 0 <= size <= USER_REGION_SIZE -> process_mapped m s size a -> byte_host a va = Some h -> region_byte s h.
Proof.
  intros Hs Hsz Hp. rewrite (arm64_process_byte_host m s size) by (done || lia).
  destruct ((USER_REGION_VIRTUAL_ADDRESS <=? va) && (va <? USER_REGION_VIRTUAL_ADDRESS + size)) eqn:E; [|done].
  intros [= <-]. bool_hyps. unfold region_byte. lia.
Qed.

(** The processor lets EL0 reach the region of the storage; the kernel's
    mapping, of [size] bytes, agrees with it where it has one. *)
Lemma user_translation_storage m s size a va :
  storage_ok s -> process_mapped m s size a -> 0 <= va < 2 ^ 39 ->
  user_translation m (arch_root_table a) va
  = if user_address_range va then Some (get_user_region s + (va - USER_REGION_VIRTUAL_ADDRESS)) else None.
Proof.
  intros Hs Hp Hva. unfold user_translation. rewrite (mapped_root _ _ _ _ Hp), arm64_translate_storage by (done || apply Hp).
  unfold storage_translation. destruct (user_address_range va); [done|]. by destruct (kernel_address va).
Qed.

(** ** The bootstrap record *)

(** The storages of the platform object. *)
Definition sizeof_storages : Z := USER_RUNTIME_MAX_INITIAL_PROCESSES * sizeof_process_storage.

Lemma pe_machine_of_image image k :
  embedded_ok image -> pe_machine_of image k = Returned (reported_machine (image_contents image)) k.
Proof.
  intros [_ Hsz Hu]. unfold pe_machine_of. by rewrite Hsz, u64_id, try_get_pe_machine_eq by done.
Qed.

Section initialize.
Context (platform : Z) (terminal_service_image test_app_image : embedded_image).

Record platform_ok : Prop := {
  platform_aligned : platform mod 4096 = 0;
  platform_range : 0 < platform /\ platform + sizeof_storages <= 0x1000000000000;
  platform_terminal : has_embedded_image terminal_service_image = true ->
    embedded_ok terminal_service_image /\ image_fits arm64_load_config terminal_service_image;
  platform_client : embedded_ok test_app_image;
  platform_client_fits : image_fits arm64_load_config test_app_image /\ image_fits emulator_load_config test_app_image;
}.

(** Every image is one its loader accepts; the client's loader is the one for the
    machine it names. *)
Definition images_loadable : Prop :=
  (native_loadable test_app_image \/ emulator_loadable test_app_image) /\
  (has_embedded_image terminal_service_image = true -> native_loadable terminal_service_image).

(** The client is refused by the loader for the machine it names, or names none
    the platform supports. *)
Definition client_refused (message : string) : Prop :=
  if decide (reported_machine (image_contents test_app_image) = Some PE_MACHINE_ARM64) then native_refused test_app_image message
  else if decide (reported_machine (image_contents test_app_image) = Some PE_MACHINE_X64) then emulator_refused test_app_image message
  else message = "arm64 attached user image has an unsupported signature"%string.

(** One of the images is refused. *)
Definition an_image_refused (message : string) : Prop :=
  (has_embedded_image terminal_service_image = true /\ native_refused terminal_service_image message) \/ client_refused message.

(** The client, on the machine its image names. *)
Definition client_built (m : host_memory) (s : Z) (c : initial_process_configuration) : Prop :=
  if decide (reported_machine (image_contents test_app_image) = Some PE_MACHINE_ARM64)
  then native_built m s test_app_image c
  else reported_machine (image_contents test_app_image) = Some PE_MACHINE_X64 /\ emulator_built m s test_app_image c.

(** The process with an index of the record. *)
Definition process_built (m : host_memory) (index : nat) (c : initial_process_configuration) : Prop :=
  let s := m_process_storage platform (Z.of_nat index) in
  if has_embedded_image terminal_service_image
  then match index with O => native_built m s terminal_service_image c | S _ => client_built m s c end
  else client_built m s c.

(** The loaders accept the images, whatever memory holds. *)
Definition images_accepted : Prop := forall message, ~ an_image_refused message.

(** What [initialize] leaves: every process of a well-formed record is built. *)
Record platform_built (m : host_memory) (b : initial_user_runtime_bootstrap) : Prop := {
  built_bootstrap : bootstrap_ok b;
  built_count : process_count b = if has_embedded_image terminal_service_image then 2 else 1;
  built_first : initial_process_index b = 0;
  built_processes i c : Z.of_nat i < process_count b -> initial_processes b !! i = Some c -> process_built m i c;
}.

(** What [initialize] promises of its outcome. *)
Definition initialized (k : kernel) (r : may_panic initial_user_runtime_bootstrap) (k' : kernel) : Prop :=
  match r with
  | panics message => an_image_refused message
  | continues b => runtime k' = runtime k /\ events k' = events k /\
                   changes_in platform (platform + sizeof_storages) (host k) (host k') /\ platform_built (host k') b
  end.

Hypothesis Hok : platform_ok.

Lemma arm64_storages_ok i : 0 <= i < 2 -> storage_ok (m_process_storage platform i).
Proof.
  destruct Hok as [Ha [Hp Hr] _ _ _]. intros Hi. change sizeof_storages with 0x808000 in Hr.
  unfold storage_ok, m_process_storage. change sizeof_process_storage with 0x404000.
  split; [|lia]. replace (i * 0x404000) with (i * 1028 * 4096) by lia. by rewrite Z.mod_add.
Qed.

Lemma client_built_wf m s c : client_built m s c -> process_config_ok c.
Proof. unfold client_built. destruct (decide _); [intros H|intros [_ H]]; apply H. Qed.

Section branch.
Context (populate : Z -> embedded_image -> K (may_panic initial_process_configuration)).
Hypothesis Hpopulate : forall s k, storage_ok s ->
  twp (populate s test_app_image) (prepared s client_refused (fun m c => client_built m s c) k) k.

Lemma initialize_processes_builds k :
  twp (initialize_processes platform terminal_service_image test_app_image populate) (initialized k) k.
Proof.
  assert (S0 := arm64_storages_ok 0 ltac:(lia)). assert (S1 := arm64_storages_ok 1 ltac:(lia)). unfold initialize_processes.
  destruct (has_embedded_image terminal_service_image) eqn:Et.
  - destruct (platform_terminal Hok Et) as [Hterm Hfit].
    eapply twp_seq; [by apply populate_native_builds|].
    intros [msg|c0] k1 H0; [apply twp_ret; unfold initialized, an_image_refused; cbn [prepared] in H0; tauto|].
    destruct H0 as (R0 & E0 & C0 & P0). eapply twp_seq; [by apply Hpopulate|].
    intros [msg|c1] k2 H1; [apply twp_ret; unfold initialized, an_image_refused; cbn [prepared] in H1; tauto|].
    destruct H1 as (R1 & E1 & C1 & P1). apply twp_ret. split; [congruence|]. split; [congruence|].
    change sizeof_storages with 0x808000. unfold m_process_storage in *. change sizeof_process_storage with 0x404000 in *. split.
    { eapply changes_in_trans; eapply changes_in_sub; [exact C0|lia|lia|exact C1|lia|lia]. }
    assert (P0' : native_built (host k2) (platform + 0 * 0x404000) terminal_service_image c0).
    { apply (native_built_agree (host k1)); [done|done|]. intros y Hy. apply C1. lia. }
    constructor; cbn [process_count initial_process_index initial_processes].
    + split_and!; [done|done|done|]. change (Forall process_config_ok [c0; c1]).
      constructor; [apply P0'|]. constructor; [by eapply client_built_wf|constructor].
    + by rewrite Et.
    + done.
    + intros i c Hi Hc. unfold process_built. rewrite Et. destruct i as [|[|i]]; [by injection Hc as <-|by injection Hc as <-|lia].
  - eapply twp_seq; [by apply Hpopulate|].
    intros [msg|c0] k1 H0; [apply twp_ret; unfold initialized, an_image_refused; cbn [prepared] in H0; tauto|].
    destruct H0 as (R0 & E0 & C0 & P0). apply twp_ret. split; [done|]. split; [done|].
    change sizeof_storages with 0x808000. unfold m_process_storage in *. change sizeof_process_storage with 0x404000 in *.
    split; [eapply changes_in_sub; [exact C0|lia|lia]|].
    constructor; cbn [process_count initial_process_index initial_processes].
    + split_and!; [done|done|done|]. change (Forall process_config_ok [c0]). constructor; [by eapply client_built_wf|constructor].
    + by rewrite Et.
    + done.
    + intros i c Hi Hc. unfold process_built. rewrite Et. destruct i as [|i]; [by injection Hc as <-|lia].
Qed.
End branch.

Lemma native_reported image : native_loadable image -> reported_machine (image_contents image) = Some PE_MACHINE_ARM64.
Proof. intros [Hw _]%andb_prop. exact (reported_machine_well_formed _ _ Hw). Qed.

Lemma emulator_reported image : emulator_loadable image -> reported_machine (image_contents image) = Some PE_MACHINE_X64.
Proof. intros [[Hw _]%andb_prop _]. exact (reported_machine_well_formed _ _ Hw). Qed.

Lemma prepared_mono s (P P' : string -> Prop) (built built' : host_memory -> initial_process_configuration -> Prop) k r k' :
  (forall message, P message -> P' message) -> (forall m c, built m c -> built' m c) -> prepared s P built k r k' -> prepared s P' built' k r k'.
Proof. intros HP Hb. destruct r; cbn [prepared]; [apply HP|]. intros (? & ? & ? & ?). auto. Qed.

(** What is refused is not loadable. *)
Lemma arm64_refused_not_loadable message : an_image_refused message -> ~ images_loadable.
Proof.
  intros Hr [Hc Hs]. destruct Hok as [_ _ Ht Hi [Hfn Hfe]]. destruct Hr as [[He Hr]|Hr].
  - destruct (Ht He) as [Hti Htf]. exact (native_loadable_not_refused _ _ Hti Htf (Hs He) Hr).
  - unfold client_refused in Hr. destruct Hc as [Hc|Hc].
    + rewrite decide_True in Hr by (by apply native_reported). exact (native_loadable_not_refused _ _ Hi Hfn Hc Hr).
    + pose proof (emulator_reported _ Hc) as E. rewrite decide_False, decide_True in Hr by (rewrite ?E; done).
      exact (emulator_loadable_not_refused _ _ Hi Hfe Hc Hr).
Qed.

Lemma arm64_loadable_accepted : images_loadable -> images_accepted.
Proof. intros Hl message Hr. by apply (arm64_refused_not_loadable message). Qed.

Lemma arm64_initialize_builds k : twp (initialize platform terminal_service_image test_app_image) (initialized k) k.
Proof.
  destruct Hok as [_ _ _ Hc [Hfn Hfe]]. unfold initialize. apply twp_bind. unfold twp at 1. rewrite pe_machine_of_image by done.
  destruct (bool_decide_reflect (reported_machine (image_contents test_app_image) = Some PE_MACHINE_ARM64)) as [Ha|Ha].
  - apply initialize_processes_builds. intros s k1 Hs. eapply twp_mono; [exact (populate_native_builds s Hs _ Hc k1 Hfn)|].
    intros r k2. apply prepared_mono.
    + intros message H. unfold client_refused. by rewrite decide_True.
    + intros m c H. unfold client_built. by rewrite decide_True.
  - apply twp_bind. unfold twp at 1. rewrite pe_machine_of_image by done.
    destruct (bool_decide_reflect (reported_machine (image_contents test_app_image) = Some PE_MACHINE_X64)) as [Hx|Hx].
    + apply initialize_processes_builds. intros s k1 Hs. eapply twp_mono; [exact (populate_emulator_builds s Hs _ Hc k1 Hfe)|].
      intros r k2. apply prepared_mono.
      * intros message H. unfold client_refused. by rewrite decide_False, decide_True.
      * intros m c H. unfold client_built. by rewrite decide_False.
    + apply twp_ret. right. unfold client_refused. by rewrite !decide_False.
Qed.

(** The platform keeps the contract [RuntimeStart] asks of it. *)
Lemma arm64_initialize_ok k : twp (initialize platform terminal_service_image test_app_image) (initialized_ok k) k.
Proof.
  eapply twp_mono; [apply arm64_initialize_builds|]. intros [msg|b] k' H; [done|]. destruct H as (R & _ & _ & P).
  split; [done|apply P].
Qed.
End initialize.

(** C18: Provided that the data of every section of an embedded image with acceptable headers
    ends within the region given to the loader (which the loaders do not check:
    load_pe32_plus_image_overruns), the arm64 platform's initialize changes only its own object
    in host memory; it panics only with the message of a failure a loader reports for one of the
    images, which is never a well-formed image (one without imports, for the emulator), or
    because the client is for neither machine; when it returns, the bootstrap record is well
    formed, and each process has a translation table that maps its region for user mode and the
    kernel's 32 megabytes for the kernel only, an address space with the same region (the part
    the emulator uses, for an x64 process), the entry point of its image, and the bytes of the
    loaded image in the region (but for the last quadword of an x64 process). *)
Theorem arm64_initialize_correct platform terminal_service_image test_app_image k :
  platform_ok platform terminal_service_image test_app_image ->
  twp (initialize platform terminal_service_image test_app_image)
    (fun r k' => match r with
                 | panics message => an_image_refused terminal_service_image test_app_image message /\
                                     ~ images_loadable terminal_service_image test_app_image
                 | continues b => runtime k' = runtime k /\
                                  changes_in platform (platform + sizeof_storages) (host k) (host k') /\
                                  platform_built platform terminal_service_image test_app_image (host k') b
                 end) k.
Proof.
  intros Hok. eapply twp_mono; [by apply arm64_initialize_builds|].
  intros [msg|b] k' H; [split; [exact H|by eapply arm64_refused_not_loadable]|]. by destruct H as (? & _ & ? & ?).
Qed.
