(* ===== verification/Arm64Emulation.v ===== *)
(** The threads of the arm64 platform
    ([arch/arm64/arm64_initial_user_runtime_platform.cpp]): system calls from the
    emulator and from native user mode, and the loop that enters the current
    thread. *)
From Stdlib Require Import String.
From S2P Require Import Prelude EmulatorTypes ExecutionContext Interpreter.
From S2P Require Import AddressSpace UserMemory KernelObjectPool RuntimeTypes UserRuntime Rpc Syscalls X64PeImage PlatformMemory Arm64Platform.
#[local] Open Scope Z_scope.

Definition X64_EMULATOR_INSTRUCTION_BUDGET : Z := 512.
Definition ESR_EXCEPTION_CLASS_MASK : Z := 0x3F.
Definition ESR_EXCEPTION_CLASS_SHIFT : Z := 26.
Definition ESR_EXCEPTION_CLASS_SVC64 : Z := 0x15.
Definition ARM64_PRESERVED_REGISTER_X19_INDEX : nat := 0.
Definition ARM64_PRESERVED_REGISTER_X20_INDEX : nat := 1.
Definition ARM64_PRESERVED_REGISTER_X21_INDEX : nat := 2.
Definition ARM64_PRESERVED_REGISTER_X22_INDEX : nat := 3.
Definition ARM64_PRESERVED_REGISTER_X23_INDEX : nat := 4.
Definition ARM64_PRESERVED_REGISTER_X24_INDEX : nat := 5.
Definition ARM64_PRESERVED_REGISTER_X25_INDEX : nat := 6.
Definition ARM64_PRESERVED_REGISTER_X26_INDEX : nat := 7.
Definition ARM64_PRESERVED_REGISTER_X27_INDEX : nat := 8.
Definition ARM64_PRESERVED_REGISTER_X28_INDEX : nat := 9.
Definition ARM64_PRESERVED_REGISTER_X29_INDEX : nat := 10.
Definition ARM64_PRESERVED_REGISTER_X30_INDEX : nat := 11.

#[export] Instance arm64_target : Target | 50 := aarch64.

(** ** The registers a thread keeps *)

Definition guest_register (s : x64_emulator_state) (r : x64_general_register) : K Z :=
  in_bounds (general_registers s !! Z.to_nat (register_index r)).

(** [n] pieces of [size] bytes. *)
Fixpoint chunks (n size : nat) (l : list Z) : list (list Z) :=
  match n with
  | O => []
  | S n => take size l :: chunks n size (drop size l)
  end.

(** [memcpy] between the registers from XMM6 on and the 20 quadwords of a thread. *)
Definition qwords_of_simd (registers : list x64_simd_register) : list Z :=
  le_decode <$> chunks USER_THREAD_ARCH_PRESERVED_SIMD_QWORD_COUNT 8 (concat (drop 6 registers)).

Definition simd_of_qwords (registers : list x64_simd_register) (qwords : list Z) : list x64_simd_register :=
  take 6 registers ++ chunks 10 16 (concat (le_encode 8 <$> qwords)).

Definition store_x64_emulator_preserved_state (current_thread : nat) (state : x64_emulator_state) : K unit :=
  v_rsi ← guest_register state X64_GENERAL_REGISTER_RSI;
  v_rdi ← guest_register state X64_GENERAL_REGISTER_RDI;
  v_rbx ← guest_register state X64_GENERAL_REGISTER_RBX;
  v_rbp ← guest_register state X64_GENERAL_REGISTER_RBP;
  v_r12 ← guest_register state X64_GENERAL_REGISTER_R12;
  v_r13 ← guest_register state X64_GENERAL_REGISTER_R13;
  v_r14 ← guest_register state X64_GENERAL_REGISTER_R14;
  v_r15 ← guest_register state X64_GENERAL_REGISTER_R15;
  update current_thread (fun t =>
    let regs := m_arch_preserved_registers t in
    let regs := <[X64_PRESERVED_REGISTER_RSI_INDEX := v_rsi]> regs in
    let regs := <[X64_PRESERVED_REGISTER_RDI_INDEX := v_rdi]> regs in
    let regs := <[X64_PRESERVED_REGISTER_RBX_INDEX := v_rbx]> regs in
    let regs := <[X64_PRESERVED_REGISTER_RBP_INDEX := v_rbp]> regs in
    let regs := <[X64_PRESERVED_REGISTER_R12_INDEX := v_r12]> regs in
    let regs := <[X64_PRESERVED_REGISTER_R13_INDEX := v_r13]> regs in
    let regs := <[X64_PRESERVED_REGISTER_R14_INDEX := v_r14]> regs in
    let regs := <[X64_PRESERVED_REGISTER_R15_INDEX := v_r15]> regs in
    with_preserved t regs (qwords_of_simd (simd_registers state))).

(** The members of the state are 64-bit words. *)
Definition set_guest_register (s : x64_emulator_state) (r : x64_general_register) (value : Z) : x64_emulator_state :=
  set_general_registers s (<[Z.to_nat (register_index r) := u64 value]> (general_registers s)).

Definition load_x64_emulator_resume_state (state : x64_emulator_state) (current_thread : thread) : K x64_emulator_state :=
  let resume_state := m_resume_state current_thread in
  let preserved (i : nat) : K Z := in_bounds (m_arch_preserved_registers current_thread !! i) in
  let is_rpc := bool_decide (resume_kind resume_state = USER_THREAD_RESUME_KIND_RPC) in
  let state := set_ip state (u64 (resume_instruction_pointer resume_state)) in
  let state := set_flags state (u64 (resume_flags resume_state)) in
  let state := set_guest_register state X64_GENERAL_REGISTER_RAX (s64 (resume_status_code resume_state)) in
  let state := set_guest_register state X64_GENERAL_REGISTER_RSP (resume_stack_pointer resume_state) in
  v_rsi ← (if is_rpc then mret (resume_argument1 resume_state) else preserved X64_PRESERVED_REGISTER_RSI_INDEX);
  let state := set_guest_register state X64_GENERAL_REGISTER_RSI v_rsi in
  v_rdi ← (if is_rpc then mret (resume_argument0 resume_state) else preserved X64_PRESERVED_REGISTER_RDI_INDEX);
  let state := set_guest_register state X64_GENERAL_REGISTER_RDI v_rdi in
  v_rbx ← preserved X64_PRESERVED_REGISTER_RBX_INDEX;
  let state := set_guest_register state X64_GENERAL_REGISTER_RBX v_rbx in
  v_rbp ← preserved X64_PRESERVED_REGISTER_RBP_INDEX;
  let state := set_guest_register state X64_GENERAL_REGISTER_RBP v_rbp in
  v_r12 ← preserved X64_PRESERVED_REGISTER_R12_INDEX;
  let state := set_guest_register state X64_GENERAL_REGISTER_R12 v_r12 in
  v_r13 ← preserved X64_PRESERVED_REGISTER_R13_INDEX;
  let state := set_guest_register state X64_GENERAL_REGISTER_R13 v_r13 in
  v_r14 ← preserved X64_PRESERVED_REGISTER_R14_INDEX;
  let state := set_guest_register state X64_GENERAL_REGISTER_R14 v_r14 in
  v_r15 ← preserved X64_PRESERVED_REGISTER_R15_INDEX;
  let state := set_guest_register state X64_GENERAL_REGISTER_R15 v_r15 in
  mret (set_simd_registers state (simd_of_qwords (simd_registers state) (m_arch_preserved_simd_qwords current_thread))).

(** ** The report of a guest fault *)

Definition HEX_DIGITS : list Z := char_codes "0123456789abcdef".

(** A buffer of characters and its cursor. *)
Definition message_buffer : Type := list Z * nat.

Definition append_char (capacity : nat) (c : Z) (b : message_buffer) : message_buffer :=
  let '(buffer, cursor) := b in
  if (cursor + 1 <? capacity)%nat then (<[cursor := c]> buffer, S cursor) else b.

Definition append_hex_nibble (capacity : nat) (value : Z) (b : message_buffer) : message_buffer :=
  append_char capacity (nth (Z.to_nat (Z.land value 0xF)) HEX_DIGITS 0) b.

(** The loop over the shifts 60, 56, ..., 0; [n] of them are left. *)
Fixpoint append_hex_digits (capacity : nat) (value : Z) (n : nat) (b : message_buffer) : message_buffer :=
  match n with
  | O => b
  | S n => append_hex_digits capacity value n (append_hex_nibble capacity (u8 (Z.land (Z.shiftr value (4 * Z.of_nat n)) 0xF)) b)
  end.

Definition append_hex_u64 (capacity : nat) (value : Z) (b : message_buffer) : message_buffer := append_hex_digits capacity value 16 b.

(** [value] is a string literal: its characters are not NUL. *)
Definition append_literal (capacity : nat) (value : string) (b : message_buffer) : message_buffer :=
  foldl (fun b c => append_char capacity c b) b (char_codes value).

Definition get_x64_emulator_guest_fault_status (result : x64_emulator_result) : Z :=
  match guest_stop_reason result with
  | X64_EMULATOR_GUEST_STOP_REASON_INVALID_MEMORY_ACCESS => STATUS_FAULT
  | X64_EMULATOR_GUEST_STOP_REASON_UNSUPPORTED_INSTRUCTION => STATUS_NOT_SUPPORTED
  | X64_EMULATOR_GUEST_STOP_REASON_NONE
  | X64_EMULATOR_GUEST_STOP_REASON_THREAD_EXITED
  | X64_EMULATOR_GUEST_STOP_REASON_YIELDED => STATUS_BAD_STATE
  end.

Definition is_x64_emulator_guest_fault (result : x64_emulator_result) : bool :=
  bool_decide (guest_stop_reason result = X64_EMULATOR_GUEST_STOP_REASON_INVALID_MEMORY_ACCESS)
  || bool_decide (guest_stop_reason result = X64_EMULATOR_GUEST_STOP_REASON_UNSUPPORTED_INSTRUCTION).

(** [char message[112]] when it is logged. *)
Definition x64_emulator_fault_message (result : x64_emulator_result) : list Z :=
  let capacity := 112%nat in
  let b := (replicate capacity 0, O) in
  let b := append_literal capacity "x64 fault ip=0x" b in
  let b := append_hex_u64 capacity (fault_instruction_pointer (fault result)) b in
  let b := append_literal capacity " addr=0x" b in
  let b := append_hex_u64 capacity (memory_address (fault result)) b in
  let b := append_literal capacity " opcode=0x" b in
  let b := append_hex_nibble capacity (u8 (Z.shiftr (fault_record_opcode (fault result)) 4)) b in
  let '(message, cursor) := append_hex_nibble capacity (fault_record_opcode (fault result)) b in
  <[cursor := 0]> message.

Definition debug_log_x64_emulator_fault (result : x64_emulator_result) : K unit :=
  emit (debug_log (x64_emulator_fault_message result)).

(** ** System calls of the emulator *)

Definition system_call_result (status : Z) (action : x64_emulator_syscall_action) : x64_emulator_syscall_result :=
  {| status := status; action := action |}.

(** [has_context = false] is the null context. *)
Definition dispatch_x64_syscall (has_context : bool) (state : x64_emulator_state) : K x64_emulator_syscall_result :=
  if negb has_context then mret (system_call_result STATUS_INVALID_ARGUMENT X64_EMULATOR_SYSCALL_ACTION_EXIT_THREAD)
  else
    current ← get_current_thread;
    match current with
    | None => mret (system_call_result STATUS_BAD_STATE X64_EMULATOR_SYSCALL_ACTION_EXIT_THREAD)
    | Some current_thread =>
        store_x64_emulator_preserved_state current_thread state;;
        v_rax ← guest_register state X64_GENERAL_REGISTER_RAX;
        v_rsp ← guest_register state X64_GENERAL_REGISTER_RSP;
        v_rdi ← guest_register state X64_GENERAL_REGISTER_RDI;
        v_rsi ← guest_register state X64_GENERAL_REGISTER_RSI;
        v_rdx ← guest_register state X64_GENERAL_REGISTER_RDX;
        v_r10 ← guest_register state X64_GENERAL_REGISTER_R10;
        v_r8 ← guest_register state X64_GENERAL_REGISTER_R8;
        v_r9 ← guest_register state X64_GENERAL_REGISTER_R9;
        syscall_status ← dispatch_syscall
          (make_user_syscall_context v_rax (instruction_pointer state) v_rsp (flags state) v_rdi v_rsi v_rdx v_r10 v_r8 v_r9);
        current ← get_current_thread;
        if bool_decide (current = Some current_thread) then
          update current_thread (fun t => prepare_syscall_resume t syscall_status);;
          t ← read_at current_thread;
          mret (system_call_result (m_pending_syscall_status t) X64_EMULATOR_SYSCALL_ACTION_CONTINUE)
        else
          s ← get_state current_thread;
          if bool_decide (s = USER_THREAD_STATE_EXITED)
          then mret (system_call_result syscall_status X64_EMULATOR_SYSCALL_ACTION_EXIT_THREAD)
          else mret (system_call_result syscall_status X64_EMULATOR_SYSCALL_ACTION_YIELD)
    end.

(** What the callback of the emulator acts on: the kernel, unless one of its
    system calls has not returned. *)
Inductive emulated_kernel :=
  | kernel_runs (k : kernel)
  | kernel_undefined (u : undefined_behaviour)
  | kernel_out_of_fuel.

(** The bytes of memory at an address. *)
Definition memory_bytes (m : host_memory) (x : Z) (n : nat) : list Z := u8 <$> host_bytes m x n.

Definition at_host (k : kernel) (m : host_memory) : kernel := {| runtime := runtime k; host := m; events := events k |}.

(** The callback: the guest's memory is host memory at [region], which the kernel
    reads and writes too. *)
Definition x64_syscall_callback (region : Z) (w : emulated_kernel) (state : x64_emulator_state) (bytes : option (list Z))
    : x64_emulator_syscall_result * emulated_kernel * option (list Z) :=
  let stop w := (system_call_result STATUS_BAD_STATE X64_EMULATOR_SYSCALL_ACTION_EXIT_THREAD, w, bytes) in
  match w, bytes with
  | kernel_runs k, Some l =>
      match dispatch_x64_syscall true state (at_host k (store_bytes (host k) region l)) with
      | Returned r k' =>
          (system_call_result (s32 (status r)) (action r), kernel_runs k', Some (memory_bytes (host k') region (length l)))
      | Undefined u => stop (kernel_undefined u)
      | OutOfFuel => stop kernel_out_of_fuel
      end
  | _, _ => stop w
  end.

Definition zero_fault : x64_emulator_fault := {| fault_instruction_pointer := 0; memory_address := 0; fault_record_opcode := 0 |}.

Definition zero_result : x64_emulator_result :=
  {| completion := X64_EMULATOR_COMPLETION_THREAD_EXITED; guest_stop_reason := X64_EMULATOR_GUEST_STOP_REASON_NONE;
     backend_failure := X64_EMULATOR_BACKEND_FAILURE_NONE; retired_instructions := 0; fault_address := 0; fault_opcode := 0;
     fault := zero_fault |}.

(** The arguments of [run_x64_emulator]. *)
Definition emulation (storage : Z) (guest : x64_emulator_state) (k : kernel) : x64_execution_context emulated_kernel :=
  let region := get_user_region storage in
  {| EmulatorTypes.m_state := guest;
     m_memory := {| base_address := X64_USER_IMAGE_VIRTUAL_ADDRESS;
                    bytes := Some (memory_bytes (host k) region (Z.to_nat X64_USER_REGION_SIZE)); size := X64_USER_REGION_SIZE |};
     m_callbacks := {| handle_syscall := Some (x64_syscall_callback region) |};
     m_options := {| engine := X64_EMULATOR_ENGINE_INTERPRETER; instruction_budget := X64_EMULATOR_INSTRUCTION_BUDGET |};
     m_result := zero_result;
     m_world := kernel_runs k |}.

(** The end of [run_x64_emulator_thread], after the run. *)
Definition finish_x64_emulator_run (launched : bool) (result : x64_emulator_result) : K (may_panic unit) :=
  if negb launched then mret (panics "arm64 failed to launch the x64 emulator backend")
  else if bool_decide (backend_failure result <> X64_EMULATOR_BACKEND_FAILURE_NONE)
  then mret (panics (describe_x64_emulator_backend_failure (backend_failure result)))
  else if is_x64_emulator_guest_fault result then
    let guest_fault_status := get_x64_emulator_guest_fault_status result in
    debug_log_x64_emulator_fault result;;
    terminate_current_thread (u64 (s64 guest_fault_status)) guest_fault_status;;
    mret (continues tt)
  else if bool_decide (guest_stop_reason result <> X64_EMULATOR_GUEST_STOP_REASON_THREAD_EXITED)
          && bool_decide (guest_stop_reason result <> X64_EMULATOR_GUEST_STOP_REASON_YIELDED)
  then mret (panics (describe_x64_emulator_guest_stop_reason (guest_stop_reason result)))
  else mret (continues tt).

(** [guest]: [storage.x64_guest_state]; its value at the end is returned. *)
Definition run_x64_emulator_thread (storage : Z) (guest : x64_emulator_state) (current_thread : nat)
    : K (may_panic x64_emulator_state) :=
  t ← read_at current_thread;
  guest ← load_x64_emulator_resume_state guest t;
  k ← get;
  match run_x64_emulator true (emulation storage guest k) with
  | Returned launched c =>
      match m_world c with
      | kernel_runs k =>
          modify (fun _ => at_host k (store_bytes (host k) (get_user_region storage) (default [] (bytes (m_memory c)))));;
          finished ← finish_x64_emulator_run launched (m_result c);
          mret (match finished with panics m => panics m | continues _ => continues (EmulatorTypes.m_state c) end)
      | kernel_undefined u => undefined u
      | kernel_out_of_fuel => out_of_fuel
      end
  | Undefined u => undefined u
  | OutOfFuel => out_of_fuel
  end.

(** ** Native threads *)

Record arm64_syscall_frame := {
  x0 : Z; x1 : Z; x2 : Z; x3 : Z; x4 : Z; x5 : Z; x6 : Z; x7 : Z; x8 : Z;
  elr : Z; spsr : Z; sp_el0 : Z; esr : Z;
  x19 : Z; x20 : Z; x21 : Z; x22 : Z; x23 : Z; x24 : Z; x25 : Z; x26 : Z; x27 : Z; x28 : Z; x29 : Z; x30 : Z;
}.

(** The frame the function fills in ([frame] is not null in its uses); what it
    does not set is the zero of [memset]. *)
Definition load_arm64_syscall_frame (t : thread) : K arm64_syscall_frame :=
  let resume_state := m_resume_state t in
  let preserved (i : nat) : K Z := in_bounds (m_arch_preserved_registers t !! i) in
  let is_rpc := bool_decide (resume_kind resume_state = USER_THREAD_RESUME_KIND_RPC) in
  v_x19 ← preserved ARM64_PRESERVED_REGISTER_X19_INDEX;
  v_x20 ← preserved ARM64_PRESERVED_REGISTER_X20_INDEX;
  v_x21 ← preserved ARM64_PRESERVED_REGISTER_X21_INDEX;
  v_x22 ← preserved ARM64_PRESERVED_REGISTER_X22_INDEX;
  v_x23 ← preserved ARM64_PRESERVED_REGISTER_X23_INDEX;
  v_x24 ← preserved ARM64_PRESERVED_REGISTER_X24_INDEX;
  v_x25 ← preserved ARM64_PRESERVED_REGISTER_X25_INDEX;
  v_x26 ← preserved ARM64_PRESERVED_REGISTER_X26_INDEX;
  v_x27 ← preserved ARM64_PRESERVED_REGISTER_X27_INDEX;
  v_x28 ← preserved ARM64_PRESERVED_REGISTER_X28_INDEX;
  v_x29 ← preserved ARM64_PRESERVED_REGISTER_X29_INDEX;
  v_x30 ← (if is_rpc then mret (resume_rpc_completion_address resume_state) else preserved ARM64_PRESERVED_REGISTER_X30_INDEX);
  mret {| x0 := resume_argument0 resume_state; x1 := if is_rpc then resume_argument1 resume_state else 0;
          x2 := 0; x3 := 0; x4 := 0; x5 := 0; x6 := 0; x7 := 0; x8 := 0;
          elr := resume_instruction_pointer resume_state; spsr := resume_flags resume_state;
          sp_el0 := resume_stack_pointer resume_state; esr := 0;
          x19 := v_x19; x20 := v_x20; x21 := v_x21; x22 := v_x22; x23 := v_x23; x24 := v_x24; x25 := v_x25;
          x26 := v_x26; x27 := v_x27; x28 := v_x28; x29 := v_x29; x30 := v_x30 |}.

(** The callee-saved registers of the frame, stored in the thread. *)
Definition save_arm64_preserved (f : arm64_syscall_frame) (t : thread) : thread :=
  let regs := m_arch_preserved_registers t in
  let regs := <[ARM64_PRESERVED_REGISTER_X19_INDEX := x19 f]> regs in
  let regs := <[ARM64_PRESERVED_REGISTER_X20_INDEX := x20 f]> regs in
  let regs := <[ARM64_PRESERVED_REGISTER_X21_INDEX := x21 f]> regs in
  let regs := <[ARM64_PRESERVED_REGISTER_X22_INDEX := x22 f]> regs in
  let regs := <[ARM64_PRESERVED_REGISTER_X23_INDEX := x23 f]> regs in
  let regs := <[ARM64_PRESERVED_REGISTER_X24_INDEX := x24 f]> regs in
  let regs := <[ARM64_PRESERVED_REGISTER_X25_INDEX := x25 f]> regs in
  let regs := <[ARM64_PRESERVED_REGISTER_X26_INDEX := x26 f]> regs in
  let regs := <[ARM64_PRESERVED_REGISTER_X27_INDEX := x27 f]> regs in
  let regs := <[ARM64_PRESERVED_REGISTER_X28_INDEX := x28 f]> regs in
  let regs := <[ARM64_PRESERVED_REGISTER_X29_INDEX := x29 f]> regs in
  let regs := <[ARM64_PRESERVED_REGISTER_X30_INDEX := x30 f]> regs in
  with_preserved t regs (m_arch_preserved_simd_qwords t).

#[export] Instance process_execution_backend_eq_dec : EqDecision process_execution_backend.
Proof. solve_decision. Defined.

Definition get_process_execution_backend (p : process) : process_execution_backend := execution_backend (m_metadata p).

Definition exception_class (f : arm64_syscall_frame) : Z :=
  Z.land (Z.shiftr (esr f) ESR_EXCEPTION_CLASS_SHIFT) ESR_EXCEPTION_CLASS_MASK.

(** Returns the value and [*frame] after the call; [frame = None] is a null pointer. *)
Definition arm64_handle_syscall (frame : option arm64_syscall_frame) : K (may_panic (bool * arm64_syscall_frame)) :=
  match frame with
  | None => mret (panics "arm64 syscall frame was null")
  | Some f =>
      if negb (exception_class f =? ESR_EXCEPTION_CLASS_SVC64)
      then mret (panics "arm64 lower-el sync was not an svc64 syscall")
      else
        current ← get_current_thread;
        match current with
        | None => mret (panics "arm64 syscall without current thread")
        | Some current_thread =>
            t ← read_at current_thread;
            match m_process t with
            | None => mret (panics "arm64 syscall without an owning process")
            | Some current_process =>
                p ← read_at current_process;
                let current_backend := get_process_execution_backend p in
                if bool_decide (current_backend = PROCESS_EXECUTION_BACKEND_X64_EMULATOR)
                then mret (panics "arm64 hardware syscall path is disabled while an emulated user thread is active")
                else if bool_decide (current_backend <> PROCESS_EXECUTION_BACKEND_NATIVE)
                then mret (panics "arm64 syscall path was entered without a native arm64 user thread")
                else
                  update current_thread (save_arm64_preserved f);;
                  syscall_status ← dispatch_syscall
                    (make_user_syscall_context (x8 f) (elr f) (sp_el0 f) (spsr f) (x0 f) (x1 f) (x2 f) (x3 f) (x4 f) (x5 f));
                  runnable ← has_runnable_thread;
                  if negb runnable then mret (continues (false, f))
                  else
                    resume ← get_current_thread;
                    match resume with
                    | None => mret (continues (false, f))
                    | Some resume_thread =>
                        t ← read_at resume_thread;
                        match m_process t with
                        | None => mret (panics "arm64 scheduled thread has no owning process")
                        | Some resume_process =>
                            (if bool_decide (resume_thread = current_thread)
                             then update resume_thread (fun t => prepare_syscall_resume t syscall_status)
                             else mret tt);;
                            p ← read_at resume_process;
                            if bool_decide (get_process_execution_backend p <> PROCESS_EXECUTION_BACKEND_NATIVE)
                            then mret (continues (false, f))
                            else
                              t ← read_at resume_thread;
                              f' ← load_arm64_syscall_frame t;
                              runnable ← has_runnable_thread;
                              mret (continues (runnable, f'))
                        end
                    end
            end
        end
  end.

(** ** The loop of [enter_user_thread] *)

(** The kernel and the members of the platform the loop uses. *)
Record arm64_machine := {
  m_kernel : kernel;
  x64_guest_states : list x64_emulator_state;   (* one in each storage *)
  m_has_logged_native_runtime_ready : bool;
  m_has_logged_x64_emulator_runtime_ready : bool;
}.

Definition with_kernel (a : arm64_machine) (k : kernel) : arm64_machine :=
  {| m_kernel := k; x64_guest_states := x64_guest_states a;
     m_has_logged_native_runtime_ready := m_has_logged_native_runtime_ready a;
     m_has_logged_x64_emulator_runtime_ready := m_has_logged_x64_emulator_runtime_ready a |}.

Definition with_guest_states (a : arm64_machine) (g : list x64_emulator_state) : arm64_machine :=
  {| m_kernel := m_kernel a; x64_guest_states := g;
     m_has_logged_native_runtime_ready := m_has_logged_native_runtime_ready a;
     m_has_logged_x64_emulator_runtime_ready := m_has_logged_x64_emulator_runtime_ready a |}.

Definition on_kernel {A} (m : K A) : M arm64_machine A :=
  fun a => match m (m_kernel a) with
           | Returned x k => Returned x (with_kernel a k)
           | Undefined u => Undefined u
           | OutOfFuel => OutOfFuel
           end.

(** How an iteration of the loop goes on. *)
Inductive loop_step :=
  | parks_cpu                           (* [arm64_user_thread_exit] *)
  | enters (frame : arm64_syscall_frame)   (* [arm64_enter_user_thread] *)
  | iterates.

Definition NATIVE_RUNTIME_READY : list Z := char_codes "arm64 initial user runtime ready" ++ [0].
Definition X64_EMULATOR_RUNTIME_READY : list Z := char_codes "arm64 x64 emulator runtime ready" ++ [0].

Definition log_native_runtime_ready : M arm64_machine unit :=
  a ← get;
  if negb (m_has_logged_native_runtime_ready a) then
    on_kernel (emit (debug_log NATIVE_RUNTIME_READY));;
    modify (fun a => {| m_kernel := m_kernel a; x64_guest_states := x64_guest_states a; m_has_logged_native_runtime_ready := true;
                        m_has_logged_x64_emulator_runtime_ready := m_has_logged_x64_emulator_runtime_ready a |})
  else mret tt.

Definition log_x64_emulator_runtime_ready : M arm64_machine unit :=
  a ← get;
  if negb (m_has_logged_x64_emulator_runtime_ready a) then
    on_kernel (emit (debug_log X64_EMULATOR_RUNTIME_READY));;
    modify (fun a => {| m_kernel := m_kernel a; x64_guest_states := x64_guest_states a;
                        m_has_logged_native_runtime_ready := m_has_logged_native_runtime_ready a;
                        m_has_logged_x64_emulator_runtime_ready := true |})
  else mret tt.

(** One iteration; [platform] is the address of the platform object, whose call
    of its own [activate_process_address_space] is logged as the runtime's are. *)
Definition enter_user_thread (platform : Z) : M arm64_machine (may_panic loop_step) :=
  current ← on_kernel get_current_thread;
  match current with
  | None => mret (continues parks_cpu)
  | Some current_thread =>
      runnable ← on_kernel has_runnable_thread;
      if negb runnable then mret (continues parks_cpu)
      else
        t ← on_kernel (read_at current_thread);
        match m_process t with
        | None => mret (panics "arm64 current thread has no owning process")
        | Some current_process =>
            on_kernel (emit (arch_activate_process_address_space (Some current_process)));;
            p ← on_kernel (read_at current_process);
            match get_process_execution_backend p with
            | PROCESS_EXECUTION_BACKEND_NATIVE =>
                log_native_runtime_ready;;
                t ← on_kernel (read_at current_thread);
                f ← on_kernel (load_arm64_syscall_frame t);
                mret (continues (enters f))
            | PROCESS_EXECUTION_BACKEND_X64_EMULATOR =>
                log_x64_emulator_runtime_ready;;
                match get_process_storage platform p with
                | panics m => mret (panics m)
                | continues index =>
                    a ← get;
                    match x64_guest_states a !! Z.to_nat index with
                    | None => undefined out_of_bounds
                    | Some guest =>
                        finished ← on_kernel (run_x64_emulator_thread (m_process_storage platform index) guest current_thread);
                        match finished with
                        | panics m => mret (panics m)
                        | continues guest =>
                            modify (fun a => with_guest_states a (<[Z.to_nat index := guest]> (x64_guest_states a)));;
                            mret (continues iterates)
                        end
                    end
                end
            | _ => mret (panics "arm64 process requested an unsupported execution backend")
            end
        end
  end.
