(* ===== verification/Arm64EmulationSafety.v ===== *)
(** A thread run by the emulator on the arm64 platform: its system calls keep the
    runtime well formed and touch only the memory of processes, and a run ends
    with the guest's state well formed. *)
From Stdlib Require Import String.
From S2P Require Import Prelude EmulatorTypes ExecutionContext Interpreter.
From S2P Require Import AddressSpace UserMemory KernelObjectPool RuntimeTypes UserRuntime Rpc Syscalls RuntimeInvariant KernelSafety RpcSafety SyscallSafety KernelFrames X64PeImage PlatformMemory Arm64Platform Arm64Emulation.
#[local] Open Scope Z_scope.

Lemma read_at_eq {A} `{RuntimePool A} (k : kernel) i x : get_by_index (pool (runtime k)) i = Some x -> read_at i k = Returned x k.
Proof. intros Hx. unfold read_at, mbind, M_bind. cbn. by rewrite Hx. Qed.

(** ** The guest's registers *)

Definition register_value (s : x64_emulator_state) (r : x64_general_register) : Z :=
  default 0 (general_registers s !! Z.to_nat (register_index r)).

Lemma register_bound r : (Z.to_nat (register_index r) < 16)%nat.
Proof. destruct r; cbn; lia. Qed.

Lemma guest_register_eq s r : state_wf s -> guest_register s r = mret (register_value s r).
Proof.
  intros [Hl _ _ _ _ _]. unfold guest_register, register_value.
  destruct (lookup_lt_is_Some_2 (general_registers s) (Z.to_nat (register_index r))) as [v Hv]; [rewrite Hl; apply register_bound|].
  by rewrite Hv.
Qed.

Lemma register_value_ok s r : state_wf s -> u64_ok (register_value s r).
Proof.
  intros [Hl Hg _ _ _ _]. unfold register_value.
  destruct (lookup_lt_is_Some_2 (general_registers s) (Z.to_nat (register_index r))) as [v Hv]; [rewrite Hl; apply register_bound|].
  rewrite Hv. by eapply Forall_lookup_1 in Hg.
Qed.

Lemma length_chunks n size l : length (chunks n size l) = n.
Proof. revert l. induction n as [|n IH]; intros l; cbn; [done|]. by rewrite IH. Qed.

Lemma chunks_concat n size ls l : length ls = n -> Forall (fun c => length c = size) ls -> chunks n size (concat ls ++ l) = ls.
Proof.
  intros <- H. induction H as [|c ls Hc H IH]; cbn; [done|]. rewrite <- app_assoc, take_app_length', drop_app_length' by done. by rewrite IH.
Qed.

Lemma chunks_whole n size l : length l = (n * size)%nat -> concat (chunks n size l) = l /\ Forall (fun c => length c = size) (chunks n size l).
Proof.
  revert l. induction n as [|n IH]; intros l Hl; cbn in *; [by destruct l|]. destruct (IH (drop size l)) as [E H]; [rewrite length_drop; lia|].
  rewrite E, take_drop. split; [done|]. constructor; [rewrite length_take; lia|done].
Qed.

Lemma chunks_bytes n size l : Forall u8_ok l -> Forall (Forall u8_ok) (chunks n size l).
Proof. revert l. induction n as [|n IH]; intros l Hl; cbn; constructor; [by apply Forall_take|by apply IH, Forall_drop]. Qed.

Lemma length_concat_same size (ls : list (list Z)) : Forall (fun c => length c = size) ls -> length (concat ls) = (length ls * size)%nat.
Proof. induction 1 as [|c ls Hc H IH]; cbn; [done|]. rewrite length_app. lia. Qed.

Lemma Forall_concat_bytes (ls : list (list Z)) : Forall (Forall u8_ok) ls -> Forall u8_ok (concat ls).
Proof. induction 1; cbn; [constructor|by apply Forall_app]. Qed.

(** The bytes of the quadwords of a thread. *)
Lemma qword_bytes qwords :
  length qwords = USER_THREAD_ARCH_PRESERVED_SIMD_QWORD_COUNT ->
  length (concat (le_encode 8 <$> qwords)) = (10 * 16)%nat /\ Forall u8_ok (concat (le_encode 8 <$> qwords)).
Proof.
  intros Hl. split.
  - rewrite (length_concat_same 8); [by rewrite length_fmap, Hl|]. apply Forall_fmap, Forall_true. intros. apply length_le_encode.
  - apply Forall_concat_bytes, Forall_fmap, Forall_true. intros. apply le_encode_bytes.
Qed.

Lemma simd_of_qwords_wf registers qwords :
  length registers = 16%nat -> Forall simd_register_ok registers -> length qwords = USER_THREAD_ARCH_PRESERVED_SIMD_QWORD_COUNT ->
  length (simd_of_qwords registers qwords) = 16%nat /\ Forall simd_register_ok (simd_of_qwords registers qwords).
Proof.
  intros Hl Hr Hq. destruct (qword_bytes qwords Hq) as [Hn Hb]. unfold simd_of_qwords. split.
  - rewrite length_app, length_take, length_chunks. lia.
  - apply Forall_app. split; [by apply Forall_take|]. destruct (chunks_whole 10 16 _ Hn) as [_ Hc].
    pose proof (chunks_bytes 10 16 _ Hb) as Hcb. rewrite Forall_forall in *. intros c Hin. split; auto.
Qed.

(** XMM6 to XMM15 are kept by the thread. *)
Lemma simd_roundtrip registers registers' :
  length registers = 16%nat -> Forall simd_register_ok registers ->
  simd_of_qwords registers' (qwords_of_simd registers) = take 6 registers' ++ drop 6 registers.
Proof.
  unfold x64_simd_register. intros Hl Hr. unfold simd_of_qwords, qwords_of_simd. f_equal.
  assert (Hd : Forall (fun c => length c = 16%nat) (drop 6 registers)).
  { apply Forall_drop. eapply List.Forall_impl; [|exact Hr]. by intros c []. }
  assert (Hb : Forall u8_ok (concat (drop 6 registers))).
  { apply Forall_concat_bytes, Forall_drop. eapply List.Forall_impl; [|exact Hr]. by intros c []. }
  pose proof (length_concat_same 16 _ Hd) as Hn. rewrite length_drop, Hl in Hn.
  destruct (chunks_whole 20 8 (concat (drop 6 registers))) as [Ec Hc]; [lia|].
  pose proof (chunks_bytes 20 8 _ Hb) as Hcb. unfold USER_THREAD_ARCH_PRESERVED_SIMD_QWORD_COUNT in *.
  rewrite <- list_fmap_compose.
  assert (E : (le_encode 8 ∘ le_decode) <$> chunks 20 8 (concat (drop 6 registers)) = chunks 20 8 (concat (drop 6 registers))).
  { rewrite <- (list_fmap_id (chunks 20 8 _)) at 2. apply list_fmap_ext. intros i c Hi. cbn.
    pose proof (Forall_lookup_1 _ _ _ _ Hc Hi) as Hlen. pose proof (Forall_lookup_1 _ _ _ _ Hcb Hi) as Hby. cbn in Hlen.
    pose proof (le_encode_decode c Hby) as E. by rewrite Hlen in E. }
  rewrite E, Ec. rewrite <- (app_nil_r (concat _)). apply chunks_concat; [rewrite length_drop; lia|done].
Qed.

Lemma set_guest_register_wf s r v : state_wf s -> state_wf (set_guest_register s r v).
Proof.
  intros [Hl Hg ? ? ? ?]. constructor; cbn; try done; [by rewrite length_insert|]. apply Forall_insert; [done|apply u64_range].
Qed.

Lemma load_x64_emulator_resume_state_safe s t k :
  state_wf s -> length (m_arch_preserved_registers t) = USER_THREAD_ARCH_PRESERVED_REGISTER_COUNT ->
  length (m_arch_preserved_simd_qwords t) = USER_THREAD_ARCH_PRESERVED_SIMD_QWORD_COUNT ->
  twp (load_x64_emulator_resume_state s t)
    (fun s' k' => k' = k /\ state_wf s' /\ instruction_pointer s' = u64 (resume_instruction_pointer (m_resume_state t))) k.
Proof.
  intros Hs Hl Hq. unfold load_x64_emulator_resume_state. cbv zeta.
  assert (Hstep : forall (b : bool) (v : Z) i (f : Z -> K x64_emulator_state) Q, (i < 12)%nat -> (forall v, twp (f v) Q k) ->
    twp (v ← (if b then mret v else in_bounds (m_arch_preserved_registers t !! i)); f v) Q k).
  { intros [] v i f Q Hi Hf; [apply Hf|]. destruct (lookup_lt_is_Some_2 (m_arch_preserved_registers t) i) as [w Hw].
    - rewrite Hl. unfold USER_THREAD_ARCH_PRESERVED_REGISTER_COUNT. lia.
    - apply twp_bind. eapply twp_in_bounds; [exact Hw|apply Hf]. }
  do 2 (apply Hstep; [vm_compute; lia|]; intros ?).
  repeat (apply (Hstep false 0); [vm_compute; lia|]; intros ?). apply twp_ret. split; [done|]. split; [|done].
  match goal with |- state_wf (set_simd_registers ?s' _) => assert (Hw : state_wf s') end.
  { do 10 apply set_guest_register_wf. destruct Hs. constructor; cbn; try done; apply u64_range. }
  destruct Hw as [H1 H2 H3 H4 H5 H6]. destruct (simd_of_qwords_wf _ _ H3 H4 Hq). by constructor.
Qed.

Lemma store_preserved_safe current s k :
  state_wf s -> runtime_wf (runtime k) -> live_thread (runtime k) current ->
  twp (store_x64_emulator_preserved_state current s) (ok_current k) k.
Proof.
  intros Hs Hr Hl. unfold store_x64_emulator_preserved_state. rewrite !(guest_register_eq s) by done.
  apply keeps_update_thread; [done|done|]. intros t _ []. split; [done|]. constructor; try done; cbn.
  by rewrite !length_insert.
Qed.

(** ** A system call *)

(** With a current thread, the system call returns, and lets the guest go on
    exactly when the thread still runs. *)
Lemma dispatch_x64_syscall_safe s k a :
  syscall_ready k -> state_wf s -> m_current_thread (runtime k) = Some a ->
  twp (dispatch_x64_syscall true s)
    (fun r k' => preserves k k' /\
       (action r = X64_EMULATOR_SYSCALL_ACTION_CONTINUE <-> m_current_thread (runtime k') = Some a)) k.
Proof.
  intros [Hr Hn] Hs Ea. unfold dispatch_x64_syscall. cbn [negb]. apply twp_bind, twp_gets. rewrite Ea.
  rewrite !(guest_register_eq s) by done. pose proof (wf_current _ Hr a Ea) as Hl.
  eapply twp_seq; [by apply store_preserved_safe|]. intros [] k1 [K1 E1].
  do 8 apply twp_bind, twp_ret. eapply twp_seq.
  { apply dispatch_syscall_preserves; [split; [apply K1|by rewrite (frame_next _ _ (proj2 K1))]|].
    constructor; by apply register_value_ok. }
  intros st k2 P2. pose proof (keeps_then_preserves _ _ _ K1 P2) as P. pose proof (preserves_wf _ _ P) as Hr2.
  assert (Hl2 : live_thread (runtime k2) a) by (by apply (preserves_threads _ _ P)).
  apply twp_bind, twp_gets. case_bool_decide as Hc.
  - eapply twp_seq; [apply keeps_update_thread; [done|done|]|].
    { intros t _ []. split; [done|by constructor]. }
    intros [] k3 [K3 E3]. destruct (live_thread_keeps _ _ a K3 Hl2) as [t Ht]. apply twp_bind. eapply twp_read_at; [exact Ht|].
    apply twp_ret. split; [by eapply preserves_keeps|]. cbn. split; [intros _; congruence|done].
  - apply twp_bind, get_state_safe; [done|]. intros t Ht. case_bool_decide; apply twp_ret; cbn; (split; [done|]); by split; [|intros].
Qed.

Lemma frames_bind_ret {A B} (v : A) (f : A -> K B) : frames (f v) -> frames (mret v ≫= f).
Proof. intros H k b k' Hw E. by eapply H. Qed.

Lemma frames_dispatch_x64_syscall s : state_wf s -> frames (dispatch_x64_syscall true s).
Proof.
  intros Hs. unfold dispatch_x64_syscall, store_x64_emulator_preserved_state. rewrite !(guest_register_eq s) by done. cbn [negb].
  apply frames_bind; [framed|]. intros [a|]; [|framed]. apply frames_bind; [repeat apply frames_bind_ret; framed|]. intros _.
  do 8 apply frames_bind_ret. framed. apply frames_dispatch_syscall. by apply register_value_ok.
Qed.

(** ** The callback *)

Lemma memory_bytes_ok m x n : length (memory_bytes m x n) = n /\ Forall u8_ok (memory_bytes m x n).
Proof.
  unfold memory_bytes, host_bytes. split; [by rewrite !length_fmap, length_seq|].
  apply Forall_fmap, Forall_true. intros. apply u8_range.
Qed.

(** What happens to the kernel while a guest runs in the window at [region] and
    makes [n] system calls. *)
Record time_slice (region n : Z) (k k' : kernel) : Prop := {
  slice_wf : runtime_wf (runtime k');
  slice_processes : m_processes (runtime k') = m_processes (runtime k);
  slice_threads i : live_thread (runtime k') i <-> live_thread (runtime k) i;
  slice_next : m_next_handle_value (runtime k) <= m_next_handle_value (runtime k') <= m_next_handle_value (runtime k) + n;
  slice_host h : ~ user_byte (runtime k) h -> ~ (region <= h < region + X64_USER_REGION_SIZE) -> host k' h = host k h;
  slice_activated : activated k -> activated k';
}.

Lemma slice_refl region k : runtime_wf (runtime k) -> time_slice region 0 k k.
Proof. intros H. constructor; try done; lia. Qed.

Lemma slice_trans region n n' k k1 k2 : time_slice region n k k1 -> time_slice region n' k1 k2 -> time_slice region (n + n') k k2.
Proof.
  intros [W1 P1 T1 N1 H1 A1] [W2 P2 T2 N2 H2 A2]. constructor; [done|congruence| |lia| |auto].
  - intros i. by rewrite T2, T1.
  - intros h Hh Hr. rewrite H2, H1; [done|done|done| |done]. by rewrite (user_byte_processes _ _ _ P1).
Qed.

Lemma slice_weaken region n n' k k' : n <= n' -> time_slice region n k k' -> time_slice region n' k k'.
Proof. intros Hn [W P T N H A]. constructor; try done. lia. Qed.

(** The guest's own stores. *)
Lemma slice_store region l k :
  runtime_wf (runtime k) -> Z.of_nat (length l) = X64_USER_REGION_SIZE -> time_slice region 0 k (at_host k (store_bytes (host k) region l)).
Proof.
  intros Hr Hl. constructor; try done; [cbn; lia|]. intros h _ Hh. cbn. apply store_bytes_outside. lia.
Qed.

Lemma slice_of region k k' : preserves k k' -> framed k k' -> time_slice region 1 k k'.
Proof. intros [W P T N] [_ H A]. constructor; auto. Qed.

Lemma runtime_spaces_wf r : runtime_wf r -> spaces_wf r.
Proof. intros Hr p q Hq. by apply (wf_process _ Hr p). Qed.

Lemma x64_syscall_callback_runs region k s l a :
  syscall_ready k -> m_current_thread (runtime k) = Some a -> state_wf s -> Z.of_nat (length l) = X64_USER_REGION_SIZE ->
  exists r k', x64_syscall_callback region (kernel_runs k) s (Some l)
               = (r, kernel_runs k', Some (memory_bytes (host k') region (length l))) /\ time_slice region 1 k k' /\
    (action r = X64_EMULATOR_SYSCALL_ACTION_CONTINUE <-> m_current_thread (runtime k') = Some a).
Proof.
  intros [Hr Hn] Ea Hs Hl. unfold x64_syscall_callback. set (k0 := at_host k (store_bytes (host k) region l)).
  pose proof (dispatch_x64_syscall_safe s k0 a ltac:(by split) Hs Ea) as Hd.
  destruct (proj1 (twp_returned _ _ _) Hd) as (r & k' & E & P & Hc). rewrite E.
  eexists _, k'. split; [done|]. split; [|exact Hc].
  apply (slice_trans region 0 1 k k0); [by apply slice_store|]. apply slice_of; [done|].
  eapply frames_dispatch_x64_syscall; [exact Hs|by apply runtime_spaces_wf|exact E].
Qed.

Lemma emulation_callbacks_wf region sz : callbacks_wf {| handle_syscall := Some (x64_syscall_callback region) |} sz.
Proof.
  eexists. split; [done|]. intros w s b Hs Hb. assert (Hz : s32_ok STATUS_BAD_STATE) by (vm_compute; split; congruence).
  unfold x64_syscall_callback. destruct w as [k|u|]; [|by split..]. destruct b as [l|]; [|by split].
  destruct (dispatch_x64_syscall _ _ _) as [r k'|u|]; [|by split..]. cbn. split.
  - unfold s32_ok, s32. change (2 ^ 31) with (2 ^ (32 - 1)). by apply signed_range.
  - destruct Hb as (l' & [= <-] & Hl & _). eexists. split; [done|]. destruct (memory_bytes_ok (host k') region (length l)) as [El Hb].
    by rewrite El.
Qed.

Lemma emulation_wf storage guest k : state_wf guest -> context_wf (emulation storage guest k).
Proof.
  intros Hs. constructor; cbn [EmulatorTypes.m_state m_memory m_callbacks m_options emulation].
  - done.
  - constructor; cbn [base_address size bytes]; [by vm_compute|by vm_compute|].
    eexists. split; [done|]. destruct (memory_bytes_ok (host k) (get_user_region storage) (Z.to_nat X64_USER_REGION_SIZE)) as [-> Hb].
    split; [by vm_compute|done].
  - apply emulation_callbacks_wf.
  - by vm_compute.
Qed.

(** One system call of a run. *)
Lemma world_step_slice region sz act k a w' :
  sz = X64_USER_REGION_SIZE -> syscall_ready k -> m_current_thread (runtime k) = Some a ->
  world_step {| handle_syscall := Some (x64_syscall_callback region) |} sz act (kernel_runs k) w' ->
  exists k', w' = kernel_runs k' /\ time_slice region 1 k k' /\
    (act = X64_EMULATOR_SYSCALL_ACTION_CONTINUE <-> m_current_thread (runtime k') = Some a).
Proof.
  intros -> Hk Ea (handler & s & b & [= <-] & Hs & (l & -> & Hl & _) & <- & <-).
  destruct (x64_syscall_callback_runs region k s l a Hk Ea Hs Hl) as (r & k' & -> & H). by exists k'.
Qed.

Lemma worlds_slice region sz (c : x64_execution_context emulated_kernel) n k a w' :
  m_callbacks c = {| handle_syscall := Some (x64_syscall_callback region) |} -> size (m_memory c) = sz -> sz = X64_USER_REGION_SIZE ->
  runtime_wf (runtime k) -> m_next_handle_value (runtime k) + Z.of_nat n < 2 ^ 64 -> m_current_thread (runtime k) = Some a ->
  worlds c n (kernel_runs k) w' ->
  exists k', w' = kernel_runs k' /\ time_slice region (Z.of_nat n) k k' /\ m_current_thread (runtime k') = Some a.
Proof.
  intros Hcb Hsz Hz. revert k. induction n as [|n IH]; intros k Hr Hn Ea; cbn [worlds].
  - intros ->. exists k. split; [done|]. split; [by apply slice_refl|done].
  - intros (w1 & Hstep & Hw). rewrite Hcb, Hsz in Hstep.
    apply (world_step_slice region sz _ k a) in Hstep as (k1 & -> & S1 & Hc); [|done|split; [done|lia]|done].
    pose proof (slice_next _ _ _ _ S1). apply IH in Hw as (k2 & -> & S2 & E2); [|apply S1|lia|by apply Hc].
    exists k2. split; [done|]. split; [|done]. replace (Z.of_nat (S n)) with (1 + Z.of_nat n) by lia. by eapply slice_trans.
Qed.

(** ** A run *)

Lemma twp_wp {S A} (m : M S A) Q (s : S) : twp m Q s -> wp m Q s.
Proof. unfold twp, wp. by destruct (m s). Qed.

Lemma twp_wp_bind {S A B} (m : M S A) (f : A -> M S B) Q s : twp m (fun a s' => wp (f a) Q s') s -> wp (m ≫= f) Q s.
Proof. intros H. by apply wp_bind, twp_wp. Qed.

(** The kernel after the emulator returns, and with the guest's last stores. *)
Lemma run_slice storage guest k a c :
  runtime_wf (runtime k) -> m_next_handle_value (runtime k) + 512 < 2 ^ 64 -> m_current_thread (runtime k) = Some a ->
  run_post (emulation storage guest k) true c ->
  exists k', m_world c = kernel_runs k' /\
    time_slice (get_user_region storage) 512 k (at_host k' (store_bytes (host k') (get_user_region storage) (default [] (bytes (m_memory c))))) /\
    (~ guest_left (m_result c) -> m_current_thread (runtime k') = Some a).
Proof.
  intros Hr Hn Ea (_ & Hwf & Hsame & Hres & n & w1 & Hw & Hend). set (region := get_user_region storage) in *.
  assert (Hret : 0 <= retired_instructions (m_result c) <= 512).
  { change (instruction_budget (m_options (emulation storage guest k))) with 512 in Hres. destruct Hres as [[_ ?]|[[_ ?]|[_ ?]]]; lia. }
  assert (Hbytes : Z.of_nat (length (default [] (bytes (m_memory c)))) = X64_USER_REGION_SIZE).
  { destruct (wf_memory _ Hwf) as [_ _ (l & -> & Hl & _)]. rewrite (run_size _ _ Hsame) in Hl. exact Hl. }
  assert (Hcount : Z.of_nat n <= 512) by (destruct Hend as [(_ & ? & _)|(act & _ & _ & ? & _)]; lia).
  apply (worlds_slice region X64_USER_REGION_SIZE _ n k a) in Hw as (k1 & -> & S1 & E1); [|done|done|done|done|lia|done].
  assert (Hstore : forall k', time_slice region 512 k k' -> time_slice region 512 k (at_host k' (store_bytes (host k') region (default [] (bytes (m_memory c)))))).
  { intros k' S. apply (slice_trans region 512 0 k k'); [done|]. apply slice_store; [apply S|done]. }
  destruct Hend as [(Hleft & _ & ->)|(act & Hact & Hstop & Hle & Hstep)].
  - exists k1. split; [done|]. split; [|done]. apply Hstore. eapply slice_weaken; [|exact S1]. lia.
  - pose proof (slice_next _ _ _ _ S1).
    apply (world_step_slice region _ act k1 a) in Hstep as (k2 & -> & S2 & Hc); [|done|split; [apply S1|lia]|done].
    exists k2. split; [done|]. split.
    + apply Hstore. eapply slice_weaken; [|eapply slice_trans; [exact S1|exact S2]]. lia.
    + intros Hno. exfalso. apply Hno. destruct Hres as [[Hf _]|[[Hl _]|[(_ & _ & Hg) _]]]; [|done|].
      * exfalso. unfold guest_fault, stopped_because in Hf. destruct act; [done|..]; cbn in Hstop; destruct Hf as [(Hf & _)|(Hf & _)]; congruence.
      * exfalso. destruct act; [done|..]; cbn in Hstop; congruence.
Qed.

Lemma terminate_slice `{Target} e f region k :
  runtime_wf (runtime k) -> twp (terminate_current_thread e f) (fun _ k' => time_slice region 0 k k') k.
Proof.
  intros Hr. destruct (proj1 (twp_returned _ _ _) (terminate_current_thread_safe e f k Hr)) as (b & k' & E & [W F]).
  unfold twp. rewrite E. apply (frames_terminate e f) in E as [_ Hh Ha]; [|by apply runtime_spaces_wf].
  destruct F as [Fp Ft Fc Fn]. constructor; [done|congruence|done|rewrite Fn; lia|auto|auto].
Qed.

Lemma emit_slice e region k : quiet_event e -> runtime_wf (runtime k) -> twp (emit e) (fun _ k' => time_slice region 0 k k' /\ m_current_thread (runtime k') = m_current_thread (runtime k)) k.
Proof.
  intros He Hr. destruct (proj1 (twp_returned _ _ _) (twp_emit e k Hr)) as (b & k' & E & [[W F] C]).
  unfold twp. rewrite E. apply (frames_emit e He) in E as [_ Hh Ha]; [|by apply runtime_spaces_wf].
  destruct F as [Fp Ft Fc Fn]. split; [|done]. constructor; [done|congruence|done|rewrite Fn; lia|auto|auto].
Qed.

(** The run used its budget up. *)
Definition budget_used (storage : Z) (k : kernel) (message : string) : Prop :=
  message = describe_x64_emulator_backend_failure X64_EMULATOR_BACKEND_FAILURE_INSTRUCTION_LIMIT_REACHED /\
  exists guest c, state_wf guest /\ run_x64_emulator true (emulation storage guest k) = Returned true c /\
    retired_instructions (m_result c) = X64_EMULATOR_INSTRUCTION_BUDGET.

Lemma finish_x64_emulator_run_safe r region k :
  run_result_ok X64_EMULATOR_INSTRUCTION_BUDGET r -> runtime_wf (runtime k) ->
  twp (finish_x64_emulator_run true r)
    (fun o k' => time_slice region 0 k k' /\
       match o with
       | panics m => m = describe_x64_emulator_backend_failure X64_EMULATOR_BACKEND_FAILURE_INSTRUCTION_LIMIT_REACHED /\
                     retired_instructions r = X64_EMULATOR_INSTRUCTION_BUDGET
       | continues _ => guest_fault r \/ guest_left r
       end) k.
Proof.
  intros Hres Hr. pose proof (slice_refl region k Hr) as S0. unfold finish_x64_emulator_run. cbn [negb].
  destruct Hres as [[Hf _]|[[Hl _]|[(Hb & _) Hn]]].
  - assert (backend_failure r = X64_EMULATOR_BACKEND_FAILURE_NONE) as -> by (destruct Hf as [(_ & _ & ?)|(_ & _ & ?)]; done).
    rewrite bool_decide_eq_false_2 by tauto.
    assert (is_x64_emulator_guest_fault r = true) as ->.
    { unfold is_x64_emulator_guest_fault. destruct Hf as [(E & _)|(E & _)]; rewrite E; done. }
    cbv zeta. eapply twp_seq; [by apply (emit_slice _ region)|]. intros [] k1 [S1 _].
    eapply twp_seq; [apply (terminate_slice _ _ region), S1|]. intros b k2 S2. apply twp_ret.
    split; [exact (slice_trans _ 0 0 _ _ _ S1 S2)|by left].
  - assert (backend_failure r = X64_EMULATOR_BACKEND_FAILURE_NONE) as -> by (destruct Hl as [(_ & _ & ?)|(_ & _ & ?)]; done).
    rewrite bool_decide_eq_false_2 by tauto.
    destruct Hl as [(E & H)|(E & H)]; unfold is_x64_emulator_guest_fault; rewrite E; cbn; (split; [done|]); right; [by left|by right].
  - rewrite Hb. cbn. by split.
Qed.

Lemma run_x64_emulator_thread_safe storage guest a k :
  runtime_wf (runtime k) -> m_next_handle_value (runtime k) + 512 < 2 ^ 64 -> m_current_thread (runtime k) = Some a ->
  state_wf guest ->
  wp (run_x64_emulator_thread storage guest a)
    (fun r k' => match r with
                 | panics m => budget_used storage k m
                 | continues guest' => state_wf guest' /\ time_slice (get_user_region storage) 512 k k'
                 end) k.
Proof.
  intros Hr Hn Ea Hg. unfold run_x64_emulator_thread. destruct (wf_current _ Hr a Ea) as [t Ht].
  apply twp_wp_bind. eapply twp_read_at; [exact Ht|]. pose proof (wf_thread _ Hr a t Ht) as [_ Hregs Hsimd _].
  apply twp_wp_bind. eapply twp_mono; [by apply load_x64_emulator_resume_state_safe|]. intros g k' (-> & Hgw & _).
  apply wp_bind, wp_gets.
  pose proof (run_x64_emulator_returns (emulation storage g k) (emulation_wf storage g k Hgw) ltac:(done) eq_refl) as Hrun.
  destruct (run_x64_emulator true (emulation storage g k)) as [ok c|u|] eqn:Erun; unfold wp in Hrun; rewrite Erun in Hrun; [|done..].
  pose proof Hrun as (-> & Hwf & _ & Hres & _).
  destruct (run_slice storage g k a c Hr Hn Ea Hrun) as (k1 & -> & S & _).
  apply wp_bind, wp_modify, twp_wp. eapply twp_seq; [apply (finish_x64_emulator_run_safe _ (get_user_region storage)); [exact Hres|apply S]|].
  intros [m|[]] k2 [S2 H2]; apply twp_ret.
  - destruct H2 as [-> Hn2]. split; [done|]. by exists g, c.
  - split; [apply Hwf|]. exact (slice_trans _ 512 0 _ _ _ S S2).
Qed.
