(* ===== verification/Arm64System.v ===== *)
(** The arm64 system: the kernel, the platform that prepares its processes, native
    threads in user mode, and threads the emulator runs. *)
From Stdlib Require Import String.
From S2P Require Import Prelude EmulatorTypes ExecutionContext.
From S2P Require Import AddressSpace UserMemory KernelObjectPool RuntimeTypes UserRuntime Rpc Syscalls RuntimeInvariant KernelSafety RpcSafety SyscallSafety RuntimeStart KernelFrames SystemStart PeImage X64PeImage PlatformMemory Arm64Platform Arm64PageTables Arm64Emulation Arm64EmulationSafety.
#[local] Open Scope Z_scope.

(** ** System calls of native threads *)

(** The current thread is one of a native process. *)
Definition runs_native (k : kernel) : Prop :=
  exists a t p q, m_current_thread (runtime k) = Some a /\ get_by_index (m_threads (runtime k)) a = Some t /\
    m_process t = Some p /\ get_by_index (m_processes (runtime k)) p = Some q /\
    get_process_execution_backend q = PROCESS_EXECUTION_BACKEND_NATIVE.

(** The current thread is one of an emulated process. *)
Definition runs_emulated (k : kernel) : Prop :=
  exists a t p q, m_current_thread (runtime k) = Some a /\ get_by_index (m_threads (runtime k)) a = Some t /\
    m_process t = Some p /\ get_by_index (m_processes (runtime k)) p = Some q /\
    get_process_execution_backend q = PROCESS_EXECUTION_BACKEND_X64_EMULATOR.

(** The registers are 64-bit words. *)
Definition arm64_frame_ok (f : arm64_syscall_frame) : Prop := u64_ok (x0 f) /\ u64_ok (x1 f) /\ u64_ok (x2 f).

Definition is_svc (f : arm64_syscall_frame) : Prop := exception_class f = ESR_EXCEPTION_CLASS_SVC64.

Lemma load_arm64_syscall_frame_safe t k :
  length (m_arch_preserved_registers t) = USER_THREAD_ARCH_PRESERVED_REGISTER_COUNT ->
  twp (load_arm64_syscall_frame t) (fun _ k' => k' = k) k.
Proof.
  intros Hl. unfold load_arm64_syscall_frame. cbv zeta.
  assert (Hstep : forall (b : bool) (v : Z) i (f : Z -> K arm64_syscall_frame), (i < 12)%nat -> (forall v, twp (f v) (fun _ k' => k' = k) k) ->
    twp (v ← (if b then mret v else in_bounds (m_arch_preserved_registers t !! i)); f v) (fun _ k' => k' = k) k).
  { intros [] v i f Hi Hf; [apply Hf|]. destruct (lookup_lt_is_Some_2 (m_arch_preserved_registers t) i) as [w Hw].
    - rewrite Hl. unfold USER_THREAD_ARCH_PRESERVED_REGISTER_COUNT. lia.
    - apply twp_bind. eapply twp_in_bounds; [exact Hw|apply Hf]. }
  do 11 (apply (Hstep false 0); [vm_compute; lia|]; intros ?). apply Hstep; [vm_compute; lia|]. intros ?. by apply twp_ret.
Qed.

Lemma frames_load_arm64_syscall_frame t : frames (load_arm64_syscall_frame t).
Proof. unfold load_arm64_syscall_frame. framed. Qed.
#[local] Hint Resolve frames_load_arm64_syscall_frame : frames.

Lemma frames_arm64_handle_syscall f : u64_ok (x2 f) -> frames (arm64_handle_syscall (Some f)).
Proof. intros Hf. unfold arm64_handle_syscall. framed; by apply frames_dispatch_syscall. Qed.

(** A native thread's system call returns without a panic; when it reports that
    user mode goes on, the current thread is native. *)
Lemma arm64_handle_syscall_preserves f k :
  syscall_ready k -> arm64_frame_ok f -> is_svc f -> runs_native k ->
  twp (arm64_handle_syscall (Some f))
    (fun r k' => preserves k k' /\ exists b f', r = continues (b, f') /\ (b = true -> runs_native k')) k.
Proof.
  intros [Hr Hn] (H0 & H1 & H2) Hsvc (a & t & p & q & Ea & Ht & Hp & Hq & Hb). unfold arm64_handle_syscall. unfold is_svc in Hsvc.
  rewrite Hsvc. cbn [negb Z.eqb Pos.eqb ESR_EXCEPTION_CLASS_SVC64]. apply twp_bind, twp_gets. rewrite Ea.
  apply twp_bind. eapply twp_read_at; [exact Ht|]. rewrite Hp. apply twp_bind. eapply twp_read_at; [exact Hq|]. cbv zeta.
  rewrite Hb, bool_decide_eq_false_2, bool_decide_eq_false_2 by congruence.
  eapply twp_seq.
  { apply keeps_update_thread; [done|by exists t|]. intros u _ []. split; [done|].
    constructor; try done. cbn [m_arch_preserved_registers save_arm64_preserved with_preserved]. by rewrite !length_insert. }
  intros [] k1 [K1 E1]. eapply twp_seq.
  { apply dispatch_syscall_preserves; [split; [apply K1|by rewrite (frame_next _ _ (proj2 K1))]|by constructor]. }
  intros st k2 P2. pose proof (keeps_then_preserves _ _ _ K1 P2) as P. pose proof (preserves_wf _ _ P) as Hr2.
  assert (Hstop : twp (mret (continues (false, f))) (fun r k' => preserves k k' /\ exists b f', r = continues (b, f') /\ (b = true -> runs_native k')) k2).
  { apply twp_ret. split; [done|]. by exists false, f. }
  apply twp_bind, twp_same; [by apply has_runnable_thread_safe|]. intros [|]; cbn [negb]; [|exact Hstop].
  apply twp_bind, twp_gets. destruct (m_current_thread (runtime k2)) as [b|] eqn:Eb; [|exact Hstop].
  destruct (wf_current _ Hr2 b Eb) as [u Hu]. apply twp_bind. eapply twp_read_at; [exact Hu|].
  destruct (thread_process _ _ _ _ (wf_thread _ Hr2 b u Hu)) as (p' & Hp' & q' & Hq'). rewrite Hp'.
  apply (twp_seq _ _ _ (fun _ k3 => ok_current k2 tt k3 /\ m_processes (runtime k3) = m_processes (runtime k2) /\
                                     exists u3, get_by_index (m_threads (runtime k3)) b = Some u3 /\ m_process u3 = Some p')).
  { case_bool_decide; [|apply twp_ret; split; [by apply keeps_current_refl|]; split; [done|]; by exists u].
    destruct (proj1 (twp_returned _ _ _) (keeps_update_thread b (fun t => prepare_syscall_resume t st) k2 Hr2 ltac:(by exists u)
      ltac:(intros x _ []; split; [done|by constructor]))) as ([] & k3 & E3 & K3).
    unfold twp. rewrite E3. split; [done|]. apply update_returned in E3 as (x & Hx & ->). split; [done|].
    exists (prepare_syscall_resume x st). cbn in Hx |- *. rewrite Hx in Hu. injection Hu as ->.
    rewrite (get_update_at _ _ _ _ u), decide_True by done. split; [done|]. unfold prepare_syscall_resume. by destruct target. }
  intros [] k3 ([K3 E3] & Ep3 & u3 & Hu3 & Hpu3). pose proof (preserves_keeps _ _ _ P K3) as P3.
  apply twp_bind. eapply twp_read_at; [rewrite <- Ep3 in Hq'; exact Hq'|].
  case_bool_decide as Hnat; [apply twp_ret; split; [done|]; by exists false, f|].
  apply twp_bind. eapply twp_read_at; [exact Hu3|].
  apply twp_bind, twp_same; [apply load_arm64_syscall_frame_safe, (thread_registers _ _ _ _ (wf_thread _ (proj1 K3) b u3 Hu3))|].
  intros f'. apply twp_bind, twp_same; [by apply has_runnable_thread_safe, K3|]. intros c. apply twp_ret. split; [done|].
  exists c, f'. split; [done|]. intros _. exists b, u3, p', q'. split_and!; [congruence|done|done|congruence|].
  destruct (decide (get_process_execution_backend q' = PROCESS_EXECUTION_BACKEND_NATIVE)); [done|]. by destruct Hnat.
Qed.

(** ** The system *)

Definition zero_guest : x64_emulator_state :=
  {| general_registers := replicate 16 0; simd_registers := replicate 16 (replicate 16 0); instruction_pointer := 0; flags := 0 |}.

Lemma zero_guest_wf : state_wf zero_guest.
Proof.
  assert (H : simd_register_ok (replicate 16 0)) by (split; [done|by apply Forall_replicate]).
  constructor; cbn -[replicate]; [done|by apply Forall_replicate|done|by apply Forall_replicate|words|words].
Qed.

(** The machine when the loop is entered: [initialize] has cleared the storages. *)
Definition booted (k : kernel) : arm64_machine :=
  {| m_kernel := k; x64_guest_states := replicate (Z.to_nat USER_RUNTIME_MAX_INITIAL_PROCESSES) zero_guest;
     m_has_logged_native_runtime_ready := false; m_has_logged_x64_emulator_runtime_ready := false |}.

Definition enters_user_mode (step : loop_step) : bool := match step with enters _ => true | _ => false end.

Section system.
Context (platform : Z) (terminal_service_image test_app_image : embedded_image).
Abbreviation initialize := (initialize platform terminal_service_image test_app_image).
Abbreviation platform_built := (platform_built platform terminal_service_image test_app_image).

(** A state of the system: in the loop, or in user mode.  [n] bounds the system
    calls so far: an iteration of the loop makes as many as the budget of the
    emulator at most.  User mode stores a byte where the tables of the address
    space that was activated last let it. *)
Inductive arm64_system : nat -> bool -> arm64_machine -> Prop :=
  | arm64_start k0 k x :
      image_ok (runtime k0) -> run_initial_user_runtime initialize k0 = Returned (continues x) k ->
      arm64_system 0 false (booted k)
  | arm64_iteration n a step a' :
      arm64_system n false a -> enter_user_thread platform a = Returned (continues step) a' -> step <> parks_cpu ->
      arm64_system (n + Z.to_nat X64_EMULATOR_INSTRUCTION_BUDGET) (enters_user_mode step) a'
  | arm64_store n a p q va h v :
      arm64_system n true a ->
      last_activation (events (m_kernel a)) = Some (Some p) -> get_by_index (m_processes (runtime (m_kernel a))) p = Some q ->
      0 <= va < 2 ^ 39 -> user_translation (host (m_kernel a)) (arch_root_table (m_address_space q)) va = Some h ->
      arm64_system n true (with_kernel a (at_host (m_kernel a) (poke (host (m_kernel a)) h v)))
  | arm64_call n a f b f' k' :
      arm64_system n true a -> arm64_frame_ok f -> is_svc f ->
      arm64_handle_syscall (Some f) (m_kernel a) = Returned (continues (b, f')) k' ->
      arm64_system (S n) b (with_kernel a k').

Hypothesis Hok : platform_ok platform terminal_service_image test_app_image.

Definition storage (i : nat) : Z := m_process_storage platform (Z.of_nat i).

(** The bytes user mode and the guests may change. *)
Definition region (b : initial_user_runtime_bootstrap) (h : Z) : Prop :=
  exists i, Z.of_nat i < process_count b /\ region_byte (storage i) h.

(** The size of the memory of a process of a backend. *)
Definition backend_size (backend : process_execution_backend) : Z :=
  match backend with PROCESS_EXECUTION_BACKEND_X64_EMULATOR => X64_USER_REGION_SIZE | _ => USER_REGION_SIZE end.

Definition known_backend (backend : process_execution_backend) : Prop :=
  backend = PROCESS_EXECUTION_BACKEND_NATIVE \/ backend = PROCESS_EXECUTION_BACKEND_X64_EMULATOR.

(** The state since the platform left memory [m] and the record [b]. *)
Record isolated (m : host_memory) (b : initial_user_runtime_bootstrap) (k : kernel) : Prop := {
  isolated_built : platform_built m b;
  isolated_processes : processes_from (take (Z.to_nat (process_count b)) (initial_processes b)) (runtime k);
  isolated_active : activated k;
  isolated_host h : ~ region b h -> host k h = m h;
}.

Section isolated.
Context (m : host_memory) (b : initial_user_runtime_bootstrap).

Lemma arm64_process_count_bound : platform_built m b -> 1 <= process_count b <= 2.
Proof. intros Hb. rewrite (built_count _ _ _ _ _ Hb). destruct (has_embedded_image _); lia. Qed.

Lemma storage_is_ok i : (i < 2)%nat -> storage_ok (storage i).
Proof. intros Hi. apply (arm64_storages_ok platform terminal_service_image test_app_image Hok). lia. Qed.

Lemma regions_apart i j h h' : (i < 2)%nat -> (j < 2)%nat -> region_byte (storage j) h ->
  storage i <= h' < storage i + 0x3000 \/ (i <> j /\ region_byte (storage i) h') -> h <> h'.
Proof.
  intros Hi Hj Hh Hh' ->. pose proof (user_region_spec _ (storage_is_ok i Hi)) as (_ & Hlo & Hhi).
  pose proof (user_region_spec _ (storage_is_ok j Hj)) as (_ & Hlo' & Hhi').
  assert (E : forall i, storage i = platform + Z.of_nat i * 0x404000) by done. rewrite (E i) in *. rewrite (E j) in *.
  unfold region_byte in *. change USER_REGION_SIZE with 0x200000 in *. nia.
Qed.

Lemma arm64_tables_outside i h : (i < 2)%nat -> storage i <= h < storage i + 0x3000 -> platform_built m b -> ~ region b h.
Proof.
  intros Hi Hh Hb (j & Hj & Hp). pose proof (arm64_process_count_bound Hb). eapply (regions_apart i j h h); [done|lia|done|by left|done].
Qed.

(** The process of a configuration: its region, as its backend has it. *)
Lemma built_mapped i c :
  platform_built m b -> Z.of_nat i < process_count b -> initial_processes b !! i = Some c ->
  known_backend (execution_backend (initial_metadata c)) /\
  process_mapped m (storage i) (backend_size (execution_backend (initial_metadata c))) (initial_address_space c).
Proof.
  intros Hb Hi Hc. pose proof (built_processes _ _ _ _ _ Hb i c Hi Hc) as H.
  assert (Hn : forall im, native_built m (storage i) im c -> known_backend (execution_backend (initial_metadata c)) /\
    process_mapped m (storage i) (backend_size (execution_backend (initial_metadata c))) (initial_address_space c)).
  { intros im [Hm Hbk _ _]. rewrite Hbk. split; [by left|done]. }
  assert (Hcl : client_built test_app_image m (storage i) c -> known_backend (execution_backend (initial_metadata c)) /\
    process_mapped m (storage i) (backend_size (execution_backend (initial_metadata c))) (initial_address_space c)).
  { unfold client_built. destruct (decide _); [apply Hn|]. intros (_ & [Hm Hbk _]). rewrite Hbk. split; [by right|done]. }
  unfold process_built in H. destruct (has_embedded_image terminal_service_image); [|by apply Hcl]. destruct i; [by eapply Hn|by apply Hcl].
Qed.

(** A process, in the state: it is mapped by the tables of a storage of its own. *)
Record process_at (k : kernel) (i : nat) (q : process) : Prop := {
  at_index : Z.of_nat i < process_count b /\ (i < 2)%nat;
  at_backend : known_backend (get_process_execution_backend q);
  at_mapped : process_mapped (host k) (storage i) (backend_size (get_process_execution_backend q)) (m_address_space q);
}.

Lemma arm64_isolated_process k p q :
  isolated m b k -> get_by_index (m_processes (runtime k)) p = Some q -> exists i, process_at k i q.
Proof.
  intros [Hb (f & Hf & _) _ Hh] Hq. destruct (Hf p q Hq) as (c & Hc & Ea & Em). apply lookup_take_Some in Hc as [Hc Hlt].
  pose proof (arm64_process_count_bound Hb). destruct (built_mapped (f p) c Hb ltac:(lia) Hc) as [Hk Hm].
  exists (f p). constructor; [lia|unfold get_process_execution_backend; by rewrite Em|].
  unfold get_process_execution_backend. rewrite Em, Ea. eapply process_mapped_agree; [exact Hm|].
  intros y Hy. apply Hh. apply (arm64_tables_outside (f p)); [lia|done|done].
Qed.

Lemma backend_size_bound backend : 0 <= backend_size backend <= USER_REGION_SIZE.
Proof. destruct backend; vm_compute; split; congruence. Qed.

Lemma process_at_byte k i q va h : process_at k i q -> byte_host (m_address_space q) va = Some h -> region b h /\ region_byte (storage i) h.
Proof.
  intros [[Hi Hi2] _ Hm] Hh. assert (Hr : region_byte (storage i) h).
  { eapply (process_region_byte (host k) (storage i) _ _ va); [by apply storage_is_ok|apply backend_size_bound|exact Hm|done]. }
  split; [by exists i|done].
Qed.

Lemma arm64_isolated_user_byte k h : isolated m b k -> user_byte (runtime k) h -> region b h.
Proof.
  intros Hk (p & q & x & Hq & Hx). destruct (arm64_isolated_process k p q Hk Hq) as (i & Hi). by apply (process_at_byte k i q x h).
Qed.

Lemma arm64_isolated_framed k k' : isolated m b k -> framed k k' -> isolated m b k'.
Proof.
  intros Hk [Fp Fh Fa]. pose proof Hk as [Hb Hp Ha Hh]. constructor; [done|by eapply processes_from_same|auto|].
  intros h Hn. rewrite Fh; [by apply Hh|]. intros Hu. by apply Hn, (arm64_isolated_user_byte k).
Qed.

Lemma arm64_isolated_wf k : isolated m b k -> spaces_wf (runtime k).
Proof.
  intros Hk. apply (processes_from_wf (take (Z.to_nat (process_count b)) (initial_processes b))); [|apply Hk].
  destruct (isolated_built _ _ _ Hk) as [(_ & _ & _ & H) _ _ _]. exact H.
Qed.

(** A run of the emulator stays in the region of the storage. *)
Lemma isolated_slice k k' i q n :
  isolated m b k -> process_at k i q -> time_slice (get_user_region (storage i)) n k k' -> isolated m b k'.
Proof.
  intros Hk Hq [_ Sp _ _ Sh Sa]. pose proof Hk as [Hb Hp Ha Hh]. constructor; [done|by eapply processes_from_same|auto|].
  intros h Hn. rewrite Sh; [by apply Hh| |].
  - intros Hu. by apply Hn, (arm64_isolated_user_byte k).
  - intros Hr. apply Hn. exists i. split; [apply Hq|]. unfold region_byte.
    change X64_USER_REGION_SIZE with 0xA000 in Hr. change USER_REGION_SIZE with 0x200000. lia.
Qed.

(** A store of user mode. *)
Lemma arm64_isolated_store k p q va h v :
  isolated m b k -> get_by_index (m_processes (runtime k)) p = Some q ->
  0 <= va < 2 ^ 39 -> user_translation (host k) (arch_root_table (m_address_space q)) va = Some h ->
  isolated m b (at_host k (poke (host k) h v)).
Proof.
  intros Hk Hq Hva Ht. destruct (arm64_isolated_process k p q Hk Hq) as (i & [[Hi Hi2] _ Hm]).
  rewrite (user_translation_storage (host k) (storage i) _ _ _ (storage_is_ok i Hi2) Hm Hva) in Ht.
  destruct (user_address_range va) eqn:Er; [|done]. injection Ht as <-. unfold user_address_range in Er. bool_hyps.
  pose proof Hk as [Hb Hpr Ha Hh]. constructor; [done|done|done|]. intros y Hy. cbn. unfold poke.
  destruct (Z.eqb_spec y (get_user_region (storage i) + (va - USER_REGION_VIRTUAL_ADDRESS))) as [->|]; [|by apply Hh].
  exfalso. apply Hy. exists i. split; [done|]. unfold region_byte. lia.
Qed.

(** The processor's translation of a process's addresses, for accesses of user
    mode, extends the kernel's, and is the same for a native process. *)
Lemma process_at_translation k i q va :
  process_at k i q -> 0 <= va < 2 ^ 39 ->
  let translated := user_translation (host k) (arch_root_table (m_address_space q)) va in
  translated = (if user_address_range va then Some (get_user_region (storage i) + (va - USER_REGION_VIRTUAL_ADDRESS)) else None) /\
  (forall h, byte_host (m_address_space q) va = Some h -> translated = Some h) /\
  (get_process_execution_backend q = PROCESS_EXECUTION_BACKEND_NATIVE -> translated = byte_host (m_address_space q) va).
Proof.
  intros [[_ Hi] _ Hm] Hva. cbv zeta. rewrite (user_translation_storage (host k) (storage i) _ _ _ (storage_is_ok i Hi) Hm Hva).
  pose proof (backend_size_bound (get_process_execution_backend q)) as Hs.
  rewrite (arm64_process_byte_host (host k) (storage i) _ _ va (storage_is_ok i Hi) (proj1 Hs) Hm). unfold user_address_range.
  split; [done|]. split.
  - intros h. destruct (Z.leb_spec USER_REGION_VIRTUAL_ADDRESS va) as [Hlo|]; [|done].
    destruct (Z.ltb_spec va (USER_REGION_VIRTUAL_ADDRESS + backend_size (get_process_execution_backend q))); [|done].
    by rewrite (proj2 (Z.ltb_lt va (USER_REGION_VIRTUAL_ADDRESS + USER_REGION_SIZE))) by lia.
  - intros ->. done.
Qed.

(** No byte is in the reach of two processes. *)
Lemma arm64_isolated_distinct k p p' q q' va va' h :
  isolated m b k -> get_by_index (m_processes (runtime k)) p = Some q -> get_by_index (m_processes (runtime k)) p' = Some q' ->
  0 <= va < 2 ^ 39 -> 0 <= va' < 2 ^ 39 ->
  user_translation (host k) (arch_root_table (m_address_space q)) va = Some h ->
  user_translation (host k) (arch_root_table (m_address_space q')) va' = Some h -> p = p'.
Proof.
  intros Hk Hq Hq' Hva Hva' Ht Ht'. pose proof Hk as [Hb (f & Hf & Hinj) _ _].
  assert (Hloc : forall p q va, get_by_index (m_processes (runtime k)) p = Some q -> 0 <= va < 2 ^ 39 ->
    user_translation (host k) (arch_root_table (m_address_space q)) va = Some h -> (f p < 2)%nat /\ region_byte (storage (f p)) h).
  { clear p p' q q' va va' Hq Hq' Hva Hva' Ht Ht'. intros p q va Hq Hva Ht.
    destruct (Hf p q Hq) as (c & Hc & Ea & Em). apply lookup_take_Some in Hc as [Hc Hlt].
    pose proof (arm64_process_count_bound Hb). destruct (built_mapped (f p) c Hb ltac:(lia) Hc) as [_ Hm].
    destruct (arm64_isolated_process k p q Hk Hq) as (i & Hat). pose proof (mapped_root _ _ _ _ (at_mapped _ _ _ Hat)) as R.
    rewrite Ea, (mapped_root _ _ _ _ Hm) in R. assert (i = f p) as -> by (unfold root_table, storage, m_process_storage in R; change sizeof_process_storage with 0x404000 in R; lia).
    destruct (process_at_translation k (f p) q va Hat Hva) as [E _]. rewrite E in Ht. destruct (user_address_range va) eqn:Er; [|done].
    injection Ht as <-. unfold user_address_range in Er. bool_hyps. split; [lia|]. unfold region_byte. lia. }
  destruct (Hloc p q va Hq Hva Ht) as [L1 R1], (Hloc p' q' va' Hq' Hva' Ht') as [L2 R2].
  apply Hinj; [by exists q|by exists q'|]. destruct (decide (f p = f p')) as [|Hne]; [done|].
  exfalso. apply (regions_apart (f p) (f p') h h L1 L2 R2); [by right|done].
Qed.
End isolated.

(** ** The start *)

Lemma arm64_start_isolated k0 k x :
  image_ok (runtime k0) -> run_initial_user_runtime initialize k0 = Returned (continues x) k ->
  logged_lines (events k) = logged_lines (events k0) /\ exists m b, isolated m b k.
Proof.
  intros Hi E. unfold run_initial_user_runtime in E. apply bind_returned in E as ([] & k1 & E1 & E). injection E1 as <-.
  apply bind_returned in E as (r & k1 & E1 & E).
  pose proof (arm64_initialize_builds platform terminal_service_image test_app_image Hok (with_runtime k0 (reset_runtime (runtime k0)))) as Hb.
  unfold twp in Hb. rewrite E1 in Hb. destruct r as [msg|b]; [done|]. destruct Hb as (Hr & He & _ & Hb).
  pose proof (run_bootstrap_owned _ _ _ _ E) as [_ Hlog]. rewrite He in Hlog. split; [exact Hlog|].
  pose proof (starting_processes _ _ _ (reset_starting _ Hi)) as Hu. cbn [runtime with_runtime] in Hr. rewrite <- Hr in Hu.
  apply run_bootstrap_from in E as (Hp & Ha & Hh); [|done|apply Hb].
  exists (host k1), b. constructor; [done|done|done|]. intros h Hn. apply Hh. intros Hub. apply Hn.
  destruct Hub as (p & q & y & Hq & Hy). destruct Hp as (f & Hf & _). destruct (Hf p q Hq) as (c & Hc & Ea & _).
  apply lookup_take_Some in Hc as [Hc Hlt]. pose proof (arm64_process_count_bound _ _ Hb).
  destruct (built_mapped (host k1) b (f p) c Hb ltac:(lia) Hc) as [_ Hm]. exists (f p). split; [lia|]. rewrite Ea in Hy.
  eapply (process_region_byte (host k1) (storage (f p)) _ _ y); [apply storage_is_ok; lia|apply backend_size_bound|exact Hm|done].
Qed.

(** ** An iteration of the loop *)

Lemma get_process_storage_at b k i q : process_at b k i q -> get_process_storage platform q = continues (Z.of_nat i).
Proof.
  intros [[Hi Hi2] _ Hm]. unfold get_process_storage. rewrite (mapped_root _ _ _ _ Hm).
  change (Z.to_nat USER_RUNTIME_MAX_INITIAL_PROCESSES) with 2%nat. cbn [find_storage].
  assert (E : forall j, root_table (m_process_storage platform j) = platform + j * 0x404000) by done.
  unfold storage. rewrite !E. destruct i as [|[|i]]; [by rewrite Z.eqb_refl| |lia].
  rewrite (proj2 (Z.eqb_neq _ _)) by lia. by rewrite Z.eqb_refl.
Qed.

(** What holds at every step. *)
Record steady (m : host_memory) (b : initial_user_runtime_bootstrap) (n : nat) (user : bool) (a : arm64_machine) : Prop := {
  steady_isolated : isolated m b (m_kernel a);
  steady_wf : runtime_wf (runtime (m_kernel a));
  steady_next : m_next_handle_value (runtime (m_kernel a)) <= 5 + Z.of_nat n;
  steady_guests : length (x64_guest_states a) = 2%nat /\ Forall state_wf (x64_guest_states a);
  steady_native : user = true -> runs_native (m_kernel a);
}.

Section iteration.
Context (m : host_memory) (b : initial_user_runtime_bootstrap).

Lemma wp_on_kernel {A} (o : K A) Q a : wp o (fun x k => Q x (with_kernel a k)) (m_kernel a) -> wp (on_kernel o) Q a.
Proof. unfold wp, on_kernel. by destruct (o (m_kernel a)). Qed.

Lemma wp_on_kernel_twp {A} (o : K A) Q a : twp o (fun x k => Q x (with_kernel a k)) (m_kernel a) -> wp (on_kernel o) Q a.
Proof. intros H. by apply wp_on_kernel, twp_wp. Qed.

Lemma with_kernel_same a : with_kernel a (m_kernel a) = a.
Proof. by destruct a. Qed.

(** A look at the kernel. *)
Lemma wp_look {A B} (o : K A) (f : A -> M arm64_machine B) Q a x :
  o (m_kernel a) = Returned x (m_kernel a) -> wp (f x) Q a -> wp (on_kernel o ≫= f) Q a.
Proof. intros E H. apply wp_bind, wp_on_kernel. unfold wp at 1. by rewrite E, with_kernel_same. Qed.

Lemma isolated_activation k c t p :
  isolated m b k -> m_current_thread (runtime k) = Some c -> get_by_index (m_threads (runtime k)) c = Some t -> m_process t = Some p ->
  isolated m b {| runtime := runtime k; host := host k; events := events k ++ [arch_activate_process_address_space (Some p)] |}.
Proof.
  intros [Hb Hp Ha Hh] Hc Ht Hpr. constructor; [done|done| |done]. intros c' t' Hc' Ht'. cbn in *. rewrite last_activation_snoc. congruence.
Qed.

(** Logging. *)
Definition logged (a a' : arm64_machine) : Prop :=
  x64_guest_states a' = x64_guest_states a /\ runtime (m_kernel a') = runtime (m_kernel a) /\
  (isolated m b (m_kernel a) -> isolated m b (m_kernel a')).

Lemma isolated_log k l : isolated m b k -> isolated m b {| runtime := runtime k; host := host k; events := events k ++ [debug_log l] |}.
Proof.
  intros Hk. apply (arm64_isolated_framed m b k); [done|]. eapply (frames_emit (debug_log l)); [done|by eapply arm64_isolated_wf|reflexivity].
Qed.

Lemma log_native_logged a (Q : unit -> arm64_machine -> Prop) : (forall a', logged a a' -> Q tt a') -> wp log_native_runtime_ready Q a.
Proof.
  intros HQ. unfold log_native_runtime_ready. apply wp_bind, wp_gets. destruct (negb _); [|by apply wp_ret, HQ].
  apply wp_bind, wp_on_kernel, wp_modify, wp_modify, HQ. split; [done|]. split; [done|]. apply isolated_log.
Qed.

Lemma log_x64_emulator_logged a (Q : unit -> arm64_machine -> Prop) : (forall a', logged a a' -> Q tt a') -> wp log_x64_emulator_runtime_ready Q a.
Proof.
  intros HQ. unfold log_x64_emulator_runtime_ready. apply wp_bind, wp_gets. destruct (negb _); [|by apply wp_ret, HQ].
  apply wp_bind, wp_on_kernel, wp_modify, wp_modify, HQ. split; [done|]. split; [done|]. apply isolated_log.
Qed.

Lemma has_runnable_thread_eq k : runtime_wf (runtime k) -> exists r, has_runnable_thread k = Returned r k.
Proof.
  intros Hr. destruct (proj1 (twp_returned _ _ _) (has_runnable_thread_safe k Hr)) as (r & k' & E & ->). by exists r.
Qed.

(** How an iteration can end. *)
Definition iteration_post (n : nat) (r : may_panic loop_step) (a' : arm64_machine) : Prop :=
  match r with
  | panics message => exists i k, (i < 2)%nat /\ budget_used (storage i) k message
  | continues step => steady m b (n + Z.to_nat X64_EMULATOR_INSTRUCTION_BUDGET) (enters_user_mode step) a'
  end.

Lemma steady_later n user user' a k :
  steady m b n user a -> isolated m b k -> runtime k = runtime (m_kernel a) -> (user' = true -> runs_native k) ->
  steady m b (n + Z.to_nat X64_EMULATOR_INSTRUCTION_BUDGET) user' (with_kernel a k).
Proof.
  intros [Hi Hw Hn Hg _] Hk Er Hnat. constructor; cbn [m_kernel with_kernel x64_guest_states]; rewrite ?Er; try done. lia.
Qed.

Lemma enter_user_thread_steady n a :
  steady m b n false a -> 5 + Z.of_nat n + 512 < 2 ^ 64 -> wp (enter_user_thread platform) (iteration_post n) a.
Proof.
  intros Ha Hbound. pose proof Ha as [Hi Hw Hn Hg _]. unfold enter_user_thread. eapply wp_look; [reflexivity|].
  assert (Hpark : wp (mret (continues parks_cpu)) (iteration_post n) a).
  { apply wp_ret. cbn [iteration_post enters_user_mode]. rewrite <- (with_kernel_same a). by apply (steady_later n false). }
  destruct (m_current_thread (runtime (m_kernel a))) as [c|] eqn:Ec; [|exact Hpark].
  destruct (has_runnable_thread_eq _ Hw) as (r & Er). eapply wp_look; [exact Er|]. destruct r; [|exact Hpark]. cbn [negb].
  destruct (wf_current _ Hw c Ec) as [t Ht]. eapply wp_look; [exact (read_at_eq (A := thread) _ c t Ht)|].
  destruct (thread_process _ _ _ _ (wf_thread _ Hw c t Ht)) as (p & Hp & q & Hq). rewrite Hp.
  apply wp_bind, wp_on_kernel, wp_modify. pose proof (isolated_activation _ _ _ _ Hi Ec Ht Hp) as Hi1.
  set (k1 := {| runtime := runtime (m_kernel a); host := _; events := _ |}) in *.
  assert (R1 : runtime k1 = runtime (m_kernel a)) by done. clearbody k1.
  change k1 with (m_kernel (with_kernel a k1)) in Hi1, R1. set (a1 := with_kernel a k1) in *.
  assert (G1 : x64_guest_states a1 = x64_guest_states a) by done. clearbody a1.
  eapply wp_look; [apply (read_at_eq (A := process)); rewrite R1; exact Hq|].
  rewrite <- R1 in Hq. destruct (arm64_isolated_process m b _ p q Hi1 Hq) as (i & Hat).
  destruct (at_backend _ _ _ _ Hat) as [Hb | Hb]; rewrite Hb.
  - apply wp_bind. apply log_native_logged. intros a2 (G2 & R2 & L2).
    eapply wp_look; [apply (read_at_eq (A := thread)); rewrite R2, R1; exact Ht|].
    apply wp_bind, wp_on_kernel_twp. eapply twp_mono; [apply load_arm64_syscall_frame_safe, (thread_registers _ _ _ _ (wf_thread _ Hw c t Ht))|].
    intros f k2 ->. apply wp_ret. cbn [iteration_post enters_user_mode].
    constructor; rewrite ?with_kernel_same; cbn [enters_user_mode]; rewrite ?R2, ?R1, ?G2, ?G1; [by apply L2|done|lia|done|].
    intros _. exists c, t, p, q. rewrite R2. split_and!; [by rewrite R1|by rewrite R1|done|done|done].
  - apply wp_bind. apply log_x64_emulator_logged. intros a2 (G2 & R2 & L2). rewrite (get_process_storage_at b (m_kernel a1) i q Hat).
    apply wp_bind, wp_gets. rewrite G2, G1. rewrite Nat2Z.id. destruct Hg as [Hlen Hguests]. pose proof (at_index _ _ _ _ Hat) as [Hi0 Hi2].
    destruct (lookup_lt_is_Some_2 (x64_guest_states a) i) as [g Hgi]; [lia|]. rewrite Hgi.
    apply wp_bind, wp_on_kernel. rewrite <- R1 in Hw, Hn, Ec. rewrite <- R2 in Hw, Hn, Ec.
    eapply wp_mono; [apply (run_x64_emulator_thread_safe (storage i) g c); [exact Hw|lia|exact Ec|by eapply Forall_lookup_1 in Hguests]|].
    intros [msg|g'] k2 H2; [apply wp_ret; by exists i, (m_kernel a2)|]. destruct H2 as [Hg' S2].
    apply wp_bind, wp_modify, wp_ret. cbn [iteration_post enters_user_mode].
    constructor; cbn [m_kernel with_kernel with_guest_states x64_guest_states]; [|apply S2| | |done].
    + eapply isolated_slice; [by apply L2| |exact S2]. destruct Hat as [Hx Hy Hz]. constructor; [done|done|].
      destruct (arm64_isolated_process m b (m_kernel a2) p q (L2 Hi1) ltac:(by rewrite R2)) as (j & Hj).
      assert (j = i) as -> by (pose proof (mapped_root _ _ _ _ (at_mapped _ _ _ _ Hj)); pose proof (mapped_root _ _ _ _ Hz);
        unfold storage, root_table, m_process_storage in *; change sizeof_process_storage with 0x404000 in *; lia).
      apply Hj.
    + pose proof (slice_next _ _ _ _ S2). change (Z.to_nat X64_EMULATOR_INSTRUCTION_BUDGET) with 512%nat. lia.
    + rewrite G2, G1. split; [by rewrite length_insert|by apply Forall_insert].
Qed.

Lemma look_eq {A B} (o : K A) (f : A -> M arm64_machine B) a x :
  o (m_kernel a) = Returned x (m_kernel a) -> (on_kernel o ≫= f) a = f x a.
Proof. intros E. apply bind_eq. unfold on_kernel. by rewrite E, with_kernel_same. Qed.

Lemma log_native_returns a :
  exists a', log_native_runtime_ready a = Returned tt a' /\ runtime (m_kernel a') = runtime (m_kernel a).
Proof. unfold log_native_runtime_ready, mbind, M_bind, get. destruct (negb _); by eexists. Qed.

(** Only the turn of an emulated thread can end without a value. *)
Lemma enter_user_thread_undefined n a u :
  steady m b n false a -> enter_user_thread platform a = Undefined u -> runs_emulated (m_kernel a).
Proof.
  intros [Hi Hw _ _ _]. unfold enter_user_thread. erewrite look_eq by reflexivity.
  destruct (m_current_thread (runtime (m_kernel a))) as [c|] eqn:Ec; [|done].
  destruct (has_runnable_thread_eq _ Hw) as (r & Er). erewrite look_eq by exact Er. destruct r; cbn [negb]; [|done].
  destruct (wf_current _ Hw c Ec) as [t Ht]. erewrite look_eq by exact (read_at_eq (A := thread) _ c t Ht).
  destruct (thread_process _ _ _ _ (wf_thread _ Hw c t Ht)) as (p & Hp & q & Hq). rewrite Hp.
  erewrite bind_eq by reflexivity. cbn [m_kernel with_kernel].
  erewrite look_eq by (apply (read_at_eq (A := process)); exact Hq).
  destruct (get_process_execution_backend q) eqn:Eb; [done| |by exists c, t, p, q].
  destruct (log_native_returns (with_kernel a {| runtime := runtime (m_kernel a); host := host (m_kernel a);
    events := events (m_kernel a) ++ [arch_activate_process_address_space (Some p)] |})) as (a2 & E2 & R2).
  rewrite (bind_eq _ _ _ _ _ E2). cbn [runtime m_kernel with_kernel] in R2.
  erewrite look_eq by (apply (read_at_eq (A := thread)); rewrite R2; exact Ht).
  destruct (proj1 (twp_returned _ _ _) (load_arm64_syscall_frame_safe t (m_kernel a2) (thread_registers _ _ _ _ (wf_thread _ Hw c t Ht))))
    as (f & k2 & E3 & ->).
  by erewrite look_eq by exact E3.
Qed.
End iteration.

Lemma system_steady n user a : arm64_system n user a -> 5 + Z.of_nat n < 2 ^ 64 - 1 -> exists m b, steady m b n user a.
Proof.
  induction 1 as [k0 k x Hi Hrun|n a step a' Ha IH Hrun Hstep|n a p q va h v Ha IH Hact Hq Hva Ht|n a f b' f' k' Ha IH Hf Hsvc Hrun]; intros Hn.
  - destruct (arm64_start_isolated k0 k x Hi Hrun) as (_ & m & b & Hk). exists m, b.
    pose proof (run_initial_user_runtime_starts _ (arm64_initialize_ok platform terminal_service_image test_app_image Hok) k0 Hi) as Hs.
    unfold twp in Hs. rewrite Hrun in Hs. destruct x as [p t]. destruct Hs as (Hr & Ec & Hnext).
    constructor; cbn [booted m_kernel x64_guest_states]; [done|done|lia| |done].
    split; [done|]. apply Forall_replicate, zero_guest_wf.
  - change (Z.to_nat X64_EMULATOR_INSTRUCTION_BUDGET) with 512%nat in Hn. destruct IH as (m & b & IH); [lia|]. exists m, b. pose proof (enter_user_thread_steady m b n a IH ltac:(lia)) as H.
    unfold wp in H. rewrite Hrun in H. exact H.
  - destruct IH as (m & b & [Hi Hw Hnx Hg Hnat]); [lia|]. exists m, b. constructor; try done. by eapply arm64_isolated_store.
  - destruct IH as (m & b & [Hi Hw Hnx Hg Hnat]); [lia|]. exists m, b.
    destruct (proj1 (twp_returned _ _ _) (arm64_handle_syscall_preserves f (m_kernel a) ltac:(split; [done|lia]) Hf Hsvc (Hnat eq_refl)))
      as (r & k2 & E & P & b2 & f2 & -> & Hb2). rewrite Hrun in E. injection E as <- <- <-.
    pose proof (preserves_next _ _ P). constructor; cbn [m_kernel with_kernel x64_guest_states]; [|apply P|lia|done|done].
    eapply arm64_isolated_framed; [exact Hi|]. eapply frames_arm64_handle_syscall; [apply Hf|by eapply arm64_isolated_wf|exact Hrun].
Qed.
End system.

(** With embedded images the loaders accept, the start terminates without a panic. *)
Lemma arm64_starts platform terminal_service_image test_app_image k :
  platform_ok platform terminal_service_image test_app_image ->
  images_accepted terminal_service_image test_app_image -> image_ok (runtime k) ->
  exists p t k', run_initial_user_runtime (initialize platform terminal_service_image test_app_image) k = Returned (continues (p, t)) k' /\
    logged_lines (events k') = logged_lines (events k) /\
    arm64_system platform terminal_service_image test_app_image 0 false (booted k') /\
    runtime_wf (runtime k') /\ m_current_thread (runtime k') = Some t.
Proof.
  intros Hok Hl Hi.
  pose proof (run_initial_user_runtime_starts _ (arm64_initialize_ok _ _ _ Hok) k Hi) as H.
  apply (proj1 (twp_returned _ _ _)) in H as (r & k' & E & H). destruct r as [msg|[p t]].
  - exfalso. destruct H as (k1 & r & k2 & E1 & H).
    pose proof (arm64_initialize_builds platform terminal_service_image test_app_image Hok k1) as Hb. unfold twp in Hb. rewrite E1 in Hb.
    destruct r as [m|b]; [by destruct (Hl m Hb)|]. apply H. destruct Hb as (_ & _ & _ & Hb). unfold bootstrap_in_range, USER_RUNTIME_MAX_INITIAL_PROCESSES.
    pose proof (arm64_process_count_bound _ _ _ _ _ Hb). rewrite (built_first _ _ _ _ _ Hb). lia.
  - destruct H as (Hw & Hc & _). exists p, t, k'. split; [done|].
    split; [by apply (arm64_start_isolated platform terminal_service_image test_app_image Hok k k' (p, t))|]. split; [by eapply arm64_start|done].
Qed.

Section theorems.
Context (platform : Z) (terminal_service_image test_app_image : embedded_image).
Abbreviation initialize := (initialize platform terminal_service_image test_app_image).
Abbreviation platform_ok := (platform_ok platform terminal_service_image test_app_image).
Abbreviation arm64_system := (arm64_system platform terminal_service_image test_app_image).

(** C4: On arm64, from the boot of the system, through any interleaving of the kernel's loop
    (which runs x64 processes in the emulator), user-mode stores and system calls of native
    processes (fewer than 2^63, counting the instruction budget of each emulated turn): an
    iteration of the loop ends well formed, or panics because a guest has used its budget up,
    or, in the turn of an emulated thread only, is undefined by the signed overflow of the
    emulator's address computation, to which a guest can bring it; and in user mode every SVC
    returns a well-formed kernel, in a native thread if it returns to user mode, while every
    other synchronous exception panics. *)
Theorem arm64_system_safe n user a :
  platform_ok -> arm64_system n user a -> Z.of_nat n < 2 ^ 63 ->
  match user with
  | false =>
      match enter_user_thread platform a with
      | Returned (panics message) _ => exists i k, (i < 2)%nat /\ budget_used (storage platform i) k message
      | Returned (continues step) a' => runtime_wf (runtime (m_kernel a')) /\ (enters_user_mode step = true -> runs_native (m_kernel a'))
      | Undefined u => u = signed_overflow /\ runs_emulated (m_kernel a)
      | OutOfFuel => False
      end
  | true => forall f, arm64_frame_ok f ->
      (is_svc f -> exists b f' k', arm64_handle_syscall (Some f) (m_kernel a) = Returned (continues (b, f')) k' /\
                     runtime_wf (runtime k') /\ (b = true -> runs_native k')) /\
      (~ is_svc f -> arm64_handle_syscall (Some f) (m_kernel a)
                     = Returned (panics "arm64 lower-el sync was not an svc64 syscall") (m_kernel a))
  end.
Proof.
  intros Hok Ha Hn. destruct (system_steady _ _ _ Hok n user a Ha ltac:(lia)) as (m & b & Hs). destruct user.
  - intros f Hf. split.
    + intros Hsvc. destruct Hs as [_ Hw Hnx _ Hnat].
      destruct (proj1 (twp_returned _ _ _) (arm64_handle_syscall_preserves f (m_kernel a) ltac:(split; [done|lia]) Hf Hsvc (Hnat eq_refl)))
        as (r & k' & E & P & b2 & f' & -> & Hb). exists b2, f', k'. split; [done|]. split; [apply P|done].
    + intros Hsvc. unfold arm64_handle_syscall. by rewrite (proj2 (Z.eqb_neq _ _) Hsvc).
  - pose proof (enter_user_thread_steady platform terminal_service_image test_app_image Hok m b n a Hs ltac:(lia)) as H.
    pose proof (enter_user_thread_undefined platform terminal_service_image test_app_image m b n a) as Hu.
    unfold wp in H. destruct (enter_user_thread platform a) as [[msg|step] a'|u|]; [exact H| | |exact H].
    + split; [apply H|apply (steady_native _ _ _ _ _ _ _ _ H)].
    + split; [exact H|by eapply Hu].
Qed.

(** C5: In every state the arm64 system reaches, by emulated guests, user-mode stores and system
    calls: host memory outside the regions of the processes is as the platform left it, page
    tables included; the processor translates the addresses of a process for user mode to its
    own region and to nothing else, and every address of its address space as the kernel does (a
    native process sees no more than that); no byte is reachable from two processes; and the
    address space activated last is the one of the current thread. *)
Theorem arm64_system_isolated n user a :
  platform_ok -> arm64_system n user a -> Z.of_nat n < 2 ^ 63 ->
  exists m b, platform_built platform terminal_service_image test_app_image m b /\
    (forall h, ~ region platform b h -> host (m_kernel a) h = m h) /\
    (forall p q, get_by_index (m_processes (runtime (m_kernel a))) p = Some q ->
       exists i, Z.of_nat i < process_count b /\
       forall va, 0 <= va < 2 ^ 39 ->
         user_translation (host (m_kernel a)) (arch_root_table (m_address_space q)) va
         = (if user_address_range va then Some (get_user_region (storage platform i) + (va - USER_REGION_VIRTUAL_ADDRESS)) else None) /\
         (forall h, byte_host (m_address_space q) va = Some h ->
            user_translation (host (m_kernel a)) (arch_root_table (m_address_space q)) va = Some h) /\
         (get_process_execution_backend q = PROCESS_EXECUTION_BACKEND_NATIVE ->
            user_translation (host (m_kernel a)) (arch_root_table (m_address_space q)) va = byte_host (m_address_space q) va)) /\
    (forall p p' q q' va va' h,
       get_by_index (m_processes (runtime (m_kernel a))) p = Some q -> get_by_index (m_processes (runtime (m_kernel a))) p' = Some q' ->
       0 <= va < 2 ^ 39 -> 0 <= va' < 2 ^ 39 ->
       user_translation (host (m_kernel a)) (arch_root_table (m_address_space q)) va = Some h ->
       user_translation (host (m_kernel a)) (arch_root_table (m_address_space q')) va' = Some h -> p = p') /\
    activated (m_kernel a).
Proof.
  intros Hok Ha Hn. destruct (system_steady _ _ _ Hok n user a Ha ltac:(lia)) as (m & b & [Hi _ _ _ _]). exists m, b.
  split; [apply Hi|]. split; [apply Hi|]. split; [|split; [|apply Hi]].
  - intros p q Hq. destruct (arm64_isolated_process _ _ _ Hok m b _ p q Hi Hq) as (i & Hat). exists i. split; [apply Hat|]. intros va Hva.
    by apply (process_at_translation _ _ _ Hok b).
  - intros p p' q q' va va' h Hq Hq' Hva Hva' Ht Ht'. by apply (arm64_isolated_distinct _ _ _ Hok m b _ p p' q q' va va' h Hi).
Qed.
End theorems.
