(* ===== verification/Arm64EmulationSpecs.v ===== *)
(** What the arm64 platform does for an emulated thread: the registers it keeps,
    the report of a fault, and the budget. *)
From Stdlib Require Import String.
From S2P Require Import Prelude EmulatorTypes ExecutionContext GuestMemory DecoderSpec InstructionSpecs Interpreter.
From S2P Require Import AddressSpace UserMemory KernelObjectPool RuntimeTypes UserRuntime Rpc Syscalls RuntimeInvariant KernelSafety X64PeImage PlatformMemory Arm64Platform Arm64Emulation Arm64EmulationSafety.
#[local] Open Scope Z_scope.

(** ** The registers a thread keeps *)

(** The general registers a system call stores in the thread, and those of them
    a callback does not start with. *)
Definition kept_registers : list x64_general_register :=
  [X64_GENERAL_REGISTER_RSI; X64_GENERAL_REGISTER_RDI; X64_GENERAL_REGISTER_RBX; X64_GENERAL_REGISTER_RBP;
   X64_GENERAL_REGISTER_R12; X64_GENERAL_REGISTER_R13; X64_GENERAL_REGISTER_R14; X64_GENERAL_REGISTER_R15].

Definition callee_saved_registers : list x64_general_register := drop 2 kept_registers.

(** Those that neither a system call keeps nor a resume sets. *)
Definition volatile_registers : list x64_general_register :=
  [X64_GENERAL_REGISTER_RCX; X64_GENERAL_REGISTER_RDX; X64_GENERAL_REGISTER_R8; X64_GENERAL_REGISTER_R9;
   X64_GENERAL_REGISTER_R10; X64_GENERAL_REGISTER_R11].

(** The state a thread resumes with: [s] is the guest that made the system call,
    [s0] the guest state that is overwritten. *)
Record resumed (r : user_thread_resume) (s s0 loaded : x64_emulator_state) : Prop := {
  resumed_ip : instruction_pointer loaded = u64 (resume_instruction_pointer r);
  resumed_flags : flags loaded = u64 (resume_flags r);
  resumed_rax : register_value loaded X64_GENERAL_REGISTER_RAX = u64 (resume_status_code r);
  resumed_rsp : register_value loaded X64_GENERAL_REGISTER_RSP = u64 (resume_stack_pointer r);
  resumed_saved reg : reg ∈ callee_saved_registers -> register_value loaded reg = register_value s reg;
  resumed_rsi : register_value loaded X64_GENERAL_REGISTER_RSI
    = if decide (resume_kind r = USER_THREAD_RESUME_KIND_RPC) then u64 (resume_argument1 r) else register_value s X64_GENERAL_REGISTER_RSI;
  resumed_rdi : register_value loaded X64_GENERAL_REGISTER_RDI
    = if decide (resume_kind r = USER_THREAD_RESUME_KIND_RPC) then u64 (resume_argument0 r) else register_value s X64_GENERAL_REGISTER_RDI;
  resumed_volatile reg : reg ∈ volatile_registers -> register_value loaded reg = register_value s0 reg;
  resumed_simd : simd_registers loaded = take 6 (simd_registers s0) ++ drop 6 (simd_registers s);
}.

(** A list of a known length. *)
Ltac explode l H :=
  repeat (destruct l as [|? l]; [discriminate H|]); destruct l; [clear H|discriminate H].

Lemma u64_s64 v : u64 (s64 v) = u64 v.
Proof. unfold u64, s64. by apply signed_mod. Qed.

#[export] Instance x64_general_register_eq_dec : EqDecision x64_general_register.
Proof. solve_decision. Defined.

Lemma register_value_set s r v r' :
  length (general_registers s) = 16%nat ->
  register_value (set_guest_register s r v) r' = if decide (r' = r) then u64 v else register_value s r'.
Proof.
  intros Hl. unfold register_value, set_guest_register, set_general_registers. cbn [general_registers]. destruct (decide (r' = r)) as [->|Hne].
  - by rewrite list_lookup_insert_eq by (rewrite Hl; apply register_bound).
  - rewrite list_lookup_insert_ne; [done|]. intros E. apply Hne. by destruct r, r'.
Qed.

Lemma length_set_guest_register s r v : length (general_registers (set_guest_register s r v)) = length (general_registers s).
Proof. apply length_insert. Qed.

Lemma register_value_set_simd s simd r : register_value (set_simd_registers s simd) r = register_value s r.
Proof. done. Qed.

Ltac registers Hl :=
  rewrite ?register_value_set_simd;
  repeat (rewrite register_value_set by (rewrite ?length_set_guest_register; exact Hl); destruct (decide _); [|try done]); try done.

(** C20: When an emulated thread's registers are stored at a system call and later loaded for
    its next turn, over any registers another thread left, it has its callee-saved registers and
    XMM6 to XMM15 back, instruction pointer, stack pointer, flags and RAX are those of the
    resume state, and RDI and RSI are its own after a system call, the arguments of the callback
    for a remote call; the other registers are what the other thread left. *)
Theorem preserved_state_roundtrip s s0 a t r k :
  state_wf s -> state_wf s0 -> get_by_index (m_threads (runtime k)) a = Some t ->
  length (m_arch_preserved_registers t) = USER_THREAD_ARCH_PRESERVED_REGISTER_COUNT ->
  exists t' k', store_x64_emulator_preserved_state a s k = Returned tt k' /\
    get_by_index (m_threads (runtime k')) a = Some t' /\ m_resume_state t' = m_resume_state t /\
    forall k2, exists loaded, load_x64_emulator_resume_state s0 (with_resume t' r) k2 = Returned loaded k2 /\ resumed r s s0 loaded.
Proof.
  intros Hs Hs0 Ht Hl. unfold store_x64_emulator_preserved_state. rewrite !(guest_register_eq s) by done.
  eexists _, _. split.
  { do 8 erewrite bind_eq by reflexivity. unfold update. by erewrite bind_eq by (apply (read_at_eq (A := thread)); exact Ht). }
  split; [cbn; by rewrite (get_update_at _ _ _ _ t), decide_True by done|]. split; [done|]. intros k2.
  pose proof (fun reg => register_value_ok s reg Hs) as Hv. pose proof (simd_roundtrip (simd_registers s) (simd_registers s0)
    (wf_simd_length _ Hs) (wf_simd _ Hs)) as Hsimd. pose proof (wf_general_length _ Hs0) as Hg.
  destruct t as [? ? ? ? ? ? ? ? ? regs ?]. cbn [m_arch_preserved_registers] in *. explode regs Hl.
  unfold load_x64_emulator_resume_state. cbn [RuntimeTypes.m_resume_state with_resume with_preserved RuntimeTypes.m_arch_preserved_registers].
  destruct (decide (resume_kind r = USER_THREAD_RESUME_KIND_RPC)) as [E|E];
    [rewrite bool_decide_eq_true_2 by done|rewrite bool_decide_eq_false_2 by done];
    (eexists; split; [reflexivity|]); constructor;
    try solve [reflexivity | exact Hsimd | registers Hg; rewrite ?u64_s64; done
              | rewrite ?decide_True, ?decide_False by done; registers Hg; rewrite ?u64_id by apply Hv; done].
  all: unfold callee_saved_registers, volatile_registers, kept_registers; cbn [drop]; intros reg Hreg; repeat (apply elem_of_cons in Hreg as [->|Hreg]; [registers Hg; rewrite ?u64_id by apply Hv; done|]); by apply elem_of_nil in Hreg.
Qed.

(** ** The report of a fault *)

(** The [n] lower hexadecimal digits of a word, the highest first. *)
Fixpoint hex_digits (n : nat) (v : Z) : list Z :=
  match n with
  | O => []
  | S n => nth (Z.to_nat (v / 16 ^ Z.of_nat n mod 16)) HEX_DIGITS 0 :: hex_digits n v
  end.

(** The value of a hexadecimal digit, and of a text of them. *)
Definition hex_digit_value (c : Z) : option Z :=
  match list_find (fun d => d = c) HEX_DIGITS with Some (i, _) => Some (Z.of_nat i) | None => None end.

Fixpoint hex_value (acc : Z) (l : list Z) : option Z :=
  match l with
  | [] => Some acc
  | c :: l => d ← hex_digit_value c; hex_value (acc * 16 + d) l
  end.

Lemma hex_digit_value_of d : 0 <= d < 16 -> hex_digit_value (nth (Z.to_nat d) HEX_DIGITS 0) = Some d.
Proof.
  intros Hd. rewrite <- (Z2Nat.id d) by lia. assert (Hn : (Z.to_nat d < 16)%nat) by lia. revert Hn. generalize (Z.to_nat d). intros n Hn.
  rewrite Nat2Z.id. do 16 (destruct n as [|n]; [vm_compute; reflexivity|]). lia.
Qed.

Lemma hex_value_digits n v acc : 0 <= v -> hex_value acc (hex_digits n v) = Some (acc * 16 ^ Z.of_nat n + v mod 16 ^ Z.of_nat n).
Proof.
  intros Hv. revert acc. induction n as [|n IH]; intros acc; cbn [hex_value hex_digits].
  - rewrite Z.mod_1_r. f_equal. lia.
  - rewrite hex_digit_value_of by (apply Z.mod_pos_bound; lia). cbn [mbind option_bind]. rewrite IH. f_equal.
    replace (Z.of_nat (S n)) with (Z.of_nat n + 1) by lia. rewrite Z.pow_add_r, Z.pow_1_r by lia.
    assert (H : 0 < 16 ^ Z.of_nat n) by (apply Z.pow_pos_nonneg; lia). rewrite (Z.rem_mul_r v) by lia. nia.
Qed.

Lemma nth_digit_not_zero d : nth (Z.to_nat d) HEX_DIGITS 0 <> 0 \/ ~ d < 16.
Proof.
  destruct (Z.lt_ge_cases d 16) as [H|H]; [left|right; lia]. assert (Hn : (Z.to_nat d < 16)%nat) by lia. revert Hn. generalize (Z.to_nat d).
  intros n Hn. do 16 (destruct n as [|n]; [vm_compute; discriminate|]). lia.
Qed.

Lemma hex_digits_not_zero n v : 0 ∉ hex_digits n v.
Proof.
  induction n as [|n IH]; cbn [hex_digits]; [apply not_elem_of_nil|]. intros [E|E]%elem_of_cons; [|done].
  destruct (nth_digit_not_zero (v / 16 ^ Z.of_nat n mod 16)) as [H|H]; [congruence|].
  pose proof (Z.mod_pos_bound (v / 16 ^ Z.of_nat n) 16). lia.
Qed.

Lemma length_hex_digits n v : length (hex_digits n v) = n.
Proof. induction n; cbn [hex_digits length]; congruence. Qed.

(** A buffer of [capacity] characters that holds a text. *)
Definition holds (capacity : nat) (text : list Z) (b : message_buffer) : Prop :=
  b = (text ++ replicate (capacity - length text) 0, length text).

Lemma append_char_holds capacity text c b :
  (length text + 1 < capacity)%nat -> holds capacity text b -> holds capacity (text ++ [c]) (append_char capacity c b).
Proof.
  intros Hl ->. unfold holds, append_char. rewrite (proj2 (Nat.ltb_lt _ _)) by done.
  rewrite length_app. cbn [length]. f_equal; [|lia]. rewrite insert_app_r_alt, Nat.sub_diag by lia. rewrite <- app_assoc. f_equal.
  replace (capacity - length text)%nat with (S (capacity - (length text + 1))) by lia. done.
Qed.

Lemma append_literal_holds capacity s text b :
  (length text + length (char_codes s) < capacity)%nat -> holds capacity text b ->
  holds capacity (text ++ char_codes s) (append_literal capacity s b).
Proof.
  unfold append_literal. generalize (char_codes s). intros l. revert text b. induction l as [|c l IH]; intros text b Hl Hb; cbn [foldl].
  - by rewrite app_nil_r.
  - cbn [length] in Hl. replace (text ++ c :: l) with ((text ++ [c]) ++ l) by (by rewrite <- app_assoc).
    apply IH; [rewrite length_app; cbn; lia|]. apply append_char_holds; [lia|done].
Qed.

Lemma append_nibble_holds capacity v text b :
  (length text + 1 < capacity)%nat -> 0 <= v -> holds capacity text b -> holds capacity (text ++ hex_digits 1 v) (append_hex_nibble capacity v b).
Proof.
  intros Hl Hv Hb. unfold append_hex_nibble, hex_digits. change 0xF with (Z.ones 4). rewrite Z.land_ones by lia.
  change (16 ^ Z.of_nat 0) with 1. rewrite Z.div_1_r. by apply append_char_holds.
Qed.

Lemma append_digits_holds capacity v n text b :
  (length text + n < capacity)%nat -> 0 <= v -> holds capacity text b ->
  holds capacity (text ++ hex_digits n v) (append_hex_digits capacity v n b).
Proof.
  intros Hl Hv. revert text b Hl. induction n as [|n IH]; intros text b Hl Hb; cbn [append_hex_digits hex_digits].
  - by rewrite app_nil_r.
  - match goal with |- context [text ++ ?d :: ?l] => replace (text ++ d :: l) with ((text ++ [d]) ++ l) by (by rewrite <- app_assoc) end.
    apply IH; [rewrite length_app; cbn; lia|]. change 0xF with (Z.ones 4). rewrite Z.land_ones, Z.shiftr_div_pow2 by lia.
    change (2 ^ 4) with 16. replace (2 ^ (4 * Z.of_nat n)) with (16 ^ Z.of_nat n) by (rewrite Z.pow_mul_r by lia; done).
    pose proof (Z.mod_pos_bound (v / 16 ^ Z.of_nat n) 16 ltac:(lia)). rewrite u8_id by words.
    pose proof (append_nibble_holds capacity (v / 16 ^ Z.of_nat n mod 16) text b ltac:(lia) ltac:(lia) Hb) as H'.
    unfold hex_digits in H'. change (16 ^ Z.of_nat 0) with 1 in H'. rewrite Z.div_1_r, Z.mod_mod in H' by lia. exact H'.
Qed.

Lemma hex_digits_byte v : u8_ok v -> hex_digits 2 v = hex_digits 1 (u8 (Z.shiftr v 4)) ++ hex_digits 1 v.
Proof.
  intros Hv. cbn [hex_digits app]. change (16 ^ Z.of_nat 0) with 1. change (16 ^ Z.of_nat 1) with 16. rewrite !Z.div_1_r.
  rewrite Z.shiftr_div_pow2 by lia. change (2 ^ 4) with 16. rewrite u8_id; [done|]. unfold u8_ok in *.
  pose proof (Z.div_mod v 16). pose proof (Z.mod_pos_bound v 16). lia.
Qed.

(** The text of the report. *)
Definition fault_text (f : x64_emulator_fault) : list Z :=
  char_codes "x64 fault ip=0x" ++ hex_digits 16 (fault_instruction_pointer f) ++ char_codes " addr=0x"
  ++ hex_digits 16 (memory_address f) ++ char_codes " opcode=0x" ++ hex_digits 2 (fault_record_opcode f).

(** x *)
Lemma x64_emulator_fault_message_reads_back result :
  u64_ok (fault_instruction_pointer (fault result)) -> u64_ok (memory_address (fault result)) -> u8_ok (fault_record_opcode (fault result)) ->
  length (x64_emulator_fault_message result) = 112%nat /\
  RuntimeInvariant.c_string (x64_emulator_fault_message result) = fault_text (fault result) /\
  hex_value 0 (hex_digits 16 (fault_instruction_pointer (fault result))) = Some (fault_instruction_pointer (fault result)) /\
  hex_value 0 (hex_digits 16 (memory_address (fault result))) = Some (memory_address (fault result)) /\
  hex_value 0 (hex_digits 2 (fault_record_opcode (fault result))) = Some (fault_record_opcode (fault result)).
Proof.
  intros Hip Haddr Hop. set (f := fault result) in *.
  assert (Hread : forall n v, 0 <= v < 16 ^ Z.of_nat n -> hex_value 0 (hex_digits n v) = Some v).
  { intros n v Hv. rewrite hex_value_digits by lia. rewrite Z.mod_small by done. done. }
  assert (Hb : exists b, holds 112 (fault_text f) b /\ x64_emulator_fault_message result = let '(m, cursor) := b in <[cursor := 0]> m).
  { eexists. split; [|reflexivity]. unfold fault_text. rewrite hex_digits_byte, !app_assoc by done. fold f.
    assert (L : forall l1 l2 : list Z, length (l1 ++ l2) = (length l1 + length l2)%nat) by (intros; apply length_app).
    repeat first [apply append_nibble_holds | apply append_digits_holds | apply append_literal_holds];
      rewrite ?L, ?length_hex_digits; first [reflexivity | apply Hip | apply Haddr | apply Hop | apply u8_range | cbn; lia]. }
  destruct Hb as (b & -> & ->). rewrite insert_app_r_alt, Nat.sub_diag by done.
  assert (Hlen : length (fault_text f) = 67%nat) by (unfold fault_text; rewrite !length_app, !length_hex_digits; reflexivity).
  split; [rewrite length_app, length_insert, length_replicate, Hlen; done|]. split; [|split_and!; apply Hread].
  - rewrite Hlen. cbn [Nat.sub replicate insert list_insert]. apply c_string_app. unfold fault_text.
    assert (Hlit : forall t, forallb (fun c => negb (c =? 0)) (char_codes t) = true -> 0 ∉ char_codes t).
    { intros t Ht Hin. rewrite forallb_forall in Ht. apply list_elem_of_In, Ht in Hin. by rewrite Z.eqb_refl in Hin. }
    rewrite !not_elem_of_app. split_and!; first [apply hex_digits_not_zero | by apply Hlit].
  - change (16 ^ Z.of_nat 16) with (2 ^ 64). apply Hip.
  - change (16 ^ Z.of_nat 16) with (2 ^ 64). apply Haddr.
  - change (16 ^ Z.of_nat 2) with 256. apply Hop.
Qed.

(** ** The budget *)

(** jmp short -2: a jump to itself. *)
Definition JUMP_TO_ITSELF : list Z := [0xEB; 0xFE].

Section spin.
Context {W : Type}.
Implicit Types c : x64_execution_context W.

Record spinning c : Prop := {
  spinning_state : state_wf (EmulatorTypes.m_state c);
  spinning_memory : memory_wf (m_memory c);
  spinning_ip : instruction_pointer (EmulatorTypes.m_state c) + 2 < 2 ^ 64;
  spinning_code : guest_read c (instruction_pointer (EmulatorTypes.m_state c)) 2 = Some JUMP_TO_ITSELF;
}.

(** A context that differs in the result only. *)
Definition spun c c' (n : Z) : Prop :=
  EmulatorTypes.m_state c' = EmulatorTypes.m_state c /\ m_memory c' = m_memory c /\ m_world c' = m_world c /\
  m_options c' = m_options c /\ retired_instructions (m_result c') = retired_instructions (m_result c) + n.

Lemma spinning_spun c c' n : spinning c -> spun c c' n -> spinning c'.
Proof.
  intros [Hs Hm Hip Hc] (Es & Em & _). constructor; rewrite ?Es, ?Em; try done.
  unfold guest_read, in_window, window_offset, guest_bytes in *. by rewrite Em.
Qed.

Lemma spin_once c f :
  spinning c -> retired_instructions (m_result c) < instruction_budget (m_options c) -> u64_ok (retired_instructions (m_result c) + 1) ->
  exists c', run_loop (S f) c = run_loop f c' /\ spun c c' 1.
Proof.
  intros [Hs Hm Hip Hc] Hret Hn. set (ip := instruction_pointer (EmulatorTypes.m_state c)) in *.
  pose proof (wf_ip _ Hs) as Hip0. fold ip in Hip0. unfold u64_ok in Hip0.
  destruct (guest_read_cons c ip 1 0xEB [0xFE] Hm Hc) as [H1 H2].
  pose proof (decode_prefixes_eq c [] 0xEB Hs Hm) as Hdec. cbv zeta in Hdec. fold ip in Hdec.
  specialize (Hdec ltac:(cbn; lia) (List.Forall_nil _) eq_refl H1). cbn [length Z.of_nat] in Hdec. rewrite Z.add_0_r in Hdec.
  rewrite u64_id in Hdec by (unfold u64_ok; lia).
  cbn [run_loop]. erewrite bind_eq by reflexivity. rewrite (proj2 (Z.ltb_lt _ _)) by done.
  rewrite (bind_eq _ _ _ _ _ Hdec). cbv beta iota.
  set (i := {| address := ip; opcode_address := _; next_address := _; opcode := _; prefix_66 := _; prefix_f2 := _; prefix_f3 := _;
               rex_w := _; rex_r := _; rex_x := _; rex_b := _ |}).
  assert (Hrun : exists c1, dispatch i c = Returned X64_INSTRUCTION_OUTCOME_CONTINUE_RUNNING c1 /\ spun c c1 0).
  { unfold dispatch. erewrite bind_eq by reflexivity. change (opcode i =? 0x0F) with false. cbv iota.
    change (lookup_handler m_primary_opcode_handlers (opcode i)) with (ControlFlowInstructions.execute_x64_jump_relative_short (W := W)).
    unfold ControlFlowInstructions.execute_x64_jump_relative_short. erewrite bind_eq by (apply reject_rex_w_spec; reflexivity). cbv iota.
    erewrite bind_eq.
    2:{ rewrite read_i8_spec; [|exact Hm|unfold u64_ok; cbn; lia].
        match goal with |- context [guest_read (with_result c ?r) ?a ?n] => change (guest_read (with_result c r) a n) with (guest_read c (ip + 1) 1) end.
        rewrite H2. reflexivity. }
    cbv iota. rewrite continue_at_spec. eexists. split; [reflexivity|].
    assert (Et : u64 (next_address i + 1 + s8 (le_decode [0xFE])) = ip).
    { change (s8 (le_decode [0xFE])) with (-2). cbn [next_address i]. rewrite u64_id; [lia|]. unfold u64_ok. lia. }
    rewrite Et. split; [cbn; unfold ip; by destruct (EmulatorTypes.m_state c)|]. split; [done|]. split; [done|]. split; [done|]. cbn. lia. }
  destruct Hrun as (c1 & E1 & S1 & M1 & W1 & O1 & R1). rewrite (bind_eq _ _ _ _ _ E1). cbv beta.
  exists (with_result c1 (set_retired (m_result c1) (u64 (retired_instructions (m_result c1) + 1)))). split; [reflexivity|].
  split; [exact S1|]. split; [exact M1|]. split; [exact W1|]. split; [exact O1|]. cbn. rewrite R1, Z.add_0_r. by apply u64_id.
Qed.

Lemma spin_budget n c f :
  spinning c -> 0 <= retired_instructions (m_result c) -> instruction_budget (m_options c) < 2 ^ 64 ->
  instruction_budget (m_options c) = retired_instructions (m_result c) + Z.of_nat n -> (n < f)%nat ->
  exists c', run_loop f c = Returned true c' /\ backend_failure (m_result c') = X64_EMULATOR_BACKEND_FAILURE_INSTRUCTION_LIMIT_REACHED /\
    spun c c' (Z.of_nat n).
Proof.
  revert c f. induction n as [|n IH]; intros c f Hc H0 Hb Hn Hf; (destruct f as [|f]; [lia|]).
  - cbn [run_loop]. erewrite bind_eq by reflexivity. rewrite (proj2 (Z.ltb_ge _ _)) by lia. erewrite bind_eq by reflexivity.
    eexists. split; [reflexivity|]. split; [done|]. repeat split. cbn. lia.
  - destruct (spin_once c f Hc) as (c1 & -> & S1); [lia|unfold u64_ok; lia|]. pose proof S1 as (E1 & M1 & W1 & O1 & R1).
    destruct (IH c1 f) as (c' & -> & Hfail & (E2 & M2 & W2 & O2 & R2));
      [by eapply spinning_spun|lia|congruence|rewrite O1; lia|lia|].
    exists c'. split; [done|]. split; [done|]. split_and!; [congruence..|lia]. 
Qed.
End spin.

Lemma lookup_memory_bytes m x n i : (i < n)%nat -> memory_bytes m x n !! i = Some (u8 (m (x + Z.of_nat i))).
Proof. intros Hi. unfold memory_bytes, host_bytes. by rewrite !list_lookup_fmap, lookup_seq_lt. Qed.

Lemma memory_bytes_slice m x n o j : (o + j <= n)%nat -> slice o j (memory_bytes m x n) = memory_bytes m (x + Z.of_nat o) j.
Proof.
  intros Hj. apply list_eq. intros i. destruct (Nat.lt_ge_cases i j) as [Hi|Hi].
  - rewrite lookup_slice, !lookup_memory_bytes by lia. do 3 f_equal. lia.
  - rewrite !lookup_ge_None_2; [done|rewrite (proj1 (memory_bytes_ok _ _ _)); lia|].
    rewrite length_slice; [lia|]. rewrite (proj1 (memory_bytes_ok _ _ _)). lia.
Qed.

(** The code at the guest's instruction pointer. *)
Lemma emulation_code storage g k (c : x64_execution_context emulated_kernel) ip :
  m_memory c = m_memory (emulation storage g k) -> instruction_pointer (EmulatorTypes.m_state c) = ip ->
  X64_USER_IMAGE_VIRTUAL_ADDRESS <= ip -> ip + 2 <= X64_USER_IMAGE_VIRTUAL_ADDRESS + X64_USER_REGION_SIZE ->
  guest_read c (instruction_pointer (EmulatorTypes.m_state c)) 2
  = Some (memory_bytes (host k) (get_user_region storage + (ip - X64_USER_IMAGE_VIRTUAL_ADDRESS)) 2).
Proof.
  intros Em -> Hlo Hhi. unfold guest_read, in_window, window_offset, guest_bytes. rewrite Em.
  change (default [] (bytes (m_memory (emulation storage g k))))
    with (memory_bytes (host k) (get_user_region storage) (Z.to_nat X64_USER_REGION_SIZE)).
  cbn [m_memory emulation base_address size].
  rewrite (proj2 (Z.leb_le _ _)), (proj2 (Z.leb_le _ _)) by lia. cbn [andb]. f_equal.
  change X64_USER_IMAGE_VIRTUAL_ADDRESS with 0x400000 in *. change X64_USER_REGION_SIZE with 0xA000 in *.
  rewrite memory_bytes_slice by lia. by rewrite Z2Nat.id by lia.
Qed.

(** C38: A guest that jumps to itself panics the whole kernel: its turn ends in the panic that
    reports the instruction budget. *)
Theorem looping_guest_panics_kernel storage guest a t k :
  runtime_wf (runtime k) -> state_wf guest -> get_by_index (m_threads (runtime k)) a = Some t ->
  let ip := u64 (resume_instruction_pointer (m_resume_state t)) in
  X64_USER_IMAGE_VIRTUAL_ADDRESS <= ip -> ip + 2 <= X64_USER_IMAGE_VIRTUAL_ADDRESS + X64_USER_REGION_SIZE ->
  memory_bytes (host k) (get_user_region storage + (ip - X64_USER_IMAGE_VIRTUAL_ADDRESS)) 2 = JUMP_TO_ITSELF ->
  exists k', run_x64_emulator_thread storage guest a k = Returned (panics "x64 emulator hit the instruction budget") k' /\
    runtime k' = runtime k.
Proof.
  intros Hr Hg Ht ip Hlo Hhi Hcode. unfold run_x64_emulator_thread.
  erewrite bind_eq by (apply (read_at_eq (A := thread)); exact Ht).
  pose proof (wf_thread _ Hr a t Ht) as [_ Hregs Hsimd _].
  destruct (proj1 (twp_returned _ _ _) (load_x64_emulator_resume_state_safe guest t k Hg Hregs Hsimd)) as (g & k' & E & -> & Hgw & Hgip).
  rewrite (bind_eq _ _ _ _ _ E). erewrite bind_eq by reflexivity. fold ip in Hgip.
  assert (Hrun : exists c', run_x64_emulator true (emulation storage g k) = Returned true c' /\
     backend_failure (m_result c') = X64_EMULATOR_BACKEND_FAILURE_INSTRUCTION_LIMIT_REACHED /\ m_world c' = kernel_runs k).
  { pose proof (emulation_wf storage g k Hgw) as Hc. unfold run_x64_emulator. cbn [negb]. erewrite bind_eq by reflexivity.
    rewrite decide_False by (intros H; by apply H). unfold run.
    set (c := emulation storage g k) in *.
    assert (Hc0 : exists c0, initialize_result c = Returned tt c0 /\ spinning c0 /\ retired_instructions (m_result c0) = 0 /\
              m_options c0 = m_options c /\ m_world c0 = m_world c /\ is_valid_invocation c0 = true).
    { eexists. split; [reflexivity|]. split; [|split_and!; [done..|]].
      - constructor; cbn [with_result with_state EmulatorTypes.m_state m_memory].
        + apply state_wf_set_flags; [done|]. apply u64_lor; [apply Hgw|auto with words].
        + apply Hc.
        + cbn. rewrite Hgip. change X64_USER_IMAGE_VIRTUAL_ADDRESS with 0x400000 in *. change X64_USER_REGION_SIZE with 0xA000 in *. lia.
        + rewrite <- Hcode. match goal with |- guest_read ?c0 _ _ = _ => exact (emulation_code storage g k c0 ip eq_refl Hgip Hlo Hhi) end.
      - reflexivity. }
    destruct Hc0 as (c0 & E0 & Hspin & Hret & Ho & Hw & Hv). rewrite (bind_eq _ _ _ _ _ E0). erewrite bind_eq by reflexivity. rewrite Hv.
    cbn [negb]. rewrite Ho. assert (Hb : instruction_budget (m_options c) = 512) by reflexivity.
    assert (Hk : m_world c = kernel_runs k) by reflexivity. clearbody c. rewrite Hb.
    destruct (spin_budget 512 c0 (S (Z.to_nat 512)) Hspin) as (c' & E' & Hfail & (_ & _ & Hw' & _));
      [lia|rewrite Ho, Hb; words|rewrite Ho, Hb, Hret; reflexivity|lia|].
    exists c'. split; [exact E'|]. split; [exact Hfail|]. congruence. }
  destruct Hrun as (c' & -> & Hfail & ->). erewrite bind_eq by reflexivity. unfold finish_x64_emulator_run. cbn [negb].
  rewrite Hfail. eexists. split; [reflexivity|done].
Qed.
