(* ===== verification/Arm64Cpu.v ===== *)
(** The system registers of the arm64 processor as the kernel runs
    ([arch/arm64/user_runtime.cpp], the last part of the platform): they follow
    the address space of the current thread. *)
From Stdlib Require Import String.
From S2P Require Import Prelude AddressSpace UserMemory KernelObjectPool RuntimeTypes UserRuntime Syscalls RuntimeInvariant RuntimeStart KernelFrames PeImage X64PeImage PlatformMemory Arm64Platform Arm64PageTables Arm64Emulation Arm64System.
#[local] Open Scope Z_scope.

(** What the architecture layer does at a call of the kernel.
    [arch_prepare_user_thread] does nothing on arm64. *)
Definition arch_call (exception_vectors : Z) (processes : kernel_object_pool process) (e : kernel_event) : M arm64_cpu unit :=
  match e with
  | arch_activate_process_address_space p => activate_process_address_space exception_vectors (p ≫= get_by_index processes)
  | arch_prepare_user_thread _ => mret tt
  | RuntimeTypes.prepare_thread_launch _ _ => Arm64Platform.prepare_thread_launch exception_vectors
  | debug_log _ => mret tt
  end.

Fixpoint arch_calls (exception_vectors : Z) (processes : kernel_object_pool process) (es : list kernel_event) : M arm64_cpu unit :=
  match es with
  | [] => mret tt
  | e :: es => arch_call exception_vectors processes e;; arch_calls exception_vectors processes es
  end.

(** The last table written is not followed by translations of another: the TLB
    was invalidated after it. *)
Fixpoint tlb_fresh (executed : list system_instruction) : bool :=
  match executed with
  | [] => true
  | tlbi_vmalle1 :: _ => true
  | msr r _ :: l => if decide (r = TTBR0_EL1) then false else tlb_fresh l
  end.

Definition written (r : system_register) (executed : list system_instruction) : bool :=
  existsb (fun i => match i with msr r' _ => bool_decide (r' = r) | tlbi_vmalle1 => false end) executed.

(** Whenever SCTLR_EL1 is written, which enables the MMU, the vectors, the
    memory attributes, the translation control, the table and the floating point
    access have been. *)
Fixpoint enabled_last (executed : list system_instruction) : bool :=
  match executed with
  | [] => true
  | msr SCTLR_EL1 _ :: l => forallb (fun r => written r l) [VBAR_EL1; MAIR_EL1; TCR_EL1; TTBR0_EL1; CPACR_EL1] && tlb_fresh l && enabled_last l
  | _ :: l => enabled_last l
  end.

(** How often SCTLR_EL1 has been written. *)
Fixpoint enable_count (executed : list system_instruction) : nat :=
  match executed with
  | [] => 0
  | msr SCTLR_EL1 _ :: l => S (enable_count l)
  | _ :: l => enable_count l
  end.

Definition TCR_VALUE : Z := 0x803519.

(** The processor once the MMU is enabled. *)
Record mmu_on (exception_vectors : Z) (c : arm64_cpu) : Prop := {
  on_flag : m_mmu_enabled c = true;
  on_mmu : Z.testbit (system_registers c SCTLR_EL1) 0 = true;
  on_data_cache : Z.testbit (system_registers c SCTLR_EL1) 2 = true;
  on_instruction_cache : Z.testbit (system_registers c SCTLR_EL1) 12 = true;
  on_vectors : system_registers c VBAR_EL1 = exception_vectors;
  on_attributes : system_registers c MAIR_EL1 = 0xFF;
  on_control : system_registers c TCR_EL1 = TCR_VALUE;
  on_fp : system_registers c CPACR_EL1 = 0x300000;
}.

(** The processor at a call: nothing has been executed out of order. *)
Record cpu_ok (exception_vectors : Z) (c : arm64_cpu) : Prop := {
  cpu_mmu : m_mmu_enabled c = true -> mmu_on exception_vectors c;
  cpu_order : enabled_last (executed c) = true;
  cpu_tlb : tlb_fresh (executed c) = true;
  cpu_enabled : enable_count (executed c) = if m_mmu_enabled c then 1%nat else 0%nat;
}.

(** At reset. *)
Definition reset_cpu (registers : system_register -> Z) : arm64_cpu :=
  {| system_registers := registers; executed := []; m_mmu_enabled := false |}.

Section cpu.
Context (exception_vectors : Z) (processes : kernel_object_pool process).

Lemma reset_cpu_ok registers : cpu_ok exception_vectors (reset_cpu registers).
Proof. by constructor. Qed.

(** The processor runs in an address space. *)
Definition runs_in (c : arm64_cpu) (root : Z) : Prop := system_registers c TTBR0_EL1 = root /\ mmu_on exception_vectors c.

Lemma lor3_bits v i : i = 0 \/ i = 2 \/ i = 12 ->
  Z.testbit (Z.lor (Z.lor (Z.lor v SCTLR_MMU_ENABLE) SCTLR_DATA_CACHE_ENABLE) SCTLR_INSTRUCTION_CACHE_ENABLE) i = true.
Proof. intros [->|[->| ->]]; rewrite !Z.lor_spec; cbn; by rewrite ?orb_true_r. Qed.

Lemma activate_runs c q :
  cpu_ok exception_vectors c -> arch_root_table (m_address_space q) <> 0 ->
  twp (activate_process_address_space exception_vectors (Some q))
    (fun _ c' => cpu_ok exception_vectors c' /\ runs_in c' (arch_root_table (m_address_space q))) c.
Proof.
  intros [Hm Ho Ht Hn] Hr. unfold activate_process_address_space. rewrite (proj2 (Z.eqb_neq _ _)) by done.
  do 2 apply twp_bind, twp_modify. apply twp_bind, twp_gets. destruct c as [regs ex []]; cbn [m_mmu_enabled negb executed system_registers] in *.
  - apply twp_ret. destruct (Hm eq_refl).
    match goal with |- cpu_ok _ ?c' /\ _ => assert (Hon : mmu_on exception_vectors c') by by constructor end.
    split; [by constructor|by split].
  - unfold enable_mmu. do 5 apply twp_bind, twp_modify. apply twp_bind, twp_gets, twp_bind, twp_modify, twp_modify.
    match goal with |- cpu_ok _ ?c' /\ _ => assert (Hon : mmu_on exception_vectors c') end.
    { constructor; [done|exact (lor3_bits _ 0 ltac:(tauto))|exact (lor3_bits _ 2 ltac:(tauto))|exact (lor3_bits _ 12 ltac:(tauto))|done..]. }
    split; [constructor; cbn; [by intros _|by rewrite Ho|done|by rewrite Hn]|by split].
Qed.

Lemma arch_call_ok e c : cpu_ok exception_vectors c -> twp (arch_call exception_vectors processes e) (fun _ c' => cpu_ok exception_vectors c') c.
Proof.
  intros Hc. destruct e as [p|t|l|p t]; cbn [arch_call].
  - destruct (p ≫= get_by_index processes) as [q|]; [|done]. destruct (Z.eq_dec (arch_root_table (m_address_space q)) 0) as [E|E].
    + unfold activate_process_address_space. by rewrite E.
    + eapply twp_mono; [by apply activate_runs|]. by intros [] c' [].
  - done.
  - done.
  - destruct c as [regs ex f]. destruct Hc as [Hm Ho Ht Hn]. cbn in *.
    constructor; cbn; [|done|done|done]. intros Hf. destruct (Hm Hf). by constructor.
Qed.

(** A call that activates nothing leaves the address space. *)
Lemma arch_call_stays e c root :
  quiet_event e -> runs_in c root -> twp (arch_call exception_vectors processes e) (fun _ c' => runs_in c' root) c.
Proof.
  intros He [Hr Hm]. destruct e as [p|t|l|p t]; [done|done|done|]. destruct c as [regs ex f], Hm. cbn in *. split; [done|]. by constructor.
Qed.

Lemma arch_calls_snoc es e c : arch_calls exception_vectors processes (es ++ [e]) c = (arch_calls exception_vectors processes es;; arch_call exception_vectors processes e) c.
Proof.
  revert c. induction es as [|x es IH]; intros c; cbn [arch_calls app].
  - unfold mbind, M_bind. cbn. by destruct (arch_call _ _ e c) as [[]| |].
  - unfold mbind, M_bind. destruct (arch_call _ _ x c) as [[] c1| |]; [|done..]. apply IH.
Qed.

(** The processor runs in the address space activated last. *)
Lemma arch_calls_run es c :
  cpu_ok exception_vectors c ->
  twp (arch_calls exception_vectors processes es)
    (fun _ c' => cpu_ok exception_vectors c' /\
       forall p q, last_activation es = Some (Some p) -> get_by_index processes p = Some q -> arch_root_table (m_address_space q) <> 0 ->
         runs_in c' (arch_root_table (m_address_space q))) c.
Proof.
  intros Hc. induction es as [|e es IH] using rev_ind; [by apply twp_ret|].
  unfold twp. rewrite arch_calls_snoc. change (twp (arch_calls exception_vectors processes es;; arch_call exception_vectors processes e)
    (fun _ c' => cpu_ok exception_vectors c' /\
       forall p q, last_activation (es ++ [e]) = Some (Some p) -> get_by_index processes p = Some q -> arch_root_table (m_address_space q) <> 0 ->
         runs_in c' (arch_root_table (m_address_space q))) c).
  apply twp_bind. eapply twp_mono; [exact IH|]. intros [] c1 [Hc1 Hlast]. rewrite last_activation_snoc.
  pose proof (arch_call_ok e c1 Hc1) as Hok.
  destruct (proj1 (twp_returned _ _ _) Hok) as ([] & c2 & E & Hc2). unfold twp. rewrite E. split; [done|]. intros p q Hp Hq Hr.
  destruct e as [p'|t|l|p' t]; try (
    match type of E with arch_call _ _ ?ev _ = _ => pose proof (arch_call_stays ev c1 _ I (Hlast p q Hp Hq Hr)) as Hst end;
    unfold twp in Hst; rewrite E in Hst; exact Hst).
  injection Hp as ->. cbn [arch_call mbind option_bind] in E. rewrite Hq in E.
  pose proof (activate_runs c1 q Hc1 Hr) as Ha. unfold twp in Ha. rewrite E in Ha. apply Ha.
Qed.
End cpu.

(** C19: In every state the arm64 system reaches, the processor, having executed what the
    architecture layer did at each call of the kernel, translates through the tables of the
    current thread's process: TTBR0 holds their root, no stale translation is left in the TLB,
    and the MMU was enabled exactly once, after the vectors, attributes and translation control
    were set. *)
Theorem arm64_cpu_follows_current platform terminal_service_image test_app_image n user a exception_vectors registers c t p q :
  platform_ok platform terminal_service_image test_app_image ->
  arm64_system platform terminal_service_image test_app_image n user a -> Z.of_nat n < 2 ^ 63 ->
  m_current_thread (runtime (m_kernel a)) = Some c -> get_by_index (m_threads (runtime (m_kernel a))) c = Some t ->
  m_process t = Some p -> get_by_index (m_processes (runtime (m_kernel a))) p = Some q ->
  twp (arch_calls exception_vectors (m_processes (runtime (m_kernel a))) (events (m_kernel a)))
    (fun _ cpu => cpu_ok exception_vectors cpu /\ runs_in exception_vectors cpu (arch_root_table (m_address_space q)) /\
       enable_count (executed cpu) = 1%nat)
    (reset_cpu registers).
Proof.
  intros Hok Ha Hn Hc Ht Hp Hq. destruct (system_steady _ _ _ Hok n user a Ha ltac:(lia)) as (m & b & [Hi _ _ _ _]).
  eapply twp_mono; [apply arch_calls_run, reset_cpu_ok|]. intros [] cpu [Hcpu Hrun].
  assert (Hin : runs_in exception_vectors cpu (arch_root_table (m_address_space q))).
  2: { split; [done|]. split; [done|]. by rewrite (cpu_enabled _ _ Hcpu), (on_flag _ _ (proj2 Hin)). }
  apply (Hrun p q); [|done|].
  - rewrite <- Hp. by apply (isolated_active _ _ _ _ _ _ Hi c t).
  - destruct (arm64_isolated_process _ _ _ Hok m b _ p q Hi Hq) as (i & [[_ Hi2] _ Hm]). rewrite (mapped_root _ _ _ _ Hm).
    destruct (storage_is_ok _ _ _ Hok i Hi2) as (_ & Hpos & _). unfold root_table. lia.
Qed.
