(* ===== verification/Arm64Samples.v ===== *)
(** The sample system of the arm64 platform: a native terminal service and an x64
    client, a thread whose guest jumps to itself, and the instances of the
    theorems about them. *)
From Stdlib Require Import String.
From S2P Require Import Prelude EmulatorTypes ExecutionContext Samples Interpreter.
From S2P Require Import AddressSpace UserMemory KernelObjectPool RuntimeTypes UserRuntime Syscalls RuntimeInvariant SyscallSafety RuntimeStart KernelSamples PeImage X64PeImage Win32Samples PlatformMemory Arm64Platform Arm64PageTables Arm64Emulation Arm64EmulationSafety Arm64EmulationSpecs Arm64System Arm64Cpu.
#[local] Open Scope Z_scope.

Definition sample_platform : Z := 0x200000.

Definition sample_embedded (start : Z) (contents : list Z) : embedded_image :=
  {| image_start := start; image_end := start + Z.of_nat (length contents); image_contents := contents |}.

Definition native_image : list Z :=
  sample_image_for PE_MACHINE_ARM64
    {| layout_virtual_size := 32; layout_virtual_address := 384; layout_data := replicate 16 0xAB;
       layout_import_rva := 0; layout_image := 512 |}.

Definition sample_service : embedded_image := sample_embedded 0x120000 native_image.
Definition sample_app : embedded_image := sample_embedded 0x110000 plain_image.

Lemma arm64_sample_embedded_ok start contents :
  forallb is_byte contents = true -> (length contents <= 1024)%nat -> embedded_ok (sample_embedded start contents).
Proof.
  intros Hb Hl. destruct (image_checked contents Hb Hl). constructor; cbn [image_contents image_start image_end sample_embedded].
  - done.
  - unfold file_size. lia.
  - done.
Qed.

Lemma sample_fits config start contents :
  forallb (fun s => virtual_address s + size_of_raw_data s <=? loaded_image_size config) (image_sections contents) = true ->
  image_fits config (sample_embedded start contents).
Proof. intros H _. by apply fits_check. Qed.

Lemma arm64_sample_platform_ok : platform_ok sample_platform sample_service sample_app.
Proof.
  constructor.
  - reflexivity.
  - vm_compute. split; congruence.
  - intros _. split; [apply arm64_sample_embedded_ok; vm_compute; [reflexivity|lia]|apply sample_fits; vm_compute; reflexivity].
  - apply arm64_sample_embedded_ok; vm_compute; [reflexivity|lia].
  - split; apply sample_fits; vm_compute; reflexivity.
Qed.

Lemma arm64_sample_images_loadable : images_loadable sample_service sample_app.
Proof. split; [right; split; vm_compute; reflexivity|intros _; vm_compute; reflexivity]. Qed.

Lemma arm64_sample_images_accepted : images_accepted sample_service sample_app.
Proof. exact (arm64_loadable_accepted sample_platform sample_service sample_app arm64_sample_platform_ok arm64_sample_images_loadable). Qed.

Lemma arm64_initialize_correct_witness :
  images_loadable sample_service sample_app /\
  twp (initialize sample_platform sample_service sample_app)
    (fun r k' => match r with
                 | panics message => an_image_refused sample_service sample_app message /\ ~ images_loadable sample_service sample_app
                 | continues b => runtime k' = runtime KernelSamples.sample_image /\
                                  changes_in sample_platform (sample_platform + sizeof_storages) (host KernelSamples.sample_image) (host k') /\
                                  platform_built sample_platform sample_service sample_app (host k') b
                 end) KernelSamples.sample_image.
Proof.
  split; [exact arm64_sample_images_loadable|].
  apply (arm64_initialize_correct sample_platform sample_service sample_app). exact arm64_sample_platform_ok.
Defined.

(** ** The sample system *)

Lemma sample_system_starts :
  exists k, arm64_system sample_platform sample_service sample_app 0 false (booted k) /\ is_Some (m_current_thread (runtime k)).
Proof.
  destruct (arm64_starts sample_platform sample_service sample_app KernelSamples.sample_image arm64_sample_platform_ok
    arm64_sample_images_accepted sample_image_ok) as (x & t & k & E & _ & Hk & _ & Hc). exists k. split; [exact Hk|]. by rewrite Hc.
Qed.

Lemma arm64_system_safe_witness :
  exists a, arm64_system sample_platform sample_service sample_app 0 false a /\
    match enter_user_thread sample_platform a with
    | Returned (panics message) _ => exists i k, (i < 2)%nat /\ budget_used (storage sample_platform i) k message
    | Returned (continues step) a' => runtime_wf (runtime (m_kernel a')) /\ (enters_user_mode step = true -> runs_native (m_kernel a'))
    | Undefined u => u = signed_overflow /\ runs_emulated (m_kernel a)
    | OutOfFuel => False
    end.
Proof.
  destruct sample_system_starts as (k & Hk & _). exists (booted k). split; [exact Hk|].
  exact (arm64_system_safe sample_platform sample_service sample_app 0 false (booted k) arm64_sample_platform_ok Hk ltac:(lia)).
Defined.

Lemma arm64_system_isolated_witness :
  exists a m b, arm64_system sample_platform sample_service sample_app 0 false a /\
    platform_built sample_platform sample_service sample_app m b /\
    (forall h, ~ region sample_platform b h -> host (m_kernel a) h = m h).
Proof.
  destruct sample_system_starts as (k & Hk & _).
  destruct (arm64_system_isolated sample_platform sample_service sample_app 0 false (booted k) arm64_sample_platform_ok Hk ltac:(lia))
    as (m & b & Hb & Hh & _).
  exists (booted k), m, b. split; [exact Hk|]. split; [exact Hb|exact Hh].
Defined.

Lemma arm64_cpu_follows_current_witness :
  exists k q, twp (arch_calls 0x1000 (m_processes (runtime k)) (events k))
    (fun _ cpu => cpu_ok 0x1000 cpu /\ runs_in 0x1000 cpu (arch_root_table (m_address_space q)) /\ enable_count (executed cpu) = 1%nat)
    (reset_cpu (fun _ => 0)).
Proof.
  destruct sample_system_starts as (k & Hk & c & Hc).
  destruct (system_steady _ _ _ arm64_sample_platform_ok 0 false (booted k) Hk ltac:(lia)) as (m & b & [_ Hw _ _ _]).
  destruct (wf_current _ Hw c Hc) as [t Ht]. destruct (thread_process _ _ _ _ (wf_thread _ Hw c t Ht)) as (p & Hp & q & Hq).
  exists k, q.
  exact (arm64_cpu_follows_current sample_platform sample_service sample_app 0 false (booted k) 0x1000 (fun _ => 0) c t p q
    arm64_sample_platform_ok Hk ltac:(lia) Hc Ht Hp Hq).
Defined.

(** ** A guest that jumps to itself *)

Definition loop_initialize : K (may_panic initial_user_runtime_bootstrap) :=
  mret (continues
    {| process_count := 1; initial_process_index := 0;
       initial_processes :=
         [{| initial_metadata := {| guest_architecture := PROCESS_GUEST_ARCHITECTURE_X64; personality := PROCESS_PERSONALITY_RINGOS;
                                    execution_backend := PROCESS_EXECUTION_BACKEND_X64_EMULATOR |};
             initial_address_space := one_page 0x10000;
             initial_thread_context :=
               {| context_instruction_pointer := 0x400000; context_stack_pointer := 0x408FD8; context_flags := 0x202; context_argument0 := 0 |} |};
          zero_configuration] |}).

Lemma loop_initialize_ok k : twp loop_initialize (initialized_ok k) k.
Proof.
  split; [done|]. split_and!; [done|done|done|].
  match goal with |- Forall _ (take _ (initial_processes {| initial_processes := ?c :: _ |})) => change (Forall process_config_ok [c]) end.
  constructor; [apply one_page_wf; lia|constructor].
Qed.

Definition loop_started : kernel := state_after (run_initial_user_runtime loop_initialize) KernelSamples.sample_image.

Definition loop_thread : thread := thread_of loop_started 0.

(** The kernel with the code in the region of the first storage. *)
Definition loop_kernel : kernel := at_host loop_started (store_bytes (fun _ => 0) (get_user_region sample_platform) JUMP_TO_ITSELF).

Lemma runtime_at_host k m : runtime (at_host k m) = runtime k.
Proof. reflexivity. Qed.

Lemma loop_kernel_wf : runtime_wf (runtime loop_kernel).
Proof.
  unfold loop_kernel, loop_started. rewrite runtime_at_host.
  destruct (ready_after_start loop_initialize KernelSamples.sample_image loop_initialize_ok sample_image_ok) as (p & t & _ & H & _);
    [vm_compute; reflexivity|]. exact H.
Qed.

Lemma looping_guest_panics_kernel_witness :
  exists k', run_x64_emulator_thread sample_platform zero_guest 0 loop_kernel
             = Returned (panics "x64 emulator hit the instruction budget") k' /\ runtime k' = runtime loop_kernel.
Proof.
  apply (looping_guest_panics_kernel sample_platform zero_guest 0 loop_thread loop_kernel);
    [exact loop_kernel_wf|exact zero_guest_wf|vm_compute; reflexivity|vm_compute; congruence|vm_compute; congruence|vm_compute; reflexivity].
Defined.

(** A load of RBX from RIP + 3, a load of EAX from RBX + 1, and the word the
    first one loads: the greatest signed one, so that the address of the second
    leaves the range of the signed addition that computes it. *)
Definition OVERFLOWING_LOAD : list Z :=
  [0x48; 0x8B; 0x1D; 3; 0; 0; 0; 0x8B; 0x43; 1; 0xFF; 0xFF; 0xFF; 0xFF; 0xFF; 0xFF; 0xFF; 0x7F].

Definition overflowing_kernel : kernel :=
  at_host loop_started (store_bytes (fun _ => 0) (get_user_region sample_platform) OVERFLOWING_LOAD).

(** So a guest can make the run of the kernel undefined. *)
Example guest_overflows_kernel :
  run_x64_emulator_thread sample_platform zero_guest 0 overflowing_kernel = Undefined signed_overflow.
Proof. vm_compute. reflexivity. Qed.

Lemma preserved_state_roundtrip_witness :
  exists t' k', store_x64_emulator_preserved_state 0 zero_guest loop_kernel = Returned tt k' /\
    get_by_index (m_threads (runtime k')) 0 = Some t' /\ m_resume_state t' = m_resume_state loop_thread /\
    forall k2, exists loaded, load_x64_emulator_resume_state zero_guest (with_resume t' (m_resume_state loop_thread)) k2 = Returned loaded k2 /\
      resumed (m_resume_state loop_thread) zero_guest zero_guest loaded.
Proof.
  apply (preserved_state_roundtrip zero_guest zero_guest 0 loop_thread (m_resume_state loop_thread) loop_kernel);
    [exact zero_guest_wf|exact zero_guest_wf|vm_compute; reflexivity|vm_compute; reflexivity].
Defined.

Definition sample_fault : x64_emulator_result :=
  {| completion := X64_EMULATOR_COMPLETION_UNSUPPORTED_INSTRUCTION;
     guest_stop_reason := X64_EMULATOR_GUEST_STOP_REASON_UNSUPPORTED_INSTRUCTION; backend_failure := X64_EMULATOR_BACKEND_FAILURE_NONE;
     retired_instructions := 3; fault_address := 0x400123; fault_opcode := 0xF4;
     fault := {| fault_instruction_pointer := 0x400123; memory_address := 0; fault_record_opcode := 0xF4 |} |}.

Lemma x64_emulator_fault_message_reads_back_witness :
  RuntimeInvariant.c_string (x64_emulator_fault_message sample_fault)
    = char_codes "x64 fault ip=0x0000000000400123 addr=0x0000000000000000 opcode=0xf4" /\
  length (x64_emulator_fault_message sample_fault) = 112%nat.
Proof.
  destruct (x64_emulator_fault_message_reads_back sample_fault) as (Hl & Ht & _); [vm_compute; split; congruence..|].
  split; [rewrite Ht; vm_compute; reflexivity|exact Hl].
Defined.
