(* ===== verification/KernelView.v ===== *)
(** The abstract kernel: what the system calls are for, without slots of pools,
    saved registers and memory.  A view has the states of the threads, the
    services that are registered, and the sessions clients have opened with them;
    [view_of] is the view of a runtime. *)
From stdpp Require Import gmap.
From S2P Require Import Prelude AddressSpace UserMemory KernelObjectPool RuntimeTypes UserRuntime Rpc RuntimeInvariant.

(** ** Views *)

Record service := {
  service_name : list Z;
  service_process : nat;
  service_thread : nat;
  service_callback : Z;
  service_completion : Z;
  service_busy : bool;
}.

(** A call that has not ended: who waits, who serves it, and the state the server
    goes back to. *)
Record pending_call := {
  calling_thread : nat;
  serving_thread : nat;
  interrupted_state : user_thread_state;
}.

Record session := {
  session_client : nat;
  session_service : nat;
  session_call : option pending_call;
}.

Record view := {
  thread_states : gmap nat user_thread_state;
  running_thread : option nat;
  services : gmap nat service;
  sessions : gmap Z session;          (* by handle *)
  objects : gset Z;                   (* the handles of other objects *)
}.

Definition set_thread (v : view) (t : nat) (s : user_thread_state) : view :=
  {| thread_states := <[t := s]> (thread_states v); running_thread := running_thread v; services := services v;
     sessions := sessions v; objects := objects v |}.

Definition set_running (v : view) (t : option nat) : view :=
  {| thread_states := thread_states v; running_thread := t; services := services v;
     sessions := sessions v; objects := objects v |}.

Definition set_services (v : view) (s : gmap nat service) : view :=
  {| thread_states := thread_states v; running_thread := running_thread v; services := s;
     sessions := sessions v; objects := objects v |}.

Definition set_sessions (v : view) (s : gmap Z session) : view :=
  {| thread_states := thread_states v; running_thread := running_thread v; services := services v;
     sessions := s; objects := objects v |}.

Definition mark_busy (b : bool) (s : service) : service :=
  {| service_name := service_name s; service_process := service_process s; service_thread := service_thread s;
     service_callback := service_callback s; service_completion := service_completion s; service_busy := b |}.

Definition with_call (s : session) (c : option pending_call) : session :=
  {| session_client := session_client s; session_service := session_service s; session_call := c |}.

(** The processor goes from the thread that has it to [t]. *)
Definition preempt (v : view) (t : nat) : view :=
  match running_thread v with
  | Some c => if decide (c <> t /\ thread_states v !! c = Some USER_THREAD_STATE_RUNNING)
              then set_thread v c USER_THREAD_STATE_READY else v
  | None => v
  end.

Definition switch_to (v : view) (t : nat) : view :=
  let v := set_running (preempt v t) (Some t) in
  if decide (thread_states v !! t = Some USER_THREAD_STATE_READY) then set_thread v t USER_THREAD_STATE_RUNNING else v.

(** A session's call begins and ends. *)
Definition begin_pending (v : view) (h : Z) (s : session) (c : pending_call) : view :=
  set_services (set_sessions v (<[h := with_call s (Some c)]> (sessions v)))
    (alter (mark_busy true) (session_service s) (services v)).

Definition end_pending (v : view) (h : Z) (s : session) : view :=
  set_services (set_sessions v (<[h := with_call s None]> (sessions v)))
    (alter (mark_busy false) (session_service s) (services v)).

(** [h] is a session whose call [c] is served by [t]. *)
Definition serves (v : view) (t : nat) (h : Z) (s : session) (c : pending_call) : Prop :=
  sessions v !! h = Some s /\ session_call s = Some c /\ serving_thread c = t.

Definition idle_server (v : view) (t : nat) : Prop := forall h s c, ~ serves v t h s c.

Definition ready_thread (v : view) (t : nat) : Prop := thread_states v !! t = Some USER_THREAD_STATE_READY.

(** ** The view of a runtime *)

Definition service_of (e : rpc_endpoint) : option service :=
  match m_owner_process e, m_owner_thread e with
  | Some p, Some t =>
      if m_is_in_use e then
        Some {| service_name := c_string (m_name e); service_process := p; service_thread := t;
                service_callback := m_callback_address e; service_completion := m_completion_address e;
                service_busy := m_is_busy e |}
      else None
  | _, _ => None
  end.

Definition call_of (c : rpc_channel) : option pending_call :=
  match m_pending_client_thread c, m_pending_server_thread c with
  | Some a, Some b => Some {| calling_thread := a; serving_thread := b; interrupted_state := m_saved_server_state c |}
  | _, _ => None
  end.

Definition session_of (c : rpc_channel) : option session :=
  match m_client_process c, m_endpoint c with
  | Some p, Some e => Some {| session_client := p; session_service := e; session_call := call_of c |}
  | _, _ => None
  end.

Definition services_of (l : list rpc_endpoint) : gmap nat service := omap service_of (map_seq 0 l : gmap nat rpc_endpoint).

Definition states_of (p : kernel_object_pool thread) : gmap nat user_thread_state :=
  omap (fmap m_state) (map_seq 0 (m_items p) : gmap nat (option thread)).

Definition session_entry (o : option rpc_channel) : option (Z * session) :=
  c ← o; s ← session_of c; Some (get_handle c, s).

Definition sessions_of (p : kernel_object_pool rpc_channel) : gmap Z session :=
  list_to_map (omap session_entry (m_items p)).

Definition objects_of (r : user_runtime) : gset Z :=
  list_to_set (handles (m_processes r) ++ handles (m_threads r) ++ handles (m_device_memory_objects r)
               ++ handles (m_shared_memory_objects r)).

Definition view_of (r : user_runtime) : view :=
  {| thread_states := states_of (m_threads r); running_thread := m_current_thread r;
     services := services_of (m_endpoints r); sessions := sessions_of (m_channels r); objects := objects_of r |}.

#[global] Arguments services_of : simpl never.
#[global] Arguments states_of : simpl never.
#[global] Arguments sessions_of : simpl never.
#[global] Arguments objects_of : simpl never.

(** ** Lookups *)

Lemma services_lookup l i : services_of l !! i = l !! i ≫= service_of.
Proof. unfold services_of. by rewrite lookup_omap, lookup_map_seq_0. Qed.

Lemma states_lookup p i : states_of p !! i = m_state <$> get_by_index p i.
Proof.
  unfold states_of, get_by_index. rewrite lookup_omap, lookup_map_seq_0. by destruct (m_items p !! i) as [[]|].
Qed.

Lemma states_update p i t t' :
  get_by_index p i = Some t -> states_of (update_at p i t') = <[i := m_state t']> (states_of p).
Proof.
  intros Ht. apply map_eq. intros j. rewrite lookup_insert, !states_lookup, (get_update_at _ _ _ _ _ Ht). by case_decide.
Qed.

Lemma states_same p i t t' :
  get_by_index p i = Some t -> m_state t' = m_state t -> states_of (update_at p i t') = states_of p.
Proof. intros Ht E. rewrite (states_update _ _ _ _ Ht), E. apply insert_id. by rewrite states_lookup, Ht. Qed.

Lemma services_insert l i e : (i < length l)%nat ->
  services_of (<[i := e]> l) = partial_alter (fun _ => service_of e) i (services_of l).
Proof.
  intros Hi. apply map_eq. intros j. destruct (decide (i = j)) as [<-|Hne].
  - by rewrite lookup_partial_alter_eq, services_lookup, list_lookup_insert_eq.
  - by rewrite lookup_partial_alter_ne, !services_lookup, list_lookup_insert_ne.
Qed.

(** Slots hold channels with different handles. *)
Definition distinct_handles (l : list (option rpc_channel)) : Prop := forall i j x y,
  l !! i = Some (Some x) -> l !! j = Some (Some y) -> get_handle x = get_handle y -> i = j.

Lemma sessions_spec_list l h s :
  distinct_handles l ->
  (list_to_map (omap session_entry l) : gmap Z session) !! h = Some s <->
  exists i c, l !! i = Some (Some c) /\ get_handle c = h /\ session_of c = Some s.
Proof.
  induction l as [|o l IH]; intros Hd; [split; [done|by intros (i & c & H & _)]|].
  assert (Hl : distinct_handles l) by (intros i j x y Hx Hy E; by injection (Hd (S i) (S j) x y Hx Hy E)).
  specialize (IH Hl). assert (Hno : (exists i c, l !! i = Some (Some c) /\ get_handle c = h /\ session_of c = Some s) ->
    exists i c, (o :: l) !! i = Some (Some c) /\ get_handle c = h /\ session_of c = Some s).
  { intros (i & c & Hi). by exists (S i), c. }
  cbn [omap list_omap]. destruct (session_entry o) as [[h' s']|] eqn:Eo; cbn [list_to_map foldr].
  - destruct o as [c'|]; [|done]. cbn in Eo. destruct (session_of c') as [x|] eqn:Ec; [|done]. injection Eo as <- <-.
    rewrite lookup_insert_Some, IH. split.
    + intros [[E <-]|[_ H]]; [by exists O, c'|by apply Hno].
    + intros ([|i] & c & Hi & Hh & Hs).
      * injection Hi as ->. left. split; [done|]. cbn. congruence.
      * right. split; [|by exists i, c]. intros E. cbn [fst] in E. by pose proof (Hd O (S i) c' c eq_refl Hi ltac:(congruence)).
  - rewrite IH. split; [apply Hno|]. intros ([|i] & c & Hi & Hh & Hs); [|by exists i, c].
    injection Hi as ->. cbn in Eo. by rewrite Hs in Eo.
Qed.

Lemma sessions_size_list l :
  distinct_handles l -> Forall (fun o => match o with Some c => is_Some (session_of c) | None => True end) l ->
  (size (list_to_map (omap session_entry l) : gmap Z session) + length (filter (fun o => o = None) l) = length l)%nat.
Proof.
  induction l as [|o l IH]; intros Hd Hb; [done|]. apply Forall_cons_1 in Hb as [Ho Hb].
  assert (Hl : distinct_handles l) by (intros i j x y Hx Hy E; by injection (Hd (S i) (S j) x y Hx Hy E)).
  specialize (IH Hl Hb). cbn [omap list_omap]. destruct o as [c|].
  - destruct Ho as [s Hs]. assert (session_entry (Some c) = Some (get_handle c, s)) as -> by (cbn; by rewrite Hs).
    rewrite filter_cons_False by done. cbn [list_to_map foldr length fst snd]. rewrite map_size_insert_None; [cbn in *; lia|].
    apply eq_None_not_Some. intros [s' H]. apply sessions_spec_list in H as (i & c' & Hi & E & _); [|done]. cbn [fst] in E.
    by pose proof (Hd O (S i) c c' eq_refl Hi ltac:(congruence)).
  - cbn [session_entry mbind option_bind]. rewrite filter_cons_True by done. cbn [length]. lia.
Qed.

Section sessions.
Context (p : kernel_object_pool rpc_channel) (next : Z) (Hp : pool_wf p next).

Lemma pool_distinct : distinct_handles (m_items p).
Proof. intros i j x y Hx%get_by_index_lookup Hy%get_by_index_lookup. by eapply pool_unique. Qed.

Lemma sessions_spec h s :
  sessions_of p !! h = Some s <-> exists i c, get_by_index p i = Some c /\ get_handle c = h /\ session_of c = Some s.
Proof.
  unfold sessions_of. rewrite sessions_spec_list by apply pool_distinct. by setoid_rewrite <- get_by_index_lookup.
Qed.

Lemma sessions_found h i c : find_by_handle p h = Some i -> get_by_index p i = Some c -> sessions_of p !! h = session_of c.
Proof.
  intros (c' & Hc' & Hh)%(find_by_handle_spec _ _ _ _ Hp) Hc. rewrite Hc in Hc'. injection Hc' as <-.
  apply option_eq. intros s. rewrite sessions_spec. split; [|by exists i, c].
  intros (j & c' & Hc' & Hh' & Hs). pose proof (pool_unique _ _ Hp i j c c' Hc Hc' ltac:(congruence)) as <-. congruence.
Qed.

Lemma sessions_not_found h : find_by_handle p h = None -> sessions_of p !! h = None.
Proof.
  intros Hn. apply eq_None_not_Some. intros [s H]. apply sessions_spec in H as (i & c & Hc & Hh & _).
  by eapply find_by_handle_None.
Qed.

Lemma sessions_update i c c' s :
  get_by_index p i = Some c -> get_handle c' = get_handle c -> session_of c' = Some s ->
  sessions_of (update_at p i c') = <[get_handle c := s]> (sessions_of p).
Proof.
  intros Hc Hh Hs. apply map_eq. intros h. apply option_eq. intros x.
  unfold sessions_of at 1. rewrite (sessions_spec_list (m_items (update_at p i c'))).
  2: { intros a b y z Hy%get_by_index_lookup Hz%get_by_index_lookup. by eapply pool_unique, Hz; [eapply pool_wf_update|..]. }
  setoid_rewrite <- get_by_index_lookup. setoid_rewrite (get_update_at p i _ c' c Hc).
  rewrite lookup_insert_Some, sessions_spec. split.
  - intros (j & y & Hy & Eh & Ex). destruct (decide (i = j)) as [<-|Hne].
    + injection Hy as <-. left. split; congruence.
    + right. split; [|by exists j, y]. intros E. by apply Hne, (pool_unique _ _ Hp i j c y Hc Hy); congruence.
  - intros [[<- <-]|[Hne (j & y & Hy & Eh & Ex)]].
    + exists i, c'. by rewrite decide_True.
    + exists j, y. rewrite decide_False; [done|]. intros <-. congruence.
Qed.
End sessions.

Lemma sessions_erase p next h :
  pool_wf p next -> sessions_of (erase_by_handle p h).2 = delete h (sessions_of p).
Proof.
  intros Hp. pose proof (erase_wf p next h Hp) as Hp'. apply map_eq. intros h'. apply option_eq. intros s.
  rewrite (sessions_spec _ _ Hp'), lookup_delete_Some, (sessions_spec _ _ Hp). unfold erase_by_handle.
  destruct (find_by_handle p h) as [i|] eqn:E; cbn [snd].
  - pose proof E as (x & Hx & Eh)%(find_by_handle_spec _ _ _ _ Hp). pose proof (get_by_index_lt p i x Hx) as Hlt.
    setoid_rewrite (fun j => get_by_index_insert p i j None Hlt). split.
    + intros (j & c & Hj & Hh & Hs). destruct (decide (i = j)) as [|Hne]; [done|]. split; [|by exists j, c].
      intros <-. by apply Hne, (pool_unique _ _ Hp i j x c Hx Hj); congruence.
    + intros [Hne (j & c & Hj & Hh & Hs)]. exists j, c. rewrite decide_False; [done|]. intros <-. congruence.
  - split; [|tauto]. intros (j & c & Hj & Hh & Hs). split; [|by exists j, c]. intros <-. by eapply find_by_handle_None.
Qed.

Lemma sessions_emplace p p' next next' construct i s :
  pool_wf p next -> pool_wf p' next' -> (forall id h, get_handle (construct id h) = h) ->
  emplaced p p' next next' construct i -> (forall id h, session_of (construct id h) = Some s) ->
  sessions_of p' = <[next := s]> (sessions_of p).
Proof.
  intros Hp Hp' Hh Hem Hs. apply map_eq. intros h. apply option_eq. intros x.
  rewrite (sessions_spec _ _ Hp'), lookup_insert_Some, (sessions_spec _ _ Hp). split.
  - intros (j & c & Hj & Eh & Ex). destruct (decide (j = i)) as [->|Hne].
    + rewrite (emplaced_object _ _ _ _ _ _ Hem) in Hj. injection Hj as <-. rewrite Hh in Eh. rewrite Hs in Ex. left. split; congruence.
    + rewrite (emplaced_others _ _ _ _ _ _ Hem j Hne) in Hj. right. split; [|by exists j, c].
      intros <-. pose proof (pool_issued _ _ Hp j c Hj). lia.
  - intros [[<- <-]|[Hne (j & c & Hj & Eh & Ex)]].
    + eexists i, _. rewrite (emplaced_object _ _ _ _ _ _ Hem). by rewrite Hh, Hs.
    + exists j, c. rewrite (emplaced_others _ _ _ _ _ _ Hem); [done|]. intros ->.
      by rewrite (emplaced_free _ _ _ _ _ _ Hem) in Hj.
Qed.

(** Every channel is a session. *)
Lemma channel_session P Q c : channel_wf P Q c ->
  exists s, session_of c = Some s /\ m_client_process c = Some (session_client s) /\ m_endpoint c = Some (session_service s) /\
    session_call s = call_of c.
Proof. intros H. destruct (channel_owned _ _ _ H) as [p Hp], (channel_bound _ _ _ H) as [e He]. unfold session_of. rewrite Hp, He. by eexists. Qed.

Lemma sessions_size r : runtime_wf r ->
  (size (sessions_of (m_channels r)) + free_slots (m_channels r) = USER_RUNTIME_MAX_RPC_CHANNELS)%nat.
Proof.
  intros Hr. rewrite <- (wf_channel_capacity _ Hr). apply sessions_size_list; [by eapply pool_distinct, wf_channels|].
  apply Forall_lookup. intros i [c|] Hc; [|done]. apply get_by_index_lookup in Hc.
  destruct (channel_session _ _ _ (wf_channel _ Hr i c Hc)) as (s & Hs & _). by exists s.
Qed.

(** ** Other objects *)

Lemma handles_spec {A} `{KernelObject A} (p : kernel_object_pool A) next h :
  pool_wf p next -> h ∈ handles p <-> is_Some (find_by_handle p h).
Proof.
  intros Hp. unfold handles. rewrite list_elem_of_fmap. split.
  - intros (x & -> & Hx). apply list_elem_of_omap in Hx as (o & Ho & Ex). apply list_elem_of_lookup in Ho as [i Hi].
    cbn in Ex. subst o. destruct (find_by_handle p (get_handle x)) eqn:E; [done|].
    by destruct (proj1 (find_by_handle_None p _) E i x (proj2 (get_by_index_lookup p i x) Hi)).
  - intros [i (x & Hx & Hh)%(find_by_handle_spec _ _ _ _ Hp)]. exists x. split; [done|].
    apply list_elem_of_omap. exists (Some x). split; [|done]. apply get_by_index_lookup in Hx. by eapply list_elem_of_lookup_2.
Qed.

Lemma objects_spec r h : runtime_wf r ->
  h ∈ objects_of r <-> is_Some (find_by_handle (m_processes r) h) \/ is_Some (find_by_handle (m_threads r) h) \/
    is_Some (find_by_handle (m_device_memory_objects r) h) \/ is_Some (find_by_handle (m_shared_memory_objects r) h).
Proof.
  intros Hr. unfold objects_of. rewrite elem_of_list_to_set, !elem_of_app.
  rewrite (handles_spec _ _ _ (wf_processes _ Hr)), (handles_spec _ _ _ (wf_threads _ Hr)),
    (handles_spec _ _ _ (wf_device_memory_objects _ Hr)), (handles_spec _ _ _ (wf_shared_memory_objects _ Hr)). done.
Qed.

Lemma handles_update {A} `{KernelObject A} (p : kernel_object_pool A) i x y :
  get_by_index p i = Some x -> get_handle y = get_handle x -> handles (update_at p i y) = handles p.
Proof.
  intros Hx Hy. apply get_by_index_lookup in Hx. unfold handles, update_at. cbn.
  rewrite insert_take_drop by (by eapply lookup_lt_Some). rewrite <- (take_drop_middle _ _ _ Hx) at 3.
  rewrite !omap_app, !fmap_app. cbn. by rewrite Hy.
Qed.

(** No object has a handle that has not been issued. *)
Lemma objects_issued r : runtime_wf r -> m_next_handle_value r ∉ objects_of r /\ 0 ∉ objects_of r.
Proof.
  intros Hr.
  assert (H : forall A (o : KernelObject A) (p : kernel_object_pool A) h, pool_wf p (m_next_handle_value r) -> is_Some (find_by_handle p h) ->
    1 <= h < m_next_handle_value r).
  { intros A o p h Hp [i (x & Hx & <-)%(find_by_handle_spec _ _ _ _ Hp)]. by eapply pool_issued. }
  split; rewrite (objects_spec _ _ Hr); intros [E|[E|[E|E]]]; apply (H _ _ _ _ (wf_processes _ Hr)) in E
    || apply (H _ _ _ _ (wf_threads _ Hr)) in E || apply (H _ _ _ _ (wf_device_memory_objects _ Hr)) in E
    || apply (H _ _ _ _ (wf_shared_memory_objects _ Hr)) in E; lia.
Qed.
