(* ===== verification/KernelSteps.v ===== *)
(** The abstract specification of the system calls: what a request does to a view
    of the kernel, and with which status it is answered.  Where the kernel has a
    choice that no client may rely on (which free slot, which handle, which ready
    thread runs next, which of several calls a server ends), the specification
    leaves it open. *)
From stdpp Require Import gmap.
From S2P Require Import Prelude AddressSpace UserMemory KernelObjectPool RuntimeTypes UserRuntime Rpc Syscalls RuntimeInvariant RpcSpecs KernelView.

(** ** Requests *)

(** A system call once its arguments have been checked and the memory it names has
    been read. *)
Inductive request :=
  | answered (status : Z)                                      (* without a look at threads and services *)
  | exit_thread
  | register_service (name : list Z) (callback completion : Z)
  | open_session (name : list Z) (handle_status : Z)           (* can the handle be stored *)
  | call_session (h : Z) (delivery : service -> Z)             (* can the request be delivered *)
  | close_session (h : Z)
  | end_call (status : Z).

(** A string in user memory of at most [n] bytes, or why there is none. *)
Definition user_string (a : address_space) (m : host_memory) (x : Z) (n : nat) : Z + list Z :=
  match copy_string_reference n a m x with
  | None => inl STATUS_FAULT
  | Some (_, false) => inl STATUS_BUFFER_TOO_SMALL
  | Some (bs, true) => inr (c_string bs)
  end.

(** The status of a write of [n] bytes. *)
Fixpoint write_status (a : address_space) (x : Z) (n : nat) : Z :=
  match n with
  | O => STATUS_OK
  | S n => match byte_host a x with None => STATUS_FAULT | Some _ => write_status a (x + 1) n end
  end.

#[export] Instance stack_ok_dec `{Target} sp size : Decision (stack_ok sp size).
Proof. unfold stack_ok. destruct target; apply _. Defined.

#[export] Instance accessible_dec a x : Decision (accessible a x).
Proof. unfold accessible. apply _. Defined.

(** The status of the delivery of a request to a service whose thread has stack
    pointer [sp]. *)
Definition delivery_status `{Target} (client server : address_space) (m : host_memory) (x : service) (address size sp : Z) : Z :=
  if decide (service_callback x = 0 \/ service_completion x = 0) then STATUS_FAULT
  else if decide (accessible server (service_callback x) /\ accessible server (service_completion x)) then
    if decide (sp = 0) then STATUS_BAD_STATE
    else if decide (stack_ok sp size) then fst (delivered_memory client server m address size sp (service_completion x))
    else STATUS_FAULT
  else STATUS_FAULT.

Section requests.
Context `{Target} (k : kernel) (t p : nat) (c : user_syscall_context).

Definition address_space_of (q : nat) : address_space :=
  default empty_address_space (m_address_space <$> get_by_index (m_processes (runtime k)) q).

(** The stack pointer of the thread of a service; the caller's is that of the trap. *)
Definition stack_pointer_of (s : nat) : Z :=
  if decide (s = t) then context_stack_pointer (make_thread_context_from_syscall c)
  else default 0 ((fun u => context_stack_pointer (m_user_context u)) <$> get_by_index (m_threads (runtime k)) s).

Definition name_at (x : Z) (f : list Z -> request) : request :=
  match user_string (address_space_of p) (host k) x NAME_CAPACITY with inl st => answered st | inr name => f name end.

Definition register_request : request :=
  if decide (argument0 c = 0 \/ argument1 c = 0 \/ argument2 c = 0) then answered STATUS_INVALID_ARGUMENT
  else if decide (accessible (address_space_of p) (argument1 c) /\ accessible (address_space_of p) (argument2 c))
  then name_at (argument0 c) (fun name => register_service name (argument1 c) (argument2 c))
  else answered STATUS_FAULT.

Definition open_request : request :=
  if decide (argument0 c = 0 \/ argument1 c = 0) then answered STATUS_INVALID_ARGUMENT
  else name_at (argument0 c) (fun name => open_session name (write_status (address_space_of p) (argument1 c) 8)).

Definition call_request : request :=
  if decide (argument0 c = 0 \/ argument1 c = 0 \/ argument2 c = 0 \/ RINGOS_RPC_MAX_REQUEST_SIZE < argument2 c)
  then answered STATUS_INVALID_ARGUMENT
  else call_session (argument0 c) (fun x =>
    delivery_status (address_space_of p) (address_space_of (service_process x)) (host k) x (argument1 c) (argument2 c)
      (stack_pointer_of (service_thread x))).

Definition close_request : request :=
  if decide (argument0 c = 0) then answered STATUS_INVALID_ARGUMENT else close_session (argument0 c).

Definition log_request : request :=
  if decide (argument0 c = 0) then answered STATUS_INVALID_ARGUMENT
  else match user_string (address_space_of p) (host k) (argument0 c) message_buffer_size with
       | inl st => answered st
       | inr _ => answered STATUS_OK
       end.

Definition map_request : request :=
  answered (if decide (argument0 c = 0 \/ argument1 c = 0) then STATUS_INVALID_ARGUMENT else STATUS_NOT_FOUND).

Definition request_of : request :=
  let n := syscall_number c in
  if decide (n = SYSCALL_DEBUG_LOG) then log_request
  else if decide (n = SYSCALL_THREAD_EXIT) then exit_thread
  else if decide (n = SYSCALL_RPC_REGISTER) then register_request
  else if decide (n = SYSCALL_RPC_OPEN) then open_request
  else if decide (n = SYSCALL_RPC_CALL) then call_request
  else if decide (n = SYSCALL_RPC_CLOSE) then close_request
  else if decide (n = SYSCALL_RPC_COMPLETE) then end_call (s32 (argument0 c))
  else if decide (n = SYSCALL_DEVICE_MEMORY_MAP) then map_request
  else answered STATUS_NOT_SUPPORTED.
End requests.

(** ** Steps *)

Section steps.
Context (t p : nat).   (* the thread and process that make the request *)

Definition has_name (v : view) (name : list Z) (i : nat) (x : service) : Prop := services v !! i = Some x /\ service_name x = name.
Definition unknown_name (v : view) (name : list Z) : Prop := forall i x, ~ has_name v name i x.
Definition exited (v : view) (s : nat) : Prop := thread_states v !! s = Some USER_THREAD_STATE_EXITED.
Definition no_thread_ready (v : view) : Prop := forall s, ~ ready_thread v s.

(** A registration, and its scheduling: a thread that serves no call leaves the
    processor to a ready one. *)
Definition new_service (name : list Z) (callback completion : Z) : service :=
  {| service_name := name; service_process := p; service_thread := t; service_callback := callback;
     service_completion := completion; service_busy := false |}.

Inductive yields (v : view) : view -> Prop :=
  | yields_alone : no_thread_ready v -> yields v v
  | yields_serving h s c : serves v t h s c -> yields v v
  | yields_to s : idle_server v t -> ready_thread v s -> yields v (switch_to v s).

(** What a handle that is no session of the process is refused with. *)
Inductive bad_handle (v : view) (h : Z) : Z -> Prop :=
  | bad_unknown : sessions v !! h = None -> h ∉ objects v -> bad_handle v h STATUS_BAD_HANDLE
  | bad_type : sessions v !! h = None -> h ∈ objects v -> bad_handle v h STATUS_WRONG_TYPE
  | bad_owner s : sessions v !! h = Some s -> session_client s <> p -> bad_handle v h STATUS_BAD_HANDLE.

Definition own_session (v : view) (h : Z) (s : session) : Prop := sessions v !! h = Some s /\ session_client s = p.

(** The thread of [v] that waits for a call is answered. *)
Definition wake (v : view) (c : nat) : view := set_thread v c USER_THREAD_STATE_READY.

(** The effect of an accepted call. *)
Definition accept_call (v : view) (h : Z) (s : session) (x : service) (state : user_thread_state) : view :=
  let v := begin_pending v h s {| calling_thread := t; serving_thread := service_thread x; interrupted_state := state |} in
  if decide (service_thread x = t) then v else switch_to (set_thread v t USER_THREAD_STATE_BLOCKED) (service_thread x).

(** The call [t] serves, when it exits, has failed. *)
Inductive fails_call (v : view) : view -> Prop :=
  | fails_none : idle_server v t -> fails_call v v
  | fails_self h s c : serves v t h s c -> calling_thread c = t -> fails_call v (end_pending v h s)
  | fails_other h s c : serves v t h s c -> calling_thread c <> t -> fails_call v (wake (end_pending v h s) (calling_thread c)).

(** The thread is gone, and its services with it. *)
Definition gone (v : view) : view :=
  set_thread (set_services v (filter (fun x => service_thread (snd x) <> t) (services v))) t USER_THREAD_STATE_EXITED.

Inductive reschedules (v : view) : view -> Prop :=
  | reschedules_none : no_thread_ready v -> reschedules v (set_running v None)
  | reschedules_to s : ready_thread v s -> reschedules v (switch_to v s).

Inductive kernel_step (v : view) : request -> Z -> view -> Prop :=
  | step_answered st : kernel_step v (answered st) st v
  | step_exit v1 v2 : fails_call v v1 -> reschedules (gone v1) v2 -> kernel_step v exit_thread STATUS_OK v2
  | step_register_taken name cb cm i x : has_name v name i x -> kernel_step v (register_service name cb cm) STATUS_BAD_STATE v
  | step_register_full name cb cm :
      unknown_name v name -> (forall i, (i < USER_RUNTIME_MAX_RPC_ENDPOINTS)%nat -> is_Some (services v !! i)) ->
      kernel_step v (register_service name cb cm) STATUS_NO_MEMORY v
  | step_register name cb cm i v' :
      unknown_name v name -> (i < USER_RUNTIME_MAX_RPC_ENDPOINTS)%nat -> services v !! i = None ->
      yields (set_services v (<[i := new_service name cb cm]> (services v))) v' ->
      kernel_step v (register_service name cb cm) STATUS_OK v'
  | step_open_unknown name w : unknown_name v name -> kernel_step v (open_session name w) STATUS_NOT_FOUND v
  | step_open_exited name w i x : has_name v name i x -> exited v (service_thread x) -> kernel_step v (open_session name w) STATUS_PEER_CLOSED v
  | step_open_full name w i x :
      has_name v name i x -> ~ exited v (service_thread x) -> size (sessions v) = USER_RUNTIME_MAX_RPC_CHANNELS ->
      kernel_step v (open_session name w) STATUS_NO_MEMORY v
  | step_open_refused name w i x :
      has_name v name i x -> ~ exited v (service_thread x) -> (size (sessions v) < USER_RUNTIME_MAX_RPC_CHANNELS)%nat ->
      w <> STATUS_OK -> kernel_step v (open_session name w) w v
  | step_open name w i x h :
      has_name v name i x -> ~ exited v (service_thread x) -> (size (sessions v) < USER_RUNTIME_MAX_RPC_CHANNELS)%nat ->
      w = STATUS_OK -> h <> 0 -> sessions v !! h = None -> h ∉ objects v ->
      kernel_step v (open_session name w) STATUS_OK
        (set_sessions v (<[h := {| session_client := p; session_service := i; session_call := None |}]> (sessions v)))
  | step_call_bad h d st : bad_handle v h st -> kernel_step v (call_session h d) st v
  | step_call_closed h d s :
      own_session v h s -> (forall x, services v !! session_service s = Some x -> exited v (service_thread x)) ->
      kernel_step v (call_session h d) STATUS_PEER_CLOSED v
  | step_call_busy h d s x :
      own_session v h s -> services v !! session_service s = Some x -> ~ exited v (service_thread x) ->
      (service_busy x = true \/ session_call s <> None) -> kernel_step v (call_session h d) STATUS_WOULD_BLOCK v
  | step_call_refused h d s x :
      own_session v h s -> services v !! session_service s = Some x -> ~ exited v (service_thread x) ->
      service_busy x = false -> session_call s = None -> d x <> STATUS_OK -> kernel_step v (call_session h d) (d x) v
  | step_call h d s x state :
      own_session v h s -> services v !! session_service s = Some x -> thread_states v !! service_thread x = Some state ->
      state <> USER_THREAD_STATE_EXITED -> service_busy x = false -> session_call s = None -> d x = STATUS_OK ->
      kernel_step v (call_session h d) STATUS_OK (accept_call v h s x state)
  | step_close_bad h st : bad_handle v h st -> kernel_step v (close_session h) st v
  | step_close_busy h s : own_session v h s -> session_call s <> None -> kernel_step v (close_session h) STATUS_BAD_STATE v
  | step_close h s :
      own_session v h s -> session_call s = None -> kernel_step v (close_session h) STATUS_OK (set_sessions v (delete h (sessions v)))
  | step_end_none st : idle_server v t -> kernel_step v (end_call st) STATUS_BAD_STATE v
  | step_end_self st h s c :
      serves v t h s c -> calling_thread c = t ->
      kernel_step v (end_call st) st (end_pending (set_thread v t (interrupted_state c)) h s)
  | step_end st h s c :
      serves v t h s c -> calling_thread c <> t ->
      kernel_step v (end_call st) STATUS_OK
        (switch_to (wake (end_pending (set_thread v t (interrupted_state c)) h s) (calling_thread c)) (calling_thread c)).
End steps.
