(* ===== verification/KernelRefinement.v ===== *)
(** The kernel implements its abstract specification: every system call is a step
    of [KernelSteps.kernel_step] on the views of the runtime. *)
From stdpp Require Import gmap.
From S2P Require Import Prelude AddressSpace UserMemory KernelObjectPool RuntimeTypes UserRuntime Rpc Syscalls RuntimeInvariant KernelSafety RpcSafety SyscallSafety KernelSamples RpcSpecs KernelSpecs KernelView KernelSteps.
#[local] Open Scope Z_scope.

(** ** Operations, on views *)

(** The runtime stays well formed, objects stay where they are, and the view is [v]. *)
Definition shows (k : kernel) (v : view) (k' : kernel) : Prop := keeps k k' /\ view_of (runtime k') = v.
Abbreviation shown k v := (fun _ k' => shows k v k').

Lemma twp_and {A} (m : K A) P Q k : twp m P k -> twp m Q k -> twp m (fun a k' => P a k' /\ Q a k') k.
Proof. intros HP (a & k' & E & HQ)%twp_returned. unfold twp in *. by rewrite E in *. Qed.

Lemma shows_refl k : runtime_wf (runtime k) -> shows k (view_of (runtime k)) k.
Proof. by split; [apply keeps_refl|]. Qed.

Lemma shows_trans k v1 k1 v2 k2 : shows k v1 k1 -> shows k1 v2 k2 -> shows k v2 k2.
Proof. intros [K1 _] [K2 E2]. split; [eauto with kernel|done]. Qed.

Lemma shows_wf k v k' : shows k v k' -> runtime_wf (runtime k').
Proof. by intros [[] _]. Qed.

#[export] Hint Resolve shows_refl shows_wf : kernel.

Lemma thread_state_view r t u : get_by_index (m_threads r) t = Some u -> thread_states (view_of r) !! t = Some (m_state u).
Proof. intros H. cbn. by rewrite states_lookup, H. Qed.

Lemma objects_update_thread r i t t' :
  get_by_index (m_threads r) i = Some t -> get_handle t' = get_handle t ->
  objects_of (with_threads r (update_at (m_threads r) i t')) = objects_of r.
Proof. intros Ht Hh. unfold objects_of. cbn [m_processes m_threads m_device_memory_objects m_shared_memory_objects with_threads]. by rewrite (handles_update _ _ _ _ Ht Hh). Qed.

Lemma view_update_thread r i t t' :
  get_by_index (m_threads r) i = Some t -> get_handle t' = get_handle t ->
  view_of (with_threads r (update_at (m_threads r) i t')) = set_thread (view_of r) i (m_state t').
Proof.
  intros Ht Hh. unfold view_of, set_thread. rewrite (objects_update_thread _ _ _ _ Ht Hh).
  cbn [m_threads m_endpoints m_channels m_current_thread with_threads thread_states running_thread services sessions objects].
  by rewrite (states_update _ _ _ _ Ht).
Qed.

Lemma set_thread_same v i s : thread_states v !! i = Some s -> set_thread v i s = v.
Proof. intros H. unfold set_thread. rewrite insert_id by done. by destruct v. Qed.

(** An update of a thread, by its effect on the state. *)
Lemma update_thread_shows i f t k :
  get_by_index (m_threads (runtime k)) i = Some t -> get_handle (f t) = get_handle t ->
  twp (update i f) (ok k) k ->
  twp (update i f) (shown k (set_thread (view_of (runtime k)) i (m_state (f t)))) k.
Proof.
  intros Ht Hh Hok. apply twp_and; [exact Hok|]. eapply twp_update; [exact Ht|]. by apply (view_update_thread _ _ t).
Qed.

Lemma set_state_shows i s k :
  runtime_wf (runtime k) -> live_thread (runtime k) i -> (s = USER_THREAD_STATE_RUNNING -> m_current_thread (runtime k) = Some i) ->
  twp (set_state i s) (fun _ k' => shows k (set_thread (view_of (runtime k)) i s) k' /\
    m_current_thread (runtime k') = m_current_thread (runtime k)) k.
Proof.
  intros Hr [t Ht] Hs. pose proof (set_state_safe i s k Hr ltac:(by eexists) Hs) as Hsafe.
  apply twp_and; [|eapply twp_mono; [exact Hsafe|]; by intros ? ? []].
  apply (update_thread_shows _ (fun t => with_state t s) t); [done|done|]. eapply twp_mono; [exact Hsafe|]. eauto with kernel.
Qed.

(** An update that leaves the state alone. *)
Lemma update_thread_same i f t k :
  get_by_index (m_threads (runtime k)) i = Some t -> get_handle (f t) = get_handle t -> m_state (f t) = m_state t ->
  twp (update i f) (ok k) k -> twp (update i f) (shown k (view_of (runtime k))) k.
Proof.
  intros Ht Hh Hs Hok. eapply twp_mono; [by apply (update_thread_shows _ _ t)|]. intros [] k' H.
  by rewrite Hs, set_thread_same in H by (by apply thread_state_view).
Qed.

Lemma view_with_current r c : view_of (with_current_thread r c) = set_running (view_of r) c.
Proof. done. Qed.

Lemma set_current_thread_shows t k :
  runtime_wf (runtime k) -> live_thread (runtime k) t ->
  twp (set_current_thread (Some t)) (shown k (switch_to (view_of (runtime k)) t)) k.
Proof.
  intros Hr Hl. apply twp_and.
  { eapply twp_mono; [apply set_current_thread_safe; [done|by apply points_to_Some]|]. by intros ? ? []. }
  pose proof (wf_current _ Hr) as Hcur. unfold set_current_thread. apply twp_bind, twp_gets. apply twp_bind.
  assert (Hpre : twp (match m_current_thread (runtime k) with
     | Some c => if bool_decide (m_current_thread (runtime k) <> Some t)
                 then s ← get_state c; if bool_decide (s = USER_THREAD_STATE_RUNNING) then set_state c USER_THREAD_STATE_READY else mret tt
                 else mret tt
     | None => mret tt end : K unit) (fun _ k1 => view_of (runtime k1) = preempt (view_of (runtime k)) t /\ live_thread (runtime k1) t) k).
  { unfold preempt. change (running_thread (view_of (runtime k))) with (m_current_thread (runtime k)).
    destruct (m_current_thread (runtime k)) as [c|]; [|done]. case_bool_decide as Hne.
    2: { apply twp_ret. rewrite decide_False; [done|]. intros [H _]. congruence. }
    destruct (Hcur c eq_refl) as [u Hu]. apply twp_bind, get_state_safe; [by exists u|]. intros u' Hu'. simplify_eq.
    case_bool_decide as Hs.
    - rewrite decide_True by (split; [congruence|by rewrite (thread_state_view _ _ _ Hu), Hs]).
      eapply twp_update; [exact Hu|]. split; [by apply (view_update_thread _ _ u)|by eapply live_update].
    - apply twp_ret. rewrite decide_False; [done|]. intros [_ H]. rewrite (thread_state_view _ _ _ Hu) in H. congruence. }
  eapply twp_mono; [exact Hpre|]. clear Hpre. intros [] k1 [E1 [u1 Hu1]]. apply twp_bind, twp_set_runtime, twp_bind.
  apply twp_bind. eapply twp_read_at; [exact Hu1|]. apply twp_ret, twp_bind. apply twp_modify, twp_bind, twp_modify.
  set (k2 := {| runtime := _ |}). assert (Hu2 : get_by_index (m_threads (runtime k2)) t = Some u1) by exact Hu1.
  assert (E2 : view_of (runtime k2) = set_running (preempt (view_of (runtime k)) t) (Some t)) by (rewrite <- E1; reflexivity).
  clearbody k2. apply twp_bind, get_state_safe; [by exists u1|]. intros u2 Hu2'. simplify_eq.
  unfold switch_to. cbv zeta. rewrite <- E2, (thread_state_view _ _ _ Hu2). case_bool_decide as Hs.
  - rewrite decide_True by congruence. eapply twp_update; [exact Hu2|]. by apply (view_update_thread _ _ u1).
  - rewrite decide_False by congruence. by apply twp_ret.
Qed.

(** ** Services and sessions *)

Lemma service_of_busy b e : service_of (set_busy b e) = mark_busy b <$> service_of e.
Proof. unfold service_of. cbn. by destruct (m_owner_process e), (m_owner_thread e), (m_is_in_use e). Qed.

Lemma services_busy l i e b : l !! i = Some e -> services_of (<[i := set_busy b e]> l) = alter (mark_busy b) i (services_of l).
Proof.
  intros He. rewrite services_insert by (by eapply lookup_lt_Some). apply map_eq. intros j. destruct (decide (i = j)) as [<-|Hne].
  - by rewrite lookup_partial_alter_eq, lookup_alter_eq, services_lookup, He, service_of_busy.
  - by rewrite lookup_partial_alter_ne, lookup_alter_ne.
Qed.

Lemma set_endpoint_busy_shows c s b P Q k :
  runtime_wf (runtime k) -> channel_wf (live_process (runtime k)) (live_thread (runtime k)) c -> session_of c = Some s ->
  channel_wf P Q c ->
  twp (set_endpoint_busy c b)
    (shown k (set_services (view_of (runtime k)) (alter (mark_busy b) (session_service s) (services (view_of (runtime k)))))) k.
Proof.
  intros Hr Hw Hs Hc. apply twp_and; [eapply twp_mono; [by apply set_endpoint_busy_safe|]; eauto with kernel|].
  destruct (channel_session _ _ _ Hc) as (s' & Hs' & _ & He & _). rewrite Hs in Hs'. injection Hs' as <-.
  unfold set_endpoint_busy. rewrite He. destruct (endpoint_lookup _ _ Hr (channel_endpoint _ _ _ Hw _ He)) as [x Hx].
  apply twp_bind. eapply twp_read_endpoint; [exact Hx|]. apply twp_set_runtime. unfold view_of, set_services. cbn -[set_busy].
  by rewrite (services_busy _ _ _ _ Hx).
Qed.

Lemma update_channel_view r i c c' s :
  runtime_wf r -> get_by_index (m_channels r) i = Some c -> get_handle c' = get_handle c -> session_of c' = Some s ->
  view_of (with_channels r (update_at (m_channels r) i c')) = set_sessions (view_of r) (<[get_handle c := s]> (sessions (view_of r))).
Proof.
  intros Hr Hc Hh Hs. unfold view_of, set_sessions. cbn [m_threads m_endpoints m_channels m_current_thread with_channels sessions].
  by rewrite (sessions_update _ _ (wf_channels _ Hr) _ _ _ _ Hc Hh Hs).
Qed.

Lemma session_of_idle c s : session_of c = Some s -> session_of (idle_channel c) = Some (with_call s None).
Proof. unfold session_of. cbn. destruct (m_client_process c), (m_endpoint c); [|done..]. by intros [= <-]. Qed.

Lemma session_of_pending c s a b t :
  session_of c = Some s -> session_of (pending_channel c a b t)
  = Some (with_call s (Some {| calling_thread := a; serving_thread := b; interrupted_state := m_state t |})).
Proof. unfold session_of. cbn. destruct (m_client_process c), (m_endpoint c); [|done..]. by intros [= <-]. Qed.

Lemma cancel_call_shows i c s k :
  runtime_wf (runtime k) -> get_by_index (m_channels (runtime k)) i = Some c -> session_of c = Some s ->
  twp (cancel_call i) (shown k (end_pending (view_of (runtime k)) (get_handle c) s)) k.
Proof.
  intros Hr Hc Hs. apply twp_and; [eapply twp_mono; [apply cancel_call_safe; [done|by exists c]|]; eauto with kernel|].
  pose proof (wf_channel _ Hr i c Hc) as Hw.
  apply twp_bind. eapply twp_read_at; [exact Hc|]. unfold set_endpoint_busy.
  destruct (channel_session _ _ _ Hw) as (s' & Hs' & _ & He & _). rewrite Hs in Hs'. injection Hs' as <-. rewrite He.
  destruct (endpoint_lookup _ _ Hr (channel_endpoint _ _ _ Hw _ He)) as [x Hx].
  apply twp_bind, twp_bind. eapply twp_read_endpoint; [exact Hx|]. apply twp_set_runtime. eapply twp_update; [exact Hc|].
  set (r := with_endpoints _ _).
  change (with_channels r (update_at (m_channels (runtime k)) i (idle_channel c)))
    with (with_endpoints (with_channels (runtime k) (update_at (m_channels (runtime k)) i (idle_channel c)))
            (<[session_service s := set_busy false x]> (m_endpoints (runtime k)))).
  pose proof (update_channel_view _ i c (idle_channel c) _ Hr Hc eq_refl (session_of_idle _ _ Hs)) as E.
  unfold end_pending. rewrite <- E. unfold view_of, set_services. cbn -[update_at set_busy]. by rewrite (services_busy _ _ _ _ Hx).
Qed.

Lemma begin_call_shows i c s a b t k :
  runtime_wf (runtime k) -> get_by_index (m_channels (runtime k)) i = Some c -> session_of c = Some s ->
  live_thread (runtime k) a -> get_by_index (m_threads (runtime k)) b = Some t ->
  twp (begin_call i a b)
    (shown k (begin_pending (view_of (runtime k)) (get_handle c) s
                {| calling_thread := a; serving_thread := b; interrupted_state := m_state t |})) k.
Proof.
  intros Hr Hc Hs Ha Ht.
  apply twp_and; [eapply twp_mono; [apply begin_call_safe; [done|by exists c|done|by exists t]|]; eauto with kernel|].
  pose proof (wf_channel _ Hr i c Hc) as Hw. destruct (channel_session _ _ _ Hw) as (s' & Hs' & _ & He & _).
  rewrite Hs in Hs'. injection Hs' as <-. destruct (endpoint_lookup _ _ Hr (channel_endpoint _ _ _ Hw _ He)) as [x Hx].
  unfold twp. rewrite (begin_call_returns i a b (session_service s) t c x k Hc He Hx Ht).
  pose proof (update_channel_view _ i c (pending_channel c a b t) _ Hr Hc eq_refl (session_of_pending _ _ a b t Hs)) as E.
  unfold begin_pending. rewrite <- E. unfold view_of, set_services. cbn -[update_at set_busy]. by rewrite (services_busy _ _ _ _ Hx).
Qed.

Lemma finish_call_shows i c s t k :
  runtime_wf (runtime k) -> get_by_index (m_channels (runtime k)) i = Some c -> session_of c = Some s ->
  m_current_thread (runtime k) = Some t -> m_pending_server_thread c = Some t ->
  twp (finish_call i) (shown k (end_pending (set_thread (view_of (runtime k)) t (m_saved_server_state c)) (get_handle c) s)) k.
Proof.
  intros Hr Hc Hs Ht Hp.
  apply twp_and; [eapply twp_mono; [eapply finish_call_safe; [done|exact Hc|rewrite Hp; by intros ? [= <-]]|]; eauto with kernel|].
  pose proof (wf_channel _ Hr i c Hc) as Hw. destruct (wf_current _ Hr t Ht) as [u Hu].
  apply twp_bind. eapply twp_read_at; [exact Hc|]. rewrite Hp.
  apply (twp_seq _ _ _ (fun _ k1 => m_channels (runtime k1) = m_channels (runtime k) /\
    shows k (set_thread (view_of (runtime k)) t (m_saved_server_state c)) k1)).
  { apply twp_and; [by eapply twp_update|]. apply (update_thread_shows _ (restore_server c) u); [exact Hu|done|].
    eapply twp_mono; [apply keeps_update_thread; [done|by exists u|]|eauto with kernel].
    destruct Hw. intros t' _ []. split; [done|]. by constructor. }
  intros [] k1 [E1 K1]. eapply twp_mono; [apply (cancel_call_shows i c s); [by eapply shows_wf|by rewrite E1|done]|].
  intros [] k2 [_ E2]. by rewrite (proj2 K1) in E2.
Qed.

Lemma wake_client_shows `{Target} t st k :
  runtime_wf (runtime k) -> live_thread (runtime k) t ->
  twp (wake_client t st) (shown k (wake (view_of (runtime k)) t)) k.
Proof.
  intros Hr Ht. eapply twp_seq; [by apply set_state_shows|]. intros [] k1 [[K1 E1] _].
  destruct (live_thread_keeps _ _ _ K1 Ht) as [u Hu].
  eapply twp_mono; [apply (update_thread_same _ _ u); [exact Hu|by unfold prepare_syscall_resume; destruct target..|]|].
  { eapply twp_mono; [apply keeps_update_thread; [apply K1|by exists u|]|eauto with kernel].
    intros x _ []. unfold prepare_syscall_resume. destruct target; (split; [done|by constructor]). }
  intros [] k2 K2. rewrite E1 in K2. by eapply shows_trans; [split|].
Qed.

(** ** The delivery of a request *)

(** Threads, services and sessions are as they were. *)
Definition same_tables (k k' : kernel) : Prop :=
  shows k (view_of (runtime k)) k' /\ m_channels (runtime k') = m_channels (runtime k) /\
  m_endpoints (runtime k') = m_endpoints (runtime k) /\ m_current_thread (runtime k') = m_current_thread (runtime k).

Lemma same_tables_refl k : runtime_wf (runtime k) -> same_tables k k.
Proof. by split; [apply shows_refl|]. Qed.

Lemma same_tables_host k m : runtime_wf (runtime k) -> same_tables k {| runtime := runtime k; host := m; events := events k |}.
Proof. intros Hr. split; [split; [by split|]|]; done. Qed.

Lemma validate_decides p q x k :
  runtime_wf (runtime k) -> get_by_index (m_processes (runtime k)) p = Some q ->
  validate_user_range p x 1 k = Returned (bool_decide (accessible (m_address_space q) x)) k.
Proof.
  intros Hr Hq. destruct (validate_spec _ (wf_process _ Hr p q Hq) x 1 ltac:(lia) ltac:(unfold u64_ok; lia)) as (b & E & Hb).
  unfold validate_user_range. erewrite bind_eq by (by apply read_at_returns). unfold lift. rewrite E. cbn. f_equal.
  apply eq_bool_prop_intro. rewrite bool_decide_spec, <- Is_true_true in *. rewrite Hb. split; intros H.
  - specialize (H 0). rewrite Z.add_0_r in H. apply H. lia.
  - intros j Hj. by replace (x + j) with x by lia.
Qed.

(** The thread [s] is prepared for the callback. *)
Lemma resume_same_tables s ts cb cm a1 a2 sp m k :
  runtime_wf (runtime k) -> get_by_index (m_threads (runtime k)) s = Some ts ->
  same_tables k {| runtime := with_threads (runtime k) (update_at (m_threads (runtime k)) s (prepare_rpc_resume ts cb cm a1 a2 sp));
                   host := m; events := events k |}.
Proof.
  intros Hr Ht. destruct (wf_thread _ Hr s ts Ht). split; [|done]. split.
  - split; [apply (update_thread_wf _ Hr _ ts); [done|done|by constructor]|].
    constructor; [done| |done|done]. intros j. by eapply live_update.
  - cbn [runtime]. rewrite (view_update_thread _ _ ts) by done. apply set_thread_same. exact (thread_state_view _ _ _ Ht).
Qed.

Lemma prepare_server_thread_shows `{Target} e x s ts p cp sq addr n k :
  runtime_wf (runtime k) -> service_of e = Some x -> get_by_index (m_threads (runtime k)) s = Some ts ->
  get_by_index (m_processes (runtime k)) p = Some cp -> get_by_index (m_processes (runtime k)) (service_process x) = Some sq ->
  addr <> 0 -> 0 < n <= RINGOS_RPC_MAX_REQUEST_SIZE ->
  twp (prepare_server_thread e s p addr n)
    (fun st k' => st = delivery_status (m_address_space cp) (m_address_space sq) (host k) x addr n
                         (context_stack_pointer (m_user_context ts)) /\ same_tables k k') k.
Proof.
  intros Hr He Hts Hp Hq Ha Hn. unfold prepare_server_thread, delivery_status. pose proof (same_tables_refl k Hr) as Hk.
  unfold service_of in He. destruct (m_owner_process e) as [q|]; [|done]. destruct (m_owner_thread e); [|done].
  destruct (m_is_in_use e); [|done]. injection He as <-. cbn [service_process service_callback service_completion] in *.
  unfold RINGOS_RPC_MAX_REQUEST_SIZE in *.
  rewrite (proj2 (Z.eqb_neq addr 0)), (proj2 (Z.eqb_neq n 0)), (proj2 (Z.ltb_ge 256 n)) by lia. cbn [orb].
  destruct (Z.eqb_spec (m_callback_address e) 0) as [E1|N1]; cbn [orb]; [rewrite decide_True by tauto; by apply twp_ret|].
  destruct (Z.eqb_spec (m_completion_address e) 0) as [E2|N2]; [rewrite decide_True by tauto; by apply twp_ret|].
  rewrite decide_False by tauto. apply twp_returned.
  erewrite bind_eq by (by eapply validate_decides). case_bool_decide as A1; cbn [negb].
  2: { rewrite decide_False by tauto. by eexists _, _. }
  erewrite bind_eq by (by eapply validate_decides). case_bool_decide as A2; cbn [negb].
  2: { rewrite decide_False by tauto. by eexists _, _. }
  rewrite decide_True by done. erewrite bind_eq by (by apply read_at_returns). cbv zeta.
  set (stack := context_stack_pointer (m_user_context ts)).
  destruct (Z.eqb_spec stack 0) as [E0|N0]; [rewrite decide_True by done; by eexists _, _|]. rewrite decide_False by done.
  pose proof (fun y => copy_between_returns p q cp sq addr y n k Hr Hp Hq ltac:(unfold u64_ok; lia)) as Hcopy.
  specialize (Hcopy (align_down (u64 (stack - n)) 16)). cbv zeta in Hcopy.
  unfold delivered_memory, callback_stack_pointer, request_address in *.
  destruct (copy_between_reference _ _ _ _ _ _) as [st m1]. cbn [fst snd] in Hcopy.
  set (k1 := {| runtime := runtime k; host := m1; events := events k |}) in *.
  pose proof (same_tables_host k m1 Hr : same_tables k k1) as Hk1.
  assert (Hu : u64 (n + 8) = n + 8) by (apply u64_id; unfold u64_ok; lia).
  destruct (decide (stack_ok stack n)) as [Hok|Hok]; unfold stack_ok, request_address in Hok; destruct target.
  - rewrite Hu, (proj2 (Z.leb_gt _ _)), (proj2 (Z.leb_gt _ _)) by apply Hok. erewrite bind_eq by exact Hcopy.
    destruct (Z.eqb_spec st STATUS_OK) as [->|]; cbn [negb]; [|by eexists _, _].
    pose proof (write_user_bytes_returns q sq (u64 (align_down (u64 (stack - n)) 16 - 8))
      (le_encode 8 (m_completion_address e)) k1 Hr Hq ltac:(rewrite length_le_encode; unfold u64_ok; lia)) as Hw.
    cbv zeta in Hw. cbn [host k1] in Hw. destruct (write_reference _ _ _ _) as [st2 m2]. cbn [fst snd] in Hw |- *.
    erewrite bind_eq by exact Hw. destruct (Z.eqb_spec st2 STATUS_OK) as [->|]; cbn [negb].
    2: { eexists _, _. split; [done|]. split; [done|]. exact (same_tables_host k m2 Hr). }
    erewrite bind_eq by (by apply update_returns). eexists _, _. split; [done|]. split; [done|].
    by apply (resume_same_tables s ts _ _ _ _ _ _ k).
  - rewrite (proj2 (Z.leb_gt _ _) Hok). erewrite bind_eq by exact Hcopy.
    destruct (Z.eqb_spec st STATUS_OK) as [->|]; cbn [negb]; [|by eexists _, _].
    erewrite bind_eq by (by apply update_returns). eexists _, _. split; [done|]. split; [done|].
    by apply (resume_same_tables s ts _ _ _ _ _ _ k).
  - rewrite Hu. destruct (Z.leb_spec stack (n + 8)); [by eexists _, _|].
    destruct (Z.leb_spec (align_down (u64 (stack - n)) 16) 8); [by eexists _, _|tauto].
  - destruct (Z.leb_spec stack n); [by eexists _, _|lia].
Qed.

(** ** Names, services and calls, in the tables and in the view *)

Lemma c_string_prefix l l' : 0 ∈ l -> c_string (l ++ l') = c_string l.
Proof.
  induction l as [|c l IH]; intros Hl; [by apply not_elem_of_nil in Hl|]. cbn. destruct (Z.eqb_spec c 0); [done|].
  apply elem_of_cons in Hl as [|Hl]; [done|]. by rewrite IH.
Qed.

Lemma copy_user_string_reads t u p q x n k :
  runtime_wf (runtime k) -> get_by_index (m_threads (runtime k)) t = Some u -> m_process u = Some p ->
  get_by_index (m_processes (runtime k)) p = Some q -> u64_ok x -> (0 < n)%nat ->
  twp (copy_user_string_to_buffer t x n)
    (fun r k' => k' = k /\
       match user_string (m_address_space q) (host k) x n with
       | inl st => fst r = st /\ st <> STATUS_OK
       | inr name => fst r = STATUS_OK /\ 0 ∈ snd r /\ length (snd r) = n /\ c_string (snd r) = name
       end) k.
Proof.
  intros Hr Hu Hp Hq Hx Hn. apply twp_bind. eapply twp_read_at; [exact Hu|]. rewrite Hp.
  apply twp_bind, twp_bind. eapply twp_read_at; [exact Hq|]. apply twp_ret, twp_bind. cbn [get twp]. apply twp_bind.
  pose proof (copy_user_string_correct (m_address_space q) (host k) x (Z.of_nat n) (wf_process _ Hr p q Hq) Hx ltac:(lia)) as H.
  destruct (copy_user_string_shape _ (host k) x n (wf_process _ Hr p q Hq) Hx Hn) as (st & bs & E & Hs).
  rewrite Nat2Z.id in H. unfold user_string. eapply twp_lift; [exact E|]. apply twp_ret. split; [done|]. cbn [fst snd].
  rewrite E in H. destruct (copy_string_reference _ _ _ _) as [[cs []]|].
  - injection H as -> ->. destruct (Hs eq_refl) as (Hz & _ & Hl). split_and!; [done|by apply elem_of_app; left| |by apply c_string_prefix].
    rewrite length_app, length_replicate. lia.
  - destruct H as [_ [= -> _]]. done.
  - by destruct H as [? [= -> _]].
Qed.

Lemma endpoint_service P Q e :
  endpoint_wf P Q e -> m_is_in_use e = true ->
  exists x, service_of e = Some x /\ service_name x = c_string (m_name e) /\ m_owner_thread e = Some (service_thread x) /\
    m_owner_process e = Some (service_process x) /\ service_busy x = m_is_busy e /\
    P (service_process x) /\ Q (service_thread x).
Proof.
  intros Hw Hu. destruct (endpoint_owned _ _ _ Hw Hu) as [[p Hp] [t Ht]].
  pose proof (endpoint_process _ _ _ Hw p Hp). pose proof (endpoint_thread _ _ _ Hw t Ht).
  unfold service_of. rewrite Hp, Ht, Hu. eexists. by split_and!.
Qed.

Lemma service_in_use e x : service_of e = Some x -> m_is_in_use e = true.
Proof. unfold service_of. destruct (m_owner_process e), (m_owner_thread e), (m_is_in_use e); done. Qed.

(** The service in a slot of the table. *)
Lemma service_lookup r i x : runtime_wf r -> services (view_of r) !! i = Some x <->
  exists e, m_endpoints r !! i = Some e /\ service_of e = Some x.
Proof.
  intros Hr. cbn. rewrite services_lookup. split.
  - intros H. destruct (m_endpoints r !! i) as [e|]; [|done]. by exists e.
  - by intros (e & -> & He).
Qed.

Lemma found_has_name r name i : runtime_wf r -> found_by_name r name (Some i) ->
  exists e x, m_endpoints r !! i = Some e /\ service_of e = Some x /\ has_name (view_of r) (c_string name) i x.
Proof.
  intros Hr (e & He & Hu & En). destruct (endpoint_service _ _ _ (wf_endpoint _ Hr i e He) Hu) as (x & Hx & Ex & _).
  exists e, x. split_and!; [done|done|]. split; [by apply service_lookup; [|exists e]|congruence].
Qed.

Lemma not_found_unknown r name : runtime_wf r -> found_by_name r name None -> unknown_name (view_of r) (c_string name).
Proof.
  intros Hr Hn i x [Hx En]. apply service_lookup in Hx as (e & He & Hx); [|done]. pose proof (service_in_use _ _ Hx) as Hu.
  destruct (endpoint_service _ _ _ (wf_endpoint _ Hr i e He) Hu) as (x' & Hx' & Ex & _). simplify_eq.
  eapply (Hn i e); [done|done|congruence].
Qed.

Lemma call_of_server P Q c t : channel_wf P Q c -> m_pending_server_thread c = Some t ->
  exists a, m_pending_client_thread c = Some a /\ Q a /\
    call_of c = Some {| calling_thread := a; serving_thread := t; interrupted_state := m_saved_server_state c |}.
Proof.
  intros Hw Ht. destruct (channel_call _ _ _ Hw) as [_ [a Ha]]; [by rewrite Ht|]. exists a.
  split; [done|]. split; [by eapply channel_client|]. unfold call_of. by rewrite Ha, Ht.
Qed.

Lemma channel_idle P Q c : channel_wf P Q c -> channel_is_busy c = bool_decide (call_of c <> None).
Proof.
  intros Hw. pose proof (channel_call _ _ _ Hw) as H. unfold channel_is_busy, call_of.
  destruct (m_pending_client_thread c), (m_pending_server_thread c); [done| | |done].
  - by destruct (proj1 H ltac:(by eexists)).
  - by destruct (proj2 H ltac:(by eexists)).
Qed.

(** The session of a channel, looked up by its handle. *)
Lemma channel_lookup r i c s : runtime_wf r -> get_by_index (m_channels r) i = Some c -> session_of c = Some s ->
  sessions (view_of r) !! get_handle c = Some s.
Proof. intros Hr Hc Hs. apply (sessions_spec _ _ (wf_channels _ Hr)). by exists i, c. Qed.

Lemma pending_serves r t i : runtime_wf r -> pending_channel_of (m_channels r) (Some t) = Some i ->
  exists c s a, get_by_index (m_channels r) i = Some c /\ session_of c = Some s /\ m_pending_server_thread c = Some t /\
    m_pending_client_thread c = Some a /\ live_thread r a /\
    serves (view_of r) t (get_handle c) s {| calling_thread := a; serving_thread := t; interrupted_state := m_saved_server_state c |}.
Proof.
  intros Hr (c & Hc & Hp & _)%pending_channel_of_Some. pose proof (wf_channel _ Hr i c Hc) as Hw.
  destruct (channel_session _ _ _ Hw) as (s & Hs & _ & _ & Es). destruct (call_of_server _ _ _ _ Hw Hp) as (a & Ha & Hl & Ec).
  exists c, s, a. split_and!; try done. split; [by eapply channel_lookup|]. split; [congruence|done].
Qed.

Lemma no_pending_idle r t : runtime_wf r -> pending_channel_of (m_channels r) (Some t) = None -> idle_server (view_of r) t.
Proof.
  intros Hr Hn h s c (Hs & Hcall & Ht). apply (sessions_spec _ _ (wf_channels _ Hr)) in Hs as (i & ch & Hch & _ & Hs).
  eapply pending_channel_of_None; [|exact Hn|exact Hch|]; [done|].
  destruct (channel_session _ _ _ (wf_channel _ Hr i ch Hch)) as (s' & Hs' & _ & _ & Es). rewrite Hs in Hs'. injection Hs' as <-.
  rewrite Hcall in Es. unfold call_of in Es. destruct (m_pending_client_thread ch), (m_pending_server_thread ch); [|done..].
  injection Es as ->. cbn in Ht. congruence.
Qed.

Lemma ready_in_view r i : ready_thread (view_of r) i <-> ready (m_threads r) i.
Proof.
  unfold ready_thread, ready. cbn. rewrite states_lookup. split.
  - intros H. destruct (get_by_index (m_threads r) i) as [t|]; [|done]. exists t. split; [done|]. by injection H.
  - intros (t & -> & Hs). cbn. by rewrite Hs.
Qed.

Lemma next_ready_in_view r t : runtime_wf r -> live_thread r t ->
  match next_ready (m_threads r) (Some t) with
  | Some s => ready_thread (view_of r) s
  | None => no_thread_ready (view_of r)
  end.
Proof.
  intros Hr Ht. pose proof (next_ready_spec (m_threads r) (Some t) (wf_thread_capacity _ Hr) ltac:(by apply points_to_Some)) as H.
  destruct (next_ready _ _); [apply ready_in_view, H|]. intros s Hs%ready_in_view. exact (H s Hs).
Qed.

Lemma bad_handle_shows p h k : runtime_wf (runtime k) -> find_by_handle (m_channels (runtime k)) h = None ->
  twp (not_a_channel h) (fun st k' => k' = k /\ bad_handle p (view_of (runtime k)) h st) k.
Proof.
  intros Hr Hn. pose proof (sessions_not_found _ _ (wf_channels _ Hr) h Hn) as Hs. pose proof (objects_spec _ h Hr) as Ho.
  apply twp_bind. unfold find_object_by_handle.
  do 4 (apply twp_bind, twp_gets;
    let E := fresh "E" in match goal with |- context [find_by_handle ?q h] => destruct (find_by_handle q h) as [n|] eqn:E end;
    [cbn; split; [done|]; apply bad_type; [exact Hs|]; rewrite Ho; cbn in *; rewrite ?E; by eauto 6|]).
  cbn in *. split; [done|]. apply bad_unknown; [exact Hs|]. rewrite Ho. intros [[n H]|[[n H]|[[n H]|[n H]]]]; congruence.
Qed.
