(* ===== verification/SyscallRefinement.v ===== *)
(** Every system call is a step of the abstract specification: the handlers of
    [kernel/rpc.cpp] and the dispatcher, one after the other. *)
From stdpp Require Import gmap.
From S2P Require Import Prelude AddressSpace UserMemory KernelObjectPool RuntimeTypes UserRuntime Rpc Syscalls RuntimeInvariant KernelSafety RpcSafety SyscallSafety KernelSamples RpcSpecs KernelSpecs KernelView KernelSteps KernelRefinement.
#[local] Open Scope Z_scope.

Lemma twp_step {A B} (m : K A) (f : A -> K B) a k k' Q : m k = Returned a k' -> twp (f a) Q k' -> twp (m ≫= f) Q k.
Proof. intros E H. unfold twp. by rewrite (bind_eq _ _ _ _ _ E). Qed.

(** Reading a word that is compared with zero. *)
Lemma eqb0_cases x : (x =? 0) = bool_decide (x = 0).
Proof. destruct (Z.eqb_spec x 0); [by rewrite bool_decide_eq_true_2|by rewrite bool_decide_eq_false_2]. Qed.

Lemma orb_decide P Q `{Decision P, Decision Q} : bool_decide P || bool_decide Q = bool_decide (P \/ Q).
Proof. by rewrite bool_decide_or. Qed.

Lemma if_decide {P} `{Decision P} {A} (x y : A) : (if bool_decide P then x else y) = if decide P then x else y.
Proof. destruct (decide P); [by rewrite bool_decide_eq_true_2|by rewrite bool_decide_eq_false_2]. Qed.

(** Status and view after a system call of [t] that is the request [req]. *)
Definition answers (t p : nat) (req : request) (k : kernel) (st : Z) (k' : kernel) : Prop :=
  kernel_step t p (view_of (runtime k)) req st (view_of (runtime k')).

Lemma answers_now t p k st : answers t p (answered st) k st k.
Proof. apply step_answered. Qed.

Section handlers.
Context `{Target} (t p : nat) (c : user_syscall_context) (k : kernel) (u : thread) (q : process).
Context (Hr : runtime_wf (runtime k)) (Hcur : m_current_thread (runtime k) = Some t).
Context (Hu : get_by_index (m_threads (runtime k)) t = Some u) (Hup : m_process u = Some p).
Context (Hq : get_by_index (m_processes (runtime k)) p = Some q) (Hc : syscall_context_ok c).

Lemma own_space : address_space_of k p = m_address_space q.
Proof. unfold address_space_of. by rewrite Hq. Qed.

Lemma own_live : live_thread (runtime k) t.
Proof. by exists u. Qed.

(** A handler that starts by reading a name. *)
Lemma name_answers x f (m : Z * list Z -> K Z) :
  u64_ok x ->
  (forall st bs, st <> STATUS_OK -> m (st, bs) = mret st) ->
  (forall bs, 0 ∈ bs -> length bs = NAME_CAPACITY -> twp (m (STATUS_OK, bs)) (answers t p (f (c_string bs)) k) k) ->
  twp (name ← copy_user_string_to_buffer t x NAME_CAPACITY; m name) (answers t p (name_at k p x f) k) k.
Proof.
  intros Hx Hbad Hgood. eapply twp_seq; [by eapply copy_user_string_reads; try done; unfold NAME_CAPACITY; lia|].
  intros [st bs] k1 [-> Hname]. unfold name_at. rewrite own_space.
  destruct (user_string _ _ _ _) as [st'|name]; cbn [fst snd] in Hname.
  - destruct Hname as [-> Hst]. rewrite Hbad by done. apply twp_ret, answers_now.
  - destruct Hname as (-> & Hz & Hl & <-). by apply Hgood.
Qed.

(** ** Registration *)

Lemma free_endpoint_in_view k1 : runtime_wf (runtime k1) ->
  twp find_free_endpoint (fun o k' => k' = k1 /\
    match o with
    | Some i => (i < USER_RUNTIME_MAX_RPC_ENDPOINTS)%nat /\ services (view_of (runtime k1)) !! i = None
    | None => forall i, (i < USER_RUNTIME_MAX_RPC_ENDPOINTS)%nat -> is_Some (services (view_of (runtime k1)) !! i)
    end) k1.
Proof.
  intros Hr1. apply twp_gets. split; [done|]. destruct (list_find _ _) as [[i e]|] eqn:E; cbn.
  - apply list_find_Some in E as (He & Hn & _). rewrite <- (wf_endpoint_count _ Hr1). split; [by eapply lookup_lt_Some|].
    rewrite services_lookup, He. cbn. unfold service_of. by destruct (m_owner_process e), (m_owner_thread e); rewrite ?Hn.
  - apply list_find_None in E. intros i Hi. destruct (endpoint_lookup _ _ Hr1 Hi) as [e He].
    pose proof (Forall_lookup_1 _ _ _ _ E He) as Hn. apply not_false_is_true in Hn.
    destruct (endpoint_service _ _ _ (wf_endpoint _ Hr1 i e He) Hn) as (x & Hx & _). exists x. by rewrite services_lookup, He.
Qed.

(** A thread that serves no call yields to a ready one. *)
Lemma yield_answers k1 :
  runtime_wf (runtime k1) -> live_thread (runtime k1) t ->
  twp (next_thread ← find_next_ready_thread (Some t);
       match next_thread with
       | None => mret STATUS_OK
       | Some next =>
           pending ← find_pending_channel_by_server_thread (Some t);
           match pending with
           | Some _ => mret STATUS_OK
           | None => update t (fun t => prepare_syscall_resume t STATUS_OK);; set_current_thread (Some next);; mret STATUS_OK
           end
       end)
    (fun st k' => st = STATUS_OK /\ yields t (view_of (runtime k1)) (view_of (runtime k'))) k1.
Proof.
  intros Hr1 Hl. apply twp_bind, twp_gets. pose proof (next_ready_in_view _ t Hr1 Hl) as Hn.
  pose proof (next_ready_live (runtime k1) (Some t)) as Hlive.
  destruct (next_ready _ _) as [s|]; [|apply twp_ret; split; [done|by apply yields_alone]].
  apply twp_bind, twp_gets. destruct (pending_channel_of _ _) as [i|] eqn:Ei.
  { apply twp_ret. split; [done|]. destruct (pending_serves _ _ _ Hr1 Ei) as (ch & x & a & _ & _ & _ & _ & _ & Hs). by eapply yields_serving. }
  destruct Hl as [w Hw]. eapply twp_seq.
  { apply (update_thread_same _ _ w); [exact Hw|by unfold prepare_syscall_resume; destruct target..|].
    eapply twp_mono; [apply keeps_update_thread; [done|by exists w|]|eauto with kernel].
    intros y _ []. unfold prepare_syscall_resume. destruct target; (split; [done|by constructor]). }
  intros [] k2 [K2 E2]. eapply twp_seq; [apply set_current_thread_shows; [apply K2|eapply live_thread_keeps; [exact K2|by apply Hlive]]|].
  intros [] k3 [_ E3]. apply twp_ret. split; [done|]. rewrite E3, E2. apply yields_to; [by apply no_pending_idle|done].
Qed.

Lemma register_in_view i e name n cb cm :
  (i < USER_RUNTIME_MAX_RPC_ENDPOINTS)%nat -> c_string n = c_string name ->
  e = {| m_is_in_use := true; m_is_busy := false; m_name := n; m_owner_process := Some p;
         m_owner_thread := Some t; m_callback_address := cb; m_completion_address := cm |} ->
  view_of (with_endpoints (runtime k) (<[i := e]> (m_endpoints (runtime k))))
  = set_services (view_of (runtime k)) (<[i := new_service t p (c_string name) cb cm]> (services (view_of (runtime k)))).
Proof.
  intros Hi En ->. unfold view_of, set_services. cbn. rewrite services_insert by (by rewrite (wf_endpoint_count _ Hr)).
  unfold service_of, new_service. cbn. by rewrite En.
Qed.

Lemma rpc_register_answers : twp (rpc_register t p c) (answers t p (register_request k p c) k) k.
Proof.
  unfold rpc_register, register_request. rewrite !eqb0_cases, !orb_decide, if_decide.
  destruct (decide _) as [|Hargs]; [rewrite decide_True by tauto; apply twp_ret, answers_now|].
  rewrite (decide_False (P := argument0 c = 0 \/ _)), own_space by tauto.
  eapply twp_step; [by eapply validate_decides|]. case_bool_decide as A1; cbn [negb].
  2: { rewrite decide_False by tauto. apply twp_ret, answers_now. }
  eapply twp_step; [by eapply validate_decides|]. case_bool_decide as A2; cbn [negb].
  2: { rewrite decide_False by tauto. apply twp_ret, answers_now. }
  rewrite decide_True by done. apply name_answers; [apply Hc|by intros st bs Hst; rewrite (proj2 (Z.eqb_neq _ _) Hst)|].
  intros name Hz Hl. cbn [Z.eqb STATUS_OK negb].
  eapply twp_seq; [by apply find_endpoint_by_name_safe|]. intros [i|] k1 [-> Hfound].
  { destruct (found_has_name _ _ _ Hr Hfound) as (e & x & _ & _ & Hx). apply twp_ret. by eapply step_register_taken. }
  pose proof (not_found_unknown _ _ Hr Hfound) as Hunk.
  eapply twp_seq; [by apply free_endpoint_in_view|]. intros [i|] k1 [-> Hfree]; [|by apply twp_ret, step_register_full].
  destruct Hfree as [Hi Hs]. destruct (initialize_endpoint_spec p t name (argument1 c) (argument2 c) Hz Hl) as (n & En & Hn & Hnz & Ec).
  apply twp_bind. eapply twp_in_bounds; [exact En|]. eapply twp_seq; [apply (twp_and _ (ok_current k) 
    (fun _ k1 => view_of (runtime k1) = set_services (view_of (runtime k))
       (<[i := new_service t p (c_string name) (argument1 c) (argument2 c)]> (services (view_of (runtime k))))))|].
  { apply keeps_write_endpoint; [done|by rewrite (wf_endpoint_count _ Hr)| |].
    - constructor; cbn; eauto using own_live; try done; apply points_to_Some; by eexists.
    - cbn. intros _ j e' Hj Hu' E. rewrite Ec in E. by destruct (Hfound j e' Hj Hu' E). }
  { by apply twp_set_runtime, (register_in_view i _ name n). }
  intros [] k1 [[K1 _] E1]. eapply twp_mono; [apply yield_answers; [apply K1|eapply live_thread_keeps; [exact K1|apply own_live]]|].
  intros st k2 [-> Hy]. rewrite E1 in Hy. by eapply step_register.
Qed.

(** ** Sessions *)

Lemma found_channel h i :
  find_by_handle (m_channels (runtime k)) h = Some i ->
  exists ch s, get_by_index (m_channels (runtime k)) i = Some ch /\ session_of ch = Some s /\ get_handle ch = h /\
    sessions (view_of (runtime k)) !! h = Some s /\ m_client_process ch = Some (session_client s) /\
    m_endpoint ch = Some (session_service s) /\ session_call s = call_of ch.
Proof.
  intros Hi. pose proof Hi as (ch & Hch & Hh)%(find_by_handle_spec _ _ _ _ (wf_channels _ Hr)).
  destruct (channel_session _ _ _ (wf_channel _ Hr i ch Hch)) as (s & Hs & Hp & He & Ec). exists ch, s. split_and!; try done.
  change (sessions_of (m_channels (runtime k)) !! h = Some s). rewrite <- Hs. by eapply sessions_found; [apply wf_channels|..].
Qed.

(** A handler that starts by looking a channel up and checking its owner. *)
Lemma session_answers h req (m : nat -> rpc_channel -> K Z) :
  (forall st, bad_handle p (view_of (runtime k)) h st -> kernel_step t p (view_of (runtime k)) req st (view_of (runtime k))) ->
  (forall i ch s, find_by_handle (m_channels (runtime k)) h = Some i -> get_by_index (m_channels (runtime k)) i = Some ch ->
     session_of ch = Some s -> get_handle ch = h -> own_session p (view_of (runtime k)) h s -> m_endpoint ch = Some (session_service s) ->
     session_call s = call_of ch -> twp (m i ch) (answers t p req k) k) ->
  twp (channel ← find_channel_by_handle h;
       match channel with
       | None => not_a_channel h
       | Some i => channel ← read_at i; if negb (is_owned_by channel p) then mret STATUS_BAD_HANDLE else m i channel
       end) (answers t p req k) k.
Proof.
  intros Hbad Hm. apply twp_bind, twp_gets. cbn [pool]. destruct (find_by_handle _ h) as [i|] eqn:Ei.
  2: { eapply twp_mono; [by apply (bad_handle_shows p)|]. intros st k1 [-> Hst]. by apply Hbad. }
  destruct (found_channel h i Ei) as (ch & s & Hch & Hs & Hh & Hv & Ho & He & Ecall).
  apply twp_bind. eapply twp_read_at; [exact Hch|]. unfold is_owned_by. rewrite Ho. case_bool_decide as Hown; cbn [negb].
  - injection Hown as Hown. by eapply Hm.
  - apply twp_ret, Hbad. eapply bad_owner; [exact Hv|congruence].
Qed.

Lemma not_busy_idle i ch s : get_by_index (m_channels (runtime k)) i = Some ch -> session_call s = call_of ch ->
  channel_is_busy ch = bool_decide (session_call s <> None).
Proof. intros Hch ->. eapply channel_idle, wf_channel, Hch. done. Qed.

Lemma rpc_close_answers : twp (rpc_close p c) (answers t p (close_request c) k) k.
Proof.
  unfold rpc_close, close_request. rewrite eqb0_cases, if_decide. destruct (decide _) as [|Hh]; [apply twp_ret, answers_now|].
  apply session_answers; [intros st Hst; by apply step_close_bad|].
  intros i ch s Hi Hch Hs Eh Hown He Ecall. rewrite (not_busy_idle i ch s) by done. case_bool_decide as Hbusy.
  { apply twp_ret. by eapply step_close_busy. }
  apply twp_bind, twp_bind. cbn -[erase_by_handle].
  pose proof (sessions_erase _ _ (argument0 c) (wf_channels _ Hr)) as Hx. unfold erase_by_handle in *. rewrite Hi in *. cbn [snd] in Hx.
  apply twp_bind, twp_set_runtime, twp_ret, twp_ret. unfold answers. cbn [runtime with_runtime].
  assert (view_of (with_channels (runtime k) (with_items (m_channels (runtime k)) (<[i := None]> (m_items (m_channels (runtime k))))))
    = set_sessions (view_of (runtime k)) (delete (argument0 c) (sessions (view_of (runtime k))))) as ->.
  { unfold view_of, set_sessions. cbn. by rewrite <- Hx. }
  apply (step_close _ _ _ _ s); [done|]. destruct (session_call s); [by destruct Hbusy|done].
Qed.

Lemma write_status_of a m x bs : fst (write_reference a m x bs) = write_status a x (length bs).
Proof. revert m x. induction bs as [|b bs IH]; intros m x; cbn; [done|]. by destruct (byte_host a x). Qed.

Lemma emplace_fills {A} (pl : kernel_object_pool A) next construct :
  m_has_next_handle_value pl = true ->
  match (emplace pl next construct).1.1 with Some _ => free_slots pl <> 0%nat | None => free_slots pl = 0%nat end.
Proof.
  intros E. unfold emplace. rewrite E. cbn [negb]. pose proof (first_free_None pl) as Hn.
  destruct (first_free pl) as [i|]; cbn; [|by apply Hn]. intros H0. by apply Hn in H0.
Qed.

(** The session of a new channel. *)
Lemma new_session_shows r i j pl next :
  runtime_wf r -> runtime_wf (with_next_handle_value (with_channels r pl) next) ->
  emplaced (m_channels r) pl (m_next_handle_value r) next (make_rpc_channel p i) j ->
  view_of (with_next_handle_value (with_channels r pl) next)
  = set_sessions (view_of r)
      (<[m_next_handle_value r := {| session_client := p; session_service := i; session_call := None |}]> (sessions (view_of r))).
Proof.
  intros Hr1 Hr2 Hem. unfold view_of, set_sessions. cbn. f_equal.
  eapply (sessions_emplace _ _ _ _ (make_rpc_channel p i) j); [apply (wf_channels _ Hr1)|apply (wf_channels _ Hr2)|done|exact Hem|done].
Qed.

(** A reference is counted; the session is the same. *)
Lemma grant_access_shows j ch k1 :
  runtime_wf (runtime k1) -> get_by_index (m_channels (runtime k1)) j = Some ch ->
  twp (grant_process_access (A := rpc_channel) j) (fun _ k2 => shows k1 (view_of (runtime k1)) k2 /\
    m_next_handle_value (runtime k2) = m_next_handle_value (runtime k1) /\
    exists ch', get_by_index (m_channels (runtime k2)) j = Some ch' /\ get_handle ch' = get_handle ch) k1.
Proof.
  intros Hr1 Hch. pose proof (wf_channel _ Hr1 j ch Hch) as Hw. destruct (channel_session _ _ _ Hw) as (s & Hs & _).
  set (f := fun x : rpc_channel => with_object x (acquire_process_reference (object_of x))).
  assert (Hok : twp (update j f) (ok_current k1) k1).
  { apply keeps_update_channel; [done|by exists ch|]. intros x Hx []. split; [done|by constructor]. }
  apply twp_and; [apply twp_and; [eapply twp_mono; [exact Hok|]; eauto with kernel|]|].
  - eapply twp_update; [exact Hch|]. cbn [runtime with_runtime with_pool].
    etrans; [exact (update_channel_view (runtime k1) j ch (f ch) s Hr1 Hch eq_refl Hs)|].
    unfold set_sessions. rewrite insert_id by (by eapply channel_lookup). by destruct (view_of _).
  - eapply twp_update; [exact Hch|]. split; [done|]. exists (f ch). split; [|done].
    etrans; [exact (get_update_at _ j j _ ch Hch)|]. by rewrite decide_True.
Qed.

Lemma erase_session_shows h k1 : runtime_wf (runtime k1) ->
  twp (erase_in (A := rpc_channel) h)
    (fun _ k2 => view_of (runtime k2) = set_sessions (view_of (runtime k1)) (delete h (sessions (view_of (runtime k1))))) k1.
Proof.
  intros Hr1. apply twp_bind. cbn -[erase_by_handle]. pose proof (sessions_erase _ _ h (wf_channels _ Hr1)) as Hx.
  destruct (erase_by_handle _ h) as [b pl]. cbn [snd] in Hx. apply twp_bind, twp_set_runtime, twp_ret.
  unfold view_of, set_sessions. cbn. by rewrite Hx.
Qed.

(** What [rpc_open] does once it has found the service: a session that is given
    up again when its handle cannot be stored. *)
Lemma open_session_shows i k1 :
  runtime_wf (runtime k1) -> get_by_index (m_processes (runtime k1)) p = Some q ->
  (i < USER_RUNTIME_MAX_RPC_ENDPOINTS)%nat -> m_next_handle_value (runtime k1) < 2 ^ 64 - 1 ->
  let v := view_of (runtime k1) in
  let h := m_next_handle_value (runtime k1) in
  let w := write_status (m_address_space q) (argument1 c) 8 in
  twp (channel ← emplace_in (make_rpc_channel p i);
       match channel with
       | None => mret STATUS_NO_MEMORY
       | Some j =>
           grant_process_access (A := rpc_channel) j;;
           channel ← read_at j;
           let channel_handle := get_handle (channel : rpc_channel) in
           write_status ← write_user_bytes_to p (argument1 c) (le_encode 8 channel_handle);
           if negb (write_status =? STATUS_OK) then erase_in (A := rpc_channel) channel_handle;; mret write_status
           else mret STATUS_OK
       end)
    (fun st k' =>
       if decide (size (sessions v) = USER_RUNTIME_MAX_RPC_CHANNELS) then st = STATUS_NO_MEMORY /\ view_of (runtime k') = v
       else (size (sessions v) < USER_RUNTIME_MAX_RPC_CHANNELS)%nat /\ st = w /\
         view_of (runtime k') = if decide (w = STATUS_OK)
           then set_sessions v (<[h := {| session_client := p; session_service := i; session_call := None |}]> (sessions v)) else v) k1.
Proof.
  intros Hr1 Hp1 Hi Hn v h w. pose proof (sessions_size _ Hr1) as Hsize. change (sessions_of _) with (sessions v) in Hsize.
  pose proof (emplace_fills _ h (make_rpc_channel p i) (pool_ready _ _ (wf_channels _ Hr1))) as Hfill.
  pose proof (emplace_channel_wf (runtime k1) p i Hr1 ltac:(by eexists) Hi Hn) as Hem.
  assert (Hfresh : sessions v !! h = None).
  { apply eq_None_not_Some. intros [s (x & y & Hy & E & _)%(sessions_spec _ _ (wf_channels _ Hr1))].
    pose proof (pool_issued _ _ (wf_channels _ Hr1) x y Hy). lia. }
  pose proof (fun j pl next Hw => new_session_shows (runtime k1) i j pl next Hr1 Hw) as E2. fold v h in E2, Hem.
  assert (Ev : view_of (runtime k1) = v) by done. assert (Eh : m_next_handle_value (runtime k1) = h) by done.
  assert (Ew : write_status (m_address_space q) (argument1 c) 8 = w) by done. clearbody v h w.
  apply twp_bind, twp_bind. cbn -[emplace le_encode]. rewrite Eh.
  destruct (emplace _ _ _) as [[o pl] next]. destruct Hem as [Hw Hem]. cbn [fst] in Hfill. apply twp_bind, twp_set_runtime.
  set (k2 := with_runtime k1 _). apply twp_ret. destruct o as [j|]; cbv iota in Hfill.
  2: { destruct Hem as [-> ->]. apply twp_ret. rewrite (decide_True (P := size _ = _)) by lia. by rewrite <- Ev. }
  assert (Hfull : size (sessions v) <> USER_RUNTIME_MAX_RPC_CHANNELS) by lia. specialize (E2 j pl next Hw Hem).
  pose proof (emplaced_object _ _ _ _ _ _ Hem) as Hch.
  assert (Hp2 : get_by_index (m_processes (runtime k2)) p = Some q) by exact Hp1.
  change (with_next_handle_value (with_channels (runtime k1) pl) next) with (runtime k2) in E2, Hw.
  change pl with (m_channels (runtime k2)) in Hch. clearbody k2. clear Hem.
  eapply twp_seq; [by eapply grant_access_shows|]. intros [] k3 (K3 & _ & ch & Hch3 & Hh). destruct K3 as [K3 E3].
  apply twp_bind. eapply twp_read_at; [exact Hch3|]. cbv zeta. rewrite Hh. change (get_handle _) with h.
  assert (Hp3 : get_by_index (m_processes (runtime k3)) p = Some q) by (by rewrite (frame_processes _ _ (proj2 K3))).
  eapply twp_step; [apply (write_user_bytes_returns p q); [apply K3|exact Hp3|rewrite length_le_encode; unfold u64_ok; lia]|].
  rewrite write_status_of, length_le_encode, Ew. set (k4 := {| runtime := runtime k3 |}).
  assert (E4 : view_of (runtime k4) = view_of (runtime k2)) by exact E3. assert (Hr4 : runtime_wf (runtime k4)) by apply K3. clearbody k4.
  destruct (Z.eqb_spec w STATUS_OK) as [->|Hbad]; cbn [negb].
  { apply twp_ret. rewrite (decide_False _ _ Hfull). split; [lia|]. by rewrite decide_True, E4. }
  eapply twp_seq; [by apply erase_session_shows|]. intros b k5 E5. apply twp_ret. rewrite (decide_False _ _ Hfull). split; [lia|]. split; [done|].
  rewrite decide_False by done. rewrite E5, E4, E2. unfold set_sessions. cbn. rewrite delete_insert_id by done. by destruct v.
Qed.

Lemma rpc_open_answers : m_next_handle_value (runtime k) < 2 ^ 64 - 1 -> twp (rpc_open t p c) (answers t p (open_request k p c) k) k.
Proof.
  intros Hn. unfold rpc_open, open_request. rewrite !eqb0_cases, !orb_decide, if_decide.
  destruct (decide _) as [|Hargs]; [apply twp_ret, answers_now|].
  apply name_answers; [apply Hc|by intros st bs Hst; rewrite (proj2 (Z.eqb_neq _ _) Hst)|].
  intros name Hz Hl. cbn [Z.eqb STATUS_OK negb]. rewrite own_space.
  eapply twp_seq; [by apply find_endpoint_by_name_safe|]. intros [i|] k1 [-> Hfound].
  2: { apply twp_ret, step_open_unknown. by apply not_found_unknown. }
  destruct (found_has_name _ _ _ Hr Hfound) as (e & x & He & Hx & Hname). pose proof (wf_endpoint _ Hr i e He) as Hew.
  destruct (endpoint_service _ _ _ Hew (service_in_use _ _ Hx)) as (x' & Hx' & _ & Ht & _ & _ & _ & [w Hw]). simplify_eq.
  apply twp_bind. eapply twp_read_endpoint; [exact He|]. rewrite Ht. apply twp_bind, get_state_safe; [by exists w|].
  intros w' Hw'. simplify_eq. pose proof (thread_state_view _ _ _ Hw) as Hstate. case_bool_decide as Hs.
  { apply twp_ret. eapply step_open_exited; [exact Hname|]. unfold exited. by rewrite Hstate, Hs. }
  assert (Hne : ~ exited (view_of (runtime k)) (service_thread x)) by (unfold exited; rewrite Hstate; congruence).
  pose proof (lookup_lt_Some _ _ _ He) as Hi. rewrite (wf_endpoint_count _ Hr) in Hi.
  eapply twp_mono; [by apply open_session_shows|]. cbv beta zeta. intros st k' H'.
  destruct (decide _) as [Hfull|_]; unfold answers.
  { destruct H' as [-> ->]. by eapply step_open_full. }
  destruct H' as (Hsz & -> & ->). destruct (decide _) as [Hok|Hbad]; [|by eapply step_open_refused].
  rewrite Hok at 2. pose proof (wf_next _ Hr). eapply step_open; [done..|lia| |apply objects_issued, Hr].
  apply eq_None_not_Some. intros [s (j & ch & Hch & E & _)%(sessions_spec _ _ (wf_channels _ Hr))].
  pose proof (pool_issued _ _ (wf_channels _ Hr) j ch Hch). lia.
Qed.

(** ** Calls *)

(** A call that has been delivered: the caller waits, and the server runs. *)
Lemma accept_call_shows i ch s x ts h k1 :
  runtime_wf (runtime k1) -> live_thread (runtime k1) t -> get_by_index (m_channels (runtime k1)) i = Some ch ->
  session_of ch = Some s -> get_handle ch = h -> get_by_index (m_threads (runtime k1)) (service_thread x) = Some ts ->
  twp (begin_call i t (service_thread x);;
       (if bool_decide (service_thread x <> t) then
          set_state t USER_THREAD_STATE_BLOCKED;; set_current_thread (Some (service_thread x))
        else mret tt);;
       mret STATUS_OK)
    (fun st k2 => st = STATUS_OK /\ view_of (runtime k2) = accept_call t (view_of (runtime k1)) h s x (m_state ts)) k1.
Proof.
  intros Hr1 Hl Hch Hs Hh Hts. unfold accept_call. cbv zeta.
  eapply twp_seq; [by apply (begin_call_shows i ch s t (service_thread x) ts)|]. intros [] k2 [K2 E2]. rewrite Hh in E2.
  rewrite <- E2. clear E2. case_bool_decide as Hne.
  - rewrite decide_False by done. apply twp_bind.
    eapply twp_seq; [apply set_state_shows; [apply K2|by eapply live_thread_keeps|done]|]. intros [] k3 [[K3 E3] _].
    assert (K13 : keeps k1 k3) by eauto with kernel.
    eapply twp_mono; [apply set_current_thread_shows; [apply K3|eapply live_thread_keeps; [exact K13|by exists ts]]|].
    intros [] k4 [_ E4]. apply twp_ret. by rewrite E4, E3.
  - rewrite decide_True by done. by apply twp_ret, twp_ret.
Qed.

Lemma rpc_call_answers d :
  (forall x ts sq, get_by_index (m_threads (runtime k)) (service_thread x) = Some ts ->
     get_by_index (m_processes (runtime k)) (service_process x) = Some sq ->
     d x = delivery_status (m_address_space q) (m_address_space sq) (host k) x (argument1 c) (argument2 c)
             (context_stack_pointer (m_user_context ts))) ->
  twp (rpc_call t p c) (answers t p
    (if decide (argument0 c = 0 \/ argument1 c = 0 \/ argument2 c = 0 \/ RINGOS_RPC_MAX_REQUEST_SIZE < argument2 c)
     then answered STATUS_INVALID_ARGUMENT else call_session (argument0 c) d) k) k.
Proof.
  intros Hd. unfold rpc_call. rewrite !eqb0_cases, !orb_decide, if_decide. cbv zeta.
  destruct (decide ((_ \/ _) \/ _)) as [|Hargs]; [rewrite decide_True by tauto; apply twp_ret, answers_now|].
  destruct (Z.ltb_spec RINGOS_RPC_MAX_REQUEST_SIZE (argument2 c)) as [Hbig|Hsmall].
  { rewrite decide_True by tauto. apply twp_ret, answers_now. }
  rewrite decide_False by lia. apply (session_answers (argument0 c) _ (fun i channel =>
    match m_endpoint channel with None => mret STATUS_PEER_CLOSED | Some e => _ end)); [intros st Hst; by apply step_call_bad|].
  intros i ch s Hi Hch Hs Hh Hown He Ecall. rewrite He.
  destruct (endpoint_lookup _ _ Hr (channel_endpoint _ _ _ (wf_channel _ Hr i ch Hch) _ He)) as [e Hx].
  pose proof (wf_endpoint _ Hr _ e Hx) as Hew.
  assert (Hsv : services (view_of (runtime k)) !! session_service s = service_of e) by (cbn; by rewrite services_lookup, Hx).
  apply twp_bind. eapply twp_read_endpoint; [exact Hx|]. destruct (m_is_in_use e) eqn:Huse.
  2: { rewrite (endpoint_unused _ _ _ Hew Huse). apply twp_ret. eapply step_call_closed; [exact Hown|].
    rewrite Hsv. intros x Hx'. apply service_in_use in Hx'. congruence. }
  destruct (endpoint_service _ _ _ Hew Huse) as (x & Ex & _ & Ht & Hpr & Hb & [sq Hsq] & [ts Hts]). rewrite Ex in Hsv.
  rewrite Ht. apply twp_bind, get_state_safe; [by exists ts|]. intros ts' Hts'. rewrite Hts in Hts'. injection Hts' as <-.
  pose proof (thread_state_view _ _ _ Hts) as Hstate. case_bool_decide as Hex.
  { apply twp_ret. eapply step_call_closed; [exact Hown|]. rewrite Hsv. intros ? [= <-]. unfold exited. by rewrite Hstate, Hex. }
  assert (Hne : ~ exited (view_of (runtime k)) (service_thread x)) by (unfold exited; rewrite Hstate; congruence).
  rewrite (not_busy_idle i ch s) by done. cbn [negb orb]. destruct (m_is_busy e) eqn:Hbe; cbn [orb].
  { apply twp_ret. eapply step_call_busy; [done..|]. by left. }
  case_bool_decide as Hcall. { apply twp_ret. eapply step_call_busy; [done..|]. by right. }
  assert (Hsize : 0 < argument2 c <= RINGOS_RPC_MAX_REQUEST_SIZE) by (split; [|done]; destruct Hc; unfold u64_ok in *; lia).
  eapply twp_seq; [by apply (prepare_server_thread_shows e x _ ts p q sq); try tauto|].
  intros st k1 [-> Htab]. rewrite <- (Hd x ts sq Hts Hsq). destruct (Z.eqb_spec (d x) STATUS_OK) as [Hok|Hbad]; cbn [negb].
  2: { apply twp_ret. unfold answers. rewrite (proj2 (proj1 Htab)). by eapply step_call_refused. }
  destruct Htab as ([K1 E1] & Ech & _ & _).
  destruct (live_thread_keeps k k1 (service_thread x) K1) as [ts1 Hts1]; [by exists ts|].
  assert (Hsame : m_state ts1 = m_state ts) by (pose proof (thread_state_view _ _ _ Hts1) as E; rewrite E1 in E; congruence).
  eapply twp_mono; [apply (accept_call_shows i ch s x ts1 (argument0 c)); [apply K1|eapply live_thread_keeps, own_live; exact K1|by rewrite Ech|done..]|].
  intros st k2 [-> E2]. unfold answers. rewrite E2, E1, Hsame. by apply step_call.
Qed.

Lemma complete_call_answers st0 : twp (complete_call t st0) (answers t p (end_call st0) k) k.
Proof.
  apply twp_bind, twp_gets. destruct (pending_channel_of _ _) as [i|] eqn:Ei.
  2: { apply twp_ret, step_end_none. by apply no_pending_idle. }
  destruct (pending_serves _ _ _ Hr Ei) as (ch & s & a & Hch & Hs & Hsrv & Hcl & Ha & Hserves).
  apply twp_bind. eapply twp_read_at; [exact Hch|]. cbv zeta. rewrite Hcl.
  eapply twp_seq; [by apply (finish_call_shows i ch s t)|]. intros [] k1 [K1 E1]. unfold answers.
  case_bool_decide as Hself.
  { apply twp_ret. rewrite E1. injection Hself as ->. exact (step_end_self _ _ _ st0 _ _ _ Hserves eq_refl). }
  eapply twp_seq; [apply wake_client_shows; [apply K1|by eapply live_thread_keeps]|]. intros [] k2 [K2 E2].
  eapply twp_seq; [apply set_current_thread_shows; [apply K2|eapply live_thread_keeps; [exact K2|by eapply live_thread_keeps]]|].
  intros [] k3 [_ E3]. apply twp_ret. rewrite E3, E2, E1.
  refine (step_end _ _ _ st0 _ _ _ Hserves _). cbn. congruence.
Qed.

(** ** Exit *)

Lemma fail_pending_call_shows st0 :
  twp (fail_pending_call t st0)
    (fun _ k1 => (keeps k k1 /\ m_current_thread (runtime k1) = Some t) /\ fails_call t (view_of (runtime k)) (view_of (runtime k1))) k.
Proof.
  apply twp_and.
  { eapply twp_mono; [by apply fail_pending_call_safe|]. intros st k1 [K1 E1]. by rewrite E1. }
  apply twp_bind, twp_gets. destruct (pending_channel_of _ _) as [i|] eqn:Ei.
  2: { apply twp_ret, fails_none. by apply no_pending_idle. }
  destruct (pending_serves _ _ _ Hr Ei) as (ch & s & a & Hch & Hs & Hsrv & Hcl & Ha & Hserves).
  apply twp_bind. eapply twp_read_at; [exact Hch|]. cbv zeta. rewrite Hcl.
  eapply twp_seq; [by apply (cancel_call_shows i ch s)|]. intros [] k1 [K1 E1]. case_bool_decide as Hself; cbn [negb].
  { apply twp_bind, twp_ret, twp_ret. rewrite E1. injection Hself as ->. exact (fails_self _ _ _ _ _ Hserves eq_refl). }
  eapply twp_seq; [apply wake_client_shows; [apply K1|by eapply live_thread_keeps]|]. intros [] k2 [K2 E2].
  apply twp_ret. rewrite E2, E1. refine (fails_other _ _ _ _ _ Hserves _). cbn. congruence.
Qed.

Lemma clear_services l :
  services_of ((fun e => if bool_decide (m_owner_thread e = Some t) then clear_endpoint else e) <$> l)
  = filter (fun x => service_thread (snd x) <> t) (services_of l).
Proof.
  apply map_eq. intros i. apply option_eq. intros x. rewrite map_lookup_filter_Some, !services_lookup, list_lookup_fmap.
  destruct (l !! i) as [e|]; cbn; [|split; [done|by intros []]].
  assert (Ht : forall y, service_of e = Some y -> m_owner_thread e = Some (service_thread y)).
  { unfold service_of. destruct (m_owner_process e), (m_owner_thread e), (m_is_in_use e); try done. by intros y [= <-]. }
  case_bool_decide as Hown.
  - split; [done|]. intros [Hx%Ht Hne]. congruence.
  - split; [|by intros []]. intros Hx. split; [done|]. apply Ht in Hx. congruence.
Qed.

Lemma clear_endpoints_shows k1 : runtime_wf (runtime k1) ->
  twp (clear_endpoints_owned_by t) (fun _ k2 => shows k1
    (set_services (view_of (runtime k1)) (filter (fun x => service_thread (snd x) <> t) (services (view_of (runtime k1))))) k2 /\
    m_current_thread (runtime k2) = m_current_thread (runtime k1)) k1.
Proof.
  intros Hr1. apply twp_and; [apply twp_and|].
  - eapply twp_mono; [by apply clear_endpoints_owned_by_safe|eauto with kernel].
  - apply twp_set_runtime. unfold view_of, set_services. cbn. by rewrite clear_services.
  - by apply twp_set_runtime.
Qed.

Lemma schedule_shows k1 : runtime_wf (runtime k1) -> m_current_thread (runtime k1) = Some t ->
  twp schedule_next_ready_thread (fun _ k2 => reschedules (view_of (runtime k1)) (view_of (runtime k2))) k1.
Proof.
  intros Hr1 Hcur1. pose proof (wf_current _ Hr1 t Hcur1) as Hl. apply twp_bind, twp_gets, twp_bind, twp_gets. rewrite Hcur1.
  pose proof (next_ready_in_view _ t Hr1 Hl) as Hn. pose proof (next_ready_live (runtime k1) (Some t)) as Hlive.
  destruct (next_ready _ _) as [s|].
  - eapply twp_seq; [apply set_current_thread_shows; [done|by apply Hlive]|]. intros [] k2 [_ E2]. apply twp_ret. rewrite E2.
    by apply reschedules_to.
  - apply twp_bind, twp_set_runtime, twp_ret. cbn [runtime with_runtime]. rewrite view_with_current. by apply reschedules_none.
Qed.

Lemma terminate_answers ex st0 :
  twp (terminate_current_thread ex st0) (fun _ k' => kernel_step t p (view_of (runtime k)) exit_thread STATUS_OK (view_of (runtime k'))) k.
Proof.
  unfold terminate_current_thread. apply twp_bind, twp_gets. rewrite Hcur. unfold handle_thread_exit.
  apply twp_bind. eapply twp_seq; [apply fail_pending_call_shows|]. intros st k1 ((K1 & C1) & Hfail).
  eapply twp_mono; [apply clear_endpoints_shows, K1|]. intros [] k2 [[K2 E2] C2]. rewrite C1 in C2.
  assert (Hl2 : live_thread (runtime k2) t) by (eapply live_thread_keeps; [exact K2|]; eapply live_thread_keeps, own_live; exact K1).
  eapply twp_seq; [apply set_state_shows; [apply K2|exact Hl2|done]|]. intros [] k3 [[K3 E3] C3]. rewrite C2 in C3.
  destruct (live_thread_keeps _ _ _ K3 Hl2) as [w Hw].
  apply (twp_seq _ _ _ (fun _ k4 => shows k3 (view_of (runtime k3)) k4 /\ m_current_thread (runtime k4) = Some t)).
  { assert (Hok : twp (update t (fun t => with_exit t ex)) (ok_current k3) k3).
    { apply keeps_update_thread; [apply K3|by exists w|]. intros y _ []. split; [done|by constructor]. }
    apply twp_and; [|eapply twp_mono; [exact Hok|]; intros ? ? [_ E]; congruence].
    apply (update_thread_same _ _ w); [exact Hw|done..|]. eapply twp_mono; [exact Hok|eauto with kernel]. }
  intros [] k4 [[K4 E4] C4]. eapply twp_mono; [apply schedule_shows; [apply K4|exact C4]|]. intros b k5 Hsched.
  eapply step_exit; [exact Hfail|]. rewrite E4, E3, E2 in Hsched. exact Hsched.
Qed.
End handlers.

(** ** The dispatcher *)

Section dispatcher.
Context `{Target} (t p : nat) (c : user_syscall_context) (k : kernel) (u : thread) (q : process).
Context (Hr : runtime_wf (runtime k)) (Hcur : m_current_thread (runtime k) = Some t).
Context (Hu : get_by_index (m_threads (runtime k)) t = Some u) (Hup : m_process u = Some p).
Context (Hq : get_by_index (m_processes (runtime k)) p = Some q) (Hc : syscall_context_ok c).
Context (Hn : m_next_handle_value (runtime k) < 2 ^ 64 - 1).

(** The user context of the trap, in the thread. *)
Definition entered : thread := set_user_context u (make_thread_context_from_syscall c).
Definition at_dispatch : kernel :=
  with_runtime k (with_threads (runtime k) (update_at (m_threads (runtime k)) t entered)).

Lemma at_dispatch_wf : runtime_wf (runtime at_dispatch).
Proof. eapply update_thread_wf; [done|exact Hu|done|]. destruct (wf_thread _ Hr t u Hu). by constructor. Qed.

Lemma at_dispatch_view : view_of (runtime at_dispatch) = view_of (runtime k).
Proof.
  etrans; [by apply (view_update_thread _ t u entered)|]. apply set_thread_same. exact (thread_state_view _ _ _ Hu).
Qed.

Lemma at_dispatch_thread : get_by_index (m_threads (runtime at_dispatch)) t = Some entered.
Proof. etrans; [exact (get_update_at _ t t entered u Hu)|]. by rewrite decide_True. Qed.

Lemma stack_pointer_at_dispatch s ts : get_by_index (m_threads (runtime at_dispatch)) s = Some ts ->
  context_stack_pointer (m_user_context ts) = stack_pointer_of k t c s.
Proof.
  intros Hs. assert (E : (if decide (t = s) then Some entered else get_by_index (m_threads (runtime k)) s) = Some ts).
  { etrans; [symmetry; exact (get_update_at _ t s entered u Hu)|exact Hs]. }
  unfold stack_pointer_of. destruct (decide (t = s)) as [<-|Hne].
  - rewrite decide_True by done. by injection E as <-.
  - rewrite decide_False by done. by rewrite E.
Qed.

(** The request of a trap whose number is one of those of [kernel/rpc.cpp]. *)
Lemma rpc_dispatch_answers :
  syscall_number c ∈ [SYSCALL_RPC_REGISTER; SYSCALL_RPC_OPEN; SYSCALL_RPC_CALL; SYSCALL_RPC_CLOSE; SYSCALL_RPC_COMPLETE] ->
  twp (rpc_dispatch_syscall t c) (answers t p (request_of k t p c) at_dispatch) at_dispatch.
Proof.
  intros Hnum. pose proof at_dispatch_wf as Hr1. pose proof at_dispatch_thread as Hu1.
  apply twp_bind. eapply twp_read_at; [exact Hu1|]. change (m_process entered) with (m_process u). rewrite Hup.
  unfold request_of. cbv zeta. set_unfold in Hnum.
  destruct Hnum as [E|[E|[E|[E|[E|[]]]]]]; rewrite E; cbn -[rpc_register rpc_open rpc_call rpc_close complete_call answers].
  - by eapply (rpc_register_answers t p c at_dispatch).
  - by eapply (rpc_open_answers t p c at_dispatch).
  - eapply (rpc_call_answers t p c at_dispatch); [done..|]. intros x ts sq Hts Hsq.
    rewrite (stack_pointer_at_dispatch _ _ Hts). unfold address_space_of. change (m_processes (runtime at_dispatch)) with (m_processes (runtime k)) in Hsq.
    by rewrite Hq, Hsq.
  - by eapply (rpc_close_answers t p c at_dispatch).
  - by eapply (complete_call_answers t p at_dispatch).
Qed.

Lemma dispatch_answers : twp (dispatch_syscall c) (answers t p (request_of k t p c) k) k.
Proof.
  unfold dispatch_syscall. apply twp_bind, twp_gets. rewrite Hcur. apply twp_bind. eapply twp_read_at; [exact Hu|]. rewrite Hup.
  apply twp_bind. eapply twp_update; [exact Hu|]. fold entered. change (with_runtime k _) with at_dispatch.
  pose proof at_dispatch_wf as Hr1. pose proof at_dispatch_thread as Hu1.
  eapply (twp_mono _ (answers t p (request_of k t p c) at_dispatch)); [|intros st k'; unfold answers; by rewrite at_dispatch_view].
  destruct (Z.eqb_spec (syscall_number c) SYSCALL_DEBUG_LOG) as [E1|N1].
  { unfold request_of, log_request. cbv zeta. rewrite decide_True by done. rewrite eqb0_cases, if_decide.
    destruct (decide (argument0 c = 0)); [apply twp_ret, answers_now|].
    eapply twp_seq; [eapply copy_user_string_reads; [done|exact Hu1|exact Hup|exact Hq|apply Hc|unfold message_buffer_size; lia]|].
    intros [st bs] k1 [-> Hs]. unfold address_space_of. rewrite Hq. change (host at_dispatch) with (host k) in Hs. cbn [fmap option_fmap option_map default].
    destruct (user_string _ _ _ _) as [st'|name]; cbn [fst snd] in Hs.
    - destruct Hs as [-> Hst]. rewrite (proj2 (Z.eqb_neq _ _) Hst). apply twp_ret, answers_now.
    - destruct Hs as [-> _]. cbn [Z.eqb STATUS_OK negb]. apply twp_bind, twp_ret. exact (step_answered _ _ _ _). }
  destruct (Z.eqb_spec (syscall_number c) SYSCALL_THREAD_EXIT) as [E2|N2].
  { unfold request_of. cbv zeta. rewrite E2. apply twp_bind.
    eapply twp_mono; [by apply (terminate_answers t p at_dispatch entered)|]. intros b k' Hk'. apply twp_ret. exact Hk'. }
  case_bool_decide as Hnum; [by apply rpc_dispatch_answers|].
  unfold request_of, map_request. cbv zeta. set_unfold in Hnum.
  rewrite (decide_False _ _ N1), (decide_False _ _ N2), !(decide_False (P := syscall_number c = _)) by tauto.
  destruct (Z.eqb_spec (syscall_number c) SYSCALL_DEVICE_MEMORY_MAP) as [E3|N3]; [|rewrite decide_False by done; apply twp_ret, answers_now].
  rewrite decide_True by done. rewrite !eqb0_cases, orb_decide, if_decide. destruct (decide _); apply twp_ret, answers_now.
Qed.
End dispatcher.

(** A system call keeps the kernel well formed and is a step. *)
Lemma dispatch_shows `{Target} t u p c k :
  syscall_ready k -> syscall_context_ok c -> m_current_thread (runtime k) = Some t ->
  get_by_index (m_threads (runtime k)) t = Some u -> m_process u = Some p ->
  twp (dispatch_syscall c) (fun st k' => preserves k k' /\ answers t p (request_of k t p c) k st k') k.
Proof.
  intros [Hr Hn] Hc Hcur Hu Hup. destruct (thread_process _ _ _ _ (wf_thread _ Hr t u Hu)) as (p' & Hp' & q & Hq).
  rewrite Hup in Hp'. injection Hp' as <-. apply twp_and; [by apply dispatch_syscall_preserves|by eapply dispatch_answers].
Qed.

(** C6: Every system call of a thread, in a well-formed kernel whose handle counter has not run
    out, returns, and its status and its effect on the threads, services and sessions of the
    kernel are a step of the abstract specification (KernelSteps) for the request the thread
    made: registering a name, opening, calling, closing and completing a session, exiting,
    logging. *)
Theorem dispatch_syscall_refines `{Target} t u p c k :
  syscall_ready k -> syscall_context_ok c -> m_current_thread (runtime k) = Some t ->
  get_by_index (m_threads (runtime k)) t = Some u -> m_process u = Some p ->
  exists status k', dispatch_syscall c k = Returned status k' /\ runtime_wf (runtime k') /\
    answers t p (request_of k t p c) k status k'.
Proof.
  intros Hk Hc Hcur Hu Hup.
  destruct (proj1 (twp_returned _ _ _) (dispatch_shows t u p c k Hk Hc Hcur Hu Hup)) as (st & k' & E & HP & HA).
  exists st, k'. split; [exact E|]. split; [apply HP|exact HA].
Qed.

Lemma dispatch_syscall_refines_witness :
  exists status k', dispatch_syscall (H := x64_target) call_context sample_opened = Returned status k' /\ runtime_wf (runtime k') /\
    answers 0 0 (request_of (H := x64_target) sample_opened 0 0 call_context) sample_opened status k'.
Proof.
  apply (dispatch_syscall_refines (H := x64_target) 0%nat (thread_of sample_opened 0) 0%nat call_context sample_opened).
  - exact sample_opened_ready.
  - apply sample_context_ok; words.
  - vm_compute. reflexivity.
  - vm_compute. reflexivity.
  - vm_compute. reflexivity.
Defined.

(** The request of that call, as the specification sees it: session 5 is the
    caller's, and the request can be delivered to its service. *)
Example sample_call_request :
  match request_of (H := x64_target) sample_opened 0 0 call_context with
  | call_session h d =>
      h = 5 /\ d <$> (sessions (view_of (runtime sample_opened)) !! h ≫= fun s => services (view_of (runtime sample_opened)) !! session_service s)
        = Some STATUS_OK
  | _ => False
  end.
Proof. vm_compute. done. Qed.
