(* ===== verification/Confinement.v ===== *)
(** What a system call can do to the others: the sessions of other processes, the
    services and the states of other threads, beyond what the caller's own
    sessions and the calls it serves entitle it to. *)
From stdpp Require Import gmap.
From S2P Require Import Prelude AddressSpace UserMemory KernelObjectPool RuntimeTypes UserRuntime Rpc Syscalls RuntimeInvariant KernelSafety RpcSafety SyscallSafety KernelSamples RpcSpecs KernelSpecs KernelView KernelSteps KernelRefinement SyscallRefinement.
#[local] Open Scope Z_scope.

Section confined.
(** The thread and process that make the call, the threads whose call it serves,
    and the sessions those calls belong to. *)
Context (t p : nat) (callers : nat -> Prop) (served : Z -> Prop).

(** The state of another thread: it changes only by being scheduled, or by the
    end of a call it made to [t]. *)
Definition thread_may_become (u : nat) (s s' : user_thread_state) : Prop :=
  s' = s \/ (s = USER_THREAD_STATE_READY /\ s' = USER_THREAD_STATE_RUNNING) \/
  (callers u /\ (s' = USER_THREAD_STATE_READY \/ s' = USER_THREAD_STATE_RUNNING)).

(** A session of another process: it stays, with its service; its call can only
    be ended, and only by the thread that serves it. *)
Definition session_may_become (h : Z) (s s' : session) : Prop :=
  session_client s' = session_client s /\ session_service s' = session_service s /\
  (session_call s' = session_call s \/ (served h /\ session_call s' = None)).

(** Nothing of the others is lost or forged. *)
Record confined (v v' : view) : Prop := {
  confined_threads u s : u <> t -> thread_states v !! u = Some s ->
    exists s', thread_states v' !! u = Some s' /\ thread_may_become u s s';
  confined_sessions h s : sessions v !! h = Some s -> session_client s <> p ->
    exists s', sessions v' !! h = Some s' /\ session_may_become h s s';
  confined_clients h s' : sessions v' !! h = Some s' -> session_client s' <> p ->
    exists s, sessions v !! h = Some s /\ session_client s = session_client s';
  confined_services i x : services v !! i = Some x -> service_thread x <> t ->
    exists b, services v' !! i = Some (mark_busy b x);
  confined_servers i x' : services v' !! i = Some x' -> service_thread x' <> t ->
    exists b x, services v !! i = Some x /\ x' = mark_busy b x;
}.

Lemma thread_may_stay u s : thread_may_become u s s.
Proof. by left. Qed.

Lemma thread_may_trans u s s1 s2 : thread_may_become u s s1 -> thread_may_become u s1 s2 -> thread_may_become u s s2.
Proof.
  unfold thread_may_become. intros [->|[[-> ->]|[Hc Hs]]]; [done| |].
  - intros [->|[[? ->]|H]]; [by right; left|done|by right; right].
  - intros [->|[[? ->]|H]]; right; right; [done|split; [done|by right]|done].
Qed.

Lemma session_may_stay h s : session_may_become h s s.
Proof. split_and!; [done..|by left]. Qed.

Lemma mark_busy_same x : x = mark_busy (service_busy x) x.
Proof. by destruct x. Qed.

Lemma confined_refl v : confined v v.
Proof.
  constructor.
  - intros u s _ H. exists s. split; [done|apply thread_may_stay].
  - intros h s H _. exists s. split; [done|apply session_may_stay].
  - intros h s H _. by exists s.
  - intros i x H _. exists (service_busy x). rewrite H. f_equal. apply mark_busy_same.
  - intros i x H _. exists (service_busy x), x. split; [done|apply mark_busy_same].
Qed.

Lemma confined_trans v1 v2 v3 : confined v1 v2 -> confined v2 v3 -> confined v1 v3.
Proof.
  intros [T1 S1 C1 X1 Y1] [T2 S2 C2 X2 Y2]. constructor.
  - intros u s Hu Hs. destruct (T1 u s Hu Hs) as (s1 & Hs1 & B1). destruct (T2 u s1 Hu Hs1) as (s2 & Hs2 & B2).
    exists s2. split; [done|]. by eapply thread_may_trans.
  - intros h s Hs Hc. destruct (S1 h s Hs Hc) as (s1 & Hs1 & E1 & D1 & B1).
    destruct (S2 h s1 Hs1) as (s2 & Hs2 & E2 & D2 & B2); [congruence|]. exists s2. split; [done|].
    split_and!; [congruence..|]. destruct B1 as [B1|[]], B2 as [B2|[]]; [left; congruence|by right|right; split; congruence|by right].
  - intros h s Hs Hc. destruct (C2 h s Hs Hc) as (s1 & Hs1 & E1). destruct (C1 h s1 Hs1) as (s0 & Hs0 & E0); [congruence|].
    exists s0. split; congruence.
  - intros i x Hx Ht. destruct (X1 i x Hx Ht) as (b1 & H1). destruct (X2 i (mark_busy b1 x) H1 Ht) as (b2 & H2). by exists b2.
  - intros i x Hx Ht. destruct (Y2 i x Hx Ht) as (b & x1 & Hx1 & ->). destruct (Y1 i x1 Hx1 Ht) as (b0 & x0 & Hx0 & ->).
    by exists b, x0.
Qed.

(** ** The parts of a step *)

Lemma confined_set_thread v u s :
  u = t \/ (callers u /\ s = USER_THREAD_STATE_READY) \/
  (thread_states v !! u = Some USER_THREAD_STATE_READY /\ s = USER_THREAD_STATE_RUNNING) ->
  confined v (set_thread v u s).
Proof.
  intros Hu. destruct (confined_refl v) as [_ S C X Y]. constructor; [|exact S|exact C|exact X|exact Y]. intros w s0 Hw Hs0. cbn.
  destruct (decide (u = w)) as [<-|Hne].
  - rewrite lookup_insert_eq. exists s. split; [done|]. unfold thread_may_become. destruct Hu as [Hu|[[Hc ->]|[Hr ->]]]; [done| |].
    + right. right. split; [done|by left].
    + right. left. split; congruence.
  - rewrite lookup_insert_ne by done. exists s0. split; [done|apply thread_may_stay].
Qed.

(** Views that differ elsewhere. *)
Lemma confined_same v v' :
  thread_states v' = thread_states v -> sessions v' = sessions v -> services v' = services v -> confined v v'.
Proof. intros ET ES EX. destruct (confined_refl v). constructor; by rewrite ?ET, ?ES, ?EX. Qed.

Lemma confined_switch v s : running_thread v = Some t -> confined v (switch_to v s).
Proof.
  intros Hr. assert (Hp : confined v (preempt v s)).
  { unfold preempt. rewrite Hr. case_decide; [|apply confined_refl]. apply confined_set_thread. by left. }
  apply (confined_trans _ _ _ Hp). apply (confined_trans _ (set_running (preempt v s) (Some s))); [by apply confined_same|].
  unfold switch_to. cbv zeta. case_decide as Hs; [|apply confined_refl]. apply confined_set_thread. right. by right.
Qed.

(** A session of the caller opens, changes or closes; one it serves loses its call. *)
Lemma confined_session v h o :
  (forall s, sessions v !! h = Some s -> session_client s <> p -> exists s', o = Some s' /\ session_may_become h s s') ->
  (forall s', o = Some s' -> session_client s' <> p -> exists s, sessions v !! h = Some s /\ session_client s = session_client s') ->
  confined v (set_sessions v (partial_alter (fun _ => o) h (sessions v))).
Proof.
  intros Ho Hn. destruct (confined_refl v) as [T S C X Y]. constructor; [exact T| | |exact X|exact Y]; intros h' s; cbn;
    (destruct (decide (h = h')) as [<-|Hne]; [rewrite lookup_partial_alter_eq|rewrite lookup_partial_alter_ne by done]); auto.
Qed.

(** Whether a service is busy. *)
Lemma confined_busy v b i : confined v (set_services v (alter (mark_busy b) i (services v))).
Proof.
  destruct (confined_refl v) as [T S C X Y]. constructor; [exact T|exact S|exact C| |]; intros j x; cbn;
    (destruct (decide (i = j)) as [<-|Hne]; [rewrite lookup_alter_eq|rewrite lookup_alter_ne by done]); [|by auto| |by auto].
  - intros Hx _. exists b. by rewrite Hx.
  - intros (x0 & Hx & ->)%fmap_Some _. by exists b, x0.
Qed.

(** The services of the caller. *)
Lemma confined_own_services v m :
  (forall i x, service_thread x <> t -> m !! i = Some x <-> services v !! i = Some x) -> confined v (set_services v m).
Proof.
  intros Hm. destruct (confined_refl v) as [T S C X Y]. constructor; [exact T|exact S|exact C| |]; intros i x Hx Ht; cbn in *.
  - exists (service_busy x). rewrite <- mark_busy_same. by apply Hm.
  - exists (service_busy x), x. split; [by apply Hm|apply mark_busy_same].
Qed.

Lemma confined_begin v h s c : own_session p v h s -> confined v (begin_pending v h s c).
Proof.
  intros [Hs Hp]. eapply confined_trans; [apply (confined_session v h (Some (with_call s (Some c))))|exact (confined_busy (set_sessions v _) true _)].
  - intros s' Hs' Hc. congruence.
  - by intros s' [= <-].
Qed.

Lemma confined_end v h s : served h -> sessions v !! h = Some s -> confined v (end_pending v h s).
Proof.
  intros Hd Hs. eapply confined_trans; [apply (confined_session v h (Some (with_call s None)))|exact (confined_busy (set_sessions v _) false _)].
  - intros s' Hs' _. rewrite Hs in Hs'. injection Hs' as <-. eexists. split; [done|]. split_and!; [done..|by right].
  - intros s' [= <-] _. by exists s.
Qed.

Lemma confined_gone v : confined v (gone t v).
Proof.
  eapply confined_trans; [apply confined_own_services|by apply confined_set_thread; left].
  intros i x Hx. rewrite map_lookup_filter_Some. cbn. tauto.
Qed.

Lemma confined_accept v h s x state :
  running_thread v = Some t -> own_session p v h s -> confined v (accept_call t v h s x state).
Proof.
  intros Hr Hs. unfold accept_call. cbv zeta. eapply confined_trans; [by apply confined_begin|].
  case_decide; [apply confined_refl|]. eapply confined_trans; [by apply confined_set_thread; left|]. by apply confined_switch.
Qed.

Lemma confined_yields v v' : running_thread v = Some t -> yields t v v' -> confined v v'.
Proof. intros Hr [| |s]; [apply confined_refl..|by apply confined_switch]. Qed.

Lemma confined_reschedules v v' : running_thread v = Some t -> reschedules v v' -> confined v v'.
Proof. intros Hr [|s]; [by apply confined_same|by apply confined_switch]. Qed.
End confined.

(** ** Steps *)

(** The threads whose calls [t] serves, and their sessions. *)
Definition calls_to (t : nat) (v : view) (u : nat) : Prop := exists h s c, serves v t h s c /\ calling_thread c = u.
Definition served_by (t : nat) (v : view) (h : Z) : Prop := exists s c, serves v t h s c.

Definition confined_to (t p : nat) (v v' : view) : Prop := confined t p (calls_to t v) (served_by t v) v v'.

Section steps.
Context (t p : nat) (v : view) (Hr : running_thread v = Some t).

Lemma fails_call_confined v' : fails_call t v v' -> confined_to t p v v' /\ running_thread v' = Some t.
Proof.
  intros [Hi|h s c Hs Hc|h s c Hs Hc]; split; try done; pose proof Hs as (Hh & Hcall & _) || apply confined_refl.
  - apply confined_end; [by exists s, c|done].
  - eapply confined_trans; [apply confined_end; [by exists s, c|exact Hh]|].
    apply confined_set_thread. right. left. split; [by exists h, s, c|done].
Qed.

(** A call the thread serves ends. *)
Lemma ended_confined h s c st : serves v t h s c -> confined_to t p v (end_pending (set_thread v t st) h s).
Proof.
  intros Hs. eapply confined_trans; [apply confined_set_thread; by left|]. destruct Hs as (Hh & Hcall & Ht).
  apply confined_end; [by exists s, c|done].
Qed.

Lemma kernel_step_confined q st v' : kernel_step t p v q st v' -> confined_to t p v v'.
Proof.
  intros H. destruct H as [|v1 v2 Hf Hs| | |name cb cm i v' Hu Hi Hn Hy| | | | |name w i x h Hx He Hz Hw Hh Hn Ho| | | | |h d s x state Ho Hx Ht Hn Hb Hc Hd
    | | |h s Ho Hc| |st h s c Hs Hc|st h s c Hs Hc]; try apply confined_refl.
  - destruct (fails_call_confined v1 Hf) as [H1 Hr1]. eapply confined_trans; [exact H1|].
    eapply confined_trans; [apply confined_gone|]. by apply confined_reschedules.
  - eapply confined_trans; [|by eapply confined_yields; [|exact Hy]]. apply confined_own_services. intros j y Hy'.
    destruct (decide (i = j)) as [<-|Hne]; [|by rewrite lookup_insert_ne by done].
    rewrite lookup_insert_eq, Hn. split; [|done]. by intros [= <-].
  - apply (confined_session _ _ _ _ v h (Some _)); [congruence|]. by intros s [= <-].
  - by apply confined_accept.
  - destruct Ho as [Ho Hp]. apply (confined_session _ _ _ _ v h None); [congruence|done].
  - by eapply ended_confined.
  - eapply confined_trans; [by eapply ended_confined|].
    eapply confined_trans; [apply confined_set_thread; right; left; split; [by exists h, s, c|done]|]. by apply confined_switch.
Qed.
End steps.

(** C7: A system call of a thread returns, and leaves the others alone: every session of another
    process is still there with its client and service, and its call can only be ended, by the
    thread that serves it; no session appears for another process; the services of other threads
    are the same ones, up to being busy; and another thread changes state only by being
    scheduled when it was ready, or, when the caller serves its call, by becoming ready or
    running. *)
Theorem dispatch_syscall_confined `{Target} t u p c k :
  syscall_ready k -> syscall_context_ok c -> m_current_thread (runtime k) = Some t ->
  get_by_index (m_threads (runtime k)) t = Some u -> m_process u = Some p ->
  exists status k', dispatch_syscall c k = Returned status k' /\
    confined_to t p (view_of (runtime k)) (view_of (runtime k')).
Proof.
  intros Hk Hc Hcur Hu Hup.
  destruct (proj1 (twp_returned _ _ _) (dispatch_shows t u p c k Hk Hc Hcur Hu Hup)) as (st & k' & E & _ & HA).
  exists st, k'. split; [exact E|]. by eapply kernel_step_confined, HA.
Qed.

Lemma dispatch_syscall_confined_witness :
  exists status k', dispatch_syscall (H := x64_target) call_context sample_opened = Returned status k' /\
    confined_to 0 0 (view_of (runtime sample_opened)) (view_of (runtime k')).
Proof.
  apply (dispatch_syscall_confined (H := x64_target) 0%nat (thread_of sample_opened 0) 0%nat call_context sample_opened).
  - exact sample_opened_ready.
  - apply sample_context_ok; words.
  - vm_compute. reflexivity.
  - vm_compute. reflexivity.
  - vm_compute. reflexivity.
Defined.
