(* ===== verification/ViewInvariant.v ===== *)
(** An invariant of the abstract kernel: as long as the running thread is not
    blocked, a thread is blocked exactly while a call it made to another thread
    is pending, it waits for one call at most, and a busy service has a call. *)
From stdpp Require Import gmap.
From S2P Require Import Prelude RuntimeTypes KernelView KernelSteps.
#[local] Open Scope Z_scope.

Definition blocked (v : view) (t : nat) : Prop := thread_states v !! t = Some USER_THREAD_STATE_BLOCKED.

(** [t] waits for the call of session [h], which another thread serves. *)
Definition waits (v : view) (t : nat) (h : Z) : Prop :=
  exists s c, sessions v !! h = Some s /\ session_call s = Some c /\ calling_thread c = t /\ serving_thread c <> t.

Record accounted (v : view) : Prop := {
  blocked_waits t : blocked v t <-> exists h, waits v t h;
  waits_once t h h' : waits v t h -> waits v t h' -> h = h';
  not_interrupted_blocked h s c :
    sessions v !! h = Some s -> session_call s = Some c -> interrupted_state c <> USER_THREAD_STATE_BLOCKED;
  busy_called i x : services v !! i = Some x -> service_busy x = true ->
    exists h s, sessions v !! h = Some s /\ session_service s = i /\ session_call s <> None;
}.

(** The thread that runs can go on. *)
Definition runnable (v : view) : Prop := exists t, running_thread v = Some t /\ ~ blocked v t.

(** ** Who is blocked *)

Lemma blocked_set_thread v t s u :
  blocked (set_thread v t s) u <-> if decide (t = u) then s = USER_THREAD_STATE_BLOCKED else blocked v u.
Proof.
  unfold blocked. cbn. destruct (decide (t = u)) as [<-|Hne].
  - rewrite lookup_insert_eq. split; [by intros [= ->]|by intros ->].
  - by rewrite lookup_insert_ne.
Qed.

Lemma blocked_preempt v s u : blocked (preempt v s) u <-> blocked v u.
Proof.
  unfold preempt. destruct (running_thread v) as [c|]; [|done]. case_decide as Hc; [|done].
  rewrite blocked_set_thread. case_decide as Hu; [|done]. subst u. destruct Hc as [_ Hc]. unfold blocked. rewrite Hc. by split.
Qed.

Lemma blocked_switch v s u : blocked (switch_to v s) u <-> blocked v u.
Proof.
  unfold switch_to. cbv zeta. rewrite <- (blocked_preempt v s u). case_decide as Hs; [|done].
  rewrite blocked_set_thread. case_decide as Hu; [|done]. subst u. unfold blocked. cbn in *. rewrite Hs. by split.
Qed.

Lemma switch_sessions v s : sessions (switch_to v s) = sessions v /\ services (switch_to v s) = services v /\
  running_thread (switch_to v s) = Some s.
Proof.
  unfold switch_to, preempt. cbv zeta. destruct (running_thread v) as [c|]; repeat case_decide; done.
Qed.

(** ** Steps that keep the invariant *)

(** Who waits depends on the sessions only. *)
Lemma waits_sessions v v' t h : sessions v' = sessions v -> waits v' t h <-> waits v t h.
Proof. intros E. unfold waits. by rewrite E. Qed.

Lemma accounted_ext v v' :
  accounted v -> sessions v' = sessions v -> (forall t, blocked v' t <-> blocked v t) ->
  (forall i x, services v' !! i = Some x -> service_busy x = true -> exists y, services v !! i = Some y /\ service_busy y = true) ->
  accounted v'.
Proof.
  intros Ha Es Hb Hs. constructor.
  - intros t. rewrite Hb, (blocked_waits _ Ha). by setoid_rewrite (waits_sessions v v' t _ Es).
  - intros t h h'. rewrite !(waits_sessions v v' t _ Es). apply (waits_once _ Ha).
  - rewrite Es. apply (not_interrupted_blocked _ Ha).
  - intros i x Hx Hbusy. destruct (Hs i x Hx Hbusy) as (y & Hy & Hbusy'). rewrite Es. by apply (busy_called _ Ha i y).
Qed.

Lemma accounted_switch v s : accounted v -> accounted (switch_to v s).
Proof.
  intros Ha. destruct (switch_sessions v s) as (E1 & E2 & _). apply (accounted_ext v); [done|done|apply blocked_switch|].
  rewrite E2. by eexists.
Qed.

(** A session whose call stays as it is, or that has none, does not matter. *)
Lemma accounted_sessions v v' :
  accounted v -> thread_states v' = thread_states v -> services v' = services v ->
  (forall h s, session_call s <> None -> sessions v' !! h = Some s <-> sessions v !! h = Some s) -> accounted v'.
Proof.
  intros Ha Et Ev Hs.
  assert (Hw : forall t h, waits v' t h <-> waits v t h).
  { intros t h. unfold waits. split; intros (s & c & H1 & H2 & H3); exists s, c; (split; [|done]); apply Hs in H1; congruence. }
  constructor.
  - intros t. unfold blocked. rewrite Et, (blocked_waits _ Ha t). by setoid_rewrite Hw.
  - intros t h h'. rewrite !Hw. apply (waits_once _ Ha).
  - intros h s c H1 H2. apply (not_interrupted_blocked _ Ha h s c); [|done]. apply Hs; congruence.
  - rewrite Ev. intros i x Hx Hb. destruct (busy_called _ Ha i x Hx Hb) as (h & s & H1 & H2 & H3). exists h, s.
    split; [|done]. by apply Hs.
Qed.

(** The call of a session begins. *)
Lemma accounted_begin v v' h s c :
  accounted v -> sessions v !! h = Some s -> session_call s = None -> ~ blocked v (calling_thread c) ->
  interrupted_state c <> USER_THREAD_STATE_BLOCKED ->
  sessions v' = <[h := with_call s (Some c)]> (sessions v) ->
  services v' = alter (mark_busy true) (session_service s) (services v) ->
  (forall t, blocked v' t <-> blocked v t \/ (t = calling_thread c /\ serving_thread c <> t)) ->
  accounted v'.
Proof.
  intros Ha Hh Hn Hnb Hi Es Ev Hb.
  assert (Hw : forall t h', waits v' t h' <-> waits v t h' \/ (h' = h /\ t = calling_thread c /\ serving_thread c <> t)).
  { intros t h'. unfold waits. rewrite Es. setoid_rewrite lookup_insert_Some. split.
    - intros (s' & c' & [[<- <-]|[Hne H1]] & H2 & H3 & H4); [|left; by exists s', c'].
      right. cbn in H2. injection H2 as <-. by subst t.
    - intros [(s' & c' & H1 & H2 & H3 & H4)|(-> & -> & H)].
      + exists s', c'. split; [|done]. right. split; [|done]. intros <-. congruence.
      + eexists _, c. split; [by left|]. done. }
  constructor.
  - intros t. rewrite Hb, (blocked_waits _ Ha). setoid_rewrite Hw. split.
    + intros [[h' H]|H]; [exists h'; by left|exists h; by right].
    + intros [h' [H|(_ & H)]]; [left; by exists h'|by right].
  - intros t h1 h2. rewrite !Hw. intros [H1|(-> & -> & H1)] [H2|(-> & E2 & H2)]; [by eapply waits_once| | |done].
    + exfalso. apply Hnb. rewrite <- E2. apply (blocked_waits _ Ha). by exists h1.
    + exfalso. apply Hnb. apply (blocked_waits _ Ha). by exists h2.
  - intros h' s' c'. rewrite Es, lookup_insert_Some. intros [[<- <-]|[_ H1]] H2; [cbn in H2; congruence|].
    by eapply not_interrupted_blocked.
  - intros i x. rewrite Ev, lookup_alter_Some, Es. intros [(<- & y & Hy & ->)|[Hne Hx]] Hbusy.
    + exists h, (with_call s (Some c)). split; [by rewrite lookup_insert_eq|done].
    + destruct (busy_called _ Ha i x Hx Hbusy) as (h' & s' & H1 & H2 & H3). exists h', s'. split; [|done].
      rewrite lookup_insert_ne; [done|]. intros <-. congruence.
Qed.

(** The call of a session ends; its caller no longer waits. *)
Lemma accounted_end v v' h s c :
  accounted v -> sessions v !! h = Some s -> session_call s = Some c ->
  sessions v' = <[h := with_call s None]> (sessions v) ->
  services v' = alter (mark_busy false) (session_service s) (services v) ->
  (forall t, blocked v' t <-> blocked v t /\ ~ (t = calling_thread c /\ serving_thread c <> t)) ->
  accounted v'.
Proof.
  intros Ha Hh Hc Es Ev Hb.
  assert (Hw : forall t h', waits v' t h' <-> waits v t h' /\ h' <> h).
  { intros t h'. unfold waits. rewrite Es. setoid_rewrite lookup_insert_Some. split.
    - intros (s' & c' & [[<- <-]|[Hne H1]] & H2 & H3); [done|]. split; [by exists s', c'|done].
    - intros [(s' & c' & H1 & H2 & H3) Hne]. exists s', c'. split; [by right|done]. }
  assert (Hc' : forall t, waits v t h <-> t = calling_thread c /\ serving_thread c <> t).
  { intros t. unfold waits. split; [|intros [-> H]; by exists s, c]. intros (s' & c' & H1 & H2 & H3 & H4). simplify_eq. done. }
  constructor.
  - intros t. rewrite Hb, (blocked_waits _ Ha). setoid_rewrite Hw. setoid_rewrite <- Hc'. split.
    + intros [[h' H] Hno]. exists h'. split; [done|]. by intros ->.
    + intros [h' [H Hne]]. split; [by exists h'|]. intros H'. by apply Hne, (waits_once _ Ha t).
  - intros t h1 h2. rewrite !Hw. intros [H1 _] [H2 _]. by eapply waits_once.
  - intros h' s' c'. rewrite Es, lookup_insert_Some. intros [[<- <-]|[_ H1]] H2; [done|]. by eapply not_interrupted_blocked.
  - intros i x. rewrite Ev, lookup_alter_Some, Es. intros [(<- & y & Hy & ->)|[Hne Hx]] Hbusy; [done|].
    destruct (busy_called _ Ha i x Hx Hbusy) as (h' & s' & H1 & H2 & H3). exists h', s'. split; [|done].
    rewrite lookup_insert_ne; [done|]. intros <-. congruence.
Qed.

(** ** Every step *)

Section step.
Context (t p : nat) (v : view).
Context (Ha : accounted v) (Ht : running_thread v = Some t) (Hnb : ~ blocked v t).

(** The calls [t] serves: the caller is another thread, and blocked, or [t]. *)
Lemma serves_caller h s c : serves v t h s c -> calling_thread c = t \/ (calling_thread c <> t /\ waits v (calling_thread c) h).
Proof.
  intros (H1 & H2 & H3). destruct (decide (calling_thread c = t)) as [|Hne]; [by left|]. right. split; [done|].
  exists s, c. split_and!; congruence.
Qed.

Lemma end_pending_accounted v1 h s c st :
  serves v t h s c -> st <> USER_THREAD_STATE_BLOCKED -> (v1 = v \/ v1 = set_thread v t (interrupted_state c)) ->
  accounted (if decide (calling_thread c = t) then end_pending v1 h s else set_thread (end_pending v1 h s) (calling_thread c) st).
Proof.
  intros Hs Hst Hv1. pose proof Hs as (H1 & H2 & H3). pose proof (not_interrupted_blocked _ Ha h s c H1 H2) as Hi.
  assert (Hb1 : forall u, blocked v1 u <-> blocked v u).
  { intros u. destruct Hv1 as [->| ->]; [done|]. rewrite blocked_set_thread. case_decide as Hu; [subst u; tauto|done]. }
  case_decide as Hself.
  - apply (accounted_end v _ h s c); [done..| | |]; [by destruct Hv1 as [->| ->]..|].
    intros u. change (blocked (end_pending v1 h s) u) with (blocked v1 u). rewrite Hb1. split; [|tauto].
    intros Hu. split; [done|]. intros [-> Hne]. congruence.
  - apply (accounted_end v _ h s c); [done..| | |]; [by destruct Hv1 as [->| ->]..|].
    intros u. rewrite blocked_set_thread. change (blocked (end_pending v1 h s) u) with (blocked v1 u).
    case_decide as Hu.
    + split; [done|]. intros [_ H]. exfalso. apply H. split; [done|]. congruence.
    + rewrite Hb1. split; [|tauto]. intros Hu'. split; [done|]. intros [-> _]. congruence.
Qed.

Lemma fails_call_accounted v1 : fails_call t v v1 -> accounted v1 /\ ~ blocked v1 t.
Proof.
  destruct 1 as [_|h s c Hs Hself|h s c Hs Hother]; [done| |].
  - split; [|done]. pose proof (end_pending_accounted v h s c USER_THREAD_STATE_READY Hs ltac:(done) (or_introl eq_refl)) as H.
    by rewrite decide_True in H.
  - split.
    + pose proof (end_pending_accounted v h s c USER_THREAD_STATE_READY Hs ltac:(done) (or_introl eq_refl)) as H.
      by rewrite decide_False in H.
    + unfold wake. rewrite blocked_set_thread, decide_False by done. exact Hnb.
Qed.

Lemma gone_accounted v1 : accounted v1 -> ~ blocked v1 t -> accounted (gone t v1).
Proof.
  intros H1 Hn. apply (accounted_ext v1); [done|done| |].
  - intros u. unfold gone. rewrite blocked_set_thread. case_decide as Hu; [subst u; by split|done].
  - intros i x Hx Hb. cbn in Hx. apply map_lookup_filter_Some in Hx as [Hx _]. by exists x.
Qed.

Lemma idle_service_accounted i x :
  services v !! i = None -> service_busy x = false -> accounted (set_services v (<[i := x]> (services v))).
Proof.
  intros Hi Hx. apply (accounted_ext v); [done|done|done|]. intros j y. cbn. rewrite lookup_insert_Some.
  intros [[<- <-]|[_ Hy]] Hb; [congruence|by exists y].
Qed.

Lemma yields_accounted v1 v' : accounted v1 -> yields t v1 v' -> accounted v'.
Proof. intros H1. destruct 1; [done|done|by apply accounted_switch]. Qed.

Lemma accept_call_accounted h s x state :
  sessions v !! h = Some s -> session_call s = None -> thread_states v !! service_thread x = Some state ->
  runnable (accept_call t v h s x state) -> accounted (accept_call t v h s x state).
Proof.
  intros Hh Hn Hst Hrun. unfold accept_call in *. cbv zeta in *. case_decide as Hself.
  - apply (accounted_begin v _ h s {| calling_thread := t; serving_thread := service_thread x; interrupted_state := state |});
      [done..| |done|done|].
    + cbn. intros ->. apply Hnb. unfold blocked. by rewrite <- Hself.
    + intros u. cbn. split; [by left|]. intros [H|[-> H]]; [done|congruence].
  - apply accounted_switch. destruct Hrun as (u & Hu & Hb). rewrite (proj2 (proj2 (switch_sessions _ _))) in Hu. injection Hu as <-.
    rewrite blocked_switch, blocked_set_thread, decide_False in Hb by congruence.
    apply (accounted_begin v _ h s {| calling_thread := t; serving_thread := service_thread x; interrupted_state := state |});
      [done..| |done|done|].
    + cbn. intros ->. apply Hb. exact Hst.
    + intros u. rewrite blocked_set_thread. cbn. case_decide as Hu; [subst u; split; [right; done|done]|].
      change (blocked (begin_pending _ _ _ _) u) with (blocked v u). split; [by left|]. intros [H|[-> _]]; [done|congruence].
Qed.

Lemma kernel_step_accounted req st v' : kernel_step t p v req st v' -> runnable v' -> accounted v'.
Proof.
  intros Hstep Hrun. destruct Hstep as
    [st|v1 v2 Hf Hs|name cb cm i x|name cb cm|name cb cm i v' Hu Hi Hn Hy|name w|name w i x|name w i x|name w i x
    |name w i x h Hname Hex Hsz Hw Hh Hns Hno|h d st|h d s|h d s x|h d s x|h d s x state Hown Hx Hst _ Hb Hn Hd
    |h st|h s|h s Hown Hn|st|st h s c Hs Hself|st h s c Hs Hother]; try exact Ha.
  - destruct (fails_call_accounted v1 Hf) as [H1 Hn1]. pose proof (gone_accounted v1 H1 Hn1) as H2.
    destruct Hs as [_|s _]; [by destruct Hrun as (u & Hu & _)|by apply accounted_switch].
  - eapply yields_accounted; [|exact Hy]. by apply idle_service_accounted.
  - apply (accounted_sessions v); [done|done|done|]. intros h' s Hs. cbn. rewrite lookup_insert_Some. split.
    + by intros [[<- <-]|[_ H]].
    + intros H. right. split; [|done]. congruence.
  - by apply accept_call_accounted; [apply Hown|..].
  - apply (accounted_sessions v); [done|done|done|]. intros h' s' Hs. cbn. rewrite lookup_delete_Some. split; [by intros []|].
    intros H. split; [|done]. intros <-. destruct Hown as [H' _]. congruence.
  - pose proof (end_pending_accounted _ h s c USER_THREAD_STATE_READY Hs ltac:(done) (or_intror eq_refl)) as H.
    by rewrite decide_True in H.
  - apply accounted_switch.
    pose proof (end_pending_accounted _ h s c USER_THREAD_STATE_READY Hs ltac:(done) (or_intror eq_refl)) as H.
    by rewrite decide_False in H.
Qed.

(** A thread that still runs after its own request is not blocked. *)
Lemma kernel_step_same_thread req st v' : kernel_step t p v req st v' -> running_thread v' = Some t -> ~ blocked v' t.
Proof.
  intros Hstep Hrun. destruct Hstep as
    [st|v1 v2 Hf Hs|name cb cm i x|name cb cm|name cb cm i v' Hu Hi Hn Hy|name w|name w i x|name w i x|name w i x
    |name w i x h Hname Hex Hsz Hw Hh Hns Hno|h d st|h d s|h d s x|h d s x|h d s x state Hown Hx Hst _ Hb Hn Hd
    |h st|h s|h s Hown Hn|st|st h s c Hs Hself|st h s c Hs Hother]; try exact Hnb.
  - destruct Hs as [_|s Hs]; [done|]. rewrite blocked_switch. unfold gone. by rewrite blocked_set_thread, decide_True.
  - destruct Hy; [exact Hnb..|]. rewrite blocked_switch. exact Hnb.
  - unfold accept_call in *. cbv zeta in *. case_decide as Hself; [exact Hnb|].
    rewrite (proj2 (proj2 (switch_sessions _ _))) in Hrun. congruence.
  - change (~ blocked (set_thread v t (interrupted_state c)) t). rewrite blocked_set_thread, decide_True by done.
    destruct Hs as (Hs & Hc & _). by eapply not_interrupted_blocked.
  - rewrite (proj2 (proj2 (switch_sessions _ _))) in Hrun. congruence.
Qed.
End step.
