(* ===== verification/Accounting.v ===== *)
(** The runtime behind the invariant of the abstract kernel: what the start
    leaves to account for, and when the current thread can run. *)
From stdpp Require Import gmap.
From S2P Require Import Prelude AddressSpace UserMemory KernelObjectPool RuntimeTypes UserRuntime Rpc Syscalls RuntimeInvariant KernelSafety RpcSafety SyscallSafety RuntimeStart SystemStart KernelView KernelSteps KernelRefinement SyscallRefinement ViewInvariant.
#[local] Open Scope Z_scope.

(** ** The current thread *)

Lemma has_runnable_shows k : runtime_wf (runtime k) ->
  twp has_runnable_thread (fun b k' => k' = k /\ (b = true -> runnable (view_of (runtime k)))) k.
Proof.
  intros Hr. unfold has_runnable_thread. apply twp_bind, twp_gets. pose proof (wf_current _ Hr) as Hc.
  destruct (m_current_thread (runtime k)) as [c|] eqn:Ec; [|by apply twp_ret].
  apply twp_bind, get_state_safe; [by apply Hc|]. intros t Ht. case_bool_decide as Hs; [|by apply twp_ret].
  apply twp_bind, get_state_safe; [by apply Hc|]. intros t' _. apply twp_ret. split; [done|]. intros _.
  exists c. split; [exact Ec|]. unfold blocked. rewrite (thread_state_view _ _ _ Ht). congruence.
Qed.

(** ** The start *)

(** No service, no session, and no thread that waits. *)
Record quiet (r : user_runtime) : Prop := {
  quiet_endpoints i e : m_endpoints r !! i = Some e -> m_is_in_use e = false;
  quiet_channels : used (m_channels r) 0;
  quiet_threads i t : get_by_index (m_threads r) i = Some t -> m_state t <> USER_THREAD_STATE_BLOCKED;
}.

Lemma quiet_accounted r : runtime_wf r -> quiet r -> accounted (view_of r).
Proof.
  intros Hr [He Hc Ht]. assert (Hs : forall h s, sessions (view_of r) !! h = Some s -> False).
  { intros h s (i & c & Hi & _)%(sessions_spec _ _ (wf_channels _ Hr)). by rewrite Hc in Hi by lia. }
  constructor.
  - intros t. split.
    + unfold blocked. cbn. rewrite states_lookup. destruct (get_by_index _ t) as [u|] eqn:E; [|done]. intros [= Hb].
      by destruct (Ht t u E).
    + by intros (h & s & c & H & _); apply Hs in H.
  - by intros t h h' (s & c & H & _); apply Hs in H.
  - by intros h s c H; apply Hs in H.
  - intros i x. rewrite (service_lookup _ _ _ Hr). intros (e & He' & Hx). apply He in He'. apply service_in_use in Hx. congruence.
Qed.

Lemma quiet_reset r : image_ok r -> quiet (reset_runtime r).
Proof.
  intros Hi. pose proof (reset_starting _ Hi) as Hs. constructor; cbn -[replicate].
  - by intros i e [-> _]%lookup_replicate.
  - apply used_reset.
  - intros i t Ht. by rewrite (used_reset _ i ltac:(lia)) in Ht.
Qed.

Lemma quiet_create_process metadata a k r k' : quiet (runtime k) -> create_process metadata a k = Returned r k' -> quiet (runtime k').
Proof.
  intros [He Hc Ht] E. apply bind_returned in E as (j & k1 & E1 & E). apply emplace_in_returned in E1 as (p & next & _ & ->).
  destruct j as [j|]; [|by injection E as _ <-]. apply bind_returned in E as (u & k2 & E2 & E). injection E as _ <-.
  by apply update_returned in E2 as (x & _ & ->).
Qed.

Lemma quiet_create_thread q c k r k' : quiet (runtime k) -> create_thread q c true k = Returned r k' -> quiet (runtime k').
Proof.
  intros Hq E. unfold create_thread, with_handle in E. cbn [negb] in E. apply bind_returned in E as (current & k1 & E1 & E).
  assert (H1 : quiet (runtime k1)).
  { apply bind_returned in E1 as (j & k2 & E2 & E1). apply emplace_in_returned in E2 as (p & next & Em & ->).
    destruct j as [j|].
    2: { injection E1 as _ <-. destruct Hq as [He Hc Ht]. constructor; [done|done|]. cbn. intros i t Hi.
      assert (p = m_threads (runtime k)) as ->; [|by eapply Ht].
      cbn in Em. unfold emplace in Em. destruct (negb _); [by injection Em as <- _|]. destruct (first_free _); [|by injection Em as <- _].
      by destruct (allocate_handle_value _). }
    apply bind_returned in E1 as (u & k3 & E3 & E1). injection E1 as _ <-. apply update_returned in E3 as (x & Hx & ->).
    apply emplace_contents in Em as (_ & (id & h & Hi) & Ho). cbn in Hx, Hi, Ho. rewrite Hi in Hx. injection Hx as <-.
    destruct Hq as [He Hc Ht]. constructor; [done|done|]. cbn. intros i t. rewrite (get_update_at _ _ _ _ _ Hi).
    case_decide as Hij; [by intros [= <-]|]. rewrite Ho by congruence. apply Ht. }
  destruct current as [j|]; [|by injection E as _ <-]. apply bind_returned in E as (x & k2 & E2 & E). injection E as _ <-.
  unfold read_at, mbind, M_bind in E2. cbn in E2. destruct (get_by_index _ j); [|done]. by injection E2 as _ <-.
Qed.

Lemma quiet_create_initial c k r k' : quiet (runtime k) -> create_initial c k = Returned r k' -> quiet (runtime k').
Proof.
  intros Hq E. unfold create_initial in E. apply bind_returned in E as (i & k1 & E1 & E). apply quiet_create_process in E1; [|done].
  destruct i as [i|]; [|by injection E as _ <-]. apply bind_returned in E as (t & k2 & E2 & E). apply quiet_create_thread in E2; [|done].
  destruct t as [[j h]|]; [|by injection E as _ <-]. by destruct (h =? 0); injection E as _ <-.
Qed.

Lemma quiet_create_initials l k r k' : quiet (runtime k) -> create_initials l k = Returned r k' -> quiet (runtime k').
Proof.
  revert k r k'. induction l as [|c l IH]; intros k r k' Hq E; cbn [create_initials] in E; [by injection E as _ <-|].
  apply bind_returned in E as (x & k1 & E1 & E). apply quiet_create_initial in E1; [|done].
  destruct x as [m|x]; [by injection E as _ <-|]. apply bind_returned in E as (xs & k2 & E2 & E). injection E as _ <-. by eapply IH.
Qed.

(** The start leaves a runnable thread and nothing to account for. *)
Lemma start_accounted initialize k0 x k :
  (forall k, twp initialize (initialized_ok k) k) -> image_ok (runtime k0) ->
  run_initial_user_runtime initialize k0 = Returned (continues x) k ->
  accounted (view_of (runtime k)) /\ runnable (view_of (runtime k)).
Proof.
  intros Hinit Hi E. pose proof (Hinit (with_runtime k0 (reset_runtime (runtime k0)))) as Hok.
  unfold run_initial_user_runtime in E. apply bind_returned in E as ([] & k1 & E1 & E). injection E1 as <-.
  apply bind_returned in E as (b & k1 & E1 & E). unfold twp in Hok. rewrite E1 in Hok. destruct b as [m|b]; [done|].
  destruct Hok as [Er (Hlen & Hc0 & Hi0 & Hb)]. cbn in Er. pose proof (quiet_reset _ Hi) as Hq. pose proof (reset_starting _ Hi) as Hs.
  rewrite <- Er in Hq, Hs. unfold run_bootstrap in E. destruct (_ || _) eqn:Ec; [done|]. destruct (_ <=? _) eqn:Ei; [done|].
  bool_hyps. unfold USER_RUNTIME_MAX_INITIAL_PROCESSES in *. apply bind_returned in E as (xs & k2 & E2 & E).
  assert (Hl : (0 + length (take (Z.to_nat (process_count b)) (initial_processes b)) <= 4)%nat) by (rewrite length_take; lia).
  pose proof (create_initials_safe _ 0 k1 Hs Hb Hl) as Hsafe. unfold twp in Hsafe. rewrite E2 in Hsafe.
  destruct Hsafe as (ys & -> & _ & Hs2 & Hlive & _). apply quiet_create_initials in E2; [|done].
  apply bind_returned in E as ([p t] & k3 & E3 & E). unfold in_bounds in E3. destruct (ys !! _) as [y|] eqn:Hy; [|done].
  injection E3 as -> <-. assert (Ht : live_thread (runtime k2) t) by exact (Forall_lookup_1 _ _ _ _ Hlive Hy).
  apply bind_returned in E as ([] & k3 & E3 & E). pose proof (set_current_thread_shows t k2 (starting_wf _ _ _ Hs2) Ht) as Hset.
  unfold twp in Hset. rewrite E3 in Hset. destruct Hset as [_ Ev]. apply bind_returned in E as ([] & k4 & E4 & E). injection E4 as <-.
  injection E as _ <-. cbn [runtime]. rewrite Ev. pose proof (quiet_accounted _ (starting_wf _ _ _ Hs2) E2) as Ha.
  split; [by apply accounted_switch|]. exists t. split; [apply switch_sessions|]. rewrite blocked_switch. unfold blocked.
  cbn. rewrite states_lookup. destruct Ht as [u Hu]. rewrite Hu. intros [= Hbl]. by destruct (quiet_threads _ E2 t u Hu).
Qed.
