(* ===== verification/X64Refinement.v ===== *)
(** The x86-64 system implements the abstract specification: every system call
    is one of its steps, and its invariant holds whenever user mode runs. *)
From stdpp Require Import gmap.
From S2P Require Import Prelude AddressSpace UserMemory KernelObjectPool RuntimeTypes UserRuntime Rpc Syscalls RuntimeInvariant KernelSafety RpcSafety SyscallSafety RuntimeStart KernelSamples RpcSpecs KernelSpecs KernelFrames SystemStart PlatformMemory X64Platform X64PageTables X64Samples X64System KernelView KernelSteps KernelRefinement SyscallRefinement ViewInvariant Accounting.
#[local] Open Scope Z_scope.

(** ** The entry *)

(** A system call on x86-64 is a step, and user mode goes on in a runnable thread. *)
Lemma x64_handle_syscall_shows f k t u p :
  syscall_ready k -> frame_ok f -> m_current_thread (runtime k) = Some t ->
  get_by_index (m_threads (runtime k)) t = Some u -> m_process u = Some p ->
  twp (x64_handle_syscall (Some f))
    (fun r k' => exists b f', r = continues (b, f') /\
       (exists st, kernel_step t p (view_of (runtime k))
          (request_of (H := x64_target) (saved k f t u) t p (context_of_frame f)) st (view_of (runtime k'))) /\
       (b = true -> runnable (view_of (runtime k')))) k.
Proof.
  intros [Hr Hn] (Hdi & Hsi & Hdx & Hq) Ht Hu Hp. unfold x64_handle_syscall. apply twp_bind, twp_gets. rewrite Ht.
  destruct (thread_process _ _ _ _ (wf_thread _ Hr t u Hu)) as (p' & Hp' & q & Hpq). rewrite Hp in Hp'. injection Hp' as <-.
  pose proof (saved_wf k f t u Hr Hu ltac:(done)) as Hr1.
  assert (E1 : view_of (runtime (saved k f t u)) = view_of (runtime k)).
  { etrans; [by apply (view_update_thread _ t u (save_preserved f u))|]. apply set_thread_same. exact (thread_state_view _ _ _ Hu). }
  assert (Hu1 : get_by_index (m_threads (runtime (saved k f t u))) t = Some (save_preserved f u)).
  { etrans; [exact (get_update_at _ t t _ u Hu)|]. by rewrite decide_True. }
  apply twp_bind. eapply twp_update; [exact Hu|]. change (with_runtime k _) with (saved k f t u).
  assert (Hc : syscall_context_ok (context_of_frame f)) by (by constructor).
  pose proof (dispatch_shows (H := x64_target) t (save_preserved f u) p (context_of_frame f) (saved k f t u) (conj Hr1 Hn) Hc Ht Hu1 Hp) as Hans.
  eapply twp_seq; [exact Hans|]. intros st k2 [P2 A2]. pose proof (preserves_wf _ _ P2) as Hr2.
  unfold answers in A2. rewrite E1 in A2. clear Hans.
  eapply twp_seq; [by apply has_runnable_shows|]. intros [|] k2' [-> Hrun]; cbn [negb].
  2: { apply twp_ret. exists false, f. split; [done|]. by split; [exists st|]. }
  apply twp_bind, twp_gets. destruct (m_current_thread (runtime k2)) as [b|] eqn:Eb.
  2: { apply twp_ret. exists false, f. split; [done|]. by split; [exists st|]. }
  destruct (wf_current _ Hr2 b Eb) as [tb Htb].
  apply (twp_seq _ _ _ (fun _ k3 => shows k2 (view_of (runtime k2)) k3)).
  { case_bool_decide; [|by apply twp_ret, shows_refl]. apply (update_thread_same _ _ tb); [exact Htb|done..|].
    eapply twp_mono; [apply keeps_update_thread; [done|by exists tb|]|eauto with kernel]. intros y _ []. split; [done|by constructor]. }
  intros [] k3 [K3 E3]. destruct (live_thread_keeps _ _ b K3 ltac:(by exists tb)) as [t3 Ht3].
  apply twp_bind. eapply twp_read_at; [exact Ht3|].
  apply twp_bind, twp_same; [apply load_user_thread_frame_safe, (thread_registers _ _ _ _ (wf_thread _ (proj1 K3) b t3 Ht3))|].
  intros f'. eapply twp_seq; [apply has_runnable_shows, K3|]. intros c k4 [-> Hc4]. apply twp_ret.
  exists c, f'. split; [done|]. split; [exists st; by rewrite E3|done].
Qed.

(** ** Every state of the system *)

Section system.
Context (platform : Z) (terminal_service_image test_app_image : embedded_image).
Hypothesis Hok : platform_ok platform terminal_service_image test_app_image.

Lemma system_accounted n k :
  x64_system platform terminal_service_image test_app_image n k -> Z.of_nat n < 2 ^ 63 ->
  accounted (view_of (runtime k)) /\ runnable (view_of (runtime k)).
Proof.
  intros Hk. induction Hk as [k0 p t k registers k' Hi Hrun Hent|n k p q va h v Hk IH|n k f f' k' Hk IH Hf Hrun]; intros Hn.
  - rewrite (enter_user_thread_returned _ _ _ _ _ Hent). change (runtime (after_entry k p t)) with (runtime k). eapply start_accounted; [|exact Hi|exact Hrun]. intros k1. by apply x64_initialize_ok.
  - by apply IH.
  - destruct IH as [Ha (t & Ht & Hb)]; [lia|].
    destruct (reachable_invariant (initialize platform terminal_service_image test_app_image)
                ltac:(intros k1; by apply x64_initialize_ok) n k) as (Hr & _ & Hnext);
      [by apply system_reachable|lia|].
    destruct (wf_current _ Hr t Ht) as [u Hu]. destruct (thread_process _ _ _ _ (wf_thread _ Hr t u Hu)) as (p & Hp & _).
    pose proof (x64_handle_syscall_shows f k t u p ltac:(split; [done|lia]) Hf Ht Hu Hp) as H. unfold twp in H. rewrite Hrun in H.
    destruct H as (b & f2 & [= <- <-] & (st & Hst) & Hrun'). specialize (Hrun' eq_refl). split; [|done].
    by eapply kernel_step_accounted.
Qed.
End system.
