(* ===== verification/Arm64Refinement.v ===== *)
(** The arm64 system implements the abstract specification: every system call,
    of a native thread or of a guest in the emulator, is one of its steps, and
    its invariant holds whenever a thread can run. *)
From stdpp Require Import gmap.
From S2P Require Import Prelude EmulatorTypes ExecutionContext Interpreter AddressSpace UserMemory KernelObjectPool RuntimeTypes UserRuntime Rpc Syscalls RuntimeInvariant KernelSafety RpcSafety SyscallSafety RuntimeStart RpcSpecs KernelSpecs KernelFrames SystemStart PeImage X64PeImage PlatformMemory Arm64Platform Arm64PageTables Arm64Emulation Arm64EmulationSafety Arm64System KernelView KernelSteps KernelRefinement SyscallRefinement ViewInvariant Accounting.
#[local] Existing Instance arm64_target.
#[local] Open Scope Z_scope.

(** When a thread can run, the invariant holds. *)
Definition consistent (k : kernel) : Prop := runnable (view_of (runtime k)) -> accounted (view_of (runtime k)).

(** Thread [a] runs, and the invariant holds. *)
Record going (k : kernel) (a : nat) : Prop := {
  going_accounted : accounted (view_of (runtime k));
  going_current : m_current_thread (runtime k) = Some a;
  going_runs : ~ blocked (view_of (runtime k)) a;
}.

(** A system call of thread [a]. *)
Definition steps (a : nat) (k k' : kernel) : Prop :=
  exists p req st, kernel_step a p (view_of (runtime k)) req st (view_of (runtime k')).

Lemma going_steps k k' a :
  going k a -> steps a k k' -> consistent k' /\ (m_current_thread (runtime k') = Some a -> going k' a).
Proof.
  intros [Ha Hc Hb] (p & req & st & Hs). assert (Hcons : consistent k') by (intros Hrun; by eapply kernel_step_accounted).
  split; [exact Hcons|]. intros Ec. assert (Hb' : ~ blocked (view_of (runtime k')) a) by (by eapply kernel_step_same_thread).
  constructor; [|done|done]. apply Hcons. by exists a.
Qed.

Lemma going_consistent k a : going k a -> consistent k.
Proof. by intros [H _ _] _. Qed.

Lemma going_view k k' a : going k a -> runtime k' = runtime k -> going k' a.
Proof. intros [Ha Hc Hb] E. constructor; by rewrite E. Qed.

(** ** System calls of the emulator *)

(** An update of a thread that leaves its state and handle alone. *)
Lemma update_thread_silent i f t k :
  runtime_wf (runtime k) -> get_by_index (m_threads (runtime k)) i = Some t ->
  (thread_wf (live_process (runtime k)) (m_current_thread (runtime k)) i t ->
   get_handle (f t) = get_handle t /\ thread_wf (live_process (runtime k)) (m_current_thread (runtime k)) i (f t)) ->
  m_state (f t) = m_state t ->
  twp (update i f) (fun _ k' => keeps k k' /\ view_of (runtime k') = view_of (runtime k) /\
    m_current_thread (runtime k') = m_current_thread (runtime k) /\
    get_by_index (m_threads (runtime k')) i = Some (f t) /\
    m_processes (runtime k') = m_processes (runtime k)) k.
Proof.
  intros Hr Ht Hf Hs. destruct (Hf (wf_thread _ Hr i t Ht)) as [Hh _].
  assert (Hk : twp (update i f) (ok_current k) k).
  { apply keeps_update_thread; [done|by exists t|]. intros u Hu Hw. rewrite Ht in Hu. injection Hu as <-. by apply Hf. }
  destruct (proj1 (twp_returned _ _ _) Hk) as ([] & k' & E & [K C]). unfold twp. rewrite E. split; [done|].
  apply update_returned in E as (x & Hx & ->). cbn in Hx. rewrite Ht in Hx. injection Hx as <-. split_and!; [|done| |done].
  - etrans; [by apply (view_update_thread _ i t (f t))|]. rewrite Hs. apply set_thread_same, (thread_state_view _ _ _ Ht).
  - etrans; [exact (get_update_at _ _ _ _ t Ht)|]. by rewrite decide_True.
Qed.

Lemma prepare_resume_silent a st t k :
  runtime_wf (runtime k) -> get_by_index (m_threads (runtime k)) a = Some t ->
  twp (update a (fun t => prepare_syscall_resume t st)) (fun _ k' => keeps k k' /\ view_of (runtime k') = view_of (runtime k) /\
    m_current_thread (runtime k') = m_current_thread (runtime k) /\
    get_by_index (m_threads (runtime k')) a = Some (prepare_syscall_resume t st) /\
    m_processes (runtime k') = m_processes (runtime k)) k.
Proof.
  intros Hr Ht. apply (update_thread_silent a (fun t => prepare_syscall_resume t st) t); [done|done| |done].
  intros []. split; [done|by constructor].
Qed.

Lemma dispatch_x64_syscall_steps s k a :
  syscall_ready k -> state_wf s -> m_current_thread (runtime k) = Some a ->
  twp (dispatch_x64_syscall true s) (fun _ k' => steps a k k') k.
Proof.
  intros [Hr Hn] Hs Ea. destruct (wf_current _ Hr a Ea) as [t Ht].
  destruct (thread_process _ _ _ _ (wf_thread _ Hr a t Ht)) as (p & Hp & q & Hq).
  unfold dispatch_x64_syscall. cbn [negb]. apply twp_bind, twp_gets. rewrite Ea.
  unfold store_x64_emulator_preserved_state. rewrite !(guest_register_eq s) by done.
  eapply twp_seq.
  { apply (update_thread_silent a _ t k Hr Ht); [|done]. intros []. split; [done|]. constructor; try done; cbn. by rewrite !length_insert. }
  intros [] k1 (K1 & V1 & C1 & T1 & _). do 8 apply twp_bind, twp_ret.
  eapply twp_seq.
  { eapply (dispatch_shows a _ p); [split; [apply K1|by rewrite (frame_next _ _ (proj2 K1))]| |by rewrite C1|exact T1|exact Hp].
    constructor; by apply register_value_ok. }
  intros st k2 [P2 A2]. unfold answers in A2. rewrite V1 in A2. pose proof (preserves_wf _ _ P2) as Hr2.
  assert (Hl2 : live_thread (runtime k2) a) by (apply (preserves_threads _ _ P2); by eexists).
  assert (Hsteps : forall k', view_of (runtime k') = view_of (runtime k2) -> steps a k k')
    by (intros k' V; rewrite <- V in A2; by eexists _, _, _).
  apply twp_bind, twp_gets. case_bool_decide as Hc.
  - destruct Hl2 as [t2 Ht2]. eapply twp_seq; [by apply (prepare_resume_silent a st t2)|]. intros [] k3 (_ & V3 & _ & T3 & _).
    apply twp_bind. eapply twp_read_at; [exact T3|]. by apply twp_ret, Hsteps.
  - apply twp_bind, get_state_safe; [done|]. intros t2 Ht2. case_bool_decide; by apply twp_ret, Hsteps.
Qed.

(** ** A run of the emulator *)

(** One system call of a run, on the kernel the guest's stores have changed. *)
Lemma world_step_steps region sz act k k' a :
  sz = X64_USER_REGION_SIZE -> syscall_ready k -> m_current_thread (runtime k) = Some a ->
  world_step {| handle_syscall := Some (x64_syscall_callback region) |} sz act (kernel_runs k) (kernel_runs k') -> steps a k k'.
Proof.
  intros -> [Hr Hn] Ea (handler & s & b & [= <-] & Hs & (l & -> & Hl & _) & _ & E).
  unfold x64_syscall_callback in E. set (k0 := at_host k (store_bytes (host k) region l)) in E.
  destruct (proj1 (twp_returned _ _ _) (dispatch_x64_syscall_steps s k0 a ltac:(by split) Hs Ea)) as (r & k1 & E1 & H1).
  rewrite E1 in E. injection E as ->. exact H1.
Qed.

Lemma worlds_going region sz (c : x64_execution_context emulated_kernel) n k a w' :
  m_callbacks c = {| handle_syscall := Some (x64_syscall_callback region) |} -> size (m_memory c) = sz -> sz = X64_USER_REGION_SIZE ->
  runtime_wf (runtime k) -> m_next_handle_value (runtime k) + Z.of_nat n < 2 ^ 64 -> going k a ->
  worlds c n (kernel_runs k) w' ->
  exists k', w' = kernel_runs k' /\ time_slice region (Z.of_nat n) k k' /\ going k' a.
Proof.
  intros Hcb Hsz Hz. revert k. induction n as [|n IH]; intros k Hr Hn Hg; cbn [worlds].
  - intros ->. exists k. split; [done|]. split; [by apply slice_refl|done].
  - intros (w1 & Hstep & Hw). rewrite Hcb, Hsz in Hstep. pose proof (going_current _ _ Hg) as Ea.
    pose proof Hstep as (k1 & -> & S1 & Hc)%(world_step_slice region sz _ k a); [|done|split; [done|lia]|done].
    apply world_step_steps with (a := a) in Hstep; [|done|split; [done|lia]|done].
    pose proof (slice_next _ _ _ _ S1). apply IH in Hw as (k2 & -> & S2 & E2); [|apply S1|lia|by apply (going_steps k), Hc].
    exists k2. split; [done|]. split; [|done]. replace (Z.of_nat (S n)) with (1 + Z.of_nat n) by lia. by eapply slice_trans.
Qed.

(** The kernel after the emulator returns. *)
Lemma run_going storage guest k k' a c :
  runtime_wf (runtime k) -> m_next_handle_value (runtime k) + 512 < 2 ^ 64 -> going k a ->
  run_post (emulation storage guest k) true c -> m_world c = kernel_runs k' ->
  consistent k' /\ (~ guest_left (m_result c) -> going k' a).
Proof.
  intros Hr Hn Hg Hpost Hk'. pose proof (going_current _ _ Hg) as Ea.
  destruct (run_slice storage guest k a c Hr Hn Ea Hpost) as (k2 & E2 & _ & Hleft). rewrite Hk' in E2. injection E2 as <-.
  destruct Hpost as (_ & Hwf & Hsame & Hres & n & w1 & Hw & Hend). set (region := get_user_region storage) in *.
  assert (Hret : 0 <= retired_instructions (m_result c) <= 512).
  { change (instruction_budget (m_options (emulation storage guest k))) with 512 in Hres. destruct Hres as [[_ ?]|[[_ ?]|[_ ?]]]; lia. }
  assert (Hcount : Z.of_nat n <= 512) by (destruct Hend as [(_ & ? & _)|(act & _ & _ & ? & _)]; lia).
  apply (worlds_going region X64_USER_REGION_SIZE _ n k a) in Hw as (k1 & -> & S1 & G1); [|done|done|done|done|lia|done].
  rewrite Hk' in Hend. destruct Hend as [(_ & _ & [= ->])|(act & _ & _ & Hle & Hstep)].
  - split; [by eapply going_consistent|done].
  - pose proof (slice_next _ _ _ _ S1).
    apply (world_step_steps region _ act k1 k' a) in Hstep; [|done|split; [apply S1|lia]|apply G1].
    destruct (going_steps k1 k' a G1 Hstep) as [Hcons Hgo]. split; [exact Hcons|]. intros Hno. by apply Hgo, Hleft.
Qed.

(** The end of a run: a guest that faulted is terminated. *)
Lemma finish_steps r a k :
  run_result_ok X64_EMULATOR_INSTRUCTION_BUDGET r -> runtime_wf (runtime k) -> consistent k -> (~ guest_left r -> going k a) ->
  twp (finish_x64_emulator_run true r) (fun _ k' => consistent k') k.
Proof.
  intros Hres Hr Hcons Hgo. unfold finish_x64_emulator_run. cbn [negb].
  destruct (bool_decide (backend_failure r <> _)) eqn:Eb; [by apply twp_ret|].
  destruct (is_x64_emulator_guest_fault r) eqn:Ef; [|case_match; by apply twp_ret].
  assert (Hg : going k a).
  { apply Hgo. unfold is_x64_emulator_guest_fault in Ef. intros [(E & _)|(E & _)]; rewrite E in Ef; done. }
  cbv zeta. apply twp_bind, twp_modify. set (k1 := {| runtime := runtime k |}).
  destruct (wf_current _ Hr a (going_current _ _ Hg)) as [t Ht].
  destruct (thread_process _ _ _ _ (wf_thread _ Hr a t Ht)) as (p & Hp & q & Hq).
  eapply twp_seq; [by eapply (terminate_answers a p k1 t); [exact Hr|apply Hg|..]|].
  intros b k2 H2. apply twp_ret. eapply (going_steps k); [exact Hg|]. by exists p, exit_thread, STATUS_OK.
Qed.

Lemma run_x64_emulator_thread_steps storage guest a k :
  runtime_wf (runtime k) -> m_next_handle_value (runtime k) + 512 < 2 ^ 64 -> going k a -> state_wf guest ->
  wp (run_x64_emulator_thread storage guest a) (fun _ k' => consistent k') k.
Proof.
  intros Hr Hn Hg Hguest. unfold run_x64_emulator_thread. destruct (wf_current _ Hr a (going_current _ _ Hg)) as [t Ht].
  apply twp_wp_bind. eapply twp_read_at; [exact Ht|]. pose proof (wf_thread _ Hr a t Ht) as [_ Hregs Hsimd _].
  apply twp_wp_bind. eapply twp_mono; [by apply load_x64_emulator_resume_state_safe|]. intros g k' (-> & Hgw & _).
  apply wp_bind, wp_gets.
  pose proof (run_x64_emulator_returns (emulation storage g k) (emulation_wf storage g k Hgw) ltac:(done) eq_refl) as Hrun.
  destruct (run_x64_emulator true (emulation storage g k)) as [ok c|u|] eqn:Erun; unfold wp in Hrun; rewrite Erun in Hrun; [|done..].
  pose proof Hrun as (-> & _ & _ & Hres & _).
  destruct (run_slice storage g k a c Hr Hn (going_current _ _ Hg) Hrun) as (k1 & Ek & S & _). rewrite Ek.
  destruct (run_going storage g k k1 a c Hr Hn Hg Hrun Ek) as [Hcons Hgo].
  apply wp_bind, wp_modify, twp_wp. eapply twp_seq.
  { apply (finish_steps _ a); [exact Hres|apply S|exact Hcons|]. intros Hno. by eapply going_view; [by apply Hgo|]. }
  intros [m|[]] k2 H2; by apply twp_ret.
Qed.

(** ** The loop *)

Definition iteration_shows (r : may_panic loop_step) (a' : arm64_machine) : Prop :=
  match r with
  | panics _ => True
  | continues step => consistent (m_kernel a') /\ (enters_user_mode step = true -> runnable (view_of (runtime (m_kernel a'))))
  end.

Section system.
Context (platform : Z) (terminal_service_image test_app_image : embedded_image).
Hypothesis Hok : platform_ok platform terminal_service_image test_app_image.
Abbreviation steady := (steady platform terminal_service_image test_app_image).

Lemma has_runnable_going k c : runtime_wf (runtime k) -> consistent k -> m_current_thread (runtime k) = Some c ->
  exists r, has_runnable_thread k = Returned r k /\ (r = true -> going k c).
Proof.
  intros Hr Hcons Ec. destruct (proj1 (twp_returned _ _ _) (has_runnable_shows k Hr)) as (r & k' & E & -> & Hrun).
  exists r. split; [exact E|]. intros Er. specialize (Hrun Er). constructor; [by apply Hcons|done|].
  destruct Hrun as (t & Ht & Hb). cbn in Ht. rewrite Ec in Ht. by injection Ht as <-.
Qed.

Lemma going_runnable k c : going k c -> runnable (view_of (runtime k)).
Proof. intros [_ Ec Hb]. by exists c. Qed.

Lemma enter_user_thread_shows m b n a :
  steady m b n false a -> 5 + Z.of_nat n + 512 < 2 ^ 64 -> consistent (m_kernel a) ->
  wp (enter_user_thread platform) iteration_shows a.
Proof.
  intros Ha Hbound Hcons. pose proof Ha as [Hi Hw Hn Hg _]. unfold enter_user_thread. eapply wp_look; [reflexivity|].
  assert (Hpark : wp (mret (continues parks_cpu)) iteration_shows a) by (by apply wp_ret).
  destruct (m_current_thread (runtime (m_kernel a))) as [c|] eqn:Ec; [|exact Hpark].
  destruct (has_runnable_going _ c Hw Hcons Ec) as (r & Er & Hgo). eapply wp_look; [exact Er|]. destruct r; [|exact Hpark]. cbn [negb].
  specialize (Hgo eq_refl).
  destruct (wf_current _ Hw c Ec) as [t Ht]. eapply wp_look; [exact (read_at_eq (A := thread) _ c t Ht)|].
  destruct (thread_process _ _ _ _ (wf_thread _ Hw c t Ht)) as (p & Hp & q & Hq). rewrite Hp.
  apply wp_bind, wp_on_kernel, wp_modify. pose proof (isolated_activation _ _ _ _ _ _ _ _ _ Hi Ec Ht Hp) as Hi1.
  set (k1 := {| runtime := runtime (m_kernel a); host := _; events := _ |}) in *.
  assert (R1 : runtime k1 = runtime (m_kernel a)) by done. clearbody k1.
  change k1 with (m_kernel (with_kernel a k1)) in Hi1, R1. set (a1 := with_kernel a k1) in *.
  assert (G1 : x64_guest_states a1 = x64_guest_states a) by done. clearbody a1.
  eapply wp_look; [apply (read_at_eq (A := process)); rewrite R1; exact Hq|].
  rewrite <- R1 in Hq. destruct (arm64_isolated_process _ _ _ Hok m b _ p q Hi1 Hq) as (i & Hat).
  destruct (at_backend _ _ _ _ _ Hat) as [Hb | Hb]; rewrite Hb.
  - apply wp_bind. apply (log_native_logged platform terminal_service_image test_app_image Hok m b). intros a2 (G2 & R2 & L2).
    eapply wp_look; [apply (read_at_eq (A := thread)); rewrite R2, R1; exact Ht|].
    apply wp_bind, wp_on_kernel_twp. eapply twp_mono; [apply load_arm64_syscall_frame_safe, (thread_registers _ _ _ _ (wf_thread _ Hw c t Ht))|].
    intros f k2 ->. apply wp_ret. cbn [iteration_shows enters_user_mode]. rewrite with_kernel_same.
    assert (Hg2 : going (m_kernel a2) c) by (eapply going_view; [exact Hgo|]; congruence).
    split; [by eapply going_consistent|]. intros _. by eapply going_runnable.
  - apply wp_bind. apply (log_x64_emulator_logged platform terminal_service_image test_app_image Hok m b). intros a2 (G2 & R2 & L2). rewrite (get_process_storage_at platform b (m_kernel a1) i q Hat).
    apply wp_bind, wp_gets. rewrite G2, G1. rewrite Nat2Z.id. destruct Hg as [Hlen Hguests]. pose proof (at_index _ _ _ _ _ Hat) as [Hi0 Hi2].
    destruct (lookup_lt_is_Some_2 (x64_guest_states a) i) as [g Hgi]; [lia|]. rewrite Hgi.
    assert (Hg2 : going (m_kernel a2) c) by (eapply going_view; [exact Hgo|]; congruence).
    assert (R : runtime (m_kernel a2) = runtime (m_kernel a)) by congruence.
    apply wp_bind, wp_on_kernel.
    eapply wp_mono; [apply (run_x64_emulator_thread_steps _ g c); [by rewrite R|rewrite R; lia|exact Hg2|by eapply Forall_lookup_1 in Hguests]|].
    intros [msg|g'] k2 H2; [by apply wp_ret|].
    apply wp_bind, wp_modify, wp_ret. cbn [iteration_shows enters_user_mode m_kernel with_kernel with_guest_states]. by split.
Qed.

(** A system call of a native thread. *)
Lemma arm64_handle_syscall_shows f k a :
  syscall_ready k -> arm64_frame_ok f -> is_svc f -> runs_native k -> going k a ->
  twp (arm64_handle_syscall (Some f))
    (fun r k' => consistent k' /\ exists b f', r = continues (b, f') /\ (b = true -> runnable (view_of (runtime k')))) k.
Proof.
  intros [Hr Hn] (H0 & H1 & H2) Hsvc (a' & t & p & q & Ea & Ht & Hp & Hq & Hb) Hg.
  assert (a' = a) as -> by (pose proof (going_current _ _ Hg); congruence).
  unfold arm64_handle_syscall. unfold is_svc in Hsvc.
  rewrite Hsvc. cbn [negb Z.eqb Pos.eqb ESR_EXCEPTION_CLASS_SVC64]. apply twp_bind, twp_gets. rewrite Ea.
  apply twp_bind. eapply twp_read_at; [exact Ht|]. rewrite Hp. apply twp_bind. eapply twp_read_at; [exact Hq|]. cbv zeta.
  rewrite Hb, bool_decide_eq_false_2, bool_decide_eq_false_2 by congruence.
  eapply twp_seq.
  { apply (update_thread_silent a _ t k Hr Ht); [|done]. intros []. split; [done|]. constructor; try done.
    cbn [m_arch_preserved_registers save_arm64_preserved with_preserved]. by rewrite !length_insert. }
  intros [] k1 (K1 & V1 & C1 & T1 & _). eapply twp_seq.
  { eapply (dispatch_shows a _ p); [split; [apply K1|by rewrite (frame_next _ _ (proj2 K1))]|by constructor|by rewrite C1|exact T1|exact Hp]. }
  intros st k2 [P2 A2]. unfold answers in A2. rewrite V1 in A2. pose proof (preserves_wf _ _ P2) as Hr2.
  destruct (going_steps k k2 a Hg) as [Hcons _]; [by eexists _, _, _|].
  assert (Hstop : twp (mret (continues (false, f))) (fun r k' => consistent k' /\ exists b f', r = continues (b, f') /\
    (b = true -> runnable (view_of (runtime k')))) k2).
  { apply twp_ret. split; [done|]. by exists false, f. }
  apply twp_bind, twp_same; [by apply has_runnable_thread_safe|]. intros [|]; cbn [negb]; [|exact Hstop].
  apply twp_bind, twp_gets. destruct (m_current_thread (runtime k2)) as [b|] eqn:Eb; [|exact Hstop].
  destruct (wf_current _ Hr2 b Eb) as [u Hu]. apply twp_bind. eapply twp_read_at; [exact Hu|].
  destruct (thread_process _ _ _ _ (wf_thread _ Hr2 b u Hu)) as (p' & Hp' & q' & Hq'). rewrite Hp'.
  apply (twp_seq _ _ _ (fun _ k3 => runtime_wf (runtime k3) /\ view_of (runtime k3) = view_of (runtime k2) /\
    m_processes (runtime k3) = m_processes (runtime k2) /\ exists u3, get_by_index (m_threads (runtime k3)) b = Some u3)).
  { case_bool_decide; [|apply twp_ret; split_and!; [done..|by exists u]].
    eapply twp_mono; [by apply (prepare_resume_silent b st u)|]. intros [] k3 (K3 & V3 & _ & T3 & E3).
    split_and!; [apply K3|done|done|by eexists]. }
  intros [] k3 (Hr3 & V3 & E3 & u3 & Hu3). assert (Hcons3 : consistent k3) by (unfold consistent; by rewrite V3).
  apply twp_bind. eapply twp_read_at; [rewrite <- E3 in Hq'; exact Hq'|].
  case_bool_decide as Hnat; [apply twp_ret; split; [done|]; by exists false, f|].
  apply twp_bind. eapply twp_read_at; [exact Hu3|].
  apply twp_bind, twp_same; [apply load_arm64_syscall_frame_safe, (thread_registers _ _ _ _ (wf_thread _ Hr3 b u3 Hu3))|].
  intros f'. eapply twp_seq; [by apply has_runnable_shows|]. intros r k4 [-> Hrun]. apply twp_ret. split; [done|]. by exists r, f'.
Qed.

(** ** Every state of the system *)

Lemma arm64_system_consistent n user a :
  arm64_system platform terminal_service_image test_app_image n user a -> 5 + Z.of_nat n < 2 ^ 64 - 1 ->
  consistent (m_kernel a) /\ (user = true -> runnable (view_of (runtime (m_kernel a)))).
Proof.
  induction 1 as [k0 k x Hi Hrun|n a step a' Ha IH Hrun Hstep|n a p q va h v Ha IH Hact Hq Hva Ht|n a f b' f' k' Ha IH Hf Hsvc Hrun]; intros Hn.
  - split; [|done]. intros _. eapply start_accounted; [|exact Hi|exact Hrun]. by apply arm64_initialize_ok.
  - change (Z.to_nat X64_EMULATOR_INSTRUCTION_BUDGET) with 512%nat in Hn. destruct IH as [Hcons _]; [lia|].
    destruct (system_steady platform terminal_service_image test_app_image Hok n false a Ha ltac:(lia)) as (m & b & Hs).
    pose proof (enter_user_thread_shows m b n a Hs ltac:(lia) Hcons) as H. unfold wp in H. by rewrite Hrun in H.
  - apply IH. lia.
  - destruct IH as [Hcons Hr]; [lia|]. specialize (Hr eq_refl).
    destruct (system_steady platform terminal_service_image test_app_image Hok n true a Ha ltac:(lia)) as (m & b & [Hi Hw Hnx _ Hnat]).
    pose proof Hr as (t & Et & Hb). assert (Hg : going (m_kernel a) t) by (constructor; [by apply Hcons|exact Et|exact Hb]).
    destruct (proj1 (twp_returned _ _ _) (arm64_handle_syscall_shows f (m_kernel a) t ltac:(split; [done|lia]) Hf Hsvc (Hnat eq_refl) Hg))
      as (r & k2 & E & Hcons2 & b2 & f2 & -> & Hb2). rewrite Hrun in E. injection E as <- <- <-. by split.
Qed.
End system.
