(* ===== verification/BlockedThreads.v ===== *)
(** Who is blocked, on both systems: what the invariant of the abstract kernel
    says of the threads, channels and endpoints of the runtime. *)
From stdpp Require Import gmap.
From S2P Require Import Prelude EmulatorTypes AddressSpace UserMemory KernelObjectPool RuntimeTypes UserRuntime Rpc Syscalls RuntimeInvariant KernelSafety RuntimeStart KernelSamples PlatformMemory X64Platform X64PageTables X64Samples X64System Arm64Platform Arm64PageTables Arm64Emulation Arm64System Arm64Samples KernelView KernelSteps KernelRefinement ViewInvariant Accounting X64Refinement Arm64Refinement.
#[local] Open Scope Z_scope.

(** ** Channels *)

(** A session in the view, and the channel behind it. *)
Lemma session_channel r h s : runtime_wf r -> sessions (view_of r) !! h = Some s ->
  exists i c, get_by_index (m_channels r) i = Some c /\ get_handle c = h /\ m_endpoint c = Some (session_service s) /\
    session_call s = call_of c.
Proof.
  intros Hr (i & c & Hi & Hh & Hs)%(sessions_spec _ _ (wf_channels _ Hr)). exists i, c.
  destruct (channel_session _ _ _ (wf_channel _ Hr i c Hi)) as (s' & Hs' & _ & He & Hc). rewrite Hs in Hs'. injection Hs' as <-. done.
Qed.

Definition waits_on (r : user_runtime) (t i : nat) : Prop :=
  exists c s, get_by_index (m_channels r) i = Some c /\ m_pending_client_thread c = Some t /\
    m_pending_server_thread c = Some s /\ s <> t.

Lemma waits_channel r t h : runtime_wf r ->
  waits (view_of r) t h <-> exists i c, get_by_index (m_channels r) i = Some c /\ get_handle c = h /\ waits_on r t i.
Proof.
  intros Hr. split.
  - intros (s & pc & Hs & Hc & <- & Hne). destruct (session_channel _ _ _ Hr Hs) as (i & c & Hi & Hh & _ & E). exists i, c.
    split; [done|]. split; [done|]. exists c, (serving_thread pc). rewrite Hc in E. unfold call_of in E.
    destruct (m_pending_client_thread c), (m_pending_server_thread c); [|done..]. by injection E as ->.
  - intros (i & c & Hi & Hh & c' & b & Hi' & Hcl & Hsv & Hne). rewrite Hi in Hi'. injection Hi' as <-.
    destruct (channel_session _ _ _ (wf_channel _ Hr i c Hi)) as (s & Hs & _ & _ & E). unfold call_of in E. rewrite Hcl, Hsv in E.
    exists s. eexists. split; [|split; [exact E|done]]. apply (sessions_spec _ _ (wf_channels _ Hr)). by exists i, c.
Qed.

(** What the invariant says of the runtime. *)
Record blocked_threads_wait (r : user_runtime) : Prop := {
  blocked_thread_waits t u : get_by_index (m_threads r) t = Some u ->
    m_state u = USER_THREAD_STATE_BLOCKED <-> exists i, waits_on r t i;
  waits_on_one t i j : waits_on r t i -> waits_on r t j -> i = j;
  busy_endpoint_called e x : m_endpoints r !! e = Some x -> m_is_in_use x = true -> m_is_busy x = true ->
    exists i c, get_by_index (m_channels r) i = Some c /\ m_endpoint c = Some e /\ channel_is_busy c = true;
}.

Lemma accounted_runtime r : runtime_wf r -> accounted (view_of r) -> blocked_threads_wait r.
Proof.
  intros Hr Ha. constructor.
  - intros t u Hu. pose proof (thread_state_view _ _ _ Hu) as Hs. pose proof (blocked_waits _ Ha t) as Hb.
    unfold blocked in Hb. rewrite Hs in Hb. setoid_rewrite (waits_channel _ _ _ Hr) in Hb. split.
    + intros E. destruct (proj1 Hb) as (h & i & c & _ & _ & Hi); [by rewrite E|]. by exists i.
    + intros [i Hi]. pose proof Hi as (c & _ & Hc & _). assert (E : Some (m_state u) = Some USER_THREAD_STATE_BLOCKED); [|by injection E].
      apply Hb. by exists (get_handle c), i, c.
  - intros t i j Hi Hj. pose proof Hi as (c & _ & Hc & _). pose proof Hj as (c' & _ & Hc' & _).
    eapply (pool_unique _ _ (wf_channels _ Hr)); [exact Hc|exact Hc'|].
    apply (waits_once _ Ha t); apply (waits_channel _ _ _ Hr); [by exists i, c|by exists j, c'].
  - intros e x Hx Hu Hb. destruct (endpoint_service _ _ _ (wf_endpoint _ Hr e x Hx) Hu) as (y & Hy & _ & _ & _ & Eb & _).
    destruct (busy_called _ Ha e y) as (h & s & Hs & <- & Hc); [apply (service_lookup _ _ _ Hr); by exists x|congruence|].
    destruct (session_channel _ _ _ Hr Hs) as (i & c & Hi & _ & He & E). exists i, c. split_and!; [done|done|].
    rewrite (channel_idle _ _ _ (wf_channel _ Hr i c Hi)). apply bool_decide_eq_true. congruence.
Qed.

(** ** The systems *)

(** C8: On x86-64, whenever user mode runs: a thread is blocked exactly when it is the caller of
    a pending call that another thread serves, it waits for one call at most, and an endpoint is
    busy only while a channel to it has a call. *)
Theorem x64_blocked_threads_wait platform terminal_service_image test_app_image n k :
  X64PageTables.platform_ok platform terminal_service_image test_app_image ->
  x64_system platform terminal_service_image test_app_image n k -> Z.of_nat n < 2 ^ 63 ->
  blocked_threads_wait (runtime k).
Proof.
  intros Hok Hk Hn. destruct (system_accounted _ _ _ Hok n k Hk Hn) as [Ha _].
  destruct (reachable_invariant (X64Platform.initialize platform terminal_service_image test_app_image)
              ltac:(intros k1; by apply x64_initialize_ok) n k) as (Hr & _ & _); [by apply system_reachable|done|].
  by apply accounted_runtime.
Qed.

(** C9: In every state the arm64 system reaches, by native system calls, turns of emulated
    guests and user-mode stores: user mode runs no blocked thread, and as long as the current
    thread is not blocked, a thread is blocked exactly when it is the caller of a pending call
    that another thread serves, it waits for one call at most, and an endpoint is busy only
    while a channel to it has a call. *)
Theorem arm64_blocked_threads_wait platform terminal_service_image test_app_image n user a t u :
  Arm64PageTables.platform_ok platform terminal_service_image test_app_image ->
  arm64_system platform terminal_service_image test_app_image n user a -> Z.of_nat n < 2 ^ 63 ->
  m_current_thread (runtime (m_kernel a)) = Some t -> get_by_index (m_threads (runtime (m_kernel a))) t = Some u ->
  (user = true -> m_state u <> USER_THREAD_STATE_BLOCKED) /\
  (m_state u <> USER_THREAD_STATE_BLOCKED -> blocked_threads_wait (runtime (m_kernel a))).
Proof.
  intros Hok Ha Hn Hc Hu. destruct (arm64_system_consistent _ _ _ Hok n user a Ha ltac:(lia)) as [Hcons Hrun].
  pose proof (thread_state_view _ _ _ Hu) as Hs. split.
  - intros Huser. destruct (Hrun Huser) as (t' & Et & Hb). cbn in Et. rewrite Hc in Et. injection Et as <-.
    intros E. apply Hb. unfold blocked. rewrite E in Hs. exact Hs.
  - intros Hnb. destruct (system_steady _ _ _ Hok n user a Ha ltac:(lia)) as (m & b & [_ Hw _ _ _]).
    apply accounted_runtime; [done|]. apply Hcons. exists t. split; [exact Hc|]. unfold blocked. rewrite Hs. by intros [= E].
Qed.

(** ** Instances *)

Lemma x64_blocked_threads_wait_witness :
  exists k, x64_system X64Samples.sample_platform X64Samples.sample_service X64Samples.sample_app 0 k /\
    blocked_threads_wait (runtime k).
Proof.
  destruct (system_starts X64Samples.sample_platform X64Samples.sample_service X64Samples.sample_app KernelSamples.sample_image
              sample_platform_ok sample_images_accepted sample_image_ok) as (p & t & _ & k1 & _ & _ & _ & _ & Hk & _).
  revert Hk. generalize (after_entry k1 p t). intros k Hk. exists k. split; [exact Hk|].
  exact (x64_blocked_threads_wait X64Samples.sample_platform X64Samples.sample_service X64Samples.sample_app 0 k
    sample_platform_ok Hk ltac:(lia)).
Defined.

Lemma arm64_blocked_threads_wait_witness :
  exists k t, arm64_system Arm64Samples.sample_platform Arm64Samples.sample_service Arm64Samples.sample_app 0 false (booted k) /\
    m_current_thread (runtime k) = Some t /\ blocked_threads_wait (runtime k).
Proof.
  destruct (arm64_starts Arm64Samples.sample_platform Arm64Samples.sample_service Arm64Samples.sample_app KernelSamples.sample_image
              arm64_sample_platform_ok arm64_sample_images_accepted sample_image_ok) as (p & t & k & E & _ & Hk & Hw & Hc).
  exists k, t. split; [exact Hk|]. split; [exact Hc|].
  destruct (start_accounted _ KernelSamples.sample_image (p, t) k (arm64_initialize_ok _ _ _ arm64_sample_platform_ok) sample_image_ok E)
    as [_ (t' & Et & Hb)]. cbn in Et. rewrite Hc in Et. injection Et as <-.
  destruct (wf_current _ Hw t Hc) as [u Hu].
  apply (proj2 (arm64_blocked_threads_wait Arm64Samples.sample_platform Arm64Samples.sample_service Arm64Samples.sample_app 0 false
    (booted k) t u arm64_sample_platform_ok Hk ltac:(lia) Hc Hu)).
  intros Es. apply Hb. unfold blocked. pose proof (thread_state_view _ _ _ Hu) as Hs. rewrite Es in Hs. exact Hs.
Defined.
