(* ===== verification/Boot.v ===== *)
(** The way from the boot code to the runtime: [kernel/kernel.cpp],
    [kernel/machine.cpp], [kernel/debug.cpp], [kernel/panic.cpp], the entry and
    machine files of [arch/x64] and [arch/arm64], and the global constructors
    of [kernel/klibc/memory.cpp].  The debug channel is the list of what the
    processor was told: bytes written to a port on x86-64, semihosting calls on
    arm64. *)
From Stdlib Require Import String.
From S2P Require Import Prelude UserMemory KernelObjectPool RuntimeTypes UserRuntime Rpc Syscalls RuntimeInvariant RuntimeStart KernelSamples SystemStart PlatformMemory X64Platform X64PageTables X64Samples X64System Arm64Platform Arm64PageTables Arm64Emulation Arm64System Arm64Samples.
#[local] Open Scope Z_scope.

(** ** Data *)

Definition ARCH_X64 : Z := 0.
Definition ARCH_ARM64 : Z := 1.

Record boot_info := {
  info_arch_id : Z;
  device_tree_blob_address : Z;
  device_tree_blob_size : Z;
}.

Definition MACHINE_NAME_MAX_LENGTH : nat := 32.

Inductive machine_kind :=
  | MACHINE_KIND_UNKNOWN
  | MACHINE_KIND_X64_GENERIC
  | MACHINE_KIND_QEMU_ARM64_VIRT.

Record machine_descriptor := {
  arch_id : Z;
  descriptor_kind : machine_kind;
  name : list Z;   (* char[32] *)
}.

(** [memset(&machine, 0, sizeof(machine))]. *)
Definition zero_machine : machine_descriptor :=
  {| arch_id := 0; descriptor_kind := MACHINE_KIND_UNKNOWN; name := replicate MACHINE_NAME_MAX_LENGTH 0 |}.

Inductive debug_action :=
  | outb (port value : Z)
  | semihost_call (operation : Z) (parameter : list Z)   (* the string the parameter points to *)
  | breakpoint.

(** [g_machine], the debug channel, the rest of the kernel, and the registers the
    processor entered user mode with (instruction pointer, stack pointer and
    flags), if it has. *)
Record boot_state := {
  g_machine : machine_descriptor;
  debug_channel : list debug_action;
  kernel_state : kernel;
  user_entry : option (Z * Z * Z);
}.

Abbreviation B := (M boot_state).

Definition set_machine (m : machine_descriptor) : B unit :=
  modify (fun s => {| g_machine := m; debug_channel := debug_channel s; kernel_state := kernel_state s;
                      user_entry := user_entry s |}).

Definition act (a : debug_action) : B unit :=
  modify (fun s => {| g_machine := g_machine s; debug_channel := debug_channel s ++ [a]; kernel_state := kernel_state s;
                      user_entry := user_entry s |}).

(** A string literal: its characters and the null character. *)
Definition literal (s : string) : list Z :=
  ((fun c => Z.of_nat (Ascii.nat_of_ascii c)) <$> list_ascii_of_string s) ++ [0].

(** ** Debug output *)

Definition DEBUGCON_PORT : Z := 0xE9.

(** The loop; past the end of an array without null character it has no value. *)
Fixpoint x64_write_loop (message : list Z) : B unit :=
  match message with
  | [] => undefined out_of_bounds
  | c :: message => if c =? 0 then mret tt else act (outb DEBUGCON_PORT (u8 c));; x64_write_loop message
  end.

(** [message = None] is a null pointer. *)
Definition x64_debug_semihost_write (message : option (list Z)) : B unit :=
  match message with None => mret tt | Some message => x64_write_loop message end.

Definition SYS_WRITE0 : Z := 0x04.

Definition arm64_debug_semihost_write (message : option (list Z)) : B unit :=
  match message with None => mret tt | Some message => act (semihost_call SYS_WRITE0 message) end.

Definition arch_debug_semihost_write `{Target} (message : option (list Z)) : B unit :=
  match target with x86_64 => x64_debug_semihost_write message | aarch64 => arm64_debug_semihost_write message end.

(** [int3] or [brk #0]. *)
Definition arch_debug_break : B unit := act breakpoint.

Section kernel.
Context `{Target}.

Definition debug_write_semihost_prefixed_line (prefix message : option (list Z)) : B unit :=
  arch_debug_semihost_write prefix;;
  arch_debug_semihost_write message;;
  arch_debug_semihost_write (Some (literal (String (Ascii.ascii_of_nat 10) EmptyString))).

Definition debug_log (message : option (list Z)) : B unit :=
  debug_write_semihost_prefixed_line (Some (literal "[gdb] ")) message.

(** The kernel's own model keeps the lines it logs in its list of events; they
    come out on the debug channel. *)
Fixpoint debug_logs (lines : list (list Z)) : B unit :=
  match lines with
  | [] => mret tt
  | message :: lines => debug_log (Some message);; debug_logs lines
  end.

Definition on_kernel {A} (m : K A) : B A :=
  s ← get;
  match m (kernel_state s) with
  | Returned a k =>
      modify (fun s => {| g_machine := g_machine s; debug_channel := debug_channel s; kernel_state := k;
                          user_entry := user_entry s |});;
      debug_logs (drop (length (logged_lines (events (kernel_state s)))) (logged_lines (events k)));;
      mret a
  | Undefined u => undefined u
  | OutOfFuel => out_of_fuel
  end.

Definition set_user_entry (registers : Z * Z * Z) : B unit :=
  modify (fun s => {| g_machine := g_machine s; debug_channel := debug_channel s; kernel_state := kernel_state s;
                      user_entry := Some registers |}).

Definition debug_break : B unit := arch_debug_break.

Definition debug_break_reason (reason : option (list Z)) : B unit := debug_log reason;; debug_break.

(** [panic] ends in an empty loop. *)
Definition panic {A} (message : string) : B (may_panic A) :=
  debug_log (Some (literal "PANIC"));;
  debug_log (Some (literal message));;
  mret (panics message).

(** ** The machine *)

(** [copy_string(out_machine.name, sizeof(out_machine.name), value)]. *)
Definition copy_name (m : machine_descriptor) (value : string) : B machine_descriptor :=
  match copy_string (name m) MACHINE_NAME_MAX_LENGTH (literal value) with
  | Some n => mret {| arch_id := arch_id m; descriptor_kind := descriptor_kind m; name := n |}
  | None => undefined out_of_bounds
  end.

Definition with_kind (m : machine_descriptor) (kind : machine_kind) : machine_descriptor :=
  {| arch_id := arch_id m; descriptor_kind := kind; name := name m |}.

Definition with_arch_id (m : machine_descriptor) (id : Z) : machine_descriptor :=
  {| arch_id := id; descriptor_kind := descriptor_kind m; name := name m |}.

(** The functions below return [*out_machine] too. *)
Definition x64_initialize_machine (info : boot_info) : B (bool * machine_descriptor) :=
  m ← copy_name (with_kind (with_arch_id zero_machine (info_arch_id info)) MACHINE_KIND_X64_GENERIC) "x64-generic";
  mret (info_arch_id info =? ARCH_X64, m).

Definition initialize_qemu_arm64_virt_machine_descriptor (info : boot_info) (m : machine_descriptor) : B machine_descriptor :=
  copy_name (with_kind (with_arch_id m (info_arch_id info)) MACHINE_KIND_QEMU_ARM64_VIRT) "qemu-arm64-virt".

Definition try_initialize_qemu_arm64_virt_machine (info : boot_info) (m : machine_descriptor) : B (bool * machine_descriptor) :=
  if negb (info_arch_id info =? ARCH_ARM64) then mret (false, m)
  else
    m ← initialize_qemu_arm64_virt_machine_descriptor info m;
    mret (true, m).

Definition arm64_initialize_machine (info : boot_info) : B (bool * machine_descriptor) :=
  if negb (info_arch_id info =? ARCH_ARM64) then mret (false, zero_machine)
  else try_initialize_qemu_arm64_virt_machine info (with_arch_id zero_machine (info_arch_id info)).

Definition arch_initialize_machine (info : boot_info) : B (bool * machine_descriptor) :=
  match target with x86_64 => x64_initialize_machine info | aarch64 => arm64_initialize_machine info end.

Definition initialize_machine (info : boot_info) : B (may_panic unit) :=
  set_machine zero_machine;;
  initialized ← arch_initialize_machine info;
  let '(supported, m) := initialized in
  set_machine m;;
  if negb supported then panic "unsupported boot machine" else mret (continues tt).

Definition get_machine : B machine_descriptor := gets g_machine.

(** ** The kernel *)

(** Where the linker put the platform object and the embedded images, and the
    constructors of global objects. *)
Variable platform : Z.
Variables terminal_service_image test_app_image : embedded_image.
Variable init_array : list (B unit).

Fixpoint run_constructors (l : list (B unit)) : B unit :=
  match l with
  | [] => mret tt
  | current :: l => current;; run_constructors l
  end.

Definition run_global_constructors : B unit := run_constructors init_array.

(** The runtime of the platform; a panic in it is logged_lines as every panic.  On
    x86-64 it ends with the entry of the first thread.  On arm64
    [enter_user_thread] is a loop that enters one thread after the other
    ([Arm64Emulation.enter_user_thread] is its body, which writes the lines that
    announce the runtime): the boot ends where that loop begins. *)
Definition arch_run_initial_user_runtime : B (may_panic (nat * nat)) :=
  entered ← on_kernel (run_initial_user_runtime
    match target with
    | x86_64 => X64Platform.initialize platform terminal_service_image test_app_image
    | aarch64 => Arm64Platform.initialize platform terminal_service_image test_app_image
    end);
  match entered with
  | panics m => panic m
  | continues (initial_process, initial_thread) =>
      match target with
      | x86_64 =>
          registers ← on_kernel (X64Platform.enter_user_thread initial_process initial_thread);
          set_user_entry registers
      | aarch64 => mret tt
      end;;
      mret (continues (initial_process, initial_thread))
  end.

Definition kernel_main (info : boot_info) : B (may_panic (nat * nat)) :=
  initialized ← initialize_machine info;
  match initialized with
  | panics m => mret (panics m)
  | continues _ =>
      if info_arch_id info =? ARCH_X64 then
        debug_log (Some (literal "ringos x64"));;
        debug_log (Some (literal "gdb hooks ready"));;
        debug_log (Some (literal "hello world"));;
        arch_run_initial_user_runtime
      else if info_arch_id info =? ARCH_ARM64 then
        debug_log (Some (literal "ringos arm64"));;
        debug_log (Some (literal "gdb hooks ready"));;
        debug_log (Some (literal "hello world"));;
        arch_run_initial_user_runtime
      else panic "unknown architecture id"
  end.

Definition x64_entry : B (may_panic (nat * nat)) :=
  run_global_constructors;;
  kernel_main {| info_arch_id := ARCH_X64; device_tree_blob_address := 0; device_tree_blob_size := 0 |}.

(** When no thread can run any more the assembly of the entry comes here; the
    empty loop that follows is never left (arm64 parks the processor instead). *)
Definition x64_user_thread_exit : B unit :=
  debug_log (Some (literal "x64 returned to kernel after user runtime exit")).

(** The vectors of exceptions the kernel does not expect. *)
Definition arm64_unhandled_exception {A} : B (may_panic A) := panic "arm64 hit an unhandled exception vector".

(** ** The device tree blob *)

Definition FDT_MAGIC : Z := 0xD00DFEED.

Definition read_big_endian_u32 (m : host_memory) (buffer : Z) : Z :=
  if buffer =? 0 then 0
  else Z.lor (Z.lor (Z.lor (Z.shiftl (m buffer) 24) (Z.shiftl (m (buffer + 1)) 16)) (Z.shiftl (m (buffer + 2)) 8)) (m (buffer + 3)).

Definition try_read_device_tree_blob_size (m : host_memory) (device_tree_blob_address : Z) : Z :=
  if device_tree_blob_address =? 0 then 0
  else if negb (read_big_endian_u32 m device_tree_blob_address =? FDT_MAGIC) then 0
  else read_big_endian_u32 m (device_tree_blob_address + 4).

Definition arm64_entry (device_tree_blob_address : Z) : B (may_panic (nat * nat)) :=
  run_global_constructors;;
  s ← get;
  kernel_main {| info_arch_id := ARCH_ARM64; device_tree_blob_address := device_tree_blob_address;
                 device_tree_blob_size := try_read_device_tree_blob_size (host (kernel_state s)) device_tree_blob_address |}.
End kernel.

(** * What the debugger shows *)

(** QEMU's debug console shows the bytes written to its port, a semihosting host
    the characters of the string up to its null character. *)
Definition shown (a : debug_action) : list Z :=
  match a with
  | outb port value => if port =? DEBUGCON_PORT then [value] else []
  | semihost_call operation parameter => if operation =? SYS_WRITE0 then c_string parameter else []
  | breakpoint => []
  end.

Definition console (s : boot_state) : list Z := concat (shown <$> debug_channel s).

Definition line (text : string) : list Z := c_string (literal "[gdb] ") ++ c_string (literal text) ++ [10].

(** Only the console changes, by [text]. *)
Definition writes (s : boot_state) (text : list Z) (s' : boot_state) : Prop :=
  g_machine s' = g_machine s /\ kernel_state s' = kernel_state s /\ console s' = console s ++ text.
Abbreviation written s text := (fun _ s' => writes s text s').

Lemma writes_trans s a s1 b s2 : writes s a s1 -> writes s1 b s2 -> writes s (a ++ b) s2.
Proof. intros (M1 & K1 & C1) (M2 & K2 & C2). split_and!; [congruence..|]. by rewrite C2, C1, <- app_assoc. Qed.

Lemma act_writes a s : twp (act a) (written s (shown a)) s.
Proof.
  split_and!; [done..|]. unfold console. cbn [debug_channel]. rewrite fmap_app, concat_app. cbn. by rewrite app_nil_r.
Qed.

(** A null terminated array of characters. *)
Definition terminated (message : list Z) : Prop := 0 ∈ message /\ Forall u8_ok message.

Lemma arch_write_console `{Target} message s :
  terminated message -> twp (arch_debug_semihost_write (Some message)) (written s (c_string message)) s.
Proof.
  intros [Hz Hb]. unfold arch_debug_semihost_write. destruct target; cbn; [|apply (act_writes (semihost_call SYS_WRITE0 message))].
  revert s. induction Hb as [|c message Hc Hb IH]; intros s; [by apply not_elem_of_nil in Hz|]. cbn [x64_write_loop c_string].
  destruct (Z.eqb_spec c 0) as [->|Hne].
  { apply twp_ret. split_and!; [done..|]. by rewrite app_nil_r. }
  apply elem_of_cons in Hz as [|Hz]; [congruence|]. rewrite u8_id by done.
  apply twp_bind. eapply twp_mono; [apply act_writes|]. intros [] s1 W1. eapply twp_mono; [by apply IH|]. intros [] s2 W2.
  exact (writes_trans _ _ _ _ _ W1 W2).
Qed.

Lemma literal_terminated text : terminated (literal text).
Proof.
  unfold literal. split; [apply elem_of_app; right; apply list_elem_of_here|].
  apply Forall_app. split; [|by repeat constructor]. apply Forall_fmap, Forall_forall. intros c _. cbn.
  pose proof (Ascii.nat_ascii_bounded c). unfold u8_ok. lia.
Qed.

Lemma debug_log_console `{Target} message s :
  terminated message ->
  twp (debug_log (Some message)) (written s (c_string (literal "[gdb] ") ++ c_string message ++ [10])) s.
Proof.
  intros Hm. apply twp_bind. eapply twp_mono; [apply arch_write_console, literal_terminated|]. intros [] s1 W1.
  apply twp_bind. eapply twp_mono; [by apply arch_write_console|]. intros [] s2 W2.
  eapply twp_mono; [apply arch_write_console, literal_terminated|]. intros [] s3 W3.
  exact (writes_trans _ _ _ _ _ W1 (writes_trans _ _ _ _ _ W2 W3)).
Qed.

(** What the debugger shows of lines of the kernel. *)
Definition shown_lines (lines : list (list Z)) : list Z :=
  concat ((fun message => c_string (literal "[gdb] ") ++ c_string message ++ [10]) <$> lines).

Lemma debug_logs_console `{Target} lines s :
  Forall terminated lines -> twp (debug_logs lines) (written s (shown_lines lines)) s.
Proof.
  intros Hl. revert s. induction Hl as [|message lines Hm Hl IH]; intros s; cbn [debug_logs].
  - apply twp_ret. split_and!; [done..|]. by rewrite app_nil_r.
  - apply twp_bind. eapply twp_mono; [by apply debug_log_console|]. intros [] s1 W1. eapply twp_mono; [apply IH|]. intros [] s2 W2.
    exact (writes_trans _ _ _ _ _ W1 W2).
Qed.

(** An operation of the kernel, and the lines it logs. *)
Lemma on_kernel_console `{Target} {A} (m : K A) lines a k' s (Q : A -> boot_state -> Prop) :
  m (kernel_state s) = Returned a k' -> logged_lines (events k') = logged_lines (events (kernel_state s)) ++ lines -> Forall terminated lines ->
  (forall s', g_machine s' = g_machine s -> kernel_state s' = k' -> console s' = console s ++ shown_lines lines -> Q a s') ->
  twp (on_kernel m) Q s.
Proof.
  intros E El Hl HQ. unfold on_kernel. apply twp_bind. cbn [get twp]. rewrite E. apply twp_bind, twp_modify.
  rewrite El, drop_app_length. apply twp_bind. eapply twp_mono; [by apply debug_logs_console|].
  intros [] s1 (M1 & K1 & C1). by apply twp_ret, HQ.
Qed.

Lemma debug_line_console `{Target} text s : twp (debug_log (Some (literal text))) (written s (line text)) s.
Proof. apply debug_log_console, literal_terminated. Qed.

Lemma panic_console `{Target} {A} message s :
  twp (panic (A := A) message) (fun r s' => r = panics message /\ writes s (line "PANIC" ++ line message) s') s.
Proof.
  apply twp_bind. eapply twp_mono; [apply debug_line_console|]. intros [] s1 W1.
  apply twp_bind. eapply twp_mono; [apply debug_line_console|]. intros [] s2 W2.
  apply twp_ret. split; [done|]. by eapply writes_trans.
Qed.

(** ** The machine *)

Definition padded_name (text : string) : list Z := take MACHINE_NAME_MAX_LENGTH (literal text ++ replicate MACHINE_NAME_MAX_LENGTH 0).

(** The machine of each architecture. *)
Definition booted_machine `{Target} : machine_descriptor :=
  match target with
  | x86_64 => {| arch_id := ARCH_X64; descriptor_kind := MACHINE_KIND_X64_GENERIC; name := padded_name "x64-generic" |}
  | aarch64 => {| arch_id := ARCH_ARM64; descriptor_kind := MACHINE_KIND_QEMU_ARM64_VIRT; name := padded_name "qemu-arm64-virt" |}
  end.

Definition own_arch_id `{Target} : Z := match target with x86_64 => ARCH_X64 | aarch64 => ARCH_ARM64 end.

Lemma initialize_machine_returns `{Target} info s :
  info_arch_id info = own_arch_id ->
  initialize_machine info s
  = Returned (continues tt) {| g_machine := booted_machine; debug_channel := debug_channel s; kernel_state := kernel_state s; user_entry := user_entry s |}.
Proof.
  unfold own_arch_id, initialize_machine, arch_initialize_machine, booted_machine, x64_initialize_machine, arm64_initialize_machine,
    try_initialize_qemu_arm64_virt_machine, initialize_qemu_arm64_virt_machine_descriptor.
  destruct target; intros ->; reflexivity.
Qed.

Definition banner `{Target} : list Z :=
  line (match target with x86_64 => "ringos x64" | aarch64 => "ringos arm64" end) ++ line "gdb hooks ready" ++ line "hello world".

(** What the debugger shows at boot: the banner, and the line of the platform
    before the first thread enters user mode.  On arm64 such lines belong to the
    loop after the boot. *)
Definition ready_line `{Target} : list Z :=
  match target with x86_64 => line "x64 initial user runtime ready" | aarch64 => [] end.

Definition boot_lines `{Target} : list Z := banner ++ ready_line.

Lemma ready_shown : shown_lines [X64_RUNTIME_READY] = line "x64 initial user runtime ready".
Proof. vm_compute. reflexivity. Qed.

Lemma ready_terminated : Forall terminated [X64_RUNTIME_READY].
Proof.
  constructor; [|constructor]. exact (literal_terminated "x64 initial user runtime ready").
Qed.

Lemma logged_entered k p t : logged_lines (events (after_entry k p t)) = logged_lines (events k) ++ [X64_RUNTIME_READY].
Proof. unfold logged_lines, after_entry. cbn [events]. by rewrite omap_app. Qed.

Section boot.
Context `{Target} (platform : Z) (terminal_service_image test_app_image : embedded_image) (init_array : list (B unit)).

(** [kernel_main] up to the runtime: the machine is known and the banner written. *)
Lemma kernel_main_console info s Q :
  info_arch_id info = own_arch_id ->
  (forall s1, g_machine s1 = booted_machine -> kernel_state s1 = kernel_state s -> console s1 = console s ++ banner ->
     twp (arch_run_initial_user_runtime platform terminal_service_image test_app_image) Q s1) ->
  twp (kernel_main platform terminal_service_image test_app_image info) Q s.
Proof.
  intros Hi HQ. unfold twp, kernel_main. rewrite (bind_eq _ _ _ _ _ (initialize_machine_returns info s Hi)). rewrite Hi.
  set (s0 := {| g_machine := booted_machine |}).
  assert (Hrun : forall text, banner = line text ++ line "gdb hooks ready" ++ line "hello world" ->
    twp (debug_log (Some (literal text));; debug_log (Some (literal "gdb hooks ready"));;
         debug_log (Some (literal "hello world"));; arch_run_initial_user_runtime platform terminal_service_image test_app_image) Q s0).
  { intros text Eb. apply twp_bind. eapply twp_mono; [apply debug_line_console|]. intros [] s1 W1.
    apply twp_bind. eapply twp_mono; [apply debug_line_console|]. intros [] s2 W2.
    apply twp_bind. eapply twp_mono; [apply debug_line_console|]. intros [] s3 W3.
    destruct (writes_trans _ _ _ _ _ W1 (writes_trans _ _ _ _ _ W2 W3)) as (M & K & C).
    apply HQ; [done|done|]. by rewrite C, Eb. }
  unfold own_arch_id, banner in *. destruct target; exact (Hrun _ eq_refl).
Qed.

(** The global constructors return, write nothing and leave [k]. *)
Definition constructed (s : boot_state) (k : kernel) : Prop :=
  twp (run_global_constructors init_array) (fun _ s1 => kernel_state s1 = k /\ console s1 = console s) s.

(** The platform's preparation of the processes. *)
Definition platform_initialize : K (may_panic initial_user_runtime_bootstrap) :=
  match target with
  | x86_64 => X64Platform.initialize platform terminal_service_image test_app_image
  | aarch64 => Arm64Platform.initialize platform terminal_service_image test_app_image
  end.

(** The runtime starts, from kernel [k0], with thread [t], [u], of process [p],
    and logs nothing. *)
Record starts (k0 : kernel) (p t : nat) (u : thread) (k1 : kernel) : Prop := {
  starts_returned : run_initial_user_runtime platform_initialize k0 = Returned (continues (p, t)) k1;
  starts_logged : logged_lines (events k1) = logged_lines (events k0);
  starts_thread : get_by_index (m_threads (runtime k1)) t = Some u;
}.

(** The kernel when the boot is over, and the registers of user mode. *)
Definition left_by_boot (k1 : kernel) (p t : nat) : kernel := match target with x86_64 => after_entry k1 p t | aarch64 => k1 end.
Definition entry_of_boot (u : thread) (s : boot_state) : Prop :=
  match target with x86_64 => user_entry s = Some (entry_registers u) | aarch64 => True end.

(** The runtime of the platform. *)
Lemma run_runtime_returns s p t u k1 :
  starts (kernel_state s) p t u k1 ->
  twp (arch_run_initial_user_runtime platform terminal_service_image test_app_image)
    (fun r s' => r = continues (p, t) /\ g_machine s' = g_machine s /\ kernel_state s' = left_by_boot k1 p t /\
       entry_of_boot u s' /\ console s' = console s ++ ready_line) s.
Proof.
  intros [E El Hu]. unfold arch_run_initial_user_runtime, left_by_boot, entry_of_boot, ready_line. apply twp_bind.
  eapply (on_kernel_console _ []); [exact E|by rewrite El, app_nil_r|done|]. intros s1 M1 K1 C1. apply twp_bind. destruct target.
  - apply twp_bind. eapply (on_kernel_console _ [X64_RUNTIME_READY]);
      [rewrite K1; by apply enter_user_thread_eq|rewrite K1; apply logged_entered|exact ready_terminated|].
    intros s2 M2 K2 C2. apply twp_modify, twp_ret. split_and!; [done|exact (eq_trans M2 M1)|exact K2|done|].
    change (console s2 = console s ++ line "x64 initial user runtime ready"). rewrite C2, C1, ready_shown. by rewrite app_nil_r.
  - apply twp_ret, twp_ret. by split_and!.
Qed.

(** The boot has ended in the runtime of kernel [k], with first process and
    thread [x]. *)
Record boots (s : boot_state) (x : nat * nat) (k : kernel) (r : may_panic (nat * nat)) (s' : boot_state) : Prop := {
  boots_returned : r = continues x;
  boots_machine : g_machine s' = booted_machine;
  boots_console : console s' = console s ++ boot_lines;
  boots_kernel : kernel_state s' = k;
}.

Lemma kernel_main_returns info s p t u k1 :
  info_arch_id info = own_arch_id -> starts (kernel_state s) p t u k1 ->
  twp (kernel_main platform terminal_service_image test_app_image info)
    (fun r s' => boots s (p, t) (left_by_boot k1 p t) r s' /\ entry_of_boot u s') s.
Proof.
  intros Hi E. apply kernel_main_console; [done|]. intros s1 M K C. rewrite <- K in E.
  eapply twp_mono; [by apply run_runtime_returns|]. intros r s2 (-> & M2 & K2 & U2 & C2). split; [|done].
  constructor; [done|congruence| |done]. unfold boot_lines. by rewrite C2, C, <- app_assoc.
Qed.

(** A record of another architecture is refused. *)
Lemma kernel_main_refuses info s :
  info_arch_id info <> own_arch_id ->
  twp (kernel_main platform terminal_service_image test_app_image info)
    (fun r s' => r = panics "unsupported boot machine" /\ kernel_state s' = kernel_state s /\
       console s' = console s ++ line "PANIC" ++ line "unsupported boot machine") s.
Proof.
  intros Hi. apply twp_bind.
  assert (Hm : exists m, arch_initialize_machine info {| g_machine := zero_machine; debug_channel := debug_channel s; kernel_state := kernel_state s; user_entry := user_entry s |}
    = Returned (false, m) {| g_machine := zero_machine; debug_channel := debug_channel s; kernel_state := kernel_state s;
                      user_entry := user_entry s |}).
  { unfold own_arch_id in Hi. unfold arch_initialize_machine, x64_initialize_machine, arm64_initialize_machine. destruct target.
    - eexists. erewrite bind_eq by reflexivity. by rewrite (proj2 (Z.eqb_neq _ _) Hi).
    - rewrite (proj2 (Z.eqb_neq _ _) Hi). by eexists. }
  destruct Hm as [m Hm]. unfold initialize_machine. apply twp_bind, twp_modify, twp_bind. unfold twp at 1. rewrite Hm.
  apply twp_bind, twp_modify. cbn [negb]. eapply twp_mono; [apply panic_console|]. intros r s1 (-> & M & K & C).
  apply twp_ret. by split_and!.
Qed.
End boot.

(** ** The device tree blob *)

(** Four bytes in memory, the most significant first. *)
Definition big_endian_at (m : host_memory) (x value : Z) : Prop :=
  m x = Z.shiftr value 24 /\ m (x + 1) = Z.land (Z.shiftr value 16) 255 /\
  m (x + 2) = Z.land (Z.shiftr value 8) 255 /\ m (x + 3) = Z.land value 255.

(** A bit of a byte of a word, moved to place [k]. *)
Lemma testbit_byte_at value k n : 0 <= k -> 0 <= n ->
  Z.testbit (Z.shiftl (Z.land (Z.shiftr value k) 255) k) n = (k <=? n) && (n <? k + 8) && Z.testbit value n.
Proof.
  intros Hk Hn. rewrite Z.shiftl_spec by done. destruct (Z.leb_spec k n); [|by rewrite Z.testbit_neg_r by lia].
  change 255 with (Z.ones 8). rewrite Z.land_spec, Z.shiftr_spec, Z.testbit_ones_nonneg by lia.
  replace (n - k + k) with n by lia. destruct (Z.ltb_spec (n - k) 8), (Z.ltb_spec n (k + 8)); try lia; cbn [andb]; by rewrite ?andb_true_r, ?andb_false_r.
Qed.

Lemma read_big_endian_u32_correct m x value :
  x <> 0 -> 0 <= value < 2 ^ 32 -> big_endian_at m x value -> read_big_endian_u32 m x = value.
Proof.
  intros Hx Hv (E0 & E1 & E2 & E3). unfold read_big_endian_u32. rewrite (proj2 (Z.eqb_neq _ _) Hx), E0, E1, E2, E3.
  apply Z.bits_inj'. intros n Hn. pose proof (testbit_byte_at value 0 n ltac:(lia) Hn) as H0.
  rewrite Z.shiftl_0_r, Z.shiftr_0_r in H0. rewrite !Z.lor_spec, !testbit_byte_at, H0, Z.shiftl_spec by lia.
  destruct (Z.ltb_spec n 24).
  - rewrite Z.testbit_neg_r by lia. destruct (Z.leb_spec 0 n), (Z.leb_spec 8 n), (Z.leb_spec 16 n), (Z.ltb_spec n (0 + 8)), (Z.ltb_spec n (8 + 8)),
      (Z.ltb_spec n (16 + 8)); try lia; cbn [andb orb]; by rewrite ?orb_false_r.
  - rewrite Z.shiftr_spec by lia. replace (n - 24 + 24) with n by lia.
    rewrite (proj2 (Z.ltb_ge n (16 + 8))), (proj2 (Z.ltb_ge n (8 + 8))), (proj2 (Z.ltb_ge n (0 + 8))) by lia.
    by rewrite !andb_false_r, !orb_false_r.
Qed.

(** The size of the blob is the one its header has, if the header is one. *)
Lemma try_read_device_tree_blob_size_correct m x magic total :
  x <> 0 -> x + 4 <> 0 -> 0 <= magic < 2 ^ 32 -> 0 <= total < 2 ^ 32 -> big_endian_at m x magic -> big_endian_at m (x + 4) total ->
  try_read_device_tree_blob_size m x = if magic =? FDT_MAGIC then total else 0.
Proof.
  intros Hx Hx4 Hm Ht H1 H2. unfold try_read_device_tree_blob_size.
  rewrite (proj2 (Z.eqb_neq _ _) Hx), (read_big_endian_u32_correct m x magic), (read_big_endian_u32_correct m (x + 4) total) by done.
  by destruct (magic =? FDT_MAGIC).
Qed.

(** * From the entry point to user mode *)

(** C14: The boot of an x86-64 machine whose embedded images the loader accepts (their section
    data within their regions, which it does not check: load_pe32_plus_image_overruns), with
    global constructors that return, print nothing and leave a kernel whose pools have their
    capacities: the machine is identified, the debugger shows exactly four lines, the three of
    the banner and the one with which the platform announces the runtime, and without a panic
    the first thread enters user mode, with the instruction pointer, stack pointer and flags of
    its context, as the current one of a well-formed kernel from which the system runs. *)
Theorem x64_boots platform terminal_service_image test_app_image init_array s k :
  X64PageTables.platform_ok platform terminal_service_image test_app_image ->
  X64PageTables.images_accepted terminal_service_image test_app_image ->
  constructed init_array s k -> image_ok (runtime k) ->
  exists p t u k' s',
    x64_entry (H := x64_target) platform terminal_service_image test_app_image init_array s = Returned (continues (p, t)) s' /\
    boots (H := x64_target) s (p, t) k' (continues (p, t)) s' /\
    x64_system platform terminal_service_image test_app_image 0 k' /\
    runtime_wf (runtime k') /\ m_current_thread (runtime k') = Some t /\
    get_by_index (m_threads (runtime k')) t = Some u /\ m_process u = Some p /\ user_entry s' = Some (entry_registers u).
Proof.
  intros Hok Hl Hc Hi. destruct (system_starts _ _ _ k Hok Hl Hi) as (p & t & u & k1 & E & El & Hu & Hp & Hs & Hw & Ht).
  exists p, t, u, (after_entry k1 p t). assert (H : twp (x64_entry (H := x64_target) platform terminal_service_image test_app_image init_array)
    (fun r s' => boots (H := x64_target) s (p, t) (after_entry k1 p t) r s' /\ user_entry s' = Some (entry_registers u)) s).
  { apply twp_bind. eapply twp_mono; [exact Hc|]. intros [] s1 [K1 C1].
    eapply twp_mono; [eapply (kernel_main_returns (H := x64_target)); [done|rewrite K1; by constructor]|].
    intros r s2 [[R2 M2 C2 K2] U2]. split; [|done]. constructor; [done|done|congruence|done]. }
  apply twp_returned in H as (r & s' & Er & Hb & Hue). pose proof (boots_returned _ _ _ _ _ Hb) as ->. exists s'. by split_and!.
Qed.

Lemma x64_boots_witness :
  exists p t u k' s',
    x64_entry (H := x64_target) X64Samples.sample_platform X64Samples.sample_service X64Samples.sample_app []
      {| g_machine := zero_machine; debug_channel := []; kernel_state := KernelSamples.sample_image; user_entry := None |} = Returned (continues (p, t)) s' /\
    console s' = line "ringos x64" ++ line "gdb hooks ready" ++ line "hello world" ++ line "x64 initial user runtime ready" /\
    runtime_wf (runtime k') /\ user_entry s' = Some (entry_registers u).
Proof.
  destruct (x64_boots X64Samples.sample_platform X64Samples.sample_service X64Samples.sample_app []
    {| g_machine := zero_machine; debug_channel := []; kernel_state := KernelSamples.sample_image; user_entry := None |} KernelSamples.sample_image
    sample_platform_ok sample_images_accepted (conj eq_refl eq_refl) sample_image_ok)
    as (p & t & u & k' & s' & E & Hb & _ & Hw & _ & _ & _ & Hu).
  exists p, t, u, k', s'. split; [exact E|]. split; [exact (boots_console _ _ _ _ _ Hb)|]. split; [exact Hw|exact Hu].
Defined.

(** C15: The boot of an arm64 machine whose embedded images the loaders accept (their section
    data within their regions), with global constructors that return, print nothing and leave a
    kernel whose pools have their capacities: the machine is identified, the debugger shows
    exactly the banner, and the runtime starts without a panic, with its first thread current in
    a well-formed kernel, up to the loop that enters threads (which announces the runtime in its
    first turn). *)
Theorem arm64_boots platform terminal_service_image test_app_image init_array s k device_tree :
  Arm64PageTables.platform_ok platform terminal_service_image test_app_image ->
  Arm64PageTables.images_accepted terminal_service_image test_app_image ->
  constructed init_array s k -> image_ok (runtime k) ->
  exists p t k' s',
    arm64_entry (H := arm64_target) platform terminal_service_image test_app_image init_array device_tree s = Returned (continues (p, t)) s' /\
    boots (H := arm64_target) s (p, t) k' (continues (p, t)) s' /\
    arm64_system platform terminal_service_image test_app_image 0 false (booted k') /\
    runtime_wf (runtime k') /\ m_current_thread (runtime k') = Some t.
Proof.
  intros Hok Hl Hc Hi. destruct (arm64_starts _ _ _ k Hok Hl Hi) as (p & t & k' & E & El & Hs & Hw & Ht).
  destruct (wf_current _ Hw t Ht) as [u Hu].
  exists p, t, k'. assert (H : twp (arm64_entry (H := arm64_target) platform terminal_service_image test_app_image init_array device_tree)
    (boots (H := arm64_target) s (p, t) k') s).
  { apply twp_bind. eapply twp_mono; [exact Hc|]. intros [] s1 [K1 C1]. apply twp_bind. cbn [get twp].
    eapply twp_mono; [eapply (kernel_main_returns (H := arm64_target) _ _ _ _ _ p t u); [done|rewrite K1; by constructor]|].
    intros r s2 [[R2 M2 C2 K2] _]. constructor; [done|done|congruence|done]. }
  apply twp_returned in H as (r & s' & Er & Hb). pose proof (boots_returned _ _ _ _ _ Hb) as ->. exists s'. by split_and!.
Qed.

Lemma arm64_boots_witness :
  exists p t k' s',
    arm64_entry (H := arm64_target) Arm64Samples.sample_platform Arm64Samples.sample_service Arm64Samples.sample_app [] 0x40000000
      {| g_machine := zero_machine; debug_channel := []; kernel_state := KernelSamples.sample_image; user_entry := None |} = Returned (continues (p, t)) s' /\
    console s' = banner (H := arm64_target) /\ runtime_wf (runtime k').
Proof.
  destruct (arm64_boots Arm64Samples.sample_platform Arm64Samples.sample_service Arm64Samples.sample_app []
    {| g_machine := zero_machine; debug_channel := []; kernel_state := KernelSamples.sample_image; user_entry := None |} KernelSamples.sample_image 0x40000000
    arm64_sample_platform_ok arm64_sample_images_accepted (conj eq_refl eq_refl) sample_image_ok) as (p & t & k' & s' & E & Hb & _ & Hw & _).
  exists p, t, k', s'. split; [exact E|]. split; [exact (boots_console _ _ _ _ _ Hb)|exact Hw].
Defined.
