(* ===== verification/EmulatorTests.v ===== *)
(** The emulator's own unit tests, [emulator/tests], replayed on the model:
    the harness ([x64_emulator_test_harness.cpp]), the guest programs of the
    four test files byte for byte, and the runner
    ([x64_emulator_unit_tests.cpp]).  The model of the emulator gives every
    answer the tests expect of the program. *)
From Stdlib Require Import String.
From S2P Require Import Prelude EmulatorTypes ExecutionContext Interpreter UserMemory.
#[local] Open Scope Z_scope.

Definition X64_TEST_PROGRAM_BASE : Z := 0x400000.
Definition X64_TEST_PROGRAM_MEMORY_SIZE : Z := 256.

(** [memory] is the window the emulator hands to the callback.  [overran] is
    not in the code: it records that [strcmp] would have read past the window. *)
Record x64_syscall_capture := {
  expected_number : Z;
  expected_argument0 : Z;
  return_status : Z;
  stop_after_call : bool;
  expected_string : option (list Z);
  call_count : Z;
  stop_action : x64_emulator_syscall_action;
  overran : bool;
}.

(** The initialiser lists of the tests. *)
Definition make_capture (number argument0 status : Z) (stop : bool) (string : option (list Z))
    (action : x64_emulator_syscall_action) : x64_syscall_capture :=
  {| expected_number := number; expected_argument0 := argument0; return_status := status; stop_after_call := stop;
     expected_string := string; call_count := 0; stop_action := action; overran := false |}.

Definition set_call_count (capture : x64_syscall_capture) (n : Z) : x64_syscall_capture :=
  {| expected_number := expected_number capture; expected_argument0 := expected_argument0 capture;
     return_status := return_status capture; stop_after_call := stop_after_call capture;
     expected_string := expected_string capture; call_count := n; stop_action := stop_action capture;
     overran := overran capture |}.

Definition set_overran (capture : x64_syscall_capture) : x64_syscall_capture :=
  {| expected_number := expected_number capture; expected_argument0 := expected_argument0 capture;
     return_status := return_status capture; stop_after_call := stop_after_call capture;
     expected_string := expected_string capture; call_count := call_count capture; stop_action := stop_action capture;
     overran := true |}.

(** The offset of the host pointer, or null. *)
Definition translate_guest (base_address size guest_address length : Z) : option Z :=
  if guest_address <? base_address then None
  else
    let offset := guest_address - base_address in
    if (size <? offset) || (size - offset <? length) then None else Some offset.

(** [strcmp(a, b) == 0]; [None]: an array ends before its null character. *)
Fixpoint strings_equal (a b : list Z) : option bool :=
  match a, b with
  | x :: a, y :: b => if negb (x =? y) then Some false else if x =? 0 then Some true else strings_equal a b
  | _, _ => None
  end.

Definition capture_x64_syscall (capture : x64_syscall_capture) (state : x64_emulator_state) (memory : option (list Z))
    : x64_emulator_syscall_result * x64_syscall_capture * option (list Z) :=
  let capture := set_call_count capture (call_count capture + 1) in
  let syscall_number := nth (Z.to_nat (register_index X64_GENERAL_REGISTER_RAX)) (general_registers state) 0 in
  let argument0 := nth (Z.to_nat (register_index X64_GENERAL_REGISTER_RDI)) (general_registers state) 0 in
  let yields status := {| EmulatorTypes.status := status; action := X64_EMULATOR_SYSCALL_ACTION_YIELD |} in
  let answer := {| EmulatorTypes.status := return_status capture;
                   action := if stop_after_call capture then stop_action capture
                             else X64_EMULATOR_SYSCALL_ACTION_CONTINUE |} in
  if negb (syscall_number =? expected_number capture) then (yields STATUS_BAD_STATE, capture, memory)
  else
    match expected_string capture with
    | Some expected =>
        match translate_guest X64_TEST_PROGRAM_BASE X64_TEST_PROGRAM_MEMORY_SIZE argument0 1 with
        | None => (yields STATUS_FAULT, capture, memory)
        | Some offset =>
            match strings_equal (drop (Z.to_nat offset) (default [] memory)) expected with
            | None => (yields STATUS_FAULT, set_overran capture, memory)
            | Some false => (yields STATUS_FAULT, capture, memory)
            | Some true => (answer, capture, memory)
            end
        end
    | None =>
        if negb (argument0 =? expected_argument0 capture) then (yields STATUS_INVALID_ARGUMENT, capture, memory)
        else (answer, capture, memory)
    end.

Definition did_x64_emulator_exit_cleanly (result : x64_emulator_result) : bool :=
  bool_decide (guest_stop_reason result = X64_EMULATOR_GUEST_STOP_REASON_THREAD_EXITED) &&
  bool_decide (backend_failure result = X64_EMULATOR_BACKEND_FAILURE_NONE).

Definition did_x64_emulator_yield (result : x64_emulator_result) : bool :=
  bool_decide (guest_stop_reason result = X64_EMULATOR_GUEST_STOP_REASON_YIELDED) &&
  bool_decide (backend_failure result = X64_EMULATOR_BACKEND_FAILURE_NONE).

Definition did_x64_emulator_fail_with_backend (result : x64_emulator_result) (failure : x64_emulator_backend_failure)
    : bool :=
  bool_decide (guest_stop_reason result = X64_EMULATOR_GUEST_STOP_REASON_NONE) &&
  bool_decide (backend_failure result = failure).

Definition did_x64_emulator_stop_for_guest_fault (result : x64_emulator_result)
    (reason : x64_emulator_guest_stop_reason) : bool :=
  bool_decide (guest_stop_reason result = reason) &&
  bool_decide (backend_failure result = X64_EMULATOR_BACKEND_FAILURE_NONE).

(** What the program has written, line by line. *)
Record test_output := { error_lines : list string; output_lines : list string }.

Definition fail_x64_emulator_test (test_name message : string) : M test_output unit :=
  modify (fun o => {| error_lines := error_lines o ++ ["FAIL: " ++ test_name ++ ": " ++ message]%string;
                      output_lines := output_lines o |}).

Definition expect_x64_emulator_test (condition : bool) (test_name message : string) : M test_output bool :=
  if negb condition then fail_x64_emulator_test test_name message;; mret false else mret true.

Definition test_context (program : list Z) (capture : x64_syscall_capture) (engine : x64_emulator_engine)
    (instruction_budget initial_rax : Z) : x64_execution_context x64_syscall_capture :=
  let memory_bytes := program ++ replicate (Z.to_nat X64_TEST_PROGRAM_MEMORY_SIZE - length program) 0 in
  let state :=
    {| general_registers :=
         <[Z.to_nat (register_index X64_GENERAL_REGISTER_RSP) := X64_TEST_PROGRAM_BASE + X64_TEST_PROGRAM_MEMORY_SIZE]>
           (<[Z.to_nat (register_index X64_GENERAL_REGISTER_RAX) := initial_rax]> (replicate 16 0));
       simd_registers := replicate 16 (replicate 16 0);
       instruction_pointer := X64_TEST_PROGRAM_BASE;
       flags := 0x202 |} in
  {| m_state := state;
     m_memory := {| base_address := X64_TEST_PROGRAM_BASE; bytes := Some memory_bytes;
                    size := X64_TEST_PROGRAM_MEMORY_SIZE |};
     m_callbacks := {| handle_syscall := Some capture_x64_syscall |};
     m_options := {| EmulatorTypes.engine := engine; EmulatorTypes.instruction_budget := instruction_budget |};
     m_result :=
       {| completion := X64_EMULATOR_COMPLETION_INSTRUCTION_LIMIT_REACHED;
          guest_stop_reason := X64_EMULATOR_GUEST_STOP_REASON_NONE;
          backend_failure := X64_EMULATOR_BACKEND_FAILURE_NONE; retired_instructions := 0;
          fault_address := 0; fault_opcode := 0;
          fault := {| fault_instruction_pointer := 0; memory_address := 0; fault_record_opcode := 0 |} |};
     m_world := set_call_count capture 0 |}.

(** [capture] and [*out_result] after the run, or nothing when the function
    returns [false].  No test passes a null program. *)
Definition run_x64_emulator_test_program (test_name : string) (program : list Z) (capture : x64_syscall_capture)
    (engine : x64_emulator_engine) (instruction_budget initial_rax : Z)
    : M test_output (option (x64_syscall_capture * x64_emulator_result)) :=
  if X64_TEST_PROGRAM_MEMORY_SIZE <? Z.of_nat (length program) then
    fail_x64_emulator_test test_name "program does not fit in test memory";; mret None
  else
    match run_x64_emulator true (test_context program capture engine instruction_budget initial_rax) with
    | Returned true c =>
        if overran (m_world c) then undefined out_of_bounds else mret (Some (m_world c, m_result c))
    | Returned false c =>
        fail_x64_emulator_test test_name "run_x64_emulator returned false";; mret None
    | Undefined u => undefined u
    | OutOfFuel => out_of_fuel
    end.

(** [expect(...) && expect(...) && ...] *)
Fixpoint expect_all (test_name : string) (expectations : list (bool * string)) : M test_output bool :=
  match expectations with
  | [] => mret true
  | (condition, message) :: expectations =>
      ok ← expect_x64_emulator_test condition test_name message;
      if negb ok then mret false else expect_all test_name expectations
  end.

(** The body the tests share: run the program, give up when that fails, check
    the result.  [initial_rax] keeps its default, 0. *)
Definition run_test (test_name : string) (program : list Z) (capture : x64_syscall_capture)
    (engine : x64_emulator_engine) (instruction_budget : Z)
    (expectations : x64_syscall_capture -> x64_emulator_result -> list (bool * string)) : M test_output bool :=
  run ← run_x64_emulator_test_program test_name program capture engine instruction_budget 0;
  match run with
  | None => mret false
  | Some (capture, result) => expect_all test_name (expectations capture result)
  end.

Definition x64_emulator_test_case : Type := string * M test_output bool.

(** A string literal: its characters and the null character. *)
Definition literal (s : string) : list Z :=
  ((fun c => Z.of_nat (Ascii.nat_of_ascii c)) <$> list_ascii_of_string s) ++ [0].

#[local] Open Scope string_scope.
#[local] Open Scope list_scope.
#[local] Open Scope Z_scope.

(** ** [x64_emulator_data_movement_tests.cpp] *)

Definition test_mov_register_and_syscall : M test_output bool :=
  let program := [0xBA; 0x44; 0x33; 0x22; 0x11; 0x48; 0x89; 0xD7; 0xB8; 0x34; 0x12; 0x00; 0x00; 0x0F; 0x05] in
  run_test "mov_register_and_syscall" program
    (make_capture 0x1234 0x11223344 STATUS_OK true None X64_EMULATOR_SYSCALL_ACTION_EXIT_THREAD)
    X64_EMULATOR_ENGINE_INTERPRETER 64
    (fun capture result =>
      [(did_x64_emulator_exit_cleanly result, "expected thread exit");
       (call_count capture =? 1, "expected one syscall")]).

Definition test_mov_and_syscall : M test_output bool :=
  let program := [0xBF; 0x44; 0x33; 0x22; 0x11; 0xB8; 0x34; 0x12; 0x00; 0x00; 0x0F; 0x05] in
  run_test "mov_and_syscall" program
    (make_capture 0x1234 0x11223344 STATUS_OK true None X64_EMULATOR_SYSCALL_ACTION_EXIT_THREAD)
    X64_EMULATOR_ENGINE_INTERPRETER 64
    (fun capture result =>
      [(did_x64_emulator_exit_cleanly result, "expected thread exit");
       (call_count capture =? 1, "expected one syscall")]).

Definition test_lea_rip_relative_string : M test_output bool :=
  let program := [0x48; 0x8D; 0x3D; 0x02; 0x00; 0x00; 0x00; 0x0F; 0x05; 0x68; 0x69; 0x00] in
  run_test "lea_rip_relative_string" program
    (make_capture 0 0 STATUS_OK true (Some (literal "hi")) X64_EMULATOR_SYSCALL_ACTION_EXIT_THREAD)
    X64_EMULATOR_ENGINE_INTERPRETER 64
    (fun capture result =>
      [(did_x64_emulator_exit_cleanly result, "expected thread exit");
       (call_count capture =? 1, "expected one syscall")]).

Definition test_lea_32bit_sib_and_syscall : M test_output bool :=
  let program := [0xB9; 0x02; 0x00; 0x00; 0x00; 0x8D; 0x3C; 0x49; 0xB8; 0x34; 0x12; 0x00; 0x00; 0x0F; 0x05] in
  run_test "lea_32bit_sib_and_syscall" program
    (make_capture 0x1234 6 STATUS_OK true None X64_EMULATOR_SYSCALL_ACTION_EXIT_THREAD)
    X64_EMULATOR_ENGINE_INTERPRETER 64
    (fun capture result =>
      [(did_x64_emulator_exit_cleanly result, "expected thread exit");
       (call_count capture =? 1, "expected one syscall")]).

Definition test_mov_memory_to_register_and_syscall : M test_output bool :=
  let program := [0x48; 0x8D; 0x0D; 0x09; 0x00; 0x00; 0x00; 0x8B; 0x39; 0xB8; 0x34; 0x12; 0x00; 0x00; 0x0F; 0x05; 0x44; 0x33; 0x22] in
  run_test "mov_memory_to_register_and_syscall" program
    (make_capture 0x1234 0x00223344 STATUS_OK true None X64_EMULATOR_SYSCALL_ACTION_EXIT_THREAD)
    X64_EMULATOR_ENGINE_INTERPRETER 64
    (fun capture result =>
      [(did_x64_emulator_exit_cleanly result, "expected thread exit");
       (call_count capture =? 1, "expected one syscall")]).

Definition test_mov_register_to_memory_and_syscall : M test_output bool :=
  let program := [0xBA; 0x44; 0x33; 0x22; 0x11; 0x48; 0x8D; 0x0D; 0x11; 0x00; 0x00; 0x00; 0x89; 0x11; 0x8B; 0x39; 0xB8; 0x34; 0x12;
    0x00; 0x00; 0x0F; 0x05; 0x00; 0x00; 0x00; 0x00; 0x90] in
  run_test "mov_register_to_memory_and_syscall" program
    (make_capture 0x1234 0x11223344 STATUS_OK true None X64_EMULATOR_SYSCALL_ACTION_EXIT_THREAD)
    X64_EMULATOR_ENGINE_INTERPRETER 64
    (fun capture result =>
      [(did_x64_emulator_exit_cleanly result, "expected thread exit");
       (call_count capture =? 1, "expected one syscall")]).

Definition test_mov_immediate64_memory_and_syscall : M test_output bool :=
  let program := [0x48; 0x8D; 0x0D; 0x11; 0x00; 0x00; 0x00; 0x48; 0xC7; 0x01; 0x44; 0x33; 0x22; 0x11; 0x48; 0x8B; 0x39; 0xB8; 0x34;
    0x12; 0x00; 0x00; 0x0F; 0x05; 0x00; 0x00; 0x00; 0x00; 0x00; 0x00; 0x00] in
  run_test "mov_immediate64_memory_and_syscall" program
    (make_capture 0x1234 0x11223344 STATUS_OK true None X64_EMULATOR_SYSCALL_ACTION_EXIT_THREAD)
    X64_EMULATOR_ENGINE_INTERPRETER 64
    (fun capture result =>
      [(did_x64_emulator_exit_cleanly result, "expected thread exit");
       (call_count capture =? 1, "expected one syscall")]).

Definition test_mov_immediate64_sib_memory_and_syscall : M test_output bool :=
  let program := [0x48; 0x83; 0xEC; 0x20; 0x48; 0xC7; 0x44; 0x24; 0x10; 0x44; 0x33; 0x22; 0x11; 0x48; 0x8B; 0x7C; 0x24; 0x10; 0xB8;
    0x34; 0x12; 0x00; 0x00; 0x0F] ++ [0x05] in
  run_test "mov_immediate64_sib_memory_and_syscall" program
    (make_capture 0x1234 0x11223344 STATUS_OK true None X64_EMULATOR_SYSCALL_ACTION_EXIT_THREAD)
    X64_EMULATOR_ENGINE_INTERPRETER 64
    (fun capture result =>
      [(did_x64_emulator_exit_cleanly result, "expected thread exit");
       (call_count capture =? 1, "expected one syscall")]).

Definition test_strlen_style_loop_and_syscall : M test_output bool :=
  let program := [0x48; 0x8D; 0x0D; 0x1B; 0x00; 0x00; 0x00; 0x48; 0xC7; 0xC0; 0xFF; 0xFF; 0xFF; 0xFF; 0x80; 0x7C; 0x01; 0x01; 0x00;
    0x48; 0x8D; 0x40; 0x01; 0x75; 0xF5; 0x89; 0xC7; 0xB8; 0x34; 0x12; 0x00; 0x00; 0x0F; 0x05] ++ [104; 105; 0] in
  run_test "strlen_style_loop_and_syscall" program
    (make_capture 0x1234 2 STATUS_OK true None X64_EMULATOR_SYSCALL_ACTION_EXIT_THREAD)
    X64_EMULATOR_ENGINE_INTERPRETER 64
    (fun capture result =>
      [(did_x64_emulator_exit_cleanly result, "expected thread exit");
       (call_count capture =? 1, "expected one syscall")]).

Definition append_x64_data_movement_tests (tests : list x64_emulator_test_case) : list x64_emulator_test_case :=
  tests ++ [("mov_register_and_syscall", test_mov_register_and_syscall);
            ("mov_and_syscall", test_mov_and_syscall);
            ("lea_rip_relative_string", test_lea_rip_relative_string);
            ("lea_32bit_sib_and_syscall", test_lea_32bit_sib_and_syscall);
            ("mov_memory_to_register_and_syscall", test_mov_memory_to_register_and_syscall);
            ("mov_register_to_memory_and_syscall", test_mov_register_to_memory_and_syscall);
            ("mov_immediate64_memory_and_syscall", test_mov_immediate64_memory_and_syscall);
            ("mov_immediate64_sib_memory_and_syscall", test_mov_immediate64_sib_memory_and_syscall);
            ("strlen_style_loop_and_syscall", test_strlen_style_loop_and_syscall)].

(** ** [x64_emulator_stack_and_control_flow_tests.cpp] *)

Definition test_call_and_ret : M test_output bool :=
  let program := [0xB8; 0x01; 0x00; 0x00; 0x00; 0xE8; 0x02; 0x00; 0x00; 0x00; 0x0F; 0x05; 0x83; 0xC0; 0x05; 0xC3] in
  run_test "call_and_ret" program
    (make_capture 6 0 STATUS_OK true None X64_EMULATOR_SYSCALL_ACTION_EXIT_THREAD)
    X64_EMULATOR_ENGINE_INTERPRETER 64
    (fun capture result =>
      [(did_x64_emulator_exit_cleanly result, "expected thread exit");
       (call_count capture =? 1, "expected one syscall")]).

Definition test_conditional_branch : M test_output bool :=
  let program := [0xB8; 0x01; 0x00; 0x00; 0x00; 0xBF; 0x00; 0x00; 0x00; 0x00; 0x83; 0xF8; 0x01; 0x75; 0x07; 0xBF; 0x07; 0x00; 0x00;
    0x00; 0x0F; 0x05; 0xBF; 0x09; 0x00; 0x00; 0x00; 0x0F; 0x05] in
  run_test "conditional_branch" program
    (make_capture 1 7 STATUS_OK true None X64_EMULATOR_SYSCALL_ACTION_EXIT_THREAD)
    X64_EMULATOR_ENGINE_INTERPRETER 64
    (fun capture result =>
      [(did_x64_emulator_exit_cleanly result, "expected thread exit");
       (call_count capture =? 1, "expected one syscall")]).

Definition test_call_indirect_rip_relative : M test_output bool :=
  let indirect_target := X64_TEST_PROGRAM_BASE + 24 in
  let program := [0xFF; 0x15; 0x0A; 0x00; 0x00; 0x00; 0xB8; 0x01; 0x00; 0x00; 0x00; 0x0F; 0x05; 0x90; 0x90; 0x90; Z.land
    indirect_target 0xFF; Z.land (Z.shiftr indirect_target 8) 0xFF; Z.land (Z.shiftr indirect_target 16) 0xFF; Z.land
    (Z.shiftr indirect_target 24) 0xFF; 0x00; 0x00; 0x00; 0x00; 0xC3] in
  run_test "call_indirect_rip_relative" program
    (make_capture 1 0 STATUS_OK true None X64_EMULATOR_SYSCALL_ACTION_EXIT_THREAD)
    X64_EMULATOR_ENGINE_INTERPRETER 64
    (fun capture result =>
      [(did_x64_emulator_exit_cleanly result, "expected thread exit");
       (call_count capture =? 1, "expected one syscall")]).

Definition test_group_ff_inc_register : M test_output bool :=
  let program := [0x49; 0xC7; 0xC6; 0xFF; 0xFF; 0xFF; 0xFF; 0x49; 0xFF; 0xC6; 0x75; 0x07; 0xB8; 0x01; 0x00; 0x00; 0x00; 0x0F; 0x05] in
  run_test "group_ff_inc_register" program
    (make_capture 1 0 STATUS_OK true None X64_EMULATOR_SYSCALL_ACTION_EXIT_THREAD)
    X64_EMULATOR_ENGINE_INTERPRETER 64
    (fun capture result =>
      [(did_x64_emulator_exit_cleanly result, "expected thread exit");
       (call_count capture =? 1, "expected one syscall")]).

Definition test_instruction_budget_limit : M test_output bool :=
  let program := [0xEB; 0xFE] in
  run_test "instruction_budget_limit" program
    (make_capture 0 0 STATUS_OK true None X64_EMULATOR_SYSCALL_ACTION_EXIT_THREAD)
    X64_EMULATOR_ENGINE_INTERPRETER 8
    (fun capture result =>
      [(did_x64_emulator_fail_with_backend result X64_EMULATOR_BACKEND_FAILURE_INSTRUCTION_LIMIT_REACHED, "expected instruction budget exhaustion")]).

Definition test_prefixed_multi_byte_nop : M test_output bool :=
  let program := [0x66; 0x0F; 0x1F; 0x44; 0x00; 0x00; 0xB8; 0x01; 0x00; 0x00; 0x00; 0x0F; 0x05] in
  run_test "prefixed_multi_byte_nop" program
    (make_capture 1 0 STATUS_OK true None X64_EMULATOR_SYSCALL_ACTION_EXIT_THREAD)
    X64_EMULATOR_ENGINE_INTERPRETER 64
    (fun capture result =>
      [(did_x64_emulator_exit_cleanly result, "expected thread exit");
       (call_count capture =? 1, "expected one syscall")]).

Definition append_x64_stack_and_control_flow_tests (tests : list x64_emulator_test_case) : list x64_emulator_test_case :=
  tests ++ [("call_and_ret", test_call_and_ret);
            ("conditional_branch", test_conditional_branch);
            ("call_indirect_rip_relative", test_call_indirect_rip_relative);
            ("group_ff_inc_register", test_group_ff_inc_register);
            ("instruction_budget_limit", test_instruction_budget_limit);
            ("prefixed_multi_byte_nop", test_prefixed_multi_byte_nop)].

(** ** [x64_emulator_alu_tests.cpp] *)

Definition test_xor_and_add : M test_output bool :=
  let program := [0xBF; 0x05; 0x00; 0x00; 0x00; 0x31; 0xFF; 0x83; 0xC7; 0x03; 0xB8; 0x01; 0x00; 0x00; 0x00; 0x0F; 0x05] in
  run_test "xor_and_add" program
    (make_capture 1 3 STATUS_OK true None X64_EMULATOR_SYSCALL_ACTION_EXIT_THREAD)
    X64_EMULATOR_ENGINE_INTERPRETER 64
    (fun capture result =>
      [(did_x64_emulator_exit_cleanly result, "expected thread exit");
       (call_count capture =? 1, "expected one syscall")]).

Definition test_test_register_sets_zero_flag_for_je : M test_output bool :=
  let program := [0xB9; 0x00; 0x00; 0x00; 0x00; 0x48; 0x85; 0xC9; 0x74; 0x07; 0xBF; 0x11; 0x00; 0x00; 0x00; 0xEB; 0x05; 0xBF; 0x22;
    0x00; 0x00; 0x00; 0xB8; 0x01; 0x00; 0x00; 0x00; 0x0F; 0x05] in
  run_test "test_register_sets_zero_flag_for_je" program
    (make_capture 1 0x22 STATUS_OK true None X64_EMULATOR_SYSCALL_ACTION_EXIT_THREAD)
    X64_EMULATOR_ENGINE_INTERPRETER 64
    (fun capture result =>
      [(did_x64_emulator_exit_cleanly result, "expected thread exit");
       (call_count capture =? 1, "expected one syscall")]).

Definition test_test_extended_register_uses_rex_bits : M test_output bool :=
  let program := [0x48; 0x83; 0xEC; 0x20; 0x4C; 0x8D; 0x44; 0x24; 0x10; 0x4D; 0x85; 0xC0; 0x74; 0x07; 0xBF; 0x33; 0x00; 0x00; 0x00;
    0xEB; 0x05; 0xBF; 0x44; 0x00; 0x00; 0x00; 0xB8; 0x01; 0x00; 0x00; 0x00; 0x0F; 0x05] in
  run_test "test_extended_register_uses_rex_bits" program
    (make_capture 1 0x33 STATUS_OK true None X64_EMULATOR_SYSCALL_ACTION_EXIT_THREAD)
    X64_EMULATOR_ENGINE_INTERPRETER 64
    (fun capture result =>
      [(did_x64_emulator_exit_cleanly result, "expected thread exit");
       (call_count capture =? 1, "expected one syscall")]).

Definition append_x64_alu_tests (tests : list x64_emulator_test_case) : list x64_emulator_test_case :=
  tests ++ [("xor_and_add", test_xor_and_add);
            ("test_register_sets_zero_flag_for_je", test_test_register_sets_zero_flag_for_je);
            ("test_extended_register_uses_rex_bits", test_test_extended_register_uses_rex_bits)].

(** ** [x64_emulator_system_tests.cpp] *)

Definition test_syscall_yield_reports_cleanly : M test_output bool :=
  let program := [0x0F; 0x05] in
  run_test "syscall_yield" program
    (make_capture 0 0 STATUS_OK true None X64_EMULATOR_SYSCALL_ACTION_YIELD)
    X64_EMULATOR_ENGINE_INTERPRETER 64
    (fun capture result =>
      [(did_x64_emulator_yield result, "expected syscall-triggered yield completion");
       (call_count capture =? 1, "expected a single syscall")]).

Definition test_unsupported_engine_reports_cleanly : M test_output bool :=
  let program := [0x0F; 0x05] in
  run_test "unsupported_engine" program
    (make_capture 0 0 STATUS_OK true None X64_EMULATOR_SYSCALL_ACTION_EXIT_THREAD)
    X64_EMULATOR_ENGINE_JIT 8
    (fun capture result =>
      [(did_x64_emulator_fail_with_backend result X64_EMULATOR_BACKEND_FAILURE_UNSUPPORTED_ENGINE, "expected unsupported engine completion")]).

Definition test_invalid_memory_access_reports_guest_fault : M test_output bool :=
  let program := [0xC3] in
  run_test "invalid_memory_access" program
    (make_capture 0 0 STATUS_OK true None X64_EMULATOR_SYSCALL_ACTION_EXIT_THREAD)
    X64_EMULATOR_ENGINE_INTERPRETER 64
    (fun capture result =>
      [(did_x64_emulator_stop_for_guest_fault result X64_EMULATOR_GUEST_STOP_REASON_INVALID_MEMORY_ACCESS, "expected invalid memory access guest fault");
       (fault_instruction_pointer (fault result) =? X64_TEST_PROGRAM_BASE, "expected fault instruction pointer");
       (memory_address (fault result) =? X64_TEST_PROGRAM_BASE + X64_TEST_PROGRAM_MEMORY_SIZE, "expected fault memory address");
       (fault_record_opcode (fault result) =? 0xC3, "expected ret opcode")]).

Definition test_unsupported_instruction_reports_guest_fault : M test_output bool :=
  let program := [0x06] in
  run_test "unsupported_instruction" program
    (make_capture 0 0 STATUS_OK true None X64_EMULATOR_SYSCALL_ACTION_EXIT_THREAD)
    X64_EMULATOR_ENGINE_INTERPRETER 64
    (fun capture result =>
      [(did_x64_emulator_stop_for_guest_fault result X64_EMULATOR_GUEST_STOP_REASON_UNSUPPORTED_INSTRUCTION, "expected unsupported instruction guest fault");
       (fault_instruction_pointer (fault result) =? X64_TEST_PROGRAM_BASE, "expected fault instruction pointer");
       (memory_address (fault result) =? 0, "expected no memory address for unsupported instruction");
       (fault_record_opcode (fault result) =? 0x06, "expected unsupported opcode")]).

Definition append_x64_system_tests (tests : list x64_emulator_test_case) : list x64_emulator_test_case :=
  tests ++ [("syscall_yield", test_syscall_yield_reports_cleanly);
            ("unsupported_engine", test_unsupported_engine_reports_cleanly);
            ("invalid_memory_access", test_invalid_memory_access_reports_guest_fault);
            ("unsupported_instruction", test_unsupported_instruction_reports_guest_fault)].


(** ** [x64_emulator_unit_tests.cpp] *)

Fixpoint run_tests (tests : list x64_emulator_test_case) : M test_output bool :=
  match tests with
  | [] => mret true
  | (_, run) :: tests => ok ← run; if negb ok then mret false else run_tests tests
  end.

Definition x64_emulator_tests : list x64_emulator_test_case :=
  append_x64_system_tests (append_x64_alu_tests
    (append_x64_stack_and_control_flow_tests (append_x64_data_movement_tests []))).

Definition main : M test_output Z :=
  ok ← run_tests x64_emulator_tests;
  if negb ok then mret 1
  else
    modify (fun o => {| error_lines := error_lines o;
                        output_lines := output_lines o ++ ["PASS: x64 emulator unit tests"] |});;
    mret 0.

(** x *)
Theorem unit_tests_pass :
  main {| error_lines := []; output_lines := [] |} =
    Returned 0 {| error_lines := []; output_lines := ["PASS: x64 emulator unit tests"] |} /\
  Forall (fun test => forall o, snd test o = Returned true o) x64_emulator_tests.
Proof.
  split; [by vm_compute|].
  cbv [x64_emulator_tests append_x64_system_tests append_x64_alu_tests append_x64_stack_and_control_flow_tests
       append_x64_data_movement_tests app].
  repeat (apply Forall_cons; [intros []; by vm_compute|]). constructor.
Qed.
