(* ===== verification/Win32LoaderTests.v ===== *)
(** The unit tests of the image loader, [win32/tests/x64_win32_loader_tests.cpp],
    on the model, and the program they load, [win32/tests/test_app_pe64.S].  The
    image the build makes of that program is an argument of the tests; they are run
    on one layout of it. *)
From Stdlib Require Import String.
From S2P Require Import Prelude EmulatorTypes ExecutionContext Interpreter Syscalls PeImage X64PeImage Win32Emulation EmulatorTests.
#[local] Open Scope string_scope.
#[local] Open Scope list_scope.
#[local] Open Scope Z_scope.

Definition fail_x64_win32_test (test_name message : string) : M test_output unit :=
  modify (fun o => {| error_lines := error_lines o ++ ["FAIL: " ++ test_name ++ ": " ++ message]%string;
                      output_lines := output_lines o |}).

Definition expect_x64_win32_test (condition : bool) (test_name message : string) : M test_output bool :=
  if negb condition then fail_x64_win32_test test_name message;; mret false else mret true.

(** ** Reading the loaded image

    The callers pass an array with its own size, so [image] stands for both, and
    never null pointers. *)

Definition copy_record (record_size : Z) (image : list Z) (offset : Z) : option (list Z) :=
  let image_size := Z.of_nat (length image) in
  if (image_size <? offset) || (u64 (image_size - offset) <? record_size) then None
  else Some (slice (Z.to_nat offset) (Z.to_nat record_size) image).

(** [n] more characters can be read and leave room for a null character. *)
Fixpoint read_c_string_loop (n : nat) (image : list Z) (rva index : Z) (buffer : char_buffer) : option char_buffer :=
  match n with
  | O => None
  | S n =>
      match image !! Z.to_nat (rva + index) with
      | None => None
      | Some character =>
          let buffer := <[Z.to_nat index := character]> buffer in
          if character =? 0 then Some buffer else read_c_string_loop n image rva (index + 1) buffer
      end
  end.

Definition read_c_string (image : list Z) (rva : Z) (buffer : char_buffer) : option char_buffer :=
  if (length buffer =? 0)%nat || (Z.of_nat (length image) <=? rva) then None
  else read_c_string_loop (Nat.pred (length buffer)) image rva 0 buffer.

Definition try_resolve_import_name_rva (raw_name_reference image_size : Z) : option Z :=
  if (raw_name_reference <=? 0xFFFFFFFF) && (raw_name_reference <? image_size) then Some (u32 raw_name_reference)
  else if raw_name_reference <? X64_USER_IMAGE_VIRTUAL_ADDRESS then None
  else
    let relative_reference := u64 (raw_name_reference - X64_USER_IMAGE_VIRTUAL_ADDRESS) in
    if (0xFFFFFFFF <? relative_reference) || (image_size <=? relative_reference) then None
    else Some (u32 relative_reference).

Definition try_resolve_import_table_rva (raw_rva_or_va image_size : Z) : option Z :=
  try_resolve_import_name_rva raw_rva_or_va image_size.

(** [strcmp] with a literal; the array must hold a null character. *)
Definition is_name (import_name : char_buffer) (name : string) : M test_output bool :=
  match strings_equal import_name (literal name) with Some b => mret b | None => undefined out_of_bounds end.

Definition expected_syscall_for_import (import_name : char_buffer) : M test_output Z :=
  debug ← is_name import_name "OutputDebugStringA";
  if (debug : bool) then mret (u32 SYSCALL_DEBUG_LOG)
  else
    exits ← is_name import_name "ExitProcess";
    mret (if (exits : bool) then u32 SYSCALL_THREAD_EXIT else 0).

Definition expect_syscall_stub (loaded_image : list Z) (stub_address syscall_number : Z) : bool :=
  let loaded_image_size := Z.of_nat (length loaded_image) in
  if stub_address <? X64_USER_IMAGE_VIRTUAL_ADDRESS then false
  else
    let stub_offset := u64 (stub_address - X64_USER_IMAGE_VIRTUAL_ADDRESS) in
    if (loaded_image_size <? stub_offset) || (u64 (loaded_image_size - stub_offset) <? 11) then false
    else
      let stub_byte i value := bool_decide (loaded_image !! (Z.to_nat stub_offset + i)%nat = Some value) in
      stub_byte 0%nat 0x48 && stub_byte 1%nat 0x89 && stub_byte 2%nat 0xCF && stub_byte 3%nat 0xB8
      && stub_byte 4%nat (Z.land syscall_number 0xFF) && stub_byte 5%nat (Z.land (Z.shiftr syscall_number 8) 0xFF)
      && stub_byte 6%nat (Z.land (Z.shiftr syscall_number 16) 0xFF)
      && stub_byte 7%nat (Z.land (Z.shiftr syscall_number 24) 0xFF)
      && stub_byte 8%nat 0x0F && stub_byte 9%nat 0x05 && stub_byte 10%nat 0xC3.

(** ** The tests *)

(** [std::array<uint8_t, X64_USER_REGION_SIZE> loaded_image {}] *)
Definition cleared_image : list Z := replicate (Z.to_nat X64_USER_REGION_SIZE) 0.
#[local] Strategy 1000 [cleared_image].

(** A computation on the array inside the tests: what it returns, and the array. *)
Definition on_array {A} (r : outcome (list Z) A) : M test_output (A * list Z) := fun o =>
  match r with
  | Returned a l => Returned (a, l) o
  | Undefined u => Undefined u
  | OutOfFuel => OutOfFuel
  end.

(** A call of the loader with a cleared array; the null resolver is [None]. *)
Definition load_for_test (image : list Z) (import_resolver : option x64_pe64_import_resolver)
    : M test_output (x64_pe64_image_load_status * option x64_pe64_image_info * list Z) :=
  on_array (load_x64_pe64_image (Some image) (Z.of_nat (length image)) X64_USER_IMAGE_VIRTUAL_ADDRESS true
              X64_USER_REGION_SIZE import_resolver true cleared_image).

Definition test_loader_rejects_missing_header : M test_output bool :=
  '(status, _, _) ← load_for_test [0] None;
  expect_x64_win32_test (bool_decide (status = X64_PE64_IMAGE_LOAD_STATUS_MISSING_DOS_HEADER))
    "loader_rejects_missing_header" "expected missing DOS header status".

Definition resolves_test_name : string := "loader_resolves_win32_imports".

(** [return expect(false, ...)] of the second test: the test has failed. *)
Definition test_fails (message : string) : M test_output (option Z) :=
  expect_x64_win32_test false resolves_test_name message;; mret None.

Section loops.
Context (loaded_image : list Z) (image_size : Z).

(** The loops return the number of imports verified so far, or nothing when the
    test has failed. *)
Fixpoint verify_thunks (fuel : nat) (lookup_rva first_thunk_rva thunk_index verified_imports : Z)
    : M test_output (option Z) :=
  match fuel with
  | O => out_of_fuel
  | S fuel =>
      match copy_record 8 loaded_image (u64 (lookup_rva + thunk_index * 8)),
            copy_record 8 loaded_image (u64 (first_thunk_rva + thunk_index * 8)) with
      | Some lookup, Some resolved =>
          let lookup_entry := le_decode lookup in
          let resolved_entry := le_decode resolved in
          if lookup_entry =? 0 then mret (Some verified_imports)
          else if negb (Z.land lookup_entry (bit 63) =? 0) then test_fails "did not expect ordinal imports"
          else
            match try_resolve_import_name_rva (Z.land lookup_entry (Z.ones 63)) image_size with
            | None => test_fails "import name RVA was invalid"
            | Some import_name_rva =>
                match read_c_string loaded_image (u32 (import_name_rva + 2)) (replicate 64 0) with
                | None => test_fails "import name was unreadable"
                | Some import_name =>
                    expected_syscall ← expected_syscall_for_import import_name;
                    known ← expect_x64_win32_test (negb (expected_syscall =? 0)) resolves_test_name
                              "unexpected import name in test image";
                    if negb known then mret None
                    else
                      stub ← expect_x64_win32_test (expect_syscall_stub loaded_image resolved_entry expected_syscall)
                               resolves_test_name "resolved IAT entry did not point at the expected syscall stub";
                      if negb stub then mret None
                      else verify_thunks fuel lookup_rva first_thunk_rva (u32 (thunk_index + 1)) (u64 (verified_imports + 1))
                end
            end
      | _, _ => test_fails "import thunk was unreadable"
      end
  end.

(** The thunks of one descriptor. *)
Definition verify_descriptor (descriptor : pe_import_descriptor) (verified_imports : Z) : M test_output (option Z) :=
  match try_resolve_import_table_rva (first_thunk descriptor) image_size with
  | None => test_fails "first thunk RVA was invalid"
  | Some first_thunk_rva =>
      match (if negb (original_first_thunk descriptor =? 0)
             then try_resolve_import_table_rva (original_first_thunk descriptor) image_size else Some first_thunk_rva) with
      | None => test_fails "lookup thunk RVA was invalid"
      | Some lookup_rva =>
          verify_thunks (S (S (length loaded_image / 8))) lookup_rva first_thunk_rva 0 verified_imports
      end
  end.

Fixpoint verify_descriptors (fuel : nat) (descriptor_rva verified_imports : Z) : M test_output (option Z) :=
  match fuel with
  | O => out_of_fuel
  | S fuel =>
      match copy_record sizeof_import_descriptor loaded_image descriptor_rva with
      | None => test_fails "import descriptor was unreadable"
      | Some bs =>
          let descriptor := decode_import_descriptor bs in
          if is_empty_import_descriptor descriptor then mret (Some verified_imports)
          else
            verified ← verify_descriptor descriptor verified_imports;
            match (verified : option Z) with
            | None => mret None
            | Some verified_imports =>
                verify_descriptors fuel (u32 (descriptor_rva + sizeof_import_descriptor)) verified_imports
            end
      end
  end.
End loops.

(** The part of the second test after the checks of status and count. *)
Definition verify_loaded_image (loaded_image : list Z) (image_size : Z) : M test_output bool :=
  match copy_record sizeof_dos_header loaded_image 0 with
  | Some dos =>
      let dos_header := decode_dos_header dos in
      if negb (e_magic dos_header =? PE_DOS_SIGNATURE)
      then expect_x64_win32_test false resolves_test_name "failed to read DOS header"
      else
        match copy_record sizeof_nt_headers64 loaded_image (u64 (e_lfanew dos_header)) with
        | Some nt =>
            let nt_headers := decode_nt_headers nt in
            if negb (signature nt_headers =? PE_NT_SIGNATURE)
            then expect_x64_win32_test false resolves_test_name "failed to read NT headers"
            else
              let import_directory :=
                default zero_directory (data_directories (optional_header nt_headers) !! PE_IMPORT_DIRECTORY_INDEX) in
              verified ← verify_descriptors loaded_image image_size (S (S (length loaded_image / 20)))
                           (directory_virtual_address import_directory) 0;
              match (verified : option Z) with
              | None => mret false
              | Some verified_imports =>
                  expect_x64_win32_test (verified_imports =? 2) resolves_test_name
                    "expected to verify exactly two imported symbols"
              end
        | None => expect_x64_win32_test false resolves_test_name "failed to read NT headers"
        end
  | None => expect_x64_win32_test false resolves_test_name "failed to read DOS header"
  end.

Definition test_loader_resolves_win32_imports (image : list Z) : M test_output bool :=
  '(status, info, loaded_image) ← load_for_test image get_x64_win32_import_resolver;
  ok ← expect_x64_win32_test (bool_decide (status = X64_PE64_IMAGE_LOAD_STATUS_OK)) resolves_test_name
         "expected imported image to load successfully";
  if negb ok then mret false
  else
    let import_count := match (info : option x64_pe64_image_info) with Some i => info_import_count i | None => 0 end in
    let image_size := match (info : option x64_pe64_image_info) with Some i => info_image_size i | None => 0 end in
    ok ← expect_x64_win32_test (import_count =? 2) resolves_test_name "expected two resolved Win32 imports";
    if negb ok then mret false else verify_loaded_image loaded_image image_size.

Definition main (image : list Z) : M test_output Z :=
  ok ← test_loader_rejects_missing_header;
  if negb ok then mret 1
  else
    ok ← test_loader_resolves_win32_imports image;
    if negb ok then mret 1
    else
      modify (fun o => {| error_lines := error_lines o;
                          output_lines := output_lines o ++ ["PASS: x64 win32 loader unit tests"] |});;
      mret 0.

(** ** The tests end, whatever the image *)

Lemma strings_equal_ends a : forall b, 0 ∈ a -> 0 ∈ b -> is_Some (strings_equal a b).
Proof.
  induction a as [|x a IH]; intros [|y b] Ha Hb; [by apply not_elem_of_nil in Ha || by apply not_elem_of_nil in Hb..|].
  cbn [strings_equal]. destruct (Z.eqb_spec x y) as [->|]; cbn [negb]; [|by eexists].
  destruct (Z.eqb_spec y 0) as [->|Hy]; [by eexists|].
  apply elem_of_cons in Ha as [|Ha]; [congruence|]. apply elem_of_cons in Hb as [|Hb]; [congruence|]. by apply IH.
Qed.

Lemma read_c_string_loop_null image rva n : forall index buffer s,
  (Z.to_nat index + n <= length buffer)%nat -> 0 <= index ->
  read_c_string_loop n image rva index buffer = Some s -> 0 ∈ s.
Proof.
  induction n as [|n IH]; intros index buffer s Hn H0 E; [done|]. cbn [read_c_string_loop] in E.
  destruct (image !! Z.to_nat (rva + index)) as [c|]; [|done].
  destruct (Z.eqb_spec c 0) as [Hc|_].
  - injection E as <-. apply list_elem_of_lookup. exists (Z.to_nat index). rewrite Hc. apply list_lookup_insert_eq. lia.
  - apply (IH (index + 1)) in E; [done|rewrite length_insert; lia|lia].
Qed.

Lemma read_c_string_null image rva s : read_c_string image rva (replicate 64 0) = Some s -> 0 ∈ s.
Proof.
  unfold read_c_string. rewrite length_replicate. destruct (_ || _); [done|].
  apply read_c_string_loop_null; rewrite ?length_replicate; lia.
Qed.

Section ends.
Context (Q := fun (_ : option Z) (_ : test_output) => True).

Lemma expect_ends b t m o : twp (expect_x64_win32_test b t m) (fun r _ => r = b) o.
Proof. by destruct b. Qed.

Lemma test_fails_ends m o : twp (test_fails m) Q o.
Proof. done. Qed.

Lemma is_name_ends name s o : 0 ∈ name -> twp (is_name name s) (fun _ _ => True) o.
Proof.
  intros Hn. unfold is_name. assert (0 ∈ literal s) as Hl by (apply elem_of_app; right; by left).
  by destruct (strings_equal_ends name (literal s) Hn Hl) as [b ->].
Qed.

Lemma expected_syscall_ends name o : 0 ∈ name -> twp (expected_syscall_for_import name) (fun _ _ => True) o.
Proof.
  intros Hn. apply twp_bind. eapply twp_mono; [by apply is_name_ends|]. intros [] o1 _; [done|].
  apply twp_bind. eapply twp_mono; [by apply is_name_ends|]. done.
Qed.

Lemma copy_record_in n image off bs : 0 <= off -> 0 <= n -> Z.of_nat (length image) < 2 ^ 64 ->
  copy_record n image off = Some bs -> off + n <= Z.of_nat (length image).
Proof.
  intros Ho Hn Hl. unfold copy_record. destruct (Z.ltb_spec (Z.of_nat (length image)) off); [done|].
  rewrite u64_id by words. cbn [orb]. destruct (Z.ltb_spec (Z.of_nat (length image) - off) n); [done|]. intros _. lia.
Qed.

Context (loaded_image : list Z) (image_size : Z) (Hlen : Z.of_nat (length loaded_image) < 2 ^ 32).

Lemma verify_thunks_ends lookup slot : u32_ok lookup -> forall fuel i n o,
  0 <= i -> i <= Z.of_nat (length loaded_image) / 8 + 1 -> Z.of_nat (length loaded_image) / 8 + 1 < Z.of_nat fuel + i ->
  twp (verify_thunks loaded_image image_size fuel lookup slot i n) Q o.
Proof.
  intros Hl. pose proof (Z.mul_div_le (Z.of_nat (length loaded_image)) 8 ltac:(lia)).
  induction fuel as [|fuel IH]; intros i n o H0 Hi Hf; [lia|]. cbn [verify_thunks].
  destruct (copy_record 8 loaded_image (u64 (lookup + i * 8))) as [bs|] eqn:E; [|done].
  rewrite u64_id in E by words. apply copy_record_in in E; [|words..].
  destruct (copy_record _ _ (u64 (slot + i * 8))) as [bs'|]; [|done]. cbv zeta.
  destruct (_ =? 0); [done|]. destruct (negb _); [done|]. destruct (try_resolve_import_name_rva _ _); [|done].
  destruct (read_c_string _ _ _) as [name|] eqn:En; [|done]. apply read_c_string_null in En.
  apply twp_bind. eapply twp_mono; [by apply expected_syscall_ends|]. intros e o1 _.
  apply twp_bind. eapply twp_mono; [apply expect_ends|]. intros [] o2 _; [cbn [negb]|done].
  apply twp_bind. eapply twp_mono; [apply expect_ends|]. intros [] o3 _; [cbn [negb]|done].
  assert (i * 8 + 8 <= Z.of_nat (length loaded_image)) as Hb by words.
  pose proof (Z.div_le_lower_bound (Z.of_nat (length loaded_image)) 8 (i + 1) ltac:(lia) ltac:(lia)).
  rewrite (u32_id (i + 1)) by words. apply IH; lia.
Qed.
Lemma try_resolve_test_range raw rva : 0 <= raw -> try_resolve_import_name_rva raw image_size = Some rva -> u32_ok rva.
Proof. intros _. unfold try_resolve_import_name_rva. repeat case_match; intros [= <-]; apply u32_range. Qed.

Lemma verify_descriptor_ends d n o : 0 <= first_thunk d -> 0 <= original_first_thunk d ->
  twp (verify_descriptor loaded_image image_size d n) Q o.
Proof.
  intros Hf Ho. unfold verify_descriptor.
  assert (0 <= Z.of_nat (length loaded_image) / 8) by (apply Z.div_pos; lia).
  assert (forall slot lookup, u32_ok lookup -> twp (verify_thunks loaded_image image_size (S (S (length loaded_image / 8))) lookup slot 0 n) Q o).
  { intros slot lookup Hl. apply verify_thunks_ends; [done|lia|lia|]. rewrite !Nat2Z.inj_succ, Nat2Z.inj_div. lia. }
  destruct (try_resolve_import_table_rva (first_thunk d) _) as [slot|] eqn:E1; [|done].
  apply try_resolve_test_range in E1; [|done].
  destruct (negb _); [|by auto]. destruct (try_resolve_import_table_rva (original_first_thunk d) _) as [lookup|] eqn:E2; [|done].
  apply try_resolve_test_range in E2; [|done]. by auto.
Qed.

Lemma verify_descriptors_ends (Hbytes : Forall u8_ok loaded_image) : forall fuel rva n o,
  u32_ok rva -> Z.of_nat (length loaded_image) < rva + 20 * Z.of_nat fuel -> Z.of_nat (length loaded_image) < 2 ^ 31 -> (0 < fuel)%nat ->
  twp (verify_descriptors loaded_image image_size fuel rva n) Q o.
Proof.
  induction fuel as [|fuel IH]; intros rva n o Hr Hf Hs H0; [lia|]. cbn [verify_descriptors].
  destruct (copy_record sizeof_import_descriptor loaded_image rva) as [bs|] eqn:E; [|done]. cbv zeta.
  assert (Forall u8_ok bs) as Hbs by (unfold copy_record in E; destruct (_ || _); [done|]; injection E as <-; by apply Forall_slice).
  apply copy_record_in in E; unfold sizeof_import_descriptor in *; [|words..].
  destruct (is_empty_import_descriptor _); [done|]. apply twp_bind. eapply twp_mono.
  { apply verify_descriptor_ends; by apply field4_range. }
  intros [v|] o1 _; [|done]. rewrite u32_id by words. apply IH; words.
Qed.

Lemma verify_loaded_image_ends o : Forall u8_ok loaded_image -> Z.of_nat (length loaded_image) < 2 ^ 31 ->
  twp (verify_loaded_image loaded_image image_size) (fun _ _ => True) o.
Proof.
  intros Hb Hs. unfold verify_loaded_image. destruct (copy_record sizeof_dos_header loaded_image 0) as [dos|]; [|done]. cbv zeta.
  destruct (negb _); [done|].
  destruct (copy_record sizeof_nt_headers64 loaded_image _) as [nt|] eqn:E; [|done].
  assert (Forall u8_ok nt) as Hnt by (unfold copy_record in E; destruct (_ || _); [done|]; injection E as <-; by apply Forall_slice).
  destruct (negb _); [done|].
  set (rva := directory_virtual_address _). assert (Hrva : u32_ok rva).
  { unfold rva, decode_nt_headers, decode_optional_header, PE_IMPORT_DIRECTORY_INDEX. cbn.
    apply field4_range. by repeat (apply Forall_take || apply Forall_drop). }
  pose proof (Nat.mul_succ_div_gt (length loaded_image) 20 ltac:(lia)).
  apply twp_bind. eapply twp_mono; [apply verify_descriptors_ends; [done|done|words|done|lia]|].
  intros [] o1 _; [|done]. eapply twp_mono; [apply expect_ends|done].
Qed.
End ends.

Lemma length_cleared_image : Z.of_nat (length cleared_image) = X64_USER_REGION_SIZE.
Proof. unfold cleared_image. rewrite length_replicate. apply Z2Nat.id. by vm_compute. Qed.

(** A load that succeeds leaves bytes in the array and a size of 32 bits. *)
Lemma load_for_test_ends image import_resolver provides o :
  Forall u8_ok image -> u64_ok (file_size image) -> valid_resolver import_resolver provides ->
  (well_formed_headers image (x64_load_config X64_USER_IMAGE_VIRTUAL_ADDRESS X64_USER_REGION_SIZE) = true ->
   Forall (section_data_fits X64_USER_REGION_SIZE) (image_sections image)) ->
  twp (load_for_test image import_resolver)
    (fun '(status, info, l) _ => status = X64_PE64_IMAGE_LOAD_STATUS_OK ->
       Forall u8_ok l /\ Z.of_nat (length l) = X64_USER_REGION_SIZE /\ exists i, info = Some i /\ u32_ok (info_image_size i)) o.
Proof.
  intros Hb Hu Hr Hf.
  pose proof (load_x64_pe64_image_twp image X64_USER_IMAGE_VIRTUAL_ADDRESS provides cleared_image import_resolver Hb Hu Hr) as Hload.
  rewrite length_cleared_image in Hload. specialize (Hload Hf). unfold twp, load_for_test, on_array in *. unfold file_size in Hload.
  destruct (load_x64_pe64_image _ _ _ _ _ _ _ cleared_image) as [[status info] l| |]; [|done..]. intros Hok.
  destruct Hload as (Hl & Hbytes & i & Hi & Hs). cbn [fst snd] in *. rewrite decide_True in Hs by done.
  split; [by apply Hbytes|]. split; [by rewrite Hl, length_cleared_image|]. exists i. split; [done|].
  destruct Hs as (_ & _ & -> & _). by apply size_of_image_ok.
Qed.

Lemma null_resolver_valid : valid_resolver None provides_stub.
Proof. by split; [apply win32_resolver_valid|]. Qed.

(** The program ends with status 0 or 1, without a read outside the array or the
    image, whatever image the build has made, as long as its sections fit. *)
Lemma main_ends image o :
  Forall u8_ok image -> u64_ok (file_size image) ->
  (well_formed_headers image (x64_load_config X64_USER_IMAGE_VIRTUAL_ADDRESS X64_USER_REGION_SIZE) = true ->
   Forall (section_data_fits X64_USER_REGION_SIZE) (image_sections image)) ->
  twp (main image) (fun status _ => status = 0 \/ status = 1) o.
Proof.
  intros Hb Hu Hf. unfold main, test_loader_rejects_missing_header. apply twp_bind, twp_bind. eapply twp_mono.
  { apply (load_for_test_ends [0] None provides_stub).
    - apply Forall_singleton. words.
    - by vm_compute.
    - exact null_resolver_valid.
    - intros Hw. vm_compute in Hw. congruence. }
  intros [[st i0] l0] o1 _. eapply twp_mono; [apply expect_ends|]. intros [] o2 _; cbn [negb]; [|by apply twp_ret; right].
  unfold test_loader_resolves_win32_imports. apply twp_bind, twp_bind. eapply twp_mono.
  { by apply (load_for_test_ends image _ provides_stub _ Hb Hu win32_resolver_valid). }
  intros [[status info] l] o3 Hl. apply twp_bind. eapply twp_mono; [apply expect_ends|].
  intros ok o4 ->. case_bool_decide as Hok; cbn [negb]; [|by apply twp_ret, twp_ret; right].
  destruct (Hl Hok) as (Hlb & Hll & i & -> & Hi). apply twp_bind. eapply twp_mono; [apply expect_ends|].
  intros [] o5 _; cbn [negb]; [|by apply twp_ret, twp_ret; right].
  eapply twp_mono; [apply verify_loaded_image_ends; [rewrite Hll; vm_compute; congruence|done|rewrite Hll; vm_compute; congruence]|].
  intros [] o6 _; cbn [negb]; [by apply twp_bind, twp_modify, twp_ret; left|by apply twp_ret; right].
Qed.

(** ** [test_app_pe64.S]

    The image as a linker lays it out with pages of 4096 bytes: headers, [.text],
    [.rdata] and [.idata].  References to symbols in the data are addresses, not
    offsets in the image, as the assembler's [.long] and [.quad] make them. *)

Definition page (bs : list Z) : list Z := bs ++ replicate (4096 - length bs) 0.

Definition text_rva : Z := 0x1000.
Definition ring3_message : Z := 0x2000.
Definition import_descriptors : Z := 0x3000.
Definition import_lookup_table : Z := 0x3028.
Definition import_address_table : Z := 0x3040.
Definition hint_name_OutputDebugStringA : Z := 0x3058.
Definition hint_name_ExitProcess : Z := 0x306E.
Definition kernel32_name : Z := 0x307C.
Definition test_app_size : Z := 0x4000.

(** An operand relative to the end of its instruction. *)
Definition relative (target next_instruction : Z) : list Z := le_encode 4 (u32 (target - next_instruction)).

Definition user_start : list Z :=
  [0x48; 0x83; 0xEC; 40]                                                       (* sub $40, %rsp *)
  ++ [0x48; 0x8D; 0x0D] ++ relative ring3_message (text_rva + 11)              (* lea ring3_message(%rip), %rcx *)
  ++ [0xFF; 0x15] ++ relative import_address_table (text_rva + 17)             (* call *__imp_OutputDebugStringA(%rip) *)
  ++ [0x31; 0xC9]                                                              (* xor %ecx, %ecx *)
  ++ [0xFF; 0x15] ++ relative (import_address_table + 8) (text_rva + 25)       (* call *__imp_ExitProcess(%rip) *)
  ++ [0xEB; 0xFE].                                                             (* jmp .Lhang *)

Definition symbol (n : nat) (rva : Z) : list Z := le_encode n (X64_USER_IMAGE_VIRTUAL_ADDRESS + rva).

Definition thunks : list Z := symbol 8 hint_name_OutputDebugStringA ++ symbol 8 hint_name_ExitProcess ++ le_encode 8 0.

Definition idata : list Z :=
  symbol 4 import_lookup_table ++ le_encode 8 0 ++ symbol 4 kernel32_name ++ symbol 4 import_address_table
  ++ replicate 20 0 ++ thunks ++ thunks
  ++ [0; 0] ++ literal "OutputDebugStringA" ++ [0]
  ++ [0; 0] ++ literal "ExitProcess"
  ++ literal "KERNEL32.dll".

Definition test_app_message : string := "x64 PE64 Win32 import test app reached ring3".

Definition section_header (rva : Z) (data : list Z) : list Z :=
  replicate 8 0 ++ le_encode 4 (Z.of_nat (length data)) ++ le_encode 4 rva ++ le_encode 4 4096 ++ le_encode 4 rva
  ++ replicate 16 0.

Definition test_app_headers : list Z :=
  (* DOS header, signature and file header *)
  le_encode 2 PE_DOS_SIGNATURE ++ replicate 58 0 ++ le_encode 4 64
  ++ le_encode 4 PE_NT_SIGNATURE ++ le_encode 2 PE_MACHINE_X64 ++ le_encode 2 3 ++ replicate 12 0 ++ le_encode 2 240 ++ [0; 0]
  (* optional header: magic, entry point, image base, alignments, sizes, directories *)
  ++ le_encode 2 PE32_PLUS_MAGIC ++ replicate 14 0 ++ le_encode 4 text_rva ++ replicate 4 0
  ++ le_encode 8 X64_USER_IMAGE_VIRTUAL_ADDRESS ++ le_encode 4 4096 ++ le_encode 4 4096 ++ replicate 16 0
  ++ le_encode 4 test_app_size ++ le_encode 4 4096 ++ replicate 44 0 ++ le_encode 4 16
  ++ replicate 8 0 ++ le_encode 4 import_descriptors ++ le_encode 4 40 ++ replicate 112 0
  ++ section_header text_rva user_start ++ section_header ring3_message (literal test_app_message)
  ++ section_header import_descriptors idata.

Definition test_app_image : list Z :=
  page test_app_headers ++ page user_start ++ page (literal test_app_message) ++ page idata.


(** ** The loaded program, run by the emulator

    A system that records the calls: their number, their argument, and for the log
    the text at that address. *)
Definition record_call (calls : list (Z * list Z)) (state : x64_emulator_state) (memory : option (list Z))
    : x64_emulator_syscall_result * list (Z * list Z) * option (list Z) :=
  let number := nth (Z.to_nat (register_index X64_GENERAL_REGISTER_RAX)) (general_registers state) 0 in
  let argument := nth (Z.to_nat (register_index X64_GENERAL_REGISTER_RDI)) (general_registers state) 0 in
  let logs := number =? SYSCALL_DEBUG_LOG in
  ({| EmulatorTypes.status := 0;
      action := if number =? SYSCALL_THREAD_EXIT then X64_EMULATOR_SYSCALL_ACTION_EXIT_THREAD
                else X64_EMULATOR_SYSCALL_ACTION_CONTINUE |},
   calls ++ [(number, if logs then text (drop (Z.to_nat (argument - X64_USER_IMAGE_VIRTUAL_ADDRESS)) (default [] memory))
                      else [argument])],
   memory).

(** The program in a region, with the stack at its end. *)
Definition program_context (loaded_image : list Z) (entry_point : Z) : x64_execution_context (list (Z * list Z)) :=
  {| m_state :=
       {| general_registers :=
            <[Z.to_nat (register_index X64_GENERAL_REGISTER_RSP) := X64_USER_IMAGE_VIRTUAL_ADDRESS + X64_USER_REGION_SIZE - 8]>
              (replicate 16 0);
          simd_registers := replicate 16 (replicate 16 0); instruction_pointer := entry_point; flags := 0x202 |};
     m_memory := {| base_address := X64_USER_IMAGE_VIRTUAL_ADDRESS; bytes := Some loaded_image; size := X64_USER_REGION_SIZE |};
     m_callbacks := {| handle_syscall := Some record_call |};
     m_options := {| engine := X64_EMULATOR_ENGINE_INTERPRETER; instruction_budget := 64 |};
     m_result := m_result (test_context [] (make_capture 0 0 0 false None X64_EMULATOR_SYSCALL_ACTION_EXIT_THREAD)
                             X64_EMULATOR_ENGINE_INTERPRETER 64 0);
     m_world := [] |}.

(** The calls of a program that the loader accepts and the emulator runs to the
    end of its thread. *)
Definition run_loaded (r : outcome test_output (x64_pe64_image_load_status * option x64_pe64_image_info * list Z))
    : option (list (Z * list Z)) :=
  match r with
  | Returned (X64_PE64_IMAGE_LOAD_STATUS_OK, Some info, loaded_image) _ =>
      match run_x64_emulator true (program_context loaded_image (info_entry_point info)) with
      | Returned true c => if did_x64_emulator_exit_cleanly (m_result c) then Some (m_world c) else None
      | _ => None
      end
  | _ => None
  end.

Definition calls_of_program (image : list Z) : option (list (Z * list Z)) :=
  run_loaded (load_for_test image get_x64_win32_import_resolver {| error_lines := []; output_lines := [] |}).

(** The tests pass on the image of the program; and the program, loaded and run,
    makes the two system calls its imports stand for: the log, with its message,
    and the exit, with status 0. *)
Example win32_program_logs_and_exits :
  main test_app_image {| error_lines := []; output_lines := [] |} =
    Returned 0 {| error_lines := []; output_lines := ["PASS: x64 win32 loader unit tests"] |} /\
  calls_of_program test_app_image = Some [(SYSCALL_DEBUG_LOG, characters test_app_message); (SYSCALL_THREAD_EXIT, [0])].
Proof. split; by vm_compute. Qed.
