(* ===== verification/UserPrograms.v ===== *)
(** User programs: the start-up code [user/crt/src/crt0.c], the compiler's
    support functions [user/compiler_rt/src/builtins.c], and the programs of
    [user/samples]. *)
From Stdlib Require Import String.
From S2P Require Import Prelude UserMemory PlatformMemory RuntimeTypes Rpc Syscalls UserSdk LibcString LibcStdlib TerminalService.
#[local] Open Scope Z_scope.

(** ** Start-up ([crt0.c])

    The linker gathers the initialisers of a program between [__xi_a] and
    [__xi_z] and between [__xc_a] and [__xc_z]; a table is the list of the
    words from the first of its symbols up to the second. *)

Section startup.
Context {W : Type}.
(** What the program's functions do, by address, and its [main]. *)
Variable call : Z -> M (exit_state W) unit.
Variable main : M (exit_state W) Z.
Variable thread_exit_call : Z -> W -> W.

Fixpoint run_initializers (table : list Z) : M (exit_state W) unit :=
  match table with
  | [] => mret tt
  | current :: table => (if negb (current =? 0) then call current else mret tt);; run_initializers table
  end.

Definition user_start (fuel : nat) (xi xc : list Z) : M (exit_state W) unit :=
  run_initializers xi;;
  run_initializers xc;;
  status ← main;
  exit call thread_exit_call fuel status.
End startup.

(** ** [builtins.c]; the state is [__security_cookie]. *)

Definition __chkstk : M Z unit := mret tt.
Definition __chkstk_ms : M Z unit := mret tt.
Definition __security_check_cookie (cookie : Z) : M Z unit := mret tt.
Definition __security_init_cookie : M Z unit :=
  security_cookie ← get;
  if security_cookie =? 0 then modify (fun _ => 0xA5A5A5A5) else mret tt.

(** ** [samples/hello_world] and [samples/hello_world_cpp] *)

Module HelloWorld.
Section hello_world.
Context {W : Type}.
Variable ringos_syscall : Z -> list Z -> M W Z.
(** The address of the string literal. *)
Variable message : Z.

Definition main : M W Z :=
  status ← KernelSdk.debug_log ringos_syscall message;
  mret (if negb (status =? STATUS_OK) then 1 else 0).
End hello_world.
End HelloWorld.

Module HelloWorldCpp.
Record globals (W : Type) := { g_status : Z; world : W }.
Arguments g_status {W}.
Arguments world {W}.

Section hello_world.
Context {W : Type}.
Variable ringos_syscall : Z -> list Z -> M (globals W) Z.
Variable message : Z.

Definition initial_globals (w : W) : globals W := {| g_status := 1; world := w |}.

(** [std::is_integral<int32_t>::value] *)
Definition is_integral_int32 : bool := true.

(** The constructor of [g_initializer]. *)
Definition greeting_initializer : M (globals W) unit :=
  modify (fun g => {| g_status := if is_integral_int32 then 0 else 1; world := world g |}).

Definition main : M (globals W) Z :=
  g ← get;
  if negb (g_status g =? 0) then mret (g_status g)
  else
    status ← KernelSdk.debug_log ringos_syscall message;
    mret (if negb (status =? STATUS_OK) then 1 else 0).
End hello_world.
End HelloWorldCpp.

(** ** [samples/console_service_write] *)

(** The memory of a client process and the rest of the system. *)
Record client (W : Type) := { client_memory : host_memory; client_world : W }.
Arguments client_memory {W}.
Arguments client_world {W}.

Definition with_client_memory {W} (s : client W) (m : host_memory) : client W :=
  {| client_memory := m; client_world := client_world s |}.

Definition with_client_world {W} (s : client W) (w : W) : client W :=
  {| client_memory := client_memory s; client_world := w |}.

Module ConsoleServiceWrite.
(** [message] without its null character. *)
Definition message : list Z := characters "hello world through srv_terminal" ++ [10].
Definition message_length : Z := Z.of_nat (length message).

Section console_service_write.
Context {W : Type}.
Variable ringos_syscall : Z -> list Z -> M (client W) Z.
(** The addresses of the endpoint's name and of the two local objects. *)
Variables endpoint_name terminal_handle write_request : Z.

Definition store (address : Z) (bytes : list Z) : M (client W) unit :=
  modify (fun s => with_client_memory s (store_bytes (client_memory s) address bytes)).

Definition load_handle : M (client W) Z := gets (fun s => read_u64 (client_memory s) terminal_handle).

Definition main : M (client W) Z :=
  store terminal_handle (le_encode 8 RINGOS_HANDLE_INVALID);;
  open_status ← KernelSdk.rpc_open ringos_syscall endpoint_name terminal_handle;
  if negb (open_status =? STATUS_OK) then mret 1
  else
    store write_request (replicate (Z.to_nat sizeof_write_request) 0);;
    store write_request (le_encode 8 TERMINAL_SERVICE_RPC_OPERATION_WRITE_BUFFER);;
    store (write_request + 8) (le_encode 8 message_length);;
    store (write_request + 16) message;;
    handle ← load_handle;
    call_status ← KernelSdk.rpc_call ringos_syscall handle write_request sizeof_write_request;
    if negb (call_status =? STATUS_OK) then
      handle ← load_handle;
      KernelSdk.rpc_close ringos_syscall handle;;
      mret 2
    else
      handle ← load_handle;
      close_status ← KernelSdk.rpc_close ringos_syscall handle;
      mret (if close_status =? STATUS_OK then 0 else 3).
End console_service_write.
End ConsoleServiceWrite.

(** * Theorems *)

Section startup_theorems.
Context {W : Type} (call : Z -> M (exit_state W) unit) (main : M (exit_state W) Z) (thread_exit_call : Z -> W -> W).
(** What each function does to the rest of the process, and the functions it
    registers to be called at exit; the same for [main]. *)
Context (effect : Z -> W -> W) (registers : Z -> list Z) (main_effect : W -> Z * W) (main_registers : list Z).

Definition registrations (table : list Z) : list Z :=
  concat ((fun f => if f =? 0 then [] else registers f) <$> table).

Lemma run_initializers_runs table :
  Forall (fun f => f <> 0 -> runs (call f) (fun w => (tt, effect f w)) (registers f)) table ->
  runs (run_initializers call table) (fun w => (tt, effects effect table w)) (registrations table).
Proof.
  induction 1 as [|f table Hf Ht IH]; [apply runs_ret|]. cbn [run_initializers].
  unfold registrations; cbn [fmap list_fmap concat]; fold (registrations table).
  apply (runs_bind _ _ (fun w => (tt, if f =? 0 then w else effect f w)) (fun _ w => (tt, effects effect table w)));
    [|done]. destruct (Z.eqb_spec f 0); cbn [negb]; [apply runs_ret|by apply Hf].
Qed.

(** C39: A program started by crt0 ends: its initialisers run in the order of the tables (null
    pointers skipped), then main, then every function that they and main registered, the last
    registered first, and then the thread exits with the 32 bits of main's result; at most 64
    functions may be registered, and those register no others. *)
Theorem user_start_runs_program xi xc fuel w :
  let handlers := registrations (xi ++ xc) ++ main_registers in
  Forall (fun f => f <> 0 -> runs (call f) (fun w => (tt, effect f w)) (registers f)) (xi ++ xc) ->
  runs main main_effect main_registers ->
  Forall (plain call effect) handlers ->
  (length handlers <= 64)%nat -> (length handlers < fuel)%nat ->
  exists s', user_start call main thread_exit_call fuel xi xc (initial_exit_state w) = Returned tt s' /\
    exit_world s' =
      let (status, w') := main_effect (effects effect (xi ++ xc) w) in
      thread_exit_call (u32 status) (effects effect (reverse handlers) w').
Proof.
  intros handlers Hinit Hmain Hplain Hn Hfuel. pose proof Hinit as [Hxi Hxc]%Forall_app.
  set (tables := fun w => (tt, effects effect (xi ++ xc) w)).
  assert (Hbefore : runs (run_initializers call xi;; run_initializers call xc;; main) (fun w => main_effect (snd (tables w))) handlers).
  { replace handlers with (registrations xi ++ registrations xc ++ main_registers)
      by (unfold handlers, registrations; by rewrite fmap_app, concat_app, <- app_assoc).
    intros s. unfold tables, effects; cbn [snd]. rewrite foldl_app. revert s.
    apply (runs_bind _ _ _ (fun _ w => main_effect (effects effect xc w)) _ _ (run_initializers_runs xi Hxi)). intros _.
    apply (runs_bind _ _ _ (fun _ w => main_effect w) _ _ (run_initializers_runs xc Hxc)). by intros _. }
  destruct (Hbefore (initial_exit_state w)) as (s1 & E1 & Hs1 & Hr1 & Hw1);
    [apply initial_exit_state_wf|cbn; change ATEXIT_HANDLER_CAPACITY with 64; lia|].
  destruct (exit_runs_handlers_in_reverse call thread_exit_call effect handlers fuel s1
              (fst (main_effect (effects effect (xi ++ xc) w)))) as (s' & E & Hw); [done..|].
  exists s'. split.
  - unfold user_start. unfold mbind, M_bind in E1 |- *. cbn [exit_world initial_exit_state] in E1.
    destruct (run_initializers call xi _) as [[] s2| |]; [|done..].
    destruct (run_initializers call xc s2) as [[] s3| |]; [|done..]. rewrite E1. exact E.
  - rewrite Hw, Hw1. cbn [exit_world initial_exit_state tables snd]. by destruct (main_effect _).
Qed.
End startup_theorems.

(** A program's function that does not touch the table of the C library. *)
Definition in_process {W A} (m : M W A) : M (exit_state W) A := fun s =>
  match m (exit_world s) with
  | Returned a w => Returned a (with_exit_world s w)
  | Undefined u => Undefined u
  | OutOfFuel => OutOfFuel
  end.

Lemma in_process_runs {W A} (m : M W A) f :
  (forall w, m w = Returned (fst (f w)) (snd (f w))) -> runs (in_process m) f [].
Proof. intros H. apply runs_world. intros s. unfold in_process. by rewrite H. Qed.

(** ** The terminal service's client *)

(** What a client relies on: opening the service's name gives a handle, a call
    with it hands the request's bytes to the service and returns what the
    service's callback returns, and closing it succeeds.  [RpcSpecs] shows the
    kernel's side of each of them. *)
Class TerminalConnection {W V} (ringos_syscall : Z -> list Z -> M (client W) Z) (endpoint_name : Z)
    (service_syscall : Z -> list Z -> M (terminal V) Z) (terminal_line_address : Z) := {
  endpoint_name_not_null : endpoint_name <> 0;
  terminal_service : W -> terminal V;
  connected : W -> Z -> Prop;
  open_connects s out :
    c_string (client_memory s) endpoint_name (characters "srv_terminal") -> out <> 0 ->
    exists handle w,
      ringos_syscall SYSCALL_RPC_OPEN [endpoint_name; out] s
        = Returned STATUS_OK {| client_memory := write_u64 (client_memory s) out handle; client_world := w |} /\
      u64_ok handle /\ handle <> RINGOS_HANDLE_INVALID /\ connected w handle /\
      terminal_service w = terminal_service (client_world s);
  call_is_handled s handle address size status service :
    connected (client_world s) handle -> address <> 0 -> 0 < size <= 256 ->
    terminal_handle_request service_syscall terminal_line_address
      (Some (host_bytes (client_memory s) address (Z.to_nat size))) (terminal_service (client_world s))
      = Returned status service ->
    exists w, ringos_syscall SYSCALL_RPC_CALL [handle; address; size] s = Returned status (with_client_world s w) /\
      connected w handle /\ terminal_service w = service;
  close_succeeds s handle :
    connected (client_world s) handle ->
    exists w, ringos_syscall SYSCALL_RPC_CLOSE [handle] s = Returned STATUS_OK (with_client_world s w) /\
      terminal_service w = terminal_service (client_world s);
}.

Section client.
Import ConsoleServiceWrite.
Context {W V : Type} (ringos_syscall : Z -> list Z -> M (client W) Z) (service_syscall : Z -> list Z -> M (terminal V) Z).
Context (endpoint_name terminal_handle write_request terminal_line_address : Z).
Context `{!TerminalLog service_syscall terminal_line_address}
        `{!TerminalConnection ringos_syscall endpoint_name service_syscall terminal_line_address}.
Hypothesis handle_not_null : terminal_handle <> 0.
Hypothesis request_not_null : write_request <> 0.
(** The name and the two local objects do not overlap. *)
Hypothesis name_apart : endpoint_name + 13 <= terminal_handle \/ terminal_handle + 8 <= endpoint_name.
Hypothesis objects_apart : write_request + 256 <= terminal_handle \/ terminal_handle + 8 <= write_request.

Definition request : list Z := TerminalService.write_request message.

(** The four stores leave the request in its object. *)
Definition request_stored (m : host_memory) : host_memory :=
  store_bytes
    (store_bytes
       (store_bytes (store_bytes m write_request (replicate 256 0)) write_request
          (le_encode 8 TERMINAL_SERVICE_RPC_OPERATION_WRITE_BUFFER))
       (write_request + 8) (le_encode 8 message_length))
    (write_request + 16) message.

Lemma request_stored_bytes m : host_bytes (request_stored m) write_request 256 = request.
Proof.
  unfold request_stored. rewrite (host_bytes_overwritten _ _ 16) by (cbn; lia).
  rewrite (host_bytes_overwritten _ _ 8) by (cbn; lia).
  pose proof (host_bytes_overwritten (store_bytes m write_request (replicate 256 0)) write_request 0
    (le_encode 8 TERMINAL_SERVICE_RPC_OPERATION_WRITE_BUFFER) 256 ltac:(done) ltac:(cbn; lia)) as H.
  rewrite Z.add_0_r in H. rewrite H.
  pose proof (host_bytes_stored m write_request (replicate 256 0)) as H0. rewrite length_replicate in H0.
  by rewrite H0.
Qed.

Lemma request_stored_handle m : read_u64 (request_stored m) terminal_handle = read_u64 m terminal_handle.
Proof.
  apply (read_u64_unchanged write_request (write_request + 256)); [|lia]. intros y Hy. unfold request_stored.
  rewrite !store_bytes_outside; [done|cbn; lia..].
Qed.

(** C40: The sample console_service_write, connected to the terminal service (a call with the
    handle it opened hands the request's bytes to the service's handler), returns 0; the service
    has logged the line, after what it still held, and holds no unfinished line. *)
Theorem console_service_write_prints s line :
  c_string (client_memory s) endpoint_name (characters "srv_terminal") ->
  holds (terminal_service (client_world s)) line ->
  exists s', main ringos_syscall endpoint_name terminal_handle write_request s = Returned 0 s' /\
    holds (terminal_service (client_world s')) [] /\
    terminal_logged (terminal_world (terminal_service (client_world s')))
    = terminal_logged (terminal_world (terminal_service (client_world s)))
      ++ lines_of (line ++ characters "hello world through srv_terminal" ++ [10]).
Proof.
  intros Hname Hholds. unfold main. erewrite bind_eq by reflexivity.
  set (s1 := with_client_memory s (store_bytes (client_memory s) terminal_handle (le_encode 8 RINGOS_HANDLE_INVALID))).
  assert (Hname1 : c_string (client_memory s1) endpoint_name (characters "srv_terminal")).
  { eapply c_string_agree; [exact Hname|]. intros y Hy. cbn [s1 client_memory with_client_memory].
    apply store_bytes_outside. rewrite length_le_encode. cbn in Hy. lia. }
  destruct (open_connects s1 terminal_handle Hname1 handle_not_null) as (handle & w & Eopen & Hh & Hvalid & Hconn & Hsvc).
  erewrite bind_eq.
  2: { unfold KernelSdk.rpc_open. rewrite (proj2 (Z.eqb_neq _ _) endpoint_name_not_null), (proj2 (Z.eqb_neq _ _) handle_not_null). exact Eopen. }
  change (STATUS_OK =? STATUS_OK) with true. cbn [negb]. do 4 erewrite bind_eq by reflexivity.
  set (m1 := write_u64 (client_memory s1) terminal_handle handle).
  set (s2 := {| client_memory := request_stored m1; client_world := w |}).
  change (with_client_memory _ _) with s2.
  assert (Hload : load_handle terminal_handle s2 = Returned handle s2).
  { unfold load_handle, gets; cbn [s2 client_memory]. rewrite request_stored_handle; unfold m1; by rewrite read_write_u64. }
  erewrite bind_eq by exact Hload.
  destruct (handle_request_returns service_syscall terminal_line_address (terminal_service w) line request)
    as (service & line' & Ecall & Hholds' & Hend & Hlog).
  { rewrite Hsvc. exact Hholds. }
  { apply write_request_valid. vm_compute. split; repeat constructor. }
  rewrite <- (request_stored_bytes m1) in Ecall.
  destruct (call_is_handled s2 handle write_request sizeof_write_request _ _ Hconn request_not_null ltac:(done) Ecall)
    as (w' & Ecall' & Hconn' & Hsvc').
  erewrite bind_eq.
  2: { unfold KernelSdk.rpc_call. rewrite (proj2 (Z.eqb_neq _ _) Hvalid), (proj2 (Z.eqb_neq _ _) request_not_null). exact Ecall'. }
  change (STATUS_OK =? STATUS_OK) with true. cbn [negb].
  assert (Hload' : load_handle terminal_handle (with_client_world s2 w') = Returned handle (with_client_world s2 w'))
    by (unfold load_handle, gets; cbn [s2 client_memory with_client_world]; rewrite request_stored_handle; unfold m1; by rewrite read_write_u64).
  erewrite bind_eq by exact Hload'.
  destruct (close_succeeds (with_client_world s2 w') handle Hconn') as (w2 & Eclose & Hsvc2).
  erewrite bind_eq.
  2: { unfold KernelSdk.rpc_close. rewrite (proj2 (Z.eqb_neq _ _) Hvalid). exact Eclose. }
  eexists. split; [reflexivity|]. cbn [client_world with_client_world]. rewrite Hsvc2. cbn [client_world with_client_world].
  rewrite Hsvc'. rewrite Hend in Hholds', Hlog by reflexivity. split; [exact Hholds'|].
  specialize (Hlog []). rewrite Hsvc in Hlog. cbn [app] in Hlog. change (lines_of (visible [])) with (@nil (list Z)) in Hlog.
  rewrite !app_nil_r in Hlog. exact Hlog.
Qed.
End client.

(** * Instances *)

(** The C++ sample, started by [crt0.c]: its table of constructors holds the
    null pointer, the constructor of [g_initializer] (1) and one that registers
    a destructor (2, 3).  A debug log call records the address it is given. *)
Definition sample_log (number : Z) (arguments : list Z) : M (HelloWorldCpp.globals (list Z)) Z := fun g =>
  Returned STATUS_OK {| HelloWorldCpp.g_status := HelloWorldCpp.g_status g;
                        HelloWorldCpp.world := HelloWorldCpp.world g ++ arguments |}.

Definition log_value (value : Z) (g : HelloWorldCpp.globals (list Z)) : HelloWorldCpp.globals (list Z) :=
  {| HelloWorldCpp.g_status := HelloWorldCpp.g_status g; HelloWorldCpp.world := HelloWorldCpp.world g ++ [value] |}.

Definition sample_call (f : Z) : M (exit_state (HelloWorldCpp.globals (list Z))) unit :=
  if f =? 1 then in_process HelloWorldCpp.greeting_initializer
  else if f =? 2 then atexit 3;; mret tt
  else in_process (modify (log_value 100)).

Definition sample_effect (f : Z) (g : HelloWorldCpp.globals (list Z)) : HelloWorldCpp.globals (list Z) :=
  if f =? 1 then {| HelloWorldCpp.g_status := 0; HelloWorldCpp.world := HelloWorldCpp.world g |}
  else if f =? 2 then g else log_value 100 g.

Lemma user_start_runs_program_witness :
  exists s',
    user_start sample_call (in_process (HelloWorldCpp.main sample_log 0x400123)) (fun status => log_value (1000 + status)) 2
      [0] [0; 1; 2] (initial_exit_state (HelloWorldCpp.initial_globals [])) = Returned tt s' /\
    exit_world s' = {| HelloWorldCpp.g_status := 0; HelloWorldCpp.world := [0x400123; 100; 1000] |}.
Proof.
  refine (user_start_runs_program sample_call (in_process (HelloWorldCpp.main sample_log 0x400123))
    (fun status => log_value (1000 + status)) sample_effect (fun f => if f =? 2 then [3] else [])
    (fun g => if HelloWorldCpp.g_status g =? 0 then (0, log_value 0x400123 g) else (HelloWorldCpp.g_status g, g)) []
    [0] [0; 1; 2] 2 (HelloWorldCpp.initial_globals []) _ _ _ _ _).
  - assert (H1 : runs (sample_call 1) (fun g => (tt, sample_effect 1 g)) []) by (by apply in_process_runs).
    assert (H2 : runs (sample_call 2) (fun g => (tt, sample_effect 2 g)) [3]).
    { apply (runs_bind _ _ _ (fun _ g => (tt, g)) [3] [] (atexit_runs 3)). intros _. apply runs_ret. }
    repeat constructor; intros H; by first [destruct (H eq_refl)|exact H1|exact H2].
  - apply in_process_runs. intros g. unfold HelloWorldCpp.main. erewrite bind_eq by reflexivity.
    by destruct (HelloWorldCpp.g_status g =? 0).
  - repeat constructor. intros _. by apply in_process_runs.
  - cbn. lia.
  - cbn. lia.
Defined.

(** A system with one terminal service, whose name is in the client's memory. *)
Definition sample_client_syscall (number : Z) (arguments : list Z) : M (client (terminal (list (list Z)))) Z := fun s =>
  match arguments with
  | [name; out] =>
      if bool_decide (host_bytes (client_memory s) name 12 = characters "srv_terminal")
      then Returned STATUS_OK (with_client_memory s (write_u64 (client_memory s) out 7))
      else Returned STATUS_NOT_FOUND s
  | [handle; address; size] =>
      match terminal_handle_request sample_terminal_syscall 0x2000
              (Some (host_bytes (client_memory s) address (Z.to_nat size))) (client_world s) with
      | Returned status service => Returned status (with_client_world s service)
      | Undefined u => Undefined u
      | OutOfFuel => OutOfFuel
      end
  | _ => Returned STATUS_OK s
  end.

#[export] Instance sample_connection : TerminalConnection sample_client_syscall 0x1100 sample_terminal_syscall 0x2000.
Proof.
  refine {| terminal_service := fun w => w; connected := fun _ handle => handle = 7 |}.
  - done.
  - intros s out Hname Hout. exists 7, (client_world s). split.
    + unfold sample_client_syscall. apply c_string_bytes in Hname. by rewrite bool_decide_eq_true_2.
    + split_and!; vm_compute; done.
  - intros s handle address size status service -> _ _ E. exists service. unfold sample_client_syscall. by rewrite E.
  - intros s handle ->. by exists (client_world s); destruct s.
Defined.

Definition sample_client : client (terminal (list (list Z))) :=
  {| client_memory := store_bytes (fun _ => 0) 0x1100 (characters "srv_terminal"); client_world := initial_terminal [] |}.

Lemma console_service_write_prints_witness :
  exists s', ConsoleServiceWrite.main sample_client_syscall 0x1100 0x5000 0x5010 sample_client = Returned 0 s' /\
    holds (client_world s') [] /\
    terminal_world (client_world s') = [characters "hello world through srv_terminal"].
Proof.
  refine (console_service_write_prints sample_client_syscall sample_terminal_syscall 0x1100 0x5000 0x5010 0x2000
    _ _ _ _ sample_client [] _ _); [done|done|lia|lia| |apply initial_holds].
  cbn. split_and!; vm_compute; done.
Defined.
